(* ===== verification/_CoqProject ===== *)
-Q . S2P
Prelude.v
GoStr.v
Float64.v
GoNet.v
Validation.v
Types.v
Json.v
Value.v
Struct.v
Codec.v
Navigator.v
Path.v
Diff.v
ConfigStore.v
State.v
Registry.v
Services.v
Loader.v
Rpc.v
PluginClient.v
Order.v
Server.v
PluginCommands.v
Observer.v
Netlink.v
Routes.v
Network.v
Snapshot.v
Interfaces.v
Apply.v
Daemon.v
Store.v
FirewallRules.v
Firewall.v
WireGuardConfig.v
WireGuard.v
DhcpConfig.v
Dnsmasq.v
Leds.v
Logger.v
Sql.v
Sqlite.v
Database.v
FirewallLogs.v
Capture.v
Monitoring.v
Inspect.v
Client.v
Cli.v
CliPlugins.v
CliViews.v
