(* ===== verification/Prelude.v ===== *)
(** * Verification of Jack, a transactional network configuration daemon

    Jack (package [daemon] and the packages it calls) keeps the configuration
    of a router: a core of interfaces and routes, its own settings ("jack"), and
    one generic configuration per plugin.  A client stages changes (set), looks
    at them (get, show, diff, validate), commits or reverts them, and applies
    what is committed; plugins are separate processes that the daemon starts,
    orders and talks to over RPC; an observer watches the kernel for changes
    made by others.  This library models that core and proves what makes it
    correct.  Paths below are relative to src/.

    ** The files

    Shared vocabulary:
    - [Prelude]: this file; Go errors and results ([res]: a value, an error or a
      panic), the state monad [M], the predicates [no_panic], [safe] and
      [returns] with their hint databases, the program logic [wp], invariants of
      computations ([preserves], [answers]), iteration over Go maps in an
      arbitrary order ([RangeOrder]), 64-bit integers.
    - [GoStr], [Float64], [GoNet], [Json]: what the code uses of Go's strings,
      strconv, fmt, net, base64 and encoding/json packages and of uint64 and
      float64 arithmetic, executable, with the print/parse and split/join lemmas
      the components need.
    - [Value], [Struct], [Codec]: values of dynamic type, the configuration
      records as reflected tables (classes [Struct] and [StructLaws], one
      instance per record of types/types.go and types/jack.go), JSON encoding
      and decoding of both, and the round-trip lemmas.

    Components, each after the ones it calls:
    - [Validation]: validation/validation.go and validation/builder.go.
    - [Types]: types/types.go and types/jack.go with their Validate methods.
    - [Navigator]: daemon/navigator.go (a struct field by its JSON tag).
    - [Path]: daemon/path.go (SetValue and GetValue by dotted path).
    - [Diff]: daemon/diff.go.
    - [ConfigStore]: state/manager.go and state/jack.go over a file system
      whose every call may fail; the snapshot records of system/snapshot.go.
    - [State]: daemon/state.go over a heap of configuration objects, so that
      the sharing of one object by several references is visible.
    - [Registry]: daemon/registry.go; [Services]: daemon/service_registry.go.
    - [Loader]: daemon/loader.go and plugins/plugin.go over the interface
      [Host] to plugin processes.
    - [Rpc]: plugins/rpc.go, the protocol between the daemon and a plugin, in
      both directions, over an abstract [Connection]; [PluginClient]:
      plugins/client.go and the handshake that gives a plugin the daemon's
      services, a step relation over both processes.
    - [Order]: orderPluginsByDependencies and orderInterfaces of
      daemon/server.go.
    - [Server]: the daemon's world and the configuration commands of
      daemon/server.go, one definition per handler.
    - [PluginCommands]: loadPlugins and the plugin commands of daemon/server.go.
    - [Observer]: daemon/observer.go and daemon/observer_helpers.go.
    - [Netlink]: the clients of system/interfaces.go (netlink, files, commands)
      as an abstract [Kernel] with the laws the theorems use; [Routes]:
      system/routes_manager.go and system/routes.go; [Network]:
      system/network_manager.go.
    - [Snapshot]: system/snapshot_manager.go and system/rollback.go.
    - [Apply]: apply with its rollback, rollback to a checkpoint and checkpoint
      creation of daemon/server.go, over the world, the kernel and the observer
      together.
    - [Interfaces]: state/interfaces.go, the interfaces configuration made on
      the first boot.
    - [Daemon]: start-up, the dispatch of requests and shut-down of
      daemon/server.go, and the daemon as a state machine over requests.
    - [Store]: the abstract transactional store that [Daemon] implements, and
      the simulation between them.
    - [Logger]: daemon/logger, daemon/logger_bridge.go, the log streams of
      daemon/server.go and the start of cmd/daemon.go; the goroutines that
      deliver entries are steps of a relation.  The other components leave their
      log output out.

    The firewall plugin (plugins/core/firewall, a process of its own):
    - [FirewallRules]: types.go, firewall_rules.go, parser.go and the counters of
      capture.go; [Firewall]: firewall.go and the state of rpc_provider.go, over
      the nft program as an abstract [Nft] with laws.
    - [FirewallLogs]: db_operations.go and the commands of rpc_provider.go, over
      the interface of [Database]; [Capture]: the sockets of capture.go, and the
      packets from the socket to the database.

    The SQLite plugin (plugins/core/sqlite3) and its clients:
    - [Sql]: database/sql over an engine that runs the statements the plugins
      write, as a class with laws, and an engine in memory.
    - [Sqlite]: all files of the plugin; [Database]: what its service promises to
      other plugins, as a class with laws, which the plugin itself satisfies, the
      plugin behind an RPC connection, and the service of the daemon's registry.

    What surrounds the daemon:
    - [Inspect]: system/inspect.go and the info command, over the [Kernel] with
      an abstract [Inspection].
    - [Client]: the JSON of daemon/protocol.go, client/client.go and the
      connections of daemon/server.go, over the [Connection] of [Rpc].
    - [Cli], [CliPlugins], [CliViews]: the commands of cmd/ over the interface of
      client_interface.go: those that talk to the daemon, those that plugins
      bring, and those that show something.

    The monitoring plugin (plugins/core/monitoring):
    - [Monitoring]: all its files, over an abstract [Machine].

    The WireGuard plugin (plugins/core/wireguard):
    - [WireGuardConfig]: types.go and wireguard_config.go; [WireGuard]:
      wireguard.go and rpc_provider.go, over the [Kernel] with the wg program as
      an abstract [Wg] with laws over a view of the devices.

    The dnsmasq plugin (plugins/core/dnsmasq):
    - [DhcpConfig]: types.go and dnsmasq_config.go; [Dnsmasq]: dnsmasq.go,
      rpc_provider.go and the shipped template, over the files of [ConfigStore].

    The LED plugin (plugins/core/leds):
    - [Leds]: all its files, over the attributes of the LEDs as an abstract
      [Sysfs] with laws over a view of the devices.

    A definition has the name of the Go function it models; a helper that
    models part of a function says so.  A method that changes its receiver
    takes the record and returns the new one; a function with effects is a
    computation in [M] over the state it uses ([FS] for files, the host for
    processes, [ServiceRegistry], [World] for the whole daemon, [Obs] for the
    observer), and keeps the changes it made before an error.

    ** What the theorems show

    - Transactions ([State], [Server]): commit and revert; a pending
      configuration never shares its object with another reference, whatever
      commands are run; a set changes nothing but what it stages, and is read
      back by get; only validated interfaces and routes are committed.
    - Persistence ([ConfigStore], [Codec]): saving is atomic under any pattern
      of failing system calls, and what was saved loads back.
    - Path access, field access and diff ([Navigator], [Path], [Diff]): get
      after set, frame conditions, absence of panics outside the inputs named,
      and diffs that list exactly the changes.
    - Plugins ([Registry], [Services], [Loader], [Order], [PluginCommands]):
      invariants of both registries over every operation and error path, the
      readiness channels, the dependency order, termination of the loading
      waves, and total correctness of start-up and plugin-enable.
    - The RPC protocol ([Rpc], [PluginClient]): a program that calls a plugin
      through the protocol does what it does on the plugin itself; a call runs at
      most once; the handshake ends, and when it succeeds the plugin has the
      daemon's services; waiting through the protocol has no timeout.
    - Observer: the rate limit over arbitrary runs, exactly which events start
      a reconciliation, and when two destinations match.
    - The kernel's state ([Routes], [Network]): what applying a routes
      configuration or a default gateway adds, removes and keeps, on success and
      on failure; the addresses of a statically configured interface and the
      ports of a bridge after they were applied.
    - Checkpoints ([Snapshot]): restoring what was just captured changes nothing;
      what a restore does to the addresses of a link.
    - Apply ([Apply]): apply, rollback and checkpoint creation always answer and
      keep the configurations and registries; after a successful apply every
      enabled plugin has its committed configuration; what a failing interface
      leaves; rolling back to a fresh checkpoint changes nothing.
    - First boot ([Interfaces]): which links the generated configuration uses,
      that it passes validation, and that what was saved is loaded again.
    - Refinement ([Store]): what requests do to committed and staged
      configurations is what a store with edits, commits and reverts does, so
      committed interfaces and routes stay valid.
    - The daemon as a whole ([Daemon]): start-up ends and establishes what the
      commands rely on, and every reachable state satisfies the invariants.
    - Logging ([Logger]): what a call writes; that a followed log is delivered
      exactly once in some order, and a closed stream gets nothing.
    - The firewall plugin ([FirewallRules], [Firewall]): which configurations are
      accepted, the table a build leaves chain by chain, what remains after a
      failed one, and what of the logged packets is stored.
    - The packet log ([FirewallLogs], [Capture]): the schema is set up once, a
      stored packet is read first, what the queries and statistics return, that
      captured packets reach the log within the rate limit, and that no socket is
      left open; for every database service that keeps the laws.
    - The info command ([Inspect]): it always answers, and only looks.
    - The socket ([Client]): a request is served at most once over any
      connection, and what arrives is the daemon's response; what is no request
      changes nothing.
    - The command line ([Cli], [CliPlugins], [CliViews]): what jack set stored is
      what jack get prints; the tree of the commands of plugins, and that running
      one runs the plugin's command; what the views print of the daemon's answer.
    - The SQLite plugin ([Sqlite]): what applying a configuration opens and closes,
      that a log event is stored and found again, that a flushed database stays
      closed, and that nothing panics.
    - The monitoring plugin ([Monitoring]): the memory figures, the histories of
      the last minute, the units, and that stopped goroutines end.
    - The WireGuard plugin ([WireGuardConfig], [WireGuard]): which configurations
      are accepted, the devices and peers after one was applied, that a device
      with peers is always rebuilt, and the route to a tunnel's endpoint.
    - The dnsmasq plugin ([DhcpConfig], [Dnsmasq]): which configurations are
      accepted, the addresses of a pool, what a successful application leaves, and
      that a text in place is taken for an applied one.
    - The LED plugin ([Leds]): the LEDs after a configuration was applied, that a
      flush restores them, which configurations are accepted, and the list of
      triggers read back.
    - Validation: exactly which inputs are accepted.
    - Where the code does not do what it means to (for instance unregistering a
      plugin with a ready service, or a commit whose file cannot be written),
      the theorem states what it does.

    ** Parameters and assumptions

    - [RangeOrder]: the order of a Go map iteration, any permutation of the
      entries.  The order is a function of the map, so two iterations over the
      same map in one run agree.
    - [OS] (in [ConfigStore]): the outcome of the n-th system call, whether a
      failing write leaves a damaged file, the clock and the directory.
    - [Host] (in [Loader]): the plugin processes behind go-plugin and net/rpc,
      a state and operations on it that may answer anything; [HostSafe] says
      that they do not panic, and is assumed only where a theorem says that a
      command ends.
    - [FloatToInt] (in [Json]): Go's conversion of an out-of-range float64 to
      int, which the language leaves to the platform.
    - [Clock] (in [Observer]): successive readings of the monotonic clock.
    - [Kernel] (in [Netlink]): the netlink library, the file system and the
      commands behind the system package, a state and operations that may fail;
      [KernelLaws] and [LinkLaws]: what the library documents of them, over
      views of the state; [ReadLaws]: the calls that look change nothing;
      [CommandLaws]: the other calls return.
    - [Nft] (in [Firewall]): the nft program, with [NftLaws] over the chains of the
      plugin's table; [ConfigDigest]: SHA-256 of the JSON of a configuration, of
      which nothing is assumed but, in one theorem, that two digests differ and
      that trimming white space leaves one alone.
    - [Wg] (in [WireGuard]): the wg and ip programs and the listings of both
      address families, with [WgLaws] over the WireGuard devices by name.
    - [LogIO] (in [Logger]): whether the writes of the logger, calls of plugins and
      the like fail, and the clock; [JsonText]: the text of a JSON value.
    - [Sysfs] (in [Leds]): the calls on files under /sys; [LedLaws]: what the
      kernel documents of an LED's attributes; [LedWorks], assumed by the
      theorems on flush and validation: they can be read, and written with what
      they take.
    - [Connection] (in [Rpc]): net/rpc, whose transfers may fail; [ConnectionUp]
      and [ConnectionErrors]: one that works while the other process does, and one
      that fails with errors that have a text; [GoPlugin] (in [PluginClient]):
      starting and stopping a process with go-plugin.
    - [Sql] with [SqlLaws]: the SQLite engine behind database/sql, over views of
      the tables of each file; [DatabaseService] with [DatabaseServiceLaws] (in
      [Database]): the interface between plugins.
    - [NFLog] with [NFLogLaws] (in [Capture]): the sockets of go-nflog.
    - [Machine] (in [Monitoring]): /proc, the links and the clock, with
      [MachineSafe]; [FloatToUint] (in [Float64]), as [FloatToInt]; [Rendering]:
      dates as text and the asciigraph package.
    - [Inspection] (in [Inspect]): the readings of system/inspect.go, with
      [InspectionLaws]: they change nothing and do not panic.
    - [ClientInterface] (in [Cli]): the interface of cmd/client_interface.go;
      [Cobra] (in [CliPlugins]): the order of a command's children;
      [PluginFiles]: the installed plugins; [Texts] (in [Client]) and [Times] (in
      [CliViews]): the texts of values and times.
    - [Template], [DnsmasqHost] (in [Dnsmasq]): text/template, systemctl and
      dnsmasq's own test; nothing is assumed of them.
    Each has a concrete instance, and the examples and witnesses run on it.

    ** Fuel

    The topological sort gets one more unit than there are enabled plugins
    ([topological_sort_correct] shows it never runs out), and so do the loading
    waves ([waves_terminate]).  [parse_ipv6] reads at most nine groups, of
    which an address has eight; the other fuelled string functions get the
    length of their input.  [shortest_int] tries the at most 22 digit counts a
    number below 1e21 can have.  [unit_loop] divides at most six times
    ([format_size_spec]).

    ** What is not modelled, and why

    - The bytes on the socket, which are lines of JSON values here, and the
      accept loop.  Handlers run one at a time here, while the daemon runs one
      goroutine per connection; the methods of the state and of the registries
      hold their mutex, so each is one atomic step.
    - What the cobra library does with the command line, the flags, the signals
      and the terminal; the JSON encoding of the monitoring plugin's status.
    - The test doubles of system/mocks.go and the test harness: no part of the
      program.
    - A nil slice and an empty one are not told apart; nested generic maps
      belong to the configuration that contains them. *)
From Stdlib Require Export Ascii String.
From stdpp Require Export base tactics list gmap strings pretty fin_maps sorting.
From Stdlib Require Export ZArith Lia.

Open Scope Z_scope.

(** ** Go errors *)

(** A non-nil [error] value.  [ErrorText] is [errors.New] or [fmt.Errorf]
    without [%w]; [Wrapf p e] is [fmt.Errorf("p%w", e)] (the message is [p]
    followed by the message of [e]); [Joined] is [errors.Join]; [StdError] is
    an error value made by the standard library or by code outside the
    repository, named by its origin and kind. *)
Inductive error :=
| ErrorText (msg : string)
| Wrapf (prefix : string) (e : error)
| Joined (es : list error)
| StdError (origin kind : string).

(** The text of [err.Error()]. *)
Fixpoint error_string (e : error) : string :=
  match e with
  | ErrorText s => s
  | Wrapf p e => p +:+ error_string e
  | Joined es =>
      (fix go es := match es with
                    | [] => ""
                    | [e] => error_string e
                    | e :: es => error_string e +:+ String "010"%char "" +:+ go es
                    end) es
  | StdError o k => o +:+ ": " +:+ k
  end.

(** ** Results of Go functions *)

(** [Ok a]: the function returned [a] (and a nil error, if it returns one);
    [Err e]: it returned the non-nil error [e]; [Panic w]: it panicked, and
    since the repository has no [recover], the process is gone. *)
Inductive res (A : Type) :=
| Ok (a : A)
| Err (e : error)
| Panic (why : string).
Arguments Ok {A} a.
Arguments Err {A} e.
Arguments Panic {A} why.

#[export] Instance res_ret : MRet res := @Ok.
#[export] Instance res_bind : MBind res := λ A B f m,
  match m with Ok a => f a | Err e => Err e | Panic w => Panic w end.
#[export] Instance res_fmap : FMap res := λ A B f m,
  match m with Ok a => Ok (f a) | Err e => Err e | Panic w => Panic w end.

(** [wrap p m]: the caller's [if err != nil { return fmt.Errorf("p%w", err) }]. *)
Definition wrap {A} (p : string) (m : res A) : res A :=
  match m with Err e => Err (Wrapf p e) | r => r end.

(** [ok_or e o]: a nil [o] becomes the error [e]. *)
Definition ok_or {A} (e : error) (o : option A) : res A :=
  match o with Some a => Ok a | None => Err e end.

(** A call outside the repository: its error or its result. *)
Definition of_sum {A} (x : error + A) : res A := match x with inl e => Err e | inr a => Ok a end.

(** A Go function whose only result is an error, [None] standing for nil. *)
Definition check (oe : option error) : res () :=
  match oe with None => Ok () | Some e => Err e end.

(** A computation that does not panic; the hints of [no_panic] compose. *)
Definition no_panic {A} (m : res A) : Prop :=
  match m with Panic _ => False | _ => True end.
Create HintDb no_panic.
Lemma no_panic_ok {A} (a : A) : no_panic (Ok a).
Proof. done. Qed.
Lemma no_panic_err {A} e : no_panic (Err e : res A).
Proof. done. Qed.
Lemma no_panic_bind {A B} (m : res A) (f : A → res B) :
  no_panic m → (∀ a, no_panic (f a)) → no_panic (m ≫= f).
Proof. destruct m; cbn; auto. Qed.
Lemma no_panic_fmap {A B} (f : A → B) (m : res A) : no_panic m → no_panic (f <$> m).
Proof. by destruct m. Qed.
Lemma no_panic_wrap {A} p (m : res A) : no_panic m → no_panic (wrap p m).
Proof. by destruct m. Qed.
Lemma no_panic_eq {A} (m : res A) w : no_panic m → m ≠ Panic w.
Proof. by destruct m. Qed.
#[export] Hint Resolve no_panic_ok no_panic_err no_panic_bind no_panic_fmap no_panic_wrap
  : no_panic.

(** ** Stateful Go code: a state that survives errors, a result that may fail *)
Definition M (S A : Type) : Type := S → res A * S.

#[export] Instance M_ret S : MRet (M S) := λ A a s, (Ok a, s).
#[export] Instance M_bind S : MBind (M S) := λ A B f m s,
  match m s with
  | (Ok a, s') => f a s'
  | (Err e, s') => (Err e, s')
  | (Panic w, s') => (Panic w, s')
  end.

Definition get {S} : M S S := λ s, (Ok s, s).
Definition put {S} (s : S) : M S () := λ _, (Ok (), s).
Definition gets {S A} (f : S → A) : M S A := λ s, (Ok (f s), s).
Definition modify {S} (f : S → S) : M S () := λ s, (Ok (), f s).
Definition lift {S A} (r : res A) : M S A := λ s, (r, s).
Definition fail {S A} (e : error) : M S A := λ s, (Err e, s).
(** [v, err := m]: run [m] and look at its error instead of returning it. *)
Definition attempt {S A} (m : M S A) : M S (res A) := λ s,
  match m s with
  | (Panic w, s') => (Panic w, s')
  | (r, s') => (Ok r, s')
  end.
Definition wrapM {S A} (p : string) (m : M S A) : M S A := λ s,
  match m s with (r, s') => (wrap p r, s') end.

Section loops.
Context {S A : Type}.
(** [for _, x := range l { body }] where the body returns out of the
    function on an error. *)
Fixpoint for_each (l : list A) (body : A → M S ()) : M S () :=
  match l with
  | [] => mret ()
  | x :: l => body x ≫= λ _, for_each l body
  end.
End loops.

(** A stateful computation that panics in no state. *)
Definition safe {S A} (m : M S A) : Prop := ∀ s, no_panic (m s).1.
Create HintDb safe.
Section safe.
Context {S : Type}.
Lemma safe_ret {A} (a : A) : safe (mret a : M S A).
Proof. by intros s. Qed.
Lemma safe_bind {A B} (m : M S A) (f : A → M S B) :
  safe m → (∀ a, safe (f a)) → safe (m ≫= f).
Proof.
  intros Hm Hf s. specialize (Hm s). unfold mbind, M_bind.
  destruct (m s) as [[a| |] s']; cbn in *; [apply Hf|done..].
Qed.
Lemma safe_gets {A} (f : S → A) : safe (gets f).
Proof. by intros s. Qed.
Lemma safe_modify (f : S → S) : safe (modify f).
Proof. by intros s. Qed.
Lemma safe_fail {A} e : safe (fail e : M S A).
Proof. by intros s. Qed.
Lemma safe_lift {A} (r : res A) : no_panic r → safe (lift r : M S A).
Proof. by intros Hr s. Qed.
Lemma safe_attempt {A} (m : M S A) : safe m → safe (attempt m).
Proof. intros Hm s. specialize (Hm s). unfold attempt. by destruct (m s) as [[] ?]. Qed.
Lemma safe_attempt_bind {A B} (m : M S A) (f : res A → M S B) :
  safe m → (∀ r, no_panic r → safe (f r)) → safe (attempt m ≫= f).
Proof.
  intros Hm Hf s. specialize (Hm s). unfold mbind, M_bind, attempt.
  destruct (m s) as [[a|e|p] s1]; cbn in Hm; [by apply Hf..|done].
Qed.
Lemma safe_wrapM {A} p (m : M S A) : safe m → safe (wrapM p m).
Proof. intros Hm s. specialize (Hm s). unfold wrapM. by destruct (m s) as [[] ?]. Qed.
Lemma safe_for_each {A} (l : list A) (body : A → M S ()) :
  (∀ x, safe (body x)) → safe (for_each l body).
Proof. intros Hb. induction l; [done|]. by apply safe_bind. Qed.
End safe.
#[export] Hint Resolve safe_ret safe_bind safe_gets safe_modify safe_fail safe_lift safe_attempt
  safe_wrapM safe_for_each : safe.

(** A stateful computation that returns a result in every state. *)
Definition returns {S A} (m : M S A) : Prop := ∀ s, ∃ a s', m s = (Ok a, s').
Create HintDb returns.
Section returns.
Context {S : Type}.
Lemma returns_ret {A} (a : A) : returns (mret a : M S A).
Proof. intros s. by eexists _, _. Qed.
Lemma returns_bind {A B} (m : M S A) (f : A → M S B) :
  returns m → (∀ a, returns (f a)) → returns (m ≫= f).
Proof.
  intros Hm Hf s. destruct (Hm s) as (a & s1 & E). destruct (Hf a s1) as (b & s2 & E2).
  exists b, s2. unfold mbind, M_bind. by rewrite E.
Qed.
Lemma returns_gets {A} (f : S → A) : returns (gets f).
Proof. intros s. by eexists _, _. Qed.
Lemma returns_modify (f : S → S) : returns (modify f).
Proof. intros s. by eexists _, _. Qed.
(** Looking at the error of a computation that does not panic. *)
Lemma returns_attempt {A} (m : M S A) : safe m → returns (attempt m).
Proof.
  intros Hm s. specialize (Hm s). unfold attempt. destruct (m s) as [[] ?]; cbn in *; eauto; done.
Qed.
Lemma returns_attempt_bind {A B} (m : M S A) (f : res A → M S B) :
  safe m → (∀ r, no_panic r → returns (f r)) → returns (attempt m ≫= f).
Proof.
  intros Hm Hf s. specialize (Hm s). unfold mbind, M_bind, attempt.
  destruct (m s) as [[a|e|p] s1]; cbn in Hm; [by apply Hf..|done].
Qed.
Lemma returns_gets_bind {A B} (f : S → A) (P : A → Prop) (k : A → M S B) :
  (∀ s, P (f s)) → (∀ a, P a → returns (k a)) → returns (gets f ≫= k).
Proof. intros Hf Hk s. exact (Hk _ (Hf s) s). Qed.
End returns.
#[export] Hint Resolve returns_ret returns_bind returns_gets returns_modify returns_attempt
  : returns.

(** The equation of a bind, and its inversion. *)
Lemma bind_eq {S A B} (m : M S A) (f : A → M S B) s a s1 :
  m s = (Ok a, s1) → (m ≫= f) s = f a s1.
Proof. intros E. unfold mbind, M_bind. by rewrite E. Qed.
Lemma bind_ok_inv {S A B} (m : M S A) (f : A → M S B) s b s' :
  (m ≫= f) s = (Ok b, s') → ∃ a s1, m s = (Ok a, s1) ∧ f a s1 = (Ok b, s').
Proof. unfold mbind, M_bind. destruct (m s) as [[a|e|p] s1]; [eauto|done..]. Qed.

Lemma bind_wrap_eq {S A B} p (m : M S A) (f : A → M S B) s r s1 :
  m s = (r, s1) → (wrapM p m ≫= f) s =
    match r with
    | Ok a => f a s1 | Err e => (Err (Wrapf p e), s1) | Panic w => (Panic w, s1)
    end.
Proof. intros E. unfold mbind, M_bind, wrapM. rewrite E. by destruct r. Qed.
Lemma attempt_eq {S A} (m : M S A) s r s1 :
  m s = (r, s1) → no_panic r → attempt m s = (Ok r, s1).
Proof. unfold attempt. intros ->. by destruct r. Qed.
Lemma attempt_inv {S A} (m : M S A) s r s' : attempt m s = (Ok r, s') → m s = (r, s').
Proof. unfold attempt. by destruct (m s) as [[a|e|p] s1]; intros [= <- <-]. Qed.

(** The outcome of a run, its result known. *)
Lemma run_eq {A S} (p : res A * S) r : p.1 = r → p = (r, p.2).
Proof. destruct p. by intros <-. Qed.

(** A small program logic: from [s], [m] does not panic, returns values that
    satisfy [Q] with the state they are returned in, and fails only in states
    that satisfy [E]. *)
Definition wp {S A} (m : M S A) (s : S) (Q : A → S → Prop) (E : S → Prop) : Prop :=
  match m s with
  | (Ok a, s') => Q a s'
  | (Err _, s') => E s'
  | (Panic _, _) => False
  end.
Section wp.
Context {S : Type}.
Lemma wp_ret {A} (a : A) (s : S) Q E : Q a s → wp (mret a) s Q E.
Proof. done. Qed.
Lemma wp_gets {A} (f : S → A) (s : S) Q E : Q (f s) s → wp (gets f) s Q E.
Proof. done. Qed.
Lemma wp_bind {A B} (m : M S A) (f : A → M S B) s Q E :
  wp m s (λ a s', wp (f a) s' Q E) E → wp (m ≫= f) s Q E.
Proof. unfold wp, mbind, M_bind. by destruct (m s) as [[] ?]. Qed.
Lemma wp_mono {A} (m : M S A) s (Q Q' : A → S → Prop) (E E' : S → Prop) :
  wp m s Q E → (∀ a s', Q a s' → Q' a s') → (∀ s', E s' → E' s') → wp m s Q' E'.
Proof. unfold wp. destruct (m s) as [[] ?]; auto. Qed.
Lemma wp_wrapM {A} p (m : M S A) s Q E : wp m s Q E → wp (wrapM p m) s Q E.
Proof. unfold wp, wrapM. by destruct (m s) as [[] ?]. Qed.
Lemma wp_attempt {A} (m : M S A) s (Q : res A → S → Prop) E :
  wp m s (λ a, Q (Ok a)) (λ s', ∀ e, Q (Err e) s') → wp (attempt m) s Q E.
Proof. unfold wp, attempt. destruct (m s) as [[] ?]; auto. Qed.
Lemma wp_lift {A} (r : res A) (s : S) Q E :
  match r with Ok a => Q a s | Err _ => E s | Panic _ => False end → wp (lift r) s Q E.
Proof. unfold wp, lift. by destruct r. Qed.
Lemma wp_fail {A} e (s : S) (Q : A → S → Prop) E : E s → wp (fail e) s Q E.
Proof. done. Qed.
(** A loop, by an invariant over what is done and what is left. *)
Lemma wp_for_each {A} (I : list A → list A → S → Prop) (E : S → Prop) (body : A → M S ()) todo :
  ∀ don s, I don todo s →
  (∀ don x todo s, I don (x :: todo) s → wp (body x) s (λ _, I (don ++ [x]) todo) E) →
  wp (for_each todo body) s (λ _ s', I (don ++ todo) [] s') E.
Proof.
  induction todo as [|x todo IH]; intros don s HI Hb; cbn [for_each].
  { apply wp_ret. by rewrite app_nil_r. }
  apply wp_bind. eapply wp_mono; [by apply Hb| |done]. cbn. intros _ s' HI'.
  eapply wp_mono; [by apply (IH (don ++ [x]))| |done]. cbn. intros _ s''. by rewrite <- app_assoc.
Qed.
Lemma wp_safe {A} (m : M S A) s : safe m → wp m s (λ _ _, True) (λ _, True).
Proof. intros Hm. specialize (Hm s). unfold wp. by destruct (m s) as [[] ?]. Qed.
Lemma wp_result {A} (m : M S A) s r s' Q E :
  m s = (r, s') → wp m s Q E → no_panic r ∧ (∀ a, r = Ok a → Q a s') ∧ ((∃ e, r = Err e) → E s').
Proof.
  intros Em. unfold wp. rewrite Em. destruct r; intros H; split_and!; try done.
  - by intros ? [= <-].
  - by intros [].
Qed.
End wp.

(** [m] keeps the invariant [I], on errors as well, and does not panic. *)
Definition preserves {S A} (I : S → Prop) (m : M S A) : Prop :=
  ∀ s, I s → wp m s (λ _, I) I.
Create HintDb preserves.
Section preserves.
Context {S : Type} (I : S → Prop).
Lemma pres_ret {A} (a : A) : preserves I (mret a).
Proof. by intros s Hs. Qed.
Lemma pres_fail {A} e : preserves I (fail e : M S A).
Proof. by intros s Hs. Qed.
Lemma pres_lift {A} (r : res A) : no_panic r → preserves I (lift r).
Proof. intros Hr s Hs. apply wp_lift. by destruct r. Qed.
Lemma pres_gets {A} (f : S → A) : preserves I (gets f).
Proof. by intros s Hs. Qed.
Lemma pres_modify (f : S → S) : (∀ s, I s → I (f s)) → preserves I (modify f).
Proof. intros Hf s Hs. by apply Hf. Qed.
Lemma pres_bind {A B} (m : M S A) (f : A → M S B) :
  preserves I m → (∀ a, preserves I (f a)) → preserves I (m ≫= f).
Proof. intros Hm Hf s Hs. apply wp_bind. eapply wp_mono; [by apply Hm| |done]. cbn. auto. Qed.
(** What is read off a state with the invariant. *)
Lemma pres_gets_bind {A B} (P : A → Prop) (f : S → A) (k : A → M S B) :
  (∀ s, I s → P (f s)) → (∀ a, P a → preserves I (k a)) → preserves I (gets f ≫= k).
Proof. intros Hf Hk s Hs. by apply (Hk _ (Hf s Hs)). Qed.
Lemma pres_run {A} (m : M S A) s r s' : preserves I m → I s → m s = (r, s') → I s'.
Proof. intros Hm Hs E. specialize (Hm s Hs). unfold wp in Hm. rewrite E in Hm. by destruct r. Qed.
Lemma pres_attempt {A} (m : M S A) : preserves I m → preserves I (attempt m).
Proof. intros Hm s Hs. apply wp_attempt. eapply wp_mono; [by apply Hm|done|done]. Qed.
(** The result that is looked at is no panic. *)
Lemma pres_attempt_bind {A B} (m : M S A) (k : res A → M S B) :
  preserves I m → (∀ r, no_panic r → preserves I (k r)) → preserves I (attempt m ≫= k).
Proof.
  intros Hm Hk s Hs. apply wp_bind, wp_attempt. eapply wp_mono; [by apply Hm| |]; cbn.
  - intros a s' Hs'. by apply (Hk (Ok a)).
  - intros s' Hs' e. by apply (Hk (Err e)).
Qed.
Lemma pres_wrapM {A} p (m : M S A) : preserves I m → preserves I (wrapM p m).
Proof. intros Hm s Hs. by apply wp_wrapM, Hm. Qed.
Lemma pres_for_each {A} (l : list A) (body : A → M S ()) :
  (∀ x, x ∈ l → preserves I (body x)) → preserves I (for_each l body).
Proof.
  induction l as [|x l IH]; intros Hb; cbn; [apply pres_ret|].
  apply pres_bind; [apply Hb; by left|]. intros _. apply IH. intros y Hy. apply Hb. by right.
Qed.
End preserves.
#[export] Hint Resolve pres_ret pres_fail pres_gets pres_bind pres_attempt pres_wrapM : preserves.

(** [m] also never fails. *)
Definition answers {S A} (I : S → Prop) (m : M S A) : Prop :=
  ∀ s, I s → wp m s (λ _, I) (λ _, False).
Section answers.
Context {S : Type} (I : S → Prop).
Lemma ans_ret {A} (a : A) : answers I (mret a).
Proof. by intros s Hs. Qed.
Lemma ans_gets {A} (f : S → A) : answers I (gets f).
Proof. by intros s Hs. Qed.
Lemma ans_bind {A B} (m : M S A) (f : A → M S B) :
  answers I m → (∀ a, answers I (f a)) → answers I (m ≫= f).
Proof. intros Hm Hf s Hs. apply wp_bind. eapply wp_mono; [by apply Hm| |done]. cbn. auto. Qed.
Lemma ans_attempt_bind {A B} (m : M S A) (k : res A → M S B) :
  preserves I m → (∀ r, no_panic r → answers I (k r)) → answers I (attempt m ≫= k).
Proof.
  intros Hm Hk s Hs. apply wp_bind, wp_attempt. eapply wp_mono; [by apply Hm| |]; cbn.
  - intros a s' Hs'. by apply (Hk (Ok a)).
  - intros s' Hs' e. by apply (Hk (Err e)).
Qed.
Lemma ans_gets_bind {A B} (P : A → Prop) (f : S → A) (k : A → M S B) :
  (∀ s, I s → P (f s)) → (∀ a, P a → answers I (k a)) → answers I (gets f ≫= k).
Proof. intros Hf Hk s Hs. by apply (Hk _ (Hf s Hs)). Qed.
Lemma ans_for_each {A} (l : list A) (body : A → M S ()) :
  (∀ x, x ∈ l → answers I (body x)) → answers I (for_each l body).
Proof.
  induction l as [|x l IH]; intros Hb; cbn; [apply ans_ret|].
  apply ans_bind; [apply Hb; by left|]. intros _. apply IH. intros y Hy. apply Hb. by right.
Qed.
Lemma ans_pres {A} (m : M S A) : answers I m → preserves I m.
Proof. intros Hm s Hs. eapply wp_mono; [by apply Hm|done|done]. Qed.
End answers.
#[export] Hint Resolve ans_ret ans_gets ans_bind : preserves.

(** [m] keeps [I] unless it panics. *)
Definition maintains {S A} (I : S → Prop) (m : M S A) : Prop :=
  ∀ s r s', I s → m s = (r, s') → no_panic r → I s'.
Create HintDb maintains.
Section maintains.
Context {S : Type} (I : S → Prop).
Lemma mt_bind {A B} (m : M S A) (f : A → M S B) :
  maintains I m → (∀ a, maintains I (f a)) → maintains I (m ≫= f).
Proof.
  intros Hm Hf s r s' Hs. unfold mbind, M_bind.
  destruct (m s) as [[a|e|p] s1] eqn:Hms.
  - intros Hfa Hr. eapply Hf; [|done..]. by eapply Hm.
  - intros [= <- <-] _. by eapply Hm.
  - intros [= <- <-] [].
Qed.
(** The continuation may use what the first computation returned. *)
Lemma mt_bind_ok {A B} (m : M S A) (f : A → M S B) :
  maintains I m → (∀ s a s', m s = (Ok a, s') → maintains I (f a)) → maintains I (m ≫= f).
Proof.
  intros Hm Hf s r s' Hs. unfold mbind, M_bind.
  destruct (m s) as [[a|e|p] s1] eqn:Hms.
  - intros Hfa Hr. eapply Hf; [done| |done..]. by eapply Hm.
  - intros [= <- <-] _. by eapply Hm.
  - intros [= <- <-] [].
Qed.
Lemma mt_ret {A} (a : A) : maintains I (mret a).
Proof. by intros s r s' Hs [= <- <-]. Qed.
Lemma mt_lift {A} (r : res A) : maintains I (lift r).
Proof. by intros s r' s' Hs [= <- <-]. Qed.
Lemma mt_gets {A} (f : S → A) : maintains I (gets f).
Proof. by intros s r s' Hs [= <- <-]. Qed.
Lemma mt_attempt {A} (m : M S A) : maintains I m → maintains I (attempt m).
Proof.
  intros Hm s r s' Hs. unfold attempt. destruct (m s) as [[a|e|p] s1] eqn:E;
    intros [= <- <-] Hr; [by eapply Hm..|done].
Qed.
Lemma mt_wrapM {A} p (m : M S A) : maintains I m → maintains I (wrapM p m).
Proof.
  intros Hm s r s' Hs. unfold wrapM. destruct (m s) as [r1 s1] eqn:E.
  intros [= <- <-] Hr. eapply Hm; [done..|]. by destruct r1.
Qed.
Lemma mt_for_each {A} (l : list A) (body : A → M S ()) :
  (∀ x, maintains I (body x)) → maintains I (for_each l body).
Proof.
  intros Hb. induction l as [|x l IH]; cbn; [apply mt_ret|]. apply mt_bind; [apply Hb|]. by intros _.
Qed.
Lemma mt_pres {A} (m : M S A) : preserves I m → maintains I m.
Proof. intros Hm s r s' Hs E _. by eapply pres_run. Qed.
End maintains.
#[export] Hint Resolve mt_bind mt_ret mt_lift mt_gets mt_attempt mt_wrapM : maintains.

(** ** Iteration over Go maps

    A [for k, v := range m] visits every entry once, in an order the runtime
    picks.  The order is a parameter: a theorem proved for every [RangeOrder]
    holds whatever order the runtime picks for that call. *)
Class RangeOrder := {
  range : ∀ {V : Type}, gmap string V → list (string * V);
  range_perm : ∀ {V : Type} (m : gmap string V), range m ≡ₚ map_to_list m;
}.

(** One order that exists, for running the model. *)
Definition default_order : RangeOrder :=
  {| range := λ V m, map_to_list m; range_perm := λ V m, reflexivity _ |}.
Lemma range_elem `{RangeOrder} {V} (m : gmap string V) k v : (k, v) ∈ range m ↔ m !! k = Some v.
Proof. by rewrite range_perm, elem_of_map_to_list. Qed.
Lemma range_NoDup `{RangeOrder} {V} (m : gmap string V) : NoDup ((range m).*1).
Proof. rewrite range_perm. apply NoDup_fst_map_to_list. Qed.

(** A Go map value: nil or a (possibly empty) map. *)
Abbreviation gomap V := (option (gmap string V)).
(** Reading a nil map is reading an empty one. *)
Definition gm {V} (m : gomap V) : gmap string V := default ∅ m.

(** ** Machine integers *)
Definition min_int64 : Z := - 2 ^ 63.
Definition max_int64 : Z := 2 ^ 63 - 1.
(** Go's [int] arithmetic wraps around (64-bit platforms). *)
Definition wrap64 (z : Z) : Z := (z + 2 ^ 63) mod 2 ^ 64 - 2 ^ 63.
Definition itoa (z : Z) : string := pretty z.
(** A test that holds of every number of a range. *)
Lemma seqZ_cases (P : Z → bool) a n : forallb P (seqZ a n) = true → ∀ x, a ≤ x < a + n → P x = true.
Proof. intros H x Hx. rewrite forallb_forall in H. by apply H, list_elem_of_In, elem_of_seqZ. Qed.
