(* ===== verification/GoStr.v ===== *)
(** * GoStr: the string functions of Go's standard library the program calls

    A Go string is a sequence of bytes, here a [string] of 8-bit [ascii].
    [strings.Split], [Join], [TrimSpace], [HasPrefix], [Contains], [Fields],
    [ToUpper]/[ToLower] and [strconv.Atoi]/[Itoa] follow the documented
    behaviour of the Go 1.24 library the module file asks for; the lemmas are
    the ones the components need (split/join and print/parse round trips). *)
From S2P Require Import Prelude.

Definition byte_of (n : N) : ascii := Ascii.ascii_of_N n.
Definition bytes (l : list N) : string :=
  foldr (λ n s, String (byte_of n) s) "" l.

Definition dot : ascii := byte_of 46.
Definition comma : ascii := byte_of 44.
Definition hyphen : ascii := byte_of 45.
Definition colon : ascii := byte_of 58.
Definition slash : ascii := byte_of 47.
Definition newline : ascii := byte_of 10.
Definition nl : string := String newline "".

(** ** strings.Split with a one-byte separator, strings.Join *)
Fixpoint split (sep : ascii) (s : string) : list string :=
  match s with
  | "" => [""]
  | String c s' =>
      if Ascii.eqb c sep then "" :: split sep s'
      else match split sep s' with
           | [] => [String c ""]
           | w :: ws => String c w :: ws
           end
  end.

Fixpoint join (sep : string) (l : list string) : string :=
  match l with
  | [] => ""
  | [w] => w
  | w :: l => w +:+ sep +:+ join sep l
  end.

(** [%v] of a slice of strings or errors. *)
Definition fmt_list (l : list string) : string := "[" +:+ join " " l +:+ "]".

Fixpoint contains_byte (c : ascii) (s : string) : bool :=
  match s with
  | "" => false
  | String c' s' => Ascii.eqb c' c || contains_byte c s'
  end.

(** strings.HasPrefix / TrimPrefix *)
Fixpoint strip_prefix (p s : string) : option string :=
  match p, s with
  | "", _ => Some s
  | String a p', String b s' => if Ascii.eqb a b then strip_prefix p' s' else None
  | String _ _, "" => None
  end.
Definition has_prefix (s p : string) : bool := bool_decide (is_Some (strip_prefix p s)).
Definition trim_prefix (s p : string) : string := default s (strip_prefix p s).

(** strings.Index and strings.Contains *)
Fixpoint index_of (sub s : string) : option nat :=
  if has_prefix s sub then Some 0%nat
  else match s with
       | "" => None
       | String _ s' => S <$> index_of sub s'
       end.
Definition str_contains (s sub : string) : bool := bool_decide (is_Some (index_of sub s)).

Fixpoint drop_str (n : nat) (s : string) : string :=
  match n, s with
  | O, _ => s
  | S n, String _ s' => drop_str n s'
  | S _, "" => ""
  end.
Fixpoint take_str (n : nat) (s : string) : string :=
  match n, s with
  | O, _ => ""
  | S n, String c s' => String c (take_str n s')
  | S _, "" => ""
  end.

Fixpoint rev_str_onto (s acc : string) : string :=
  match s with "" => acc | String c s' => rev_str_onto s' (String c acc) end.
Definition rev_str (s : string) : string := rev_str_onto s "".

(** ** ASCII case mapping

    [strings.ToUpper]/[ToLower] also map non-ASCII letters; the program only
    compares the result with ASCII words none of whose letters is the image
    of a non-ASCII one, and otherwise writes ASCII keywords back. *)
Definition upper_byte (c : ascii) : ascii :=
  let n := Ascii.N_of_ascii c in
  if (97 <=? n)%N && (n <=? 122)%N then byte_of (n - 32) else c.
Definition lower_byte (c : ascii) : ascii :=
  let n := Ascii.N_of_ascii c in
  if (65 <=? n)%N && (n <=? 90)%N then byte_of (n + 32) else c.
Fixpoint map_str (f : ascii → ascii) (s : string) : string :=
  match s with "" => "" | String c s' => String (f c) (map_str f s') end.
Definition to_upper : string → string := map_str upper_byte.
Definition to_lower : string → string := map_str lower_byte.

(** ** White space: the UTF-8 encodings of the runes unicode.IsSpace accepts *)
Definition spaces : list string :=
  bytes <$> [[9]; [10]; [11]; [12]; [13]; [32]; [194; 133]; [194; 160];
    [225; 154; 128]; [226; 128; 128]; [226; 128; 129]; [226; 128; 130];
    [226; 128; 131]; [226; 128; 132]; [226; 128; 133]; [226; 128; 134];
    [226; 128; 135]; [226; 128; 136]; [226; 128; 137]; [226; 128; 138];
    [226; 128; 168]; [226; 128; 169]; [226; 128; 175]; [226; 129; 159];
    [227; 128; 128]]%N.

Fixpoint strip_any (ps : list string) (s : string) : option string :=
  match ps with
  | [] => None
  | p :: ps => match strip_prefix p s with Some r => Some r | None => strip_any ps s end
  end.

Fixpoint trim_left_with (fuel : nat) (ps : list string) (s : string) : string :=
  match fuel with
  | O => s
  | S fuel => match strip_any ps s with
              | Some s' => trim_left_with fuel ps s'
              | None => s
              end
  end.
(** Every stripped encoding is non-empty, so the length of the string is
    enough fuel. *)
Definition trim_left (s : string) : string := trim_left_with (String.length s) spaces s.
Definition trim_right (s : string) : string :=
  rev_str (trim_left_with (String.length s) (rev_str <$> spaces) (rev_str s)).
Definition trim_space (s : string) : string := trim_right (trim_left s).

(** strings.Fields *)
Definition flush (cur : string) (l : list string) : list string :=
  if bool_decide (cur = "") then l else rev_str cur :: l.
Fixpoint fields_with (fuel : nat) (cur s : string) : list string :=
  match fuel with
  | O => flush cur []
  | S fuel =>
      match s with
      | "" => flush cur []
      | String c s' =>
          match strip_any spaces s with
          | Some r => flush cur (fields_with fuel "" r)
          | None => fields_with fuel (String c cur) s'
          end
      end
  end.
Definition fields (s : string) : list string := fields_with (S (String.length s)) "" s.

(** ** Runes, and [%-Ns]

    The bytes utf8.DecodeRuneInString takes from the front of a non-empty
    string: those of a well-formed rune, and one otherwise. *)
Definition byte_in (lo hi : N) (s : string) : bool :=
  match s with
  | String c _ => (lo <=? Ascii.N_of_ascii c)%N && (Ascii.N_of_ascii c <=? hi)%N
  | "" => false
  end.
Definition rune_size (s : string) : nat :=
  let next := drop_str 1 s in
  let cont n := byte_in 128 191 (drop_str n s) in
  if byte_in 194 223 s && cont 1%nat then 2
  else if (byte_in 224 224 s && byte_in 160 191 next || byte_in 225 236 s && byte_in 128 191 next ||
           byte_in 237 237 s && byte_in 128 159 next || byte_in 238 239 s && byte_in 128 191 next)
          && cont 2%nat then 3
  else if (byte_in 240 240 s && byte_in 144 191 next || byte_in 241 243 s && byte_in 128 191 next ||
           byte_in 244 244 s && byte_in 128 143 next)
          && cont 2%nat && cont 3%nat then 4
  else 1.
(** utf8.RuneCountInString: a string has no more runes than bytes. *)
Fixpoint rune_count_with (fuel : nat) (s : string) : nat :=
  match fuel, s with
  | S fuel, String _ _ => S (rune_count_with fuel (drop_str (rune_size s) s))
  | _, _ => 0
  end.
Definition rune_count (s : string) : nat := rune_count_with (String.length s) s.
(** strings.Repeat of one byte, and a string padded on the right to a width. *)
Fixpoint repeat_byte (n : nat) (c : ascii) : string :=
  match n with O => "" | S n => String c (repeat_byte n c) end.
Definition pad_right (width : nat) (s : string) : string :=
  s +:+ repeat_byte (width - rune_count s) (byte_of 32).

(** strings.ReplaceAll of one byte by nothing, and a slice [s[i:j]]. *)
Fixpoint remove_byte (c : ascii) (s : string) : string :=
  match s with
  | "" => ""
  | String d s => if Ascii.eqb d c then remove_byte c s else String d (remove_byte c s)
  end.
Definition slice_str (s : string) (i j : nat) : string := take_str (j - i) (drop_str i s).

(** path/filepath.Clean of a rooted path, and Join of one with a name. *)
Fixpoint clean_parts (stack parts : list string) : list string :=
  match parts with
  | [] => rev stack
  | p :: parts =>
      if bool_decide (p = "") || bool_decide (p = ".") then clean_parts stack parts
      else if bool_decide (p = "..") then clean_parts (tail stack) parts
      else clean_parts (p :: stack) parts
  end.
Definition filepath_Join (base name : string) : string :=
  "/" +:+ join "/" (clean_parts [] (split slash (base +:+ "/" +:+ name))).
(** Clean of a relative path, and Dir. *)
Fixpoint clean_relative (stack parts : list string) : list string :=
  match parts with
  | [] => rev stack
  | p :: parts =>
      if bool_decide (p = "") || bool_decide (p = ".") then clean_relative stack parts
      else if bool_decide (p = "..") then
        match stack with
        | q :: rest => clean_relative (if bool_decide (q = "..") then p :: stack else rest) parts
        | [] => clean_relative [p] parts
        end
      else clean_relative (p :: stack) parts
  end.
Definition filepath_Dir (path : string) : string :=
  match removelast (split slash path) with
  | [] => "."
  | "" :: parts => "/" +:+ join "/" (clean_parts [] parts)
  | parts => match clean_relative [] parts with [] => "." | l => join "/" l end
  end.

(** ** strconv.Atoi *)
Definition digit_val (c : ascii) : option Z :=
  let n := Ascii.N_of_ascii c in
  if (48 <=? n)%N && (n <=? 57)%N then Some (Z.of_N n - 48) else None.
Fixpoint digits_val (acc : Z) (s : string) : option Z :=
  match s with
  | "" => Some acc
  | String c s' => d ← digit_val c; digits_val (acc * 10 + d) s'
  end.
(** A non-empty run of decimal digits. *)
Definition parse_digits (s : string) : option Z :=
  match s with "" => None | _ => digits_val 0 s end.

Definition err_syntax : error := StdError "strconv.Atoi" "invalid syntax".
Definition err_range : error := StdError "strconv.Atoi" "value out of range".

Definition in_int64 (z : Z) : bool := (min_int64 <=? z) && (z <=? max_int64).

Definition atoi (s : string) : res Z :=
  let signed := match s with
    | String c s' =>
        if Ascii.eqb c hyphen then Z.opp <$> parse_digits s'
        else if Ascii.eqb c (byte_of 43) then parse_digits s'
        else parse_digits s
    | "" => None
    end in
  match signed with
  | None => Err err_syntax
  | Some z => if in_int64 z then Ok z else Err err_range
  end.

(** ** Lemmas *)

Lemma eqb_ascii_spec (a b : ascii) : Ascii.eqb a b = true ↔ a = b.
Proof. apply Ascii.eqb_eq. Qed.

Lemma split_not_nil sep s : split sep s ≠ [].
Proof. destruct s as [|c s]; simpl; [done|]. repeat case_match; done. Qed.

Lemma split_head sep s : ∃ w ws, split sep s = w :: ws.
Proof. destruct (split sep s) eqn:E; [by apply split_not_nil in E | eauto]. Qed.

(** Join undoes Split. *)
Lemma join_split sep s : join (String sep "") (split sep s) = s.
Proof.
  induction s as [|c s IH]; [done|]. simpl.
  destruct (Ascii.eqb c sep) eqn:E.
  - apply eqb_ascii_spec in E as ->. destruct (split_head sep s) as (w & ws & Hs).
    rewrite Hs in IH |- *. simpl in *. by rewrite IH.
  - destruct (split sep s) as [|w ws] eqn:Hs; [by apply split_not_nil in Hs|].
    rewrite <-IH. by destruct ws.
Qed.

Lemma contains_byte_app c s t :
  contains_byte c (s +:+ t) = contains_byte c s || contains_byte c t.
Proof. induction s as [|d s IH]; [done|]. simpl. rewrite IH. apply orb_assoc. Qed.

Lemma split_none sep s : contains_byte sep s = false → split sep s = [s].
Proof.
  induction s as [|c s IH]; [done|]. simpl. intros [Hc Hs]%orb_false_iff.
  by rewrite Hc, IH.
Qed.

Lemma split_app sep w t :
  contains_byte sep w = false → split sep (w +:+ String sep t) = w :: split sep t.
Proof.
  induction w as [|c w IH]; simpl.
  - by rewrite Ascii.eqb_refl.
  - intros [Hc Hw]%orb_false_iff. by rewrite Hc, IH.
Qed.

(** Split undoes Join on words without the separator. *)
Lemma split_join sep l :
  l ≠ [] → Forall (λ w, contains_byte sep w = false) l →
  split sep (join (String sep "") l) = l.
Proof.
  induction l as [|w l IH]; [done|]. intros _ [Hw Hl]%Forall_cons.
  destruct l as [|w' l]; [by apply split_none|].
  change (join _ (w :: w' :: l)) with
    (w +:+ String sep "" +:+ join (String sep "") (w' :: l)).
  change (String sep "" +:+ ?x) with (String sep x).
  rewrite split_app by done. f_equal. by apply IH.
Qed.

Lemma split_pieces sep s : Forall (λ w, contains_byte sep w = false) (split sep s).
Proof.
  induction s as [|c s IH]; [by constructor|]. simpl.
  destruct (Ascii.eqb c sep) eqn:E; [by constructor|].
  destruct (split sep s) as [|w ws]; [constructor; [simpl; by rewrite E|done]|].
  apply Forall_cons in IH as [Hw Hws]. constructor; [simpl; by rewrite E, Hw | done].
Qed.

(** *** Printing and reading decimal numbers *)
Lemma digit_val_pretty n :
  (n < 10)%N → digit_val (pretty_N_char n) = Some (Z.of_N n).
Proof.
  intros Hn. assert (n = 0 ∨ n = 1 ∨ n = 2 ∨ n = 3 ∨ n = 4 ∨ n = 5 ∨ n = 6 ∨
    n = 7 ∨ n = 8 ∨ n = 9)%N as Hc by lia.
  destruct_or! Hc; subst; reflexivity.
Qed.

Lemma digits_val_pretty_go x s :
  (0 < x)%N → digits_val 0 (pretty_N_go x s) = digits_val (Z.of_N x) s.
Proof.
  revert s. induction (N.lt_wf_0 x) as [x _ IH]. intros s Hx.
  rewrite pretty_N_go_step by done.
  assert (x `mod` 10 < 10)%N as Hm by (by apply N.mod_lt).
  assert (Z.of_N x = Z.of_N (x / 10) * 10 + Z.of_N (x `mod` 10)) as Hd.
  { rewrite N2Z.inj_div, N2Z.inj_mod by done.
    pose proof (Z.div_mod (Z.of_N x) 10). lia. }
  destruct (decide (0 < x / 10)%N) as [Hq|Hq].
  - rewrite IH by (done || by apply N.div_lt). simpl.
    rewrite digit_val_pretty by done. simpl. by rewrite <-Hd.
  - assert (x / 10 = 0)%N as -> by lia. rewrite pretty_N_go_0. simpl.
    rewrite digit_val_pretty by done. simpl. f_equal. lia.
Qed.

Lemma parse_digits_pretty_N n :
  ∃ c s, pretty n = String c s ∧ digits_val 0 (String c s) = Some (Z.of_N n).
Proof.
  unfold pretty, pretty_N. case_decide as Hn; [subst; by exists (byte_of 48), ""|].
  assert (0 < n)%N as Hpos by lia.
  pose proof (digits_val_pretty_go n "" Hpos) as Hd.
  destruct (pretty_N_go n "") as [|c s] eqn:E; [|by exists c, s].
  simpl in Hd. injection Hd as Hd. lia.
Qed.

Lemma parse_digits_head c s acc v :
  digits_val acc (String c s) = Some v →
  Ascii.eqb c hyphen = false ∧ Ascii.eqb c (byte_of 43) = false.
Proof.
  simpl. intros Hd. destruct (digit_val c) as [d|] eqn:E; [|done].
  split; apply not_true_iff_false; intros ->%eqb_ascii_spec; by vm_compute in E.
Qed.

(** [strconv.Atoi] reads back what [strconv.Itoa] (and [%d]) writes. *)
Lemma atoi_itoa_eq z : atoi (itoa z) = if in_int64 z then Ok z else Err err_range.
Proof.
  destruct z as [|p|p]; [done| |].
  - destruct (parse_digits_pretty_N (Npos p)) as (c & s & Hp & Hv).
    unfold itoa. change (pretty (Z.pos p)) with (pretty (Npos p)).
    rewrite Hp. unfold atoi. destruct (parse_digits_head _ _ _ _ Hv) as [-> ->].
    unfold parse_digits. by rewrite Hv.
  - destruct (parse_digits_pretty_N (Npos p)) as (c & s & Hp & Hv).
    unfold itoa. change (pretty (Z.neg p)) with (String hyphen (pretty (Npos p))).
    rewrite Hp. unfold atoi. rewrite Ascii.eqb_refl.
    unfold parse_digits. by rewrite Hv.
Qed.
Lemma atoi_itoa z : min_int64 ≤ z ≤ max_int64 → atoi (itoa z) = Ok z.
Proof.
  intros Hz. assert (in_int64 z = true) as Hin
    by (unfold in_int64; rewrite andb_true_iff, !Z.leb_le; lia).
  by rewrite atoi_itoa_eq, Hin.
Qed.
Lemma atoi_itoa_inv z z' : atoi (itoa z) = Ok z' → z' = z.
Proof. rewrite atoi_itoa_eq. by destruct (in_int64 z); intros [=]. Qed.

Lemma atoi_range s z : atoi s = Ok z → min_int64 ≤ z ≤ max_int64.
Proof.
  unfold atoi. intros H. repeat (case_match; try done).
  all: match goal with Hi : in_int64 _ = true |- _ =>
    unfold in_int64 in Hi; apply andb_true_iff in Hi end.
  all: simplify_eq; rewrite !Z.leb_le in *; lia.
Qed.

(** *** Strings of digits *)
Fixpoint all_digits (s : string) : bool :=
  match s with
  | "" => true
  | String c s' => bool_decide (is_Some (digit_val c)) && all_digits s'
  end.

Lemma digits_val_all_digits acc s v : digits_val acc s = Some v → all_digits s = true.
Proof.
  revert acc. induction s as [|c s IH]; intros acc; [done|]. simpl.
  destruct (digit_val c) as [d|]; [|done]. simpl. by apply IH.
Qed.

Lemma all_digits_itoa z : 0 ≤ z → all_digits (itoa z) = true.
Proof.
  intros Hz. destruct z as [|p|p]; [done| |lia].
  destruct (parse_digits_pretty_N (Npos p)) as (c & s & Hp & Hv).
  unfold itoa. change (pretty (Z.pos p)) with (pretty (Npos p)).
  rewrite Hp. by eapply digits_val_all_digits.
Qed.

Lemma itoa_not_empty z : itoa z ≠ "".
Proof.
  destruct z as [|p|p]; [done| |done].
  destruct (parse_digits_pretty_N (Npos p)) as (c & s & Hp & Hv).
  unfold itoa. change (pretty (Z.pos p)) with (pretty (Npos p)). by rewrite Hp.
Qed.

Lemma digit_cases c :
  is_Some (digit_val c) → c ∈ (byte_of <$> [48;49;50;51;52;53;54;55;56;57]%N).
Proof.
  intros [v H]. unfold digit_val in H. case_match eqn:E; [|done].
  apply andb_true_iff in E as [E1%N.leb_le E2%N.leb_le].
  rewrite <-(Ascii.ascii_N_embedding c). remember (Ascii.N_of_ascii c) as n.
  assert (n = 48 ∨ n = 49 ∨ n = 50 ∨ n = 51 ∨ n = 52 ∨ n = 53 ∨ n = 54 ∨
    n = 55 ∨ n = 56 ∨ n = 57)%N as Hc by lia.
  clear -Hc. simpl. destruct_or! Hc; subst; set_solver.
Qed.

(** A test that is false on the ten digits is false on every byte of a
    string of digits. *)
Lemma contains_byte_digits c s :
  digit_val c = None → all_digits s = true → contains_byte c s = false.
Proof.
  intros Hc. induction s as [|d s IH]; [done|]. simpl.
  intros [Hd%bool_decide_eq_true Hs]%andb_true_iff. rewrite IH by done.
  rewrite orb_false_r. apply not_true_iff_false. intros ->%eqb_ascii_spec.
  rewrite Hc in Hd. by destruct Hd.
Qed.

Lemma strip_spaces_digit c s : is_Some (digit_val c) → strip_any spaces (String c s) = None.
Proof.
  intros Hc%digit_cases. simpl in Hc. rewrite !elem_of_cons in Hc.
  destruct_or! Hc; subst; try reflexivity. by apply not_elem_of_nil in Hc.
Qed.
Lemma strip_rev_spaces_digit c s :
  is_Some (digit_val c) → strip_any (rev_str <$> spaces) (String c s) = None.
Proof.
  intros Hc%digit_cases. simpl in Hc. rewrite !elem_of_cons in Hc.
  destruct_or! Hc; subst; try reflexivity. by apply not_elem_of_nil in Hc.
Qed.

Lemma rev_str_onto_digits s acc :
  all_digits s = true → all_digits acc = true → all_digits (rev_str_onto s acc) = true.
Proof.
  revert acc. induction s as [|c s IH]; intros acc; [done|]. simpl.
  intros [Hc Hs]%andb_true_iff Ha. apply IH; [done|]. simpl. by rewrite Hc, Ha.
Qed.

Lemma rev_str_onto_twice s acc t :
  rev_str_onto (rev_str_onto s acc) t = rev_str_onto acc (s +:+ t).
Proof. revert acc t. induction s as [|c s IH]; intros acc t; simpl; [done|]. by rewrite IH. Qed.

Lemma app_str_nil_r (s : string) : s +:+ "" = s.
Proof. induction s as [|c s IH]; [done|]. change (String c (s +:+ "") = String c s). by rewrite IH. Qed.

Lemma rev_str_involutive s : rev_str (rev_str s) = s.
Proof. unfold rev_str. rewrite rev_str_onto_twice. apply app_str_nil_r. Qed.

Lemma trim_left_with_digits fuel ps s :
  (∀ c t, is_Some (digit_val c) → strip_any ps (String c t) = None) →
  strip_any ps "" = None →
  all_digits s = true → trim_left_with fuel ps s = s.
Proof.
  intros Hps Hnil Hs. destruct fuel as [|fuel]; [done|]. simpl.
  destruct s as [|c s]; [by rewrite Hnil|].
  simpl in Hs. apply andb_true_iff in Hs as [Hc%bool_decide_eq_true _].
  by rewrite Hps.
Qed.

(** There is nothing to trim around a number. *)
Lemma trim_space_digits s : all_digits s = true → trim_space s = s.
Proof.
  intros Hs. unfold trim_space, trim_left, trim_right.
  rewrite !(trim_left_with_digits _ spaces s) by
    (done || apply strip_spaces_digit).
  rewrite trim_left_with_digits; [apply rev_str_involutive | apply strip_rev_spaces_digit |
    done | by apply rev_str_onto_digits].
Qed.

Lemma str_contains_byte s c : str_contains s (String c "") = contains_byte c s.
Proof.
  unfold str_contains. induction s as [|d s IH]; [done|]. simpl.
  unfold has_prefix. simpl.
  destruct (Ascii.eqb c d) eqn:E.
  - apply eqb_ascii_spec in E as ->. by rewrite Ascii.eqb_refl.
  - assert (Ascii.eqb d c = false) as ->.
    { apply not_true_iff_false. intros ->%eqb_ascii_spec. by rewrite Ascii.eqb_refl in E. }
    simpl. rewrite <-IH. by destruct (index_of (String c "") s).
Qed.

(** *** Concatenation *)
Lemma length_app_str (a b : string) : String.length (a +:+ b) = (String.length a + String.length b)%nat.
Proof. induction a as [|c a IH]; [done|]. change (S (String.length (a +:+ b)) = S (String.length a + String.length b)). by rewrite IH. Qed.
Lemma app_str_assoc (a b c : string) : (a +:+ b) +:+ c = a +:+ b +:+ c.
Proof. induction a as [|x a IH]; [done|]. change (String x ((a +:+ b) +:+ c) = String x (a +:+ b +:+ c)). by rewrite IH. Qed.
Lemma contains_byte_join c sep l :
  contains_byte c sep = false → Forall (λ w, contains_byte c w = false) l →
  contains_byte c (join sep l) = false.
Proof.
  intros Hd. induction 1 as [|w l Hw Hl IH]; [done|]. destruct l as [|w' l]; [done|].
  change (join sep (w :: w' :: l)) with (w +:+ sep +:+ join sep (w' :: l)).
  by rewrite !contains_byte_app, Hw, Hd, IH.
Qed.

Lemma index_of_byte c a b :
  contains_byte c a = false → index_of (String c "") (a +:+ String c b) = Some (String.length a).
Proof.
  induction a as [|x a IH].
  - intros _. change ("" +:+ ?t) with t. cbn [index_of]. unfold has_prefix. cbn [strip_prefix].
    by rewrite Ascii.eqb_refl.
  - cbn [contains_byte]. intros [Hx Ha]%orb_false_iff. change (String x a +:+ ?t) with (String x (a +:+ t)).
    cbn [index_of String.length]. rewrite (IH Ha). unfold has_prefix. cbn [strip_prefix].
    assert (Ascii.eqb c x = false) as ->; [|done].
    apply not_true_iff_false. intros ->%eqb_ascii_spec. by rewrite Ascii.eqb_refl in Hx.
Qed.
Lemma drop_str_app a b : drop_str (String.length a) (a +:+ b) = b.
Proof. by induction a. Qed.
Lemma take_str_app a b : take_str (String.length a) (a +:+ b) = a.
Proof.
  induction a as [|c a IH]; [by destruct b|].
  change (String c a +:+ b) with (String c (a +:+ b)). cbn [String.length take_str]. by rewrite IH.
Qed.

(** ** Words: printable bytes without white space *)
Definition graphic (c : ascii) : bool :=
  let n := Ascii.N_of_ascii c in (33 <=? n)%N && (n <=? 126)%N.
Fixpoint all_graphic (s : string) : bool :=
  match s with "" => true | String c s => graphic c && all_graphic s end.
Definition word (w : string) : Prop := w ≠ "" ∧ all_graphic w = true.

Lemma graphic_cases (P : ascii → bool) :
  forallb (λ n, P (byte_of (Z.to_N n))) (seqZ 33 94) = true → ∀ c, graphic c = true → P c = true.
Proof.
  intros H c Hc. unfold graphic in Hc. apply andb_true_iff in Hc as [H1%N.leb_le H2%N.leb_le].
  pose proof (seqZ_cases (λ n, P (byte_of (Z.to_N n))) 33 94 H (Z.of_N (Ascii.N_of_ascii c))) as Hp.
  cbn beta in Hp. rewrite N2Z.id in Hp. unfold byte_of in Hp.
  rewrite Ascii.ascii_N_embedding in Hp. apply Hp. lia.
Qed.
(** No white space begins with a graphic byte, read from either end. *)
Definition first_byte (s : string) : ascii := match s with String c _ => c | "" => newline end.
Lemma strip_any_first ps c s :
  Forall (λ p, p ≠ "") ps → forallb (λ p, negb (Ascii.eqb (first_byte p) c)) ps = true →
  strip_any ps (String c s) = None.
Proof.
  induction ps as [|p ps IH]; cbn [strip_any forallb]; [done|].
  intros [Hp Hps]%Forall_cons [Hc Hcs]%andb_true_iff. destruct p as [|a p]; [done|].
  cbn [strip_prefix first_byte] in *. apply negb_true_iff in Hc. rewrite Hc. by apply IH.
Qed.
Lemma strip_spaces_graphic c s : graphic c = true → strip_any spaces (String c s) = None.
Proof.
  intros Hc. apply strip_any_first; [by repeat constructor|].
  by apply (graphic_cases (λ c, forallb (λ p, negb (Ascii.eqb (first_byte p) c)) spaces)).
Qed.
Lemma strip_rev_spaces_graphic c s :
  graphic c = true → strip_any (rev_str <$> spaces) (String c s) = None.
Proof.
  intros Hc. apply strip_any_first; [by repeat constructor|].
  by apply (graphic_cases (λ c, forallb (λ p, negb (Ascii.eqb (first_byte p) c)) (rev_str <$> spaces))).
Qed.
Lemma graphic_no_byte b w : graphic b = false → all_graphic w = true → contains_byte b w = false.
Proof.
  intros Hb. induction w as [|c w IH]; [done|]. cbn [all_graphic]. intros [Hc Hw]%andb_true_iff.
  change (Ascii.eqb c b || contains_byte b w = false). rewrite (IH Hw), orb_false_r.
  apply not_true_iff_false. intros ->%eqb_ascii_spec. congruence.
Qed.

Lemma rev_str_onto_app a b acc : rev_str_onto (a +:+ b) acc = rev_str_onto b (rev_str_onto a acc).
Proof. revert acc. induction a as [|c a IH]; intros acc; [done|]. apply IH. Qed.
Lemma rev_str_onto_acc s acc : rev_str_onto s acc = rev_str s +:+ acc.
Proof.
  revert acc. induction s as [|c s IH]; intros acc; [done|]. unfold rev_str. cbn [rev_str_onto].
  rewrite IH, (IH (String c "")). by rewrite app_str_assoc.
Qed.
Lemma rev_str_app a b : rev_str (a +:+ b) = rev_str b +:+ rev_str a.
Proof. unfold rev_str at 1. rewrite rev_str_onto_app. apply rev_str_onto_acc. Qed.
Lemma all_graphic_app a b : all_graphic (a +:+ b) = all_graphic a && all_graphic b.
Proof.
  induction a as [|c a IH]; [done|]. change (graphic c && all_graphic (a +:+ b) = graphic c && all_graphic a && all_graphic b).
  by rewrite IH, andb_assoc.
Qed.
Lemma all_graphic_rev s : all_graphic (rev_str s) = all_graphic s.
Proof.
  induction s as [|c s IH]; [done|]. change (String c s) with (String c "" +:+ s).
  rewrite rev_str_app, !all_graphic_app, IH. apply andb_comm.
Qed.

(** Strings that begin and end with a graphic byte. *)
Definition begins (s : string) : Prop := ∃ c t, s = String c t ∧ graphic c = true.
Definition framed (s : string) : Prop := begins s ∧ begins (rev_str s).
Lemma begins_app a b : begins a → begins (a +:+ b).
Proof. intros (c & t & -> & Hc). by exists c, (t +:+ b). Qed.
Lemma framed_word w : word w → framed w.
Proof.
  intros [Hn Hw]. split.
  - destruct w as [|c w]; [done|]. apply andb_true_iff in Hw as [Hc _]. by exists c, w.
  - rewrite <- all_graphic_rev in Hw. destruct (rev_str w) as [|c t] eqn:E.
    + by rewrite <- (rev_str_involutive w), E in Hn.
    + apply andb_true_iff in Hw as [Hc _]. by exists c, t.
Qed.
Lemma framed_join sep l : l ≠ [] → Forall framed l → framed (join sep l).
Proof.
  intros Hn Hl. split.
  - destruct Hl as [|w l [Hw _] _]; [done|]. destruct l; [done|]. by apply begins_app.
  - induction Hl as [|w l [_ Hw] Hl IH]; [done|]. destruct l as [|w' l]; [done|].
    change (join sep (w :: w' :: l)) with (w +:+ sep +:+ join sep (w' :: l)).
    rewrite !rev_str_app, app_str_assoc. by apply begins_app, IH.
Qed.
Lemma trim_left_with_begins fuel ps s :
  (∀ c t, graphic c = true → strip_any ps (String c t) = None) → begins s → trim_left_with fuel ps s = s.
Proof. intros Hp (c & t & -> & Hc). destruct fuel; [done|]. cbn [trim_left_with]. by rewrite Hp. Qed.
Lemma trim_space_line s : framed s → trim_space (s +:+ String newline "") = s.
Proof.
  intros [Hb He]. unfold trim_space, trim_left.
  rewrite trim_left_with_begins by (eauto using strip_spaces_graphic, begins_app).
  unfold trim_right. rewrite rev_str_app.
  assert (∀ n, trim_left_with (S n) (rev_str <$> spaces) (String newline (rev_str s)) = rev_str s) as Ht.
  { intros n. change (trim_left_with n (rev_str <$> spaces) (rev_str s) = rev_str s).
    apply trim_left_with_begins; [apply strip_rev_spaces_graphic|done]. }
  destruct Hb as (c & t & -> & _). change (String.length (String c t +:+ _)) with (S (String.length (t +:+ String newline ""))).
  change (rev_str (String newline "") +:+ rev_str (String c t)) with (String newline (rev_str (String c t))).
  rewrite Ht. apply rev_str_involutive.
Qed.

Lemma fields_graphic w fuel cur rest :
  all_graphic w = true →
  fields_with (String.length w + fuel) cur (w +:+ rest) = fields_with fuel (rev_str_onto w cur) rest.
Proof.
  revert cur. induction w as [|c w IH]; intros cur; [done|].
  cbn [all_graphic]. intros [Hc Hw]%andb_true_iff.
  change (String c w +:+ rest) with (String c (w +:+ rest)).
  cbn [String.length Nat.add fields_with]. rewrite strip_spaces_graphic by done. by apply IH.
Qed.
Lemma flush_word w l : word w → flush (rev_str_onto w "") l = w :: l.
Proof.
  intros [Hn _]. unfold flush. change (rev_str_onto w "") with (rev_str w).
  rewrite bool_decide_eq_false_2; [by rewrite rev_str_involutive|].
  intros E. apply Hn. by rewrite <- (rev_str_involutive w), E.
Qed.
(** Words with one white byte between them, which [sep] is. *)
Lemma fields_join sep l :
  (∀ s, strip_any spaces (String sep s) = Some s) → Forall word l →
  fields (join (String sep "") l) = l.
Proof.
  intros Hsep Hl. unfold fields. assert (∀ fuel, (String.length (join (String sep "") l) < fuel)%nat →
    fields_with fuel "" (join (String sep "") l) = l) as H; [|apply H; lia].
  induction Hl as [|w l Hw Hl IH]; intros fuel Hf; [by destruct fuel; [lia|]|].
  destruct l as [|w' l].
  - change (join (String sep "") [w]) with w in *. rewrite <- (app_str_nil_r w) at 1.
    replace fuel with (String.length w + S (fuel - String.length w - 1))%nat by lia.
    rewrite fields_graphic by apply Hw. by apply flush_word.
  - change (join (String sep "") (w :: w' :: l)) with (w +:+ String sep (join (String sep "") (w' :: l))) in *.
    rewrite length_app_str in Hf. cbn [String.length] in Hf.
    replace fuel with (String.length w + S (fuel - String.length w - 1))%nat by lia.
    rewrite fields_graphic by apply Hw. cbn [fields_with].
    rewrite Hsep. cbn match. rewrite IH by lia. by apply flush_word.
Qed.
Lemma all_graphic_digits s : all_digits s = true → all_graphic s = true.
Proof.
  induction s as [|c s IH]; [done|]. cbn [all_digits all_graphic].
  intros [Hc%bool_decide_eq_true%digit_cases Hs]%andb_true_iff. rewrite (IH Hs), andb_true_r.
  cbn in Hc. rewrite !elem_of_cons in Hc. by destruct_or! Hc; subst; [..|by apply not_elem_of_nil in Hc].
Qed.
Lemma itoa_word z : word (itoa z).
Proof.
  split; [apply itoa_not_empty|]. destruct z as [|p|p]; [done|by apply all_graphic_digits, all_digits_itoa|].
  change (all_graphic (pretty (N.pos p)) = true).
  change (pretty (N.pos p)) with (itoa (Z.pos p)). by apply all_graphic_digits, all_digits_itoa.
Qed.
