(* ===== verification/Float64.v ===== *)
(** * Float64: Go's float64 and uint64, as the monitoring plugin uses them

    A float64 is a [spec_float] of the Standard Library with the parameters of
    IEEE binary64, whose operations round to nearest, ties to even.  Also the
    texts fmt and strconv make and read of them.  Hexadecimal floats, which
    strconv reads too, are taken for text that is no number. *)
From Stdlib Require Import SpecFloat.
From S2P Require Import Prelude GoStr.

(** ** uint64 *)
Definition max_uint64 : Z := 2 ^ 64 - 1.
Definition u64 (z : Z) : Z := z mod 2 ^ 64.
Definition is_u64 (z : Z) : Prop := 0 ≤ z < 2 ^ 64.
Lemma u64_range z : is_u64 (u64 z).
Proof. apply Z.mod_pos_bound. lia. Qed.
Lemma u64_id z : is_u64 z → u64 z = z.
Proof. apply Z.mod_small. Qed.

(** [val, _ := strconv.ParseUint(s, 10, 64)]: zero for text that is no number,
    the largest value for a number that is too large. *)
Fixpoint parse_uint_from (n : Z) (s : string) : Z :=
  match s with
  | "" => n
  | String c s =>
      match digit_val c with
      | None => 0
      | Some d => if max_uint64 <? n * 10 + d then max_uint64 else parse_uint_from (n * 10 + d) s
      end
  end.
Definition ParseUint (s : string) : Z :=
  match s with "" => 0 | _ => parse_uint_from 0 s end.

Lemma digit_val_nonneg c d : digit_val c = Some d → 0 ≤ d.
Proof.
  unfold digit_val. destruct (48 <=? Ascii.N_of_ascii c)%N eqn:E; [|done]. apply N.leb_le in E.
  destruct (_ <=? 57)%N; [|done]. intros [= <-]. lia.
Qed.
Lemma parse_uint_range s : ∀ n, is_u64 n → is_u64 (parse_uint_from n s).
Proof.
  induction s as [|c s IH]; intros n Hn; [done|]. cbn [parse_uint_from].
  destruct (digit_val c) as [d|] eqn:Hd; [|by split]. apply digit_val_nonneg in Hd.
  destruct (Z.ltb_spec max_uint64 (n * 10 + d)); [by split|].
  apply IH. destruct Hn. split; [lia|]. unfold max_uint64 in *. lia.
Qed.
Lemma ParseUint_range s : is_u64 (ParseUint s).
Proof. unfold ParseUint. destruct s; [by split|]. by apply parse_uint_range. Qed.
Lemma digits_val_le s : ∀ n z, 0 ≤ n → digits_val n s = Some z → n ≤ z.
Proof.
  induction s as [|c s IH]; intros n z Hn; cbn; [intros [= ->]; lia|].
  destruct (digit_val c) as [d|] eqn:Hd; cbn; [|done]. apply digit_val_nonneg in Hd. intros Hz.
  specialize (IH (n * 10 + d) z ltac:(lia) Hz). lia.
Qed.
Lemma parse_uint_digits s : ∀ n z,
  0 ≤ n → digits_val n s = Some z → z ≤ max_uint64 → parse_uint_from n s = z.
Proof.
  induction s as [|c s IH]; intros n z Hn Hz Hm; cbn in *; [by injection Hz|].
  destruct (digit_val c) as [d|] eqn:Hd; cbn in *; [|done]. apply digit_val_nonneg in Hd.
  pose proof (digits_val_le s (n * 10 + d) z ltac:(lia) Hz).
  destruct (Z.ltb_spec max_uint64 (n * 10 + d)); [lia|]. by apply IH; [lia|..].
Qed.
Lemma ParseUint_itoa z : is_u64 z → ParseUint (itoa z) = z.
Proof.
  intros [H0 Hm]. destruct z as [|q|q]; [done| |lia].
  destruct (parse_digits_pretty_N (Npos q)) as (c & s & Hp & Hv).
  assert (itoa (Zpos q) = String c s) as -> by exact Hp.
  apply parse_uint_digits; [done|exact Hv|unfold max_uint64; lia].
Qed.

(** ** float64 *)
Notation float := spec_float.
Definition of_Z (z : Z) : float := binary_normalize 53 1024 z 0 false.
Definition fadd : float → float → float := SFadd 53 1024.
Definition fsub : float → float → float := SFsub 53 1024.
Definition fmul : float → float → float := SFmul 53 1024.
Definition fdiv : float → float → float := SFdiv 53 1024.
Definition fpos (x : float) : bool := SFltb (S754_zero false) x.

(** [uint64(f)] truncates; out of range the result is implementation-defined. *)
Class FloatToUint := { float_to_uint_overflow : float → Z }.
Definition truncate (x : float) : option Z :=
  match x with
  | S754_zero _ => Some 0
  | S754_finite s m e =>
      let a := if 0 <=? e then Zpos m * 2 ^ e else Zpos m / 2 ^ (- e) in
      Some (if s then - a else a)
  | _ => None
  end.
Definition uint64_of_float `{FloatToUint} (x : float) : Z :=
  match truncate x with
  | Some z => if (0 <=? z) && (z <=? max_uint64) then z else u64 (float_to_uint_overflow x)
  | None => u64 (float_to_uint_overflow x)
  end.
Lemma uint64_of_float_range `{FloatToUint} x : is_u64 (uint64_of_float x).
Proof.
  unfold uint64_of_float. destruct (truncate x) as [z|]; [|apply u64_range].
  destruct (Z.leb_spec 0 z), (Z.leb_spec z max_uint64); cbn; try apply u64_range.
  unfold is_u64, max_uint64 in *. lia.
Qed.
(** What Go compiles for amd64 returns for a value past 2^63 that is too large. *)
Definition amd64_float_to_uint : FloatToUint := {| float_to_uint_overflow _ := 2 ^ 63 |}.

(** ** Texts *)

Definition pad_left (width : nat) (s : string) : string :=
  repeat_byte (width - rune_count s) (byte_of 32) +:+ s.
(** [fmt.Sprintf("%.df", x)]: the decimal nearest to the exact value, ties to
    even. *)
Definition nearest (n d : Z) : Z :=
  let q := n / d in
  let r := n mod d in
  if (2 * r <? d) || ((2 * r =? d) && Z.even q) then q else q + 1.
Definition zero_padded (width : nat) (z : Z) : string :=
  let s := itoa z in repeat_byte (width - String.length s) (byte_of 48) +:+ s.
Definition fixed (digits : nat) (x : float) : string :=
  let signed (s : bool) (t : string) := if s then "-" +:+ t else t in
  let text (s : bool) (scaled : Z) :=
    let p := 10 ^ Z.of_nat digits in
    signed s (itoa (scaled / p) +:+ "." +:+ zero_padded digits (scaled mod p)) in
  match x with
  | S754_zero s => text s 0
  | S754_finite s m e =>
      let n := Zpos m * 10 ^ Z.of_nat digits in
      text s (if 0 <=? e then n * 2 ^ e else nearest n (2 ^ (- e)))
  | S754_infinity s => if s then "-Inf" else "+Inf"
  | S754_nan => "NaN"
  end.

(** [x, _ := strconv.ParseFloat(s, 64)]: zero for text that is no number, an
    infinity for a number that is too large.  First the digits, with those after
    the point counted, then the exponent. *)
Record decimal := { de_mantissa : Z; de_seen : bool; de_scale : Z; de_point : bool }.
Fixpoint parse_mantissa (d : decimal) (s : string) : decimal * string :=
  match s with
  | "" => (d, "")
  | String c s' =>
      match digit_val c with
      | Some v =>
          parse_mantissa {| de_mantissa := de_mantissa d * 10 + v; de_seen := true;
            de_scale := if de_point d then de_scale d - 1 else de_scale d;
            de_point := de_point d |} s'
      | None =>
          if Ascii.eqb c dot && negb (de_point d) then
            parse_mantissa {| de_mantissa := de_mantissa d; de_seen := de_seen d;
              de_scale := de_scale d; de_point := true |} s'
          else (d, s)
      end
  end.
Fixpoint parse_exponent (e : Z) (s : string) : option Z :=
  match s with
  | "" => Some e
  | String c s =>
      v ← digit_val c;
      parse_exponent (if e <? 10000 then e * 10 + v else e) s
  end.
Definition exponent_of (s : string) : option Z :=
  match s with
  | "" => Some 0
  | String c s =>
      if Ascii.eqb (lower_byte c) (byte_of 101) then
        let '(sign, s) := match s with
          | String c s' => if Ascii.eqb c hyphen then (-1, s')
                           else if Ascii.eqb c (byte_of 43) then (1, s') else (1, s)
          | "" => (1, "")
          end in
        match s with "" => None | _ => Z.mul sign <$> parse_exponent 0 s end
      else None
  end.
(** The float64 nearest to [n / d]. *)
Definition of_ratio (n d : positive) : float :=
  let '(m, e, l) := SFdiv_core_binary 53 1024 (Zpos n) 0 (Zpos d) 0 in
  binary_round_aux 53 1024 false m e l.
Definition of_decimal (m e : Z) : float :=
  match m with
  | Zpos n =>
      if 0 <=? e then of_Z (m * 10 ^ e)
      else match 10 ^ (- e) with Zpos d => of_ratio n d | _ => S754_zero false end
  | _ => S754_zero false
  end.
Definition parse_unsigned (s : string) : option float :=
  let '(d, rest) :=
    parse_mantissa {| de_mantissa := 0; de_seen := false; de_scale := 0; de_point := false |} s in
  if de_seen d then (λ e, of_decimal (de_mantissa d) (de_scale d + e)) <$> exponent_of rest else None.
Definition ParseFloat (s : string) : float :=
  let word := to_lower s in
  let number (t : string) : option float :=
    if bool_decide (t ∈ ["inf"; "infinity"]) then Some (S754_infinity false) else parse_unsigned t in
  if bool_decide (word = "nan") then S754_nan
  else default (S754_zero false)
    match word with
    | String c t =>
        if Ascii.eqb c hyphen then SFopp <$> number t
        else if Ascii.eqb c (byte_of 43) then number t
        else number word
    | "" => None
    end.

Example parse_float_examples :
  fixed 2 (ParseFloat "0.52") = "0.52" ∧ fixed 3 (ParseFloat "1e-3") = "0.001" ∧
  fixed 1 (ParseFloat "2.25") = "2.2" ∧ fixed 2 (ParseFloat "-12.") = "-12.00" ∧
  ParseFloat "1e400" = S754_infinity false ∧ ParseFloat "1.2.3" = S754_zero false ∧
  truncate (ParseFloat "18446744073709551615") = Some (2 ^ 64).
Proof. vm_compute. repeat split. Qed.
