(* ===== verification/GoNet.v ===== *)
(** * GoNet: the address parsers of Go's [net] and [encoding/base64] packages

    The parts of the Go 1.24 standard library that the validators and the
    route code call: [net.ParseIP], [net.ParseCIDR], [IP.To4], [IP.String],
    [IPNet.String], [net.ParseMAC], [net.SplitHostPort] and
    [base64.StdEncoding.DecodeString].  An address is the list of its bytes
    (4 or 16 integers below 256). *)
From S2P Require Import Prelude GoStr.

(** ** netip.ParseAddr *)

(** One dotted field: decimal, at most 255, no leading zero. *)
Definition parse_octet (s : string) : option Z :=
  match s with
  | String c (String _ _) =>
      if Ascii.eqb c (byte_of 48) then None
      else v ← parse_digits s; if v <=? 255 then Some v else None
  | _ => v ← parse_digits s; if v <=? 255 then Some v else None
  end.

Definition parse_ipv4 (s : string) : option (list Z) :=
  match split dot s with
  | [a; b; c; d] =>
      a ← parse_octet a; b ← parse_octet b; c ← parse_octet c; d ← parse_octet d;
      Some [a; b; c; d]
  | _ => None
  end.

Definition hex_val (c : ascii) : option Z :=
  let n := Ascii.N_of_ascii c in
  if (48 <=? n)%N && (n <=? 57)%N then Some (Z.of_N n - 48)
  else if (97 <=? n)%N && (n <=? 102)%N then Some (Z.of_N n - 87)
  else if (65 <=? n)%N && (n <=? 70)%N then Some (Z.of_N n - 55)
  else None.

(** The leading run of hex digits: its value, its length, what follows. *)
Fixpoint hex_run (acc : Z) (len : nat) (s : string) : Z * nat * string :=
  match s with
  | "" => (acc, len, s)
  | String c s' => match hex_val c with
                   | Some d => hex_run (acc * 16 + d) (S len) s'
                   | None => (acc, len, s)
                   end
  end.

(** The group loop of parseIPv6.  [done] are the bytes read so far, [ell] the
    position of the ellipsis.  Eight groups fill an address, so fuel 9 is
    enough; what remains of the string must be empty. *)
Fixpoint ipv6_groups (fuel : nat) (done : list Z) (ell : option nat) (s : string)
    : option (list Z * option nat * string) :=
  match fuel with
  | O => None
  | S fuel =>
    if (16 <=? length done)%nat then Some (done, ell, s) else
    let '(v, n, rest) := hex_run 0 0 s in
    if (4 <? n)%nat || (n =? 0)%nat then None else
    match rest with
    | "" => Some (done ++ [v / 256; v mod 256], ell, "")
    | String c rest' =>
      if Ascii.eqb c dot then
        if (match ell with None => negb (length done =? 12)%nat | Some _ => false end)
           || (16 <? length done + 4)%nat then None
        else v4 ← parse_ipv4 s; Some (done ++ v4, ell, "")
      else if negb (Ascii.eqb c colon) then None
      else
        let done := done ++ [v / 256; v mod 256] in
        match rest' with
        | "" => None
        | String c' rest'' =>
          if Ascii.eqb c' colon then
            match ell with
            | Some _ => None
            | None =>
                match rest'' with
                | "" => Some (done, Some (length done), "")
                | _ => ipv6_groups fuel done (Some (length done)) rest''
                end
            end
          else ipv6_groups fuel done ell rest'
        end
    end
  end.

Definition parse_ipv6 (s : string) : option (list Z) :=
  let start := match s with
    | String c (String c' s') =>
        if Ascii.eqb c colon && Ascii.eqb c' colon then Some s' else None
    | _ => None end in
  let finish r := match r with
    | Some (done, ell, "") =>
        match ell with
        | None => if (length done =? 16)%nat then Some done else None
        | Some e =>
            if (length done <? 16)%nat then
              Some (take e done ++ replicate (16 - length done) 0 ++ drop e done)
            else None
        end
    | _ => None
    end in
  match start with
  | Some "" => Some (replicate 16 0)
  | Some s' => finish (ipv6_groups 9 [] (Some 0%nat) s')
  | None => finish (ipv6_groups 9 [] None s)
  end.

(** The first of '.', ':' and '%' decides the family; an address with a zone
    is refused by every caller here. *)
Fixpoint first_mark (s : string) : option ascii :=
  match s with
  | "" => None
  | String c s' =>
      if Ascii.eqb c dot || Ascii.eqb c colon || Ascii.eqb c (byte_of 37) then Some c
      else first_mark s'
  end.

Record netip := { addr16 : list Z; is4 : bool }.
Definition v4_prefix : list Z := [0;0;0;0;0;0;0;0;0;0;255;255].

Definition parse_addr (s : string) : option netip :=
  match first_mark s with
  | None => None
  | Some c =>
      if Ascii.eqb c dot then
        v4 ← parse_ipv4 s; Some {| addr16 := v4_prefix ++ v4; is4 := true |}
      else if Ascii.eqb c colon then
        if contains_byte (byte_of 37) s then None
        else v6 ← parse_ipv6 s; Some {| addr16 := v6; is4 := false |}
      else None
  end.

(** ** net.ParseIP, IP.To4, IP.String *)
Definition IP := list Z.
Definition ParseIP (s : string) : option IP := addr16 <$> parse_addr s.
Definition To4 (ip : IP) : option IP :=
  if (length ip =? 4)%nat then Some ip
  else if (length ip =? 16)%nat && bool_decide (take 12 ip = v4_prefix)
  then Some (drop 12 ip) else None.

Definition hex_digit (n : Z) : string :=
  take_str 1 (drop_str (Z.to_nat n) "0123456789abcdef").
Fixpoint hex_go (fuel : nat) (n : Z) (acc : string) : string :=
  match fuel with
  | O => acc
  | S fuel => let acc := hex_digit (n mod 16) +:+ acc in
              if n / 16 =? 0 then acc else hex_go fuel (n / 16) acc
  end.
(** A 16-bit group in lower-case hex without leading zeros. *)
Definition hex_group (n : Z) : string := hex_go 4 n "".

Fixpoint groups_of (l : list Z) : list Z :=
  match l with a :: b :: l => (a * 256 + b) :: groups_of l | _ => [] end.
Fixpoint zero_run (l : list Z) : nat :=
  match l with 0 :: l => S (zero_run l) | _ => O end.
(** The first longest run of at least two zero groups: start and end. *)
Definition longest_zeros (g : list Z) : option (nat * nat) :=
  fold_left (λ best i,
    let l := zero_run (drop i g) in
    let cur := match best with Some (a, b) => (b - a)%nat | None => O end in
    if (2 <=? l)%nat && (cur <? l)%nat then Some (i, i + l)%nat else best)
    (seq 0 8) None.
Definition ipv6_string (ip : IP) : string :=
  let g := groups_of ip in
  match longest_zeros g with
  | None => join ":" (hex_group <$> g)
  | Some (a, b) => join ":" (hex_group <$> take a g) +:+ "::" +:+
                   join ":" (hex_group <$> drop b g)
  end.
Definition IP_String (ip : IP) : string :=
  match To4 ip with
  | Some v4 => join "." (itoa <$> v4)
  | None => if (length ip =? 16)%nat then ipv6_string ip else "<nil>"
  end.
(** IP.Equal: an IPv4 address equals its IPv4-in-IPv6 form. *)
Definition IP_Equal (a b : IP) : bool :=
  match To4 a, To4 b with
  | Some x, Some y => bool_decide (x = y)
  | None, None => bool_decide (a = b)
  | _, _ => false
  end.

(** ** net.ParseCIDR, IPNet.String *)
Record IPNet := { net_IP : IP; net_Mask : list Z }.

(** CIDRMask(n, bits): one byte at a time. *)
Fixpoint cidr_bytes (k : nat) (n : Z) : list Z :=
  match k with
  | O => []
  | S k => (if 8 <=? n then 255 else 256 - 2 ^ (8 - Z.max n 0)) :: cidr_bytes k (n - 8)
  end.
Definition CIDRMask (n bits : Z) : list Z := cidr_bytes (Z.to_nat (bits / 8)) n.

Definition IP_Mask (ip : IP) (mask : list Z) : IP :=
  let ip := if (length mask =? 4)%nat && (length ip =? 16)%nat
               && bool_decide (take 12 ip = v4_prefix) then drop 12 ip else ip in
  if (length ip =? length mask)%nat then zip_with Z.land ip mask else [].

(** dtoi reads leading digits and gives up at 0xFFFFFF. *)
Definition parse_prefix_len (s : string) : option Z :=
  v ← parse_digits s; if v <? 16777215 then Some v else None.

Definition err_cidr : error := StdError "net.ParseCIDR" "invalid CIDR address".
Definition ParseCIDR (s : string) : res (IP * IPNet) :=
  match split slash s with
  | a :: m :: ms =>
      ok_or err_cidr (
        ip ← parse_addr a;
        n ← parse_prefix_len (join "/" (m :: ms));
        let bits := if is4 ip then 32 else 128 in
        if n <=? bits then
          let mask := CIDRMask n bits in
          Some (addr16 ip, {| net_IP := IP_Mask (addr16 ip) mask; net_Mask := mask |})
        else None)
  | _ => Err err_cidr
  end.

Lemma ParseCIDR_no_panic s : no_panic (ParseCIDR s).
Proof.
  unfold ParseCIDR. destruct (split slash s) as [|? []]; try done.
  match goal with |- no_panic (ok_or _ ?o) => by destruct o end.
Qed.

(** The number of leading ones when only zeros follow. *)
Definition byte_len (b : Z) : option Z :=
  snd <$> list_find (λ n, b = 256 - 2 ^ (8 - n)) [0;1;2;3;4;5;6;7;8].
Fixpoint mask_len (m : list Z) : option Z :=
  match m with
  | [] => Some 0
  | b :: m =>
      if b =? 255 then Z.add 8 <$> mask_len m
      else n ← byte_len b; if forallb (Z.eqb 0) m then Some n else None
  end.
Definition hex_byte (b : Z) : string := hex_digit (b / 16) +:+ hex_digit (b mod 16).
Definition mask_hex (m : list Z) : string :=
  match m with [] => "<nil>" | _ => foldr (λ b s, hex_byte b +:+ s) "" m end.

Definition IPNet_String (n : IPNet) : string :=
  let ip := default (net_IP n) (To4 (net_IP n)) in
  let mask := net_Mask n in
  let m := if (length mask =? 16)%nat && (length ip =? 4)%nat then drop 12 mask else mask in
  if negb ((length ip =? 4)%nat || (length ip =? 16)%nat)
     || negb (length ip =? length m)%nat then "<nil>"
  else match mask_len m with
       | Some l => IP_String ip +:+ "/" +:+ itoa l
       | None => IP_String ip +:+ "/" +:+ mask_hex m
       end.

(** IPNet.Contains *)
Definition IPNet_Contains (n : IPNet) (ip : IP) : bool :=
  let nn := default (net_IP n) (To4 (net_IP n)) in
  let mask := net_Mask n in
  let m := if (length mask =? 16)%nat && (length nn =? 4)%nat then drop 12 mask else mask in
  let ip := default ip (To4 ip) in
  (length nn =? length m)%nat && (length ip =? length nn)%nat &&
  forallb (λ '(a, b, k), Z.land a k =? Z.land b k) (zip (zip nn ip) m).

(** ** net.ParseMAC *)
Fixpoint all_hex (s : string) : bool :=
  match s with
  | "" => true
  | String c s' => bool_decide (is_Some (hex_val c)) && all_hex s'
  end.
Definition err_mac : error := StdError "net.ParseMAC" "invalid MAC address".
Definition mac_groups (sep : ascii) (width : nat) (counts : list nat) (s : string) : bool :=
  let gs := split sep s in
  bool_decide (length gs ∈ counts) &&
  forallb (λ g, (String.length g =? width)%nat && all_hex g) gs.
(** 6, 8 or 20 bytes as colon- or hyphen-separated pairs, or dotted quads. *)
Definition ParseMAC (s : string) : option error :=
  if mac_groups colon 2 [6;8;20]%nat s || mac_groups hyphen 2 [6;8;20]%nat s
     || mac_groups dot 4 [3;4;10]%nat s then None else Some err_mac.

(** ** net.SplitHostPort *)
Fixpoint last_index_byte (c : ascii) (s : string) : option nat :=
  match s with
  | "" => None
  | String d s' => match last_index_byte c s' with
                   | Some i => Some (S i)
                   | None => if Ascii.eqb d c then Some 0%nat else None
                   end
  end.
Fixpoint index_byte (c : ascii) (s : string) : option nat :=
  match s with
  | "" => None
  | String d s' => if Ascii.eqb d c then Some 0%nat else S <$> index_byte c s'
  end.
Definition lbracket : ascii := byte_of 91.
Definition rbracket : ascii := byte_of 93.
Definition err_addr (why : string) : error := StdError "net.SplitHostPort" why.
Definition SplitHostPort (hp : string) : res (string * string) :=
  match last_index_byte colon hp with
  | None => Err (err_addr "missing port in address")
  | Some i =>
    let finish host j k :=
      if contains_byte lbracket (drop_str j hp) then Err (err_addr "unexpected '['")
      else if contains_byte rbracket (drop_str k hp) then Err (err_addr "unexpected ']'")
      else Ok (host, drop_str (S i) hp) in
    if has_prefix hp "[" then
      match index_byte rbracket hp with
      | None => Err (err_addr "missing ']' in address")
      | Some e =>
          if (S e =? String.length hp)%nat then Err (err_addr "missing port in address")
          else if (S e =? i)%nat then finish (drop_str 1 (take_str e hp)) 1%nat (S e)
          else if has_prefix (drop_str (S e) hp) ":" then Err (err_addr "too many colons in address")
          else Err (err_addr "missing port in address")
      end
    else
      let host := take_str i hp in
      if contains_byte colon host then Err (err_addr "too many colons in address")
      else finish host 0%nat 0%nat
  end.

(** ** base64.StdEncoding.DecodeString: the length of the decoded bytes *)
Definition b64_char (c : ascii) : bool :=
  let n := Ascii.N_of_ascii c in
  ((65 <=? n) && (n <=? 90) || (97 <=? n) && (n <=? 122) || (48 <=? n) && (n <=? 57)
   || (n =? 43) || (n =? 47))%N.
Fixpoint drop_newlines (s : string) : string :=
  match s with
  | "" => ""
  | String c s' =>
      if Ascii.eqb c newline || Ascii.eqb c (byte_of 13) then drop_newlines s'
      else String c (drop_newlines s')
  end.
Definition pad : ascii := byte_of 61.
Fixpoint b64_len (s : string) : option Z :=
  match s with
  | "" => Some 0
  | String a (String b (String c (String d s'))) =>
      if negb (b64_char a && b64_char b) then None
      else if Ascii.eqb c pad then
        if Ascii.eqb d pad && bool_decide (s' = "") then Some 1 else None
      else if negb (b64_char c) then None
      else if Ascii.eqb d pad then if bool_decide (s' = "") then Some 2 else None
      else if negb (b64_char d) then None
      else Z.add 3 <$> b64_len s'
  | _ => None
  end.
Definition err_b64 : error := StdError "base64" "illegal base64 data".
Definition base64_DecodedLen (s : string) : res Z := ok_or err_b64 (b64_len (drop_newlines s)).

(** ** Round trips: dotted quads and IPv4 CIDRs *)
Definition is_byte (b : Z) : Prop := 0 ≤ b ≤ 255.
Definition dotted (l : list Z) : string := join "." (itoa <$> l).

Lemma byte_cases (P : Z → bool) :
  forallb P (seqZ 0 256) = true → ∀ b, is_byte b → P b = true.
Proof.
  intros H b Hb. rewrite forallb_forall in H. apply H, list_elem_of_In, elem_of_seqZ.
  unfold is_byte in Hb. lia.
Qed.


Definition octet_roundtrips (b : Z) : bool :=
  match parse_octet (itoa b) with Some v => v =? b | None => false end.

Lemma parse_octet_itoa b : is_byte b → parse_octet (itoa b) = Some b.
Proof.
  intros Hb. assert (octet_roundtrips b = true) as H
    by (apply byte_cases; [vm_compute; reflexivity | done]).
  unfold octet_roundtrips in H. destruct (parse_octet (itoa b)); [|done].
  by apply Z.eqb_eq in H as ->.
Qed.

Lemma itoa_no_byte c z : 0 ≤ z → digit_val c = None → contains_byte c (itoa z) = false.
Proof. intros Hz Hc. apply contains_byte_digits; [done|by apply all_digits_itoa]. Qed.

Lemma split_dotted l :
  l ≠ [] → Forall is_byte l → split dot (dotted l) = itoa <$> l.
Proof.
  intros Hl Hb. unfold dotted. apply split_join; [by destruct l|].
  apply Forall_fmap. eapply Forall_impl; [exact Hb|]. intros b [Hb0 _]. simpl.
  by apply itoa_no_byte.
Qed.

(** The first mark in "digits.rest" is the dot. *)
Lemma first_mark_digits_dot s t :
  all_digits s = true → first_mark (s +:+ String dot t) = Some dot.
Proof.
  induction s as [|c s IH]; [done|]. simpl.
  intros [Hc%bool_decide_eq_true Hs]%andb_true_iff. rewrite IH by done.
  apply digit_cases in Hc. simpl in Hc. rewrite !elem_of_cons in Hc.
  destruct_or! Hc; subst; try reflexivity. by apply not_elem_of_nil in Hc.
Qed.

Lemma parse_addr_dotted a b c d :
  Forall is_byte [a; b; c; d] →
  parse_addr (dotted [a; b; c; d]) =
    Some {| addr16 := v4_prefix ++ [a; b; c; d]; is4 := true |}.
Proof.
  intros Hb. unfold parse_addr, parse_ipv4.
  rewrite split_dotted by done. unfold dotted at 1.
  change (join "." (itoa <$> [a; b; c; d])) with
    (itoa a +:+ String dot (dotted [b; c; d])).
  decompose_Forall_hyps.
  rewrite first_mark_digits_dot by (apply all_digits_itoa; unfold is_byte in *; lia).
  simpl. by rewrite !parse_octet_itoa.
Qed.

Lemma ParseIP_dotted a b c d :
  Forall is_byte [a; b; c; d] → ParseIP (dotted [a; b; c; d]) = Some (v4_prefix ++ [a; b; c; d]).
Proof. intros Hb. unfold ParseIP. by rewrite parse_addr_dotted. Qed.

Lemma To4_dotted a b c d : To4 (v4_prefix ++ [a; b; c; d]) = Some [a; b; c; d].
Proof. reflexivity. Qed.

(** [IP.String] prints an IPv4 address as the dotted quad [net.ParseIP] reads. *)
Lemma IP_String_dotted a b c d : IP_String (v4_prefix ++ [a; b; c; d]) = dotted [a; b; c; d].
Proof. reflexivity. Qed.

Lemma all_digits_join_no_slash l :
  Forall is_byte l → contains_byte slash (dotted l) = false.
Proof.
  induction l as [|b l IH]; [done|]. intros [Hb Hl]%Forall_cons.
  assert (contains_byte slash (itoa b) = false) as Hs.
  { apply itoa_no_byte; [unfold is_byte in Hb; lia | done]. }
  destruct l as [|b' l]; [done|].
  change (dotted (b :: b' :: l)) with (itoa b +:+ "." +:+ dotted (b' :: l)).
  rewrite !contains_byte_app, Hs, IH by done. reflexivity.
Qed.

(** The network of "a.b.c.d/n". *)
Definition ipv4_net (l : list Z) (n : Z) : IPNet :=
  {| net_IP := zip_with Z.land l (CIDRMask n 32); net_Mask := CIDRMask n 32 |}.

Lemma parse_prefix_len_itoa n : 0 ≤ n < 16777215 → parse_prefix_len (itoa n) = Some n.
Proof.
  intros Hn. pose proof (atoi_itoa n) as Ha. unfold min_int64, max_int64 in Ha.
  specialize (Ha ltac:(lia)).
  destruct n as [|p|p]; [done| |lia].
  destruct (parse_digits_pretty_N (Npos p)) as (c & s & Hp & Hv).
  unfold itoa, parse_prefix_len. change (pretty (Z.pos p)) with (pretty (Npos p)).
  rewrite Hp. unfold parse_digits. rewrite Hv. simpl.
  by rewrite (proj2 (Z.ltb_lt _ _)) by lia.
Qed.

Lemma ParseCIDR_dotted a b c d n :
  Forall is_byte [a; b; c; d] → 0 ≤ n ≤ 32 →
  ParseCIDR (dotted [a; b; c; d] +:+ "/" +:+ itoa n) =
    Ok (v4_prefix ++ [a; b; c; d], ipv4_net [a; b; c; d] n).
Proof.
  intros Hb Hn. unfold ParseCIDR.
  change ("/" +:+ itoa n) with (String slash (itoa n)).
  rewrite split_app by (by apply all_digits_join_no_slash).
  rewrite split_none by (apply itoa_no_byte; [lia|done]).
  rewrite parse_addr_dotted by done. simpl.
  rewrite parse_prefix_len_itoa by lia. simpl.
  by rewrite (proj2 (Z.leb_le _ _)) by lia.
Qed.
