(* ===== verification/Validation.v ===== *)
(** * Validation: the package [validation]

    [validation/validation.go]: one definition per validator, returning the
    error or [None] for nil; [validation/builder.go]: the [ErrorCollector],
    whose methods mutate it and are modelled as functions to the new
    collector.  The theorems say which inputs each validator accepts. *)
From S2P Require Import Prelude GoStr GoNet.

Definition ValidatePort (port : Z) : option error :=
  if (port <? 1) || (65535 <? port) then
    Some (ErrorText ("port " +:+ itoa port +:+ " out of valid range [1, 65535]"))
  else None.

Definition ValidatePortString (portStr : string) : option error :=
  if bool_decide (portStr = "") then Some (ErrorText "port string cannot be empty")
  else if str_contains portStr "-" then
    match split hyphen portStr with
    | [p0; p1] =>
        match atoi (trim_space p0) with
        | Err err => Some (Wrapf ("invalid start port in range " +:+ portStr +:+ ": ") err)
        | Panic _ => None
        | Ok start =>
        match atoi (trim_space p1) with
        | Err err => Some (Wrapf ("invalid end port in range " +:+ portStr +:+ ": ") err)
        | Panic _ => None
        | Ok end_ =>
        match ValidatePort start with
        | Some err => Some (Wrapf ("invalid start port in range " +:+ portStr +:+ ": ") err)
        | None =>
        match ValidatePort end_ with
        | Some err => Some (Wrapf ("invalid end port in range " +:+ portStr +:+ ": ") err)
        | None =>
            if end_ <=? start then
              Some (ErrorText ("invalid port range " +:+ portStr +:+
                               ": start port must be less than end port"))
            else None
        end end end end
    | _ => Some (ErrorText ("invalid port range format: " +:+ portStr +:+
                            " (expected format: 'start-end')"))
    end
  else
    match atoi (trim_space portStr) with
    | Err err => Some (Wrapf ("invalid port number " +:+ portStr +:+ ": ") err)
    | Panic _ => None
    | Ok port => ValidatePort port
    end.

Definition ValidateIP (ip : string) : option error :=
  if bool_decide (ip = "") then Some (ErrorText "IP address cannot be empty")
  else match ParseIP ip with
       | None => Some (ErrorText ("invalid IP address: " +:+ ip))
       | Some _ => None
       end.

Definition ValidateCIDR (cidr : string) : option error :=
  if bool_decide (cidr = "") then Some (ErrorText "CIDR cannot be empty")
  else if bool_decide (cidr = "default") then None
  else match ParseCIDR cidr with
       | Err err => Some (Wrapf ("invalid CIDR notation " +:+ cidr +:+ ": ") err)
       | _ => None
       end.

Definition ValidatePolicy (policy : string) : option error :=
  if bool_decide (policy = "") then Some (ErrorText "policy cannot be empty")
  else
    let normalized := to_upper policy in
    if negb (bool_decide (normalized = "ACCEPT")) && negb (bool_decide (normalized = "DROP"))
       && negb (bool_decide (normalized = "REJECT")) then
      Some (ErrorText ("invalid policy " +:+ policy +:+ " (must be ACCEPT, DROP, or REJECT)"))
    else None.

Definition ValidateProtocol (proto : string) (allowed : list string) : option error :=
  if bool_decide (proto = "") then None
  else if existsb (String.eqb proto) allowed then None
  else Some (ErrorText ("invalid protocol " +:+ proto +:+ " (must be one of: " +:+
                        join ", " allowed +:+ ")")).

(** The regular expression of [ValidateDomain]: an optional "*." and then
    dot-separated labels [alnum(alnum-or-hyphen{0,61} alnum)?]. *)
Definition is_alnum (c : ascii) : bool :=
  let n := Ascii.N_of_ascii c in
  ((97 <=? n) && (n <=? 122) || (65 <=? n) && (n <=? 90) || (48 <=? n) && (n <=? 57))%N.
Definition is_label_byte (c : ascii) : bool := is_alnum c || Ascii.eqb c hyphen.
(** After the first byte: nothing, or at most 61 label bytes and an alnum. *)
Fixpoint label_tail (fuel : nat) (s : string) : bool :=
  match fuel, s with
  | _, String c "" => is_alnum c
  | S fuel, String c s' => is_label_byte c && label_tail fuel s'
  | _, _ => false
  end.
Definition is_label (s : string) : bool :=
  match s with
  | "" => false
  | String c "" => is_alnum c
  | String c s' => is_alnum c && label_tail 61 s'
  end.
Definition domain_matches (s : string) : bool :=
  forallb is_label (split dot (trim_prefix s "*.")).

Definition ValidateDomain (domain : string) : option error :=
  if bool_decide (domain = "") then None
  else if negb (domain_matches domain) then
    Some (ErrorText ("invalid domain name: " +:+ domain))
  else if (253 <? String.length domain)%nat then
    Some (ErrorText ("domain name too long: " +:+ domain +:+ " (max 253 characters)"))
  else if existsb (λ label, (63 <? String.length label)%nat) (split dot (trim_prefix domain "*."))
  then Some (ErrorText ("domain label too long in " +:+ domain +:+
                        " (max 63 characters per label)"))
  else None.

Definition ValidateMAC (mac : string) : option error :=
  if bool_decide (mac = "") then None
  else match ParseMAC mac with
       | Some err => Some (Wrapf ("invalid MAC address " +:+ mac +:+ ": ") err)
       | None => None
       end.

Definition ValidateMTU (mtu : Z) : option error :=
  if (mtu <? 68) || (65535 <? mtu) then
    Some (ErrorText ("MTU " +:+ itoa mtu +:+ " out of valid range [68, 65535]"))
  else None.

Definition ValidateVLANID (vlanID : Z) : option error :=
  if (vlanID <? 1) || (4094 <? vlanID) then
    Some (ErrorText ("VLAN ID " +:+ itoa vlanID +:+ " out of valid range [1, 4094]"))
  else None.

Definition ValidateWireGuardKey (key : string) : option error :=
  if bool_decide (key = "") then Some (ErrorText "WireGuard key cannot be empty")
  else match base64_DecodedLen key with
       | Err err => Some (Wrapf "invalid WireGuard key (not valid base64): " err)
       | Panic _ => None
       | Ok n => if n =? 32 then None
                 else Some (ErrorText ("invalid WireGuard key length: expected 32 bytes, got "
                                       +:+ itoa n))
       end.

Definition ValidateEndpoint (endpoint : string) : option error :=
  if bool_decide (endpoint = "") then None
  else match SplitHostPort endpoint with
  | Err err => Some (Wrapf ("invalid endpoint format " +:+ endpoint +:+
                            " (expected 'host:port'): ") err)
  | Panic _ => None
  | Ok (host, portStr) =>
      let host_err := match ParseIP host with
        | Some _ => None
        | None => ValidateDomain host
        end in
      match host_err with
      | Some err => Some (Wrapf ("invalid endpoint host " +:+ endpoint +:+ ": ") err)
      | None =>
      match atoi portStr with
      | Err err => Some (Wrapf ("invalid endpoint port in " +:+ endpoint +:+ ": ") err)
      | Panic _ => None
      | Ok port =>
      match ValidatePort port with
      | Some err => Some (Wrapf ("invalid endpoint port in " +:+ endpoint +:+ ": ") err)
      | None => None
      end end end
  end.

(** [uint32(ipv4[0])<<24 | ... | uint32(ipv4[3])]. *)
Definition mask_of_bytes (b0 b1 b2 b3 : Z) : Z :=
  Z.lor (Z.lor (Z.lor (Z.shiftl b0 24) (Z.shiftl b1 16)) (Z.shiftl b2 8)) b3.
(** [inverted := ^mask; (inverted+1)&inverted != 0 && mask != 0], in uint32
    arithmetic. *)
Definition noncontiguous (mask : Z) : bool :=
  let inverted := Z.lxor mask (2 ^ 32 - 1) in
  negb (Z.land ((inverted + 1) mod 2 ^ 32) inverted =? 0) && negb (mask =? 0).

Definition ValidateNetmask (netmask : string) : option error :=
  if bool_decide (netmask = "") then Some (ErrorText "netmask cannot be empty")
  else if has_prefix netmask "/" then
    match atoi (trim_prefix netmask "/") with
    | Err err => Some (Wrapf ("invalid CIDR prefix " +:+ netmask +:+ ": ") err)
    | Panic _ => None
    | Ok prefixLen =>
        if (prefixLen <? 0) || (32 <? prefixLen) then
          Some (ErrorText ("invalid CIDR prefix " +:+ netmask +:+ ": must be between 0 and 32"))
        else None
    end
  else match ParseIP netmask with
  | None => Some (ErrorText ("invalid netmask format " +:+ netmask +:+
                             " (expected dotted decimal or CIDR prefix)"))
  | Some ip =>
      match To4 ip with
      | Some [b0; b1; b2; b3] =>
          if noncontiguous (mask_of_bytes b0 b1 b2 b3) then
            Some (ErrorText ("invalid netmask " +:+ netmask +:+
                             " (not a valid contiguous netmask)"))
          else None
      | _ => Some (ErrorText ("invalid netmask " +:+ netmask +:+ " (not an IPv4 address)"))
      end
  end.

Definition ValidateTableID (tableID : Z) : option error :=
  if (tableID <? 0) || (4294967295 <? tableID) then
    Some (ErrorText ("table ID " +:+ itoa tableID +:+ " out of valid range [0, 4294967295]"))
  else None.

Definition ValidateMetric (metric : Z) : option error :=
  if metric <? 0 then
    Some (ErrorText ("metric " +:+ itoa metric +:+ " cannot be negative"))
  else None.

(** ** validation/builder.go *)
Record ErrorCollector := { errs : list error; ctx : string }.

Definition NewCollector : ErrorCollector := {| errs := []; ctx := "" |}.
Definition WithContext (c : string) (ec : ErrorCollector) : ErrorCollector :=
  {| errs := errs ec; ctx := c |}.

Definition Check (err : option error) (ec : ErrorCollector) : ErrorCollector :=
  match err with
  | None => ec
  | Some e =>
      if bool_decide (ctx ec ≠ "") then
        {| errs := errs ec ++ [Wrapf (ctx ec +:+ ": ") e]; ctx := ctx ec |}
      else {| errs := errs ec ++ [e]; ctx := ctx ec |}
  end.

Definition CheckMsg (err : option error) (msg : string) (ec : ErrorCollector) : ErrorCollector :=
  match err with
  | None => ec
  | Some e =>
      if bool_decide (ctx ec ≠ "") then
        {| errs := errs ec ++ [Wrapf (ctx ec +:+ ": " +:+ msg +:+ ": ") e]; ctx := ctx ec |}
      else {| errs := errs ec ++ [Wrapf (msg +:+ ": ") e]; ctx := ctx ec |}
  end.

(** [errors.Join] is nil when every error is. *)
Definition Error (ec : ErrorCollector) : option error :=
  match errs ec with [] => None | es => Some (Joined es) end.

(** [if b { v.Check(...) }] and [if x := ...; x != nil { v.Check(...) }]. *)
Definition when (b : bool) (f : ErrorCollector → ErrorCollector) (ec : ErrorCollector)
    : ErrorCollector := if b then f ec else ec.
Definition when_some {A} (o : option A) (f : A → ErrorCollector → ErrorCollector)
    (ec : ErrorCollector) : ErrorCollector :=
  match o with Some a => f a ec | None => ec end.

(** ** Lemmas: the collector *)

Lemma errs_Check err ec : errs (Check err ec) = [] ↔ errs ec = [] ∧ err = None.
Proof.
  destruct err as [e|]; simpl; [|naive_solver].
  case_bool_decide; simpl; split; try (intros [_ ?]; done); intros Hnil;
    by apply app_nil in Hnil as [_ ?].
Qed.
Lemma errs_CheckMsg err msg ec : errs (CheckMsg err msg ec) = [] ↔ errs ec = [] ∧ err = None.
Proof.
  destruct err as [e|]; simpl; [|naive_solver].
  case_bool_decide; simpl; split; try (intros [_ ?]; done); intros Hnil;
    by apply app_nil in Hnil as [_ ?].
Qed.
Lemma Error_None ec : Error ec = None ↔ errs ec = [].
Proof. unfold Error. by destruct (errs ec). Qed.
Lemma errs_NewCollector : errs NewCollector = [] ↔ True.
Proof. done. Qed.
Lemma errs_WithContext c ec : errs (WithContext c ec) = errs ec.
Proof. done. Qed.
Lemma errs_when_Check b err ec :
  errs (when b (Check err) ec) = [] ↔ errs ec = [] ∧ (b = true → err = None).
Proof. destruct b; simpl; [rewrite errs_Check|]; naive_solver. Qed.
Lemma errs_when_CheckMsg b err msg ec :
  errs (when b (CheckMsg err msg) ec) = [] ↔ errs ec = [] ∧ (b = true → err = None).
Proof. destruct b; simpl; [rewrite errs_CheckMsg|]; naive_solver. Qed.
(** A loop of checks is clean when it started clean and every check passed. *)
Lemma errs_fold {A} (f : A → ErrorCollector → ErrorCollector) (P : A → Prop) l ec :
  (∀ a ec, errs (f a ec) = [] ↔ errs ec = [] ∧ P a) →
  errs (fold_left (λ ec a, f a ec) l ec) = [] ↔ errs ec = [] ∧ Forall P l.
Proof.
  intros Hf. revert ec. induction l as [|a l IH]; intros ec; simpl.
  - rewrite Forall_nil. tauto.
  - rewrite IH, Hf, Forall_cons. tauto.
Qed.

#[export] Hint Rewrite Error_None errs_Check errs_CheckMsg errs_WithContext
  errs_when_Check errs_when_CheckMsg : collector.

(** ** Lemmas: integer ranges *)
Ltac range_check :=
  match goal with
  | |- (if ?b then Some _ else None) = None ↔ _ =>
      let Eb := fresh "Eb" in destruct b eqn:Eb;
      rewrite ?orb_true_iff, ?orb_false_iff, ?Z.ltb_lt, ?Z.ltb_ge in Eb;
      split; intros; (done || lia)
  end.

Lemma ValidatePort_None port : ValidatePort port = None ↔ 1 ≤ port ≤ 65535.
Proof. unfold ValidatePort. range_check. Qed.
Lemma ValidateMTU_None mtu : ValidateMTU mtu = None ↔ 68 ≤ mtu ≤ 65535.
Proof. unfold ValidateMTU. range_check. Qed.
Lemma ValidateVLANID_None v : ValidateVLANID v = None ↔ 1 ≤ v ≤ 4094.
Proof. unfold ValidateVLANID. range_check. Qed.
Lemma ValidateTableID_None t : ValidateTableID t = None ↔ 0 ≤ t ≤ 4294967295.
Proof. unfold ValidateTableID. range_check. Qed.
Lemma ValidateMetric_None m : ValidateMetric m = None ↔ 0 ≤ m.
Proof. unfold ValidateMetric. range_check. Qed.

(** ** Lemmas: masks *)

Lemma land_succ_pow2 i : 0 ≤ i → Z.land (i + 1) i = 0 ↔ ∃ k, 0 ≤ k ∧ i + 1 = 2 ^ k.
Proof.
  intros Hi. split.
  - intros Hl. exists (Z.log2 (i + 1)). split; [apply Z.log2_nonneg|].
    destruct (Z.log2_spec (i + 1)) as [Hlo Hhi]; [lia|].
    destruct (decide (i + 1 = 2 ^ Z.log2 (i + 1))) as [|Hne]; [done|exfalso].
    assert (Z.testbit (Z.land (i + 1) i) (Z.log2 (i + 1)) = true) as Hb.
    { rewrite Z.land_spec, Z.bit_log2 by lia. simpl.
      assert (0 < 2 ^ Z.log2 (i + 1)) by (apply Z.pow_pos_nonneg; [lia|apply Z.log2_nonneg]).
      assert (Z.log2 i = Z.log2 (i + 1)) as <-.
      { apply Z.log2_unique; [apply Z.log2_nonneg|]. lia. }
      apply Z.bit_log2. lia. }
    rewrite Hl, Z.bits_0 in Hb. done.
  - intros (k & Hk & He). rewrite He.
    assert (i = Z.ones k) as -> by (rewrite Z.ones_equiv; lia).
    rewrite Z.land_ones by done.
    by rewrite Z.mod_same by (apply Z.pow_nonzero; lia).
Qed.

Lemma lxor_ones32 m : 0 ≤ m < 2 ^ 32 → Z.lxor m (2 ^ 32 - 1) = 2 ^ 32 - 1 - m.
Proof.
  intros Hm. assert (Z.land m (Z.lxor m (2 ^ 32 - 1)) = 0) as Hz.
  { apply Z.bits_inj'. intros n Hn. rewrite Z.land_spec, Z.lxor_spec, Z.bits_0.
    change (2 ^ 32 - 1) with (Z.ones 32). rewrite Z.testbit_ones_nonneg by lia.
    destruct (Z.ltb_spec n 32); [by destruct (Z.testbit m n)|].
    assert (Z.testbit m n = false) as ->; [|done].
    apply Z.bits_above_log2; [lia|].
    destruct (decide (m = 0)) as [->|]; [simpl; lia|].
    pose proof (proj1 (Z.log2_lt_pow2 m 32 ltac:(lia)) ltac:(lia)). lia. }
  pose proof (Z.add_nocarry_lxor _ _ Hz) as Ha.
  rewrite <-Z.lxor_assoc, Z.lxor_nilpotent, Z.lxor_0_l in Ha. lia.
Qed.

(** The prefix length [n] as a 32-bit mask. *)
Definition prefix_mask (n : Z) : Z := 2 ^ 32 - 2 ^ (32 - n).

(** The bit trick of ValidateNetmask accepts exactly the 33 prefix masks. *)
Lemma noncontiguous_false m :
  0 ≤ m < 2 ^ 32 → noncontiguous m = false ↔ ∃ n, 0 ≤ n ≤ 32 ∧ m = prefix_mask n.
Proof.
  intros Hm. unfold noncontiguous, prefix_mask. rewrite lxor_ones32 by done.
  rewrite andb_false_iff, !negb_false_iff, !Z.eqb_eq.
  replace (2 ^ 32 - 1 - m + 1) with (2 ^ 32 - m) by lia.
  destruct (decide (m = 0)) as [->|Hne].
  { split; [|naive_solver]. intros _. exists 0. split; [lia|]. reflexivity. }
  rewrite Z.mod_small by lia.
  replace (2 ^ 32 - m) with (2 ^ 32 - 1 - m + 1) by lia.
  rewrite land_succ_pow2 by lia. split.
  - intros [(k & Hk & He)|?]; [|done]. exists (32 - k).
    assert (k ≤ 32). { apply (Z.pow_le_mono_r_iff 2); lia. }
    split; [lia|]. replace (32 - (32 - k)) with k by lia. lia.
  - intros (n & Hn & He). left. exists (32 - n). lia.
Qed.

Lemma mask_of_bytes_range a b c d :
  Forall is_byte [a; b; c; d] → 0 ≤ mask_of_bytes a b c d < 2 ^ 32.
Proof.
  intros Hb. decompose_Forall_hyps. unfold is_byte, mask_of_bytes in *.
  rewrite !Z.shiftl_mul_pow2 by lia. split.
  - repeat (apply Z.lor_nonneg; split); lia.
  - destruct (decide (Z.lor (Z.lor (Z.lor (a * 2 ^ 24) (b * 2 ^ 16)) (c * 2 ^ 8)) d = 0))
      as [->|Hz]; [lia|].
    assert (0 ≤ Z.lor (Z.lor (Z.lor (a * 2 ^ 24) (b * 2 ^ 16)) (c * 2 ^ 8)) d)
      by (repeat (apply Z.lor_nonneg; split); lia).
    assert (∀ x, 0 ≤ x < 2 ^ 32 → Z.log2 x < 32) as Hl.
    { intros x Hx. destruct (decide (x = 0)) as [->|]; [simpl; lia|].
      apply Z.log2_lt_pow2; lia. }
    apply Z.log2_lt_pow2; [lia|].
    rewrite !Z.log2_lor by (repeat (apply Z.lor_nonneg; split); lia).
    pose proof (Hl (a * 2 ^ 24) ltac:(lia)). pose proof (Hl (b * 2 ^ 16) ltac:(lia)).
    pose proof (Hl (c * 2 ^ 8) ltac:(lia)). pose proof (Hl d ltac:(lia)). lia.
Qed.

(** ** Properties *)

Lemma dotted_no_slash_prefix a b c d :
  Forall is_byte [a; b; c; d] → has_prefix (dotted [a; b; c; d]) "/" = false.
Proof.
  intros Hb. pose proof (all_digits_join_no_slash _ Hb) as Hs.
  destruct (dotted [a; b; c; d]) as [|x s] eqn:E; [done|].
  simpl in Hs. apply orb_false_iff in Hs as [Hx _].
  unfold has_prefix, strip_prefix. fold slash.
  assert (Ascii.eqb "/" x = false) as ->; [|done].
  apply not_true_iff_false. intros <-%eqb_ascii_spec. by vm_compute in Hx.
Qed.

Lemma dotted_not_empty a b c d : dotted [a; b; c; d] ≠ "".
Proof.
  change (dotted [a; b; c; d]) with (itoa a +:+ "." +:+ dotted [b; c; d]).
  pose proof (itoa_not_empty a). by destruct (itoa a).
Qed.

(** On a dotted-decimal netmask, ValidateNetmask accepts exactly the 33
    contiguous masks: those whose 32-bit value is 2^32 - 2^(32-n) for a prefix
    length n between 0 and 32; every other quad is refused. *)
Theorem ValidateNetmask_dotted a b c d :
  Forall is_byte [a; b; c; d] →
  ValidateNetmask (dotted [a; b; c; d]) = None ↔
    ∃ n, 0 ≤ n ≤ 32 ∧ mask_of_bytes a b c d = prefix_mask n.
Proof.
  intros Hb. unfold ValidateNetmask.
  rewrite bool_decide_eq_false_2 by apply dotted_not_empty.
  rewrite dotted_no_slash_prefix, ParseIP_dotted, To4_dotted by done.
  rewrite <-noncontiguous_false by by apply mask_of_bytes_range.
  by destruct (noncontiguous _).
Qed.

Lemma ValidateNetmask_dotted_witness :
  Forall is_byte [255; 255; 240; 0] ∧ ValidateNetmask (dotted [255; 255; 240; 0]) = None.
Proof.
  assert (Forall is_byte [255; 255; 240; 0]) as Hb
    by (repeat constructor; unfold is_byte; lia).
  split; [exact Hb|]. apply (ValidateNetmask_dotted 255 255 240 0 Hb).
  exists 20. split; [lia|reflexivity].
Defined.

Lemma contains_hyphen_range a b :
  str_contains (itoa a +:+ "-" +:+ itoa b) "-" = true.
Proof.
  change "-" with (String hyphen ""). rewrite str_contains_byte, !contains_byte_app.
  simpl. by rewrite orb_true_r.
Qed.

(** ValidatePortString on a range: for non-negative numbers in the range
    of int, "a-b" is accepted exactly when 1 <= a < b <= 65535 (a reversed, an
    equal or an out-of-range pair is an error). *)
Theorem ValidatePortString_range a b :
  0 ≤ a ≤ max_int64 → 0 ≤ b ≤ max_int64 →
  ValidatePortString (itoa a +:+ "-" +:+ itoa b) = None ↔ 1 ≤ a < b ∧ b ≤ 65535.
Proof.
  intros Ha Hb. unfold ValidatePortString.
  rewrite bool_decide_eq_false_2.
  2: { pose proof (itoa_not_empty a). by destruct (itoa a). }
  rewrite contains_hyphen_range. change ("-" +:+ itoa b) with (String hyphen (itoa b)).
  rewrite split_app, split_none by (apply itoa_no_byte; [lia|done]).
  rewrite !trim_space_digits by (apply all_digits_itoa; lia).
  rewrite !atoi_itoa by (unfold min_int64; lia).
  pose proof (ValidatePort_None a). pose proof (ValidatePort_None b).
  destruct (ValidatePort a); [split; [done|]; naive_solver lia|].
  destruct (ValidatePort b); [split; [done|]; naive_solver lia|].
  destruct (Z.leb_spec b a); split; (done || intros; naive_solver lia).
Qed.

Lemma ValidatePortString_range_witness :
  0 ≤ 8080 ≤ max_int64 ∧ ValidatePortString (itoa 8080 +:+ "-" +:+ itoa 8090) = None.
Proof.
  assert (0 ≤ 8080 ≤ max_int64) as Ha by (unfold max_int64; lia).
  assert (0 ≤ 8090 ≤ max_int64) as Hb by (unfold max_int64; lia).
  split; [exact Ha|]. apply (ValidatePortString_range 8080 8090 Ha Hb). lia.
Defined.
