(* ===== verification/Types.v ===== *)
(** * Types: the configuration records of package [types]

    [types/types.go] and [types/jack.go]: the records behind interfaces.json,
    routes.json and jack.json, and their [Validate] methods.  A Go [int] is a
    [Z]; a Go slice is a [list] (nil and empty are not told apart, the code
    only takes lengths and ranges over them); a map that can be nil is a
    [gomap]; a pointer to a struct is an [option] of it. *)
From S2P Require Import Prelude GoStr GoNet Validation.

Record IPv6Config := {
  v6_Protocol : string; v6_IP6Addr : string; v6_IP6GW : string;
  v6_IP6Prefix : string; v6_DNS6 : list string; v6_Enabled : bool;
}.

Record WireGuardPeer := {
  wp_PublicKey : string; wp_PresharedKey : string; wp_Endpoint : string;
  wp_Comment : string; wp_AllowedIPs : list string; wp_PersistentKeepalive : Z;
}.

Record Interface := {
  if_IPv6 : option IPv6Config;
  if_Gateway : string; if_Comment : string; if_MAC : string; if_Type : string;
  if_Device : string; if_DeviceName : string; if_Protocol : string;
  if_IPAddr : string; if_WGPrivateKey : string; if_Netmask : string;
  if_BridgePorts : list string; if_DNS : list string;
  if_WGPeers : list WireGuardPeer;
  if_Metric : Z; if_MTU : Z; if_BridgeForwardDelay : Z; if_VLANId : Z;
  if_WGListenPort : Z; if_Enabled : bool; if_BridgeSTP : bool;
}.

Record InterfacesConfig := {
  ic_Interfaces : gomap Interface; ic_Version : string;
}.

Record Route := {
  rt_Name : string; rt_Destination : string; rt_Gateway : string;
  rt_Interface : string; rt_Comment : string; rt_Metric : Z; rt_Table : Z;
  rt_Enabled : bool;
}.

Record RoutesConfig := { rc_Routes : gomap Route; rc_Version : string }.

(** [types/jack.go] *)
Record PluginState := { ps_Version : string; ps_Enabled : bool }.
Record ObserverConfig := {
  oc_Enabled : bool; oc_AutoReconcile : bool; oc_ReconcileIntervalMS : Z;
}.
Record LoggingConfig := {
  lc_Level : string; lc_Format : string; lc_Outputs : list string; lc_File : string;
}.
Record JackConfig := {
  jc_Plugins : gomap PluginState; jc_Observer : option ObserverConfig;
  jc_Logging : option LoggingConfig; jc_Version : string;
}.

(** Zero values ([types.Interface{}], [types.Route{}], ...). *)
Definition zero_Interface : Interface :=
  {| if_IPv6 := None; if_Gateway := ""; if_Comment := ""; if_MAC := ""; if_Type := "";
     if_Device := ""; if_DeviceName := ""; if_Protocol := ""; if_IPAddr := "";
     if_WGPrivateKey := ""; if_Netmask := ""; if_BridgePorts := []; if_DNS := [];
     if_WGPeers := []; if_Metric := 0; if_MTU := 0; if_BridgeForwardDelay := 0;
     if_VLANId := 0; if_WGListenPort := 0; if_Enabled := false; if_BridgeSTP := false |}.
Definition zero_Route : Route :=
  {| rt_Name := ""; rt_Destination := ""; rt_Gateway := ""; rt_Interface := "";
     rt_Comment := ""; rt_Metric := 0; rt_Table := 0; rt_Enabled := false |}.
Definition zero_IPv6 : IPv6Config :=
  {| v6_Protocol := ""; v6_IP6Addr := ""; v6_IP6GW := ""; v6_IP6Prefix := "";
     v6_DNS6 := []; v6_Enabled := false |}.
Definition zero_Peer : WireGuardPeer :=
  {| wp_PublicKey := ""; wp_PresharedKey := ""; wp_Endpoint := ""; wp_Comment := "";
     wp_AllowedIPs := []; wp_PersistentKeepalive := 0 |}.

#[export] Instance IPv6Config_eq_dec : EqDecision IPv6Config.
Proof. solve_decision. Defined.
#[export] Instance WireGuardPeer_eq_dec : EqDecision WireGuardPeer.
Proof. solve_decision. Defined.
#[export] Instance Interface_eq_dec : EqDecision Interface.
Proof. solve_decision. Defined.
#[export] Instance Route_eq_dec : EqDecision Route.
Proof. solve_decision. Defined.
#[export] Instance PluginState_eq_dec : EqDecision PluginState.
Proof. solve_decision. Defined.
#[export] Instance ObserverConfig_eq_dec : EqDecision ObserverConfig.
Proof. solve_decision. Defined.
#[export] Instance LoggingConfig_eq_dec : EqDecision LoggingConfig.
Proof. solve_decision. Defined.
#[export] Instance JackConfig_eq_dec : EqDecision JackConfig.
Proof. solve_decision. Defined.

(** ** Validate methods *)

(** [s != ""]. *)
Definition nonempty (s : string) : bool := negb (bool_decide (s = "")).

Definition Route_Validate (r : Route) : option error :=
  let v := WithContext ("route " +:+ rt_Name r) NewCollector in
  let v := Check (ValidateMetric (rt_Metric r)) v in
  let v := Check (ValidateTableID (rt_Table r)) v in
  let v := CheckMsg (ValidateCIDR (rt_Destination r)) "invalid destination" v in
  let v := when (nonempty (rt_Gateway r))
             (CheckMsg (ValidateIP (rt_Gateway r)) "invalid gateway") v in
  Error v.

(** [for _, dns := range l { v.CheckMsg(validation.ValidateIP(dns), ...) }]. *)
Definition check_dns (l : list string) (v : ErrorCollector) : ErrorCollector :=
  fold_left (λ v dns, CheckMsg (ValidateIP dns) ("invalid DNS server " +:+ dns) v) l v.

Definition IPv6Config_Validate (c : IPv6Config) : option error :=
  let v := WithContext "IPv6" NewCollector in
  let v := when (nonempty (v6_IP6Addr c))
             (CheckMsg (ValidateIP (v6_IP6Addr c)) "invalid address") v in
  let v := when (nonempty (v6_IP6GW c))
             (CheckMsg (ValidateIP (v6_IP6GW c)) "invalid gateway") v in
  let v := check_dns (v6_DNS6 c) v in
  Error v.

Definition WireGuardPeer_Validate (wp : WireGuardPeer) : option error :=
  let v := NewCollector in
  let v := CheckMsg (ValidateWireGuardKey (wp_PublicKey wp)) "invalid public key" v in
  let v := when (nonempty (wp_PresharedKey wp))
             (CheckMsg (ValidateWireGuardKey (wp_PresharedKey wp)) "invalid preshared key") v in
  let v := when (nonempty (wp_Endpoint wp))
             (CheckMsg (ValidateEndpoint (wp_Endpoint wp)) "invalid endpoint") v in
  let v := fold_left (λ v ip, CheckMsg (ValidateCIDR ip) ("invalid allowed IP " +:+ ip) v)
             (wp_AllowedIPs wp) v in
  Error v.

Definition indexed {A} (l : list A) : list (nat * A) := imap pair l.
(** [for i, x := range l { if ... { return err } }], the first error. *)
Fixpoint first_error {A} (l : list A) (body : A → option error) : option error :=
  match l with
  | [] => None
  | x :: l => match body x with Some err => Some err | None => first_error l body end
  end.
Definition check_peers (l : list WireGuardPeer) (v : ErrorCollector) : ErrorCollector :=
  fold_left (λ v p,
    when_some (WireGuardPeer_Validate p.2)
      (λ err, CheckMsg (Some err) ("peer " +:+ itoa (Z.of_nat p.1))) v) (indexed l) v.

Definition Interface_Validate (i : Interface) : option error :=
  let v := WithContext "interface" NewCollector in
  let v := when (0 <? if_MTU i) (Check (ValidateMTU (if_MTU i))) v in
  let v := when (bool_decide (if_Protocol i = "static") && nonempty (if_IPAddr i))
             (CheckMsg (ValidateIP (if_IPAddr i)) "invalid IP address") v in
  let v := when (nonempty (if_Netmask i)) (Check (ValidateNetmask (if_Netmask i))) v in
  let v := when (nonempty (if_MAC i)) (Check (ValidateMAC (if_MAC i))) v in
  let v := when (bool_decide (if_Type i = "vlan") && (0 <? if_VLANId i))
             (Check (ValidateVLANID (if_VLANId i))) v in
  let v := when (nonempty (if_Gateway i))
             (CheckMsg (ValidateIP (if_Gateway i)) "invalid gateway") v in
  let v := check_dns (if_DNS i) v in
  let v := when (0 <? if_WGListenPort i)
             (CheckMsg (ValidatePort (if_WGListenPort i)) "invalid WireGuard listen port") v in
  let v := when (nonempty (if_WGPrivateKey i))
             (CheckMsg (ValidateWireGuardKey (if_WGPrivateKey i))
                "invalid WireGuard private key") v in
  let v := check_peers (if_WGPeers i) v in
  let v := when_some (if_IPv6 i) (λ c, Check (IPv6Config_Validate c)) v in
  Error v.

(** ** Lemmas *)

Lemma nonempty_true s : nonempty s = true ↔ s ≠ "".
Proof. unfold nonempty. rewrite negb_true_iff. apply bool_decide_eq_false. Qed.

(** Chains of checks that return the first error. *)
Lemma nonempty_false s : nonempty s = false ↔ s = "".
Proof. unfold nonempty. rewrite negb_false_iff. apply bool_decide_eq_true. Qed.
Lemma out_of_range_false a b x : (x <? a) || (b <? x) = false ↔ a ≤ x ≤ b.
Proof. rewrite orb_false_iff, !Z.ltb_ge. lia. Qed.
Lemma first_error_None {A} (l : list A) body :
  first_error l body = None ↔ Forall (λ x, body x = None) l.
Proof.
  induction l as [|x l IH]; cbn; [by split|]. rewrite Forall_cons, <- IH.
  destruct (body x); naive_solver.
Qed.
Lemma if_Some_None {A} (b : bool) (x : A) (o : option A) :
  (if b then Some x else o) = None ↔ b = false ∧ o = None.
Proof. destruct b; naive_solver. Qed.
Lemma match_None {A} (o o' : option A) :
  match o with Some x => Some x | None => o' end = None ↔ o = None ∧ o' = None.
Proof. destruct o; naive_solver. Qed.

Lemma errs_check_dns l v :
  errs (check_dns l v) = [] ↔ errs v = [] ∧ Forall (λ dns, ValidateIP dns = None) l.
Proof.
  apply (errs_fold (λ dns, CheckMsg (ValidateIP dns) ("invalid DNS server " +:+ dns))).
  intros. apply errs_CheckMsg.
Qed.
Lemma Forall_indexed {A} (P : A → Prop) (l : list A) :
  Forall (λ p, P p.2) (indexed l) ↔ Forall P l.
Proof.
  unfold indexed. change (λ p : nat * A, P p.2) with (P ∘ @snd nat A).
  rewrite <-Forall_fmap. replace (snd <$> imap pair l) with l; [done|].
  rewrite fmap_imap. change (λ n, snd ∘ pair n) with (λ _ : nat, @id A).
  by rewrite (imap_const id), list_fmap_id.
Qed.
Lemma errs_check_peers l v :
  errs (check_peers l v) = [] ↔ errs v = [] ∧ Forall (λ p, WireGuardPeer_Validate p = None) l.
Proof.
  unfold check_peers. rewrite <-Forall_indexed.
  apply (errs_fold (λ p : nat * WireGuardPeer, when_some (WireGuardPeer_Validate p.2)
    (λ err, CheckMsg (Some err) ("peer " +:+ itoa (Z.of_nat p.1))))).
  intros [k p] v'. cbn. destruct (WireGuardPeer_Validate p) as [e|]; cbn [when_some].
  - rewrite errs_CheckMsg. naive_solver.
  - naive_solver.
Qed.
Lemma errs_check_ipv6 (o : option IPv6Config) v :
  errs (when_some o (λ c, Check (IPv6Config_Validate c)) v) = [] ↔
    errs v = [] ∧ ∀ c, o = Some c → IPv6Config_Validate c = None.
Proof. destruct o; cbn; [rewrite errs_Check|]; naive_solver. Qed.
#[export] Hint Rewrite errs_check_dns errs_check_peers errs_check_ipv6 : collector.

Lemma interface_valid i :
  Interface_Validate i = None ↔
    (0 < if_MTU i → 68 ≤ if_MTU i ≤ 65535) ∧
    (if_Protocol i = "static" → if_IPAddr i ≠ "" → ValidateIP (if_IPAddr i) = None) ∧
    (if_Netmask i ≠ "" → ValidateNetmask (if_Netmask i) = None) ∧
    (if_MAC i ≠ "" → ValidateMAC (if_MAC i) = None) ∧
    (if_Type i = "vlan" → 0 < if_VLANId i → 1 ≤ if_VLANId i ≤ 4094) ∧
    (if_Gateway i ≠ "" → ValidateIP (if_Gateway i) = None) ∧
    Forall (λ dns, ValidateIP dns = None) (if_DNS i) ∧
    (0 < if_WGListenPort i → 1 ≤ if_WGListenPort i ≤ 65535) ∧
    (if_WGPrivateKey i ≠ "" → ValidateWireGuardKey (if_WGPrivateKey i) = None) ∧
    Forall (λ p, WireGuardPeer_Validate p = None) (if_WGPeers i) ∧
    (∀ c, if_IPv6 i = Some c → IPv6Config_Validate c = None).
Proof.
  unfold Interface_Validate. cbv zeta. autorewrite with collector.
  rewrite !andb_true_iff, !nonempty_true, !bool_decide_eq_true, !Z.ltb_lt,
    ValidateMTU_None, ValidateVLANID_None, ValidatePort_None. cbn. tauto.
Qed.

(** ** Properties *)

(** A route is accepted exactly when its metric is not negative, its table
    is an unsigned 32-bit number, its destination is "default" or a valid CIDR,
    and its gateway, if any, is a valid IP address. *)
Theorem Route_Validate_None r :
  Route_Validate r = None ↔
    0 ≤ rt_Metric r ∧ 0 ≤ rt_Table r ≤ 4294967295 ∧ ValidateCIDR (rt_Destination r) = None ∧
    (rt_Gateway r ≠ "" → ValidateIP (rt_Gateway r) = None).
Proof.
  unfold Route_Validate. cbv zeta. autorewrite with collector.
  rewrite nonempty_true, ValidateMetric_None, ValidateTableID_None. cbn. tauto.
Qed.

(** An interface is accepted exactly when every setting that is present is
    valid: a positive MTU in [68, 65535], the address of a static interface, the
    netmask, MAC and gateway, a positive id of a vlan in [1, 4094], the DNS
    servers, the WireGuard port, key and peers, and the IPv6 settings.  A
    negative MTU, VLAN id or listen port is not looked at. *)
Theorem Interface_Validate_None i :
  Interface_Validate i = None ↔
    (0 < if_MTU i → 68 ≤ if_MTU i ≤ 65535) ∧
    (if_Protocol i = "static" → if_IPAddr i ≠ "" → ValidateIP (if_IPAddr i) = None) ∧
    (if_Netmask i ≠ "" → ValidateNetmask (if_Netmask i) = None) ∧
    (if_MAC i ≠ "" → ValidateMAC (if_MAC i) = None) ∧
    (if_Type i = "vlan" → 0 < if_VLANId i → 1 ≤ if_VLANId i ≤ 4094) ∧
    (if_Gateway i ≠ "" → ValidateIP (if_Gateway i) = None) ∧
    Forall (λ dns, ValidateIP dns = None) (if_DNS i) ∧
    (0 < if_WGListenPort i → 1 ≤ if_WGListenPort i ≤ 65535) ∧
    (if_WGPrivateKey i ≠ "" → ValidateWireGuardKey (if_WGPrivateKey i) = None) ∧
    Forall (λ p, WireGuardPeer_Validate p = None) (if_WGPeers i) ∧
    (∀ c, if_IPv6 i = Some c → IPv6Config_Validate c = None).
Proof. apply interface_valid. Qed.
