(* ===== verification/Json.v ===== *)
(** * Json: encoding/json as the daemon uses it

    JSON documents and the 64-bit floats their numbers become.  Marshalling and
    unmarshalling are in [Codec.v]. *)
From S2P Require Import Prelude GoStr.

(** ** float64

    A finite float64 is an integer or an odd [m] over [2^e]. *)
Inductive num := NInt (z : Z) | NFrac (m : Z) (e : positive).
#[export] Instance num_eq_dec : EqDecision num.
Proof. solve_decision. Defined.

(** The float64 nearest to the integer [z] (ties to even). *)
Definition round53 (z : Z) : Z :=
  let a := Z.abs z in
  if a <? 2 ^ 53 then z
  else
    let u := 2 ^ (Z.log2 a - 52) in
    let q := a / u in
    let r := a mod u in
    let q := if (2 * r <? u) || ((2 * r =? u) && Z.even q) then q else q + 1 in
    Z.sgn z * (q * u).

(** The integer written by strconv's shortest formatting of the float64 [z]:
    the one with the fewest significant digits that reads back as [z]. *)
Fixpoint shortest_search (fuel : nat) (u : Z) (z : Z) : Z :=
  match fuel with
  | O => z
  | S fuel =>
      let lo := z / u * u in
      let hi := lo + u in
      let first := if z - lo <=? hi - z then lo else hi in
      let second := if z - lo <=? hi - z then hi else lo in
      if round53 first =? z then first
      else if round53 second =? z then second
      else shortest_search fuel (u / 10) z
  end.
Definition shortest_int (z : Z) : Z :=
  if Z.abs z <? 2 ^ 53 then z else shortest_search 22 (10 ^ 21) z.

(** [int64(f)] truncates; out of range the result is implementation-defined. *)
Class FloatToInt := { float_to_int_overflow : Z → Z }.
Definition int64_of_float `{FloatToInt} (n : num) : Z :=
  match n with
  | NInt z => if in_int64 z then z else float_to_int_overflow z
  | NFrac m e => Z.quot m (2 ^ Zpos e)
  end.
(** What the amd64 instruction returns. *)
Definition amd64_float_to_int : FloatToInt := {| float_to_int_overflow _ := min_int64 |}.

(** ** JSON documents

    Objects keep their order and their duplicate keys.  A number literal is
    [JInt] when it has neither fraction nor exponent, [JFloat] otherwise (and
    then given by the float64 it denotes). *)
Inductive json :=
| JNull
| JBool (b : bool)
| JInt (z : Z)
| JFloat (n : num)
| JStr (s : string)
| JArr (l : list json)
| JObj (l : list (string * json)).

(** [json.Marshal] writes a map's keys in sorted order. *)
Definition key_le {A} (p q : string * A) : Prop := String.leb p.1 q.1 = true.
#[export] Instance key_le_dec {A} : RelDecision (@key_le A).
Proof. intros p q. unfold key_le. apply _. Defined.
Definition sorted_entries {A} (m : gmap string A) : list (string * A) :=
  merge_sort key_le (map_to_list m).

Lemma sorted_entries_perm {A} (m : gmap string A) : sorted_entries m ≡ₚ map_to_list m.
Proof. apply merge_sort_Permutation. Qed.
Lemma sorted_entries_map {A} (m : gmap string A) : list_to_map (sorted_entries m) = m.
Proof.
  rewrite <-(list_to_map_to_list m) at 2. apply list_to_map_proper; [|apply sorted_entries_perm].
  rewrite sorted_entries_perm. apply NoDup_fst_map_to_list.
Qed.
