(* ===== verification/Value.v ===== *)
(** * Value: dynamically typed Go values and structs seen through reflection

    [value] is what an [interface{}] of the daemon can hold; [Struct] is the
    interface between a configuration record and the reflective code
    (navigator.go, diff.go, encoding/json): the record as a table of tagged
    values, and back. *)
From S2P Require Import Prelude GoStr Types Json.

(** The first six constructors are what [json.Unmarshal] makes for an
    [interface{}] target.  The others are the typed values the code
    type-switches on or stores: [int], [[]string], [[]types.WireGuardPeer],
    [*types.IPv6Config], [types.Interface], [map[string]types.Interface],
    [types.Route], [map[string]types.Route], [[]types.Route], and the field
    types of [types.JackConfig]. *)
Inductive value :=
| VNil
| VBool (b : bool)
| VNum (n : num)
| VStr (s : string)
| VArr (l : list value)
| VMap (m : gmap string value)
| VInt (z : Z)
| VStrs (l : list string)
| VPeers (l : list WireGuardPeer)
| VIPv6 (o : option IPv6Config)
| VIface (i : Interface)
| VIfaces (m : gomap Interface)
| VRoute (r : Route)
| VRoutes (m : gomap Route)
| VRouteSlice (l : list Route)
| VPlugins (m : gomap PluginState)
| VObserver (o : option ObserverConfig)
| VLogging (o : option LoggingConfig).

#[export] Instance value_eq_dec : EqDecision value.
Proof.
  refine (fix go x y :=
    let r : EqDecision value := @go in
    match x, y with
    | VNil, VNil => left eq_refl
    | VBool a, VBool b => cast_if (decide (a = b))
    | VNum a, VNum b => cast_if (decide (a = b))
    | VStr a, VStr b => cast_if (decide (a = b))
    | VArr a, VArr b => cast_if (decide (a = b))
    | VMap a, VMap b => cast_if (decide (a = b))
    | VInt a, VInt b => cast_if (decide (a = b))
    | VStrs a, VStrs b => cast_if (decide (a = b))
    | VPeers a, VPeers b => cast_if (decide (a = b))
    | VIPv6 a, VIPv6 b => cast_if (decide (a = b))
    | VIface a, VIface b => cast_if (decide (a = b))
    | VIfaces a, VIfaces b => cast_if (decide (a = b))
    | VRoute a, VRoute b => cast_if (decide (a = b))
    | VRoutes a, VRoutes b => cast_if (decide (a = b))
    | VRouteSlice a, VRouteSlice b => cast_if (decide (a = b))
    | VPlugins a, VPlugins b => cast_if (decide (a = b))
    | VObserver a, VObserver b => cast_if (decide (a = b))
    | VLogging a, VLogging b => cast_if (decide (a = b))
    | _, _ => right _
    end); clear r go; congruence.
Defined.

(** ** Kinds: the dynamic type of a value *)
Inductive kind :=
| KNil | KBool | KNum | KStr | KArr | KMap | KInt | KStrs | KPeers | KIPv6
| KIface | KIfaces | KRoute | KRoutes | KRouteSlice | KPlugins | KObserver | KLogging.
#[export] Instance kind_eq_dec : EqDecision kind.
Proof. solve_decision. Defined.

Definition kind_of (v : value) : kind :=
  match v with
  | VNil => KNil | VBool _ => KBool | VNum _ => KNum | VStr _ => KStr
  | VArr _ => KArr | VMap _ => KMap | VInt _ => KInt | VStrs _ => KStrs
  | VPeers _ => KPeers | VIPv6 _ => KIPv6 | VIface _ => KIface
  | VIfaces _ => KIfaces | VRoute _ => KRoute | VRoutes _ => KRoutes
  | VRouteSlice _ => KRouteSlice | VPlugins _ => KPlugins
  | VObserver _ => KObserver | VLogging _ => KLogging
  end.

(** [reflect.Zero]. *)
Definition zero_of (k : kind) : value :=
  match k with
  | KNil => VNil | KBool => VBool false | KNum => VNum (NInt 0) | KStr => VStr ""
  | KArr => VArr [] | KMap => VMap ∅ | KInt => VInt 0 | KStrs => VStrs []
  | KPeers => VPeers [] | KIPv6 => VIPv6 None | KIface => VIface zero_Interface
  | KIfaces => VIfaces None | KRoute => VRoute zero_Route | KRoutes => VRoutes None
  | KRouteSlice => VRouteSlice [] | KPlugins => VPlugins None
  | KObserver => VObserver None | KLogging => VLogging None
  end.
Lemma kind_of_zero k : kind_of (zero_of k) = k.
Proof. by destruct k. Qed.

Definition as_str (v : value) : string := match v with VStr s => s | _ => "" end.
Definition as_bool (v : value) : bool := match v with VBool b => b | _ => false end.
Definition as_int (v : value) : Z := match v with VInt z => z | _ => 0 end.
Definition as_strs (v : value) : list string := match v with VStrs l => l | _ => [] end.
Definition as_peers (v : value) := match v with VPeers l => l | _ => [] end.
Definition as_ipv6 (v : value) := match v with VIPv6 o => o | _ => None end.
Definition as_ifaces (v : value) := match v with VIfaces m => m | _ => None end.
Definition as_routes (v : value) := match v with VRoutes m => m | _ => None end.
Definition as_plugins (v : value) := match v with VPlugins m => m | _ => None end.
Definition as_observer (v : value) := match v with VObserver o => o | _ => None end.
Definition as_logging (v : value) := match v with VLogging o => o | _ => None end.

(** ** Structs as tables

    [rows s] lists the exported fields of [s] in declaration order under their
    JSON tags; [omitempty t] says whether the tag [t] has that option; [build]
    makes the struct with the given field values. *)
Class Struct (S : Type) := {
  rows : S → list (string * value);
  omitempty : string → bool;
  build : (string → value) → S;
  schema : list (string * kind);
}.

Definition field_of (l : list (string * value)) (t : string) : value :=
  default VNil (snd <$> List.find (λ p, String.eqb p.1 t) l).

(** Kinds whose only empty value (encoding/json's [isEmptyValue]) is the zero
    value; a map can be empty without being nil. *)
Definition is_flat (k : kind) : bool :=
  match k with KStr | KBool | KInt | KStrs | KPeers | KIPv6 | KObserver | KLogging => true
  | _ => false end.

Class StructLaws (S : Type) `{Struct S} := {
  rows_schema : ∀ s : S, (prod_map id kind_of) <$> rows s = schema;
  schema_NoDup : NoDup (schema.*1);
  build_rows : ∀ s : S, build (field_of (rows s)) = s;
  rows_build : ∀ g : string → value,
    Forall (λ p, kind_of (g p.1) = p.2) schema →
    rows (build g : S) = (λ p, (p.1, g p.1)) <$> schema;
  omitempty_flat : forallb (λ p, negb (omitempty p.1) || is_flat p.2) schema = true;
}.

(** [s] with the field of tag [t] replaced. *)
Definition with_field {S} `{Struct S} (t : string) (v : value) (s : S) : S :=
  build (λ t', if String.eqb t' t then v else field_of (rows s) t').
Definition zero_struct {S} `{Struct S} : S :=
  build (λ t, default VNil ((zero_of ∘ snd) <$> List.find (λ p, String.eqb p.1 t) schema)).

Section struct_lemmas.
Context {S : Type} `{StructLaws S}.

Lemma field_of_In l t v : NoDup (l.*1) → (t, v) ∈ l → field_of l t = v.
Proof.
  intros Hnd Hin. unfold field_of. induction l as [|[t' v'] l IH]; [by set_solver|].
  apply NoDup_cons in Hnd as [Hni Hnd]. simpl. destruct (String.eqb_spec t' t) as [->|Hne].
  - apply elem_of_cons in Hin as [[=]|Hin]; [done|].
    destruct Hni. apply list_elem_of_fmap. by exists (t, v).
  - apply elem_of_cons in Hin as [[=]|Hin]; [congruence|]. by apply IH.
Qed.

Lemma tag_kind t : t ∈ (schema (S:=S)).*1 → ∃ k, (t, k) ∈ schema (S:=S).
Proof. intros ([? k] & -> & Hk)%list_elem_of_fmap. by exists k. Qed.
Lemma kind_tag t k : (t, k) ∈ schema (S:=S) → t ∈ (schema (S:=S)).*1.
Proof. intros Hk. apply list_elem_of_fmap. by exists (t, k). Qed.
Lemma rows_tags (s : S) : (rows s).*1 = schema.*1.
Proof. rewrite <-(rows_schema s), <-list_fmap_compose. done. Qed.
Lemma rows_NoDup (s : S) : NoDup ((rows s).*1).
Proof. rewrite rows_tags. apply schema_NoDup. Qed.
Lemma rows_lookup (s : S) t k : (t, k) ∈ schema → (t, field_of (rows s) t) ∈ rows s.
Proof.
  rewrite <-(rows_schema s). intros ([t' v] & [= -> ->] & Hin)%list_elem_of_fmap.
  simpl in *. by rewrite (field_of_In _ _ _ (rows_NoDup s) Hin).
Qed.
Lemma field_kind (s : S) t k : (t, k) ∈ schema → kind_of (field_of (rows s) t) = k.
Proof.
  intros Hin. pose proof Hin as Hin'. rewrite <-(rows_schema s) in Hin'.
  apply list_elem_of_fmap in Hin' as ([t' v] & [= -> ->] & Hin').
  by rewrite (field_of_In _ _ _ (rows_NoDup s) Hin').
Qed.
Lemma schema_kind_unique t k k' : (t, k) ∈ schema → (t, k') ∈ schema → k = k'.
Proof.
  intros Hk Hk'. set (s := zero_struct : S).
  by rewrite <-(field_kind s t k Hk), (field_kind s t k' Hk').
Qed.

Lemma build_kinds (g : string → value) :
  (∀ t k, (t, k) ∈ schema → kind_of (g t) = k) →
  ∀ t k, (t, k) ∈ schema → field_of (rows (build g : S)) t = g t.
Proof.
  intros Hg t k Hin. apply field_of_In; [apply rows_NoDup|].
  rewrite rows_build by (apply Forall_forall; intros []; apply Hg).
  apply list_elem_of_fmap. by exists (t, k).
Qed.

Section with_field.
Context (t : string) (k : kind) (v : value) (s : S).
Hypothesis (Ht : (t, k) ∈ schema) (Hv : kind_of v = k).

Lemma with_field_lookup t' k' :
  (t', k') ∈ schema →
  field_of (rows (with_field t v s)) t' =
    if String.eqb t' t then v else field_of (rows s) t'.
Proof.
  intros Hin. unfold with_field. 
  rewrite (build_kinds (λ t'', if String.eqb t'' t then v else field_of (rows s) t''))
    with (k := k'); [done| |done].
  intros t'' k'' Hin'. destruct (String.eqb_spec t'' t) as [->|]; [|by apply field_kind].
  rewrite Hv. by eapply schema_kind_unique.
Qed.
Lemma with_field_same : field_of (rows (with_field t v s)) t = v.
Proof. erewrite with_field_lookup by done. by rewrite String.eqb_refl. Qed.
Lemma with_field_other t' :
  t' ≠ t → t' ∈ schema.*1 → field_of (rows (with_field t v s)) t' = field_of (rows s) t'.
Proof.
  intros Hne ([? k'] & -> & Hin)%list_elem_of_fmap. erewrite with_field_lookup by done.
  by apply String.eqb_neq in Hne as ->.
Qed.
End with_field.

Lemma rows_table (s : S) : rows s = (λ p, (p.1, field_of (rows s) p.1)) <$> schema.
Proof.
  rewrite <-(rows_schema s), <-list_fmap_compose. rewrite <-(list_fmap_id (rows s)) at 1.
  apply list_fmap_ext. intros i [t v] Hi. simpl.
  by rewrite (field_of_In _ _ _ (rows_NoDup s) (list_elem_of_lookup_2 _ _ _ Hi)).
Qed.

(** A struct is determined by its fields. *)
Lemma struct_ext (s s' : S) :
  (∀ t, t ∈ schema.*1 → field_of (rows s) t = field_of (rows s') t) → s = s'.
Proof.
  intros Heq. rewrite <-(build_rows s), <-(build_rows s').
  assert (rows s = rows s') as ->; [|done].
  rewrite (rows_table s), (rows_table s'). apply list_fmap_ext. intros i [t k] Hi. simpl.
  rewrite Heq; [done|]. apply list_elem_of_fmap. exists (t, k). split; [done|].
  by eapply list_elem_of_lookup_2.
Qed.
End struct_lemmas.
