(* ===== verification/Struct.v ===== *)
(** * Struct: the configuration records as reflected tables

    The [Struct] instance of every record of package [types]: its JSON tags in
    declaration order with the [omitempty] options of the struct tags, and the
    lemmas about reading and replacing one field that hold of any of them. *)
From S2P Require Import Prelude GoStr Types Json Value.

(** Tags with [,omitempty]. *)
Definition one_of (l : list string) (t : string) : bool := existsb (String.eqb t) l.

#[export] Instance WireGuardPeer_struct : Struct WireGuardPeer := {
  rows p := [
    ("public_key", VStr (wp_PublicKey p)); ("preshared_key", VStr (wp_PresharedKey p));
    ("endpoint", VStr (wp_Endpoint p)); ("comment", VStr (wp_Comment p));
    ("allowed_ips", VStrs (wp_AllowedIPs p));
    ("persistent_keepalive", VInt (wp_PersistentKeepalive p))];
  omitempty := one_of ["preshared_key"; "endpoint"; "comment"; "persistent_keepalive"];
  build g := {|
    wp_PublicKey := as_str (g "public_key"); wp_PresharedKey := as_str (g "preshared_key");
    wp_Endpoint := as_str (g "endpoint"); wp_Comment := as_str (g "comment");
    wp_AllowedIPs := as_strs (g "allowed_ips");
    wp_PersistentKeepalive := as_int (g "persistent_keepalive") |};
  schema := [
    ("public_key", KStr); ("preshared_key", KStr); ("endpoint", KStr); ("comment", KStr);
    ("allowed_ips", KStrs); ("persistent_keepalive", KInt)];
}.

#[export] Instance IPv6Config_struct : Struct IPv6Config := {
  rows c := [
    ("protocol", VStr (v6_Protocol c)); ("ip6addr", VStr (v6_IP6Addr c));
    ("ip6gw", VStr (v6_IP6GW c)); ("ip6prefix", VStr (v6_IP6Prefix c));
    ("dns6", VStrs (v6_DNS6 c)); ("enabled", VBool (v6_Enabled c))];
  omitempty := one_of ["ip6addr"; "ip6gw"; "ip6prefix"; "dns6"];
  build g := {|
    v6_Protocol := as_str (g "protocol"); v6_IP6Addr := as_str (g "ip6addr");
    v6_IP6GW := as_str (g "ip6gw"); v6_IP6Prefix := as_str (g "ip6prefix");
    v6_DNS6 := as_strs (g "dns6"); v6_Enabled := as_bool (g "enabled") |};
  schema := [
    ("protocol", KStr); ("ip6addr", KStr); ("ip6gw", KStr); ("ip6prefix", KStr);
    ("dns6", KStrs); ("enabled", KBool)];
}.

#[export] Instance Interface_struct : Struct Interface := {
  rows i := [
    ("ipv6", VIPv6 (if_IPv6 i)); ("gateway", VStr (if_Gateway i));
    ("comment", VStr (if_Comment i)); ("mac", VStr (if_MAC i)); ("type", VStr (if_Type i));
    ("device", VStr (if_Device i)); ("device_name", VStr (if_DeviceName i));
    ("protocol", VStr (if_Protocol i)); ("ipaddr", VStr (if_IPAddr i));
    ("wg_private_key", VStr (if_WGPrivateKey i)); ("netmask", VStr (if_Netmask i));
    ("bridge_ports", VStrs (if_BridgePorts i)); ("dns", VStrs (if_DNS i));
    ("wg_peers", VPeers (if_WGPeers i)); ("metric", VInt (if_Metric i));
    ("mtu", VInt (if_MTU i)); ("bridge_forward_delay", VInt (if_BridgeForwardDelay i));
    ("vlan_id", VInt (if_VLANId i)); ("wg_listen_port", VInt (if_WGListenPort i));
    ("enabled", VBool (if_Enabled i)); ("bridge_stp", VBool (if_BridgeSTP i))];
  omitempty t := negb (one_of ["type"; "protocol"; "enabled"] t);
  build g := {|
    if_IPv6 := as_ipv6 (g "ipv6"); if_Gateway := as_str (g "gateway");
    if_Comment := as_str (g "comment"); if_MAC := as_str (g "mac");
    if_Type := as_str (g "type"); if_Device := as_str (g "device");
    if_DeviceName := as_str (g "device_name"); if_Protocol := as_str (g "protocol");
    if_IPAddr := as_str (g "ipaddr"); if_WGPrivateKey := as_str (g "wg_private_key");
    if_Netmask := as_str (g "netmask"); if_BridgePorts := as_strs (g "bridge_ports");
    if_DNS := as_strs (g "dns"); if_WGPeers := as_peers (g "wg_peers");
    if_Metric := as_int (g "metric"); if_MTU := as_int (g "mtu");
    if_BridgeForwardDelay := as_int (g "bridge_forward_delay");
    if_VLANId := as_int (g "vlan_id"); if_WGListenPort := as_int (g "wg_listen_port");
    if_Enabled := as_bool (g "enabled"); if_BridgeSTP := as_bool (g "bridge_stp") |};
  schema := [
    ("ipv6", KIPv6); ("gateway", KStr); ("comment", KStr); ("mac", KStr); ("type", KStr);
    ("device", KStr); ("device_name", KStr); ("protocol", KStr); ("ipaddr", KStr);
    ("wg_private_key", KStr); ("netmask", KStr); ("bridge_ports", KStrs); ("dns", KStrs);
    ("wg_peers", KPeers); ("metric", KInt); ("mtu", KInt); ("bridge_forward_delay", KInt);
    ("vlan_id", KInt); ("wg_listen_port", KInt); ("enabled", KBool); ("bridge_stp", KBool)];
}.

#[export] Instance Route_struct : Struct Route := {
  rows r := [
    ("name", VStr (rt_Name r)); ("destination", VStr (rt_Destination r));
    ("gateway", VStr (rt_Gateway r)); ("interface", VStr (rt_Interface r));
    ("comment", VStr (rt_Comment r)); ("metric", VInt (rt_Metric r));
    ("table", VInt (rt_Table r)); ("enabled", VBool (rt_Enabled r))];
  omitempty := one_of ["gateway"; "interface"; "comment"; "metric"; "table"];
  build g := {|
    rt_Name := as_str (g "name"); rt_Destination := as_str (g "destination");
    rt_Gateway := as_str (g "gateway"); rt_Interface := as_str (g "interface");
    rt_Comment := as_str (g "comment"); rt_Metric := as_int (g "metric");
    rt_Table := as_int (g "table"); rt_Enabled := as_bool (g "enabled") |};
  schema := [
    ("name", KStr); ("destination", KStr); ("gateway", KStr); ("interface", KStr);
    ("comment", KStr); ("metric", KInt); ("table", KInt); ("enabled", KBool)];
}.

#[export] Instance InterfacesConfig_struct : Struct InterfacesConfig := {
  rows c := [("interfaces", VIfaces (ic_Interfaces c)); ("version", VStr (ic_Version c))];
  omitempty _ := false;
  build g := {| ic_Interfaces := as_ifaces (g "interfaces"); ic_Version := as_str (g "version") |};
  schema := [("interfaces", KIfaces); ("version", KStr)];
}.

#[export] Instance RoutesConfig_struct : Struct RoutesConfig := {
  rows c := [("routes", VRoutes (rc_Routes c)); ("version", VStr (rc_Version c))];
  omitempty _ := false;
  build g := {| rc_Routes := as_routes (g "routes"); rc_Version := as_str (g "version") |};
  schema := [("routes", KRoutes); ("version", KStr)];
}.

#[export] Instance PluginState_struct : Struct PluginState := {
  rows p := [("version", VStr (ps_Version p)); ("enabled", VBool (ps_Enabled p))];
  omitempty _ := false;
  build g := {| ps_Version := as_str (g "version"); ps_Enabled := as_bool (g "enabled") |};
  schema := [("version", KStr); ("enabled", KBool)];
}.

#[export] Instance ObserverConfig_struct : Struct ObserverConfig := {
  rows o := [
    ("enabled", VBool (oc_Enabled o)); ("auto_reconcile", VBool (oc_AutoReconcile o));
    ("reconcile_interval_ms", VInt (oc_ReconcileIntervalMS o))];
  omitempty _ := false;
  build g := {|
    oc_Enabled := as_bool (g "enabled"); oc_AutoReconcile := as_bool (g "auto_reconcile");
    oc_ReconcileIntervalMS := as_int (g "reconcile_interval_ms") |};
  schema := [("enabled", KBool); ("auto_reconcile", KBool); ("reconcile_interval_ms", KInt)];
}.

#[export] Instance LoggingConfig_struct : Struct LoggingConfig := {
  rows l := [
    ("level", VStr (lc_Level l)); ("format", VStr (lc_Format l));
    ("outputs", VStrs (lc_Outputs l)); ("file", VStr (lc_File l))];
  omitempty _ := false;
  build g := {|
    lc_Level := as_str (g "level"); lc_Format := as_str (g "format");
    lc_Outputs := as_strs (g "outputs"); lc_File := as_str (g "file") |};
  schema := [("level", KStr); ("format", KStr); ("outputs", KStrs); ("file", KStr)];
}.

#[export] Instance JackConfig_struct : Struct JackConfig := {
  rows j := [
    ("plugins", VPlugins (jc_Plugins j)); ("observer", VObserver (jc_Observer j));
    ("logging", VLogging (jc_Logging j)); ("version", VStr (jc_Version j))];
  omitempty _ := false;
  build g := {|
    jc_Plugins := as_plugins (g "plugins"); jc_Observer := as_observer (g "observer");
    jc_Logging := as_logging (g "logging"); jc_Version := as_str (g "version") |};
  schema := [("plugins", KPlugins); ("observer", KObserver); ("logging", KLogging);
             ("version", KStr)];
}.

(** ** The laws *)

(** A field of the right kind survives the table. *)
Ltac struct_laws :=
  split;
  [ by intros []
  | apply (bool_decide_unpack _); by vm_compute
  | by intros []
  | let g := fresh "g" in let Hg := fresh "Hg" in
    intros g Hg; simpl in Hg |- *;
    repeat match type of Hg with
      | Forall _ (_ :: _) =>
          let Hk := fresh "Hk" in apply Forall_cons in Hg as [Hk Hg]; simpl in Hk;
          match type of Hk with kind_of ?v = _ => destruct v; try discriminate Hk; clear Hk end
      end; reflexivity
  | reflexivity ].

#[export] Instance WireGuardPeer_laws : StructLaws WireGuardPeer.
Proof. struct_laws. Qed.
#[export] Instance IPv6Config_laws : StructLaws IPv6Config.
Proof. struct_laws. Qed.
#[export] Instance Interface_laws : StructLaws Interface.
Proof. struct_laws. Qed.
#[export] Instance Route_laws : StructLaws Route.
Proof. struct_laws. Qed.
#[export] Instance InterfacesConfig_laws : StructLaws InterfacesConfig.
Proof. struct_laws. Qed.
#[export] Instance RoutesConfig_laws : StructLaws RoutesConfig.
Proof. struct_laws. Qed.
#[export] Instance PluginState_laws : StructLaws PluginState.
Proof. struct_laws. Qed.
#[export] Instance ObserverConfig_laws : StructLaws ObserverConfig.
Proof. struct_laws. Qed.
#[export] Instance LoggingConfig_laws : StructLaws LoggingConfig.
Proof. struct_laws. Qed.
#[export] Instance JackConfig_laws : StructLaws JackConfig.
Proof. struct_laws. Qed.
