(* ===== verification/Codec.v ===== *)
(** * Codec: json.Marshal and json.Unmarshal on the daemon's types

    Encoding and decoding follow encoding/json: struct fields in declaration
    order with [omitempty], map keys sorted, object keys matched exactly and
    then case-insensitively, [null] leaving non-nillable targets alone.  A nil
    slice is written as an empty array (the model does not tell them apart).
    The theorems are round trips: a configuration written to disk and read back
    is the same configuration, and the JSON deep copy of a plugin
    configuration equals it. *)
From S2P Require Import Prelude GoStr Types Json Value Struct.

(** ** Encoding *)

(** encoding/json's [isEmptyValue]. *)
Definition isEmptyValue (v : value) : bool :=
  match v with
  | VBool b => negb b
  | VInt z => z =? 0
  | VNum n => bool_decide (n = NInt 0)
  | VStr s => bool_decide (s = "")
  | VArr l => bool_decide (length l = 0%nat)
  | VStrs l => bool_decide (l = [])
  | VPeers l => bool_decide (l = [])
  | VRouteSlice l => bool_decide (l = [])
  | VMap m => bool_decide (size m = 0%nat)
  | VIfaces m => bool_decide (gm m = ∅)
  | VRoutes m => bool_decide (gm m = ∅)
  | VPlugins m => bool_decide (gm m = ∅)
  | VIPv6 o => bool_decide (o = None)
  | VObserver o => bool_decide (o = None)
  | VLogging o => bool_decide (o = None)
  | VNil => true
  | VIface _ | VRoute _ => false
  end.

Definition enc_struct {S} `{Struct S} (encv : value → json) (s : S) : json :=
  JObj (omap (λ '(t, v), if omitempty (S:=S) t && isEmptyValue v then None
                         else Some (t, encv v)) (rows s)).
Definition enc_map {A} (f : A → json) (m : gomap A) : json :=
  match m with None => JNull | Some m => JObj (sorted_entries (f <$> m)) end.
Definition enc_ptr {A} (f : A → json) (o : option A) : json :=
  match o with None => JNull | Some a => f a end.

(** Strings, booleans, ints and string slices. *)
Definition enc_base (v : value) : json :=
  match v with
  | VStr s => JStr s
  | VBool b => JBool b
  | VInt z => JInt z
  | VStrs l => JArr (JStr <$> l)
  | _ => JNull
  end.
(** The field types that are made of structs. *)
Definition enc_field (v : value) : json :=
  match v with
  | VPeers l => JArr (enc_struct enc_base <$> l)
  | VIPv6 o => enc_ptr (enc_struct enc_base) o
  | VObserver o => enc_ptr (enc_struct enc_base) o
  | VLogging o => enc_ptr (enc_struct enc_base) o
  | VPlugins m => enc_map (enc_struct enc_base) m
  | _ => enc_base v
  end.
Definition enc_iface : Interface → json := enc_struct enc_field.
Definition enc_route : Route → json := enc_struct enc_field.

Definition enc_config_field (v : value) : json :=
  match v with
  | VIfaces m => enc_map enc_iface m
  | VRoutes m => enc_map enc_route m
  | _ => enc_field v
  end.

(** A float64 below 1e21 is written without an exponent. *)
Definition enc_num (n : num) : json :=
  match n with
  | NInt z => if Z.abs z <? 10 ^ 21 then JInt (shortest_int z) else JFloat n
  | NFrac _ _ => JFloat n
  end.

Fixpoint Marshal (v : value) : json :=
  match v with
  | VNil => JNull
  | VNum n => enc_num n
  | VArr l => JArr (Marshal <$> l)
  | VMap m => JObj (sorted_entries (Marshal <$> m))
  | VIface i => enc_iface i
  | VRoute r => enc_route r
  | VRouteSlice l => JArr (enc_route <$> l)
  | _ => enc_config_field v
  end.

(** ** Decoding *)

Definition type_error : error := StdError "encoding/json" "UnmarshalTypeError".

(** encoding/json's [foldName]: upper case, with the two runes outside ASCII
    that fold to a letter (U+017F to S, U+212A to K). *)
Fixpoint fold_name (s : string) : string :=
  match s with
  | "" => ""
  | String c s' =>
      match Ascii.N_of_ascii c, s' with
      | 197%N, String d s'' =>
          if (Ascii.N_of_ascii d =? 191)%N then String "S" (fold_name s'')
          else String c (fold_name s')
      | 226%N, String d (String e s'') =>
          if (Ascii.N_of_ascii d =? 132)%N && (Ascii.N_of_ascii e =? 170)%N
          then String "K" (fold_name s'') else String c (fold_name s')
      | _, _ => String (upper_byte c) (fold_name s')
      end
  end.

(** The field an object key sets: exact tag first, then case-folded. *)
Definition find_key (tags : list string) (key : string) : option string :=
  match List.find (String.eqb key) tags with
  | Some t => Some t
  | None => List.find (λ t, String.eqb (fold_name key) (fold_name t)) tags
  end.

Section dec_struct.
Context {S : Type} `{Struct S} (decv : value → json → res value).
Fixpoint dec_fields (s : S) (kvs : list (string * json)) : res S :=
  match kvs with
  | [] => Ok s
  | (k, j) :: kvs =>
      match find_key (schema (S:=S)).*1 k with
      | None => dec_fields s kvs
      | Some t => decv (field_of (rows s) t) j ≫= λ v, dec_fields (with_field t v s) kvs
      end
  end.
(** Unmarshal into the struct [s]. *)
Definition dec_struct (s : S) (j : json) : res S :=
  match j with
  | JNull => Ok s
  | JObj kvs => dec_fields s kvs
  | _ => Err type_error
  end.
End dec_struct.

(** Array elements are decoded over the old ones, then over zero values. *)
Fixpoint dec_list {A} (d : A → json → res A) (zero : A) (old : list A) (l : list json)
    : res (list A) :=
  match l with
  | [] => Ok []
  | j :: l =>
      d (default zero (head old)) j ≫= λ a,
      dec_list d zero (tail old) l ≫= λ r, Ok (a :: r)
  end.
Definition dec_slice {A} (d : A → json → res A) (zero : A) (old : list A) (j : json)
    : res (list A) :=
  match j with
  | JNull => Ok []
  | JArr l => dec_list d zero old l
  | _ => Err type_error
  end.
(** Each entry is decoded into a fresh element. *)
Fixpoint dec_entries {A} (d : json → res A) (m : gmap string A) (kvs : list (string * json))
    : res (gmap string A) :=
  match kvs with
  | [] => Ok m
  | (k, j) :: kvs => d j ≫= λ a, dec_entries d (<[k := a]> m) kvs
  end.
Definition dec_map {A} (d : json → res A) (old : gomap A) (j : json) : res (gomap A) :=
  match j with
  | JNull => Ok None
  | JObj kvs => Some <$> dec_entries d (gm old) kvs
  | _ => Err type_error
  end.
Definition dec_ptr {A} (d : A → json → res A) (zero : A) (old : option A) (j : json)
    : res (option A) :=
  match j with
  | JNull => Ok None
  | _ => Some <$> d (default zero old) j
  end.

Definition dec_string (old : string) (j : json) : res string :=
  match j with JNull => Ok old | JStr s => Ok s | _ => Err type_error end.

(** Decoding over the old field value, whose kind is the target's type. *)
Definition dec_base (old : value) (j : json) : res value :=
  match old with
  | VStr s => VStr <$> dec_string s j
  | VBool b =>
      match j with JNull => Ok old | JBool b => Ok (VBool b) | _ => Err type_error end
  | VInt z =>
      match j with
      | JNull => Ok old
      | JInt z => if in_int64 z then Ok (VInt z) else Err type_error
      | _ => Err type_error
      end
  | VStrs l => VStrs <$> dec_slice dec_string "" l j
  | _ => Err type_error
  end.
Definition dec_field (old : value) (j : json) : res value :=
  match old with
  | VPeers l => VPeers <$> dec_slice (dec_struct dec_base) zero_struct l j
  | VIPv6 o => VIPv6 <$> dec_ptr (dec_struct dec_base) zero_struct o j
  | VObserver o => VObserver <$> dec_ptr (dec_struct dec_base) zero_struct o j
  | VLogging o => VLogging <$> dec_ptr (dec_struct dec_base) zero_struct o j
  | VPlugins m => VPlugins <$> dec_map (dec_struct dec_base zero_struct) m j
  | _ => dec_base old j
  end.
Definition dec_iface : Interface → json → res Interface := dec_struct dec_field.
Definition dec_route : Route → json → res Route := dec_struct dec_field.
Definition dec_config_field (old : value) (j : json) : res value :=
  match old with
  | VIfaces m => VIfaces <$> dec_map (dec_iface zero_struct) m j
  | VRoutes m => VRoutes <$> dec_map (dec_route zero_struct) m j
  | _ => dec_field old j
  end.

(** [json.Unmarshal] into a fresh variable of the type named. *)
Definition Unmarshal_Interface (j : json) : res Interface := dec_iface zero_struct j.
Definition Unmarshal_Route (j : json) : res Route := dec_route zero_struct j.
Definition Unmarshal_Interfaces (j : json) : res (gomap Interface) :=
  dec_map (dec_iface zero_struct) None j.
Definition Unmarshal_Routes (j : json) : res (gomap Route) :=
  dec_map (dec_route zero_struct) None j.
Definition Unmarshal_RouteSlice (j : json) : res (list Route) :=
  dec_slice dec_route zero_struct [] j.
Definition Unmarshal_InterfacesConfig : json → res InterfacesConfig :=
  dec_struct dec_config_field zero_struct.
Definition Unmarshal_RoutesConfig : json → res RoutesConfig :=
  dec_struct dec_config_field zero_struct.
Definition Unmarshal_JackConfig : json → res JackConfig :=
  dec_struct dec_config_field zero_struct.

(** Into an [interface{}]. *)
Definition dec_num (j : json) : num :=
  match j with JInt z => NInt (round53 z) | JFloat n => n | _ => NInt 0 end.
Fixpoint Unmarshal_any (j : json) : value :=
  match j with
  | JNull => VNil
  | JBool b => VBool b
  | JInt _ | JFloat _ => VNum (dec_num j)
  | JStr s => VStr s
  | JArr l => VArr (Unmarshal_any <$> l)
  | JObj l => VMap (foldl (λ m p, <[p.1 := p.2]> m) ∅ (prod_map id Unmarshal_any <$> l))
  end.
(** Into a [map[string]interface{}]. *)
Definition Unmarshal_map (j : json) : res (gomap value) :=
  dec_map (λ j, Ok (Unmarshal_any j)) None j.

(** ** Lemmas: structs round-trip field by field *)

Lemma find_eqb_In (t : string) l : t ∈ l → List.find (String.eqb t) l = Some t.
Proof.
  induction l as [|t' l IH]; [by set_solver|]. intros Hin. simpl.
  destruct (String.eqb_spec t t') as [->|]; [done|]. apply IH. set_solver.
Qed.
Lemma find_key_exact t tags : t ∈ tags → find_key tags t = Some t.
Proof. intros Hin. unfold find_key. by rewrite find_eqb_In. Qed.

Lemma isEmptyValue_flat v :
  is_flat (kind_of v) = true → isEmptyValue v = true → v = zero_of (kind_of v).
Proof.
  destruct v as [|[]| | | | | | | | | | | | | | | |]; simpl; intros ? He;
    rewrite ?bool_decide_eq_true in He; try discriminate; try done; try by rewrite He.
  by apply Z.eqb_eq in He as ->.
Qed.

Lemma find_zero (l : list (string * kind)) t k :
  NoDup (l.*1) → (t, k) ∈ l →
  default VNil ((zero_of ∘ snd) <$> List.find (λ p, String.eqb p.1 t) l) = zero_of k.
Proof.
  induction l as [|[t' k'] l IH]; [by set_solver|]. intros [Hni Hnd]%NoDup_cons Hin. simpl.
  destruct (String.eqb_spec t' t) as [->|Hne].
  - apply elem_of_cons in Hin as [[= ->]|Hin]; [done|]. destruct Hni.
    apply list_elem_of_fmap. by exists (t, k).
  - apply elem_of_cons in Hin as [[=]|Hin]; [congruence|]. by apply IH.
Qed.
Lemma zero_struct_field {S : Type} `{StructLaws S} t k :
  (t, k) ∈ schema (S:=S) → field_of (rows (zero_struct : S)) t = zero_of k.
Proof.
  pose proof (schema_NoDup (S:=S)) as Hnd. intros Hin. unfold zero_struct.
  erewrite build_kinds; [by apply find_zero| |done].
  intros t' k' Hin'. by rewrite (find_zero _ _ _ Hnd Hin'), kind_of_zero.
Qed.

Section struct_roundtrip.
Context {S : Type} `{StructLaws S} (encv : value → json) (decv : value → json → res value).
Context (s : S).
Hypothesis Hrow : ∀ t v, (t, v) ∈ rows s → decv (zero_of (kind_of v)) (encv v) = Ok v.

Lemma row_omitted t v :
  (t, v) ∈ rows s → omitempty (S:=S) t && isEmptyValue v = true → v = zero_of (kind_of v).
Proof.
  intros Hin [Ho He]%andb_true_iff. apply isEmptyValue_flat; [|done].
  pose proof (omitempty_flat (S:=S)) as Hf. rewrite forallb_forall in Hf.
  specialize (Hf (t, kind_of v)). simpl in Hf. rewrite Ho in Hf. apply Hf.
  apply list_elem_of_In. rewrite <-(rows_schema s). apply list_elem_of_fmap.
  by exists (t, v).
Qed.

Definition enc_rows : list (string * value) → list (string * json) :=
  omap (λ '(t, v), if omitempty (S:=S) t && isEmptyValue v then None
                   else Some (t, encv v)).

Lemma dec_fields_rows todo : ∀ (done : list (string * value)) (cur : S),
  rows s = done ++ todo →
  (∀ t v, (t, v) ∈ done → field_of (rows cur) t = v) →
  (∀ t v, (t, v) ∈ todo → field_of (rows cur) t = zero_of (kind_of v)) →
  dec_fields decv cur (enc_rows todo) = Ok s.
Proof.
  induction todo as [|[t v] todo IH]; intros done cur Hs Hdone Htodo; simpl.
  - rewrite app_nil_r in Hs. f_equal. apply struct_ext. intros t Ht.
    rewrite <-(rows_tags s), Hs in Ht.
    apply list_elem_of_fmap in Ht as ([t' v] & -> & Hin). simpl. rewrite (Hdone _ _ Hin).
    symmetry. apply field_of_In; [apply rows_NoDup|]. by rewrite Hs.
  - assert ((t, v) ∈ rows s) as Hin by (rewrite Hs; set_solver).
    assert ((t, kind_of v) ∈ schema (S:=S)) as Hk.
    { rewrite <-(rows_schema s). apply list_elem_of_fmap. by exists (t, v). }
    destruct (omitempty t && isEmptyValue v) eqn:Ho.
    + apply (IH (done ++ [(t, v)])); [by rewrite Hs, <-(assoc_L (++))| |set_solver].
      intros t' v' [?|[= -> ->]%list_elem_of_singleton]%elem_of_app; [by apply Hdone|].
      rewrite (Htodo t v) by set_solver. symmetry. by eapply row_omitted.
    + cbn [dec_fields]. rewrite find_key_exact.
      2:{ apply list_elem_of_fmap. by exists (t, kind_of v). }
      rewrite (Htodo t v) by set_solver. rewrite (Hrow _ _ Hin). cbn [mbind res_bind].
      pose proof (rows_NoDup s) as Hnd. rewrite Hs, fmap_app, fmap_cons in Hnd. simpl in Hnd.
      apply NoDup_app in Hnd as (_ & Hd1 & [Hd2 _]%NoDup_cons).
      apply (IH (done ++ [(t, v)])); [by rewrite Hs, <-(assoc_L (++))| |].
      * intros t' v' [Hin'|[= -> ->]%list_elem_of_singleton]%elem_of_app;
          [|by eapply with_field_same].
        assert (t' ∈ done.*1) as Ht' by (apply list_elem_of_fmap; by exists (t', v')).
        erewrite with_field_other; [by apply Hdone|done|done| |].
        -- intros ->. apply (Hd1 t); set_solver.
        -- rewrite <-(rows_tags s), Hs, fmap_app. set_solver.
      * intros t' v' Hin'.
        assert (t' ∈ todo.*1) as Ht' by (apply list_elem_of_fmap; by exists (t', v')).
        erewrite with_field_other; [apply Htodo; set_solver|done|done| |].
        -- intros ->. by apply Hd2.
        -- rewrite <-(rows_tags s), Hs, fmap_app. set_solver.
Qed.

Lemma dec_enc_struct : dec_struct decv zero_struct (enc_struct encv s) = Ok s.
Proof.
  apply (dec_fields_rows (rows s) []); [done|set_solver|].
  intros t v Hin. apply zero_struct_field. rewrite <-(rows_schema s).
  apply list_elem_of_fmap. by exists (t, v).
Qed.
End struct_roundtrip.

(** ** Lemmas: lists, maps and pointers *)

Lemma dec_list_enc {A} (d : A → json → res A) (f : A → json) zero l :
  (∀ a, a ∈ l → d zero (f a) = Ok a) → dec_list d zero [] (f <$> l) = Ok l.
Proof.
  induction l as [|a l IH]; intros Hd; [done|].
  rewrite fmap_cons. cbn [dec_list head default]. rewrite Hd by set_solver.
  cbn [mbind res_bind tail]. by rewrite IH by (intros; apply Hd; set_solver).
Qed.
Lemma dec_slice_enc {A} (d : A → json → res A) (f : A → json) zero l :
  (∀ a, a ∈ l → d zero (f a) = Ok a) → dec_slice d zero [] (JArr (f <$> l)) = Ok l.
Proof. apply dec_list_enc. Qed.

Lemma foldl_insert {A} (l : list (string * A)) (m : gmap string A) :
  NoDup (l.*1) → foldl (λ (m : gmap string A) p, <[p.1 := p.2]> m) m l = list_to_map l ∪ m.
Proof.
  revert m. induction l as [|[k a] l IH]; intros m; simpl.
  - by rewrite (left_id_L ∅ (∪)).
  - intros [Hni Hnd]%NoDup_cons. rewrite IH by done.
    rewrite <-insert_union_l, <-insert_union_r; [done|]. by apply not_elem_of_list_to_map.
Qed.
Lemma dec_entries_enc {A} (d : json → res A) (f : A → json) l m :
  (∀ k a, (k, a) ∈ l → d (f a) = Ok a) →
  dec_entries d m (prod_map id f <$> l) = Ok (foldl (λ m p, <[p.1 := p.2]> m) m l).
Proof.
  revert m. induction l as [|[k a] l IH]; intros m Hd; [done|].
  rewrite fmap_cons. cbn [dec_entries prod_map id fst snd foldl].
  rewrite (Hd k a) by set_solver. cbn [mbind res_bind]. apply IH. set_solver.
Qed.
(** The sorted entries of a mapped map are a permutation of the map's. *)
Lemma sorted_entries_fmap {A B} (f : A → B) (m : gmap string A) :
  ∃ l, sorted_entries (f <$> m) = prod_map id f <$> l ∧ l ≡ₚ map_to_list m.
Proof.
  pose proof (sorted_entries_perm (f <$> m)) as Hp. rewrite map_to_list_fmap in Hp.
  apply Permutation_map_inv in Hp as (l & -> & Hl). by exists l.
Qed.
Lemma dec_map_enc {A} (d : json → res A) (f : A → json) (m : gomap A) :
  (∀ k a, gm m !! k = Some a → d (f a) = Ok a) → dec_map d None (enc_map f m) = Ok m.
Proof.
  intros Hd. destruct m as [m|]; [|done]. simpl in *.
  destruct (sorted_entries_fmap f m) as (l & -> & Hl).
  assert (NoDup (l.*1)) by (rewrite Hl; apply NoDup_fst_map_to_list).
  rewrite dec_entries_enc, foldl_insert; [|done|].
  - simpl. do 2 f_equal. rewrite (right_id_L ∅ (∪)).
    rewrite <-(list_to_map_to_list m). by apply list_to_map_proper.
  - intros k a Hin. apply (Hd k). apply elem_of_map_to_list. by rewrite <-Hl.
Qed.
Lemma dec_ptr_enc {A} (d : A → json → res A) (f : A → json) zero (o : option A) :
  (∀ a, o = Some a → f a ≠ JNull ∧ d zero (f a) = Ok a) →
  dec_ptr d zero None (enc_ptr f o) = Ok o.
Proof.
  destruct o as [a|]; [|done]. intros Hd. destruct (Hd a eq_refl) as [Hn Ha]. simpl.
  destruct (f a); try done; simpl; by rewrite Ha.
Qed.
Lemma enc_struct_not_null {S} `{Struct S} encv (s : S) : enc_struct encv s ≠ JNull.
Proof. done. Qed.

(** ** Well-formed values: every [int] is a 64-bit integer *)

Definition wf_base (v : value) : Prop :=
  match v with VInt z => in_int64 z = true | _ => True end.
Definition wf_struct {S} `{Struct S} (wfv : value → Prop) (s : S) : Prop :=
  Forall (λ p, wfv p.2) (rows s).
Definition wf_opt {A} (P : A → Prop) (o : option A) : Prop :=
  match o with Some a => P a | None => True end.
Definition wf_field (v : value) : Prop :=
  match v with
  | VPeers l => Forall (wf_struct wf_base) l
  | VIPv6 o => wf_opt (wf_struct wf_base) o
  | VObserver o => wf_opt (wf_struct wf_base) o
  | VLogging o => wf_opt (wf_struct wf_base) o
  | VPlugins m => map_Forall (λ _, wf_struct wf_base) (gm m)
  | _ => wf_base v
  end.
Definition wf_iface : Interface → Prop := wf_struct wf_field.
Definition wf_route : Route → Prop := wf_struct wf_field.
Definition wf_config_field (v : value) : Prop :=
  match v with
  | VIfaces m => map_Forall (λ _, wf_iface) (gm m)
  | VRoutes m => map_Forall (λ _, wf_route) (gm m)
  | _ => wf_field v
  end.

Definition is_base (k : kind) : bool :=
  match k with KStr | KBool | KInt | KStrs => true | _ => false end.
Definition is_field (k : kind) : bool :=
  match k with KPeers | KIPv6 | KObserver | KLogging | KPlugins => true | _ => is_base k end.
Definition is_config_field (k : kind) : bool :=
  match k with KIfaces | KRoutes => true | _ => is_field k end.

Lemma dec_enc_base v :
  is_base (kind_of v) = true → wf_base v → dec_base (zero_of (kind_of v)) (enc_base v) = Ok v.
Proof.
  destruct v; try done; simpl; intros _ Hwf; [by rewrite Hwf|].
  by rewrite dec_list_enc.
Qed.

(** A struct whose field kinds the field codec handles round-trips. *)
Lemma dec_enc_struct_wf {S} `{StructLaws S} encv decv (wfv : value → Prop) (okk : kind → bool)
    (s : S) :
  (∀ v, okk (kind_of v) = true → wfv v → decv (zero_of (kind_of v)) (encv v) = Ok v) →
  forallb (λ p, okk p.2) (schema (S:=S)) = true →
  wf_struct wfv s → dec_struct decv zero_struct (enc_struct encv s) = Ok s.
Proof.
  intros Hv Hok Hwf. apply dec_enc_struct. intros t v Hin. apply Hv.
  - rewrite forallb_forall in Hok. apply (Hok (t, kind_of v)). apply list_elem_of_In.
    rewrite <-(rows_schema s). apply list_elem_of_fmap. by exists (t, v).
  - unfold wf_struct in Hwf. rewrite Forall_forall in Hwf. by apply (Hwf (t, v)).
Qed.

Lemma dec_enc_small {S} `{StructLaws S} (s : S) :
  forallb (λ p, is_base p.2) (schema (S:=S)) = true →
  wf_struct wf_base s → dec_struct dec_base zero_struct (enc_struct enc_base s) = Ok s.
Proof. apply dec_enc_struct_wf, dec_enc_base. Qed.

Lemma dec_enc_field v :
  is_field (kind_of v) = true → wf_field v →
  dec_field (zero_of (kind_of v)) (enc_field v) = Ok v.
Proof.
  destruct v; try done; intros _ Hwf; cbn [kind_of zero_of dec_field enc_field];
    cbn [wf_field] in Hwf.
  - by apply (dec_enc_base (VInt z)).
  - by apply (dec_enc_base (VStrs l)).
  - rewrite dec_slice_enc; [done|]. intros a Ha. apply dec_enc_small; [done|].
    by rewrite Forall_forall in Hwf; apply Hwf.
  - rewrite dec_ptr_enc; [done|]. intros a ->. split; [done|]. by apply dec_enc_small.
  - rewrite dec_map_enc; [done|]. intros k a Ha. apply dec_enc_small; [done|].
    by apply (Hwf k).
  - rewrite dec_ptr_enc; [done|]. intros a ->. split; [done|]. by apply dec_enc_small.
  - rewrite dec_ptr_enc; [done|]. intros a ->. split; [done|]. by apply dec_enc_small.
Qed.
Lemma dec_enc_iface i : wf_iface i → dec_iface zero_struct (enc_iface i) = Ok i.
Proof. by apply (dec_enc_struct_wf _ _ wf_field is_field _ dec_enc_field). Qed.
Lemma dec_enc_route r : wf_route r → dec_route zero_struct (enc_route r) = Ok r.
Proof. by apply (dec_enc_struct_wf _ _ wf_field is_field _ dec_enc_field). Qed.
Lemma dec_enc_config_field v :
  is_config_field (kind_of v) = true → wf_config_field v →
  dec_config_field (zero_of (kind_of v)) (enc_config_field v) = Ok v.
Proof.
  destruct v; try done; intros _ Hwf; cbn [kind_of zero_of]; cbn [wf_config_field] in Hwf.
  - by apply (dec_enc_field (VInt z)).
  - by apply (dec_enc_field (VStrs l)).
  - by apply (dec_enc_field (VPeers l)).
  - by apply (dec_enc_field (VIPv6 o)).
  - cbn. rewrite dec_map_enc; [done|]. intros k a Ha. by apply dec_enc_iface, (Hwf k).
  - cbn. rewrite dec_map_enc; [done|]. intros k a Ha. by apply dec_enc_route, (Hwf k).
  - by apply (dec_enc_field (VPlugins m)).
  - by apply (dec_enc_field (VObserver o)).
  - by apply (dec_enc_field (VLogging o)).
Qed.

(** ** Lemmas: generic values *)

Lemma shortest_search_round fuel u z :
  round53 z = z → round53 (shortest_search fuel u z) = z.
Proof.
  intros Hz. revert u. induction fuel as [|fuel IH]; intros u; [done|]. cbn [shortest_search].
  cbv zeta. repeat case_match; try apply IH; by apply Z.eqb_eq.
Qed.
Lemma shortest_int_round z : round53 z = z → round53 (shortest_int z) = z.
Proof. intros Hz. unfold shortest_int. case_match; [done|]. by apply shortest_search_round. Qed.

Definition is_float64 (n : num) : Prop :=
  match n with NInt z => round53 z = z | NFrac _ _ => True end.
(** What [json.Unmarshal] makes for an [interface{}]. *)
Inductive generic : value → Prop :=
| generic_nil : generic VNil
| generic_bool b : generic (VBool b)
| generic_num n : is_float64 n → generic (VNum n)
| generic_str s : generic (VStr s)
| generic_arr l : (∀ v, v ∈ l → generic v) → generic (VArr l)
| generic_map m : (∀ k v, m !! k = Some v → generic v) → generic (VMap m).

Lemma any_enc_num n : is_float64 n → Unmarshal_any (enc_num n) = VNum n.
Proof.
  destruct n as [z|]; [|done]. intros Hz. simpl in *. case_match; [|done]. simpl.
  by rewrite shortest_int_round.
Qed.
Lemma any_enc_generic v : generic v → Unmarshal_any (Marshal v) = v.
Proof.
  induction 1 as [| |n Hn| |l _ IH|m _ IH]; try done.
  - by apply any_enc_num.
  - cbn [Marshal Unmarshal_any]. f_equal. rewrite <-list_fmap_compose.
    rewrite <-(list_fmap_id l) at 2. apply list_fmap_ext. intros i v Hv.
    apply IH. by eapply list_elem_of_lookup_2.
  - cbn [Marshal Unmarshal_any]. f_equal.
    destruct (sorted_entries_fmap Marshal m) as (l & Hsl & Hl). rewrite Hsl.
    assert (prod_map id Unmarshal_any <$> (prod_map id Marshal <$> l) = l) as ->.
    { rewrite <-list_fmap_compose. rewrite <-(list_fmap_id l) at 2.
      apply list_fmap_ext. intros i [k v] Hv. simpl. f_equal. apply (IH k).
      apply elem_of_map_to_list. rewrite <-Hl. by eapply list_elem_of_lookup_2. }
    assert (NoDup (l.*1)) by (rewrite Hl; apply NoDup_fst_map_to_list).
    rewrite foldl_insert, (right_id_L ∅ (∪)) by done.
    rewrite <-(list_to_map_to_list m). by apply list_to_map_proper.
Qed.

(** ** Lemmas: decoding never panics *)

Lemma dec_fields_no_panic {S} `{Struct S} decv (s : S) kvs :
  (∀ v j, no_panic (decv v j)) → no_panic (dec_fields decv s kvs).
Proof.
  intros Hd. revert s. induction kvs as [|[k j] kvs IH]; intros s; [done|]. cbn.
  case_match; auto with no_panic.
Qed.
Lemma dec_struct_no_panic {S} `{Struct S} decv (s : S) j :
  (∀ v j, no_panic (decv v j)) → no_panic (dec_struct decv s j).
Proof. intros. destruct j; try done. by apply dec_fields_no_panic. Qed.
Lemma dec_slice_no_panic {A} (d : A → json → res A) zero old j :
  (∀ a j, no_panic (d a j)) → no_panic (dec_slice d zero old j).
Proof.
  intros Hd. destruct j as [| | | | |l|]; try done. cbn.
  revert old. induction l; intros old; [done|]. cbn. auto 6 with no_panic.
Qed.
Lemma dec_map_no_panic {A} (d : json → res A) old j :
  (∀ j, no_panic (d j)) → no_panic (dec_map d old j).
Proof.
  intros Hd. destruct j as [| | | | | |l]; try done. cbn. apply no_panic_fmap.
  generalize (gm old). induction l as [|[k j] l IH]; intros m; [done|]. cbn.
  auto with no_panic.
Qed.
Lemma dec_ptr_no_panic {A} (d : A → json → res A) zero old j :
  (∀ a j, no_panic (d a j)) → no_panic (dec_ptr d zero old j).
Proof. intros Hd. destruct j; try done; by apply no_panic_fmap. Qed.
#[export] Hint Resolve dec_struct_no_panic dec_slice_no_panic dec_map_no_panic dec_ptr_no_panic
  : no_panic.

Lemma dec_string_no_panic s j : no_panic (dec_string s j).
Proof. by destruct j. Qed.
#[export] Hint Resolve dec_string_no_panic : no_panic.
Lemma dec_base_no_panic v j : no_panic (dec_base v j).
Proof. destruct v; cbn; auto with no_panic; repeat case_match; done. Qed.
#[export] Hint Resolve dec_base_no_panic : no_panic.
Lemma dec_field_no_panic v j : no_panic (dec_field v j).
Proof. destruct v; cbn [dec_field]; auto 6 with no_panic. Qed.
#[export] Hint Resolve dec_field_no_panic : no_panic.
Lemma dec_iface_no_panic i j : no_panic (dec_iface i j).
Proof. unfold dec_iface. auto with no_panic. Qed.
Lemma dec_route_no_panic r j : no_panic (dec_route r j).
Proof. unfold dec_route. auto with no_panic. Qed.
#[export] Hint Resolve dec_iface_no_panic dec_route_no_panic : no_panic.
Lemma dec_config_field_no_panic v j : no_panic (dec_config_field v j).
Proof. destruct v; cbn [dec_config_field]; auto 6 with no_panic. Qed.
#[export] Hint Resolve dec_config_field_no_panic : no_panic.
Lemma Unmarshal_JackConfig_no_panic j : no_panic (Unmarshal_JackConfig j).
Proof. unfold Unmarshal_JackConfig. auto with no_panic. Qed.
Lemma Unmarshal_RoutesConfig_no_panic j : no_panic (Unmarshal_RoutesConfig j).
Proof. unfold Unmarshal_RoutesConfig. auto with no_panic. Qed.
Lemma Unmarshal_InterfacesConfig_no_panic j : no_panic (Unmarshal_InterfacesConfig j).
Proof. unfold Unmarshal_InterfacesConfig. auto with no_panic. Qed.
Lemma Unmarshal_map_no_panic j : no_panic (Unmarshal_map j).
Proof. unfold Unmarshal_map. auto with no_panic. Qed.
#[export] Hint Resolve Unmarshal_JackConfig_no_panic Unmarshal_map_no_panic
  Unmarshal_RoutesConfig_no_panic Unmarshal_InterfacesConfig_no_panic : no_panic.
