(* ===== verification/Navigator.v ===== *)
(** * Navigator: daemon/navigator.go

    Reading and setting a struct field by its JSON tag, through reflection:
    the tag lookup with its per-type cache and the conversions of
    [setFieldValue]. *)
From S2P Require Import Prelude GoStr Types Json Value Struct Codec.

(** ** getStructFieldByJSONTag and its cache *)

(** The struct tags as written, with their options. *)
Definition raw_tags {S} `{Struct S} : list string :=
  (λ p, if omitempty (S:=S) p.1 then p.1 +:+ ",omitempty" else p.1) <$> schema (S:=S).

Definition comma : ascii := ",".
(** The [cache] built for one type: tag name to field index, the last field of
    a name winning. *)
Definition build_cache (raw : list string) : gmap string nat :=
  foldl (λ cache p, if bool_decide (p.2 = "") then cache
                    else <[default "" (head (split comma p.2)) := p.1]> cache)
    ∅ (imap pair raw).

(** [fieldCache], keyed by the name of the reflected type. *)
Definition field_cache := gmap string (gmap string nat).

(** The index of the field, [None] for -1, and the cache afterwards. *)
Definition getStructFieldByJSONTag (structType : string) (raw : list string)
    (jsonTag : string) (fieldCache : field_cache) : option nat * field_cache :=
  match fieldCache !! structType with
  | Some cache =>
      match cache !! jsonTag with
      | Some idx => (Some idx, fieldCache)
      | None =>
          let cache := build_cache raw in
          (cache !! jsonTag, <[structType := cache]> fieldCache)
      end
  | None =>
      let cache := build_cache raw in
      (cache !! jsonTag, <[structType := cache]> fieldCache)
  end.

(** The same lookup in the record's table, without the cache: what the two
    functions below use, the cache being invisible to them (see
    [getStructFieldByJSONTag_spec]). *)
Definition has_field {S} `{Struct S} (jsonTag : string) : bool :=
  bool_decide (jsonTag ∈ (schema (S:=S)).*1).

(** ** setFieldValue *)

(** [reflect.Kind] is [reflect.Slice]. *)
Definition is_slice (k : kind) : bool :=
  match k with KArr | KStrs | KPeers | KRouteSlice => true | _ => false end.

(** The value the field (whose old value is [field]) holds afterwards.  The
    static type of a field is the kind of its value.  A value of another slice
    type makes [field.Set] panic.  The element of a pointer field is a struct,
    to which no [value] but its own type would be assignable. *)
Definition setFieldValue `{FloatToInt} (field v : value) : res value :=
  match v with
  | VNil => Ok (zero_of (kind_of field))
  | _ =>
    if decide (kind_of v = kind_of field) then Ok v
    else match kind_of field with
    | KStr => Err (ErrorText "must be a string")
    | KBool => Err (ErrorText "must be a boolean")
    | KInt =>
        match v with
        | VNum n => Ok (VInt (int64_of_float n))
        | _ => Err (ErrorText "must be a number")
        end
    | KStrs | KPeers | KArr | KRouteSlice =>
        if is_slice (kind_of v)
        then Panic "reflect.Set: value of one slice type is not assignable to another"
        else Err (ErrorText "must be a slice")
    | KIPv6 | KObserver | KLogging => Err (ErrorText "unsupported field type: struct")
    | KMap | KIfaces | KRoutes | KPlugins => Err (ErrorText "unsupported field type: map")
    | KIface | KRoute => Err (ErrorText "unsupported field type: struct")
    | KNil => Err (ErrorText "unsupported field type: interface")
    | KNum => Err (ErrorText "must be a number")
    end
  end.

Definition setStructField `{FloatToInt} {S} `{Struct S} (structPtr : S) (fieldName : string)
    (v : value) : res S :=
  if has_field (S:=S) fieldName then
    match setFieldValue (field_of (rows structPtr) fieldName) v with
    | Ok v => Ok (with_field fieldName v structPtr)
    | Err e => Err (ErrorText (fieldName +:+ " " +:+ error_string e))
    | Panic w => Panic w
    end
  else Err (ErrorText ("unknown field: " +:+ fieldName)).

Definition getStructField {S} `{Struct S} (structVal : S) (fieldName : string) : res value :=
  if has_field (S:=S) fieldName then Ok (field_of (rows structVal) fieldName)
  else Err (ErrorText ("unknown field: " +:+ fieldName)).

(** ** Lemmas *)

Lemma has_field_true {S} `{Struct S} t :
  has_field (S:=S) t = true ↔ ∃ k, (t, k) ∈ schema (S:=S).
Proof.
  unfold has_field. rewrite bool_decide_eq_true, list_elem_of_fmap. split.
  - intros ([? k] & -> & ?). by exists k.
  - intros [k Hk]. by exists (t, k).
Qed.

(** A value a field accepts has the field's kind afterwards. *)
Lemma setFieldValue_kind `{FloatToInt} field v v' :
  setFieldValue field v = Ok v' → kind_of v' = kind_of field.
Proof.
  unfold setFieldValue. intros Hs.
  destruct v; try (injection Hs as <-; apply kind_of_zero);
    (case_decide as Hk; [injection Hs as <-; exact Hk|]);
    destruct (kind_of field) eqn:Ef; simpl in *; try discriminate; try done;
    by injection Hs as <-.
Qed.

Section fields.
Context `{FloatToInt} {S : Type} `{StructLaws S}.

Lemma setStructField_inv (s s' : S) t v :
  setStructField s t v = Ok s' →
  ∃ k v', (t, k) ∈ schema (S:=S) ∧ kind_of v' = k ∧
    setFieldValue (field_of (rows s) t) v = Ok v' ∧ s' = with_field t v' s.
Proof.
  unfold setStructField. destruct (has_field t) eqn:Ht; [|done].
  apply has_field_true in Ht as [k Hk].
  destruct (setFieldValue _ v) as [v'| |] eqn:Hv; try done. intros [= <-].
  exists k, v'. split_and!; try done.
  rewrite (setFieldValue_kind _ _ _ Hv). by apply field_kind.
Qed.

Lemma setStructField_same (s s' : S) t v :
  setStructField s t v = Ok s' →
  ∃ v', setFieldValue (field_of (rows s) t) v = Ok v' ∧ getStructField s' t = Ok v'.
Proof.
  intros (k & v' & Hk & Hkv & Hv & ->)%setStructField_inv. exists v'. split; [done|].
  unfold getStructField. rewrite (proj2 (has_field_true t)) by eauto.
  by erewrite with_field_same.
Qed.
Lemma setStructField_other (s s' : S) t t' v :
  setStructField s t v = Ok s' → t' ≠ t → getStructField s' t' = getStructField s t'.
Proof.
  intros (k & v' & Hk & Hkv & Hv & ->)%setStructField_inv Hne.
  unfold getStructField. destruct (has_field t') eqn:Ht'; [|done].
  apply has_field_true in Ht' as [k' Hk'].
  erewrite with_field_other; [done..|]. apply list_elem_of_fmap. by exists (t', k').
Qed.
End fields.

(** ** The cache *)

(** The name a raw tag declares. *)
Definition tag_name (raw : string) : string := default "" (head (split comma raw)).

Lemma build_cache_lookup raw t i :
  NoDup (tag_name <$> raw) → Forall (λ r, r ≠ "") raw →
  build_cache raw !! t = Some i ↔ (tag_name <$> raw) !! i = Some t.
Proof.
  unfold build_cache. induction raw as [|r raw IH] using rev_ind; intros Hnd Hne.
  { change (imap pair []) with (@nil (nat * string)). cbn [foldl].
    by rewrite lookup_empty. }
  apply Forall_app in Hne as [Hne Hr]. apply Forall_cons in Hr as [Hr _].
  rewrite fmap_app in Hnd |- *. apply NoDup_app in Hnd as (Hnd & Hd & _).
  rewrite imap_app, foldl_app. cbn [imap foldl fst snd].
  rewrite bool_decide_eq_false_2, Nat.add_0_r by done. change (default "" (head (split comma r))) with (tag_name r).
  destruct (decide (tag_name r = t)) as [<-|Ht].
  - rewrite lookup_insert_eq. split.
    + intros [= <-]. rewrite lookup_app_r by (by rewrite length_fmap).
      by rewrite length_fmap, Nat.sub_diag.
    + intros [Hl|[Hlen Hl]]%lookup_app_Some.
      * apply list_elem_of_lookup_2 in Hl. destruct (Hd _ Hl). set_solver.
      * rewrite length_fmap in *. apply lookup_lt_Some in Hl as Hlt. cbn in Hlt.
        f_equal. lia.
  - rewrite lookup_insert_ne, IH by done. rewrite lookup_app_Some. split; [by left|].
    intros [Hl|[_ Hl]]; [done|]. apply list_elem_of_lookup_2 in Hl. set_solver.
Qed.

(** Every cached table is the one its type builds. *)
Definition cache_ok (tags_of : string → list string) (fc : field_cache) : Prop :=
  ∀ ty cache, fc !! ty = Some cache → cache = build_cache (tags_of ty).

(** The cached lookup is transparent: with a cache whose tables were built by
    the function itself, the lookup returns the index of the field whose JSON
    tag is asked for (and -1 when there is none), and leaves such a cache. *)
Theorem getStructFieldByJSONTag_spec tags_of ty t fc :
  NoDup (tag_name <$> tags_of ty) → Forall (λ r, r ≠ "") (tags_of ty) → cache_ok tags_of fc →
  let '(r, fc') := getStructFieldByJSONTag ty (tags_of ty) t fc in
  (∀ i, r = Some i ↔ (tag_name <$> tags_of ty) !! i = Some t) ∧ cache_ok tags_of fc'.
Proof.
  intros Hnd Hne Hok. unfold getStructFieldByJSONTag.
  assert (∀ i, build_cache (tags_of ty) !! t = Some i ↔ (tag_name <$> tags_of ty) !! i = Some t)
    as Hb by (intros; by apply build_cache_lookup).
  assert (cache_ok tags_of (<[ty := build_cache (tags_of ty)]> fc)) as Hok'.
  { intros ty' cache [[<- <-]|[_ Hc]]%lookup_insert_Some; [done|by apply Hok]. }
  destruct (fc !! ty) as [cache|] eqn:Hc; [|by split].
  rewrite (Hok _ _ Hc). destruct (build_cache (tags_of ty) !! t) as [idx|] eqn:Hi.
  - split; [|done]. intros i. by rewrite <-Hb.
  - split; [|done]. intros i. by rewrite <-Hb.
Qed.

Lemma getStructFieldByJSONTag_spec_witness :
  let tags_of := λ _ : string, raw_tags (S:=Interface) in
  (getStructFieldByJSONTag "Interface" (tags_of "Interface") "mtu" ∅).1 = Some 15%nat.
Proof.
  intros tags_of.
  assert (NoDup (tag_name <$> tags_of "Interface")) as Hnd
    by (apply (bool_decide_unpack _); vm_compute; exact I).
  assert (Forall (λ r, r ≠ "") (tags_of "Interface")) as Hne
    by (apply (bool_decide_unpack _); vm_compute; exact I).
  assert (cache_ok tags_of ∅) as Hok by (intros ty c Hc; vm_compute in Hc; discriminate Hc).
  pose proof (getStructFieldByJSONTag_spec tags_of "Interface" "mtu" ∅ Hnd Hne Hok) as Hs.
  destruct (getStructFieldByJSONTag "Interface" (tags_of "Interface") "mtu" ∅) as [r fc'].
  destruct Hs as [Hs _]. apply Hs. vm_compute. reflexivity.
Defined.
