(* ===== verification/Path.v ===== *)
(** * Path: daemon/path.go

    Dotted-path access to a configuration.  [config_obj] is the object behind
    the [interface{}] of the state registry (and behind its pointer); the code
    mutates it in place, [SetValue] returns the object afterwards.  Which
    configurations share an object is in [State.v].  On an error the object is
    untouched; a write to a nil map panics.

    A generic configuration's nested maps are only ever reachable through its
    root (they come out of a JSON decode, with the request's value as only
    other owner), so the whole tree is one object. *)
From S2P Require Import Prelude GoStr Types Json Value Struct Codec Navigator.

(** [*types.InterfacesConfig], [*types.RoutesConfig], [*types.JackConfig] and
    [map[string]interface{}] (which can be nil). *)
Inductive config_obj :=
| OIfaces (c : InterfacesConfig)
| ORoutes (c : RoutesConfig)
| OJack (c : JackConfig)
| OMap (m : gomap value).

#[export] Instance InterfacesConfig_eq_dec : EqDecision InterfacesConfig.
Proof. solve_decision. Defined.
#[export] Instance RoutesConfig_eq_dec : EqDecision RoutesConfig.
Proof. solve_decision. Defined.
#[export] Instance config_obj_eq_dec : EqDecision config_obj.
Proof. solve_decision. Defined.

Definition err {A} (s : string) : res A := Err (ErrorText s).
Lemma no_panic_errt {A} s : no_panic (err s : res A).
Proof. done. Qed.
#[export] Hint Resolve no_panic_errt : no_panic.
Definition path_parts (path : string) : list string := split dot path.

Definition ParseConfigType (path : string) : res string :=
  match path_parts path with
  | [] => err ("invalid path: " +:+ path)
  | configType :: _ =>
      if bool_decide (configType = "") then err ("invalid path: " +:+ path) else Ok configType
  end.

(** ** Generic maps *)

(** [m[k] = v]: a nil map panics. *)
Definition assign {V} (m : gomap V) (k : string) (v : V) : res (gomap V) :=
  match m with
  | None => Panic "assignment to entry in nil map"
  | Some m => Ok (Some (<[k := v]> m))
  end.

(** On the map [m]; the nested maps are never nil. *)
Fixpoint setGenericMap (m : gmap string value) (path : list string) (v : value)
    : res (gmap string value) :=
  match path with
  | [] => err "empty path"
  | [key] => Ok (<[key := v]> m)
  | key :: path =>
      match m !! key with
      | None => err ("key '" +:+ key +:+ "' not found")
      | Some (VMap next) =>
          setGenericMap next path v ≫= λ next', Ok (<[key := VMap next']> m)
      | Some _ => err ("cannot navigate into non-map value at '" +:+ key +:+ "'")
      end
  end.
Definition setGenericValue (config : gomap value) (path : list string) (v : value)
    : res (gomap value) :=
  match config, path with
  | None, [key] => assign config key v
  | _, _ => Some <$> setGenericMap (gm config) path v
  end.

Fixpoint getGenericMap (m : gmap string value) (path : list string) : res value :=
  match path with
  | [] => Ok (VMap m)
  | key :: path' =>
      match m !! key with
      | None => err ("key '" +:+ key +:+ "' not found")
      | Some v =>
          match path', v with
          | [], _ => Ok v
          | _, VMap next => getGenericMap next path'
          | _, _ => Ok v
          end
      end
  end.
(** A nil map reads as JSON null. *)
Definition getGenericValue (config : gomap value) (path : list string) : res value :=
  match config, path with
  | None, [] => Ok VNil
  | _, _ => getGenericMap (gm config) path
  end.

(** ** Interfaces *)

Definition setInterfaceField `{FloatToInt} (iface : Interface) (parts : list string) (v : value)
    : res Interface :=
  match parts with
  | [field] => setStructField iface field v
  | [] => Panic "index out of range"
  | _ => err "nested paths not yet supported"
  end.
Definition getInterfaceField (iface : Interface) (parts : list string) : res value :=
  match parts with
  | [field] => getStructField iface field
  | [] => Panic "index out of range"
  | _ => err "nested paths not yet supported"
  end.

(** The map a value for all of "interfaces" denotes. *)
Definition to_interfaces (v : value) : res (gomap Interface) :=
  match v with
  | VIfaces m => Ok m
  | _ => wrap "value must be map[string]types.Interface when setting interfaces: "
           (Unmarshal_Interfaces (Marshal v))
  end.
Definition to_interface (v : value) : res Interface :=
  match v with
  | VIface i => Ok i
  | _ => wrap "value must be types.Interface when setting interface: "
           (Unmarshal_Interface (Marshal v))
  end.

Definition with_Interfaces (m : gomap Interface) (c : InterfacesConfig) : InterfacesConfig :=
  {| ic_Interfaces := m; ic_Version := ic_Version c |}.

Definition setInterfacesValue `{FloatToInt} (config : InterfacesConfig) (parts : list string)
    (v : value) : res InterfacesConfig :=
  match parts with
  | [p] =>
      if bool_decide (p = "interfaces") then
        to_interfaces v ≫= λ interfacesMap, Ok (with_Interfaces interfacesMap config)
      else err "invalid path for interfaces"
  | [] => err "invalid path for interfaces"
  | [_; ifaceName] =>
      to_interface v ≫= λ ifaceStruct,
      assign (ic_Interfaces config) ifaceName ifaceStruct ≫= λ m, Ok (with_Interfaces m config)
  | _ :: ifaceName :: fields =>
      match gm (ic_Interfaces config) !! ifaceName with
      | None => err ("interface '" +:+ ifaceName +:+ "' not found")
      | Some iface =>
          setInterfaceField iface fields v ≫= λ iface,
          assign (ic_Interfaces config) ifaceName iface ≫= λ m, Ok (with_Interfaces m config)
      end
  end.

Definition getInterfacesValue (config : InterfacesConfig) (parts : list string) : res value :=
  match parts with
  | [p] =>
      if bool_decide (p = "interfaces") then Ok (VIfaces (ic_Interfaces config))
      else err "invalid path for interfaces"
  | [] => err "invalid path for interfaces"
  | _ :: ifaceName :: fields =>
      match gm (ic_Interfaces config) !! ifaceName with
      | None => err ("interface '" +:+ ifaceName +:+ "' not found")
      | Some iface =>
          match fields with
          | [] => Ok (VIface iface)
          | _ => getInterfaceField iface fields
          end
      end
  end.

(** ** Routes *)

(** A slice of routes as a map, under the names or under "route-<index>". *)
Definition routes_of_slice (l : list Route) : gmap string Route :=
  foldl (λ m p,
           let key := if bool_decide (rt_Name p.2 = "")
                      then "route-" +:+ itoa (Z.of_nat p.1) else rt_Name p.2 in
           <[key := p.2]> m) ∅ (imap pair l).

Definition to_routes (v : value) : res (gomap Route) :=
  match v with
  | VRoutes m => Ok m
  | VRouteSlice l => Ok (Some (routes_of_slice l))
  | _ =>
      let jsonBytes := Marshal v in
      match Unmarshal_Routes jsonBytes with
      | Ok m => Ok m
      | Panic w => Panic w
      | Err e =>
          match Unmarshal_RouteSlice jsonBytes with
          | Ok l => Ok (Some (routes_of_slice l))
          | Panic w => Panic w
          | Err _ =>
              Err (Wrapf "value must be map[string]types.Route or []types.Route when setting routes: " e)
          end
      end
  end.
Definition to_route (v : value) : res Route :=
  match v with
  | VRoute r => Ok r
  | _ => wrap "value must be types.Route when setting route: " (Unmarshal_Route (Marshal v))
  end.

Definition setRoute `{FloatToInt} (route : Route) (parts : list string) (v : value) : res Route :=
  match parts with
  | [] => err "need to specify route field"
  | field :: _ =>
      if bool_decide (field = "name") then
        err ("unknown route field: " +:+ field +:+ " (read-only field: name)")
      else setStructField route field v
  end.
Definition getRoute (route : Route) (parts : list string) : res value :=
  match parts with
  | [] => Ok (VRoute route)
  | field :: _ => getStructField route field
  end.

Definition with_Routes (m : gomap Route) (c : RoutesConfig) : RoutesConfig :=
  {| rc_Routes := m; rc_Version := rc_Version c |}.

Definition setRoutesValue `{FloatToInt} (config : RoutesConfig) (parts : list string) (v : value)
    : res RoutesConfig :=
  match parts with
  | [p] =>
      if bool_decide (p = "routes") then
        to_routes v ≫= λ routesMap, Ok (with_Routes routesMap config)
      else err "invalid path for routes"
  | [] => err "invalid path for routes"
  | [_; routeName] =>
      to_route v ≫= λ routeStruct,
      assign (rc_Routes config) routeName routeStruct ≫= λ m, Ok (with_Routes m config)
  | _ :: routeName :: fields =>
      let route := default zero_Route (gm (rc_Routes config) !! routeName) in
      setRoute route fields v ≫= λ route,
      assign (rc_Routes config) routeName route ≫= λ m, Ok (with_Routes m config)
  end.

Definition getRoutesValue (config : RoutesConfig) (parts : list string) : res value :=
  match parts with
  | [p] =>
      if bool_decide (p = "routes") then Ok (VRoutes (rc_Routes config))
      else err "invalid path for routes"
  | [] => err "invalid path for routes"
  | _ :: routeName :: fields =>
      match gm (rc_Routes config) !! routeName with
      | None => err ("route '" +:+ routeName +:+ "' not found")
      | Some route =>
          match fields with [] => Ok (VRoute route) | _ => getRoute route fields end
      end
  end.

(** ** Any configuration ([None]: the nil interface) *)

Definition SetValue `{FloatToInt} (config : option config_obj) (path : string) (v : value)
    : res config_obj :=
  match path_parts path with
  | [] => err ("invalid path: " +:+ path)
  | configType :: rest =>
      let parts := configType :: rest in
      if bool_decide (configType = "interfaces") then
        match config with
        | Some (OIfaces c) => OIfaces <$> setInterfacesValue c parts v
        | _ => err "config is not InterfacesConfig"
        end
      else if bool_decide (configType = "routes") then
        match config with
        | Some (ORoutes c) => ORoutes <$> setRoutesValue c parts v
        | _ => err "config is not RoutesConfig"
        end
      else
        match config with
        | Some (OMap configMap) =>
            match rest with
            | [] =>
                match v with
                | VMap valueMap =>
                    match configMap with
                    | None => if bool_decide (valueMap = ∅) then Ok (OMap None)
                              else Panic "assignment to entry in nil map"
                    | Some _ => Ok (OMap (Some valueMap))
                    end
                | _ => err "value must be a map when setting entire config"
                end
            | _ => OMap <$> setGenericValue configMap rest v
            end
        | _ => err "config must be a map for generic path access"
        end
  end.

Definition GetValue (config : option config_obj) (path : string) : res value :=
  match path_parts path with
  | [] => err ("invalid path: " +:+ path)
  | configType :: rest =>
      let parts := configType :: rest in
      if bool_decide (configType = "interfaces") then
        match config with
        | Some (OIfaces c) => getInterfacesValue c parts
        | _ => err "config is not InterfacesConfig"
        end
      else if bool_decide (configType = "routes") then
        match config with
        | Some (ORoutes c) => getRoutesValue c parts
        | _ => err "config is not RoutesConfig"
        end
      else
        match config with
        | Some (OMap configMap) => getGenericValue configMap rest
        | _ => err "config must be a map for generic path access"
        end
  end.

(** ** Lemmas *)

Lemma getGenericMap_cons m key path :
  path ≠ [] → getGenericMap m (key :: path) =
    match m !! key with
    | None => err ("key '" +:+ key +:+ "' not found")
    | Some (VMap next) => getGenericMap next path
    | Some v => Ok v
    end.
Proof. intros Hp. cbn. destruct (m !! key) as [[]|]; by destruct path. Qed.
Lemma getGenericMap_leaf m key :
  getGenericMap m [key] =
    match m !! key with
    | None => err ("key '" +:+ key +:+ "' not found")
    | Some v => Ok v
    end.
Proof. cbn. by destruct (m !! key) as [[]|]. Qed.

Lemma setGenericMap_cons m key path v m' :
  path ≠ [] → setGenericMap m (key :: path) v = Ok m' →
  ∃ next next', m !! key = Some (VMap next) ∧ setGenericMap next path v = Ok next' ∧
    m' = <[key := VMap next']> m.
Proof.
  intros Hp. cbn. destruct path as [|k path]; [done|].
  destruct (m !! key) as [[]|]; try done.
  destruct (setGenericMap _ _ _) as [next'| |] eqn:Hs; try done. intros [= <-]. eauto.
Qed.

Lemma setGenericMap_get m path v m' :
  setGenericMap m path v = Ok m' → getGenericMap m' path = Ok v.
Proof.
  revert m m'. induction path as [|key path IH]; intros m m' Hs; [done|].
  destruct (decide (path = [])) as [->|Hp].
  - injection Hs as <-. by rewrite getGenericMap_leaf, lookup_insert_eq.
  - apply setGenericMap_cons in Hs as (next & next' & _ & Hs & ->); [|done].
    rewrite getGenericMap_cons, lookup_insert_eq by done. by eapply IH.
Qed.

(** Paths of which neither is a prefix of the other. *)
Definition diverge (p q : list string) : Prop := ¬ p `prefix_of` q ∧ ¬ q `prefix_of` p.
Lemma diverge_cons k p q : diverge (k :: p) (k :: q) → diverge p q.
Proof. intros [Hp Hq]. split; intros ?; [apply Hp|apply Hq]; by apply prefix_cons. Qed.
Lemma diverge_nonempty p q : diverge p q → p ≠ [] ∧ q ≠ [].
Proof. intros [Hp Hq]. split; intros ->; [apply Hp|apply Hq]; apply prefix_nil. Qed.

Lemma setGenericMap_frame m p v m' q :
  setGenericMap m p v = Ok m' → diverge p q → getGenericMap m' q = getGenericMap m q.
Proof.
  revert m m' q. induction p as [|key p IH]; intros m m' q Hs Hd; [done|].
  destruct q as [|key' q]; [by apply diverge_nonempty in Hd as []|].
  destruct (decide (key' = key)) as [->|Hne].
  - apply diverge_cons in Hd. destruct (diverge_nonempty _ _ Hd) as [Hp Hq].
    apply setGenericMap_cons in Hs as (next & next' & Hk & Hs & ->); [|done].
    rewrite !getGenericMap_cons, lookup_insert_eq, Hk by done. by eapply IH.
  - assert (m' !! key' = m !! key') as Hk.
    { destruct (decide (p = [])) as [->|Hp].
      - injection Hs as <-. by apply lookup_insert_ne.
      - apply setGenericMap_cons in Hs as (? & ? & _ & _ & ->); [|done].
        by apply lookup_insert_ne. }
    destruct (decide (q = [])) as [->|Hq].
    + by rewrite !getGenericMap_leaf, Hk.
    + by rewrite !getGenericMap_cons, Hk by done.
Qed.

Lemma assign_inv {V} (m m' : gomap V) k v :
  assign m k v = Ok m' → ∃ m0, m = Some m0 ∧ m' = Some (<[k := v]> m0).
Proof. destruct m; [|done]. intros [= <-]. eauto. Qed.

(** The paths handled by the generic branch. *)
Definition is_core (configType : string) : bool :=
  bool_decide (configType = "interfaces") || bool_decide (configType = "routes").
Lemma is_core_false t :
  is_core t = false →
  bool_decide (t = "interfaces") = false ∧ bool_decide (t = "routes") = false.
Proof. apply orb_false_iff. Qed.

Lemma SetValue_generic `{FloatToInt} configMap path t rest v o' :
  path_parts path = t :: rest → is_core t = false → rest ≠ [] →
  SetValue (Some (OMap configMap)) path v = Ok o' →
  ∃ m', setGenericMap (gm configMap) rest v = Ok m' ∧ o' = OMap (Some m').
Proof.
  intros Hp [Hi Hr]%is_core_false Hne. unfold SetValue. rewrite Hp, Hi, Hr.
  destruct rest as [|k rest]; [done|]. unfold setGenericValue.
  destruct configMap as [m|], rest as [|k' rest]; try done;
    destruct (setGenericMap _ _ _) eqn:E; try done; intros [= <-]; eauto.
Qed.
Lemma GetValue_generic m path t rest :
  path_parts path = t :: rest → is_core t = false →
  GetValue (Some (OMap (Some m))) path = getGenericMap m rest.
Proof.
  intros Hp [Hi Hr]%is_core_false. unfold GetValue. rewrite Hp, Hi, Hr.
  by destruct rest.
Qed.

(** ** Properties *)

(** After a successful set of a path of a plugin configuration, get of the
    same path returns the value set, and get of any path that is neither a
    prefix nor an extension of it returns what it returned before (an error
    included). *)
Theorem SetValue_generic_get `{FloatToInt} m path t rest v o' :
  path_parts path = t :: rest → is_core t = false → rest ≠ [] →
  SetValue (Some (OMap (Some m))) path v = Ok o' →
  GetValue (Some o') path = Ok v ∧
  ∀ path' rest', path_parts path' = t :: rest' → diverge rest rest' →
    GetValue (Some o') path' = GetValue (Some (OMap (Some m))) path'.
Proof.
  intros Hp Ht Hne Hs. destruct (SetValue_generic _ _ _ _ _ _ Hp Ht Hne Hs) as (m' & Hm & ->).
  split.
  - rewrite (GetValue_generic _ _ _ _ Hp Ht). by eapply setGenericMap_get.
  - intros path' rest' Hp' Hd. rewrite !(GetValue_generic _ _ _ _ Hp' Ht).
    by eapply setGenericMap_frame.
Qed.

Lemma SetValue_generic_get_witness :
  let m : gmap string value := {["leds" := VMap {["red" := VStr "on"]}]} in
  let m' : gmap string value := {["leds" := VMap {["red" := VStr "off"]}]} in
  let _ := amd64_float_to_int in
  SetValue (Some (OMap (Some m))) "led.leds.red" (VStr "off") = Ok (OMap (Some m')) ∧
  GetValue (Some (OMap (Some m'))) "led.leds.red" = Ok (VStr "off").
Proof.
  intros m m' f.
  assert (SetValue (Some (OMap (Some m))) "led.leds.red" (VStr "off") = Ok (OMap (Some m')))
    as Hs by (vm_compute; reflexivity).
  split; [exact Hs|].
  refine (proj1 (SetValue_generic_get m "led.leds.red" "led" ["leds"; "red"] (VStr "off") _
    _ _ _ Hs)); [vm_compute; reflexivity|vm_compute; reflexivity|discriminate].
Defined.

Lemma SetValue_interface_field_inv `{FloatToInt} c path n f v o' :
  path_parts path = ["interfaces"; n; f] → SetValue (Some (OIfaces c)) path v = Ok o' →
  ∃ m i i', ic_Interfaces c = Some m ∧ m !! n = Some i ∧ setStructField i f v = Ok i' ∧
    o' = OIfaces (with_Interfaces (Some (<[n := i']> m)) c).
Proof.
  intros Hp. unfold SetValue. rewrite Hp. cbn.
  destruct (gm (ic_Interfaces c) !! n) as [i|] eqn:Hi; [|done].
  destruct (setStructField i f v) as [i'| |] eqn:Hs; try done. cbn.
  destruct (ic_Interfaces c) as [m|] eqn:Hm; [|done]. intros [= <-].
  exists m, i, i'. done.
Qed.
Lemma GetValue_interface_field c path n f i :
  path_parts path = ["interfaces"; n; f] → gm (ic_Interfaces c) !! n = Some i →
  GetValue (Some (OIfaces c)) path = getStructField i f.
Proof. intros Hp Hi. unfold GetValue. rewrite Hp. cbn. by rewrite Hi. Qed.

(** A successful set of interfaces.<name>.<field> stores the converted value
    (what setFieldValue makes of it): get of the path returns it, every other
    field of that interface reads as before, and every other interface and the
    version are untouched. *)
Theorem SetValue_interface_field `{FloatToInt} c path n f v o' :
  path_parts path = ["interfaces"; n; f] → SetValue (Some (OIfaces c)) path v = Ok o' →
  ∃ c' i v', o' = OIfaces c' ∧ gm (ic_Interfaces c) !! n = Some i ∧
    setFieldValue (field_of (rows i) f) v = Ok v' ∧ GetValue (Some o') path = Ok v' ∧
    (∀ path' f', path_parts path' = ["interfaces"; n; f'] → f' ≠ f →
       GetValue (Some o') path' = GetValue (Some (OIfaces c)) path') ∧
    (∀ n', n' ≠ n → gm (ic_Interfaces c') !! n' = gm (ic_Interfaces c) !! n') ∧
    ic_Version c' = ic_Version c.
Proof.
  intros Hp Hs. destruct (SetValue_interface_field_inv _ _ _ _ _ _ Hp Hs)
    as (m & i & i' & Hm & Hi & Hset & ->).
  destruct (setStructField_same _ _ _ _ Hset) as (v' & Hv & Hget).
  eexists _, i, v'. rewrite Hm. split_and!; try done.
  - erewrite GetValue_interface_field; [done..|]. cbn. apply lookup_insert_eq.
  - intros path' f' Hp' Hne.
    rewrite (GetValue_interface_field _ _ _ _ i' Hp') by (cbn; apply lookup_insert_eq).
    rewrite (GetValue_interface_field c _ _ _ i Hp') by by rewrite Hm.
    by eapply setStructField_other.
  - intros n' Hne. cbn. by apply lookup_insert_ne.
Qed.

Definition br_lan : Interface := with_field "type" (VStr "bridge") zero_Interface.
Lemma SetValue_interface_field_witness :
  let _ := amd64_float_to_int in
  let c := {| ic_Interfaces := Some {["br-lan" := br_lan]}; ic_Version := "1.0" |} in
  let c' := {| ic_Interfaces := Some {["br-lan" := with_field "mtu" (VInt 1500) br_lan]};
               ic_Version := "1.0" |} in
  SetValue (Some (OIfaces c)) "interfaces.br-lan.mtu" (VNum (NInt 1500)) = Ok (OIfaces c') ∧
  GetValue (Some (OIfaces c')) "interfaces.br-lan.mtu" = Ok (VInt 1500).
Proof.
  intros f c c'.
  assert (SetValue (Some (OIfaces c)) "interfaces.br-lan.mtu" (VNum (NInt 1500))
    = Ok (OIfaces c')) as Hs by (vm_compute; reflexivity).
  assert (path_parts "interfaces.br-lan.mtu" = ["interfaces"; "br-lan"; "mtu"]) as Hp
    by (vm_compute; reflexivity).
  split; [exact Hs|].
  destruct (SetValue_interface_field c _ _ _ _ _ Hp Hs) as (c'' & i & v' & Hc & Hi & Hv & Hg & _).
  injection Hi as <-. vm_compute in Hv. injection Hv as <-. exact Hg.
Defined.

Lemma SetValue_route_field_inv `{FloatToInt} c path n f v o' :
  path_parts path = ["routes"; n; f] → SetValue (Some (ORoutes c)) path v = Ok o' →
  ∃ m r', rc_Routes c = Some m ∧ f ≠ "name" ∧
    setStructField (default zero_Route (m !! n)) f v = Ok r' ∧
    o' = ORoutes (with_Routes (Some (<[n := r']> m)) c).
Proof.
  intros Hp. unfold SetValue. rewrite Hp. cbn.
  rewrite (bool_decide_eq_false_2 ("routes" = "interfaces")), bool_decide_eq_true_2 by done.
  case_bool_decide as Hn; [done|].
  destruct (setStructField (default zero_Route _) f v) as [r'| |] eqn:Hs; try done. cbn.
  destruct (rc_Routes c) as [m|] eqn:Hm; [|done]. intros [= <-]. eauto 6.
Qed.
Lemma GetValue_route_field c path n f r :
  path_parts path = ["routes"; n; f] → gm (rc_Routes c) !! n = Some r →
  GetValue (Some (ORoutes c)) path = getStructField r f.
Proof. intros Hp Hi. unfold GetValue. rewrite Hp. cbn. by rewrite Hi. Qed.

(** A successful set of routes.<name>.<field> never touches the read-only
    name; it stores the converted value in the route, which is created zeroed
    (disabled) when it does not exist; its other fields read as those of the
    old or zeroed route, and the other routes are untouched. *)
Theorem SetValue_route_field `{FloatToInt} c path n f v o' :
  path_parts path = ["routes"; n; f] → SetValue (Some (ORoutes c)) path v = Ok o' →
  f ≠ "name" ∧
  ∃ c' r r' v', o' = ORoutes c' ∧ r = default zero_Route (gm (rc_Routes c) !! n) ∧
    gm (rc_Routes c') !! n = Some r' ∧
    setFieldValue (field_of (rows r) f) v = Ok v' ∧ GetValue (Some o') path = Ok v' ∧
    (∀ f', f' ≠ f → getStructField r' f' = getStructField r f') ∧
    (∀ n', n' ≠ n → gm (rc_Routes c') !! n' = gm (rc_Routes c) !! n').
Proof.
  intros Hp Hs. destruct (SetValue_route_field_inv _ _ _ _ _ _ Hp Hs)
    as (m & r' & Hm & Hn & Hset & ->).
  destruct (setStructField_same _ _ _ _ Hset) as (v' & Hv & Hget).
  split; [done|]. eexists _, _, r', v'. rewrite Hm. split_and!; try done.
  - cbn. apply lookup_insert_eq.
  - erewrite GetValue_route_field; [done..|]. cbn. apply lookup_insert_eq.
  - intros f' Hne. by eapply setStructField_other.
  - intros n' Hne. cbn. by apply lookup_insert_ne.
Qed.

Lemma SetValue_route_field_witness :
  let _ := amd64_float_to_int in
  let c := {| rc_Routes := Some ∅; rc_Version := "" |} in
  let r' := with_field "metric" (VInt 10) zero_Route in
  let c' := {| rc_Routes := Some {["vpn" := r']}; rc_Version := "" |} in
  SetValue (Some (ORoutes c)) "routes.vpn.metric" (VNum (NInt 10)) = Ok (ORoutes c') ∧
  "metric" ≠ "name".
Proof.
  intros f c r' c'.
  assert (SetValue (Some (ORoutes c)) "routes.vpn.metric" (VNum (NInt 10)) = Ok (ORoutes c'))
    as Hs by (vm_compute; reflexivity).
  assert (path_parts "routes.vpn.metric" = ["routes"; "vpn"; "metric"]) as Hp
    by (vm_compute; reflexivity).
  split; [exact Hs|]. exact (proj1 (SetValue_route_field c _ _ _ _ _ Hp Hs)).
Defined.

(** ** Properties: when a set panics *)

Lemma setFieldValue_no_panic `{FloatToInt} field v :
  is_slice (kind_of v) = false → no_panic (setFieldValue field v).
Proof.
  intros Hv. unfold setFieldValue.
  destruct v; try done; case_decide; try done; destruct (kind_of field); done.
Qed.
Lemma setStructField_no_panic `{FloatToInt} {S} `{Struct S} (s : S) f v :
  is_slice (kind_of v) = false → no_panic (setStructField s f v).
Proof.
  intros Hv. unfold setStructField. case_match; [|done].
  pose proof (setFieldValue_no_panic (field_of (rows s) f) v Hv). by destruct (setFieldValue _ _).
Qed.
Lemma setRoute_no_panic `{FloatToInt} r parts v :
  is_slice (kind_of v) = false → no_panic (setRoute r parts v).
Proof.
  intros Hv. destruct parts as [|f parts]; [done|]. cbn. case_bool_decide; [done|].
  by apply setStructField_no_panic.
Qed.
Lemma setInterfaceField_no_panic `{FloatToInt} i f parts v :
  is_slice (kind_of v) = false → no_panic (setInterfaceField i (f :: parts) v).
Proof. intros Hv. destruct parts; [|done]. by apply setStructField_no_panic. Qed.
Lemma setGenericMap_no_panic m path v : no_panic (setGenericMap m path v).
Proof.
  revert m. induction path as [|key path IH]; intros m; [done|]. cbn.
  repeat case_match; try done. apply no_panic_bind; [apply IH|done].
Qed.
Lemma assign_no_panic {V} (m : gomap V) k v : m ≠ None → no_panic (assign m k v).
Proof. by destruct m. Qed.
Lemma to_interfaces_no_panic v : no_panic (to_interfaces v).
Proof.
  assert (no_panic (Unmarshal_Interfaces (Marshal v))) by (apply dec_map_no_panic; auto with no_panic).
  destruct v; cbn [to_interfaces]; auto with no_panic.
Qed.
Lemma to_interface_no_panic v : no_panic (to_interface v).
Proof.
  assert (no_panic (Unmarshal_Interface (Marshal v))) by apply dec_iface_no_panic.
  destruct v; cbn [to_interface]; auto with no_panic.
Qed.
Lemma to_routes_no_panic v : no_panic (to_routes v).
Proof.
  assert (no_panic (Unmarshal_Routes (Marshal v))) as Hm
    by (apply dec_map_no_panic; auto with no_panic).
  assert (no_panic (Unmarshal_RouteSlice (Marshal v))) as Hs
    by (apply dec_slice_no_panic; auto with no_panic).
  destruct v; cbn [to_routes]; try done; cbv zeta;
    destruct (Unmarshal_Routes _); try done; by destruct (Unmarshal_RouteSlice _).
Qed.
Lemma to_route_no_panic v : no_panic (to_route v).
Proof.
  assert (no_panic (Unmarshal_Route (Marshal v))) by apply dec_route_no_panic.
  destruct v; cbn [to_route]; auto with no_panic.
Qed.
#[export] Hint Resolve setStructField_no_panic setRoute_no_panic setInterfaceField_no_panic
  setGenericMap_no_panic assign_no_panic to_interfaces_no_panic to_interface_no_panic
  to_routes_no_panic to_route_no_panic : no_panic.

(** The map inside the configuration is nil. *)
Definition nil_map (o : config_obj) : bool :=
  match o with
  | OIfaces c => bool_decide (ic_Interfaces c = None)
  | ORoutes c => bool_decide (rc_Routes c = None)
  | OMap m => bool_decide (m = None)
  | OJack _ => false
  end.

Lemma setInterfacesValue_no_panic `{FloatToInt} c parts v :
  ic_Interfaces c ≠ None → is_slice (kind_of v) = false →
  no_panic (setInterfacesValue c parts v).
Proof.
  intros Hc Hv. unfold setInterfacesValue. repeat case_match; auto 6 with no_panic.
Qed.
Lemma setRoutesValue_no_panic `{FloatToInt} c parts v :
  rc_Routes c ≠ None → is_slice (kind_of v) = false → no_panic (setRoutesValue c parts v).
Proof.
  intros Hc Hv. unfold setRoutesValue. cbv zeta. repeat case_match; auto 6 with no_panic.
Qed.

Lemma setGenericValue_no_panic m path v : m ≠ None → no_panic (setGenericValue m path v).
Proof. destruct m as [m|]; [|done]. intros _. apply no_panic_fmap, setGenericMap_no_panic. Qed.

(** SetValue panics only on a configuration whose map is nil or for a value
    that is a slice: setting any other value, at any path of any
    configuration, succeeds or reports an error. *)
Theorem SetValue_no_panic `{FloatToInt} o path v :
  nil_map o = false → is_slice (kind_of v) = false → no_panic (SetValue (Some o) path v).
Proof.
  intros Ho Hv. unfold SetValue. destruct (path_parts path) as [|t rest]; [done|].
  destruct o as [c|c|c|[m|]]; cbn [nil_map] in Ho; try apply bool_decide_eq_false in Ho;
    repeat case_match; simplify_eq; auto using setInterfacesValue_no_panic,
      setRoutesValue_no_panic, setGenericValue_no_panic with no_panic.
Qed.

Lemma SetValue_no_panic_witness :
  let _ := amd64_float_to_int in
  nil_map (OMap (Some ∅)) = false ∧ no_panic (SetValue (Some (OMap (Some ∅))) "vpn.a.b" (VStr "x")).
Proof.
  intros f. split; [reflexivity|].
  apply (SetValue_no_panic (OMap (Some ∅)) "vpn.a.b" (VStr "x")); reflexivity.
Defined.

(** Setting a slice-typed field of an existing interface (bridge_ports, dns,
    wg_peers) to a JSON array panics instead of being converted or refused. *)
Theorem SetValue_array_panics `{FloatToInt} c path n f i k l :
  path_parts path = ["interfaces"; n; f] → gm (ic_Interfaces c) !! n = Some i →
  (f, k) ∈ schema (S:=Interface) → k = KStrs ∨ k = KPeers →
  ∃ w, SetValue (Some (OIfaces c)) path (VArr l) = Panic w.
Proof.
  intros Hp Hi Hf Hk. unfold SetValue. rewrite Hp. cbn. rewrite Hi.
  unfold setStructField. rewrite (proj2 (has_field_true f)) by eauto.
  unfold setFieldValue. rewrite (field_kind i f k Hf). cbn [kind_of].
  destruct Hk as [-> | ->]; (rewrite decide_False by done); cbn; eauto.
Qed.

Lemma SetValue_array_panics_witness :
  let _ := amd64_float_to_int in
  let c := {| ic_Interfaces := Some {["br-lan" := br_lan]}; ic_Version := "1.0" |} in
  ∃ w, SetValue (Some (OIfaces c)) "interfaces.br-lan.bridge_ports" (VArr [VStr "eth0"]) = Panic w.
Proof.
  intros f c.
  refine (SetValue_array_panics c _ "br-lan" "bridge_ports" br_lan KStrs _ _ _ _ _).
  - vm_compute; reflexivity.
  - vm_compute; reflexivity.
  - apply (bool_decide_unpack _). vm_compute. exact I.
  - left. reflexivity.
Defined.
