(* ===== verification/Diff.v ===== *)
(** * Diff: daemon/diff.go

    The differences between a committed and a pending configuration, found by
    reflection over the struct tables.  The text FormatDiff renders is given as
    its lines, each a list of pieces: the %v and %q renderings of values by fmt
    are left symbolic.  The theorems: a diff of interfaces lists exactly the
    added, removed and modified items, and is empty exactly when nothing
    differs. *)
From S2P Require Import Prelude GoStr Types Json Value Struct Codec Path.

Record DiffResult := {
  df_Path : string; df_Old : value; df_New : value; df_ChangeType : string;
}.

(** On the field kinds there are; a struct is never zero. *)
Definition isZeroValue (v : value) : bool :=
  match v with
  | VBool b => negb b
  | VInt z => z =? 0
  | VNum n => bool_decide (n = NInt 0)
  | VStr s => bool_decide (s = "")
  | VArr l => bool_decide (length l = 0%nat)
  | VStrs l => bool_decide (l = [])
  | VPeers l => bool_decide (l = [])
  | VRouteSlice l => bool_decide (l = [])
  | VMap m => bool_decide (size m = 0%nat)
  | VIfaces m => bool_decide (gm m = ∅)
  | VRoutes m => bool_decide (gm m = ∅)
  | VPlugins m => bool_decide (gm m = ∅)
  | VIPv6 o => bool_decide (o = None)
  | VObserver o => bool_decide (o = None)
  | VLogging o => bool_decide (o = None)
  | VNil | VIface _ | VRoute _ => false
  end.

(** The struct the interface value holds or points to, as its table; [None] is
    a map or a nil interface, on which [NumField], [Field] or [Interface]
    panics. *)
Definition struct_rows (o : option config_obj) : option (list (string * value)) :=
  match o with
  | Some (OIfaces c) => Some (rows c)
  | Some (ORoutes c) => Some (rows c)
  | Some (OJack c) => Some (rows c)
  | Some (OMap _) | None => None
  end.

(** One field: the same index in both structs. *)
Definition diff_field (basePath fieldName : string) (oldFieldVal newFieldVal : value)
    : list DiffResult :=
  if decide (oldFieldVal = newFieldVal) then []
  else if isZeroValue oldFieldVal && isZeroValue newFieldVal then []
  else [{| df_Path := basePath +:+ "." +:+ fieldName; df_Old := oldFieldVal;
           df_New := newFieldVal; df_ChangeType := "modified" |}].

(** The loop over [NumField()]; a second struct with fewer fields panics. *)
Fixpoint diff_rows (basePath : string) (old new : list (string * value))
    : res (list DiffResult) :=
  match old, new with
  | [], _ => Ok []
  | _ :: _, [] => Panic "reflect: Field index out of range"
  | (fieldName, o) :: old, (_, n) :: new =>
      diff_rows basePath old new ≫= λ rest, Ok (diff_field basePath fieldName o n ++ rest)
  end.

(** On two structs of the same type. *)
Definition diffStructs {S} `{Struct S} (basePath : string) (old new : S) : list DiffResult :=
  concat (zip_with (λ o n, diff_field basePath o.1 o.2 n.2) (rows old) (rows new)).

Section DiffInterfaces.
Context `{RangeOrder}.

Definition diff_iface (committed : gomap Interface) (p : string * Interface)
    : list DiffResult :=
  let path := "interfaces." +:+ p.1 in
  match gm committed !! p.1 with
  | None => [{| df_Path := path; df_Old := VNil; df_New := VIface p.2;
                df_ChangeType := "added" |}]
  | Some committedIface => diffStructs path committedIface p.2
  end.
Definition diff_removed (pending : gomap Interface) (p : string * Interface)
    : list DiffResult :=
  match gm pending !! p.1 with
  | None => [{| df_Path := "interfaces." +:+ p.1; df_Old := VIface p.2; df_New := VNil;
                df_ChangeType := "removed" |}]
  | Some _ => []
  end.
Definition DiffInterfaces (committed pending : InterfacesConfig) : list DiffResult :=
  (range (gm (ic_Interfaces pending)) ≫= diff_iface (ic_Interfaces committed)) ++
  (range (gm (ic_Interfaces committed)) ≫= diff_removed (ic_Interfaces pending)).

Definition DiffConfigs (configType : string) (committed pending : option config_obj)
    : res (list DiffResult) :=
  if bool_decide (configType = "interfaces") then
    match committed, pending with
    | Some (OIfaces c), Some (OIfaces p) => Ok (DiffInterfaces c p)
    | _, _ => err "invalid InterfacesConfig types"
    end
  else
    match struct_rows committed, struct_rows pending with
    | Some old, Some new => diff_rows configType old new
    | _, _ => Panic "reflect: call of NumField on map or zero Value"
    end.
End DiffInterfaces.

(** ** FormatDiff *)

(** Text, a value under %q, a value under %v. *)
Inductive piece := PText (s : string) | PQuoted (s : string) | PValue (v : value).

Definition formatValue (v : value) : piece :=
  match v with
  | VNil => PText "(none)"
  | _ => if isZeroValue v then PText "(empty)"
         else match v with VStr s => PQuoted s | _ => PValue v end
  end.
Definition format_line (d : DiffResult) : list (list piece) :=
  if bool_decide (df_ChangeType d = "added") then
    [[PText ("  + " +:+ df_Path d +:+ " (added)")]]
  else if bool_decide (df_ChangeType d = "removed") then
    [[PText ("  - " +:+ df_Path d +:+ " (removed)")]]
  else if bool_decide (df_ChangeType d = "modified") then
    [[PText ("  ~ " +:+ df_Path d +:+ ": "); formatValue (df_Old d); PText " → ";
      formatValue (df_New d)]]
  else [].
(** The lines, joined with newlines. *)
Definition FormatDiff (diffs : list DiffResult) : list (list piece) :=
  match diffs with
  | [] => [[PText "No changes"]]
  | _ =>
      [PText ("Found " +:+ itoa (Z.of_nat (length diffs)) +:+ " change(s):"
              +:+ String "010"%char "")]
      :: (diffs ≫= format_line)
  end.

(** ** Lemmas *)

(** What counts as a change of a field. *)
Definition changed (old new : value) : Prop :=
  old ≠ new ∧ isZeroValue old && isZeroValue new = false.
Definition modified (basePath t : string) (old new : value) : DiffResult :=
  {| df_Path := basePath +:+ "." +:+ t; df_Old := old; df_New := new;
     df_ChangeType := "modified" |}.

Lemma diff_field_elem basePath t old new d :
  d ∈ diff_field basePath t old new ↔ changed old new ∧ d = modified basePath t old new.
Proof.
  unfold diff_field, changed. case_decide as Hd; [set_solver|].
  destruct (isZeroValue old && isZeroValue new); set_solver.
Qed.

Lemma isZeroValue_flat v :
  is_flat (kind_of v) = true → isZeroValue v = true → v = zero_of (kind_of v).
Proof. intros Hf Hz. apply isEmptyValue_flat; [done|]. by destruct v. Qed.
(** On strings, booleans, ints, slices and pointers, changed is different. *)
Lemma changed_flat old new :
  kind_of old = kind_of new → is_flat (kind_of old) = true → changed old new ↔ old ≠ new.
Proof.
  intros Hk Hf. split; [by intros []|]. intros Hne. split; [done|].
  apply not_true_iff_false. intros [Ho Hn]%andb_true_iff. apply Hne.
  rewrite (isZeroValue_flat old), (isZeroValue_flat new) by (done || by rewrite <-Hk).
  by rewrite Hk.
Qed.

#[global] Arguments diffStructs : simpl never.

Section diffStructs.
Context {S : Type} `{StructLaws S}.
Implicit Types old new : S.

Lemma diffStructs_table basePath old new :
  diffStructs basePath old new =
    schema (S:=S) ≫= λ p,
      diff_field basePath p.1 (field_of (rows old) p.1) (field_of (rows new) p.1).
Proof.
  unfold diffStructs. rewrite (rows_table old), (rows_table new) at 1.
  generalize (schema (S:=S)) as l. induction l as [|p l IH]; [done|]. cbn.
  by rewrite IH.
Qed.
Lemma diffStructs_elem basePath old new d :
  d ∈ diffStructs basePath old new ↔
    ∃ t, t ∈ (schema (S:=S)).*1 ∧
      changed (field_of (rows old) t) (field_of (rows new) t) ∧
      d = modified basePath t (field_of (rows old) t) (field_of (rows new) t).
Proof.
  rewrite diffStructs_table, list_elem_of_bind. setoid_rewrite diff_field_elem.
  setoid_rewrite list_elem_of_fmap. naive_solver.
Qed.
Lemma diffStructs_nil basePath old new :
  diffStructs basePath old new = [] ↔
    ∀ t, t ∈ (schema (S:=S)).*1 → ¬ changed (field_of (rows old) t) (field_of (rows new) t).
Proof.
  split.
  - intros Hn t Ht Hc. assert (modified basePath t (field_of (rows old) t)
      (field_of (rows new) t) ∈ diffStructs basePath old new) as Hin
      by (apply diffStructs_elem; eauto). rewrite Hn in Hin. set_solver.
  - intros Hc. apply elem_of_nil_inv. intros d (t & Ht & Hch & _)%diffStructs_elem.
    by apply (Hc t).
Qed.
Lemma diff_rows_struct basePath old new :
  diff_rows basePath (rows old) (rows new) = Ok (diffStructs basePath old new).
Proof.
  unfold diffStructs. assert (length (rows old) = length (rows new)) as Hl
    by by rewrite (rows_table old), (rows_table new), !length_fmap.
  revert Hl. generalize (rows old) as lo, (rows new) as ln.
  induction lo as [|[t o] lo IH]; intros [|[t' n] ln] Hl; try done.
  injection Hl as Hl. cbn. by rewrite (IH _ Hl).
Qed.

Lemma flat_kind t k :
  forallb (λ p, is_flat p.2) (schema (S:=S)) = true → (t, k) ∈ schema (S:=S) →
  is_flat k = true.
Proof. rewrite forallb_forall. intros Hf Hk. apply (Hf (t, k)). by apply list_elem_of_In. Qed.

(** A struct of flat fields has an empty diff exactly with itself. *)
Lemma diffStructs_flat_nil basePath old new :
  forallb (λ p, is_flat p.2) (schema (S:=S)) = true →
  diffStructs basePath old new = [] ↔ old = new.
Proof.
  intros Hf. rewrite diffStructs_nil. split.
  - intros Hc. apply struct_ext. intros t Ht. apply dec_stable. intros Hne.
    apply (Hc t Ht). apply tag_kind in Ht as [k Hk].
    apply changed_flat; rewrite ?(field_kind _ _ _ Hk); [done| |done].
    by apply flat_kind in Hk.
  - intros -> t Ht []. done.
Qed.
End diffStructs.

(** ** Properties *)

(** The three kinds of entries of a diff of interfaces. *)
Inductive iface_change (c p : gmap string Interface) : DiffResult → Prop :=
| iface_added n i :
    c !! n = None → p !! n = Some i →
    iface_change c p {| df_Path := "interfaces." +:+ n; df_Old := VNil; df_New := VIface i;
                        df_ChangeType := "added" |}
| iface_removed n i :
    c !! n = Some i → p !! n = None →
    iface_change c p {| df_Path := "interfaces." +:+ n; df_Old := VIface i; df_New := VNil;
                        df_ChangeType := "removed" |}
| iface_modified n i j t :
    c !! n = Some i → p !! n = Some j → t ∈ (schema (S:=Interface)).*1 →
    field_of (rows i) t ≠ field_of (rows j) t →
    iface_change c p (modified ("interfaces." +:+ n) t (field_of (rows i) t)
                        (field_of (rows j) t)).

Lemma changed_iface (i j : Interface) t :
  t ∈ (schema (S:=Interface)).*1 →
  changed (field_of (rows i) t) (field_of (rows j) t) ↔
    field_of (rows i) t ≠ field_of (rows j) t.
Proof.
  intros [k Hk]%tag_kind. apply changed_flat; rewrite !(field_kind _ _ _ Hk); [done|].
  by apply flat_kind in Hk.
Qed.

(** Whatever order the maps are walked in, the diff of two interface
    configurations lists exactly the interfaces added, the interfaces removed
    and the fields of common interfaces whose values differ, with their paths
    and their old and new values. *)
Theorem DiffInterfaces_elem `{RangeOrder} c p d :
  d ∈ DiffInterfaces c p ↔ iface_change (gm (ic_Interfaces c)) (gm (ic_Interfaces p)) d.
Proof.
  unfold DiffInterfaces. rewrite elem_of_app, !list_elem_of_bind. split.
  - intros [([n j] & Hd & Hp%range_elem)|([n i] & Hd & Hc%range_elem)].
    + unfold diff_iface in Hd. cbn [fst snd] in Hd. destruct (_ !! n) as [i|] eqn:Hc.
      * apply diffStructs_elem in Hd as (t & Ht & Hch & ->).
        apply changed_iface in Hch; [|done]. by econstructor.
      * apply list_elem_of_singleton in Hd as ->. by constructor.
    + unfold diff_removed in Hd. cbn [fst snd] in Hd. destruct (_ !! n) as [j|] eqn:Hp; [set_solver|].
      apply list_elem_of_singleton in Hd as ->. by constructor.
  - intros [n i Hc Hp|n i Hc Hp|n i j t Hc Hp Ht Hne].
    + left. exists (n, i). rewrite range_elem. split; [|done].
      unfold diff_iface. cbn [fst snd]. rewrite Hc. set_solver.
    + right. exists (n, i). rewrite range_elem. split; [|done].
      unfold diff_removed. cbn [fst snd]. rewrite Hp. set_solver.
    + left. exists (n, j). rewrite range_elem. split; [|done].
      unfold diff_iface. cbn [fst snd]. rewrite Hc. apply diffStructs_elem. exists t.
      by rewrite changed_iface.
Qed.

Lemma DiffInterfaces_nil_lookup `{RangeOrder} c p n :
  DiffInterfaces c p = [] → gm (ic_Interfaces c) !! n = gm (ic_Interfaces p) !! n.
Proof.
  unfold DiffInterfaces. intros [Ha Hr]%app_nil.
  destruct (gm (ic_Interfaces p) !! n) as [j|] eqn:Hp.
  - assert (diff_iface (ic_Interfaces c) (n, j) = []) as Hd.
    { apply elem_of_nil_inv. intros d Hd. apply (not_elem_of_nil d). rewrite <-Ha.
      apply list_elem_of_bind. exists (n, j). by rewrite range_elem. }
    unfold diff_iface in Hd. cbn [fst snd] in Hd.
    destruct (gm (ic_Interfaces c) !! n) as [i|]; [|done].
    apply diffStructs_flat_nil in Hd as ->; done.
  - destruct (gm (ic_Interfaces c) !! n) as [i|] eqn:Hc; [exfalso|done].
    apply (not_elem_of_nil {| df_Path := "interfaces." +:+ n; df_Old := VIface i;
      df_New := VNil; df_ChangeType := "removed" |}). rewrite <-Hr.
    apply list_elem_of_bind. exists (n, i). rewrite range_elem. split; [|done].
    unfold diff_removed. cbn [fst snd]. rewrite Hp. set_solver.
Qed.

(** The diff of two interface configurations is empty exactly when they have
    the same interfaces with the same settings. *)
Theorem DiffInterfaces_nil `{RangeOrder} c p :
  DiffInterfaces c p = [] ↔ gm (ic_Interfaces c) = gm (ic_Interfaces p).
Proof.
  split; [intros Hn; apply map_eq; intros n; by apply DiffInterfaces_nil_lookup|].
  intros He. unfold DiffInterfaces, diff_iface, diff_removed.
  assert (∀ path (i : Interface), diffStructs path i i = []) as Hself
    by (intros; by apply diffStructs_flat_nil).
  apply app_nil. split; apply elem_of_nil_inv;
    intros d ([n i] & Hd & Hi%range_elem)%list_elem_of_bind; cbn [fst snd] in Hd.
  - rewrite He, Hi, Hself in Hd. set_solver.
  - rewrite <-He, Hi in Hd. set_solver.
Qed.

(** The generic diff of two routes configurations never fails and is empty
    exactly when they have the same routes (a nil map counting as an empty one)
    and the same version. *)
Theorem DiffConfigs_routes_nil `{RangeOrder} (c p : RoutesConfig) :
  ∃ diffs, DiffConfigs "routes" (Some (ORoutes c)) (Some (ORoutes p)) = Ok diffs ∧
    (diffs = [] ↔ gm (rc_Routes c) = gm (rc_Routes p) ∧ rc_Version c = rc_Version p).
Proof.
  exists (diffStructs "routes" c p). split; [by apply (diff_rows_struct "routes" c p)|].
  rewrite diffStructs_nil. unfold changed. split.
  - intros Hc. pose proof (Hc "routes" ltac:(cbn; set_solver)) as Hr.
    pose proof (Hc "version" ltac:(cbn; set_solver)) as Hv. cbn in Hr, Hv. split.
    + destruct (decide (VRoutes (rc_Routes c) = VRoutes (rc_Routes p))) as [[= ->]|Hne]; [done|].
      destruct (bool_decide (gm (rc_Routes c) = ∅) && bool_decide (gm (rc_Routes p) = ∅)) eqn:Hz;
        [|by destruct Hr].
      apply andb_true_iff in Hz as [Hzc%bool_decide_eq_true Hzp%bool_decide_eq_true].
      by rewrite Hzc, Hzp.
    + destruct (decide (rc_Version c = rc_Version p)) as [|Hne]; [done|exfalso].
      apply Hv. split; [congruence|]. apply andb_false_iff. rewrite !bool_decide_eq_false.
      destruct (decide (rc_Version c = "")) as [He|]; [right|left]; congruence.
  - intros [Hr Hv] t Ht [Hne Hz]. cbn in Ht.
    repeat (apply elem_of_cons in Ht as [->|Ht]; [cbn in Hne, Hz|]); [| |set_solver].
    + rewrite Hr in Hz. apply andb_false_iff in Hz. rewrite !bool_decide_eq_false in Hz.
      destruct (rc_Routes c), (rc_Routes p); cbn in *; naive_solver.
    + congruence.
Qed.

(** Diffing two plugin configurations (maps) panics: the reflective diff
    takes them for structs. *)
Theorem DiffConfigs_map_panics `{RangeOrder} configType m m' :
  configType ≠ "interfaces" →
  ∃ w, DiffConfigs configType (Some (OMap m)) (Some (OMap m')) = Panic w.
Proof. intros Ht. unfold DiffConfigs. rewrite bool_decide_eq_false_2 by done. cbn. eauto. Qed.

Lemma DiffConfigs_map_panics_witness :
  let _ := default_order in
  ∃ w, DiffConfigs "led" (Some (OMap (Some ∅))) (Some (OMap (Some ∅))) = Panic w.
Proof. intros r. apply (DiffConfigs_map_panics "led"). discriminate. Defined.
