(* ===== verification/ConfigStore.v ===== *)
(** * ConfigStore: configuration files (state/manager.go, state/jack.go)

    A file system as the code uses it, and the loading and saving of
    configuration files.  Every operating-system call may fail: the outcome of
    the n-th call is a parameter, so a theorem holds whichever calls fail.  A
    file's content is the JSON document it holds, or bytes that do not parse.
    The theorems: saving is atomic (the file holds the old or the complete new
    document, whatever fails), and what was saved loads back. *)
From S2P Require Import Prelude GoStr Types Json Value Struct Codec Path.

(** ** system/snapshot.go: the records kept in snapshot files

    A [time.Time] is its nanoseconds since the epoch. *)
Record InterfaceSnapshot := {
  is_Name : string; is_Type : string; is_Existed : bool; is_MTU : Z; is_State : string;
  is_Addresses : list string; is_Gateway : string; is_Metric : Z; is_Ports : list string;
  is_VLANId : Z; is_ParentDevice : string;
}.
Record RouteSnapshot := {
  rs_Destination : string; rs_Gateway : string; rs_Device : string; rs_Metric : Z;
  rs_Table : Z; rs_Scope : Z;
}.
Record SystemSnapshot := {
  ss_Timestamp : Z; ss_CheckpointID : string; ss_IPForwarding : bool;
  ss_Interfaces : gomap InterfaceSnapshot; ss_Routes : list RouteSnapshot;
  ss_NftablesRules : string;
}.

(** ** Files *)

(** [CSnapshot] is the JSON of a [SystemSnapshot], given as the record; [CText]
    is a text that is no JSON document. *)
Inductive content := CJson (j : json) | CSnapshot (s : SystemSnapshot) | CText (s : string) | CGarbage.

(** The files by absolute path, and the number of system calls made. *)
Record FS := { fs_files : gmap string content; fs_tick : N }.

(** [os_error n]: whether the n-th call fails, and if it is a write whether it
    leaves the file truncated; [os_now n] and [os_stamp n]: the clock read by
    the n-th call, in nanoseconds and formatted as "20060102-150405";
    [config_dir]: what [GetConfigDir] returns. *)
Class OS := {
  os_error : N → option (error * bool);
  os_now : N → Z;
  os_stamp : N → string;
  config_dir : string;
}.

Definition ErrNotExist : error := StdError "os" "file does not exist".

(** [errors.Is]: the error or one it wraps. *)
#[export] Instance error_eq_dec : EqDecision error.
Proof.
  refine (fix go x y :=
    let r : EqDecision error := @go in
    match x, y with
    | ErrorText a, ErrorText b => cast_if (decide (a = b))
    | Wrapf p a, Wrapf q b => cast_if_and (decide (p = q)) (decide (a = b))
    | Joined a, Joined b => cast_if (decide (a = b))
    | StdError a b, StdError c d => cast_if_and (decide (a = c)) (decide (b = d))
    | _, _ => right _
    end); clear r go; congruence.
Defined.
Fixpoint errors_Is (e target : error) : bool :=
  bool_decide (e = target) ||
  match e with
  | Wrapf _ e => errors_Is e target
  | Joined es => existsb (λ e, errors_Is e target) es
  | _ => false
  end.

Section fs.
Context `{OS}.

Definition with_files (f : gmap string content) (fs : FS) : FS :=
  {| fs_files := f; fs_tick := fs_tick fs |}.
(** Make a system call: count it and look up its outcome. *)
Definition syscall : M FS (option (error * bool)) := λ fs,
  (Ok (os_error (fs_tick fs)), {| fs_files := fs_files fs; fs_tick := fs_tick fs + 1 |}).

(** [os.Stat]: whether the file exists, or an error. *)
Definition os_Stat (path : string) : M FS () :=
  syscall ≫= λ out, gets fs_files ≫= λ files,
  match out, files !! path with
  | Some (e, _), _ => fail e
  | None, None => fail ErrNotExist
  | None, Some _ => mret ()
  end.
Definition os_ReadFile (path : string) : M FS content :=
  syscall ≫= λ out, gets fs_files ≫= λ files,
  match out, files !! path with
  | Some (e, _), _ => fail e
  | None, None => fail ErrNotExist
  | None, Some c => mret c
  end.
Definition os_WriteFile (path : string) (c : content) : M FS () :=
  syscall ≫= λ out,
  match out with
  | Some (e, truncated) =>
      (if truncated : bool then modify (λ fs, with_files (<[path := CGarbage]> (fs_files fs)) fs)
       else mret ()) ≫= λ _, fail e
  | None => modify (λ fs, with_files (<[path := c]> (fs_files fs)) fs)
  end.
Definition os_Rename (old new : string) : M FS () :=
  syscall ≫= λ out, gets fs_files ≫= λ files,
  match out, files !! old with
  | Some (e, _), _ => fail e
  | None, None => fail ErrNotExist
  | None, Some c => modify (with_files (<[new := c]> (delete old files)))
  end.
Definition os_Remove (path : string) : M FS () :=
  syscall ≫= λ out, gets fs_files ≫= λ files,
  match out, files !! path with
  | Some (e, _), _ => fail e
  | None, None => fail ErrNotExist
  | None, Some _ => modify (with_files (delete path files))
  end.
Definition os_MkdirAll (path : string) : M FS () :=
  syscall ≫= λ out, match out with Some (e, _) => fail e | None => mret () end.
Definition time_stamp : M FS string := gets (λ fs, os_stamp (fs_tick fs)).

(** ** state/manager.go *)

Definition copyFile (src dst : string) : M FS () :=
  os_ReadFile src ≫= λ data, os_WriteFile dst data.

(** [filepath.Join(GetConfigDir(), namespace+".json")]. *)
Definition config_path (namespace : string) : string :=
  config_dir +:+ "/" +:+ namespace +:+ ".json".

(** Decoding with [dec]; the position of a syntax error is not modelled. *)
Definition LoadConfig {A} (dec : json → res A) (namespace : string) : M FS A :=
  wrapM ("failed to read " +:+ namespace +:+ " config: ") (os_ReadFile (config_path namespace))
    ≫= λ data,
  lift (wrap ("failed to parse " +:+ namespace +:+ " config: ")
          match data with
          | CJson j => dec j
          | CSnapshot _ => Err type_error
          | CText _ | CGarbage => Err (StdError "encoding/json" "SyntaxError")
          end).

(** Create backup if file exists. *)
Definition backup_existing (path : string) : M FS () :=
  attempt (os_Stat path) ≫= λ st,
  match st with
  | Ok _ =>
      time_stamp ≫= λ stamp,
      wrapM "failed to create backup: " (copyFile path (path +:+ ".backup." +:+ stamp))
  | _ => mret ()
  end.
(** Write atomically (temp file + rename). *)
Definition write_atomically (path : string) (data : json) : M FS () :=
  let tmpPath := path +:+ ".tmp" in
  wrapM "failed to write temp file: " (os_WriteFile tmpPath (CJson data)) ≫= λ _,
  wrapM "failed to rename temp file: " (os_Rename tmpPath path).
Definition SaveConfig (namespace : string) (data : json) : M FS () :=
  backup_existing (config_path namespace) ≫= λ _,
  write_atomically (config_path namespace) data.

(** ** state/jack.go *)

Definition getDefaultJackConfig : JackConfig :=
  let enabled := {| ps_Version := ""; ps_Enabled := true |} in
  {| jc_Version := "1.0"; jc_Observer := None; jc_Logging := None;
     jc_Plugins := Some {["nftables" := enabled; "dnsmasq" := enabled;
                          "monitoring" := enabled]} |}.

Definition LoadJackConfig : M FS JackConfig :=
  attempt (os_Stat (config_path "jack")) ≫= λ st,
  if match st with Err e => errors_Is e ErrNotExist | _ => false end
  then mret getDefaultJackConfig
  else
    wrapM "failed to load jack config: " (LoadConfig Unmarshal_JackConfig "jack") ≫= λ config,
    match jc_Plugins config with
    | None => mret getDefaultJackConfig
    | Some _ => mret config
    end.

Definition SaveJackConfig (config : JackConfig) : M FS () :=
  SaveConfig "jack" (enc_struct enc_config_field config).
End fs.

(** ** Lemmas: no call of this file panics *)

Section safety.
Context `{OS}.

Lemma safe_syscall : safe syscall.
Proof. done. Qed.
#[local] Hint Resolve safe_syscall : safe.
Lemma safe_Stat p : safe (os_Stat p).
Proof.
  apply safe_bind; [auto with safe|]. intros out. apply safe_bind; [auto with safe|].
  intros files. repeat case_match; auto with safe.
Qed.
Lemma safe_ReadFile p : safe (os_ReadFile p).
Proof.
  apply safe_bind; [auto with safe|]. intros out. apply safe_bind; [auto with safe|].
  intros files. repeat case_match; auto with safe.
Qed.
Lemma safe_WriteFile p c : safe (os_WriteFile p c).
Proof.
  apply safe_bind; [auto with safe|]. intros [[e []]|]; auto with safe.
Qed.
Lemma safe_Rename p q : safe (os_Rename p q).
Proof.
  apply safe_bind; [auto with safe|]. intros out. apply safe_bind; [auto with safe|].
  intros files. repeat case_match; auto with safe.
Qed.
Lemma safe_MkdirAll p : safe (os_MkdirAll p).
Proof. apply safe_bind; [auto with safe|]. intros [[]|]; auto with safe. Qed.
#[local] Hint Resolve safe_Stat safe_ReadFile safe_WriteFile safe_Rename : safe.

Lemma safe_SaveConfig ns j : safe (SaveConfig ns j).
Proof.
  apply safe_bind.
  - apply safe_bind; [auto with safe|]. intros [[]|e|w]; auto with safe.
    apply safe_bind; [apply safe_gets|]. intros stamp. apply safe_wrapM.
    unfold copyFile. auto with safe.
  - intros _. unfold write_atomically. auto with safe.
Qed.
Lemma safe_LoadConfig {A} (dec : json → res A) ns :
  (∀ j, no_panic (dec j)) → safe (LoadConfig dec ns).
Proof.
  intros Hd. apply safe_bind; [auto with safe|]. intros []; auto with safe no_panic.
Qed.
Lemma safe_SaveJackConfig jc : safe (SaveJackConfig jc).
Proof. apply safe_SaveConfig. Qed.
Lemma safe_LoadJackConfig : safe LoadJackConfig.
Proof.
  apply safe_bind; [auto with safe|]. intros st.
  match goal with |- safe (if ?b then _ else _) => destruct b; [auto with safe|] end.
  apply safe_bind; [|intros c; case_match; auto with safe].
  apply safe_wrapM, safe_LoadConfig, Unmarshal_JackConfig_no_panic.
Qed.
Lemma safe_load_map ns : safe (LoadConfig Unmarshal_map ns).
Proof. apply safe_LoadConfig. auto with no_panic. Qed.
Lemma safe_load_routes ns : safe (LoadConfig Unmarshal_RoutesConfig ns).
Proof. apply safe_LoadConfig. auto with no_panic. Qed.
(** A jack configuration that loads has a plugin map. *)
Lemma LoadJackConfig_plugins fs jc fs' :
  LoadJackConfig fs = (Ok jc, fs') → is_Some (jc_Plugins jc).
Proof.
  unfold LoadJackConfig. unfold mbind at 1, M_bind at 1.
  destruct (attempt _ fs) as [[st| |] fs1]; [|done..].
  match goal with |- (if ?b then _ else _) _ = _ → _ => destruct b end;
    [intros [= <- _]; eauto|].
  unfold mbind at 1, M_bind at 1. destruct (wrapM _ _ fs1) as [[c| |] fs2]; [|done..].
  destruct (jc_Plugins c) eqn:Hc; intros [= <- _]; [by rewrite Hc|eauto].
Qed.
End safety.
#[export] Hint Resolve safe_SaveConfig safe_LoadConfig safe_SaveJackConfig safe_LoadJackConfig
  safe_load_map safe_load_routes safe_ReadFile safe_WriteFile safe_MkdirAll : safe.

(** ** Lemmas: computations that leave a file alone *)

Section keeps.
Context `{OS}.

(** [m] does not change the content of the file [p], whatever it returns. *)
Definition keeps {A} (p : string) (m : M FS A) : Prop :=
  ∀ fs, fs_files (m fs).2 !! p = fs_files fs !! p.

Lemma keeps_bind {A B} p (m : M FS A) (f : A → M FS B) :
  keeps p m → (∀ a, keeps p (f a)) → keeps p (m ≫= f).
Proof.
  intros Hm Hf fs. unfold mbind, M_bind. specialize (Hm fs).
  destruct (m fs) as [[a| |] fs']; cbn in *; [|done..]. by rewrite Hf.
Qed.
Lemma keeps_ret {A} p (a : A) : keeps p (mret a).
Proof. done. Qed.
Lemma keeps_gets {A} p (f : FS → A) : keeps p (gets f).
Proof. done. Qed.
Lemma keeps_lift {A} p (r : res A) : keeps p (lift r).
Proof. done. Qed.
Lemma keeps_fail {A} p e : keeps p (fail e : M FS A).
Proof. done. Qed.
Lemma keeps_wrapM {A} p s (m : M FS A) : keeps p m → keeps p (wrapM s m).
Proof. intros Hm fs. specialize (Hm fs). unfold wrapM. by destruct (m fs). Qed.
Lemma keeps_attempt {A} p (m : M FS A) : keeps p m → keeps p (attempt m).
Proof. intros Hm fs. specialize (Hm fs). unfold attempt. by destruct (m fs) as [[]]. Qed.
Lemma keeps_syscall p : keeps p syscall.
Proof. done. Qed.
#[local] Hint Resolve keeps_bind keeps_ret keeps_gets keeps_lift keeps_fail keeps_wrapM
  keeps_attempt keeps_syscall : core.

Lemma keeps_Stat p q : keeps p (os_Stat q).
Proof.
  unfold os_Stat. apply keeps_bind; [auto|]. intros out. apply keeps_bind; [auto|].
  intros files. repeat case_match; auto.
Qed.
Lemma keeps_ReadFile p q : keeps p (os_ReadFile q).
Proof.
  unfold os_ReadFile. apply keeps_bind; [auto|]. intros out. apply keeps_bind; [auto|].
  intros files. repeat case_match; auto.
Qed.
Lemma keeps_write p q c : p ≠ q → keeps p (modify (λ fs, with_files (<[q := c]> (fs_files fs)) fs)).
Proof. intros Hne fs. cbn. by apply lookup_insert_ne. Qed.
Lemma keeps_WriteFile p q c : p ≠ q → keeps p (os_WriteFile q c).
Proof.
  intros Hne. unfold os_WriteFile. apply keeps_bind; [auto|]. intros [[e b]|].
  - apply keeps_bind; [|auto]. destruct b; auto using keeps_write.
  - auto using keeps_write.
Qed.
Lemma keeps_copyFile p src dst : p ≠ dst → keeps p (copyFile src dst).
Proof. intros Hne. apply keeps_bind; auto using keeps_ReadFile, keeps_WriteFile. Qed.

(** A write that returns without an error wrote the content. *)
Lemma WriteFile_ok q c fs fs' :
  os_WriteFile q c fs = (Ok (), fs') → fs_files fs' !! q = Some c.
Proof.
  unfold os_WriteFile, mbind, M_bind, syscall. cbn.
  destruct (os_error _) as [[e []]|]; cbn; intros [= <-]. apply lookup_insert_eq.
Qed.
(** A rename moved the content, or changed nothing. *)
Lemma Rename_spec old new fs :
  match os_Rename old new fs with
  | (Ok _, fs') => ∃ c, fs_files fs !! old = Some c ∧
      fs_files fs' = <[new := c]> (delete old (fs_files fs))
  | (_, fs') => fs_files fs' = fs_files fs
  end.
Proof.
  unfold os_Rename, mbind, M_bind, syscall. cbn.
  destruct (os_error _) as [[e b]|]; cbn; [done|].
  destruct (fs_files fs !! old) as [c|]; cbn; eauto.
Qed.

Lemma app_str_neq s t : t ≠ "" → s ≠ s +:+ t.
Proof.
  intros Ht. induction s as [|c s IH]; [by change ("" +:+ t) with t|].
  change (String c s +:+ t) with (String c (s +:+ t)). congruence.
Qed.
Lemma keeps_backup p : keeps p (backup_existing p).
Proof.
  apply keeps_bind; [auto using keeps_Stat|]. intros [| |]; auto.
  apply keeps_bind; [apply keeps_gets|]. intros stamp.
  apply keeps_wrapM, keeps_copyFile. by apply app_str_neq.
Qed.
End keeps.

Section save.
Context `{OS}.

Lemma write_atomically_spec path data fs :
  let '(r, fs') := write_atomically path data fs in
  fs_files fs' !! path = match r with Ok _ => Some (CJson data)
                         | _ => fs_files fs !! path end.
Proof.
  unfold write_atomically, mbind, M_bind. set (tmp := path +:+ ".tmp").
  assert (path ≠ tmp) as Hne by by apply app_str_neq.
  pose proof (keeps_WriteFile path tmp (CJson data) Hne fs) as Hk.
  pose proof (WriteFile_ok tmp (CJson data) fs) as Hw. unfold wrapM at 1.
  destruct (os_WriteFile tmp (CJson data) fs) as [[[]| |] fs1]; cbn in *; [|done..].
  specialize (Hw fs1 eq_refl). pose proof (Rename_spec tmp path fs1) as Hr. unfold wrapM.
  destruct (os_Rename tmp path fs1) as [[[]| |] fs2]; cbn; [|congruence..].
  destruct Hr as (c & Hc & ->). rewrite lookup_insert_eq. congruence.
Qed.
Lemma SaveConfig_spec ns data fs :
  let '(r, fs') := SaveConfig ns data fs in
  fs_files fs' !! config_path ns = match r with Ok _ => Some (CJson data)
                                   | _ => fs_files fs !! config_path ns end.
Proof.
  unfold SaveConfig, mbind, M_bind.
  pose proof (keeps_backup (config_path ns) fs) as Hk.
  destruct (backup_existing (config_path ns) fs) as [[[]| |] fs1]; cbn in Hk; [|done..].
  pose proof (write_atomically_spec (config_path ns) data fs1) as Hw.
  destruct (write_atomically _ _ fs1) as [[[]| |] fs2]; [done|congruence..].
Qed.
Lemma keeps_SaveConfig p ns data :
  p ≠ config_path ns → p ≠ config_path ns +:+ ".tmp" →
  (∀ stamp, p ≠ config_path ns +:+ ".backup." +:+ stamp) → keeps p (SaveConfig ns data).
Proof.
  intros H1 H2 H3. apply keeps_bind.
  - apply keeps_bind; [apply keeps_attempt, keeps_Stat|]. intros [| |]; [|apply keeps_ret..].
    apply keeps_bind; [apply keeps_gets|]. intros stamp. by apply keeps_wrapM, keeps_copyFile.
  - intros _. apply keeps_bind; [by apply keeps_wrapM, keeps_WriteFile|]. intros _.
    apply keeps_wrapM. intros fs. pose proof (Rename_spec (config_path ns +:+ ".tmp")
      (config_path ns) fs) as Hr.
    destruct (os_Rename _ _ fs) as [[[]| |] fs2]; cbn in *; [|by rewrite Hr..].
    destruct Hr as (c & _ & ->). by rewrite lookup_insert_ne, lookup_delete_ne.
Qed.
Lemma LoadConfig_read {A} (dec : json → res A) ns j a fs :
  os_error (fs_tick fs) = None → fs_files fs !! config_path ns = Some (CJson j) →
  dec j = Ok a → (LoadConfig dec ns fs).1 = Ok a.
Proof.
  intros Ho Hf Hd. unfold LoadConfig, os_ReadFile, mbind, M_bind, wrapM, syscall, gets. cbn.
  rewrite Ho. cbn. rewrite Hf. cbn. by rewrite Hd.
Qed.
End save.

(** ** Properties *)

(** C29: saving a configuration is atomic and reports the truth: whichever
    system calls fail, the file afterwards holds the complete new document if
    SaveConfig returned nil and exactly what it held before otherwise; and no
    file other than it, its temporary file and a backup changes. *)
Theorem SaveConfig_atomic `{OS} ns data fs :
  fs_files (SaveConfig ns data fs).2 !! config_path ns =
    match (SaveConfig ns data fs).1 with
    | Ok _ => Some (CJson data)
    | _ => fs_files fs !! config_path ns
    end ∧
  ∀ p, p ≠ config_path ns → p ≠ config_path ns +:+ ".tmp" →
    (∀ stamp, p ≠ config_path ns +:+ ".backup." +:+ stamp) →
    fs_files (SaveConfig ns data fs).2 !! p = fs_files fs !! p.
Proof.
  split; [|intros; by apply keeps_SaveConfig].
  pose proof (SaveConfig_spec ns data fs) as Hs.
  by destruct (SaveConfig ns data fs).
Qed.

(** C30: an interfaces configuration whose numbers are 64-bit integers survives
    the disk: once SaveConfig has returned nil, loading it (if that read works)
    gives the same configuration back. *)
Theorem SaveConfig_LoadConfig `{OS} c fs fs' :
  wf_struct wf_config_field c →
  SaveConfig "interfaces" (enc_struct enc_config_field c) fs = (Ok (), fs') →
  os_error (fs_tick fs') = None →
  (LoadConfig Unmarshal_InterfacesConfig "interfaces" fs').1 = Ok c.
Proof.
  intros Hwf Hs Ho. pose proof (SaveConfig_spec "interfaces" (enc_struct enc_config_field c) fs)
    as Hspec. rewrite Hs in Hspec.
  eapply LoadConfig_read; [done|exact Hspec|].
  by apply (dec_enc_struct_wf _ _ wf_config_field is_config_field _ dec_enc_config_field).
Qed.

Definition reliable_os : OS :=
  {| os_error _ := None; os_now _ := 0; os_stamp _ := "20250101-000000";
     config_dir := "/etc/jack" |}.
Definition lan_config : InterfacesConfig :=
  {| ic_Interfaces := Some {["br-lan" := with_field "mtu" (VInt 1500) br_lan]};
     ic_Version := "1.0" |}.
Lemma SaveConfig_LoadConfig_witness :
  let _ := reliable_os in
  let fs := {| fs_files := ∅; fs_tick := 0 |} in
  let fs' := (SaveConfig "interfaces" (enc_struct enc_config_field lan_config) fs).2 in
  (LoadConfig Unmarshal_InterfacesConfig "interfaces" fs').1 = Ok lan_config.
Proof.
  intros o fs fs'. apply (SaveConfig_LoadConfig lan_config fs fs').
  - apply Forall_cons. split; [|repeat constructor].
    apply (map_Forall_singleton (λ _, wf_iface)).
    unfold wf_iface, wf_struct. repeat constructor.
  - vm_compute. reflexivity.
  - reflexivity.
Defined.
