(* ===== verification/State.v ===== *)
(** * State: daemon/state.go

    The registry of configurations.  The [interface{}] values of a
    [ConfigEntry] are references: the same configuration object can be
    committed and last applied, and [SetValue] mutates the object it is given.
    So the state has a heap of configuration objects and the entries hold
    locations ([None]: the nil interface).  The mutexes make each operation
    atomic; an operation is a function of the state. *)
From S2P Require Import Prelude GoStr Types Json Value Struct Codec Path ConfigStore.

Definition loc := positive.

Record ConfigEntry := {
  Committed : option loc; Pending : option loc; LastApplied : option loc;
}.
Definition empty_entry : ConfigEntry :=
  {| Committed := None; Pending := None; LastApplied := None |}.

Record State := {
  registry : gmap string ConfigEntry;
  heap : gmap loc config_obj;
  snapshots : gmap string SystemSnapshot;
  snapshotList : list string;
}.
Definition NewState : State :=
  {| registry := ∅; heap := ∅; snapshots := ∅; snapshotList := [] |}.

Definition with_registry (r : gmap string ConfigEntry) (s : State) : State :=
  {| registry := r; heap := heap s; snapshots := snapshots s; snapshotList := snapshotList s |}.
Definition with_heap (h : gmap loc config_obj) (s : State) : State :=
  {| registry := registry s; heap := h; snapshots := snapshots s;
     snapshotList := snapshotList s |}.
Definition with_snapshots (m : gmap string SystemSnapshot) (l : list string) (s : State)
    : State :=
  {| registry := registry s; heap := heap s; snapshots := m; snapshotList := l |}.

(** A new object. *)
Definition alloc (o : config_obj) (s : State) : loc * State :=
  let l := fresh (dom (heap s)) in (l, with_heap (<[l := o]> (heap s)) s).
(** What an interface value refers to. *)
Definition deref (s : State) (c : option loc) : option config_obj :=
  c ≫= λ l, heap s !! l.

(** ** Configurations *)

Definition entry_of (s : State) (configType : string) : ConfigEntry :=
  default empty_entry (registry s !! configType).

Definition LoadCommitted (configType : string) (config : option loc) (s : State) : State :=
  with_registry
    (<[configType := {| Committed := config; Pending := None;
                        LastApplied := LastApplied (entry_of s configType) |}]> (registry s)) s.

Definition effective (e : ConfigEntry) : option loc :=
  match Pending e with Some l => Some l | None => Committed e end.

Definition unknown_type {A} (configType : string) : res A :=
  err ("unknown config type: " +:+ configType).
Definition GetCurrent (configType : string) (s : State) : res (option loc) :=
  match registry s !! configType with
  | None => unknown_type configType
  | Some e => Ok (effective e)
  end.
Definition GetCommitted (configType : string) (s : State) : res (option loc) :=
  match registry s !! configType with
  | None => unknown_type configType
  | Some e => Ok (Committed e)
  end.

(** The typed variants: the object, when it has the type. *)
Definition object_of (s : State) (r : res (option loc)) : option config_obj :=
  match r with Ok c => deref s c | _ => None end.
Definition GetCurrentInterfaces (s : State) : option InterfacesConfig :=
  match object_of s (GetCurrent "interfaces" s) with Some (OIfaces c) => Some c | _ => None end.
Definition GetCurrentRoutes (s : State) : option RoutesConfig :=
  match object_of s (GetCurrent "routes" s) with Some (ORoutes c) => Some c | _ => None end.
Definition GetCurrentJackConfig (s : State) : option JackConfig :=
  match object_of s (GetCurrent "jack" s) with Some (OJack c) => Some c | _ => None end.
Definition GetCommittedInterfaces (s : State) : option InterfacesConfig :=
  match object_of s (GetCommitted "interfaces" s) with
  | Some (OIfaces c) => Some c | _ => None end.

Definition is_pending (e : ConfigEntry) : bool := bool_decide (Pending e ≠ None).
Definition HasPending (s : State) : bool :=
  existsb (λ p, is_pending p.2) (map_to_list (registry s)).
Definition HasPendingFor (configType : string) (s : State) : bool :=
  match registry s !! configType with None => false | Some e => is_pending e end.

Definition SetPending (configType : string) (config : option loc) (s : State) : State :=
  let e := entry_of s configType in
  with_registry
    (<[configType := {| Committed := Committed e; Pending := config;
                        LastApplied := LastApplied e |}]> (registry s)) s.

Definition commit_entry (e : ConfigEntry) : ConfigEntry :=
  match Pending e with
  | Some l => {| Committed := Some l; Pending := None; LastApplied := LastApplied e |}
  | None => e
  end.
Definition CommitPending (s : State) : res State :=
  if HasPending s then Ok (with_registry (commit_entry <$> registry s) s)
  else err "no pending changes to commit".

Definition revert_entry (e : ConfigEntry) : ConfigEntry :=
  {| Committed := Committed e; Pending := None; LastApplied := LastApplied e |}.
Definition RevertPending (s : State) : res State :=
  Ok (with_registry (revert_entry <$> registry s) s).

Definition GetPendingTypes `{RangeOrder} (s : State) : list string :=
  (filter (λ p, is_pending p.2 = true) (range (registry s))).*1.

Definition SetLastApplied (configType : string) (config : option loc) (s : State) : State :=
  let e := entry_of s configType in
  with_registry
    (<[configType := {| Committed := Committed e; Pending := Pending e;
                        LastApplied := config |}]> (registry s)) s.
Definition GetLastApplied (configType : string) (s : State) : res (option loc) :=
  match registry s !! configType with
  | None => unknown_type configType
  | Some e => Ok (LastApplied e)
  end.

(** [json.Marshal] of a configuration. *)
Definition marshal_obj (o : config_obj) : json :=
  match o with
  | OIfaces c => enc_struct enc_config_field c
  | ORoutes c => enc_struct enc_config_field c
  | OJack c => enc_struct enc_config_field c
  | OMap None => JNull
  | OMap (Some m) => Marshal (VMap m)
  end.
#[export] Instance json_eq_dec : EqDecision json.
Proof.
  refine (fix go x y :=
    let r : EqDecision json := @go in
    match x, y with
    | JNull, JNull => left eq_refl
    | JBool a, JBool b => cast_if (decide (a = b))
    | JInt a, JInt b => cast_if (decide (a = b))
    | JFloat a, JFloat b => cast_if (decide (a = b))
    | JStr a, JStr b => cast_if (decide (a = b))
    | JArr a, JArr b => cast_if (decide (a = b))
    | JObj a, JObj b => cast_if (decide (a = b))
    | _, _ => right _
    end); clear r go; congruence.
Defined.
(** Nil only equals nil; otherwise deep equality, then equality of the JSON. *)
Definition ConfigsEqual (a b : option config_obj) : bool :=
  match a, b with
  | None, None => true
  | None, _ | _, None => false
  | Some a, Some b =>
      bool_decide (a = b) || bool_decide (marshal_obj a = marshal_obj b)
  end.

(** ** Snapshots *)

(** [path.Clean] of an absolute path. *)
Definition clean_step (acc : list string) (part : string) : list string :=
  if bool_decide (part = "") || bool_decide (part = ".") then acc
  else if bool_decide (part = "..") then tail acc
  else part :: acc.
Definition clean_path (p : string) : string :=
  "/" +:+ join "/" (rev (foldl clean_step [] (split slash p))).

Definition snapshot_dir : string := "/var/lib/jack/snapshots".
Definition getSnapshotPath (checkpointID : string) : string :=
  clean_path (snapshot_dir +:+ "/" +:+ checkpointID +:+ ".json").

Definition getTriggerType (checkpointID : string) : string :=
  if (5 <? String.length checkpointID)%nat && bool_decide (take_str 5 checkpointID = "auto-")
  then "auto"
  else if (7 <? String.length checkpointID)%nat
          && bool_decide (take_str 7 checkpointID = "manual-")
  then "manual" else "unknown".

Record SnapshotInfo := { si_CheckpointID : string; si_Timestamp : Z; si_Trigger : string }.

Definition ListSnapshots (s : State) : list SnapshotInfo :=
  omap (λ checkpointID,
          (λ snapshot, {| si_CheckpointID := checkpointID;
                          si_Timestamp := ss_Timestamp snapshot;
                          si_Trigger := getTriggerType checkpointID |})
          <$> snapshots s !! checkpointID) (snapshotList s).

Section snapshots.
Context `{OS}.

(** Lifting to the state and the file system together. *)
Definition on_fs {A} (m : M FS A) : M (State * FS) A := λ sf,
  match m sf.2 with (r, fs) => (r, (sf.1, fs)) end.
Definition on_state (f : State → State) : M (State * FS) () := λ sf,
  (Ok (), (f sf.1, sf.2)).

Definition persistSnapshot (checkpointID : string) (snapshot : SystemSnapshot) : M FS () :=
  wrapM "failed to create snapshot directory: " (os_MkdirAll snapshot_dir) ≫= λ _,
  wrapM "failed to write snapshot file: "
    (os_WriteFile (getSnapshotPath checkpointID) (CSnapshot snapshot)).

Definition SaveSnapshot (checkpointID : string) (snapshot : SystemSnapshot)
    : M (State * FS) () :=
  on_state (λ s, with_snapshots (<[checkpointID := snapshot]> (snapshots s))
                   (snapshotList s ++ [checkpointID]) s) ≫= λ _,
  on_fs (persistSnapshot checkpointID snapshot).

Definition loadSnapshotFromDisk (checkpointID : string) : M FS SystemSnapshot :=
  wrapM "snapshot not found: " (os_ReadFile (getSnapshotPath checkpointID)) ≫= λ data,
  lift (wrap "failed to unmarshal snapshot: "
          match data with
          | CSnapshot s => Ok s
          | CJson _ => Err type_error
          | CText _ | CGarbage => Err (StdError "encoding/json" "SyntaxError")
          end).

Definition resolve_latest (checkpointID : string) (s : State) : res string :=
  if bool_decide (checkpointID = "latest") then
    ok_or (ErrorText "no snapshots available") (last (snapshotList s))
  else Ok checkpointID.
Definition LoadSnapshot (checkpointID : string) : M (State * FS) SystemSnapshot :=
  gets fst ≫= λ s,
  lift (resolve_latest checkpointID s) ≫= λ checkpointID,
  match snapshots s !! checkpointID with
  | Some snapshot => mret snapshot
  | None => on_fs (loadSnapshotFromDisk checkpointID)
  end.

(** The body of the loop below; a failing remove is ignored. *)
Definition prune_one (checkpointID : string) : M (State * FS) () :=
  on_state (λ s, with_snapshots (delete checkpointID (snapshots s)) (snapshotList s) s)
    ≫= λ _,
  attempt (on_fs (os_Remove (getSnapshotPath checkpointID))) ≫= λ _, mret ().
(** [keepCount] is 10 at the only call. *)
Definition PruneOldSnapshots (keepCount : nat) : M (State * FS) () :=
  gets fst ≫= λ s,
  if (length (snapshotList s) <=? keepCount)%nat then mret ()
  else
    let n := (length (snapshotList s) - keepCount)%nat in
    let toRemove := take n (snapshotList s) in
    for_each toRemove prune_one ≫= λ _,
    on_state (λ s, with_snapshots (snapshots s) (drop n (snapshotList s)) s).

(** The names of the files of a directory, sorted; sub-directories are left
    out, the caller skips them. *)
Definition os_ReadDir (dir : string) : M FS (list string) :=
  syscall ≫= λ out, gets fs_files ≫= λ files,
  match out with
  | Some (e, _) => fail e
  | None =>
      mret (omap (λ p, match strip_prefix (dir +:+ "/") p.1 with
                       | Some name => if contains_byte slash name then None else Some name
                       | None => None
                       end) (sorted_entries files))
  end.
Definition string_le (a b : string) : Prop := String.leb a b = true.
#[local] Instance string_le_dec : RelDecision string_le.
Proof. intros a b. unfold string_le. apply _. Defined.
Definition sort_Strings (l : list string) : list string := merge_sort string_le l.

(** The checkpoint ID of a snapshot file's name. *)
Definition checkpoint_id (name : string) : option string :=
  rev_str <$> strip_prefix (rev_str ".json") (rev_str name).

Definition LoadSnapshotsFromDisk : M (State * FS) () :=
  on_fs (wrapM "failed to create snapshot directory: " (os_MkdirAll snapshot_dir)) ≫= λ _,
  on_fs (wrapM "failed to read snapshot directory: " (os_ReadDir snapshot_dir))
    ≫= λ entries,
  let checkpointIDs := omap checkpoint_id entries in
  on_state (λ s, with_snapshots (snapshots s) (sort_Strings checkpointIDs) s).
End snapshots.

(** ** The ownership invariant

    A pending configuration is nobody else's object: not committed or last
    applied for any type, nor pending for another; and every reference is to an
    object of the heap. *)
Definition refs (e : ConfigEntry) (l : loc) : Prop :=
  Committed e = Some l ∨ Pending e = Some l ∨ LastApplied e = Some l.
(** The references that must never see a change made by a set. *)
Definition shared (e : ConfigEntry) (l : loc) : Prop :=
  Committed e = Some l ∨ LastApplied e = Some l.

Record isolated (s : State) : Prop := {
  iso_valid t e l : registry s !! t = Some e → refs e l → l ∈ dom (heap s);
  iso_shared t e t' e' l :
    registry s !! t = Some e → registry s !! t' = Some e' →
    Pending e = Some l → ¬ shared e' l;
  iso_pending t e t' e' l :
    registry s !! t = Some e → registry s !! t' = Some e' →
    Pending e = Some l → Pending e' = Some l → t = t';
}.

Lemma isolated_new : isolated NewState.
Proof. split; intros *; cbn; rewrite lookup_empty; done. Qed.

(** Replacing one entry keeps the invariant when the new entry's references are
    in the heap and do not meet those of the other entries. *)
Lemma isolated_update s t e' :
  isolated s →
  (∀ l, refs e' l → l ∈ dom (heap s)) →
  (∀ l, Pending e' = Some l → ¬ shared e' l ∧
     ∀ t1 e1, t1 ≠ t → registry s !! t1 = Some e1 → ¬ refs e1 l) →
  (∀ l, shared e' l → ∀ t1 e1, t1 ≠ t → registry s !! t1 = Some e1 → Pending e1 ≠ Some l) →
  isolated (with_registry (<[t := e']> (registry s)) s).
Proof.
  intros [Hv Hs Hp] Hv' Hp' Hs'. split; cbn.
  - intros t1 e1 l. destruct (decide (t1 = t)) as [->|Hne].
    + rewrite lookup_insert_eq. intros [= <-]. apply Hv'.
    + rewrite lookup_insert_ne by done. apply Hv.
  - intros t1 e1 t2 e2 l.
    destruct (decide (t1 = t)) as [->|Hne1], (decide (t2 = t)) as [->|Hne2];
      rewrite ?lookup_insert_eq, ?lookup_insert_ne by done; intros H1 H2 Hl; simplify_eq.
    + by apply Hp'.
    + intros Hsh. destruct (Hp' _ Hl) as [_ Ho]. apply (Ho t2 e2 Hne2 H2).
      destruct Hsh; unfold refs; auto.
    + intros Hsh. by apply (Hs' l Hsh t1 e1 Hne1 H1).
    + by apply (Hs t1 e1 t2 e2 l).
  - intros t1 e1 t2 e2 l.
    destruct (decide (t1 = t)) as [->|Hne1], (decide (t2 = t)) as [->|Hne2];
      rewrite ?lookup_insert_eq, ?lookup_insert_ne by done; intros H1 H2 Hl Hl'; simplify_eq;
      [done| | |by apply (Hp t1 e1 t2 e2 l)].
    + destruct (Hp' _ Hl) as [_ Ho]. destruct (Ho t2 e2 Hne2 H2). unfold refs; auto.
    + destruct (Hp' _ Hl') as [_ Ho]. destruct (Ho t1 e1 Hne1 H1). unfold refs; auto.
Qed.

(** Growing the heap, or changing objects in it, keeps the invariant. *)
Lemma isolated_heap s h : isolated s → dom (heap s) ⊆ dom h → isolated (with_heap h s).
Proof. intros [Hv Hs Hp] Hd. split; cbn; [|done..]. intros t e l Ht Hl. apply Hd. eauto. Qed.

Lemma alloc_fresh o s l s' :
  alloc o s = (l, s') →
  l ∉ dom (heap s) ∧ heap s' = <[l := o]> (heap s) ∧ registry s' = registry s ∧
  snapshots s' = snapshots s ∧ snapshotList s' = snapshotList s.
Proof. unfold alloc. intros [= <- <-]. split_and!; try done. apply is_fresh. Qed.
Lemma isolated_alloc o s l s' : alloc o s = (l, s') → isolated s → isolated s'.
Proof. unfold alloc. intros [= _ <-] Hi. apply isolated_heap; [done|]. set_solver. Qed.

Lemma entry_of_refs s t l :
  refs (entry_of s t) l → ∃ e, registry s !! t = Some e ∧ refs e l.
Proof.
  unfold entry_of. destruct (registry s !! t) as [e|]; cbn; [eauto|]. intros [?|[?|?]]; done.
Qed.
Lemma isolated_fresh s o l s' t e :
  isolated s → alloc o s = (l, s') → registry s' !! t = Some e → ¬ refs e l.
Proof.
  intros Hi Ha He Hr. destruct (alloc_fresh _ _ _ _ Ha) as (Hf & _ & Hreg & _).
  rewrite Hreg in He. apply Hf. by eapply iso_valid.
Qed.

(** A new object may become pending, or committed. *)
Lemma isolated_SetPending s o l s' t :
  isolated s → alloc o s = (l, s') → isolated (SetPending t (Some l) s').
Proof.
  intros Hi Ha. pose proof (isolated_alloc _ _ _ _ Ha Hi) as Hi'.
  assert (∀ t1 e1, registry s' !! t1 = Some e1 → ¬ refs e1 l) as Hno
    by exact (λ t1 e1, isolated_fresh s o l s' t1 e1 Hi Ha).
  assert (¬ refs (entry_of s' t) l) as Hent.
  { intros (e & He & Hr)%entry_of_refs. by eapply Hno. }
  destruct (alloc_fresh _ _ _ _ Ha) as (_ & Hh & _). apply isolated_update; [done|..]; cbn.
  - intros l' Hr. destruct (decide (l' = l)) as [->|Hne]; [rewrite Hh; set_solver|].
    assert (refs (entry_of s' t) l') as (e & He & Hr')%entry_of_refs.
    { destruct Hr as [?|[[=]|?]]; unfold refs; auto; congruence. }
    by eapply iso_valid.
  - intros l' [= <-]. split; [|intros; by eapply Hno].
    intros Hsh. apply Hent. destruct Hsh; unfold refs; auto.
  - intros l' Hsh t1 e1 Hne He1 Hp.
    assert (refs (entry_of s' t) l') as (e & He & Hr)%entry_of_refs
      by (destruct Hsh; unfold refs; auto).
    apply (iso_shared _ Hi' t1 e1 t e l'); try done.
    unfold entry_of in Hsh. by rewrite He in Hsh.
Qed.
Lemma isolated_LoadCommitted s o l s' t :
  isolated s → alloc o s = (l, s') → isolated (LoadCommitted t (Some l) s').
Proof.
  intros Hi Ha. pose proof (isolated_alloc _ _ _ _ Ha Hi) as Hi'.
  assert (∀ t1 e1, registry s' !! t1 = Some e1 → ¬ refs e1 l) as Hno
    by exact (λ t1 e1, isolated_fresh s o l s' t1 e1 Hi Ha).
  destruct (alloc_fresh _ _ _ _ Ha) as (_ & Hh & _). apply isolated_update; [done|..]; cbn.
  - intros l' [[= <-]|[[=]|Hl]]; cbn in *; [rewrite Hh; set_solver|].
    assert (refs (entry_of s' t) l') as (e & He & Hr)%entry_of_refs by (unfold refs; auto).
    by eapply iso_valid.
  - intros l' [=].
  - intros l' [[= <-]|Hl] t1 e1 Hne He1 Hp; cbn in *.
    + apply (Hno t1 e1 He1). unfold refs; auto.
    + assert (refs (entry_of s' t) l') as (e & He & Hr)%entry_of_refs by (unfold refs; auto).
      apply (iso_shared _ Hi' t1 e1 t e l'); try done. right.
      unfold entry_of in Hl. by rewrite He in Hl.
Qed.

Lemma isolated_entries s (f : ConfigEntry → ConfigEntry) :
  isolated s →
  (∀ e l, refs (f e) l → refs e l) → (∀ e l, Pending (f e) = Some l → Pending e = Some l) →
  (∀ e l, shared (f e) l → shared e l ∨ Pending e = Some l ∧ Pending (f e) = None) →
  isolated (with_registry (f <$> registry s) s).
Proof.
  intros [Hv Hs Hp] Hrefs Hpend Hshared. split; cbn.
  - intros t e l. rewrite lookup_fmap, fmap_Some. intros (e0 & He0 & ->) Hr. eauto.
  - intros t e t' e' l. rewrite !lookup_fmap, !fmap_Some.
    intros (e0 & He0 & ->) (e1 & He1 & ->) Hl Hsh. pose proof (Hpend _ _ Hl) as Hl0.
    destruct (Hshared _ _ Hsh) as [Hsh1|[Hl1 Hn]]; [by apply (Hs t e0 t' e1 l)|].
    assert (t = t') as -> by eauto. by simplify_eq.
  - intros t e t' e' l. rewrite !lookup_fmap, !fmap_Some.
    intros (e0 & He0 & ->) (e1 & He1 & ->) Hl Hl'. by eauto.
Qed.
Lemma isolated_CommitPending s s' : isolated s → CommitPending s = Ok s' → isolated s'.
Proof.
  unfold CommitPending. intros Hi. destruct (HasPending s); [|done]. intros [= <-].
  apply isolated_entries; [done|..]; unfold commit_entry, refs, shared; intros [? [p|] ?] l;
    cbn; naive_solver.
Qed.
Lemma isolated_RevertPending s s' : isolated s → RevertPending s = Ok s' → isolated s'.
Proof.
  intros Hi [= <-]. apply isolated_entries; [done|..]; unfold revert_entry, refs, shared;
    intros [? ? ?] l; cbn; naive_solver.
Qed.
Lemma isolated_SetLastApplied s t l :
  isolated s → l ∈ dom (heap s) →
  (∀ t' e', registry s !! t' = Some e' → Pending e' ≠ Some l) →
  isolated (SetLastApplied t (Some l) s).
Proof.
  intros Hi Hl Hnp. apply isolated_update; [done|..]; cbn.
  - intros l' Hr. destruct (decide (l' = l)) as [->|Hne].
    + done.
    + assert (refs (entry_of s t) l') as (e & He & Hr')%entry_of_refs.
      { destruct Hr as [?|[?|[=]]]; unfold refs; auto; congruence. }
      by eapply iso_valid.
  - intros l' Hl'. assert (refs (entry_of s t) l') as (e & He & _)%entry_of_refs
      by (unfold refs; auto).
    unfold entry_of in Hl'. rewrite He in Hl'. cbn in Hl'. split.
    + intros [Hc|[= <-]]; cbn in *.
      * unfold entry_of in Hc. rewrite He in Hc. apply (iso_shared _ Hi t e t e l'); try done.
        by left.
      * by apply (Hnp t e).
    + intros t1 e1 Hne He1 [?|[?|?]].
      * apply (iso_shared _ Hi t e t1 e1 l'); try done. by left.
      * by destruct Hne; eapply (iso_pending _ Hi t1 e1 t e l').
      * apply (iso_shared _ Hi t e t1 e1 l'); try done. by right.
  - intros l' [Hc|[= <-]] t1 e1 Hne He1 Hp; cbn in *.
    + assert (refs (entry_of s t) l') as (e & He & _)%entry_of_refs by (unfold refs; auto).
      unfold entry_of in Hc. rewrite He in Hc. apply (iso_shared _ Hi t1 e1 t e l'); try done.
      by left.
    + by apply (Hnp t1 e1).
Qed.

(** ** Lemmas: entries and snapshots *)

Lemma HasPending_false s :
  HasPending s = false ↔ ∀ t e, registry s !! t = Some e → Pending e = None.
Proof.
  unfold HasPending. rewrite <-not_true_iff_false, existsb_exists. split.
  - intros Hn t e He. destruct (Pending e) as [l|] eqn:Hp; [|done]. destruct Hn.
    exists (t, e). rewrite <-list_elem_of_In, elem_of_map_to_list. split; [done|].
    unfold is_pending. cbn. by rewrite Hp.
  - intros Hn ([t e] & Hin & Hp). apply list_elem_of_In, elem_of_map_to_list in Hin.
    cbn in Hp. unfold is_pending in Hp. apply bool_decide_eq_true in Hp. by apply Hp, (Hn t).
Qed.
Lemma GetPendingTypes_elem `{RangeOrder} s t :
  t ∈ GetPendingTypes s ↔ ∃ e l, registry s !! t = Some e ∧ Pending e = Some l.
Proof.
  unfold GetPendingTypes. rewrite list_elem_of_fmap. split.
  - intros ([t' e] & -> & [Hp He]%list_elem_of_filter). rewrite range_perm in He.
    apply elem_of_map_to_list in He. cbn in *. unfold is_pending in Hp.
    apply bool_decide_eq_true, not_eq_None_Some in Hp as [l Hl]. eauto.
  - intros (e & l & He & Hl). exists (t, e). split; [done|]. apply list_elem_of_filter.
    rewrite range_perm, elem_of_map_to_list. split; [|done]. cbn. unfold is_pending.
    by rewrite Hl.
Qed.

Lemma Marshal_inj v w : generic v → generic w → Marshal v = Marshal w → v = w.
Proof. intros Hv Hw He. by rewrite <-(any_enc_generic v), He, any_enc_generic. Qed.

Section prune.
Context `{OS}.

Lemma Remove_no_panic path fs : no_panic (os_Remove path fs).1.
Proof.
  unfold os_Remove, mbind, M_bind, syscall, gets. cbn.
  destruct (os_error _) as [[]|]; [done|]. by destruct (fs_files fs !! path).
Qed.
Lemma prune_one_spec id s fs :
  ∃ fs', prune_one id (s, fs) =
    (Ok (), (with_snapshots (delete id (snapshots s)) (snapshotList s) s, fs')).
Proof.
  pose proof (Remove_no_panic (getSnapshotPath id) fs) as Hr.
  unfold prune_one, mbind, M_bind, attempt, on_state, on_fs. cbn.
  destruct (os_Remove (getSnapshotPath id) fs) as [[[]|e|] fs1]; cbn in Hr; [..|done]; eauto.
Qed.

(** The loop of PruneOldSnapshots: the listed ids leave the map. *)
Lemma prune_loop l s fs :
  ∃ m fs', for_each l prune_one (s, fs) = (Ok (), (with_snapshots m (snapshotList s) s, fs')) ∧
    ∀ i, m !! i = if decide (i ∈ l) then None else snapshots s !! i.
Proof.
  revert s fs. induction l as [|id l IH]; intros s fs.
  - exists (snapshots s), fs. split; [by destruct s|]. intros i.
    by rewrite decide_False by set_solver.
  - cbn [for_each]. unfold mbind, M_bind. destruct (prune_one_spec id s fs) as [fs1 ->].
    destruct (IH (with_snapshots (delete id (snapshots s)) (snapshotList s) s) fs1)
      as (m & fs' & Hl & Hm). exists m, fs'. split; [exact Hl|]. intros i. rewrite Hm. cbn.
    destruct (decide (i ∈ l)); [by rewrite decide_True by set_solver|].
    destruct (decide (i = id)) as [->|].
    + rewrite decide_True by set_solver. apply lookup_delete_eq.
    + rewrite decide_False by set_solver. by apply lookup_delete_ne.
Qed.
Lemma PruneOldSnapshots_spec k s fs :
  ∃ m fs', PruneOldSnapshots k (s, fs) =
    (Ok (), (with_snapshots m (drop (length (snapshotList s) - k) (snapshotList s)) s, fs')) ∧
    ∀ i, m !! i = if decide (i ∈ take (length (snapshotList s) - k) (snapshotList s))
                  then None else snapshots s !! i.
Proof.
  unfold PruneOldSnapshots, mbind at 1, M_bind at 1, gets at 1. cbn [fst].
  destruct (Nat.leb_spec (length (snapshotList s)) k) as [Hle|Hgt].
  - replace (length (snapshotList s) - k)%nat with 0%nat by lia.
    exists (snapshots s), fs. split; [by destruct s|]. intros i. cbn.
    by rewrite decide_False by set_solver.
  - cbv zeta.
    destruct (prune_loop (take (length (snapshotList s) - k) (snapshotList s)) s fs)
      as (m & fs' & Hl & Hm).
    exists m, fs'. split; [|done]. unfold mbind, M_bind. by rewrite Hl.
Qed.
End prune.

(** ** Properties *)

Lemma CommitPending_none s s' : CommitPending s = Ok s' → HasPending s' = false.
Proof.
  unfold CommitPending. destruct (HasPending s); [|done]. intros [= <-].
  apply HasPending_false. intros t e. cbn. rewrite lookup_fmap, fmap_Some.
  intros ([c [p|] a] & _ & ->); done.
Qed.

(** A commit of pending changes leaves nothing pending, makes what was the
    current configuration of every type its committed one, does not change what
    is current or last applied for any type, and does not touch any
    configuration object. *)
Theorem CommitPending_spec s s' :
  CommitPending s = Ok s' →
  HasPending s' = false ∧ heap s' = heap s ∧
  ∀ t, GetCommitted t s' = GetCurrent t s ∧ GetCurrent t s' = GetCurrent t s ∧
       GetLastApplied t s' = GetLastApplied t s.
Proof.
  intros Hc. split; [by eapply CommitPending_none|]. revert Hc.
  unfold CommitPending. destruct (HasPending s) eqn:Hp; [|done]. intros [= <-].
  split; [done|].
  - intros t. unfold GetCommitted, GetCurrent, GetLastApplied. cbn. rewrite lookup_fmap.
    destruct (registry s !! t) as [[c [p|] a]|]; done.
Qed.

Definition staged_state : State :=
  let '(l1, s) := alloc (OMap (Some ∅)) NewState in
  let s := LoadCommitted "led" (Some l1) s in
  let '(l2, s) := alloc (OMap (Some {["a" := VBool true]})) s in
  SetPending "led" (Some l2) s.
Lemma CommitPending_spec_witness :
  ∃ s', CommitPending staged_state = Ok s' ∧ HasPending s' = false.
Proof.
  destruct (CommitPending staged_state) as [s'|e|w] eqn:E.
  - exists s'. split; [reflexivity|]. exact (proj1 (CommitPending_spec staged_state s' E)).
  - vm_compute in E. discriminate E.
  - vm_compute in E. discriminate E.
Defined.

(** A revert always succeeds, leaves nothing pending, makes the committed
    configuration of every type the current one again, and changes neither the
    committed and last applied configurations nor any object. *)
Theorem RevertPending_spec s :
  ∃ s', RevertPending s = Ok s' ∧ HasPending s' = false ∧ heap s' = heap s ∧
  ∀ t, GetCurrent t s' = GetCommitted t s ∧ GetCommitted t s' = GetCommitted t s ∧
       GetLastApplied t s' = GetLastApplied t s.
Proof.
  eexists. split; [done|]. split_and!; [|done|].
  - apply HasPending_false. intros t e. cbn. rewrite lookup_fmap, fmap_Some.
    intros (e0 & _ & ->). done.
  - intros t. unfold GetCommitted, GetCurrent, GetLastApplied. cbn. rewrite lookup_fmap.
    by destruct (registry s !! t).
Qed.

(** For plugin configurations, ConfigsEqual (which decides whether an apply
    may be skipped) is equality of their contents: the JSON comparison it falls
    back to identifies nothing else. *)
Theorem ConfigsEqual_generic m m' :
  generic (VMap m) → generic (VMap m') →
  ConfigsEqual (Some (OMap (Some m))) (Some (OMap (Some m'))) = true ↔ m = m'.
Proof.
  intros Hm Hm'. unfold ConfigsEqual. rewrite orb_true_iff, !bool_decide_eq_true. split.
  - intros [[= ->]|He]; [done|]. apply Marshal_inj in He; [|done..]. by injection He.
  - intros ->. by left.
Qed.

Lemma ConfigsEqual_generic_witness :
  let m : gmap string value := {["a" := VBool true]} in
  ConfigsEqual (Some (OMap (Some m))) (Some (OMap (Some m))) = true.
Proof.
  intros m. assert (generic (VMap m)) as Hm.
  { constructor. intros k v [<- <-]%lookup_singleton_Some. constructor. }
  apply (ConfigsEqual_generic m m Hm Hm). reflexivity.
Defined.

(** Pruning keeps the most recent checkpoints: when the ids are distinct,
    the list afterwards is the last [keepCount] ids (all of them if there are
    fewer), each still with its snapshot, and the snapshots of the other ids
    are gone; whatever the file system does, it neither fails nor panics. *)
Theorem PruneOldSnapshots_keeps `{OS} k s fs :
  NoDup (snapshotList s) →
  ∃ s' fs', PruneOldSnapshots k (s, fs) = (Ok (), (s', fs')) ∧
    length (snapshotList s') = Nat.min k (length (snapshotList s)) ∧
    snapshotList s' `suffix_of` snapshotList s ∧
    (∀ id, id ∈ snapshotList s' → snapshots s' !! id = snapshots s !! id) ∧
    (∀ id, id ∈ snapshotList s → id ∉ snapshotList s' → snapshots s' !! id = None).
Proof.
  intros Hnd. destruct (PruneOldSnapshots_spec k s fs) as (m & fs' & Hp & Hm).
  eexists _, fs'. split; [exact Hp|]. cbn. set (n := (length (snapshotList s) - k)%nat) in *.
  rewrite <-(take_drop n (snapshotList s)), NoDup_app in Hnd. destruct Hnd as (_ & Hd & _).
  split_and!.
  - rewrite length_drop. lia.
  - exists (take n (snapshotList s)). by rewrite take_drop.
  - intros id Hin. rewrite Hm, decide_False; [done|]. intros Ht. by apply (Hd id).
  - intros id Hin Hnot. rewrite Hm, decide_True; [done|].
    rewrite <-(take_drop n (snapshotList s)) in Hin. set_solver.
Qed.

Definition snapshot_at (t : Z) (id : string) : SystemSnapshot :=
  {| ss_Timestamp := t; ss_CheckpointID := id; ss_IPForwarding := true;
     ss_Interfaces := Some ∅; ss_Routes := []; ss_NftablesRules := "" |}.
Lemma PruneOldSnapshots_keeps_witness :
  let _ := reliable_os in
  let s := with_snapshots {["auto-1" := snapshot_at 1 "auto-1"; "auto-2" := snapshot_at 2 "auto-2"]}
             ["auto-1"; "auto-2"] NewState in
  let fs := {| fs_files := ∅; fs_tick := 0 |} in
  NoDup (snapshotList s) ∧
  ∃ s' fs', PruneOldSnapshots 1 (s, fs) = (Ok (), (s', fs')) ∧ length (snapshotList s') = 1%nat.
Proof.
  intros o s fs. assert (NoDup (snapshotList s)) as Hnd
    by (apply (bool_decide_unpack _); vm_compute; exact I).
  split; [exact Hnd|].
  destruct (PruneOldSnapshots_keeps 1 s fs Hnd) as (s' & fs' & Hp & Hl & _). eauto.
Defined.

(** Two checkpoints of the same second have the same id, and then pruning
    deletes the snapshot of an id that stays listed. *)
Theorem PruneOldSnapshots_duplicate `{OS} k s fs id l :
  snapshotList s = id :: l → length l = k → id ∈ l →
  ∃ s' fs', PruneOldSnapshots k (s, fs) = (Ok (), (s', fs')) ∧
    id ∈ snapshotList s' ∧ snapshots s' !! id = None.
Proof.
  intros Hl Hk Hin. destruct (PruneOldSnapshots_spec k s fs) as (m & fs' & Hp & Hm).
  eexists _, fs'. split; [exact Hp|]. cbn. rewrite Hm, Hl in *. cbn [length].
  replace (S (length l) - k)%nat with 1%nat by lia. cbn. split; [done|].
  by rewrite decide_True by set_solver.
Qed.

Lemma PruneOldSnapshots_duplicate_witness :
  let _ := reliable_os in
  let s := with_snapshots {["auto-1" := snapshot_at 1 "auto-1"]} ["auto-1"; "auto-1"] NewState in
  let fs := {| fs_files := ∅; fs_tick := 0 |} in
  ∃ s' fs', PruneOldSnapshots 1 (s, fs) = (Ok (), (s', fs')) ∧
    "auto-1" ∈ snapshotList s' ∧ snapshots s' !! "auto-1" = None.
Proof.
  intros o s fs. apply (PruneOldSnapshots_duplicate 1 s fs "auto-1" ["auto-1"]);
    [reflexivity|reflexivity|apply (bool_decide_unpack _); vm_compute; exact I].
Defined.

(** After a restart, "latest" is the last id in alphabetical order, here the
    older manual checkpoint, not the most recent one. *)
Example latest_after_restart :
  let _ := reliable_os in
  let fs := {| fs_files := {[
    "/var/lib/jack/snapshots/auto-200.json" := CSnapshot (snapshot_at 200 "auto-200");
    "/var/lib/jack/snapshots/manual-100.json" := CSnapshot (snapshot_at 100 "manual-100")]};
    fs_tick := 0 |} in
  (LoadSnapshot "latest" (LoadSnapshotsFromDisk (NewState, fs)).2).1
    = Ok (snapshot_at 100 "manual-100").
Proof. vm_compute. reflexivity. Qed.
