(* ===== verification/Registry.v ===== *)
(** * Registry: daemon/registry.go and the plugin handles it stores

    Every plugin value of the daemon is a [PluginLoader] ([LoadPlugin] is the
    only constructor), so the [plugin.( *PluginLoader)] assertions of the code
    succeed.  A loader is its handle to the plugin process and the metadata it
    read when it started; the process itself is outside (see [Loader.v]).
    The theorems: an invariant relating the three maps is kept by every
    operation, and a registered plugin is found by name and by namespace. *)
From S2P Require Import Prelude GoStr Types Json Value.

(** plugins/plugin.go *)
Record ServiceDescriptor := {
  sd_Name : string; sd_Description : string; sd_Methods : list string }.
Record PluginMetadata := {
  pm_Namespace : string; pm_Version : string; pm_Description : string;
  pm_Category : string; pm_ConfigPath : string; pm_DefaultConfig : gomap value;
  pm_Dependencies : list string; pm_PathPrefix : string;
}.
(** loader.go: [pl_client] identifies the client and the provider behind it. *)
Record PluginLoader := {
  pl_client : positive;
  pl_metadata : PluginMetadata;
  pl_providedServices : list ServiceDescriptor;
  pl_requiredServices : list string;
}.
Definition Metadata (l : PluginLoader) : PluginMetadata := pl_metadata l.
Definition GetProvidedServices (l : PluginLoader) : list ServiceDescriptor :=
  pl_providedServices l.
Definition GetRequiredServices (l : PluginLoader) : list string := pl_requiredServices l.

Record PluginRegistry := {
  pr_plugins : gmap string PluginLoader;
  pr_nameToNS : gmap string string;
  pr_pathPrefixes : gmap string string;
}.
Definition NewPluginRegistry : PluginRegistry :=
  {| pr_plugins := ∅; pr_nameToNS := ∅; pr_pathPrefixes := ∅ |}.

Definition Register (plugin : PluginLoader) (pluginName : string) (r : PluginRegistry)
    : res PluginRegistry :=
  let metadata := Metadata plugin in
  match pr_plugins r !! pm_Namespace metadata with
  | Some _ => Err (ErrorText ("plugin namespace '" +:+ pm_Namespace metadata
                              +:+ "' already registered"))
  | None =>
      Ok {| pr_plugins := <[pm_Namespace metadata := plugin]> (pr_plugins r);
            pr_nameToNS := <[pluginName := pm_Namespace metadata]> (pr_nameToNS r);
            pr_pathPrefixes :=
              if bool_decide (pm_PathPrefix metadata = "") then pr_pathPrefixes r
              else <[pm_Namespace metadata := pm_PathPrefix metadata]> (pr_pathPrefixes r) |}
  end.

(** The methods share their names with those of the configuration registry. *)
Module Registry.
Section registry.
Context `{RangeOrder}.

Definition Get (namespace : string) (r : PluginRegistry) : option PluginLoader :=
  pr_plugins r !! namespace.
Definition List (r : PluginRegistry) : list string := (range (pr_plugins r)).*1.

(** The reverse lookup: the first name whose namespace it is. *)
Definition name_for (namespace : string) (m : gmap string string) : option string :=
  fst <$> List.find (λ p, bool_decide (p.2 = namespace)) (range m).

Definition Unregister (namespace : string) (r : PluginRegistry) : PluginRegistry :=
  {| pr_plugins := delete namespace (pr_plugins r);
     pr_nameToNS := match name_for namespace (pr_nameToNS r) with
                    | Some name => delete name (pr_nameToNS r)
                    | None => pr_nameToNS r
                    end;
     pr_pathPrefixes := pr_pathPrefixes r |}.

Definition GetPathPrefix (namespace : string) (r : PluginRegistry) : string :=
  default "" (pr_pathPrefixes r !! namespace).
Definition GetNamespaceForPlugin (pluginName : string) (r : PluginRegistry)
    : option string := pr_nameToNS r !! pluginName.
Definition GetPluginNameForNamespace (namespace : string) (r : PluginRegistry)
    : option string := name_for namespace (pr_nameToNS r).
Definition GetAll (r : PluginRegistry) : gmap string PluginLoader := pr_plugins r.
Definition IsRegistered (namespace : string) (r : PluginRegistry) : bool :=
  bool_decide (is_Some (pr_plugins r !! namespace)).
End registry.
End Registry.
Import Registry.

(** ** The invariant *)

(** Every registered namespace is the one of its plugin and has exactly one
    plugin name, and every name leads to a registered namespace. *)
Record registry_ok (r : PluginRegistry) : Prop := {
  ro_namespace ns p : pr_plugins r !! ns = Some p → pm_Namespace (Metadata p) = ns;
  ro_registered n ns : pr_nameToNS r !! n = Some ns → is_Some (pr_plugins r !! ns);
  ro_named ns : is_Some (pr_plugins r !! ns) → ∃ n, pr_nameToNS r !! n = Some ns;
  ro_inj n n' ns : pr_nameToNS r !! n = Some ns → pr_nameToNS r !! n' = Some ns → n = n';
}.

Lemma registry_ok_new : registry_ok NewPluginRegistry.
Proof.
  split; cbn; intros *; rewrite ?lookup_empty; try done; by intros [].
Qed.

Section lemmas.
Context `{RangeOrder}.

Lemma find_range (f : string * string → bool) m k v :
  List.find f (range m) = Some (k, v) → m !! k = Some v ∧ f (k, v) = true.
Proof.
  intros [Hin Hf]%List.find_some. split; [|done].
  apply list_elem_of_In in Hin. rewrite range_perm in Hin. by apply elem_of_map_to_list.
Qed.
Lemma name_for_Some ns m n : name_for ns m = Some n → m !! n = Some ns.
Proof.
  unfold name_for. destruct (List.find _ _) as [[k v]|] eqn:E; [|done]. intros [= <-].
  apply find_range in E as [Hk Hb%bool_decide_eq_true]. by cbn in *; subst.
Qed.
Lemma name_for_None ns m n : name_for ns m = None → m !! n ≠ Some ns.
Proof.
  unfold name_for. destruct (List.find _ _) as [|] eqn:E; [done|]. intros _ Hn.
  assert (In (n, ns) (range m)) as Hin.
  { apply list_elem_of_In. rewrite range_perm. by apply elem_of_map_to_list. }
  pose proof (List.find_none _ _ E _ Hin) as Hb. cbn in Hb.
  by apply bool_decide_eq_false in Hb.
Qed.
(** With the invariant the reverse lookup does not depend on the order. *)
Lemma name_for_ok r n ns :
  registry_ok r → pr_nameToNS r !! n = Some ns → name_for ns (pr_nameToNS r) = Some n.
Proof.
  intros Hr Hn. destruct (name_for ns (pr_nameToNS r)) as [n'|] eqn:E.
  - f_equal. apply name_for_Some in E. by eapply (ro_inj _ Hr).
  - by eapply name_for_None in E.
Qed.

Lemma Register_inv p name r r' :
  Register p name r = Ok r' →
  pr_plugins r !! pm_Namespace (Metadata p) = None ∧
  pr_plugins r' = <[pm_Namespace (Metadata p) := p]> (pr_plugins r) ∧
  pr_nameToNS r' = <[name := pm_Namespace (Metadata p)]> (pr_nameToNS r).
Proof.
  unfold Register. destruct (pr_plugins r !! _) eqn:E; [done|]. by intros [= <-].
Qed.

Lemma Register_ok p name r r' :
  registry_ok r → pr_nameToNS r !! name = None → Register p name r = Ok r' → registry_ok r'.
Proof.
  intros [Hns Hreg Hnamed Hinj] Hname (Hfree & Hp & Hn)%Register_inv.
  set (ns := pm_Namespace (Metadata p)) in *.
  assert (∀ n, pr_nameToNS r !! n ≠ Some ns) as Hnot.
  { intros n [q Hq]%Hreg. congruence. }
  split; rewrite ?Hp, ?Hn.
  - intros ns' p' [[<- <-]|[_ Hl]]%lookup_insert_Some; [done|by apply Hns].
  - intros n ns' [[_ <-]|[_ Hl]]%lookup_insert_Some; rewrite lookup_insert_is_Some;
      [by left|]. destruct (decide (ns = ns')); [by left|right; eauto].
  - intros ns' [<-|[Hne Hs]]%lookup_insert_is_Some; [exists name; apply lookup_insert_eq|].
    destruct (Hnamed _ Hs) as [n Hl]. exists n. rewrite lookup_insert_ne; [done|]. congruence.
  - intros n n' ns' [[<- <-]|[Hne1 Hl1]]%lookup_insert_Some
      [[<- He]|[Hne2 Hl2]]%lookup_insert_Some; try done.
    + by destruct (Hnot n').
    + subst. by destruct (Hnot n).
    + by eapply Hinj.
Qed.
Lemma Unregister_name r n ns :
  registry_ok r → pr_nameToNS r !! n = Some ns →
  pr_nameToNS (Unregister ns r) = delete n (pr_nameToNS r).
Proof. intros Hr Hn. cbn. by rewrite (name_for_ok _ _ _ Hr Hn). Qed.
Lemma Unregister_ok ns r : registry_ok r → registry_ok (Unregister ns r).
Proof.
  intros Hr. pose proof Hr as [Hns Hreg Hnamed Hinj].
  destruct (name_for ns (pr_nameToNS r)) as [n|] eqn:E.
  - apply name_for_Some in E. split; rewrite ?(Unregister_name _ _ _ Hr E); cbn.
    + intros ns' p' [_ Hl]%lookup_delete_Some. by apply Hns.
    + intros n' ns' [Hne Hl]%lookup_delete_Some. apply lookup_delete_is_Some.
      split; [|eauto]. intros <-. apply Hne. eauto.
    + intros ns' [Hne Hs]%lookup_delete_is_Some. destruct (Hnamed _ Hs) as [n' Hl].
      exists n'. rewrite lookup_delete_ne; [done|]. congruence.
    + intros n1 n2 ns' [_ H1]%lookup_delete_Some [_ H2]%lookup_delete_Some. eauto.
  - split; cbn; rewrite ?E.
    + intros ns' p' [_ Hl]%lookup_delete_Some. by apply Hns.
    + intros n' ns' Hl. apply lookup_delete_is_Some. split; [|eauto].
      intros <-. by eapply name_for_None in E.
    + intros ns' [Hne Hs]%lookup_delete_is_Some. eauto.
    + eauto.
Qed.
End lemmas.

(** ** Properties *)

(** Registering a plugin under an unused name and unregistering any
    namespace keep the registry consistent: namespaces are those of their
    plugins, each has exactly one plugin name, and no name leads to a namespace
    that is not registered. *)
Theorem registry_invariant `{RangeOrder} r :
  registry_ok r →
  (∀ ns, registry_ok (Unregister ns r)) ∧
  ∀ p name r', pr_nameToNS r !! name = None → Register p name r = Ok r' → registry_ok r'.
Proof. intros Hr. split; intros *; [by apply Unregister_ok|by apply Register_ok]. Qed.

Definition led_plugin : PluginLoader :=
  {| pl_client := 1; pl_providedServices := []; pl_requiredServices := [];
     pl_metadata := {| pm_Namespace := "led"; pm_Version := "1.0"; pm_Description := "";
       pm_Category := "hardware"; pm_ConfigPath := ""; pm_DefaultConfig := None;
       pm_Dependencies := []; pm_PathPrefix := "leds" |} |}.
Lemma registry_invariant_witness :
  let _ := default_order in registry_ok (Unregister "led" NewPluginRegistry).
Proof.
  intros o. exact (proj1 (registry_invariant NewPluginRegistry registry_ok_new) "led").
Defined.

(** Once registered, a plugin is found: by its namespace, its namespace by
    its name, and its name by its namespace (whatever order the map is walked
    in); registering its namespace a second time is an error; and after
    unregistering, neither the namespace nor the name is known. *)
Theorem Register_lookup `{RangeOrder} p name r r' :
  registry_ok r → pr_nameToNS r !! name = None → Register p name r = Ok r' →
  let ns := pm_Namespace (Metadata p) in
  Get ns r' = Some p ∧ IsRegistered ns r' = true ∧ ns ∈ List r' ∧
  GetNamespaceForPlugin name r' = Some ns ∧ GetPluginNameForNamespace ns r' = Some name ∧
  (∀ q name', pm_Namespace (Metadata q) = ns → ∃ e, Register q name' r' = Err e) ∧
  Get ns (Unregister ns r') = None ∧ GetNamespaceForPlugin name (Unregister ns r') = None.
Proof.
  intros Hr Hname Hreg ns. pose proof (Register_ok _ _ _ _ Hr Hname Hreg) as Hr'.
  apply Register_inv in Hreg as (Hfree & Hp & Hn). fold ns in Hfree, Hp, Hn.
  assert (pr_plugins r' !! ns = Some p) as Hget by (rewrite Hp; apply lookup_insert_eq).
  assert (pr_nameToNS r' !! name = Some ns) as Hnm by (rewrite Hn; apply lookup_insert_eq).
  split_and!; try done.
  - unfold IsRegistered. rewrite Hget. by apply bool_decide_eq_true.
  - unfold List. apply list_elem_of_fmap. exists (ns, p). split; [done|].
    rewrite range_perm. by apply elem_of_map_to_list.
  - unfold GetPluginNameForNamespace. by rewrite (name_for_ok _ _ _ Hr' Hnm).
  - intros q name' Hq. unfold Register. rewrite Hq, Hget. eauto.
  - apply lookup_delete_eq.
  - unfold GetNamespaceForPlugin. rewrite (Unregister_name _ _ _ Hr' Hnm).
    apply lookup_delete_eq.
Qed.

Lemma Register_lookup_witness :
  let _ := default_order in
  ∃ r', Register led_plugin "leds" NewPluginRegistry = Ok r' ∧
    GetPluginNameForNamespace "led" r' = Some "leds".
Proof.
  intros o. eexists. split; [reflexivity|].
  exact (proj1 (proj2 (proj2 (proj2 (proj2
    (Register_lookup led_plugin "leds" NewPluginRegistry _ registry_ok_new eq_refl eq_refl)))))).
Defined.
