(* ===== verification/Services.v ===== *)
(** * Services: daemon/service_registry.go

    Which plugin provides which service, and which services are ready.  A ready
    channel is a reference (waiters hold it), so channels live in a table of
    their closed flags; closing a closed or a nil channel panics.  The mutex
    makes each method atomic.  The theorems: the five maps stay consistent and
    a channel is closed exactly when its service is ready; marking ready never
    panics; unregistering a plugin one of whose services is ready does. *)
From S2P Require Import Prelude GoStr Types Json Value Registry.

Definition chan := positive.

Record ServiceRegistry := {
  sr_serviceProviders : gmap string string;
  sr_pluginServices : gmap string (list string);
  sr_plugins : gmap string PluginLoader;
  sr_serviceReady : gmap string bool;
  sr_readyChannels : gmap string chan;
  sr_chans : gmap chan bool;   (* every channel made, and whether it is closed *)
}.
Definition NewServiceRegistry : ServiceRegistry :=
  {| sr_serviceProviders := ∅; sr_pluginServices := ∅; sr_plugins := ∅;
     sr_serviceReady := ∅; sr_readyChannels := ∅; sr_chans := ∅ |}.

(** [close(ch)], [None] being the nil channel. *)
Definition close_chan (ch : option chan) (chans : gmap chan bool) : res (gmap chan bool) :=
  match ch with
  | None => Panic "close of nil channel"
  | Some c =>
      match chans !! c with
      | Some true => Panic "close of closed channel"
      | _ => Ok (<[c := true]> chans)
      end
  end.

(** [r.pluginServices[namespace]]: nil when absent. *)
Definition services_of (namespace : string) (r : ServiceRegistry) : list string :=
  default [] (sr_pluginServices r !! namespace).
Definition is_ready (serviceName : string) (r : ServiceRegistry) : bool :=
  default false (sr_serviceReady r !! serviceName).

(** One iteration of RegisterPlugin's loop. *)
Definition register_service (namespace : string) (service : ServiceDescriptor)
    : M ServiceRegistry () := λ r,
  let name := sd_Name service in
  match sr_serviceProviders r !! name with
  | Some existingProvider =>
      (Err (ErrorText ("service '" +:+ name +:+ "' is already provided by plugin '"
                       +:+ existingProvider +:+ "'")), r)
  | None =>
      let c := fresh (dom (sr_chans r)) in
      (Ok (), {|
        sr_serviceProviders := <[name := namespace]> (sr_serviceProviders r);
        sr_pluginServices := <[namespace := services_of namespace r ++ [name]]>
                               (sr_pluginServices r);
        sr_plugins := sr_plugins r;
        sr_serviceReady := <[name := false]> (sr_serviceReady r);
        sr_readyChannels := <[name := c]> (sr_readyChannels r);
        sr_chans := <[c := false]> (sr_chans r) |})
  end.
Definition set_plugin (namespace : string) (plugin : PluginLoader) (r : ServiceRegistry)
    : ServiceRegistry :=
  {| sr_serviceProviders := sr_serviceProviders r; sr_pluginServices := sr_pluginServices r;
     sr_plugins := <[namespace := plugin]> (sr_plugins r);
     sr_serviceReady := sr_serviceReady r; sr_readyChannels := sr_readyChannels r;
     sr_chans := sr_chans r |}.
(** An error leaves the services before the clashing one registered. *)
Definition RegisterPlugin (namespace : string) (plugin : PluginLoader)
    (services : list ServiceDescriptor) : M ServiceRegistry () :=
  modify (set_plugin namespace plugin) ≫= λ _,
  for_each services (register_service namespace).

(** One iteration of UnregisterPlugin's loop. *)
Definition unregister_service (serviceName : string) : M ServiceRegistry () := λ r,
  let closed :=
    match sr_readyChannels r !! serviceName with
    | Some ch => close_chan (Some ch) (sr_chans r)
    | None => Ok (sr_chans r)
    end in
  let r' chans := {|
    sr_serviceProviders := delete serviceName (sr_serviceProviders r);
    sr_pluginServices := sr_pluginServices r; sr_plugins := sr_plugins r;
    sr_serviceReady := delete serviceName (sr_serviceReady r);
    sr_readyChannels := delete serviceName (sr_readyChannels r);
    sr_chans := chans |} in
  match closed with
  | Ok chans => (Ok (), r' chans)
  | Err e => (Err e, r)
  | Panic w => (Panic w, r)
  end.
Definition forget_plugin (namespace : string) (r : ServiceRegistry) : ServiceRegistry :=
  {| sr_serviceProviders := sr_serviceProviders r;
     sr_pluginServices := delete namespace (sr_pluginServices r);
     sr_plugins := delete namespace (sr_plugins r); sr_serviceReady := sr_serviceReady r;
     sr_readyChannels := sr_readyChannels r; sr_chans := sr_chans r |}.
Definition UnregisterPlugin (namespace : string) : M ServiceRegistry () :=
  gets (services_of namespace) ≫= λ services,
  for_each services unregister_service ≫= λ _,
  modify (forget_plugin namespace).

Definition GetServiceProvider (serviceName : string) (r : ServiceRegistry) : option string :=
  sr_serviceProviders r !! serviceName.

(** The plugin CallService forwards the call to; the call itself is an RPC. *)
Definition CallService (serviceName : string) (r : ServiceRegistry) : res PluginLoader :=
  match sr_serviceProviders r !! serviceName with
  | None => Err (ErrorText ("service '" +:+ serviceName +:+ "' not found"))
  | Some providerNamespace =>
      ok_or (ErrorText ("provider plugin '" +:+ providerNamespace +:+ "' for service '"
                        +:+ serviceName +:+ "' not found"))
        (sr_plugins r !! providerNamespace)
  end.

Definition ValidateServiceDependencies (requiredServices : list string) (r : ServiceRegistry)
    : option error :=
  (λ s, ErrorText ("required service '" +:+ s +:+ "' is not available")) <$>
    List.find (λ s, bool_decide (sr_serviceProviders r !! s = None)) requiredServices.

Definition ListServices (r : ServiceRegistry) : gmap string string := sr_serviceProviders r.

Definition MarkServiceReady (serviceName : string) : M ServiceRegistry () := λ r,
  match sr_serviceProviders r !! serviceName with
  | None => (Ok (), r)
  | Some _ =>
      if is_ready serviceName r then (Ok (), r)
      else
        match close_chan (sr_readyChannels r !! serviceName) (sr_chans r) with
        | Ok chans => (Ok (), {|
            sr_serviceProviders := sr_serviceProviders r;
            sr_pluginServices := sr_pluginServices r; sr_plugins := sr_plugins r;
            sr_serviceReady := <[serviceName := true]> (sr_serviceReady r);
            sr_readyChannels := sr_readyChannels r; sr_chans := chans |})
        | Err e => (Err e, r)
        | Panic w => (Panic w, r)
        end
  end.

Definition IsServiceReady (serviceName : string) (r : ServiceRegistry) : bool :=
  is_ready serviceName r.
Definition AreServicesReady (serviceNames : list string) (r : ServiceRegistry) : bool :=
  forallb (λ s, is_ready s r) serviceNames.

(** WaitForService in two steps, for other operations can come between: the
    look at the maps under the lock ([Ok None]: already ready; [Ok (Some ch)]:
    wait on [ch]), and the [select], whose possible results are listed ([[]]:
    still blocked); [ctxErr] is the context's error once it is done. *)
Definition wait_begin (serviceName : string) (r : ServiceRegistry) : res (option chan) :=
  match sr_readyChannels r !! serviceName with
  | None => Err (ErrorText ("service '" +:+ serviceName +:+ "' not found"))
  | Some ch => Ok (if is_ready serviceName r then None else Some ch)
  end.
Definition wait_select (serviceName : string) (ch : chan) (ctxErr : option error)
    (r : ServiceRegistry) : list (option error) :=
  (if default false (sr_chans r !! ch) then [None] else []) ++
  match ctxErr with
  | Some e => [Some (Wrapf ("timeout waiting for service '" +:+ serviceName +:+ "': ") e)]
  | None => []
  end.

(** ** The invariant *)

(** The per-service maps have the same services, and every service has its own
    channel, closed exactly when the service is ready. *)
Record channels_ok (r : ServiceRegistry) : Prop := {
  co_ready s : is_Some (sr_serviceProviders r !! s) ↔ is_Some (sr_serviceReady r !! s);
  co_chan s : is_Some (sr_serviceProviders r !! s) ↔ is_Some (sr_readyChannels r !! s);
  co_closed s c : sr_readyChannels r !! s = Some c → sr_chans r !! c = Some (is_ready s r);
  co_inj s s' c : sr_readyChannels r !! s = Some c → sr_readyChannels r !! s' = Some c → s = s';
}.
(** A plugin's list holds exactly the services it provides, once each. *)
Definition lists_ok (r : ServiceRegistry) : Prop :=
  ∀ ns, NoDup (services_of ns r) ∧
    ∀ s, s ∈ services_of ns r ↔ sr_serviceProviders r !! s = Some ns.
Definition services_ok (r : ServiceRegistry) : Prop := channels_ok r ∧ lists_ok r.

Lemma services_ok_new : services_ok NewServiceRegistry.
Proof.
  split; [split; cbn; intros *; rewrite ?lookup_empty; done|].
  intros ns. split; [constructor|]. intros s. cbn. rewrite lookup_empty.
  unfold services_of. cbn. rewrite lookup_empty. cbn. set_solver.
Qed.

Lemma co_get r s :
  channels_ok r → is_Some (sr_serviceProviders r !! s) →
  ∃ c, sr_readyChannels r !! s = Some c ∧ sr_chans r !! c = Some (is_ready s r).
Proof.
  intros Hr Hs. apply (co_chan _ Hr) in Hs as [c Hc]. exists c. split; [done|].
  by apply (co_closed _ Hr).
Qed.

Lemma channels_ok_mark r s c :
  channels_ok r → is_Some (sr_serviceProviders r !! s) → sr_readyChannels r !! s = Some c →
  channels_ok {|
    sr_serviceProviders := sr_serviceProviders r; sr_pluginServices := sr_pluginServices r;
    sr_plugins := sr_plugins r; sr_serviceReady := <[s := true]> (sr_serviceReady r);
    sr_readyChannels := sr_readyChannels r; sr_chans := <[c := true]> (sr_chans r) |}.
Proof.
  intros Hr Hs Hc. pose proof Hr as [Hready Hchan Hclosed Hinj]. split; cbn.
  - intros s'. rewrite lookup_insert_is_Some', Hready.
    pose proof (proj1 (Hready s) Hs). naive_solver.
  - done.
  - intros s' c' Hc'. unfold is_ready. cbn. destruct (decide (c' = c)) as [->|Hne].
    + assert (s' = s) as -> by eauto. by rewrite !lookup_insert_eq.
    + rewrite !lookup_insert_ne by congruence. by apply Hclosed.
  - done.
Qed.

Lemma MarkServiceReady_spec s r :
  services_ok r →
  ∃ r', MarkServiceReady s r = (Ok (), r') ∧ services_ok r' ∧
    sr_serviceProviders r' = sr_serviceProviders r ∧
    sr_pluginServices r' = sr_pluginServices r ∧ sr_plugins r' = sr_plugins r ∧
    ∀ s', is_ready s' r' = (bool_decide (s' = s ∧ is_Some (sr_serviceProviders r !! s))
                            || is_ready s' r).
Proof.
  intros [Hr Hl]. unfold MarkServiceReady.
  destruct (sr_serviceProviders r !! s) as [p|] eqn:Hp.
  2:{ exists r. split_and!; try done. intros s'. rewrite bool_decide_eq_false_2; [done|].
      intros [_ []]. done. }
  destruct (is_ready s r) eqn:Hready.
  { exists r. split_and!; try done. intros s'. destruct (decide (s' = s)) as [->|].
    - by rewrite Hready, orb_true_r.
    - rewrite bool_decide_eq_false_2; naive_solver. }
  destruct (co_get r s Hr ltac:(eauto)) as (c & Hc & Hcl). rewrite Hc. cbn [close_chan].
  rewrite Hcl, Hready. eexists. split; [done|]. split_and!; try done.
  - split; [apply channels_ok_mark; eauto|]. exact Hl.
  - intros s'. unfold is_ready at 1. cbn. destruct (decide (s' = s)) as [->|Hne].
    + rewrite lookup_insert_eq, bool_decide_eq_true_2; [done|]. eauto.
    + rewrite lookup_insert_ne, bool_decide_eq_false_2; [done| |done]. naive_solver.
Qed.

Lemma channels_ok_register ns sd r r' res :
  channels_ok r → register_service ns sd r = (res, r') → channels_ok r'.
Proof.
  intros Hr. unfold register_service.
  destruct (sr_serviceProviders r !! sd_Name sd) as [p|] eqn:Hp; [by intros [= _ <-]|].
  intros [= _ <-]. pose proof Hr as [Hready Hchan Hclosed Hinj].
  set (c := fresh (dom (sr_chans r))).
  assert (sr_chans r !! c = None) as Hc by (apply not_elem_of_dom, is_fresh).
  split; cbn.
  - intros s. rewrite !lookup_insert_is_Some', Hready. done.
  - intros s. rewrite !lookup_insert_is_Some', Hchan. done.
  - intros s c'. unfold is_ready. cbn.
    intros [[<- <-]|[Hne Hl]]%lookup_insert_Some; [by rewrite !lookup_insert_eq|].
    apply Hclosed in Hl as Hl'. rewrite lookup_insert_ne by congruence.
    by rewrite (lookup_insert_ne _ _ s).
  - intros s s' c' [[<- <-]|[Hne Hl]]%lookup_insert_Some
      [[<- He]|[Hne' Hl']]%lookup_insert_Some; try done.
    + apply Hclosed in Hl'. congruence.
    + apply Hclosed in Hl. congruence.
    + eauto.
Qed.
Lemma lists_ok_register ns sd r r' res :
  lists_ok r → register_service ns sd r = (res, r') → lists_ok r'.
Proof.
  intros Hl. unfold register_service.
  destruct (sr_serviceProviders r !! sd_Name sd) as [p|] eqn:Hp; [by intros [= _ <-]|].
  intros [= _ <-] ns'. unfold services_of in *. cbn. destruct (Hl ns') as [Hnd Hs].
  destruct (decide (ns' = ns)) as [->|Hne].
  - rewrite lookup_insert_eq. cbn. fold (services_of ns r) in *. split.
    + apply NoDup_app. split_and!; [done| |apply NoDup_singleton].
      intros s Hin ->%list_elem_of_singleton. apply Hs in Hin. congruence.
    + intros s. rewrite elem_of_app, list_elem_of_singleton, Hs, lookup_insert_Some.
      destruct (decide (s = sd_Name sd)); naive_solver congruence.
  - rewrite lookup_insert_ne by done. split; [done|]. intros s.
    rewrite Hs, lookup_insert_Some. naive_solver congruence.
Qed.
Lemma services_ok_RegisterPlugin ns p sds r r' res :
  services_ok r → RegisterPlugin ns p sds r = (res, r') → services_ok r'.
Proof.
  intros Hr. unfold RegisterPlugin, mbind, M_bind, modify.
  assert (services_ok (set_plugin ns p r)) as Hr'.
  { destruct Hr as [[? ? ? ?] Hl]. split; [split|]; done. }
  revert Hr'. generalize (set_plugin ns p r). clear Hr r.
  induction sds as [|sd sds IH]; intros r Hr; cbn; [by intros [= _ <-]|].
  unfold mbind, M_bind. destruct (register_service ns sd r) as [[[]|e|w] r1] eqn:E;
    destruct Hr as [Hc Hl]; pose proof (channels_ok_register _ _ _ _ _ Hc E);
    pose proof (lists_ok_register _ _ _ _ _ Hl E).
  - by apply IH.
  - by intros [= _ <-].
  - by intros [= _ <-].
Qed.

Lemma safe_RegisterPlugin ns p sds : safe (RegisterPlugin ns p sds).
Proof.
  apply safe_bind; [apply safe_modify|]. intros _. apply safe_for_each. intros sd r.
  unfold register_service. by destruct (sr_serviceProviders r !! sd_Name sd).
Qed.

(** ** Lemmas: unregistering *)

Lemma unregister_service_ok s r :
  channels_ok r → is_Some (sr_serviceProviders r !! s) → is_ready s r = false →
  ∃ r', unregister_service s r = (Ok (), r') ∧ channels_ok r' ∧
    sr_serviceProviders r' = delete s (sr_serviceProviders r) ∧
    sr_pluginServices r' = sr_pluginServices r ∧
    (∀ s', s' ≠ s → is_ready s' r' = is_ready s' r).
Proof.
  intros Hr Hs Hn. destruct (co_get r s Hr Hs) as (c & Hc & Hcl).
  unfold unregister_service. rewrite Hc. cbn [close_chan]. rewrite Hcl, Hn.
  eexists. split; [done|]. pose proof Hr as [Hready Hchan Hclosed Hinj].
  split_and!; try done; [split; cbn|].
  - intros s'. rewrite !lookup_delete_is_Some, Hready. done.
  - intros s'. rewrite !lookup_delete_is_Some, Hchan. done.
  - intros s' c' [Hne Hl]%lookup_delete_Some. unfold is_ready. cbn.
    rewrite (lookup_delete_ne _ _ s') by done. rewrite lookup_insert_ne; [by apply Hclosed|].
    intros <-. by apply Hne; eapply Hinj.
  - intros s1 s2 c' [_ H1]%lookup_delete_Some [_ H2]%lookup_delete_Some. eauto.
  - intros s' Hne. unfold is_ready. cbn. by rewrite lookup_delete_ne.
Qed.
Lemma unregister_service_panic s r :
  channels_ok r → is_Some (sr_serviceProviders r !! s) → is_ready s r = true →
  ∃ w, unregister_service s r = (Panic w, r).
Proof.
  intros Hr Hs Hn. destruct (co_get r s Hr Hs) as (c & Hc & Hcl).
  unfold unregister_service. rewrite Hc. cbn [close_chan]. rewrite Hcl, Hn. eauto.
Qed.

Lemma unregister_loop l r :
  channels_ok r → NoDup l → (∀ s, s ∈ l → is_Some (sr_serviceProviders r !! s)) →
  if existsb (λ s, is_ready s r) l
  then ∃ w r', for_each l unregister_service r = (Panic w, r')
  else ∃ r', for_each l unregister_service r = (Ok (), r') ∧ channels_ok r' ∧
    sr_pluginServices r' = sr_pluginServices r ∧
    ∀ s, sr_serviceProviders r' !! s = if decide (s ∈ l) then None
                                       else sr_serviceProviders r !! s.
Proof.
  revert r. induction l as [|s l IH]; intros r Hr Hnd Hl.
  { exists r. split_and!; try done. }
  apply NoDup_cons in Hnd as [Hni Hnd]. cbn [existsb for_each].
  destruct (is_ready s r) eqn:Hn; cbn [orb].
  - destruct (unregister_service_panic s r Hr (Hl s ltac:(set_solver)) Hn) as [w Hw].
    unfold mbind, M_bind. rewrite Hw. eauto.
  - destruct (unregister_service_ok s r Hr (Hl s ltac:(set_solver)) Hn)
      as (r1 & Hu & Hr1 & Hp1 & Hs1 & Hn1).
    assert (existsb (λ s, is_ready s r) l = existsb (λ s, is_ready s r1) l) as ->.
    { clear -Hni Hn1. induction l as [|s' l IH]; [done|]. cbn.
      rewrite (Hn1 s') by set_solver. rewrite IH by set_solver. done. }
    specialize (IH r1 Hr1 Hnd). unfold mbind, M_bind. rewrite Hu.
    assert (∀ s', s' ∈ l → is_Some (sr_serviceProviders r1 !! s')) as Hl1.
    { intros s' Hs'. rewrite Hp1, lookup_delete_ne by set_solver. apply Hl. set_solver. }
    specialize (IH Hl1). destruct (existsb (λ s, is_ready s r1) l); [done|].
    destruct IH as (r' & Hr' & Hok & Hps & Hlk). exists r'. split_and!; try done; [congruence|].
    intros s'. rewrite Hlk, Hp1. destruct (decide (s' = s)) as [->|Hne].
    + rewrite lookup_delete_eq, (decide_True (P:=s ∈ s :: l)) by set_solver. by case_decide.
    + rewrite lookup_delete_ne by done. destruct (decide (s' ∈ l)).
      * by rewrite decide_True by set_solver.
      * by rewrite decide_False by set_solver.
Qed.

Lemma UnregisterPlugin_spec ns r :
  services_ok r →
  if existsb (λ s, is_ready s r) (services_of ns r)
  then ∃ w r', UnregisterPlugin ns r = (Panic w, r')
  else ∃ r', UnregisterPlugin ns r = (Ok (), r') ∧ services_ok r' ∧
    ∀ s, sr_serviceProviders r' !! s =
         if decide (sr_serviceProviders r !! s = Some ns) then None
         else sr_serviceProviders r !! s.
Proof.
  intros [Hr Hl]. destruct (Hl ns) as [Hnd Hs].
  pose proof (unregister_loop (services_of ns r) r Hr Hnd) as Hloop.
  specialize (Hloop ltac:(intros s ?%Hs; eauto)).
  unfold UnregisterPlugin, mbind, M_bind, gets.
  destruct (existsb _ _).
  - destruct Hloop as (w & r' & ->). eauto.
  - destruct Hloop as (r' & -> & Hr' & Hps & Hlk). eexists. split; [done|].
    assert (∀ s, sr_serviceProviders r' !! s =
         if decide (sr_serviceProviders r !! s = Some ns) then None
         else sr_serviceProviders r !! s) as Hlk'.
    { intros s. rewrite Hlk. destruct (decide (s ∈ services_of ns r)) as [Hin|Hin].
      - apply Hs in Hin. by rewrite decide_True.
      - rewrite Hs in Hin. by rewrite decide_False. }
    split; [|done]. split; [destruct Hr'; by split|].
    intros ns'. unfold services_of. cbn. rewrite Hps. destruct (decide (ns' = ns)) as [->|Hne].
    + rewrite lookup_delete_eq. split; [constructor|]. intros s. cbn. rewrite Hlk'.
      case_decide; split; [set_solver|done|set_solver|congruence].
    + rewrite lookup_delete_ne by done. destruct (Hl ns') as [Hnd' Hs'].
      split; [done|]. intros s. rewrite Hlk'. unfold services_of in Hs'. rewrite Hs'.
      case_decide; naive_solver congruence.
Qed.

(** ** Properties *)

(** One use of the registry by the daemon. *)
Inductive service_step : ServiceRegistry → ServiceRegistry → Prop :=
| step_register ns p sds r r' res :
    RegisterPlugin ns p sds r = (res, r') → service_step r r'
| step_ready s r r' res : MarkServiceReady s r = (res, r') → service_step r r'
| step_unregister ns r r' :
    UnregisterPlugin ns r = (Ok (), r') → service_step r r'.

Lemma services_ok_step r r' : service_step r r' → services_ok r → services_ok r'.
Proof.
  intros [] Hr.
  - by eapply services_ok_RegisterPlugin.
  - destruct (MarkServiceReady_spec s r0 Hr) as (r1 & E & ? & _). congruence.
  - pose proof (UnregisterPlugin_spec ns r0 Hr) as Hs. destruct (existsb _ _).
    + destruct Hs as (w & r1 & E). congruence.
    + destruct Hs as (r1 & E & ? & _). congruence.
Qed.

(** C31: in every state the daemon can bring the service registry to (a failed
    registration included), its maps are consistent: providers, ready flags and
    channels for the same services, a channel of its own per service, closed
    exactly when the service is ready, and each plugin's list holding exactly
    the services it provides, once. *)
Theorem services_reachable_ok r : rtc service_step NewServiceRegistry r → services_ok r.
Proof.
  intros Hr. cut (∀ r0, services_ok r0 → rtc service_step r0 r → services_ok r).
  { intros H. by apply (H _ services_ok_new). }
  clear Hr. intros r0 H0 Hr. induction Hr as [|r1 r2 r3 Hs _ IH]; [done|].
  apply IH. by eapply services_ok_step.
Qed.

Definition db_service : ServiceDescriptor :=
  {| sd_Name := "database"; sd_Description := ""; sd_Methods := ["Query"] |}.
Definition db_registry : ServiceRegistry :=
  (RegisterPlugin "sqlite3" led_plugin [db_service] NewServiceRegistry).2.
Lemma services_reachable_ok_witness : services_ok db_registry.
Proof.
  apply (services_reachable_ok db_registry).
  apply (rtc_once (R:=service_step)).
  exact (step_register "sqlite3" led_plugin [db_service] NewServiceRegistry _ (Ok ()) eq_refl).
Defined.

(** On a consistent registry MarkServiceReady never panics (no channel is
    closed twice), makes exactly the named service ready if it exists, and wakes
    its waiters: a wait that had started on its channel can return nil. *)
Theorem MarkServiceReady_wakes s r ch :
  services_ok r → wait_begin s r = Ok (Some ch) → is_Some (sr_serviceProviders r !! s) →
  ∃ r', MarkServiceReady s r = (Ok (), r') ∧ services_ok r' ∧
    (∀ s', is_ready s' r' = (bool_decide (s' = s) || is_ready s' r)) ∧
    wait_begin s r' = Ok None ∧ ∀ ctxErr, None ∈ wait_select s ch ctxErr r'.
Proof.
  intros Hr Hw Hs. pose proof Hr as [Hc Hl].
  destruct (MarkServiceReady_spec s r Hr) as (r' & Hm & Hr' & Hp & _ & _ & Hready).
  exists r'. split; [done|]. split; [done|].
  assert (∀ s', is_ready s' r' = (bool_decide (s' = s) || is_ready s' r)) as Hrd.
  { intros s'. rewrite Hready. f_equal. by apply bool_decide_ext; naive_solver. }
  split; [done|]. assert (is_ready s r' = true) as Hs' by by rewrite Hrd, bool_decide_eq_true_2.
  destruct (co_get r' s (proj1 Hr') ltac:(by rewrite Hp)) as (c & Hch & Hcl).
  assert (c = ch) as ->.
  { unfold wait_begin in Hw. destruct (sr_readyChannels r !! s) as [c'|] eqn:Hc'; [|done].
    assert (sr_readyChannels r' = sr_readyChannels r) as Heq.
    { clear -Hm. unfold MarkServiceReady in Hm. repeat case_match; by simplify_eq. }
    rewrite Heq in Hch. destruct (is_ready s r); congruence. }
  split.
  - unfold wait_begin. by rewrite Hch, Hs'.
  - intros ctxErr. unfold wait_select. rewrite Hcl, Hs'. cbn. set_solver.
Qed.

Lemma MarkServiceReady_wakes_witness :
  services_ok db_registry ∧
  ∃ r', MarkServiceReady "database" db_registry = (Ok (), r') ∧ wait_begin "database" r' = Ok None.
Proof.
  assert (services_ok db_registry) as Hok.
  { exact (services_ok_RegisterPlugin "sqlite3" led_plugin [db_service] NewServiceRegistry _ (Ok ())
      services_ok_new eq_refl). }
  split; [exact Hok|].
  destruct (MarkServiceReady_wakes "database" db_registry 1%positive Hok eq_refl
    ltac:(eexists; reflexivity)) as (r' & Hm & _ & _ & Hw & _).
  eauto.
Defined.

(** Unregistering a plugin that has a ready service panics (its channel was
    closed when the service became ready, and is closed again); when none of its
    services is ready, unregistering succeeds, keeps the registry consistent and
    removes exactly the plugin's services. *)
Theorem UnregisterPlugin_ready_panics ns r :
  services_ok r →
  if existsb (λ s, is_ready s r) (services_of ns r)
  then ∃ w r', UnregisterPlugin ns r = (Panic w, r')
  else ∃ r', UnregisterPlugin ns r = (Ok (), r') ∧ services_ok r' ∧
    ∀ s, GetServiceProvider s r' =
         if decide (GetServiceProvider s r = Some ns) then None else GetServiceProvider s r.
Proof. exact (UnregisterPlugin_spec ns r). Qed.

Lemma UnregisterPlugin_ready_panics_witness :
  ∃ w r', UnregisterPlugin "sqlite3" (MarkServiceReady "database" db_registry).2 = (Panic w, r').
Proof.
  assert (services_ok db_registry) as Hok.
  { exact (services_ok_RegisterPlugin "sqlite3" led_plugin [db_service] NewServiceRegistry _ (Ok ())
      services_ok_new eq_refl). }
  assert (services_ok (MarkServiceReady "database" db_registry).2) as Hok'.
  { eapply services_ok_step; [|exact Hok].
    exact (step_ready "database" db_registry _ (MarkServiceReady "database" db_registry).1
             (surjective_pairing _)). }
  exact (UnregisterPlugin_ready_panics "sqlite3" _ Hok').
Defined.
