(* ===== verification/Loader.v ===== *)
(** * Loader: daemon/loader.go and plugins/plugin.go

    Finding, starting and stopping plugin processes, and the calls proxied to
    them.  A plugin process and the RPC library that reaches it are outside the
    repository: [Host] is what the daemon sees of them, a state and operations
    on it that may fail.  Log output is not modelled. *)
From S2P Require Import Prelude GoStr Types Json Value Codec Path ConfigStore State Registry.

(** plugins/rpc.go: CLICommand and MetadataResponse. *)
Record CLICommand := {
  cc_Name : string; cc_Short : string; cc_Long : string; cc_Subcommands : list string;
  cc_Continuous : bool; cc_PollInterval : Z;
}.
Record MetadataResponse := {
  mr_metadata : PluginMetadata;
  mr_ProvidedServices : list ServiceDescriptor;
  mr_RequiredServices : list string;
  mr_CLICommands : list CLICommand;
}.

(** [h_executable p]: [os.Stat] succeeds on [p], a regular file with an execute
    bit; [h_ReadDir d]: the entries of a directory and whether each is one
    itself; [h_NewPluginClient]: a process is started and connected;
    the rest are the client's and the provider's methods. *)
Class Host := {
  host : Type;
  h_executable : string → M host bool;
  h_ReadDir : string → M host (list (string * bool));
  h_NewPluginClient : string → M host positive;
  h_Dispense : positive → M host ();
  h_Metadata : positive → M host MetadataResponse;
  h_SetupDaemonService : positive → M host ();
  h_ApplyConfig : positive → json → M host ();
  h_ValidateConfig : positive → json → M host ();
  h_Flush : positive → M host ();
  h_Status : positive → M host json;
  h_ExecuteCLICommand : positive → string → list string → M host string;
  h_CallService : positive → string → string → json → M host (option json);
  h_Close : positive → M host ();
}.

(** [NewPluginManager]. *)
Definition pluginDirs : list string :=
  ["./bin"; "/usr/lib/jack/plugins"; "/opt/jack/plugins"].

Section loader.
Context `{Host} `{RangeOrder}.

(** The directories as [filepath.Join] prints them. *)
Definition plugin_path (dir pluginName : string) : string :=
  trim_prefix dir "./" +:+ "/" +:+ pluginName.

Fixpoint find_in (dirs : list string) (pluginName : string) : M host (option string) :=
  match dirs with
  | [] => mret None
  | dir :: dirs =>
      attempt (h_executable (plugin_path dir pluginName)) ≫= λ info,
      match info with
      | Ok true => mret (Some (plugin_path dir pluginName))
      | _ => find_in dirs pluginName
      end
  end.
Definition FindPlugin (name : string) : M host string :=
  find_in pluginDirs ("jack-plugin-" +:+ name) ≫= λ found,
  lift (ok_or (ErrorText ("plugin not found: " +:+ name)) found).

(** The entries of one directory added to the set of plugin names. *)
Fixpoint list_entries (dir : string) (entries : list (string * bool)) (plugins : gset string)
    : M host (gset string) :=
  match entries with
  | [] => mret plugins
  | (name, is_dir) :: entries =>
      if is_dir then list_entries dir entries plugins
      else match strip_prefix "jack-plugin-" name with
      | None => list_entries dir entries plugins
      | Some pluginName =>
          attempt (h_executable (plugin_path dir name)) ≫= λ info,
          list_entries dir entries
            (match info with Ok true => {[pluginName]} ∪ plugins | _ => plugins end)
      end
  end.
Fixpoint list_dirs (dirs : list string) (plugins : gset string) : M host (gset string) :=
  match dirs with
  | [] => mret plugins
  | dir :: dirs =>
      attempt (h_ReadDir dir) ≫= λ entries,
      match entries with
      | Ok entries => list_entries dir entries plugins ≫= list_dirs dirs
      | _ => list_dirs dirs plugins
      end
  end.
(** The set is a Go map, walked in any order. *)
Definition ListPlugins : M host (list string) :=
  list_dirs pluginDirs ∅ ≫= λ plugins,
  mret ((range (gset_to_gmap () plugins)).*1).

Definition LoadPlugin (name : string) : M host PluginLoader :=
  wrapM ("plugin '" +:+ name +:+ "' not found: ") (FindPlugin name) ≫= λ pluginPath,
  wrapM ("failed to start plugin '" +:+ name +:+ "': ") (h_NewPluginClient pluginPath)
    ≫= λ client,
  attempt (h_Dispense client) ≫= λ provider,
  match provider with
  | Err err =>
      attempt (h_Close client) ≫= λ _,
      fail (Wrapf ("failed to dispense plugin '" +:+ name +:+ "': ") err)
  | _ =>
  attempt (h_Metadata client) ≫= λ metaResp,
  match metaResp with
  | Err err =>
      attempt (h_Close client) ≫= λ _,
      fail (Wrapf ("failed to get metadata from plugin '" +:+ name +:+ "': ") err)
  | Panic w => lift (Panic w)
  | Ok metaResp =>
      mret {| pl_client := client; pl_metadata := mr_metadata metaResp;
              pl_providedServices := mr_ProvidedServices metaResp;
              pl_requiredServices := mr_RequiredServices metaResp |}
  end end.

(** ** The proxied calls; a configuration is sent as its JSON *)
Definition marshal_config (c : option config_obj) : json :=
  match c with None => JNull | Some o => marshal_obj o end.
Definition ApplyConfig (l : PluginLoader) (config : option config_obj) : M host () :=
  h_ApplyConfig (pl_client l) (marshal_config config).
Definition ValidateConfig (l : PluginLoader) (config : option config_obj) : M host () :=
  h_ValidateConfig (pl_client l) (marshal_config config).
Definition Flush (l : PluginLoader) : M host () := h_Flush (pl_client l).
Definition Status (l : PluginLoader) : M host (gomap value) :=
  h_Status (pl_client l) ≫= λ statusJSON,
  lift (wrap "failed to unmarshal status: " (Unmarshal_map statusJSON)).
Definition Close (l : PluginLoader) : M host () := h_Close (pl_client l).
Definition ExecuteCLICommand (l : PluginLoader) (command : string) (args : list string)
    : M host string := h_ExecuteCLICommand (pl_client l) command args.

(** registry.go: every registered plugin is told to stop, errors are logged. *)
Definition CloseAll (r : PluginRegistry) : M host () :=
  for_each (range (pr_plugins r)) (λ p, attempt (Close p.2) ≫= λ _, mret ()).

(** ** ScanPlugins, UnloadPlugin, CheckDependencies *)
Fixpoint scan (names : list string) (result : gmap string PluginMetadata)
    : M host (gmap string PluginMetadata) :=
  match names with
  | [] => mret result
  | pluginName :: names =>
      attempt (LoadPlugin pluginName) ≫= λ plugin,
      match plugin with
      | Ok plugin =>
          attempt (Close plugin) ≫= λ _,
          scan names (<[pluginName := Metadata plugin]> result)
      | _ => scan names result
      end
  end.
Definition ScanPlugins : M host (gmap string PluginMetadata) :=
  wrapM "failed to list plugins: " ListPlugins ≫= λ availablePlugins,
  scan availablePlugins ∅.

Definition UnloadPlugin (plugin : PluginLoader) (namespace : string) : M host () :=
  wrapM ("failed to flush plugin '" +:+ namespace +:+ "': ") (Flush plugin) ≫= λ _,
  wrapM ("failed to close plugin '" +:+ namespace +:+ "': ") (Close plugin).

(** The namespaces of the plugins that list it, once per occurrence. *)
Definition dependents_of (pluginToDisable : string) (registry : PluginRegistry)
    : list string :=
  range (Registry.GetAll registry) ≫= λ p,
    (λ _, p.1) <$> filter (λ dep, dep = pluginToDisable) (pm_Dependencies (Metadata p.2)).
Definition CheckDependencies (pluginToDisable : string) (registry : PluginRegistry)
    : option error :=
  match dependents_of pluginToDisable registry with
  | [] => None
  | dependents =>
      Some (ErrorText ("cannot disable plugin '" +:+ pluginToDisable
                       +:+ "': it is required by: " +:+ fmt_list dependents))
  end.
End loader.

(** ** Lemmas: no panic, when no operation of the host panics *)

(** What the process library promises: a failure is an error. *)
Class HostSafe `{Host} : Prop := {
  hs_executable p : safe (h_executable p);
  hs_ReadDir d : safe (h_ReadDir d);
  hs_NewPluginClient p : safe (h_NewPluginClient p);
  hs_Dispense c : safe (h_Dispense c);
  hs_Metadata c : safe (h_Metadata c);
  hs_SetupDaemonService c : safe (h_SetupDaemonService c);
  hs_ApplyConfig c j : safe (h_ApplyConfig c j);
  hs_ValidateConfig c j : safe (h_ValidateConfig c j);
  hs_Flush c : safe (h_Flush c);
  hs_Status c : safe (h_Status c);
  hs_ExecuteCLICommand c s l : safe (h_ExecuteCLICommand c s l);
  hs_CallService c s m j : safe (h_CallService c s m j);
  hs_Close c : safe (h_Close c);
}.
#[export] Hint Resolve hs_executable hs_ReadDir hs_NewPluginClient hs_Dispense hs_Metadata
  hs_SetupDaemonService hs_ApplyConfig hs_ValidateConfig hs_Flush hs_Status
  hs_ExecuteCLICommand hs_CallService hs_Close : safe.

Section safety.
Context `{HostSafe}.

Lemma safe_FindPlugin name : safe (FindPlugin name).
Proof.
  apply safe_bind; [|by intros [] h].
  induction pluginDirs as [|d dirs IH]; cbn [find_in]; [auto with safe|].
  apply safe_bind; [auto with safe|]. intros [[]|e|w]; auto with safe.
Qed.
Lemma safe_LoadPlugin name : safe (LoadPlugin name).
Proof.
  apply safe_bind; [apply safe_wrapM, safe_FindPlugin|]. intros path.
  apply safe_bind; [auto with safe|]. intros client.
  apply safe_bind; [auto with safe|]. intros [[]|e|w]; auto with safe.
  - intros h. unfold mbind, M_bind, attempt.
    pose proof (hs_Metadata client h) as Hm.
    destruct (h_Metadata client h) as [[m|e|w] h']; cbn in *; [done| |done].
    pose proof (hs_Close client h') as Hc. by destruct (h_Close client h') as [[] ?].
  - intros h. unfold mbind, M_bind, attempt.
    pose proof (hs_Metadata client h) as Hm.
    destruct (h_Metadata client h) as [[m|e|w'] h']; cbn in *; [done| |done].
    pose proof (hs_Close client h') as Hc. by destruct (h_Close client h') as [[] ?].
Qed.
Lemma safe_ApplyConfig l c : safe (ApplyConfig l c).
Proof. unfold ApplyConfig. auto with safe. Qed.
Lemma safe_Close l : safe (Close l).
Proof. unfold Close. auto with safe. Qed.
Lemma safe_Flush l : safe (Flush l).
Proof. apply hs_Flush. Qed.
Lemma safe_Status l : safe (Status l).
Proof. unfold Status. auto with safe no_panic. Qed.
End safety.
#[export] Hint Resolve safe_FindPlugin safe_LoadPlugin safe_ApplyConfig safe_Close safe_Flush
  safe_Status : safe.

(** Disabling a plugin is allowed exactly when no registered plugin lists
    it among its dependencies; otherwise the error names every namespace that
    does. *)
Theorem CheckDependencies_spec `{Host} `{RangeOrder} pluginToDisable registry :
  (CheckDependencies pluginToDisable registry = None ↔
   ∀ namespace plugin, Registry.GetAll registry !! namespace = Some plugin →
     pluginToDisable ∉ pm_Dependencies (Metadata plugin)) ∧
  ∀ namespace, namespace ∈ dependents_of pluginToDisable registry ↔
    ∃ plugin, Registry.GetAll registry !! namespace = Some plugin ∧
      pluginToDisable ∈ pm_Dependencies (Metadata plugin).
Proof.
  assert (∀ namespace, namespace ∈ dependents_of pluginToDisable registry ↔
    ∃ plugin, Registry.GetAll registry !! namespace = Some plugin ∧
      pluginToDisable ∈ pm_Dependencies (Metadata plugin)) as Hd.
  { intros namespace. unfold dependents_of. rewrite list_elem_of_bind. split.
    - intros ([ns plugin] & Hns & Hp). rewrite range_perm, elem_of_map_to_list in Hp.
      apply list_elem_of_fmap in Hns as (d & -> & [-> Hd]%list_elem_of_filter). eauto.
    - intros (plugin & Hp & Hd). exists (namespace, plugin).
      rewrite range_perm, elem_of_map_to_list. split; [|done].
      apply list_elem_of_fmap. exists pluginToDisable. by rewrite list_elem_of_filter. }
  split; [|done]. unfold CheckDependencies.
  destruct (dependents_of pluginToDisable registry) as [|n l].
  - split; [|done]. intros _ ns plugin Hp Hin. destruct (Hd ns) as [_ Hn].
    destruct (not_elem_of_nil _ (Hn (ex_intro _ plugin (conj Hp Hin)))).
  - split; [done|]. intros Hno. destruct (Hd n) as [(plugin & Hp & Hin) _]; [left|].
    by destruct (Hno n plugin).
Qed.
