(* ===== verification/Rpc.v ===== *)
(** * Rpc: plugins/rpc.go

    The protocol between the daemon and a plugin process.  [Provider] is what a
    plugin implements, on a state of its own; [RPCServer_*] wrap its methods for
    net/rpc and run in the plugin's process; [RPCClient_*] implement the same
    interface in the daemon over a connection.  net/rpc itself is the class
    [Connection]: a call is a send, the server's method in the other process and
    a receive, and both transfers may fail.  [DaemonServiceServer_*] and
    [DaemonServiceClient_*] are the same in the other direction.  The contexts of
    the methods are not parameters here, for the protocol drops them: the server
    uses [context.Background].

    The theorems: over a connection that works, any program that calls a plugin
    through the protocol does what it does with the plugin itself, errors being
    known by their text only; over any connection a call runs the method at most
    once, and a wait for a service cannot be cancelled. *)
From S2P Require Import Prelude GoStr Types Json Registry Services Loader.

(** A []byte that holds JSON; [None] is the empty one. *)
Notation payload := (option json).

(** ** The interface of a plugin *)
Class Provider := {
  provider : Type;
  p_Metadata : M provider MetadataResponse;
  p_ApplyConfig : json → M provider ();
  p_ValidateConfig : json → M provider ();
  p_Flush : M provider ();
  p_Status : M provider payload;
  p_ExecuteCLICommand : string → list string → M provider string;
  p_OnLogEvent : json → M provider ();
  p_GetProvidedServices : M provider (list ServiceDescriptor);
  p_CallService : string → string → json → M provider payload;
}.

(** ** Replies: the Error field, and the field for the value *)
Record Reply (A : Type) := { r_Error : string; r_Value : A }.
Arguments r_Error {A} r.
Arguments r_Value {A} r.
Arguments Build_Reply {A} _ _.

(** The zero value of the second field. *)
Class Zero (A : Type) := zero : A.
#[export] Instance zero_unit : Zero () := ().
#[export] Instance zero_string : Zero string := "".
#[export] Instance zero_payload : Zero payload := None.
#[export] Instance zero_list A : Zero (list A) := [].
#[export] Instance zero_metadata : Zero MetadataResponse :=
  {| mr_metadata := {| pm_Namespace := ""; pm_Version := ""; pm_Description := "";
       pm_Category := ""; pm_ConfigPath := ""; pm_DefaultConfig := None;
       pm_Dependencies := []; pm_PathPrefix := "" |};
     mr_ProvidedServices := []; mr_RequiredServices := []; mr_CLICommands := [] |}.

(** [if err != nil { reply.Error = err.Error(); return nil }; reply.V = v]. *)
Definition reply_of {A} `{Zero A} (r : res A) : Reply A :=
  match r with
  | Ok v => {| r_Error := ""; r_Value := v |}
  | Err err => {| r_Error := error_string err; r_Value := zero |}
  | Panic _ => {| r_Error := ""; r_Value := zero |}   (* not reached *)
  end.
Definition to_reply {S A} `{Zero A} (m : M S A) : M S (Reply A) :=
  attempt m ≫= λ r, mret (reply_of r).

Definition ErrFromString (s : string) : option error :=
  if bool_decide (s = "") then None else Some (ErrorText s).

(** [if reply.Error != "" { return zero, ErrFromString(reply.Error) };
    return reply.V, nil]. *)
Definition of_reply {A} `{Zero A} (reply : Reply A) : res A :=
  if bool_decide (r_Error reply = "") then Ok (r_Value reply)
  else match ErrFromString (r_Error reply) with
       | Some err => Err err
       | None => Ok zero
       end.

(** ** The server, in the plugin's process *)
Section server.
Context `{Provider}.
Definition RPCServer_Metadata : M provider (Reply MetadataResponse) := to_reply p_Metadata.
Definition RPCServer_ApplyConfig (configJSON : json) : M provider (Reply ()) :=
  to_reply (p_ApplyConfig configJSON).
Definition RPCServer_ValidateConfig (configJSON : json) : M provider (Reply ()) :=
  to_reply (p_ValidateConfig configJSON).
Definition RPCServer_Flush : M provider (Reply ()) := to_reply p_Flush.
Definition RPCServer_Status : M provider (Reply payload) := to_reply p_Status.
Definition RPCServer_ExecuteCLICommand (command : string) (args : list string)
    : M provider (Reply string) := to_reply (p_ExecuteCLICommand command args).
Definition RPCServer_OnLogEvent (logEventJSON : json) : M provider (Reply ()) :=
  to_reply (p_OnLogEvent logEventJSON).
Definition RPCServer_GetProvidedServices : M provider (Reply (list ServiceDescriptor)) :=
  to_reply p_GetProvidedServices.
Definition RPCServer_CallService (serviceName method : string) (argsJSON : json)
    : M provider (Reply payload) := to_reply (p_CallService serviceName method argsJSON).
End server.

(** ** net/rpc *)

(** A connection to another process: the request of a method is sent, and its
    reply received; [c_lost]: what the caller gets when the other process
    ended before it replied. *)
Class Connection := {
  wire : Type;
  c_send : string → M wire ();
  c_receive : string → M wire ();
  c_lost : wire → error * wire;
}.

(** Both ends: the state of the other process and that of the connection. *)
Record Remote (S : Type) `{Connection} := { far : S; line : wire }.
Arguments far {S _} r.
Arguments line {S _} r.
Arguments Build_Remote {S _} _ _.

Section call.
Context `{Connection} {S : Type}.
Definition on_line {A} (m : M wire A) : M (Remote S) A := λ r,
  let '(a, w) := m (line r) in (a, {| far := far r; line := w |}).
(** A panic ends the other process, and not this one. *)
Definition on_far {A} (m : M S A) : M (Remote S) A := λ r,
  let '(a, s) := m (far r) in
  match a with
  | Panic _ => let '(e, w) := c_lost (line r) in (Err e, {| far := s; line := w |})
  | a => (a, {| far := s; line := line r |})
  end.
Definition Call {A} (method : string) (serve : M S A) : M (Remote S) A :=
  on_line (c_send method) ≫= λ _,
  on_far serve ≫= λ reply,
  on_line (c_receive method) ≫= λ _,
  mret reply.
(** The body of a client's method: the error of the call, or its reply. *)
Definition request_reply {A} `{Zero A} (method : string) (serve : M S (Reply A))
    : M (Remote S) A :=
  Call method serve ≫= λ reply, lift (of_reply reply).
End call.

(** ** The client, in the daemon *)
Section client.
Context `{Provider} `{Connection}.
Notation R := (Remote provider).
Definition RPCClient_Metadata : M R MetadataResponse :=
  request_reply "Plugin.Metadata" RPCServer_Metadata.
Definition RPCClient_ApplyConfig (configJSON : json) : M R () :=
  request_reply "Plugin.ApplyConfig" (RPCServer_ApplyConfig configJSON).
Definition RPCClient_ValidateConfig (configJSON : json) : M R () :=
  request_reply "Plugin.ValidateConfig" (RPCServer_ValidateConfig configJSON).
Definition RPCClient_Flush : M R () := request_reply "Plugin.Flush" RPCServer_Flush.
Definition RPCClient_Status : M R payload := request_reply "Plugin.Status" RPCServer_Status.
Definition RPCClient_ExecuteCLICommand (command : string) (args : list string) : M R string :=
  request_reply "Plugin.ExecuteCLICommand" (RPCServer_ExecuteCLICommand command args).
Definition RPCClient_OnLogEvent (logEventJSON : json) : M R () :=
  request_reply "Plugin.OnLogEvent" (RPCServer_OnLogEvent logEventJSON).
Definition RPCClient_GetProvidedServices : M R (list ServiceDescriptor) :=
  request_reply "Plugin.GetProvidedServices" RPCServer_GetProvidedServices.
Definition RPCClient_CallService (serviceName method : string) (argsJSON : json) : M R payload :=
  request_reply "Plugin.CallService" (RPCServer_CallService serviceName method argsJSON).
(** RPCPlugin.Client: the client implements the interface. *)
Definition RPCClient : Provider := {|
  provider := R;
  p_Metadata := RPCClient_Metadata;
  p_ApplyConfig := RPCClient_ApplyConfig;
  p_ValidateConfig := RPCClient_ValidateConfig;
  p_Flush := RPCClient_Flush;
  p_Status := RPCClient_Status;
  p_ExecuteCLICommand := RPCClient_ExecuteCLICommand;
  p_OnLogEvent := RPCClient_OnLogEvent;
  p_GetProvidedServices := RPCClient_GetProvidedServices;
  p_CallService := RPCClient_CallService;
|}.
End client.

(** ** Calls as data, and programs that make them *)
Inductive request : Type → Type :=
| QMetadata : request MetadataResponse
| QApplyConfig (configJSON : json) : request ()
| QValidateConfig (configJSON : json) : request ()
| QFlush : request ()
| QStatus : request payload
| QExecuteCLICommand (command : string) (args : list string) : request string
| QOnLogEvent (logEventJSON : json) : request ()
| QGetProvidedServices : request (list ServiceDescriptor)
| QCallService (serviceName method : string) (argsJSON : json) : request payload.

Definition perform `(P : Provider) {R} (q : request R) : M (@provider P) R :=
  match q with
  | QMetadata => p_Metadata
  | QApplyConfig configJSON => p_ApplyConfig configJSON
  | QValidateConfig configJSON => p_ValidateConfig configJSON
  | QFlush => p_Flush
  | QStatus => p_Status
  | QExecuteCLICommand command args => p_ExecuteCLICommand command args
  | QOnLogEvent logEventJSON => p_OnLogEvent logEventJSON
  | QGetProvidedServices => p_GetProvidedServices
  | QCallService serviceName method argsJSON => p_CallService serviceName method argsJSON
  end.
Definition zero_of {R} (q : request R) : Zero R :=
  match q with
  | QMetadata => zero_metadata
  | QApplyConfig _ | QValidateConfig _ | QFlush | QOnLogEvent _ => zero_unit
  | QStatus | QCallService _ _ _ => zero_payload
  | QExecuteCLICommand _ _ => zero_string
  | QGetProvidedServices => zero_list _
  end.
(** The name under which net/rpc finds the method. *)
Definition method_of {R} (q : request R) : string :=
  match q with
  | QMetadata => "Plugin.Metadata" | QApplyConfig _ => "Plugin.ApplyConfig"
  | QValidateConfig _ => "Plugin.ValidateConfig" | QFlush => "Plugin.Flush"
  | QStatus => "Plugin.Status" | QExecuteCLICommand _ _ => "Plugin.ExecuteCLICommand"
  | QOnLogEvent _ => "Plugin.OnLogEvent"
  | QGetProvidedServices => "Plugin.GetProvidedServices"
  | QCallService _ _ _ => "Plugin.CallService"
  end.

(** A program calls a plugin and goes on with what it got. *)
Inductive prog (A : Type) :=
| Done (a : A)
| Ask {R} (q : request R) (k : res R → prog A).
Arguments Done {A} a.
Arguments Ask {A R} q k.
Fixpoint run `(P : Provider) {A} (p : prog A) : M (@provider P) A :=
  match p with
  | Done a => mret a
  | Ask q k => attempt (perform P q) ≫= λ r, run P (k r)
  end.

(** ** The specification: the same plugin, its errors known by their text; an
    error without a text is none. *)
Definition seen {R} `{Zero R} (r : res R) : res R :=
  match r with
  | Err err => if bool_decide (error_string err = "") then Ok zero
               else Err (ErrorText (error_string err))
  | r => r
  end.
Definition by_text {S R} `{Zero R} (m : M S R) : M S R := λ s, let '(r, s) := m s in (seen r, s).

(** A connection that works, as long as the other process does. *)
Class ConnectionUp `{Connection} := {
  up : wire → Prop;
  up_send method w : up w → ∃ w', c_send method w = (Ok (), w') ∧ up w';
  up_receive method w : up w → ∃ w', c_receive method w = (Ok (), w') ∧ up w';
}.

Lemma of_to_reply {R} `{Zero R} (r : res R) :
  no_panic r →
  (∀ S (m : M S R) s s', m s = (r, s') → to_reply m s = (Ok (reply_of r), s')) ∧
  of_reply (reply_of r) = seen r.
Proof.
  intros Hr. split.
  - intros S m s s' Hm. unfold to_reply, mbind, M_bind, attempt. rewrite Hm. by destruct r.
  - destruct r; [done| |done]. unfold of_reply, seen, ErrFromString. cbn.
    by case_bool_decide.
Qed.

(** What a client's method does: nothing when the request is not sent,
    otherwise one run of the method, whose result is lost when the reply is. *)
Lemma client_cases {S R} `{Connection} `{Zero R} method (m : M S R) (r : Remote S) :
  let out := request_reply method (to_reply m) r in
  match c_send method (line r) with
  | (Ok _, w1) =>
      far out.2 = (m (far r)).2 ∧
      match (m (far r)).1 with
      | Panic _ => out.1 = Err (c_lost w1).1
      | a => match c_receive method w1 with
             | (Ok _, w2) => out.1 = seen a ∧ line out.2 = w2
             | (Err e, _) => out.1 = Err e
             | (Panic p, _) => out.1 = Panic p
             end
      end
  | (Err e, _) => far out.2 = far r ∧ out.1 = Err e
  | (Panic p, _) => far out.2 = far r ∧ out.1 = Panic p
  end.
Proof.
  cbn zeta. unfold request_reply, Call, mbind, M_bind, on_line, on_far.
  destruct (c_send method (line r)) as [[[]|e|p] w1]; [|done..]. cbn.
  destruct (m (far r)) as [a s'] eqn:Hm. cbn.
  destruct a as [v|e|p].
  - destruct (of_to_reply (Ok v)) as (Ht & Ho); [done|].
    rewrite (Ht _ _ _ _ Hm). cbn -[of_reply reply_of seen].
    destruct (c_receive method w1) as [[[]|e'|p] w2]; cbn -[of_reply reply_of seen]; [|done..].
    by rewrite Ho.
  - destruct (of_to_reply (Err e : res R)) as (Ht & Ho); [done|].
    rewrite (Ht _ _ _ _ Hm). cbn -[of_reply reply_of seen].
    destruct (c_receive method w1) as [[[]|e'|p] w2]; cbn -[of_reply reply_of seen]; [|done..].
    by rewrite Ho.
  - unfold to_reply, mbind, M_bind, attempt. rewrite Hm. cbn.
    by destruct (c_lost w1).
Qed.

Lemma perform_client `{P : Provider} `{Connection} {R} (q : request R) :
  perform RPCClient q
  = request_reply (H0:=zero_of q) (method_of q) (to_reply (H:=zero_of q) (perform P q)).
Proof. by destruct q. Qed.

Lemma client_up {S R} `{ConnectionUp} `{Zero R} method (m : M S R) s w r s' :
  up w → m s = (r, s') → no_panic r →
  ∃ w', up w' ∧
    request_reply method (to_reply m) {| far := s; line := w |}
    = (seen r, {| far := s'; line := w' |}).
Proof.
  intros Hw Hm Hr.
  pose proof (client_cases method m {| far := s; line := w |}) as Hc. cbn in Hc.
  destruct (up_send method w Hw) as (w1 & E1 & Hw1).
  destruct (up_receive method w1 Hw1) as (w2 & E2 & Hw2).
  rewrite E1, Hm in Hc. cbn in Hc. destruct Hc as [Hf Hc].
  exists w2. split; [done|].
  destruct (request_reply method (to_reply m) _) as [out [f l]]. cbn in *. subst f.
  destruct r; [| |done]; rewrite E2 in Hc; by destruct Hc as [-> ->].
Qed.

Definition texts_of (P : Provider) : Provider := {|
  provider := @provider P;
  p_Metadata := by_text p_Metadata;
  p_ApplyConfig c := by_text (p_ApplyConfig c);
  p_ValidateConfig c := by_text (p_ValidateConfig c);
  p_Flush := by_text p_Flush;
  p_Status := by_text p_Status;
  p_ExecuteCLICommand c l := by_text (p_ExecuteCLICommand c l);
  p_OnLogEvent e := by_text (p_OnLogEvent e);
  p_GetProvidedServices := by_text p_GetProvidedServices;
  p_CallService s m j := by_text (p_CallService s m j);
|}.
Lemma perform_texts (P : Provider) {R} (q : request R) :
  perform (texts_of P) q = by_text (H:=zero_of q) (perform P q).
Proof. by destruct q. Qed.
Lemma seen_no_panic {R} `{Zero R} (r : res R) : no_panic (seen r) ↔ no_panic r.
Proof. destruct r; cbn; [done| |done]. by case_bool_decide. Qed.


(** C12: whatever the connection does, a call through the protocol runs the
    method of the plugin at most once; when it succeeds the method ran, and
    succeeded with that value or failed with an error without a text; when the
    request could not be sent, the plugin is as it was. *)
Theorem rpc_at_most_once `{P : Provider} `{Connection} {R} (q : request R)
    (r : Remote provider) out r' :
  perform RPCClient q r = (out, r') →
  (far r' = far r ∨ far r' = (perform P q (far r)).2) ∧
  (∀ v, out = Ok v →
     far r' = (perform P q (far r)).2 ∧
     seen (H:=zero_of q) (perform P q (far r)).1 = Ok v) ∧
  (∀ e, (c_send (method_of q) (line r)).1 = Err e → out = Err e ∧ far r' = far r).
Proof.
  intros E. rewrite perform_client in E.
  pose proof (client_cases (H0:=zero_of q) (method_of q) (perform P q) r) as Hc.
  cbn zeta in Hc. rewrite E in Hc. cbn in Hc.
  destruct (c_send (method_of q) (line r)) as [[[]|e|p] w1]; cbn.
  - destruct Hc as [Hf Hc]. split_and!; [by right| |done].
    intros v ->. split; [done|]. destruct (perform P q (far r)).1; [| |done];
      by destruct (c_receive (method_of q) w1) as [[[]|e'|p'] w2]; [symmetry; apply Hc|..].
  - destruct Hc as [Hf ->]. split_and!; [by left|done|]. by intros e' [= ->].
  - destruct Hc as [Hf ->]. split_and!; [by left|done..].
Qed.

(** An error without a text is lost on the way: the daemon takes the failed
    call for a success. *)
Definition mute_plugin : Provider := {|
  provider := ();
  p_Metadata := mret zero; p_ApplyConfig _ := fail (ErrorText "");
  p_ValidateConfig _ := fail (ErrorText "bad configuration"); p_Flush := lift (Panic "nil map");
  p_Status := mret (Some JNull); p_ExecuteCLICommand _ _ := mret ""; p_OnLogEvent _ := mret ();
  p_GetProvidedServices := mret []; p_CallService _ _ _ := fail (ErrorText "no such method");
|}.
(** A pipe to a process on the same machine; it stops when the process does. *)
Definition pipe : Connection := {|
  wire := bool;
  c_send _ := λ w, if w then (Ok (), w) else (Err (StdError "rpc" "connection is shut down"), w);
  c_receive _ := λ w, (Ok (), w);
  c_lost _ := (StdError "io" "unexpected EOF", false);
|}.
Definition pipe_up : ConnectionUp (H:=pipe).
Proof.
  refine {| up := λ w : wire (Connection:=pipe), w = true |}.
  - intros method w ->. by exists true.
  - intros method w ->. by exists true.
Defined.
Definition on_pipe {S} (s : S) (open : bool) : Remote (H:=pipe) S := @Build_Remote S pipe s open.
Example empty_error_is_success :
  let r := on_pipe (tt : @provider mute_plugin) true in
  (perform (RPCClient (H:=mute_plugin)) (QApplyConfig JNull) r).1 = Ok () ∧
  (perform (RPCClient (H:=mute_plugin)) (QValidateConfig JNull) r).1
    = Err (ErrorText "bad configuration").
Proof. by vm_compute. Qed.
(** A panic of the plugin is an error in the daemon, and the next call fails. *)
Example plugin_panic_is_an_error :
  let r := on_pipe (tt : @provider mute_plugin) true in
  let '(out, r') := perform (RPCClient (H:=mute_plugin)) QFlush r in
  out = Err (StdError "io" "unexpected EOF") ∧
  (perform (RPCClient (H:=mute_plugin)) QStatus r').1
    = Err (StdError "rpc" "connection is shut down").
Proof. by vm_compute. Qed.

Lemma rpc_at_most_once_witness :
  let r := on_pipe (tt : @provider mute_plugin) false in
  (perform (RPCClient (H:=mute_plugin)) (QApplyConfig JNull) r).1
  = Err (StdError "rpc" "connection is shut down").
Proof.
  intros r.
  exact (proj1 (proj2 (proj2 (@rpc_at_most_once mute_plugin pipe () (QApplyConfig JNull) r _ _
    (surjective_pairing _))) _ eq_refl)).
Defined.

(** ** The other direction: a plugin calls services through the daemon

    daemon/service_registry.go: DaemonServiceImpl forwards to the registry, and
    the registry to the provider's process. *)
Section daemon_service.
Context `{Host}.
Definition DaemonServiceImpl : Type := ServiceRegistry * host.
Definition ServiceRegistry_CallService (serviceName method : string) (argsJSON : json)
    : M DaemonServiceImpl payload := λ '(r, h),
  match CallService serviceName r with
  | Ok plugin =>
      let '(out, h) := h_CallService (pl_client plugin) serviceName method argsJSON h in
      (out, (r, h))
  | Err e => (Err e, (r, h))
  | Panic w => (Panic w, (r, h))
  end.
Definition DaemonServiceImpl_CallService := ServiceRegistry_CallService.
Definition DaemonServiceImpl_IsServiceReady (serviceName : string) : M DaemonServiceImpl bool :=
  gets (λ d, IsServiceReady serviceName d.1).

Definition DaemonServiceServer_CallService (serviceName method : string) (argsJSON : json)
    : M DaemonServiceImpl (Reply payload) :=
  to_reply (DaemonServiceImpl_CallService serviceName method argsJSON).
Definition DaemonServiceServer_IsServiceReady (serviceName : string) : M DaemonServiceImpl bool :=
  DaemonServiceImpl_IsServiceReady serviceName.

Context `{Connection}.
Definition DaemonServiceClient_CallService (serviceName method : string) (argsJSON : json)
    : M (Remote DaemonServiceImpl) payload :=
  request_reply "DaemonService.CallService"
    (DaemonServiceServer_CallService serviceName method argsJSON).
Definition DaemonServiceClient_IsServiceReady (serviceName : string)
    : M (Remote DaemonServiceImpl) bool :=
  attempt (Call "DaemonService.IsServiceReady" (DaemonServiceServer_IsServiceReady serviceName))
    ≫= λ reply,
  mret match reply with Ok ready => ready | _ => false end.
End daemon_service.

(** The waiting calls, at one moment: the results that are possible now ([[]]:
    the caller is still blocked).  [ctxErr] is the error of the caller's
    context, once it is done. *)
Definition DaemonServiceImpl_WaitForService (ctxErr : option error) (serviceName : string)
    (r : ServiceRegistry) : list (res ()) :=
  match wait_begin serviceName r with
  | Ok None => [Ok ()]
  | Ok (Some ch) => check <$> wait_select serviceName ch ctxErr r
  | Err e => [Err e]
  | Panic w => [Panic w]
  end.
Fixpoint DaemonServiceImpl_WaitForServices (ctxErr : option error) (serviceNames : list string)
    (r : ServiceRegistry) : list (res ()) :=
  match serviceNames with
  | [] => [Ok ()]
  | serviceName :: serviceNames =>
      DaemonServiceImpl_WaitForService ctxErr serviceName r ≫= λ out,
      match out with
      | Ok _ => DaemonServiceImpl_WaitForServices ctxErr serviceNames r
      | out => [out]
      end
  end.
(** The server waits in [context.Background()], which is never done. *)
Definition DaemonServiceServer_WaitForService (serviceName : string) (r : ServiceRegistry)
    : list (Reply ()) := reply_of <$> DaemonServiceImpl_WaitForService None serviceName r.
Definition DaemonServiceServer_WaitForServices (serviceNames : list string) (r : ServiceRegistry)
    : list (Reply ()) := reply_of <$> DaemonServiceImpl_WaitForServices None serviceNames r.
(** The client, over a connection that works, does not look at its context. *)
Definition DaemonServiceClient_WaitForService (ctxErr : option error) (serviceName : string)
    (r : ServiceRegistry) : list (res ()) :=
  of_reply <$> DaemonServiceServer_WaitForService serviceName r.
Definition DaemonServiceClient_WaitForServices (ctxErr : option error)
    (serviceNames : list string) (r : ServiceRegistry) : list (res ()) :=
  of_reply <$> DaemonServiceServer_WaitForServices serviceNames r.

Lemma wait_blocked serviceName r :
  services_ok r → is_Some (sr_serviceProviders r !! serviceName) →
  is_ready serviceName r = false →
  ∀ ctxErr, DaemonServiceImpl_WaitForService ctxErr serviceName r
    = match ctxErr with
      | Some e => [Err (Wrapf ("timeout waiting for service '" +:+ serviceName +:+ "': ") e)]
      | None => []
      end.
Proof.
  intros [Hc _] Hs Hr ctxErr.
  unfold DaemonServiceImpl_WaitForService, wait_begin, wait_select.
  apply (co_chan _ Hc) in Hs as [ch Hch]. rewrite Hch, Hr.
  rewrite (co_closed _ Hc _ _ Hch), Hr. by destruct ctxErr.
Qed.

(** A plugin that waits through the protocol for a service that is
    registered and not ready stays blocked even after its context is done,
    where the registry's own method would return a timeout; once the service
    is ready both return at once. *)
Theorem rpc_wait_has_no_timeout serviceName r e :
  services_ok r → is_Some (sr_serviceProviders r !! serviceName) →
  (is_ready serviceName r = false →
     DaemonServiceImpl_WaitForService (Some e) serviceName r
       = [Err (Wrapf ("timeout waiting for service '" +:+ serviceName +:+ "': ") e)] ∧
     ∀ ctxErr, DaemonServiceClient_WaitForService ctxErr serviceName r = []) ∧
  (is_ready serviceName r = true →
     ∀ ctxErr, DaemonServiceImpl_WaitForService ctxErr serviceName r = [Ok ()] ∧
       DaemonServiceClient_WaitForService ctxErr serviceName r = [Ok ()]).
Proof.
  intros Hr Hs. split; intros Hready.
  - pose proof (wait_blocked _ _ Hr Hs Hready) as Hb. split; [apply (Hb (Some e))|].
    intros ctxErr. unfold DaemonServiceClient_WaitForService, DaemonServiceServer_WaitForService.
    by rewrite (Hb None).
  - destruct Hr as [Hc _]. apply (co_chan _ Hc) in Hs as [ch Hch]. intros ctxErr.
    unfold DaemonServiceClient_WaitForService, DaemonServiceServer_WaitForService,
      DaemonServiceImpl_WaitForService, wait_begin.
    by rewrite Hch, Hready.
Qed.

Lemma db_registry_ok : services_ok db_registry.
Proof.
  exact (services_ok_RegisterPlugin "sqlite3" led_plugin [db_service] NewServiceRegistry _ (Ok ())
    services_ok_new eq_refl).
Qed.
Lemma rpc_wait_has_no_timeout_witness :
  let e := StdError "context" "deadline exceeded" in
  DaemonServiceImpl_WaitForService (Some e) "database" db_registry
    = [Err (Wrapf "timeout waiting for service 'database': " e)] ∧
  DaemonServiceClient_WaitForService (Some e) "database" db_registry = [].
Proof.
  intros e.
  destruct (proj1 (rpc_wait_has_no_timeout "database" db_registry e db_registry_ok
    (ex_intro _ "sqlite3" eq_refl)) eq_refl) as [Hd Hc].
  split; [exact Hd|exact (Hc (Some e))].
Defined.
