(* ===== verification/PluginClient.v ===== *)
(** * PluginClient: plugins/client.go and the handshake of plugins/rpc.go

    Starting a plugin process and giving it the daemon's services.  The
    go-plugin library is the class [GoPlugin].

    SetupDaemonService talks to the plugin in two calls with a connection made
    in between, which a goroutine of the plugin accepts; the daemon, the handler
    of the call and the goroutine run concurrently, so the handshake is a step
    relation over both processes.  Every transfer may fail; such a step is
    marked as a fault.  The theorems: when SetupDaemonService returns nil, the
    plugin has the daemon's services; it always returns (every run is finite,
    and a run that stops has returned), and without a fault it returns nil. *)
From S2P Require Import Prelude GoStr Types Json Registry Services Loader Rpc.

(** ** Starting and stopping *)

(** What Dispense returns: our client, another provider, or something else. *)
Inductive dispensed := IsRPCClient | IsProvider | IsOther.
Class GoPlugin := {
  goplugin : Type;
  gp_NewClient : string → M goplugin positive;
  gp_Client : positive → M goplugin ();
  gp_Dispense : positive → string → M goplugin dispensed;
  gp_Kill : positive → M goplugin ();
}.
Section client.
Context `{GoPlugin}.
Definition NewPluginClient (pluginPath : string) : M goplugin positive :=
  gp_NewClient pluginPath ≫= λ client,
  attempt (gp_Client client) ≫= λ rpcClient,
  match rpcClient with
  | Err err => gp_Kill client ≫= λ _, fail (Wrapf "failed to get RPC client: " err)
  | _ => mret client
  end.
Definition Dispense (c : positive) : M goplugin dispensed :=
  wrapM "failed to dispense plugin: " (gp_Dispense c "generic") ≫= λ raw,
  match raw with
  | IsOther => fail (ErrorText "dispensed plugin is not a Provider")
  | provider => mret provider
  end.
(** The start of SetupDaemonService. *)
Definition setup_dispense (c : positive) : M goplugin () :=
  wrapM "failed to get plugin provider: " (gp_Dispense c "generic") ≫= λ raw,
  match raw with
  | IsRPCClient => mret ()
  | _ => fail (ErrorText "provider is not an RPCClient")
  end.
(** [None]: the field is nil. *)
Definition PluginClient_Close (c : option positive) : M goplugin () :=
  match c with
  | Some client => gp_Kill client
  | None => mret ()
  end.

(** A process is left running only behind the client that was returned. *)
Lemma NewPluginClient_kills pluginPath g r g' :
  NewPluginClient pluginPath g = (r, g') →
  match r with
  | Ok client => ∃ g1, gp_NewClient pluginPath g = (Ok client, g1) ∧ gp_Client client g1 = (Ok (), g')
  | Err e => (∃ g1, gp_NewClient pluginPath g = (Err e, g1)) ∨
             (∃ client g1 err g2 g3, gp_NewClient pluginPath g = (Ok client, g1) ∧
                gp_Client client g1 = (Err err, g2) ∧ gp_Kill client g2 = (g3, g'))
  | Panic _ => True
  end.
Proof.
  unfold NewPluginClient, mbind, M_bind, attempt.
  destruct (gp_NewClient pluginPath g) as [[client|e|w] g1]; cbn.
  - destruct (gp_Client client g1) as [[[]|e|w] g2] eqn:E; cbn.
    + intros [= <- <-]. eauto.
    + destruct (gp_Kill client g2) as [[[]|e'|w] g3] eqn:Ek; intros [= <- <-]; [| |done];
        right; by eexists _, _, _, _, _.
    + by intros [= <- <-].
  - intros [= <- <-]. left. eauto.
  - by intros [= <- <-].
Qed.
End client.

(** ** The handshake *)

(** Where SetupDaemonService is, after the provider was dispensed: it waits for
    the reply of the first call, dials, waits for the other end to accept, waits
    for the reply of the second call, or has returned. *)
Inductive daemon_pc :=
| DCall | DReply | DDial | DDialed | DVerify | DReturned (r : res ()).
(** Where the goroutine of RPCServer.SetDaemonService is. *)
Inductive goroutine_pc := GNone | GStarted | GAccept | GFailed | GAccepted | GSet | GEnded.
Record Setup := {
  su_daemon : daemon_pc;
  su_goroutine : goroutine_pc;
  su_acceptReady : bool;            (* acceptReadyChan is closed *)
  su_ready : option bool;           (* daemonServiceReadyChan: nil, open, closed *)
  su_err : option error;            (* daemonServiceSetupErr *)
  su_service : bool;                (* Impl.SetDaemonService was called *)
}.
Definition setup_start : Setup :=
  {| su_daemon := DCall; su_goroutine := GNone; su_acceptReady := false; su_ready := None;
     su_err := None; su_service := false |}.

Definition set_daemon (pc : daemon_pc) (s : Setup) : Setup :=
  {| su_daemon := pc; su_goroutine := su_goroutine s; su_acceptReady := su_acceptReady s;
     su_ready := su_ready s; su_err := su_err s; su_service := su_service s |}.
(** The handler of the first call: fresh channels, no error, the goroutine. *)
Definition handle_set (s : Setup) : Setup :=
  {| su_daemon := DReply; su_goroutine := GStarted; su_acceptReady := false;
     su_ready := Some false; su_err := None; su_service := su_service s |}.
Definition close_accept (s : Setup) : Setup :=
  {| su_daemon := su_daemon s; su_goroutine := GAccept; su_acceptReady := true;
     su_ready := su_ready s; su_err := su_err s; su_service := su_service s |}.
Definition accept_error (e : error) (s : Setup) : Setup :=
  {| su_daemon := su_daemon s; su_goroutine := GFailed; su_acceptReady := su_acceptReady s;
     su_ready := su_ready s;
     su_err := Some (Wrapf "failed to accept daemon service connection: " e);
     su_service := su_service s |}.
Definition accepted (s : Setup) : Setup :=
  {| su_daemon := su_daemon s; su_goroutine := GAccepted; su_acceptReady := su_acceptReady s;
     su_ready := su_ready s; su_err := su_err s; su_service := su_service s |}.
Definition service_set (s : Setup) : Setup :=
  {| su_daemon := su_daemon s; su_goroutine := GSet; su_acceptReady := su_acceptReady s;
     su_ready := su_ready s; su_err := su_err s; su_service := true |}.
(** The deferred close, as the goroutine ends. *)
Definition close_ready (s : Setup) : Setup :=
  {| su_daemon := su_daemon s; su_goroutine := GEnded; su_acceptReady := su_acceptReady s;
     su_ready := Some true; su_err := su_err s; su_service := su_service s |}.
(** The reply of VerifyDaemonService as SetupDaemonService returns it. *)
Definition verify_result (s : Setup) : res () :=
  match su_err s with
  | Some e => Err (ErrorText ("daemon service verification failed: " +:+ error_string e))
  | None => Ok ()
  end.

(** The other end has taken the connection. *)
Definition connected (g : goroutine_pc) : bool :=
  match g with GAccepted | GSet | GEnded => true | _ => false end.

(** [setup_step fault s s']; a fault is a failing transfer. *)
Inductive setup_step : bool → Setup → Setup → Prop :=
| st_call s : su_daemon s = DCall → setup_step false s (handle_set s)
| st_call_lost s e : su_daemon s = DCall →
    setup_step true s (set_daemon (DReturned (Err (Wrapf "failed to call SetDaemonService: " e))) s)
| st_started s : su_goroutine s = GStarted → setup_step false s (close_accept s)
| st_reply s : su_daemon s = DReply → su_acceptReady s = true →
    setup_step false s (set_daemon DDial s)
| st_reply_lost s e : su_daemon s = DReply →
    setup_step true s (set_daemon (DReturned (Err (Wrapf "failed to call SetDaemonService: " e))) s)
| st_dial s : su_daemon s = DDial → setup_step false s (set_daemon DDialed s)
| st_accept s : su_goroutine s = GAccept → su_daemon s = DDialed → setup_step false s (accepted s)
| st_accept_fails s e : su_goroutine s = GAccept → setup_step true s (accept_error e s)
| st_dialed s : su_daemon s = DDialed → connected (su_goroutine s) = true →
    su_err s = None → setup_step false s (set_daemon DVerify s)
| st_dial_fails s e : su_daemon s = DDial ∨ su_daemon s = DDialed →
    setup_step true s
      (set_daemon (DReturned (Err (Wrapf "failed to dial daemon service connection: " e))) s)
| st_set s : su_goroutine s = GAccepted → setup_step false s (service_set s)
| st_ended s : su_goroutine s = GSet ∨ su_goroutine s = GFailed →
    setup_step false s (close_ready s)
| st_verify s : su_daemon s = DVerify → su_ready s = Some true →
    setup_step false s (set_daemon (DReturned (verify_result s)) s)
| st_verify_lost s e : su_daemon s = DVerify →
    setup_step true s
      (set_daemon (DReturned (Err (Wrapf "failed to verify daemon service setup: " e))) s).

Definition any_step (s s' : Setup) : Prop := ∃ fault, setup_step fault s s'.

(** ** The invariant of the handshake *)

(** The goroutine runs, and has told the handler so. *)
Definition accepting (g : goroutine_pc) : bool :=
  match g with GNone | GStarted => false | _ => true end.
Definition calling (d : daemon_pc) : bool :=
  match d with DCall => true | _ => false end.
(** Where the daemon is, and what the goroutine then has done at least. *)
Definition daemon_ok (s : Setup) : Prop :=
  match su_daemon s with
  | DCall => su_goroutine s = GNone
  | DReply => su_goroutine s ≠ GNone
  | DDial | DDialed => accepting (su_goroutine s) = true
  | DVerify => connected (su_goroutine s) = true ∧ su_err s = None
  | DReturned (Ok _) => su_goroutine s = GEnded ∧ su_err s = None
  | DReturned (Err _) => True
  | DReturned (Panic _) => False
  end.
(** What the goroutine has done, by where it is. *)
Definition goroutine_ok (s : Setup) : Prop :=
  su_acceptReady s = accepting (su_goroutine s) ∧
  match su_goroutine s with
  | GNone => su_ready s = None ∧ su_err s = None
  | GStarted | GAccept | GAccepted => su_ready s = Some false ∧ su_err s = None
  | GFailed => su_ready s = Some false ∧ is_Some (su_err s)
  | GSet => su_ready s = Some false ∧ su_err s = None ∧ su_service s = true
  | GEnded => su_ready s = Some true ∧ (su_err s = None → su_service s = true)
  end.
Definition setup_ok (s : Setup) : Prop := daemon_ok s ∧ goroutine_ok s.

Lemma setup_ok_step s s' : any_step s s' → setup_ok s → setup_ok s'.
Proof.
  intros [fault Hs] [Hd Hg]. unfold setup_ok, daemon_ok, goroutine_ok in *.
  destruct s as [d g a r e v]; cbn in *.
  inversion Hs; subst; cbn in *; unfold verify_result; cbn; simplify_eq;
    destruct_and?; subst; try (destruct d as [| | | | |[]]);
    try destruct g; cbn in *; destruct_and?; subst; naive_solver.
Qed.
Lemma setup_reachable s : rtc any_step setup_start s → setup_ok s.
Proof.
  intros Hr. revert s Hr. apply rtc_ind_r; [by repeat split|].
  intros y z _ Hs Hy. by eapply setup_ok_step.
Qed.

(** Every step comes nearer to the end. *)
Definition daemon_left (d : daemon_pc) : nat :=
  match d with
  | DCall => 5 | DReply => 4 | DDial => 3 | DDialed => 2 | DVerify => 1 | DReturned _ => 0
  end.
Definition goroutine_left (g : goroutine_pc) : nat :=
  match g with
  | GNone => 5 | GStarted => 4 | GAccept => 3 | GFailed | GAccepted => 2 | GSet => 1 | GEnded => 0
  end.
Definition setup_left (s : Setup) : nat :=
  (6 * daemon_left (su_daemon s) + goroutine_left (su_goroutine s))%nat.
Lemma setup_left_step s s' : any_step s s' → (setup_left s' < setup_left s)%nat.
Proof.
  intros [fault Hs]. destruct s as [d g a r e v]. unfold setup_left.
  inversion Hs; subst; cbn in *; subst; cbn; try lia;
    repeat match goal with H : _ ∨ _ |- _ => destruct H end; subst; cbn; try lia.
Qed.

Definition returned (s : Setup) : option (res ()) :=
  match su_daemon s with DReturned r => Some r | _ => None end.
(** Unless it has returned, some step is possible; a goroutine that was not
    told of an error needs no fault for it. *)
Lemma setup_progress s :
  setup_ok s → returned s = None →
  ∃ fault s', setup_step fault s s' ∧ (su_err s = None → fault = false).
Proof.
  intros [Hd Hg]. destruct s as [d g a r e v].
  unfold daemon_ok, goroutine_ok, returned in *. cbn in *.
  destruct d as [| | | | |r']; intros Hr; [| | | | |done].
  - eexists false, _. split; [by apply st_call|done].
  - destruct g; [done|eexists false, _; split; [by apply st_started|done]|..];
      cbn in Hg; destruct Hg as [-> _];
      (eexists false, _; split; [by apply st_reply|done]).
  - eexists false, _. split; [by apply st_dial|done].
  - destruct g; try done.
    + eexists false, _. split; [by apply st_accept|done].
    + eexists true, _. split; [apply (st_dial_fails _ (ErrorText "timeout")); by right|].
      intros ->. by destruct Hg as (_ & _ & [??]).
    + eexists false, _. split; [apply st_dialed; [done..|apply Hg]|done].
    + eexists false, _. split; [apply st_dialed; [done..|apply Hg]|done].
    + destruct e as [err|].
      * eexists true, _. split; [apply (st_dial_fails _ (ErrorText "timeout")); by right|done].
      * eexists false, _. split; [by apply st_dialed|done].
  - destruct Hd as [Hc He]. destruct g; try done.
    + eexists false, _. split; [by apply st_set|done].
    + eexists false, _. split; [apply st_ended; by left|done].
    + eexists false, _. split; [apply st_verify; [done|apply Hg]|done].
Qed.

(** C13: when SetupDaemonService returns nil, however its steps and those of the
    plugin's goroutine were interleaved and whichever transfers failed, the
    plugin has been given the daemon's services and both channels are closed;
    it never panics, and the second call never reports an error of its own. *)
Theorem SetupDaemonService_sound s r :
  rtc any_step setup_start s → returned s = Some r →
  match r with
  | Ok _ => su_service s = true ∧ su_err s = None ∧ su_ready s = Some true
  | Err e => ∀ text, e ≠ ErrorText ("daemon service verification failed: " +:+ text)
  | Panic _ => False
  end.
Proof.
  intros Hs Hr. assert (setup_ok s) as [Hd Hg] by by apply setup_reachable.
  unfold returned, daemon_ok, goroutine_ok in *. destruct r as [[]|e|p].
  - destruct (su_daemon s); try done. injection Hr as ->. destruct Hd as [Hd He].
    rewrite Hd in Hg. naive_solver.
  - intros text ->. revert Hr.
    assert (∀ t, su_daemon s ≠ DReturned (Err (ErrorText t))) as Hn.
    { clear -Hs. revert s Hs. refine (rtc_ind_r
        (λ s, ∀ t, su_daemon s ≠ DReturned (Err (ErrorText t))) setup_start _ _); [done|]. intros y z Hy [fault Hs'] IH t.
      assert (setup_ok y) as [Hd _] by by apply setup_reachable.
      inversion Hs'; subst; cbn; try done; try apply IH.
      unfold daemon_ok, verify_result in *. rewrite H in Hd. destruct Hd as [_ ->]. done. }
    destruct (su_daemon s); try done. intros [= ->]. by eapply Hn.
  - destruct (su_daemon s); try done. by injection Hr as ->.
Qed.

(** C14: SetupDaemonService always returns: no run of the handshake is infinite,
    and a run that has come to a stop has returned; if no transfer failed, it
    has returned nil. *)
Theorem SetupDaemonService_returns :
  well_founded (flip any_step) ∧
  (∀ s, rtc any_step setup_start s → (∀ s', ¬ any_step s s') → is_Some (returned s)) ∧
  (∀ s, rtc (setup_step false) setup_start s → (∀ s', ¬ setup_step false s s') →
     returned s = Some (Ok ())).
Proof.
  assert (∀ s, rtc any_step setup_start s → setup_ok s) as Hok by apply setup_reachable.
  split_and!.
  - apply (wf_projected lt setup_left); [|apply lt_wf]. intros s s'. apply setup_left_step.
  - intros s Hs Hstop. destruct (returned s) eqn:Hr; [done|].
    destruct (setup_progress s (Hok _ Hs) Hr) as (fault & s' & Hst & _).
    destruct (Hstop s'). by exists fault.
  - intros s Hs Hstop.
    assert (su_err s = None ∧ ∀ r, returned s = Some r → r = Ok ()) as [He Hret].
    { clear Hstop. revert s Hs. apply rtc_ind_r; [done|]. intros y z _ Hst [IHe IHr]. unfold returned in *. inversion Hst; subst; cbn; try done.
      split; [done|]. unfold verify_result. rewrite IHe. by intros r [= <-]. }
    destruct (returned s) as [r|] eqn:Hr; [by rewrite (Hret r eq_refl)|].
    assert (rtc any_step setup_start s) as Hs'.
    { eapply rtc_subrel; [|done]. intros x y Hxy. by exists false. }
    destruct (setup_progress s (Hok _ Hs') Hr) as (fault & s' & Hst & Hf).
    rewrite (Hf He) in Hst. by destruct (Hstop s').
Qed.

(** A run without faults, one of many interleavings. *)
Definition setup_end : Setup :=
  {| su_daemon := DReturned (Ok ()); su_goroutine := GEnded; su_acceptReady := true;
     su_ready := Some true; su_err := None; su_service := true |}.
Lemma setup_run : rtc (setup_step false) setup_start setup_end.
Proof.
  eapply rtc_l; [by apply st_call|]. eapply rtc_l; [by apply st_started|].
  eapply rtc_l; [by apply st_reply|]. eapply rtc_l; [by apply st_dial|].
  eapply rtc_l; [by apply st_accept|]. eapply rtc_l; [by apply st_dialed|].
  eapply rtc_l; [by apply st_set|]. eapply rtc_l; [apply st_ended; by left|].
  eapply rtc_l; [by apply st_verify|]. apply rtc_refl.
Qed.
Lemma setup_end_reachable : rtc any_step setup_start setup_end.
Proof. eapply rtc_subrel; [|apply setup_run]. intros x y Hxy. by exists false. Qed.
Lemma setup_end_stops s' : ¬ any_step setup_end s'.
Proof. intros [fault Hs]. inversion Hs; subst; naive_solver. Qed.

Lemma SetupDaemonService_sound_witness : su_service setup_end = true.
Proof.
  exact (proj1 (SetupDaemonService_sound setup_end (Ok ()) setup_end_reachable eq_refl)).
Defined.
Lemma SetupDaemonService_returns_witness : returned setup_end = Some (Ok ()).
Proof.
  exact (proj2 (proj2 SetupDaemonService_returns) setup_end setup_run
    (λ s' Hs, setup_end_stops s' (ex_intro _ false Hs))).
Defined.

(** acceptReadyChan is closed before Accept is called, so the daemon can dial
    while nobody accepts yet; it is the library that makes the dial wait. *)
Example dial_before_accept :
  ∃ s, rtc (setup_step false) setup_start s ∧ su_daemon s = DDialed ∧ su_goroutine s = GAccept.
Proof.
  eexists. split; [|split].
  - eapply rtc_l; [by apply st_call|]. eapply rtc_l; [by apply st_started|].
    eapply rtc_l; [by apply st_reply|]. eapply rtc_l; [by apply st_dial|]. apply rtc_refl.
  - done.
  - done.
Qed.
(** When the dial fails after the plugin has accepted, the daemon reports an
    error (and only logs it), but the plugin keeps a service whose connection
    nobody serves. *)
Example failed_setup_leaves_a_service :
  ∃ s, rtc any_step setup_start s ∧ su_service s = true ∧
    ∃ e, returned s = Some (Err e).
Proof.
  pose (start := λ s s' (H : setup_step false s s'), ex_intro (λ b, setup_step b s s') false H).
  eexists. split; [|split].
  - eapply rtc_l; [by apply start, st_call|]. eapply rtc_l; [by apply start, st_started|].
    eapply rtc_l; [by apply start, st_reply|]. eapply rtc_l; [by apply start, st_dial|].
    eapply rtc_l; [by apply start, st_accept|]. eapply rtc_l; [by apply start, st_set|].
    eapply rtc_l; [exists true; apply (st_dial_fails _ (ErrorText "reset")); by right|].
    apply rtc_refl.
  - done.
  - by eexists.
Qed.
