(* ===== verification/Order.v ===== *)
(** * Order: the orders in which the daemon applies things (daemon/server.go)

    [orderPluginsByDependencies], the depth-first topological sort of the
    enabled plugins, and [orderInterfaces].  The sort's recursion is given
    fuel; one more than the number of enabled plugins is always enough, which is
    what the executable wrapper gives it. *)
From S2P Require Import Prelude GoStr Types Json Value Registry ConfigStore Loader.

(** ** The topological sort *)

(** The maps and the slice the closure [visit] captures. *)
Record visit_state := { vs_sorted : list string; vs_visited : gset string; vs_temp : gset string }.

Section topological_sort.
Context (enabledPlugins : list string) (pluginDeps : gmap string (list string)).

(** The dependencies of a plugin that are enabled, in order. *)
Definition enabled_deps (name : string) : list string :=
  filter (λ dep, dep ∈ enabledPlugins) (default [] (pluginDeps !! name)).

Definition enter (name : string) (s : visit_state) : visit_state :=
  {| vs_sorted := vs_sorted s; vs_visited := vs_visited s; vs_temp := {[name]} ∪ vs_temp s |}.
Definition leave (name : string) (s : visit_state) : visit_state :=
  {| vs_sorted := vs_sorted s ++ [name]; vs_visited := {[name]} ∪ vs_visited s;
     vs_temp := vs_temp s ∖ {[name]} |}.

(** [None]: out of fuel.  The result of [visit] is never used. *)
Fixpoint visit (fuel : nat) (name : string) (s : visit_state) : option visit_state :=
  match fuel with
  | O => None
  | S fuel =>
      if decide (name ∈ vs_temp s) then Some s
      else if decide (name ∈ vs_visited s) then Some s
      else
        leave name <$>
          foldl (λ os dep, os ≫= visit fuel dep) (Some (enter name s)) (enabled_deps name)
  end.

Definition init_state : visit_state :=
  {| vs_sorted := []; vs_visited := ∅; vs_temp := ∅ |}.
(** The loop over the enabled plugins ([visit] checks [visited] itself). *)
Definition sort_plugins (fuel : nat) : option (list string) :=
  vs_sorted <$>
    foldl (λ os name, os ≫= λ s,
             if decide (name ∈ vs_visited s) then Some s else visit fuel name s)
      (Some init_state) enabledPlugins.
Definition topological_sort : list string :=
  default [] (sort_plugins (S (length enabledPlugins))).
End topological_sort.

Section orderPluginsByDependencies.
Context `{Host} `{RangeOrder}.

(** The first loop: the enabled names and the dependencies each declares. *)
Fixpoint collect (l : list (string * PluginState)) (enabledPlugins : list string)
    (pluginDeps : gmap string (list string))
    : M host (list string * gmap string (list string)) :=
  match l with
  | [] => mret (enabledPlugins, pluginDeps)
  | (name, pluginState) :: l =>
      if ps_Enabled pluginState then
        attempt (LoadPlugin name) ≫= λ plugin,
        match plugin with
        | Ok plugin =>
            attempt (Close plugin) ≫= λ _,
            collect l (enabledPlugins ++ [name])
              (<[name := pm_Dependencies (Metadata plugin)]> pluginDeps)
        | _ => collect l (enabledPlugins ++ [name]) (<[name := []]> pluginDeps)
        end
      else collect l enabledPlugins pluginDeps
  end.
Definition orderPluginsByDependencies (pluginsConfig : gomap PluginState)
    : M host (list string) :=
  collect (range (gm pluginsConfig)) [] ∅ ≫= λ '(enabledPlugins, pluginDeps),
  mret (topological_sort enabledPlugins pluginDeps).
End orderPluginsByDependencies.

(** ** orderInterfaces *)
Section orderInterfaces.
Context `{RangeOrder}.

Definition names_of_type (type : string) (l : list (string * Interface)) : list string :=
  (filter (λ p, if_Type p.2 = type) l).*1.
Definition is_known_type (type : string) : bool :=
  bool_decide (type ∈ ["physical"; "vlan"; "bridge"]).
Definition orderInterfaces (interfaces : gomap Interface) : list string :=
  let l := range (gm interfaces) in
  let physical := names_of_type "physical" l in
  let vlan := names_of_type "vlan" l in
  let bridge := names_of_type "bridge" l in
  let other := (filter (λ p, is_known_type (if_Type p.2) = false) l).*1 in
  physical ++ bridge ++ vlan ++ other.
End orderInterfaces.

(** ** Lemmas: the depth-first search *)

(** The names of a part of a map are distinct. *)
Lemma NoDup_filter_range `{RangeOrder} {V} (P : string * V → Prop) `{∀ p, Decision (P p)}
    (m : gmap string V) : NoDup ((filter P (range m)).*1).
Proof.
  apply NoDup_fmap_fst.
  - intros k v v'. rewrite !list_elem_of_filter, !(range_perm m), !elem_of_map_to_list.
    naive_solver congruence.
  - apply NoDup_filter. rewrite range_perm. apply NoDup_map_to_list.
Qed.
Lemma elem_of_filter_range `{RangeOrder} {V} (P : string * V → Prop) `{∀ p, Decision (P p)}
    (m : gmap string V) k :
  k ∈ (filter P (range m)).*1 ↔ ∃ v, m !! k = Some v ∧ P (k, v).
Proof.
  rewrite list_elem_of_fmap. split.
  - intros ([k' v] & -> & [HP Hin]%list_elem_of_filter). rewrite range_perm in Hin.
    apply elem_of_map_to_list in Hin. eauto.
  - intros (v & Hl & HP). exists (k, v). split; [done|]. apply list_elem_of_filter.
    by rewrite range_perm, elem_of_map_to_list.
Qed.

Section sort_lemmas.
Context (E : list string) (deps : gmap string (list string)).
Notation enabled_deps := (enabled_deps E deps).
Notation visit := (visit E deps).

Record visit_inv (s : visit_state) : Prop := {
  vi_nodup : NoDup (vs_sorted s);
  vi_visited x : x ∈ vs_visited s ↔ x ∈ vs_sorted s;
  vi_sorted x : x ∈ vs_sorted s → x ∈ E;
  vi_temp x : x ∈ vs_temp s → x ∈ E;
  vi_disj x : x ∈ vs_temp s → x ∉ vs_sorted s;
}.

(** Every plugin of the list comes after its enabled dependencies. *)
Definition deps_first (l : list string) : Prop :=
  ∀ pre x post, l = pre ++ x :: post → ∀ d, d ∈ enabled_deps x → d ∈ pre.
Definition ranked (rank : string → nat) : Prop :=
  ∀ x d, x ∈ E → d ∈ enabled_deps x → (rank d < rank x)%nat.

(** What a visit of [name], or of several names, does. *)
Record visit_post (names : list string) (s s' : visit_state) : Prop := {
  vp_inv : visit_inv s';
  vp_temp : vs_temp s' = vs_temp s;
  vp_ext : vs_sorted s `prefix_of` vs_sorted s';
  vp_done x : x ∈ names → x ∈ vs_temp s ∨ x ∈ vs_sorted s';
  vp_topo rank : ranked rank →
    (∀ x t, x ∈ names → t ∈ vs_temp s → (rank x < rank t)%nat) →
    deps_first (vs_sorted s) → deps_first (vs_sorted s');
}.

Lemma enabled_deps_E x d : d ∈ enabled_deps x → d ∈ E.
Proof. unfold Order.enabled_deps. by intros [? _]%list_elem_of_filter. Qed.

Lemma temp_size s : visit_inv s → (size (vs_temp s) ≤ length E)%nat.
Proof.
  intros Hi. trans (size (list_to_set E : gset string)).
  - apply subseteq_size. intros x Hx. apply elem_of_list_to_set. by apply (vi_temp _ Hi).
  - clear. induction E as [|x l IH]; [done|]. cbn.
    pose proof (size_union_alt ({[x]} : gset string) (list_to_set l)) as Hu.
    rewrite size_singleton in Hu.
    assert (size (list_to_set l ∖ {[x]} : gset string) ≤ size (list_to_set l : gset string))%nat
      by (apply subseteq_size; set_solver). lia.
Qed.

Lemma visit_post_refl s names :
  visit_inv s → (∀ x, x ∈ names → x ∈ vs_temp s ∨ x ∈ vs_sorted s) → visit_post names s s.
Proof. intros Hi Hd. by split. Qed.

Lemma visit_inv_enter name s :
  visit_inv s → name ∈ E → name ∉ vs_visited s → visit_inv (enter name s).
Proof.
  intros [Hnd Hv Hs Ht Hd] Hn Hnv. split; cbn; try done.
  - intros x. set_solver.
  - intros x [->%elem_of_singleton|Hx]%elem_of_union; [by rewrite <-Hv|by apply Hd].
Qed.
Lemma visit_inv_leave name s :
  visit_inv s → name ∈ vs_temp s → visit_inv (leave name s).
Proof.
  intros [Hnd Hv Hs Ht Hd] Hn. split; cbn.
  - apply NoDup_app. split_and!; [done| |apply NoDup_singleton].
    intros x Hx ->%list_elem_of_singleton. by apply (Hd name).
  - intros x. rewrite elem_of_union, elem_of_app, Hv. set_solver.
  - intros x [Hx| ->%list_elem_of_singleton]%elem_of_app; auto.
  - set_solver.
  - intros x [Hx Hne]%elem_of_difference. pose proof (Hd _ Hx). set_solver.
Qed.

Lemma deps_first_snoc l name :
  deps_first l → (∀ d, d ∈ enabled_deps name → d ∈ l) → deps_first (l ++ [name]).
Proof.
  intros Hl Hn pre x post. destruct post as [|y post _] using rev_ind.
  - intros [-> [= ->]]%app_inj_tail. done.
  - rewrite app_comm_cons, (assoc_L (++)). intros [-> _]%app_inj_tail d Hd.
    by eapply Hl.
Qed.

(** A fold of visits, given that each of them does its work. *)
Lemma visit_all (f : string → visit_state → option visit_state) (P : visit_state → Prop) l s :
  (∀ x s, x ∈ l → visit_inv s → P s → ∃ s', f x s = Some s' ∧ visit_post [x] s s' ∧ P s') →
  visit_inv s → P s →
  ∃ s', foldl (λ os x, os ≫= f x) (Some s) l = Some s' ∧ visit_post l s s' ∧ P s'.
Proof.
  revert s. induction l as [|x l IH]; intros s Hf Hi HP.
  { exists s. split_and!; [done| |done]. apply visit_post_refl; [done|]. set_solver. }
  destruct (Hf x s ltac:(set_solver) Hi HP) as (s1 & Hf1 & [Hi1 Ht1 He1 Hd1 Hto1] & HP1).
  destruct (IH s1) as (s2 & Hf2 & [Hi2 Ht2 He2 Hd2 Hto2] & HP2); [set_solver|done..|].
  exists s2. split_and!; [cbn; by rewrite Hf1| |done]. split; try done.
  - congruence.
  - by etrans.
  - intros y [->|Hy]%elem_of_cons.
    + destruct (Hd1 x) as [?|Hx]; [set_solver|by left|right]. by eapply elem_of_prefix.
    + rewrite <-Ht1. by apply Hd2.
  - intros rank Hr Hrank Hto. apply (Hto2 rank); [done| |].
    + intros y t Hy Ht. rewrite Ht1 in Ht. apply Hrank; [set_solver|done].
    + apply (Hto1 rank); [done| |done]. intros y t Hy Ht. apply Hrank; set_solver.
Qed.

Lemma visit_spec fuel name s :
  visit_inv s → name ∈ E → (length E < fuel + size (vs_temp s))%nat →
  ∃ s', visit fuel name s = Some s' ∧ visit_post [name] s s'.
Proof.
  revert name s. induction fuel as [|fuel IH]; intros name s Hi Hn Hf.
  { pose proof (temp_size s Hi). lia. }
  cbn [Order.visit]. destruct (decide (name ∈ vs_temp s)) as [Ht|Ht].
  { exists s. split; [done|]. apply visit_post_refl; [done|]. set_solver. }
  destruct (decide (name ∈ vs_visited s)) as [Hv|Hv].
  { exists s. split; [done|]. apply visit_post_refl; [done|]. intros x.
    rewrite <-(vi_visited _ Hi). set_solver. }
  pose proof (visit_inv_enter name s Hi Hn Hv) as Hi1.
  destruct (visit_all (visit fuel) (λ s', vs_temp s' = vs_temp (enter name s))
    (enabled_deps name) (enter name s)) as (s2 & Hf2 & Hp2 & _); [|done|done|].
  { intros d s' Hd Hi' Ht'. destruct (IH d s' Hi') as (s'' & Hv'' & Hp'').
    - by eapply enabled_deps_E.
    - rewrite Ht'. cbn. rewrite size_union by set_solver. rewrite size_singleton. lia.
    - exists s''. split_and!; [done|done|]. by rewrite (vp_temp _ _ _ Hp''). }
  rewrite Hf2. exists (leave name s2). split; [done|].
  destruct Hp2 as [Hi2 Ht2 He2 Hd2 Hto2]. cbn in Ht2.
  split; cbn.
  - apply visit_inv_leave; [done|]. rewrite Ht2. set_solver.
  - rewrite Ht2. set_solver.
  - etrans; [exact He2|]. by exists [name].
  - intros x ->%list_elem_of_singleton. right. set_solver.
  - intros rank Hr Hrank Hto. apply deps_first_snoc.
    + apply (Hto2 rank Hr); [|done]. cbn. intros d t Hd.
      assert (rank d < rank name)%nat by by apply Hr.
      intros [->%elem_of_singleton|Htt]%elem_of_union; [done|].
      pose proof (Hrank name t ltac:(set_solver) Htt). lia.
    + intros d Hd. destruct (Hd2 d Hd) as [Hin|?]; [exfalso|done]. cbn in Hin.
      assert (rank d < rank name)%nat by by apply Hr.
      apply elem_of_union in Hin as [->%elem_of_singleton|Hin]; [lia|].
      pose proof (Hrank name d ltac:(set_solver) Hin). lia.
Qed.

Lemma visit_inv_init : visit_inv init_state.
Proof. split; cbn; try set_solver. constructor. Qed.

Lemma sort_plugins_spec fuel :
  (length E < fuel)%nat →
  ∃ s, sort_plugins E deps fuel = Some (vs_sorted s) ∧ visit_post E init_state s.
Proof.
  intros Hf. unfold sort_plugins.
  destruct (visit_all (λ name s, if decide (name ∈ vs_visited s) then Some s
                                 else visit fuel name s) (λ s, vs_temp s = ∅) E init_state)
    as (s & Hs & Hp & _); [|apply visit_inv_init|done|rewrite Hs; eauto].
  intros x s Hx Hi Ht. destruct (decide (x ∈ vs_visited s)) as [Hv|Hv].
  - exists s. split_and!; [done| |done]. apply visit_post_refl; [done|].
    intros y ->%list_elem_of_singleton. right. by apply (vi_visited _ Hi).
  - destruct (visit_spec fuel x s Hi Hx) as (s' & Hs' & Hp'); [lia|].
    exists s'. split_and!; [done..|]. by rewrite (vp_temp _ _ _ Hp').
Qed.
End sort_lemmas.

(** ** Properties *)

(** C28: the topological sort of the enabled plugins always terminates (its
    recursion is at most one deeper than the number of plugins) and returns each
    of them exactly once, cycles or not; and when the dependencies among enabled
    plugins have no cycle, every plugin comes after all of its enabled
    dependencies. *)
Theorem topological_sort_correct E deps :
  NoDup E →
  sort_plugins E deps (S (length E)) = Some (topological_sort E deps) ∧
  topological_sort E deps ≡ₚ E ∧
  ((∃ rank, ranked E deps rank) → deps_first E deps (topological_sort E deps)).
Proof.
  intros Hnd. destruct (sort_plugins_spec E deps (S (length E)) ltac:(lia)) as (s & Hs & Hp).
  unfold topological_sort. rewrite Hs. cbn. split; [done|].
  destruct Hp as [Hi _ _ Hd Hto]. split.
  - apply NoDup_Permutation; [apply (vi_nodup _ _ Hi)|done|]. intros x. split.
    + apply (vi_sorted _ _ Hi).
    + intros Hx. by destruct (Hd x Hx).
  - intros [rank Hr]. apply (Hto rank Hr); [cbn; set_solver|].
    cbn. intros pre x post Hl. by destruct pre.
Qed.

Definition sample_deps : gmap string (list string) :=
  {["dnsmasq" := ["nftables"]; "vpn" := ["dnsmasq"; "absent"]]}.
Lemma topological_sort_correct_witness :
  NoDup ["vpn"; "dnsmasq"; "nftables"] ∧
  deps_first ["vpn"; "dnsmasq"; "nftables"] sample_deps
    (topological_sort ["vpn"; "dnsmasq"; "nftables"] sample_deps) ∧
  topological_sort ["vpn"; "dnsmasq"; "nftables"] sample_deps = ["nftables"; "dnsmasq"; "vpn"].
Proof.
  assert (NoDup ["vpn"; "dnsmasq"; "nftables"]) as Hnd
    by (apply (bool_decide_unpack _); vm_compute; exact I).
  split; [exact Hnd|]. split; [|vm_compute; reflexivity].
  apply (topological_sort_correct _ sample_deps Hnd).
  exists (λ x, if String.eqb x "vpn" then 2%nat else if String.eqb x "dnsmasq" then 1%nat else 0%nat).
  intros x d Hx Hd. unfold enabled_deps in Hd.
  repeat (apply elem_of_cons in Hx as [->|Hx]; [vm_compute in Hd |- *|]).
  1-3: repeat (apply elem_of_cons in Hd as [->|Hd]; [vm_compute; lia|]); set_solver.
  set_solver.
Defined.

Section collect.
Context `{Host} `{RangeOrder}.

Definition enabled_names (l : list (string * PluginState)) : list string :=
  (filter (λ p, ps_Enabled p.2 = true) l).*1.

Lemma collect_enabled l : ∀ en deps en' deps' h h',
  collect l en deps h = (Ok (en', deps'), h') → en' = en ++ enabled_names l.
Proof.
  induction l as [|[name st] l IH]; intros en deps en' deps' h h'; cbn [collect].
  { intros [= -> _ _]. by rewrite app_nil_r. }
  unfold enabled_names. rewrite filter_cons. cbn [snd].
  destruct (ps_Enabled st); [|by apply IH]. rewrite decide_True by done.
  unfold mbind, M_bind, attempt.
  destruct (LoadPlugin name h) as [[pl|e|w] h1].
  - destruct (Close pl h1) as [[[]|e|w] h2]; [| |done];
      intros Hc; apply IH in Hc; rewrite Hc; cbn; by rewrite <-(assoc_L (++)).
  - intros Hc. apply IH in Hc. rewrite Hc. cbn. by rewrite <-(assoc_L (++)).
  - done.
Qed.
End collect.

Lemma collect_returns `{HostSafe} l : ∀ en deps h,
  ∃ en' deps' h', collect l en deps h = (Ok (en', deps'), h').
Proof.
  induction l as [|[name st] l IH]; intros en deps h; cbn [collect]; [by eexists _, _, _|].
  destruct (ps_Enabled st); [|apply IH]. unfold mbind, M_bind, attempt.
  pose proof (safe_LoadPlugin name h). destruct (LoadPlugin name h) as [[pl|e|w] h1];
    cbn in *; [|apply IH|done].
  pose proof (safe_Close pl h1). destruct (Close pl h1) as [[[]|e|w] h2]; cbn in *;
    [apply IH..|done].
Qed.

Lemma ordered_plugins `{HostSafe} `{RangeOrder} cfg h :
  ∃ l h', orderPluginsByDependencies cfg h = (Ok l, h') ∧ NoDup l ∧
    ∀ name, name ∈ l ↔ ∃ st, gm cfg !! name = Some st ∧ ps_Enabled st = true.
Proof.
  unfold orderPluginsByDependencies, mbind, M_bind.
  destruct (collect_returns (range (gm cfg)) [] ∅ h) as (en & deps & h' & Hc).
  rewrite Hc. eexists _, h'. split; [reflexivity|].
  apply collect_enabled in Hc. cbn in Hc. subst en.
  destruct (sort_plugins_spec (enabled_names (range (gm cfg))) deps
    (S (length (enabled_names (range (gm cfg))))) ltac:(lia)) as (s & Hs & [Hi _ _ Hd _]).
  unfold topological_sort. rewrite Hs. cbn. split; [apply (vi_nodup _ _ Hi)|].
  intros name. transitivity (name ∈ enabled_names (range (gm cfg))).
  - split; [apply (vi_sorted _ _ Hi)|]. intros Hx. by destruct (Hd name Hx).
  - apply elem_of_filter_range.
Qed.

(** Whatever the plugin processes answer (failing to start included), the
    order for applying plugins is computed, and it contains exactly the enabled
    plugins of the configuration, each once. *)
Theorem orderPluginsByDependencies_perm `{HostSafe} `{RangeOrder} cfg h :
  ∃ l h', orderPluginsByDependencies cfg h = (Ok l, h') ∧ NoDup l ∧
    ∀ name, name ∈ l ↔ ∃ st, gm cfg !! name = Some st ∧ ps_Enabled st = true.
Proof. apply ordered_plugins. Qed.

(** A host without plugins: nothing is executable, no process can be reached. *)
Definition no_processes : Host := {|
  host := ();
  h_executable _ := mret false; h_ReadDir _ := mret []; h_NewPluginClient _ := fail ErrNotExist;
  h_Dispense _ := mret (); h_Metadata _ := fail ErrNotExist; h_SetupDaemonService _ := mret ();
  h_ApplyConfig _ _ := mret (); h_ValidateConfig _ _ := mret (); h_Flush _ := mret ();
  h_Status _ := mret JNull; h_ExecuteCLICommand _ _ _ := mret "";
  h_CallService _ _ _ _ := mret (Some JNull); h_Close _ := mret () |}.
Lemma no_processes_safe : HostSafe (H:=no_processes).
Proof. split; repeat intro; exact I. Qed.
Lemma orderPluginsByDependencies_perm_witness :
  let _ := default_order in let _ := no_processes in
  let cfg := Some {["led" := {| ps_Version := "1"; ps_Enabled := true |}]} in
  ∃ l h', orderPluginsByDependencies cfg () = (Ok l, h') ∧ NoDup l.
Proof.
  intros o hs cfg.
  destruct (@orderPluginsByDependencies_perm no_processes no_processes_safe default_order cfg ())
    as (l & h' & E & Hnd & _).
  exists l, h'. split; [exact E|exact Hnd].
Defined.

Definition type_rank (type : string) : nat :=
  if String.eqb type "physical" then 0 else if String.eqb type "bridge" then 1
  else if String.eqb type "vlan" then 2 else 3.
Definition rank_of (interfaces : gomap Interface) (name : string) : nat :=
  from_option (type_rank ∘ if_Type) 3%nat (gm interfaces !! name).

Lemma StronglySorted_app_intro {A} (R : A → A → Prop) l1 l2 :
  StronglySorted R l1 → StronglySorted R l2 → (∀ x y, x ∈ l1 → y ∈ l2 → R x y) →
  StronglySorted R (l1 ++ l2).
Proof.
  intros H1 H2 Hx. induction H1 as [|a l1 H1 IH Hf]; [done|]. cbn. constructor.
  - apply IH. set_solver.
  - apply Forall_app. split; [done|]. apply Forall_forall. set_solver.
Qed.
Lemma StronglySorted_const {A} (f : A → nat) n l :
  (∀ x, x ∈ l → f x = n) → StronglySorted (λ x y, (f x ≤ f y)%nat) l.
Proof.
  induction l as [|x l IH]; intros Hf; constructor; [apply IH; set_solver|].
  apply Forall_forall. intros y Hy. rewrite (Hf x), (Hf y); set_solver.
Qed.

Section order_lemmas.
Context `{RangeOrder}.

Lemma rank_names_of_type t interfaces x :
  x ∈ names_of_type t (range (gm interfaces)) → rank_of interfaces x = type_rank t.
Proof.
  intros (i & Hi & <-)%elem_of_filter_range. unfold rank_of. by rewrite Hi.
Qed.
Lemma rank_other interfaces x :
  x ∈ (filter (λ p, is_known_type (if_Type p.2) = false) (range (gm interfaces))).*1 →
  rank_of interfaces x = 3%nat.
Proof.
  intros (i & Hi & Hk)%elem_of_filter_range. unfold rank_of. rewrite Hi. cbn.
  cbn in Hk. apply bool_decide_eq_false in Hk. unfold type_rank.
  repeat (case_match eqn:He; [apply String.eqb_eq in He; set_solver|clear He]). done.
Qed.
Lemma orderInterfaces_perm_range interfaces :
  orderInterfaces interfaces ≡ₚ (range (gm interfaces)).*1.
Proof.
  unfold orderInterfaces. cbv zeta. generalize (range (gm interfaces)) as l.
  induction l as [|[n i] l IH]; [done|]. unfold names_of_type in *.
  rewrite !filter_cons. cbn [snd fst]. unfold is_known_type at 1.
  destruct (decide (if_Type i = "physical")) as [He|H1].
  { rewrite He, !decide_False by (done || by vm_compute). cbn. by rewrite IH. }
  destruct (decide (if_Type i = "bridge")) as [He|H2].
  { rewrite He, !decide_False by (done || by vm_compute). cbn.
    rewrite <-Permutation_middle. by rewrite IH. }
  destruct (decide (if_Type i = "vlan")) as [He|H3].
  { rewrite He, !decide_False by (done || by vm_compute). cbn.
    rewrite !(assoc_L (++)), <-Permutation_middle. rewrite <-!(assoc_L (++)). by rewrite IH. }
  rewrite decide_True.
  2: { apply bool_decide_eq_false. set_solver. }
  cbn. rewrite !(assoc_L (++)), <-Permutation_middle. rewrite <-!(assoc_L (++)). by rewrite IH.
Qed.
End order_lemmas.

(** The order in which interfaces are applied contains every configured
    interface exactly once, whatever order the map is walked in, and puts all
    physical interfaces before all bridges, all bridges before all VLANs and all
    VLANs before interfaces of any other type. *)
Theorem orderInterfaces_correct `{RangeOrder} interfaces :
  orderInterfaces interfaces ≡ₚ (map_to_list (gm interfaces)).*1 ∧
  StronglySorted (λ x y, (rank_of interfaces x ≤ rank_of interfaces y)%nat)
    (orderInterfaces interfaces).
Proof.
  split; [by rewrite orderInterfaces_perm_range, range_perm|].
  unfold orderInterfaces. cbv zeta.
  repeat apply StronglySorted_app_intro;
    try (eapply (StronglySorted_const (rank_of interfaces)); intros x Hx;
         first [by apply rank_names_of_type in Hx|by apply rank_other in Hx]).
  - intros x y Hx%rank_names_of_type Hy%rank_other. rewrite Hx, Hy. vm_compute. lia.
  - intros x y Hx%rank_names_of_type [Hy%rank_names_of_type|Hy%rank_other]%elem_of_app;
      rewrite Hx, Hy; vm_compute; lia.
  - intros x y Hx%rank_names_of_type [Hy%rank_names_of_type|[Hy%rank_names_of_type|Hy%rank_other]
      %elem_of_app]%elem_of_app; rewrite Hx, Hy; vm_compute; lia.
Qed.
