(* ===== verification/Server.v ===== *)
(** * Server: the configuration commands of daemon/server.go

    The daemon's world and the handlers of status, diff, validate, commit,
    revert, show, get, set and the checkpoint list, each as the computation it
    performs on the world; the network observer, logging and the socket are not
    part of them.  A handler always makes a [Response] unless it panics. *)
From S2P Require Import Prelude GoStr Types Validation Json Value Struct Codec Navigator Path Diff ConfigStore State Registry Services Loader Order.

(** ** protocol.go *)
Inductive data :=
| DNone
| DText (s : string)
| DStrings (l : list string)
| DLines (l : list (list piece))
| DValue (v : value)
| DConfig (c : option config_obj)
| DAll (m : gmap string (value + option config_obj))
| DSnapshots (l : list SnapshotInfo)
| DJson (j : json).
(** A message can hold a value under %v; [DJson] is data given by its JSON. *)
Record Response := {
  rp_Data : data; rp_Message : list piece; rp_Error : string; rp_Success : bool;
}.
Definition fail_response (e : string) : Response :=
  {| rp_Data := DNone; rp_Message := []; rp_Error := e; rp_Success := false |}.
Definition ok_response (d : data) (msg : list piece) : Response :=
  {| rp_Data := d; rp_Message := msg; rp_Error := ""; rp_Success := true |}.
Definition ok_message (msg : string) : Response := ok_response DNone [PText msg].

(** ** The world *)
Section world.
Context `{Host}.
Record World := {
  w_state : State; w_fs : FS; w_registry : PluginRegistry; w_services : ServiceRegistry;
  w_host : host;
}.
Definition set_state (s : State) (w : World) : World :=
  {| w_state := s; w_fs := w_fs w; w_registry := w_registry w;
     w_services := w_services w; w_host := w_host w |}.
Definition with_state {A} (f : State → A) : M World A := gets (λ w, f (w_state w)).
Definition update_state (f : State → State) : M World () :=
  modify (λ w, set_state (f (w_state w)) w).
Definition in_fs {A} (m : M FS A) : M World A := λ w,
  match m (w_fs w) with
  | (r, fs) => (r, {| w_state := w_state w; w_fs := fs; w_registry := w_registry w;
                      w_services := w_services w; w_host := w_host w |})
  end.
Definition in_host {A} (m : M host A) : M World A := λ w,
  match m (w_host w) with
  | (r, h) => (r, {| w_state := w_state w; w_fs := w_fs w; w_registry := w_registry w;
                     w_services := w_services w; w_host := h |})
  end.
Definition in_services {A} (m : M ServiceRegistry A) : M World A := λ w,
  match m (w_services w) with
  | (r, s) => (r, {| w_state := w_state w; w_fs := w_fs w; w_registry := w_registry w;
                     w_services := s; w_host := w_host w |})
  end.
Definition set_registry (r : PluginRegistry) (w : World) : World :=
  {| w_state := w_state w; w_fs := w_fs w; w_registry := r;
     w_services := w_services w; w_host := w_host w |}.

(** [v, err := r; if err != nil { return Response{Error: prefix + err} }]. *)
Definition or_fail {A} (prefix : string) (r : res A) (k : A → M World Response)
    : M World Response :=
  match r with
  | Ok a => k a
  | Err e => mret (fail_response (prefix +:+ error_string e))
  | Panic w => lift (Panic w)
  end.
Definition try_or_fail {A} (prefix : string) (m : M World A) (k : A → M World Response)
    : M World Response := attempt m ≫= λ r, or_fail prefix r k.
End world.

(** ** Deep copies *)
Definition deepCopyInterfaces (src : InterfacesConfig) : InterfacesConfig :=
  with_Interfaces (Some (gm (ic_Interfaces src))) src.
Definition deepCopyRoutes (src : RoutesConfig) : RoutesConfig :=
  with_Routes (Some (gm (rc_Routes src))) src.
(** The copy of a configuration object: what its JSON decodes to.  [None] is
    the nil interface, the copy of a nil map. *)
Definition deepCopyGeneric (src : config_obj) : option config_obj :=
  match Unmarshal_any (marshal_obj src) with
  | VMap m => Some (OMap (Some m))
  | _ => None
  end.

Section server.
Context `{Host} `{RangeOrder} `{OS} `{FloatToInt}.

Definition handleStatus : M World Response :=
  with_state HasPending ≫= λ pending,
  mret (ok_message (if pending : bool then "Pending changes exist" else "No pending changes")).

(** ** diff *)
Fixpoint collect_diffs (s : State) (types : list string) (allDiffs : list DiffResult)
    (k : list DiffResult → M World Response) : M World Response :=
  match types with
  | [] => k allDiffs
  | t :: types =>
      or_fail ("failed to get committed " +:+ t +:+ " config: ") (GetCommitted t s)
        (λ committed,
      or_fail ("failed to get pending " +:+ t +:+ " config: ") (GetCurrent t s) (λ pending,
      or_fail ("failed to diff " +:+ t +:+ " config: ")
        (DiffConfigs t (deref s committed) (deref s pending)) (λ diffs,
      collect_diffs s types (allDiffs ++ diffs) k)))
  end.
Definition handleDiff : M World Response :=
  with_state id ≫= λ s,
  if HasPending s then
    collect_diffs s (GetPendingTypes s) [] (λ allDiffs,
      mret (ok_response (DLines (FormatDiff allDiffs))
              [PText (itoa (Z.of_nat (length allDiffs)) +:+ " change(s)")]))
  else mret (ok_response (DText "") [PText "No pending changes"]).

(** ** commit *)
Definition validate_interfaces (c : InterfacesConfig) (v : ErrorCollector) : ErrorCollector :=
  fold_left (λ v p, when_some (Interface_Validate p.2)
                      (λ err, CheckMsg (Some err) ("interface " +:+ p.1)) v)
    (range (gm (ic_Interfaces c))) v.
Definition validate_routes (c : RoutesConfig) (v : ErrorCollector) : ErrorCollector :=
  fold_left (λ v p, when_some (Route_Validate p.2) (λ err, Check (Some err)) v)
    (range (gm (rc_Routes c))) v.

Fixpoint validate_types (types : list string) (v : ErrorCollector) : M World ErrorCollector :=
  match types with
  | [] => mret v
  | t :: types =>
      with_state id ≫= λ s,
      match GetCurrent t s with
      | Err err =>
          validate_types types (CheckMsg (Some err) ("failed to get " +:+ t +:+ " config") v)
      | Panic w => lift (Panic w)
      | Ok config =>
          if bool_decide (t = "interfaces") then
            validate_types types
              match deref s config with Some (OIfaces c) => validate_interfaces c v | _ => v end
          else if bool_decide (t = "routes") then
            validate_types types
              match deref s config with Some (ORoutes c) => validate_routes c v | _ => v end
          else
            gets (λ w, Registry.Get t (w_registry w)) ≫= λ plugin,
            match plugin with
            | None => validate_types types v
            | Some plugin =>
                attempt (in_host (ValidateConfig plugin (deref s config))) ≫= λ r,
                validate_types types
                  match r with
                  | Err err => CheckMsg (Some err) (t +:+ " plugin") v
                  | _ => v
                  end
            end
      end
  end.
Definition validatePending : M World (option error) :=
  with_state GetPendingTypes ≫= λ pendingTypes,
  validate_types pendingTypes NewCollector ≫= λ v, mret (Error v).

(** The file of a configuration: its plugin's name if a plugin has the
    namespace. *)
Definition config_filename (t : string) (r : PluginRegistry) : string :=
  if is_core t then t else default t (Registry.GetPluginNameForNamespace t r).

Fixpoint save_types (types : list string) (k : M World Response) : M World Response :=
  match types with
  | [] => k
  | t :: types =>
      with_state id ≫= λ s,
      or_fail ("failed to get committed " +:+ t +:+ " config: ") (GetCommitted t s)
        (λ config,
      gets (λ w, config_filename t (w_registry w)) ≫= λ filename,
      try_or_fail ("failed to save " +:+ filename +:+ " config: ")
        (in_fs (SaveConfig filename (marshal_config (deref s config)))) (λ _,
      save_types types k))
  end.
Definition newline : string := String "010"%char "".
Definition handleCommit : M World Response :=
  validatePending ≫= λ verr,
  match verr with
  | Some err =>
      mret (fail_response ("validation failed:" +:+ newline +:+ error_string err))
  | None =>
      with_state GetPendingTypes ≫= λ pendingTypes,
      match pendingTypes with
      | [] => mret (ok_message "No pending changes to commit")
      | _ =>
          with_state CommitPending ≫= λ committed,
          or_fail "" committed (λ s,
          update_state (λ _, s) ≫= λ _,
          save_types pendingTypes (mret (ok_message "Changes committed")))
      end
  end.

Definition handleRevert : M World Response :=
  with_state RevertPending ≫= λ reverted,
  or_fail "" reverted (λ s,
  update_state (λ _, s) ≫= λ _, mret (ok_message "Pending changes discarded")).

(** ** show and get *)
Definition all_configs (s : State) (r : PluginRegistry)
    : gmap string (value + option config_obj) :=
  let m : gmap string (value + option config_obj) := ∅ in
  let m := match GetCurrentInterfaces s with
           | Some c => <["interfaces" := inl (VIfaces (ic_Interfaces c))]> m
           | None => m
           end in
  let m := match GetCurrentRoutes s with
           | Some c => <["routes" := inl (VRoutes (rc_Routes c))]> m
           | None => m
           end in
  fold_left (λ m ns, match GetCurrent ns s with
                     | Ok config => <[ns := inr (deref s config)]> m
                     | _ => m
                     end) (Registry.List r) m.

Definition handleShow (path : string) : M World Response :=
  gets id ≫= λ w,
  if bool_decide (path = "") then
    mret (ok_response (DAll (all_configs (w_state w) (w_registry w))) [])
  else
    or_fail "" (ParseConfigType path) (λ configType,
    or_fail "" (GetCurrent configType (w_state w)) (λ config,
    mret (ok_response (DConfig (deref (w_state w) config)) []))).

Definition rewritePath (r : PluginRegistry) (path : string) : string :=
  match path_parts path with
  | namespace :: (_ :: _) as rest =>
      let prefix := Registry.GetPathPrefix namespace r in
      if bool_decide (prefix = "") then path
      else join "." (namespace :: prefix :: rest)
  | _ => path
  end.

Definition handleGet (path : string) : M World Response :=
  gets id ≫= λ w,
  if bool_decide (path = "") then
    mret (ok_response (DAll (all_configs (w_state w) (w_registry w))) [])
  else
    let path := rewritePath (w_registry w) path in
    or_fail "" (ParseConfigType path) (λ configType,
    or_fail "" (GetCurrent configType (w_state w)) (λ config,
    or_fail "" (GetValue (deref (w_state w) config) path) (λ v,
    mret (ok_response (DValue v) [])))).

(** ** set *)

(** The copy to edit when nothing is pending: a new object, or nil; a core
    configuration of the wrong type is not copied. *)
Definition working_copy (configType : string) (config committed : option loc) (s : State)
    : option loc * State :=
  let copy (o : option config_obj) :=
    match o with
    | Some o => let '(l, s) := alloc o s in (Some l, s)
    | None => (None, s)
    end in
  if bool_decide (configType = "interfaces") then
    match deref s committed with
    | Some (OIfaces c) => copy (Some (OIfaces (deepCopyInterfaces c)))
    | _ => (config, s)
    end
  else if bool_decide (configType = "routes") then
    match deref s committed with
    | Some (ORoutes c) => copy (Some (ORoutes (deepCopyRoutes c)))
    | _ => (config, s)
    end
  else copy (deref s committed ≫= deepCopyGeneric).

(** [SetValue] on the object behind [config], in place. *)
Definition set_in_place (config : option loc) (path : string) (v : value) (s : State)
    : res State :=
  SetValue (deref s config) path v ≫= λ o,
  Ok match config with
     | Some l => with_heap (<[l := o]> (heap s)) s
     | None => s
     end.

Definition stage (configType path : string) (v : value) (s : State) : res State :=
  GetCurrent configType s ≫= λ config,
  (if HasPendingFor configType s then Ok (config, s)
   else GetCommitted configType s ≫= λ committed,
        Ok (working_copy configType config committed s)) ≫= λ '(config, s),
  set_in_place config path v s ≫= λ s,
  Ok (SetPending configType config s).

(** When an error is returned the state still has the working copy, which
    nothing refers to; it is dropped. *)
Definition handleSet (path : string) (v : value) : M World Response :=
  gets id ≫= λ w,
  let path := rewritePath (w_registry w) path in
  or_fail "" (ParseConfigType path) (λ configType,
  or_fail "" (stage configType path v (w_state w)) (λ s,
  update_state (λ _, s) ≫= λ _,
  mret (ok_response DNone [PText ("Staged: " +:+ path +:+ " = "); PValue v]))).

(** ** validate *)
Definition bad_interface (p : string * Interface) : option string :=
  if bool_decide (if_Type p.2 = "") then
    Some ("interface " +:+ p.1 +:+ ": type is required")
  else if negb (is_known_type (if_Type p.2)) then
    Some ("interface " +:+ p.1 +:+ ": invalid type " +:+ if_Type p.2)
  else None.
Definition handleValidate (path : string) (v : value) : M World Response :=
  gets id ≫= λ w,
  let path := rewritePath (w_registry w) path in
  or_fail "" (ParseConfigType path) (λ configType,
  let valid := mret (ok_message "Configuration is valid") in
  if bool_decide (configType = "interfaces") then
    or_fail "invalid interfaces structure: " (Unmarshal_Interfaces (Marshal v)) (λ m,
    match omap bad_interface (range (gm m)) with
    | e :: _ => mret (fail_response e)
    | [] => valid
    end)
  else if bool_decide (configType = "routes") then
    or_fail "invalid routes structure: " (Unmarshal_Routes (Marshal v)) (λ _, valid)
  else
    or_fail "invalid config structure: " (Unmarshal_map (Marshal v)) (λ _, valid)).

Definition handleCheckpointList : M World Response :=
  with_state ListSnapshots ≫= λ l, mret (ok_response (DSnapshots l) []).
End server.

(** ** Lemmas: a commit always answers *)

Section safety.
Context `{HostSafe} `{RangeOrder} `{OS}.

Lemma safe_in_host {A} (m : M host A) : safe m → safe (in_host m).
Proof. intros Hm w. specialize (Hm (w_host w)). unfold in_host. by destruct (m _). Qed.
Lemma safe_in_fs {A} (m : M FS A) : safe m → safe (in_fs m).
Proof. intros Hm w. specialize (Hm (w_fs w)). unfold in_fs. by destruct (m _). Qed.
Lemma safe_in_services {A} (m : M ServiceRegistry A) : safe m → safe (in_services m).
Proof. intros Hm w. specialize (Hm (w_services w)). unfold in_services. by destruct (m _). Qed.

Lemma returns_or_fail {A} p (r : res A) k :
  no_panic r → (∀ a, returns (k a)) → returns (or_fail p r k).
Proof. destruct r; cbn; intros; [auto|apply returns_ret|done]. Qed.
Lemma no_panic_GetCurrent t s : no_panic (GetCurrent t s).
Proof. unfold GetCurrent. by case_match. Qed.
Lemma no_panic_GetCommitted t s : no_panic (GetCommitted t s).
Proof. unfold GetCommitted. by case_match. Qed.

Lemma returns_validate_types types : ∀ v, returns (validate_types types v).
Proof.
  induction types as [|t types IH]; intros v; cbn [validate_types]; [apply returns_ret|].
  apply returns_bind; [apply returns_gets|]. intros s. pose proof (no_panic_GetCurrent t s).
  destruct (GetCurrent t s) as [config|e|p]; [|apply IH|done].
  repeat (case_match; [apply IH|]).
  apply returns_bind; [apply returns_gets|]. intros [plugin|]; [|apply IH].
  apply returns_attempt_bind; [apply safe_in_host, hs_ValidateConfig|]. intros. apply IH.
Qed.
Lemma returns_save_types types k : returns k → returns (save_types types k).
Proof.
  intros Hk. induction types as [|t types IH]; cbn [save_types]; [done|].
  apply returns_bind; [apply returns_gets|]. intros s.
  apply returns_or_fail; [apply no_panic_GetCommitted|]. intros config.
  apply returns_bind; [apply returns_gets|]. intros filename.
  apply returns_attempt_bind; [apply safe_in_fs; auto with safe|]. intros r Hr.
  by apply returns_or_fail.
Qed.
Lemma returns_handleCommit : returns handleCommit.
Proof.
  apply returns_bind.
  { apply returns_bind; [apply returns_gets|]. intros types.
    apply returns_bind; [apply returns_validate_types|]. intros. apply returns_ret. }
  intros [err|]; [apply returns_ret|]. apply returns_bind; [apply returns_gets|].
  intros [|t types]; [apply returns_ret|].
  apply (returns_gets_bind _ no_panic).
  { intros w. unfold CommitPending. by case_match. }
  intros committed Hc. apply returns_or_fail; [done|]. intros s.
  apply returns_bind; [apply returns_modify|]. intros _. apply returns_save_types, returns_ret.
Qed.
End safety.

(** ** Lemmas: staging a change *)

Lemma ParseConfigType_parts path t :
  ParseConfigType path = Ok t → ∃ rest, path_parts path = t :: rest.
Proof.
  unfold ParseConfigType. destruct (path_parts path) as [|p rest]; [done|].
  case_bool_decide; [done|]. intros [= <-]. eauto.
Qed.
Lemma SetValue_nil `{FloatToInt} path v o : SetValue None path v ≠ Ok o.
Proof. unfold SetValue. by repeat case_match. Qed.
(** A core path only changes a configuration of its type. *)
Lemma SetValue_core_type `{FloatToInt} o path rest v o' t :
  path_parts path = t :: rest → SetValue (Some o) path v = Ok o' →
  (t = "interfaces" → ∃ c, o = OIfaces c) ∧ (t = "routes" → ∃ c, o = ORoutes c).
Proof.
  intros Hp. unfold SetValue. rewrite Hp. intros Hs. split; intros ->; cbn in Hs;
    destruct o; eauto; done.
Qed.

Section stage.
Context `{FloatToInt}.

(** What the working copy is a copy of. *)
Definition copied (ct : string) (c : option config_obj) (o0 : config_obj) : Prop :=
  (ct = "interfaces" → ∃ i, c = Some (OIfaces i) ∧ o0 = OIfaces (deepCopyInterfaces i)) ∧
  (ct = "routes" → ∃ r, c = Some (ORoutes r) ∧ o0 = ORoutes (deepCopyRoutes r)) ∧
  (is_core ct = false → (c ≫= deepCopyGeneric) = Some o0).

Lemma alloc_lookup o s l s1 o0 : alloc o s = (l, s1) → heap s1 !! l = Some o0 → o0 = o.
Proof.
  intros (_ & -> & _)%alloc_fresh. rewrite lookup_insert_eq. by intros [= ->].
Qed.
Lemma working_copy_inv ct path rest v s s1 e l o0 o :
  path_parts path = ct :: rest → Pending e = None →
  working_copy ct (effective e) (Committed e) s = (Some l, s1) →
  heap s1 !! l = Some o0 → SetValue (Some o0) path v = Ok o →
  alloc o0 s = (l, s1) ∧ copied ct (deref s (Committed e)) o0.
Proof.
  intros Hp Hn Hw Hl Hs. destruct (SetValue_core_type _ _ _ _ _ _ Hp Hs) as [Hti Htr].
  assert (effective e = Committed e) as He by (unfold effective; by rewrite Hn).
  rewrite He in Hw. unfold working_copy in Hw.
  repeat case_bool_decide; simplify_eq.
  - destruct (Hti eq_refl) as [c ->].
    destruct (deref s (Committed e)) as [[i| | |]|] eqn:Hd.
    2-5: injection Hw as Hc ->; rewrite Hc in Hd; cbn in Hd; congruence.
    destruct (alloc _ s) as [l' s'] eqn:Ha. injection Hw as -> ->.
    pose proof (alloc_lookup _ _ _ _ _ Ha Hl) as Ho. injection Ho as ->.
    split; [done|]. split_and!; [eauto|done|done].
  - destruct (Htr eq_refl) as [c ->].
    destruct (deref s (Committed e)) as [[|r| |]|] eqn:Hd.
    1,3-5: injection Hw as Hc ->; rewrite Hc in Hd; cbn in Hd; congruence.
    destruct (alloc _ s) as [l' s'] eqn:Ha. injection Hw as -> ->.
    pose proof (alloc_lookup _ _ _ _ _ Ha Hl) as Ho. injection Ho as ->.
    split; [done|]. split_and!; [done|eauto|done].
  - destruct (deref s (Committed e) ≫= deepCopyGeneric) as [o1|] eqn:Hd; [|done].
    destruct (alloc _ s) as [l' s'] eqn:Ha. injection Hw as -> ->.
    pose proof (alloc_lookup _ _ _ _ _ Ha Hl) as ->.
    split; [done|]. by split_and!.
Qed.

(** The object [stage] edits: the pending one, or a fresh copy. *)
Lemma stage_inv ct path rest v s s' :
  isolated s → path_parts path = ct :: rest → stage ct path v s = Ok s' →
  ∃ e l o0 o s1,
    registry s !! ct = Some e ∧ SetValue (Some o0) path v = Ok o ∧
    registry s1 = registry s ∧ heap s ⊆ heap s1 ∧ heap s1 !! l = Some o0 ∧
    s' = SetPending ct (Some l) (with_heap (<[l := o]> (heap s1)) s1) ∧
    (Pending e = Some l ∧ s1 = s ∨
     Pending e = None ∧ alloc o0 s = (l, s1) ∧ copied ct (deref s (Committed e)) o0).
Proof.
  intros Hi Hp. unfold stage, GetCurrent, HasPendingFor, GetCommitted.
  destruct (registry s !! ct) as [e|] eqn:He; [|done]. cbn [mbind res_bind].
  assert (∀ config s1, (set_in_place config path v s1 ≫= λ s2, Ok (SetPending ct config s2))
    = Ok s' → ∃ l o0 o, config = Some l ∧ heap s1 !! l = Some o0 ∧
      SetValue (Some o0) path v = Ok o ∧
      s' = SetPending ct (Some l) (with_heap (<[l := o]> (heap s1)) s1)) as Hset.
  { intros config s1. unfold set_in_place.
    destruct (SetValue (deref s1 config) path v) as [o| |] eqn:Hs; try done.
    destruct config as [l|]; [|by apply SetValue_nil in Hs]. cbn in Hs.
    destruct (heap s1 !! l) as [o0|] eqn:Hl; [|by apply SetValue_nil in Hs].
    cbn. intros [= <-]. eauto 8. }
  unfold is_pending. destruct (Pending e) as [l|] eqn:Hpe.
  - rewrite bool_decide_eq_true_2 by done. cbn [mbind res_bind].
    unfold effective. rewrite Hpe. intros (l' & o0 & o & [= <-] & Hl & Hs & ->)%Hset.
    exists e, l, o0, o, s. split_and!; try done. by left.
  - rewrite bool_decide_eq_false_2 by naive_solver. cbn [mbind res_bind].
    destruct (working_copy ct (effective e) (Committed e) s) as [config s1] eqn:Hw.
    intros (l & o0 & o & -> & Hl & Hs & ->)%Hset.
    assert (alloc o0 s = (l, s1) ∧ copied ct (deref s (Committed e)) o0) as (Ha & Hrest).
    2:{ destruct (alloc_fresh _ _ _ _ Ha) as (Hf & Hh & Hr & _).
        exists e, l, o0, o, s1. split_and!; try done.
        - rewrite Hh. by apply insert_subseteq, not_elem_of_dom.
        - right. by rewrite Hpe. }
    by eapply working_copy_inv.
Qed.

Lemma insert_entry_id (r : gmap string ConfigEntry) ct e l :
  r !! ct = Some e → Pending e = Some l →
  <[ct := {| Committed := Committed e; Pending := Some l; LastApplied := LastApplied e |}]> r = r.
Proof. intros He Hl. apply insert_id. rewrite He. by destruct e; cbn in *; subst. Qed.

Lemma stage_isolated ct path rest v s s' :
  isolated s → path_parts path = ct :: rest → stage ct path v s = Ok s' → isolated s'.
Proof.
  intros Hi Hp (e & l & o0 & o & s1 & He & Hs & Hr & Hsub & Hl & -> & Hcase)%(stage_inv _ _ rest);
    [|done..].
  change (SetPending ct (Some l) (with_heap (<[l := o]> (heap s1)) s1))
    with (with_heap (<[l := o]> (heap s1)) (SetPending ct (Some l) s1)).
  apply isolated_heap; [|cbn; set_solver].
  destruct Hcase as [[Hpe ->]|(Hn & Ha & _)]; [|by eapply isolated_SetPending].
  unfold SetPending, entry_of. rewrite He. cbn. rewrite insert_entry_id by done.
  by destruct s.
Qed.

(** Only the pending configuration of the type staged can change. *)
Lemma stage_registry ct path rest v s s' t :
  isolated s → path_parts path = ct :: rest → stage ct path v s = Ok s' →
  GetCommitted t s' = GetCommitted t s ∧ GetLastApplied t s' = GetLastApplied t s ∧
  (t ≠ ct → GetCurrent t s' = GetCurrent t s).
Proof.
  intros Hi Hp (e & l & o0 & o & s1 & He & Hs & Hr & Hsub & Hl & -> & Hcase)%(stage_inv _ _ rest);
    [|done..].
  unfold GetCommitted, GetLastApplied, GetCurrent, SetPending, entry_of. cbn.
  rewrite Hr. destruct (decide (t = ct)) as [->|Hne].
  - rewrite lookup_insert_eq, He. done.
  - by rewrite lookup_insert_ne.
Qed.
(** An object that nothing pending of this type refers to keeps its content. *)
Lemma stage_object ct path rest v s s' l t e :
  isolated s → path_parts path = ct :: rest → stage ct path v s = Ok s' →
  registry s !! t = Some e → refs e l → (Pending e = Some l → t ≠ ct) →
  heap s' !! l = heap s !! l.
Proof.
  intros Hi Hp (e0 & l0 & o0 & o & s1 & He0 & Hs & Hr & Hsub & Hl & -> & Hcase)
    %(stage_inv _ _ rest) He Href Hpe; [|done..].
  cbn. assert (l0 ≠ l) as Hne.
  { intros ->. destruct Hcase as [[Hp0 ->]|(Hn & Ha & _)].
    - destruct Href as [Hc|[Hpl|Hla]].
      + apply (iso_shared _ Hi ct e0 t e l); try done. by left.
      + by apply (Hpe Hpl), (iso_pending _ Hi t e ct e0 l).
      + apply (iso_shared _ Hi ct e0 t e l); try done. by right.
    - eapply (isolated_fresh s _ l s1 t e); try done. by rewrite Hr. }
  rewrite lookup_insert_ne by done.
  pose proof (iso_valid _ Hi t e l He Href) as [o1 Ho1]%elem_of_dom.
  rewrite Ho1. by eapply lookup_weaken.
Qed.

(** What the references of a type denote. *)
Definition content (s : State) (r : res (option loc)) : res (option config_obj) :=
  match r with Ok c => Ok (deref s c) | Err e => Err e | Panic w => Panic w end.

Lemma stage_content ct path rest v s s' t :
  isolated s → path_parts path = ct :: rest → stage ct path v s = Ok s' →
  content s' (GetCommitted t s') = content s (GetCommitted t s) ∧
  content s' (GetLastApplied t s') = content s (GetLastApplied t s) ∧
  (t ≠ ct → content s' (GetCurrent t s') = content s (GetCurrent t s)).
Proof.
  intros Hi Hp Hst. destruct (stage_registry _ _ _ _ _ _ t Hi Hp Hst) as (-> & -> & Hcur).
  pose proof (λ l e, stage_object _ _ _ _ _ _ l t e Hi Hp Hst) as Hobj.
  unfold GetCommitted, GetLastApplied, GetCurrent in *.
  destruct (registry s !! t) as [e|] eqn:He; cbn;
    [|split_and!; try done; intros Hne; by rewrite Hcur].
  assert (∀ l, shared e l → heap s' !! l = heap s !! l) as Hsh.
  { intros l Hl. apply (Hobj l e eq_refl); [destruct Hl; unfold refs; auto|].
    intros Hpe. exfalso. by apply (iso_shared _ Hi t e t e l). }
  split_and!.
  - destruct (Committed e) as [l|] eqn:Hc; [|done]. cbn. rewrite Hsh; [done|by left].
  - destruct (LastApplied e) as [l|] eqn:Hc; [|done]. cbn. rewrite Hsh; [done|by right].
  - intros Hne. rewrite Hcur by done. cbn. f_equal. unfold effective.
    destruct (Pending e) as [l|] eqn:Hpe; cbn.
    + apply (Hobj l e eq_refl); [unfold refs; auto|done].
    + destruct (Committed e) as [l|] eqn:Hc; [|done]. cbn. apply Hsh. by left.
Qed.

(** After staging, the type's current configuration is the edited object. *)
Lemma stage_current ct path rest v s s' :
  isolated s → path_parts path = ct :: rest → stage ct path v s = Ok s' →
  ∃ o0 o, SetValue (Some o0) path v = Ok o ∧ content s' (GetCurrent ct s') = Ok (Some o) ∧
    ((content s (GetCurrent ct s) = Ok (Some o0) ∧ HasPendingFor ct s = true) ∨
     ∃ c, HasPendingFor ct s = false ∧ content s (GetCommitted ct s) = Ok c ∧ copied ct c o0).
Proof.
  intros Hi Hp (e & l & o0 & o & s1 & He & Hs & Hr & Hsub & Hl & -> & Hcase)%(stage_inv _ _ rest);
    [|done..].
  exists o0, o. split; [done|]. unfold GetCurrent, GetCommitted, HasPendingFor. cbn.
  rewrite lookup_insert_eq, He. split; [cbn; by rewrite lookup_insert_eq|].
  destruct Hcase as [[Hpe ->]|(Hn & Ha & Hc)].
  - left. unfold effective, is_pending. by rewrite Hpe; cbn; rewrite Hl.
  - right. eexists. split; [|by eauto]. unfold is_pending. by rewrite Hn.
Qed.
(** It is the only type that becomes pending. *)
Lemma stage_pending ct path rest v s s' t :
  isolated s → path_parts path = ct :: rest → stage ct path v s = Ok s' →
  HasPendingFor t s' = if decide (t = ct) then true else HasPendingFor t s.
Proof.
  intros Hi Hp (e & l & o0 & o & s1 & He & Hs & Hr & Hsub & Hl & -> & _)%(stage_inv _ _ rest);
    [|done..].
  unfold HasPendingFor. cbn. case_decide as Ht.
  - by rewrite Ht, lookup_insert_eq.
  - by rewrite lookup_insert_ne, Hr.
Qed.
End stage.

(** ** Lemmas: the commands *)

(** The configuration commands of the socket protocol. *)
Inductive config_request :=
| RStatus | RDiff | RCommit | RRevert | RShow (path : string) | RGet (path : string)
| RSet (path : string) (v : value) | RValidate (path : string) (v : value) | RCheckpointList.

Section commands.
Context `{Host} `{RangeOrder} `{OS} `{FloatToInt}.

(** The entries of [s.handlers] for them. *)
Definition handle_config (req : config_request) : M World Response :=
  match req with
  | RStatus => handleStatus
  | RDiff => handleDiff
  | RCommit => handleCommit
  | RRevert => handleRevert
  | RShow path => handleShow path
  | RGet path => handleGet path
  | RSet path v => handleSet path v
  | RValidate path v => handleValidate path v
  | RCheckpointList => handleCheckpointList
  end.

Lemma or_fail_inv {A} p (r : res A) k w resp w' :
  or_fail p r k w = (Ok resp, w') →
  (rp_Success resp = false ∧ w' = w) ∨ ∃ a, r = Ok a ∧ k a w = (Ok resp, w').
Proof. destruct r; cbn; [eauto|intros [= <- <-]; by left|done]. Qed.

Lemma handleSet_inv path v w resp w' :
  handleSet path v w = (Ok resp, w') →
  (rp_Success resp = false ∧ w' = w) ∨
  (rp_Success resp = true ∧ ∃ ct rest s',
     ParseConfigType (rewritePath (w_registry w) path) = Ok ct ∧
     path_parts (rewritePath (w_registry w) path) = ct :: rest ∧
     stage ct (rewritePath (w_registry w) path) v (w_state w) = Ok s' ∧
     w' = set_state s' w).
Proof.
  unfold handleSet, mbind at 1, M_bind at 1, gets. cbv zeta.
  intros [?|(ct & Hct & Hk)]%or_fail_inv; [by left|].
  apply or_fail_inv in Hk as [?|(s' & Hs' & Hk)]; [by left|right].
  pose proof Hct as [rest Hp]%ParseConfigType_parts.
  unfold mbind, M_bind, update_state, modify in Hk. injection Hk as <- <-.
  split; [done|]. exists ct, rest, s'. done.
Qed.

(** [m] only changes the plugin processes; or only the files. *)
Definition same_but_host (w w' : World) : Prop :=
  w_state w' = w_state w ∧ w_fs w' = w_fs w ∧ w_registry w' = w_registry w ∧
  w_services w' = w_services w.

(** What validation requires of the current configuration of a type. *)
Definition valid_current (s : State) (t : string) : Prop :=
  (t = "interfaces" → ∀ c, object_of s (GetCurrent t s) = Some (OIfaces c) →
     map_Forall (λ _ i, Interface_Validate i = None) (gm (ic_Interfaces c))) ∧
  (t = "routes" → ∀ c, object_of s (GetCurrent t s) = Some (ORoutes c) →
     map_Forall (λ _ r, Route_Validate r = None) (gm (rc_Routes c))).

Lemma errs_when_some {A} (o : option A) (f : A → ErrorCollector → ErrorCollector) v :
  (∀ a, errs (f a v) ≠ []) → errs (when_some o f v) = [] ↔ errs v = [] ∧ o = None.
Proof. intros Hf. destruct o as [a|]; cbn; [|naive_solver]. pose proof (Hf a). naive_solver. Qed.
Lemma Forall_range {V} (P : V → Prop) (m : gmap string V) :
  Forall (λ p, P p.2) (range m) ↔ map_Forall (λ _, P) m.
Proof.
  rewrite (range_perm m), map_Forall_to_list. apply Forall_iff. by intros [].
Qed.
Lemma errs_validate_interfaces c v :
  errs (validate_interfaces c v) = [] ↔ errs v = [] ∧
    map_Forall (λ _ i, Interface_Validate i = None) (gm (ic_Interfaces c)).
Proof.
  unfold validate_interfaces. rewrite <-Forall_range.
  apply (errs_fold (λ p : string * Interface, when_some (Interface_Validate p.2)
    (λ err, CheckMsg (Some err) ("interface " +:+ p.1)))).
  intros p ec. apply errs_when_some. intros a. rewrite errs_CheckMsg. naive_solver.
Qed.
Lemma errs_validate_routes c v :
  errs (validate_routes c v) = [] ↔ errs v = [] ∧
    map_Forall (λ _ r, Route_Validate r = None) (gm (rc_Routes c)).
Proof.
  unfold validate_routes. rewrite <-Forall_range.
  apply (errs_fold (λ p : string * Route, when_some (Route_Validate p.2)
    (λ err, Check (Some err)))).
  intros p ec. apply errs_when_some. intros a. rewrite errs_Check. naive_solver.
Qed.

Lemma validate_types_spec types : ∀ v w v' w',
  validate_types types v w = (Ok v', w') →
  same_but_host w w' ∧
  (errs v' = [] → errs v = [] ∧ ∀ t, t ∈ types → valid_current (w_state w) t).
Proof.
  induction types as [|t types IH]; intros v w v' w'.
  { intros [= <- <-]. split; [done|]. intros ?. split; [done|]. set_solver. }
  cbn [validate_types]. unfold mbind at 1, M_bind at 1, with_state, gets, id.
  unfold valid_current, object_of.
  destruct (GetCurrent t (w_state w)) as [config|e|] eqn:Hcur; [| |done].
  2: { intros [Hw Hv]%IH. split; [done|]. intros [He _]%Hv.
       apply errs_CheckMsg in He as [_ ?]. done. }
  destruct (bool_decide_reflect (t = "interfaces")) as [->|Hni];
    [|destruct (bool_decide_reflect (t = "routes")) as [->|Hnr]].
  - intros [Hw Hv]%IH. split; [done|]. intros [He Hrest]%Hv.
    destruct (deref (w_state w) config) as [[c| | |]|] eqn:Hd.
    1: apply errs_validate_interfaces in He as [He Hval].
    all: split; [done|]; intros t' [->|Hin]%elem_of_cons; [|by apply Hrest];
      split; [|done]; intros _ c'; rewrite Hcur, Hd; intros; by simplify_eq.
  - intros [Hw Hv]%IH. split; [done|]. intros [He Hrest]%Hv.
    destruct (deref (w_state w) config) as [[|c| |]|] eqn:Hd.
    2: apply errs_validate_routes in He as [He Hval].
    all: split; [done|]; intros t' [->|Hin]%elem_of_cons; [|by apply Hrest];
      split; [done|]; intros _ c'; rewrite Hcur, Hd; intros; by simplify_eq.
  - unfold mbind at 1, M_bind at 1. destruct (Registry.Get t (w_registry w)) as [p|].
    + unfold mbind, M_bind, attempt, in_host.
      destruct (ValidateConfig p _ (w_host w)) as [[[]|e|] h1]; [| |done];
        intros [Hw Hv]%IH; (split; [exact Hw|]); intros [He Hrest]%Hv.
      * split; [done|]. intros t' [->|Hin]%elem_of_cons; [done|by apply Hrest].
      * apply errs_CheckMsg in He as [_ ?]. done.
    + intros [Hw Hv]%IH. split; [done|]. intros [He Hrest]%Hv. split; [done|].
      intros t' [->|Hin]%elem_of_cons; [done|by apply Hrest].
Qed.

Lemma save_types_state types : ∀ k w resp w',
  (∀ w1 r w2, k w1 = (Ok r, w2) → w_state w2 = w_state w1) →
  save_types types k w = (Ok resp, w') → w_state w' = w_state w.
Proof.
  induction types as [|t types IH]; intros k w resp w' Hk; cbn [save_types]; [apply Hk|].
  unfold mbind at 1, M_bind at 1, with_state, gets, id.
  intros [[_ ->]|(config & _ & Hs)]%or_fail_inv; [done|].
  unfold mbind at 1, M_bind at 1, try_or_fail in Hs.
  unfold mbind, M_bind, attempt, in_fs in Hs.
  destruct (SaveConfig _ _ (w_fs w)) as [[[]|e|] fs1]; cbn in Hs; [| |done].
  - apply IH in Hs; [|done]. done.
  - by injection Hs as _ <-.
Qed.

Lemma GetPendingTypes_nil s : GetPendingTypes s = [] ↔ HasPending s = false.
Proof.
  rewrite HasPending_false. split.
  - intros Hn t e He. destruct (Pending e) as [l|] eqn:Hp; [|done]. exfalso.
    apply (not_elem_of_nil t). rewrite <-Hn. apply GetPendingTypes_elem. eauto.
  - intros Hn. apply elem_of_nil_inv. intros t (e & l & He & Hl)%GetPendingTypes_elem.
    by rewrite (Hn t e He) in Hl.
Qed.

Lemma handleCommit_inv w resp w' :
  handleCommit w = (Ok resp, w') →
  (w_state w' = w_state w ∧
   (rp_Success resp = true → HasPending (w_state w) = false)) ∨
  (CommitPending (w_state w) = Ok (w_state w') ∧
   ∀ t, t ∈ GetPendingTypes (w_state w) → valid_current (w_state w) t).
Proof.
  unfold handleCommit, validatePending. unfold mbind, M_bind, with_state, gets.
  destruct (validate_types _ NewCollector w) as [[v|e|] w1] eqn:Hv; cbn; [|done..].
  apply validate_types_spec in Hv as [(Hst & _) Hval].
  destruct (Error v) as [err|] eqn:Herr; [intros [= <- <-]; by left|].
  apply Error_None in Herr. destruct (Hval Herr) as [_ Hval'].
  rewrite Hst. destruct (GetPendingTypes (w_state w)) as [|t types] eqn:Ht.
  { intros [= <- <-]. left. split; [done|]. by rewrite <-GetPendingTypes_nil. }
  intros [[Hf ->]|(s & Hs & Hsave)]%or_fail_inv; [left; by rewrite Hf|right].
  change (save_types (t :: types) (mret (ok_message "Changes committed")) (set_state s w1)
    = (Ok resp, w')) in Hsave.
  apply save_types_state in Hsave; [|by intros ? ? ? [= _ <-]].
  rewrite Hsave. split; [by rewrite <-Hst|exact Hval'].
Qed.
End commands.

(** ** Properties *)

Section isolation.
Context `{Host} `{RangeOrder} `{OS} `{FloatToInt}.

(** A read-only command returns the world's state unchanged. *)
Lemma or_fail_state {A} p (r : res A) k w resp w' :
  (∀ a w1 r1 w2, k a w1 = (Ok r1, w2) → w_state w2 = w_state w1) →
  or_fail p r k w = (Ok resp, w') → w_state w' = w_state w.
Proof. intros Hk [[_ ->]|(a & _ & Ha)]%or_fail_inv; [done|]. by eapply Hk. Qed.
Lemma collect_diffs_state s types : ∀ acc k w resp w',
  (∀ l w1 r1 w2, k l w1 = (Ok r1, w2) → w_state w2 = w_state w1) →
  collect_diffs s types acc k w = (Ok resp, w') → w_state w' = w_state w.
Proof.
  induction types as [|t types IH]; intros acc k w resp w' Hk; cbn [collect_diffs]; [apply Hk|].
  apply or_fail_state. intros c w1 r1 w2. apply or_fail_state. intros p w3 r3 w4.
  apply or_fail_state. intros d w5 r5 w6. by apply IH.
Qed.
Lemma read_only_state req w resp w' :
  match req with RCommit | RRevert | RSet _ _ => False | _ => True end →
  handle_config req w = (Ok resp, w') → w_state w' = w_state w.
Proof.
  destruct req; cbn [handle_config]; try done; intros _.
  - unfold handleStatus, mbind, M_bind, with_state, gets. by intros [= _ <-].
  - unfold handleDiff, mbind at 1, M_bind at 1, with_state, gets, id. case_match.
    + apply collect_diffs_state. by intros ? ? ? ? [= _ <-].
    + by intros [= _ <-].
  - unfold handleShow, mbind at 1, M_bind at 1, gets. case_match; [by intros [= _ <-]|].
    apply or_fail_state. intros ? ? ? ?. apply or_fail_state. by intros ? ? ? ? [= _ <-].
  - unfold handleGet, mbind at 1, M_bind at 1, gets. case_match; [by intros [= _ <-]|].
    apply or_fail_state. intros ? ? ? ?. apply or_fail_state. intros ? ? ? ?.
    apply or_fail_state. by intros ? ? ? ? [= _ <-].
  - unfold handleValidate, mbind at 1, M_bind at 1, gets.
    apply or_fail_state. intros ? ? ? ?.
    repeat case_match; apply or_fail_state; intros ? ? ? ?; repeat case_match;
      by intros [= _ <-].
  - unfold handleCheckpointList, mbind, M_bind, with_state, gets. by intros [= _ <-].
Qed.
Lemma handleRevert_inv w resp w' :
  handleRevert w = (Ok resp, w') → RevertPending (w_state w) = Ok (w_state w').
Proof. unfold handleRevert, mbind, M_bind, with_state, gets. cbn. by intros [= _ <-]. Qed.

(** One command answered. *)
Definition command_step (w w' : World) : Prop :=
  ∃ req resp, handle_config req w = (Ok resp, w').

Lemma command_isolated w w' :
  command_step w w' → isolated (w_state w) → isolated (w_state w').
Proof.
  intros (req & resp & Hr) Hi.
  destruct req as [| | | |p|p|p v|p v|];
    try (apply read_only_state in Hr; [by rewrite Hr|exact I]).
  - apply handleCommit_inv in Hr as [[-> _]|[Hc _]]; [done|]. by eapply isolated_CommitPending.
  - apply handleRevert_inv in Hr. by eapply isolated_RevertPending.
  - apply handleSet_inv in Hr as [[_ ->]|(_ & ct & rest & s' & _ & Hp & Hs & ->)]; [done|].
    cbn. by eapply stage_isolated.
Qed.
End isolation.

(** However the configuration commands are interleaved, the pending
    configurations stay private: starting from a state where they are, no
    sequence of commands makes a pending configuration share its object with a
    committed, last applied or other pending one. *)
Theorem commands_isolated `{Host} `{RangeOrder} `{OS} `{FloatToInt} w w' :
  isolated (w_state w) → rtc command_step w w' → isolated (w_state w').
Proof.
  intros Hi Hr. induction Hr as [|w1 w2 w3 Hs _ IH]; [done|]. apply IH.
  by eapply command_isolated.
Qed.

(** C4: a set is confined to the pending configuration it stages.  On success
    the committed and last applied configurations of every type, and what is
    current for every other type, have the same contents as before, and
    nothing else in the daemon changes; on failure nothing changes at all. *)
Theorem handleSet_confined `{Host} `{RangeOrder} `{OS} `{FloatToInt} path v w resp w' :
  isolated (w_state w) → handleSet path v w = (Ok resp, w') →
  (rp_Success resp = false ∧ w' = w) ∨
  (rp_Success resp = true ∧
   w_fs w' = w_fs w ∧ w_registry w' = w_registry w ∧ w_services w' = w_services w ∧
   w_host w' = w_host w ∧
   ∃ ct rest, path_parts (rewritePath (w_registry w) path) = ct :: rest ∧
     HasPendingFor ct (w_state w') = true ∧
     ∀ t,
       content (w_state w') (GetCommitted t (w_state w'))
         = content (w_state w) (GetCommitted t (w_state w)) ∧
       content (w_state w') (GetLastApplied t (w_state w'))
         = content (w_state w) (GetLastApplied t (w_state w)) ∧
       (t ≠ ct → content (w_state w') (GetCurrent t (w_state w'))
                   = content (w_state w) (GetCurrent t (w_state w)))).
Proof.
  intros Hi [?|(Hok & ct & rest & s' & _ & Hp & Hs & ->)]%handleSet_inv; [by left|right].
  split_and!; try done. exists ct, rest. split_and!; [done| |].
  - destruct (stage_inv _ _ _ _ _ _ Hi Hp Hs) as (e & l & o0 & o & s1 & He & _ & _ & _ & _ & -> & _).
    unfold HasPendingFor. cbn. by rewrite lookup_insert_eq.
  - intros t. cbn. by apply (stage_content _ _ _ _ _ _ t Hi Hp Hs).
Qed.

(** A daemon with a committed plugin configuration. *)
Definition led_world `{Host} (h : host) : World :=
  let '(l, s) := alloc (OMap (Some {["leds" := VMap {["red" := VStr "on"]}]})) NewState in
  {| w_state := LoadCommitted "led" (Some l) s; w_fs := {| fs_files := ∅; fs_tick := 0 |};
     w_registry := NewPluginRegistry; w_services := NewServiceRegistry; w_host := h |}.
Lemma led_world_isolated `{Host} h : isolated (w_state (led_world h)).
Proof.
  unfold led_world.
  destruct (alloc (OMap (Some {["leds" := VMap {["red" := VStr "on"]}]})) NewState)
    as [l s] eqn:E. cbn [w_state].
  exact (isolated_LoadCommitted NewState _ l s "led" isolated_new E).
Qed.

Lemma commands_isolated_witness :
  let _ := no_processes in let _ := default_order in let _ := reliable_os in
  let _ := amd64_float_to_int in
  isolated (w_state (handleSet "led.leds.red" (VStr "off") (led_world tt)).2).
Proof.
  intros hs o os f. apply (commands_isolated (led_world (H:=no_processes) tt)); [exact (led_world_isolated (H:=no_processes) tt)|].
  apply rtc_once. exists (RSet "led.leds.red" (VStr "off")).
  eexists. cbn [handle_config]. vm_compute. reflexivity.
Defined.

Lemma handleSet_confined_witness :
  let _ := no_processes in let _ := default_order in let _ := reliable_os in
  let _ := amd64_float_to_int in
  let w' := (handleSet "led.leds.red" (VStr "off") (led_world tt)).2 in
  content (w_state w') (GetCommitted "led" (w_state w'))
    = content (w_state (led_world tt)) (GetCommitted "led" (w_state (led_world tt))).
Proof.
  intros hs o os f w'.
  destruct (handleSet "led.leds.red" (VStr "off") (led_world (H:=no_processes) tt)) as [[resp|e|p] w1] eqn:E.
  2-3: vm_compute in E; discriminate E.
  destruct (handleSet_confined _ _ _ _ _ (led_world_isolated (H:=no_processes) tt) E)
    as [[Hf _]|(_ & _ & _ & _ & _ & ct & rest & _ & _ & Hc)].
  - vm_compute in E. injection E as <- _. vm_compute in Hf. discriminate Hf.
  - assert (w' = w1) as -> by exact (f_equal snd E). exact (proj1 (Hc "led")).
Defined.

(** Reading your own writes: after a successful set of a path of a plugin
    configuration, a get of the same path, rewritten with the plugin's path
    prefix in the same way, returns the value that was set. *)
Theorem handleSet_handleGet `{Host} `{RangeOrder} `{OS} `{FloatToInt} path v w resp w' ct rest :
  isolated (w_state w) →
  path_parts (rewritePath (w_registry w) path) = ct :: rest → is_core ct = false → rest ≠ [] →
  path ≠ "" → handleSet path v w = (Ok resp, w') → rp_Success resp = true →
  handleGet path w' = (Ok (ok_response (DValue v) []), w').
Proof.
  intros Hi Hp Hcore Hrest Hne [[Hf _]|(_ & ct' & rest' & s' & Hct & Hp' & Hs & ->)]%handleSet_inv Hok;
    [congruence|]. assert (ct' = ct ∧ rest' = rest) as [-> ->] by (split; congruence).
  destruct (stage_current _ _ _ _ _ _ Hi Hp Hs) as (o0 & o & Hset & Hcur & _).
  pose proof Hcore as [Hnotif Hnotrt]%is_core_false.
  assert (∃ cm, o0 = OMap cm) as [cm ->].
  { unfold SetValue in Hset. rewrite Hp, Hnotif, Hnotrt in Hset. destruct o0; eauto; done. }
  destruct (SetValue_generic _ _ _ _ _ _ Hp Hcore Hrest Hset) as (m' & Hm & ->).
  unfold handleGet, mbind, M_bind, gets, id. rewrite bool_decide_eq_false_2 by done.
  cbv zeta. cbn [set_state w_registry w_state].
  rewrite Hct.
  cbn [or_fail]. unfold content in Hcur.
  destruct (GetCurrent ct s') as [c| |]; [|done..]. injection Hcur as Hcur.
  cbn [or_fail]. rewrite Hcur, (GetValue_generic _ _ _ _ Hp Hcore).
  by rewrite (setGenericMap_get _ _ _ _ Hm).
Qed.

Lemma handleSet_handleGet_witness :
  let _ := no_processes in let _ := default_order in let _ := reliable_os in
  let _ := amd64_float_to_int in
  let w' := (handleSet "led.leds.red" (VStr "off") (led_world (H:=no_processes) tt)).2 in
  handleGet "led.leds.red" w' = (Ok (ok_response (DValue (VStr "off")) []), w').
Proof.
  intros hs o os f w'.
  assert (handleSet "led.leds.red" (VStr "off") (led_world (H:=no_processes) tt)
    = (Ok (ok_response DNone [PText "Staged: led.leds.red = "; PValue (VStr "off")]), w')) as E
    by (vm_compute; reflexivity).
  refine (handleSet_handleGet "led.leds.red" (VStr "off") _ _ w' "led" ["leds"; "red"]
    (led_world_isolated (H:=no_processes) tt) _ _ _ _ E _);
    [vm_compute; reflexivity|vm_compute; reflexivity|discriminate|discriminate|reflexivity].
Defined.

(** C6: a commit always answers, and only validated configurations are
    committed.  Either the commit leaves the configurations as they were (it was
    refused, or nothing was pending), or everything pending became committed,
    and then every interface and every route of the configurations committed by
    it passes its validation. *)
Theorem handleCommit_validated `{HostSafe} `{RangeOrder} `{OS} w :
  ∃ resp w', handleCommit w = (Ok resp, w') ∧
  ((w_state w' = w_state w ∧ (rp_Success resp = true → HasPending (w_state w) = false)) ∨
   (CommitPending (w_state w) = Ok (w_state w') ∧
    (∀ c n i, HasPendingFor "interfaces" (w_state w) = true →
       object_of (w_state w) (GetCurrent "interfaces" (w_state w)) = Some (OIfaces c) →
       gm (ic_Interfaces c) !! n = Some i → Interface_Validate i = None) ∧
    (∀ c n r, HasPendingFor "routes" (w_state w) = true →
       object_of (w_state w) (GetCurrent "routes" (w_state w)) = Some (ORoutes c) →
       gm (rc_Routes c) !! n = Some r → Route_Validate r = None))).
Proof.
  destruct (returns_handleCommit w) as (resp & w' & E). exists resp, w'. split; [done|].
  revert E. intros [?|[Hc Hv]]%handleCommit_inv; [by left|right]. split; [done|].
  assert (∀ t, HasPendingFor t (w_state w) = true → t ∈ GetPendingTypes (w_state w)) as Hpt.
  { intros t. unfold HasPendingFor. rewrite GetPendingTypes_elem.
    destruct (registry (w_state w) !! t) as [e|]; [|done]. unfold is_pending.
    intros [l Hl]%bool_decide_eq_true%not_eq_None_Some. eauto. }
  split; intros c n i Hp%Hpt Ho Hl; destruct (Hv _ Hp) as [Hi Hr].
  - by apply (Hi eq_refl c Ho n).
  - by apply (Hr eq_refl c Ho n).
Qed.

Definition bad_route_world `{Host} (h : host) : World :=
  let '(l, s) := alloc (ORoutes {| rc_Routes := Some ∅; rc_Version := "" |}) NewState in
  let s := LoadCommitted "routes" (Some l) s in
  let '(l', s) := alloc (ORoutes {| rc_Routes :=
    Some {["vpn" := with_field "metric" (VInt (-1)) zero_Route]}; rc_Version := "" |}) s in
  {| w_state := SetPending "routes" (Some l') s; w_fs := {| fs_files := ∅; fs_tick := 0 |};
     w_registry := NewPluginRegistry; w_services := NewServiceRegistry; w_host := h |}.
Lemma handleCommit_validated_witness :
  let _ := no_processes in let _ := default_order in let _ := reliable_os in
  let w := bad_route_world (H:=no_processes) tt in
  ∃ resp w', handleCommit w = (Ok resp, w') ∧ (rp_Success resp = true → HasPending (w_state w) = false).
Proof.
  intros hs o os w.
  destruct (@handleCommit_validated no_processes no_processes_safe default_order reliable_os w)
    as (resp & w' & E & [[_ Hs]|[Hc _]]); [exists resp, w'; split; [exact E|exact Hs]|].
  exfalso. assert (w_state w' = w_state w) as Hs.
  { vm_compute in E. injection E as _ <-. vm_compute. reflexivity. }
  rewrite Hs in Hc. vm_compute in Hc. discriminate Hc.
Defined.

(** A commit that fails after it has changed the state has committed
    everything pending in memory although a file could not be written; the
    next commit answers that there is nothing to commit, and does nothing. *)
Theorem handleCommit_save_failure `{Host} `{RangeOrder} `{OS} w resp w' :
  handleCommit w = (Ok resp, w') → rp_Success resp = false → w_state w' ≠ w_state w →
  CommitPending (w_state w) = Ok (w_state w') ∧
  handleCommit w' = (Ok (ok_message "No pending changes to commit"), w').
Proof.
  intros [[Hs _]|[Hc _]]%handleCommit_inv _ Hne; [done|]. split; [done|].
  pose proof (CommitPending_none _ _ Hc) as Hn%GetPendingTypes_nil.
  unfold handleCommit, validatePending, mbind, M_bind, with_state, gets. by rewrite Hn; cbn; rewrite Hn.
Qed.

(** A full disk. *)
Definition full_disk : OS :=
  {| os_error _ := Some (StdError "os" "no space left on device", false);
     os_now _ := 0; os_stamp _ := ""; config_dir := "/etc/jack" |}.
Lemma handleCommit_save_failure_witness :
  let _ := no_processes in let _ := default_order in let _ := amd64_float_to_int in
  let _ := full_disk in
  let w := (handleSet "led.leds.red" (VStr "off") (led_world (H:=no_processes) tt)).2 in
  let '(r, w') := handleCommit w in
  r = Ok (fail_response "failed to save led config: failed to write temp file: os: no space left on device") ∧
  HasPending (w_state w) = true ∧ fs_files (w_fs w') = ∅ ∧
  handleCommit w' = (Ok (ok_message "No pending changes to commit"), w').
Proof.
  intros hs o f os w. destruct (handleCommit w) as [r w'] eqn:E.
  assert (r = Ok (fail_response "failed to save led config: failed to write temp file: os: no space left on device")
    ∧ HasPending (w_state w) = true ∧ HasPending (w_state w') = false ∧ fs_files (w_fs w') = ∅)
    as (Hr & Hp & Hp' & Hf).
  { vm_compute in E. injection E as <- <-. vm_compute. repeat split. }
  split; [exact Hr|]. split; [exact Hp|]. split; [exact Hf|].
  refine (proj2 (@handleCommit_save_failure no_processes default_order full_disk w
    (fail_response "failed to save led config: failed to write temp file: os: no space left on device")
    w' _ eq_refl _)).
  - rewrite <- Hr. exact E.
  - intros Heq. rewrite Heq, Hp in Hp'. discriminate Hp'.
Defined.

(** Path rewriting inserts the plugin's prefix after the namespace and
    nothing else: the parts of the rewritten path are the namespace, the prefix
    and the remaining parts, so the configuration type stays the same; without a
    prefix, or for a path that is only a namespace, the path is unchanged. *)
Theorem rewritePath_parts r path ns rest :
  path_parts path = ns :: rest →
  contains_byte dot (Registry.GetPathPrefix ns r) = false →
  path_parts (rewritePath r path) =
    (if bool_decide (rest = []) || bool_decide (Registry.GetPathPrefix ns r = "")
     then ns :: rest else ns :: Registry.GetPathPrefix ns r :: rest).
Proof.
  intros Hp Hd. unfold rewritePath. rewrite Hp. destruct rest as [|p rest]; [done|].
  cbv zeta. rewrite (bool_decide_eq_false_2 (p :: rest = [])) by done. cbn [orb].
  destruct (bool_decide_reflect (Registry.GetPathPrefix ns r = "")); [done|].
  unfold path_parts in *. apply (split_join dot).
  - done.
  - assert (Forall (λ p, contains_byte dot p = false) (ns :: p :: rest)) as Hf.
    { rewrite <-Hp. apply split_pieces. }
    apply Forall_cons in Hf as [Hns Hf]. by do 2 (apply Forall_cons; split; [done|]).
Qed.

Lemma rewritePath_parts_witness :
  path_parts (rewritePath {| pr_plugins := ∅; pr_nameToNS := ∅;
                             pr_pathPrefixes := {["led" := "leds"]} |} "led.red.on")
    = ["led"; "leds"; "red"; "on"].
Proof.
  exact (rewritePath_parts {| pr_plugins := ∅; pr_nameToNS := ∅;
    pr_pathPrefixes := {["led" := "leds"]} |} "led.red.on" "led" ["red"; "on"] eq_refl eq_refl).
Defined.

(** The JSON deep copy of a plugin configuration is equal to it, and the
    struct copies have the contents of their originals, so an edit always
    starts from the committed settings. *)
Theorem copied_content ct c o0 :
  copied ct (Some c) o0 →
  (∀ m, c = OMap (Some m) → generic (VMap m) → is_core ct = false → o0 = c) ∧
  (ct = "interfaces" → ∃ i i', c = OIfaces i ∧ o0 = OIfaces i' ∧
     gm (ic_Interfaces i') = gm (ic_Interfaces i) ∧ ic_Version i' = ic_Version i) ∧
  (ct = "routes" → ∃ r r', c = ORoutes r ∧ o0 = ORoutes r' ∧
     gm (rc_Routes r') = gm (rc_Routes r) ∧ rc_Version r' = rc_Version r).
Proof.
  intros (Hi & Hr & Hg). split_and!.
  - intros m -> Hm Hcore. specialize (Hg Hcore). cbn [mbind option_bind] in Hg.
    unfold deepCopyGeneric in Hg. cbn [marshal_obj] in Hg.
    rewrite (any_enc_generic _ Hm) in Hg. by injection Hg.
  - intros Hct. destruct (Hi Hct) as (i & [= ->] & ->). by eexists i, _.
  - intros Hct. destruct (Hr Hct) as (r & [= ->] & ->). by eexists r, _.
Qed.

Lemma copied_content_witness :
  let c := OMap (Some {["a" := VBool true]}) in copied "led" (Some c) c ∧ c = c.
Proof.
  intros c. assert (copied "led" (Some c) c) as Hc.
  { split; [discriminate|]. split; [discriminate|]. intros _. vm_compute. reflexivity. }
  split; [exact Hc|].
  refine (proj1 (copied_content "led" c c Hc) _ eq_refl _ eq_refl).
  constructor. intros k v [<- <-]%lookup_singleton_Some. constructor.
Defined.

(** A set on the daemon's own configuration replaces the typed configuration by
    a generic map: the daemon no longer finds its plugin list. *)
Example set_jack_loses_config :
  let _ := no_processes in let _ := default_order in let _ := reliable_os in
  let _ := amd64_float_to_int in
  let '(l, s) := alloc (OJack getDefaultJackConfig) NewState in
  let w := {| w_state := LoadCommitted "jack" (Some l) s;
              w_fs := {| fs_files := ∅; fs_tick := 0 |}; w_registry := NewPluginRegistry;
              w_services := NewServiceRegistry; w_host := tt : host (Host:=no_processes) |} in
  let '(r, w') := handleSet "jack.version" (VStr "2.0") w in
  r = Ok (ok_response DNone [PText "Staged: jack.version = "; PValue (VStr "2.0")]) ∧
  GetCurrentJackConfig (w_state w) = Some getDefaultJackConfig ∧
  GetCurrentJackConfig (w_state w') = None.
Proof. vm_compute. repeat split. Qed.
