(* ===== verification/PluginCommands.v ===== *)
(** * PluginCommands: loading and switching plugins (daemon/server.go)

    [loadPlugins] and its waves, and the plugin-enable, -disable, -rescan and
    -cli commands, over the world of [Server.v].  The jack configuration they
    edit in place is passed along.  Registration of log subscribers is not
    modelled.  The loop over waves is given fuel, one more than the number of
    enabled plugins. *)
From S2P Require Import Prelude GoStr Types Json Value Struct Codec Path Diff ConfigStore State Registry Services Loader Order Server.

Definition with_plugin (name : string) (st : PluginState) (jc : JackConfig) : res JackConfig :=
  assign (jc_Plugins jc) name st ≫= λ m,
  Ok {| jc_Plugins := m; jc_Observer := jc_Observer jc; jc_Logging := jc_Logging jc;
        jc_Version := jc_Version jc |}.
(** [jackConfig.Plugins[name]]: the zero state when absent. *)
Definition plugin_state (name : string) (jc : JackConfig) : PluginState :=
  default {| ps_Version := ""; ps_Enabled := false |} (gm (jc_Plugins jc) !! name).

Section plugins.
Context `{Host} `{RangeOrder} `{OS}.

Definition update_registry (f : PluginRegistry → PluginRegistry) : M World () :=
  modify (λ w, set_registry (f (w_registry w)) w).
(** Calls whose error is only logged or ignored. *)
Definition ignore {A} (m : M World A) : M World () := attempt m ≫= λ _, mret ().

(** ** loadPlugins *)

(** [defer plugin.Close()] runs after the check. *)
Definition canLoadPlugin (name : string) : M World (bool * list string) :=
  attempt (in_host (LoadPlugin name)) ≫= λ plugin,
  match plugin with
  | Ok loader =>
      let requiredServices := GetRequiredServices loader in
      gets (λ w, if bool_decide (requiredServices = []) then (true, [])
                 else (AreServicesReady requiredServices (w_services w), requiredServices))
        ≫= λ r,
      ignore (in_host (Close loader)) ≫= λ _, mret r
  | _ => mret (false, [])
  end.

(** Register with the plugin registry and the service registry; an error of
    the second undoes the first. *)
Definition register_plugin (plugin : PluginLoader) (name : string) : M World (option error) :=
  gets (λ w, Register plugin name (w_registry w)) ≫= λ registered,
  match registered with
  | Panic w => lift (Panic w)
  | Err err =>
      ignore (in_host (Close plugin)) ≫= λ _,
      mret (Some (Wrapf "failed to register plugin: " err))
  | Ok r =>
      update_registry (λ _, r) ≫= λ _,
      let ns := pm_Namespace (Metadata plugin) in
      attempt (in_services (RegisterPlugin ns plugin (GetProvidedServices plugin)))
        ≫= λ registered,
      match registered with
      | Err err =>
          update_registry (Registry.Unregister ns) ≫= λ _,
          ignore (in_host (Close plugin)) ≫= λ _,
          mret (Some (Wrapf "failed to register plugin services: " err))
      | _ => mret None
      end
  end.

Definition mark_ready (plugin : PluginLoader) : M World () :=
  for_each (GetProvidedServices plugin)
    (λ service, in_services (MarkServiceReady (sd_Name service))).

(** The file's configuration, the plugin's default, or an empty map. *)
Definition initial_config (name : string) (metadata : PluginMetadata) : M World (gomap value) :=
  attempt (in_fs (LoadConfig Unmarshal_map name)) ≫= λ loaded,
  mret match loaded with
       | Ok config => config
       | _ => match pm_DefaultConfig metadata with
              | Some d => Some d
              | None => Some ∅
              end
       end.

(** The error returned, with the jack configuration as updated. *)
Definition loadSinglePlugin (name : string) (jc : JackConfig)
    : M World (JackConfig * option error) :=
  let pluginState := plugin_state name jc in
  attempt (in_host (LoadPlugin name)) ≫= λ loaded,
  match loaded with
  | Err err => mret (jc, Some (Wrapf "failed to load plugin: " err))
  | Panic w => lift (Panic w)
  | Ok plugin =>
      let metadata := Metadata plugin in
      lift (with_plugin name {| ps_Version := pm_Version metadata;
                                ps_Enabled := ps_Enabled pluginState |} jc) ≫= λ jc,
      register_plugin plugin name ≫= λ failed,
      match failed with
      | Some err => mret (jc, Some err)
      | None =>
          ignore (in_host (h_SetupDaemonService (pl_client plugin))) ≫= λ _,
          initial_config name metadata ≫= λ config,
          update_state (λ s, let '(l, s) := alloc (OMap config) s in
                             LoadCommitted (pm_Namespace metadata) (Some l) s) ≫= λ _,
          if bool_decide (gm config = ∅) then mret (jc, None)
          else
            attempt (in_host (ApplyConfig plugin (Some (OMap config)))) ≫= λ applied,
            match applied with
            | Err err => mret (jc, Some (Wrapf "failed to apply plugin config: " err))
            | _ => mark_ready plugin ≫= λ _, mret (jc, None)
            end
      end
  end.

(** One wave: what was loaded before and during it, and how many succeeded. *)
Fixpoint wave (enabledPlugins : list string) (loadedPlugins : gset string)
    (pluginsLoadedThisWave : nat) (jc : JackConfig)
    : M World (gset string * nat * JackConfig) :=
  match enabledPlugins with
  | [] => mret (loadedPlugins, pluginsLoadedThisWave, jc)
  | name :: rest =>
      if decide (name ∈ loadedPlugins) then wave rest loadedPlugins pluginsLoadedThisWave jc
      else
        canLoadPlugin name ≫= λ '(canLoad, _),
        if canLoad : bool then
          loadSinglePlugin name jc ≫= λ '(jc, failed),
          wave rest ({[name]} ∪ loadedPlugins)
            (match failed with Some _ => pluginsLoadedThisWave
                             | None => S pluginsLoadedThisWave end) jc
        else wave rest loadedPlugins pluginsLoadedThisWave jc
  end.
(** [None]: out of fuel. *)
Fixpoint waves (fuel : nat) (enabledPlugins : list string) (loadedPlugins : gset string)
    (jc : JackConfig) : M World (option (gset string * JackConfig)) :=
  if (length enabledPlugins <=? size loadedPlugins)%nat then mret (Some (loadedPlugins, jc))
  else
    match fuel with
    | O => mret None
    | S fuel =>
        wave enabledPlugins loadedPlugins 0 jc ≫= λ '(loadedPlugins, n, jc),
        let remaining := filter (λ name, name ∉ loadedPlugins) enabledPlugins in
        if bool_decide (n = 0%nat) && negb (bool_decide (remaining = []))
        then mret (Some (loadedPlugins, jc))
        else waves fuel enabledPlugins loadedPlugins jc
    end.

Definition loadPlugins : M World () :=
  wrapM "failed to load Jack config: " (in_fs LoadJackConfig) ≫= λ jc,
  let enabledPlugins := enabled_names (range (gm (jc_Plugins jc))) in
  waves (S (length enabledPlugins)) enabledPlugins ∅ jc ≫= λ done,
  let jc := match done with Some (_, jc) => jc | None => jc end in
  ignore (in_fs (SaveJackConfig jc)) ≫= λ _,
  update_state (λ s, let '(l, s) := alloc (OJack jc) s in LoadCommitted "jack" (Some l) s).

(** ** The plugin commands *)

(** The configuration from the file, if it loads, or the default one; a
    failure to apply it is logged. *)
Definition apply_initial (plugin : PluginLoader) (pluginName : string) : M World () :=
  attempt (in_fs (LoadConfig (λ j, Ok (Unmarshal_any j)) pluginName)) ≫= λ loaded,
  match loaded with
  | Ok v => ignore (in_host (h_ApplyConfig (pl_client plugin) (Marshal v)))
  | _ =>
      match pm_DefaultConfig (Metadata plugin) with
      | Some d => ignore (in_host (ApplyConfig plugin (Some (OMap (Some d)))))
      | None => mret ()
      end
  end.

Definition save_jack (jc : JackConfig) (msg : string) : M World Response :=
  try_or_fail "failed to save config: " (in_fs (SaveJackConfig jc)) (λ _,
  mret (ok_message msg)).

Definition handlePluginEnable (pluginName : string) : M World Response :=
  if bool_decide (pluginName = "") then mret (fail_response "plugin name required")
  else
  try_or_fail "failed to load config: " (in_fs LoadJackConfig) (λ jc,
  gets w_registry ≫= λ registry,
  let st := gm (jc_Plugins jc) !! pluginName in
  if match st with
     | Some st => ps_Enabled st && Registry.IsRegistered (ps_Version st) registry
     | None => false
     end
  then mret (fail_response ("plugin '" +:+ pluginName +:+ "' is already enabled"))
  else
  try_or_fail "failed to load plugin: " (in_host (LoadPlugin pluginName)) (λ plugin,
  register_plugin plugin pluginName ≫= λ failed,
  match failed with
  | Some err => mret (fail_response (error_string err))
  | None =>
      apply_initial plugin pluginName ≫= λ _,
      lift (with_plugin pluginName {| ps_Enabled := true;
              ps_Version := pm_Version (Metadata plugin) |} jc) ≫= λ jc,
      save_jack jc ("Plugin '" +:+ pluginName +:+ "' enabled successfully")
  end)).

Definition handlePluginDisable (pluginName : string) : M World Response :=
  if bool_decide (pluginName = "") then mret (fail_response "plugin name required")
  else
  try_or_fail "failed to load config: " (in_fs LoadJackConfig) (λ jc,
  match gm (jc_Plugins jc) !! pluginName with
  | None => mret (fail_response ("plugin '" +:+ pluginName +:+ "' not found in configuration"))
  | Some pluginState =>
  if negb (ps_Enabled pluginState) then
    mret (fail_response ("plugin '" +:+ pluginName +:+ "' is already disabled"))
  else
  gets w_registry ≫= λ registry,
  match CheckDependencies pluginName registry with
  | Some err => mret (fail_response (error_string err))
  | None =>
  let disabled := {| ps_Version := ps_Version pluginState; ps_Enabled := false |} in
  match Registry.GetNamespaceForPlugin pluginName registry with
  | None =>
      lift (with_plugin pluginName disabled jc) ≫= λ jc,
      save_jack jc ("Plugin '" +:+ pluginName +:+ "' disabled (was not loaded)")
  | Some namespace =>
  match Registry.Get namespace registry with
  | None => mret (fail_response ("plugin '" +:+ pluginName +:+ "' not found in registry"))
  | Some plugin =>
      try_or_fail "failed to unload plugin: " (in_host (UnloadPlugin plugin namespace)) (λ _,
      update_registry (Registry.Unregister namespace) ≫= λ _,
      in_services (UnregisterPlugin namespace) ≫= λ _,
      lift (with_plugin pluginName disabled jc) ≫= λ jc,
      save_jack jc ("Plugin '" +:+ pluginName +:+ "' disabled successfully"))
  end end end end).

(** New plugins, in the order the scan result is walked, added as disabled. *)
Fixpoint add_new (available : list (string * PluginMetadata)) (jc : JackConfig)
    (newPlugins : list string) : res (JackConfig * list string) :=
  match available with
  | [] => Ok (jc, newPlugins)
  | (pluginName, metadata) :: available =>
      match gm (jc_Plugins jc) !! pluginName with
      | Some _ => add_new available jc newPlugins
      | None =>
          with_plugin pluginName {| ps_Enabled := false; ps_Version := pm_Version metadata |} jc
            ≫= λ jc, add_new available jc (newPlugins ++ [pluginName])
      end
  end.
Definition handlePluginRescan : M World Response :=
  try_or_fail "failed to scan plugins: " (in_host ScanPlugins) (λ availablePlugins,
  try_or_fail "failed to load config: " (in_fs LoadJackConfig) (λ jc,
  lift (add_new (range availablePlugins) jc []) ≫= λ '(jc, newPlugins),
  match newPlugins with
  | [] => mret (ok_message "No new plugins found")
  | _ =>
      try_or_fail "failed to save config: " (in_fs (SaveJackConfig jc)) (λ _,
      mret (ok_response (DStrings newPlugins)
        [PText ("Added " +:+ itoa (Z.of_nat (length newPlugins))
                +:+ " new plugin(s) as disabled: " +:+ fmt_list newPlugins)]))
  end)).

Definition handlePluginCLI (pluginName cliCommand : string) (cliArgs : list string)
    : M World Response :=
  gets w_registry ≫= λ registry,
  let namespace := default pluginName (Registry.GetNamespaceForPlugin pluginName registry) in
  match Registry.Get namespace registry with
  | None => mret (fail_response ("plugin not found or not loaded: " +:+ pluginName))
  | Some loader =>
      try_or_fail "command execution failed: "
        (in_host (ExecuteCLICommand loader cliCommand cliArgs)) (λ output,
      mret (ok_response (DText output) []))
  end.
End plugins.

(** ** Lemmas: the waves terminate *)

Section waves.
Context `{Host} `{RangeOrder} `{OS}.

(** A wave only adds names of the list to the loaded ones, and it adds at
    least as many as it counts. *)
Lemma wave_spec l : ∀ loaded n jc w loaded' n' jc' w',
  NoDup l →
  wave l loaded n jc w = (Ok (loaded', n', jc'), w') →
  loaded ⊆ loaded' ∧ (∀ x, x ∈ loaded' → x ∈ loaded ∨ x ∈ l) ∧
  (n' - n ≤ size loaded' - size loaded)%nat ∧ (n ≤ n')%nat.
Proof.
  induction l as [|name l IH]; intros loaded n jc w loaded' n' jc' w' Hnd; cbn [wave].
  { intros [= <- <- _ _]. split_and!; [done|by left|lia|lia]. }
  apply NoDup_cons in Hnd as [Hni Hnd].
  destruct (decide (name ∈ loaded)) as [Hin|Hin].
  { intros (Hs & Hx & Hn & Hle)%IH; [|done]. split_and!; [done|set_solver|lia|lia]. }
  unfold mbind at 1, M_bind at 1.
  destruct (canLoadPlugin name w) as [[[[] ?]| |] w1]; [| |done|done].
  - unfold mbind at 1, M_bind at 1.
    destruct (loadSinglePlugin name jc w1) as [[[jc1 failed]| |] w2]; [|done|done].
    intros (Hs & Hx & Hn & Hle)%IH; [|done].
    rewrite size_union in Hn by set_solver. rewrite size_singleton in Hn.
    assert (size ({[name]} ∪ loaded) ≤ size loaded')%nat as Hsz by by apply subseteq_size.
    rewrite size_union, size_singleton in Hsz by set_solver.
    split_and!; [set_solver|set_solver|destruct failed; lia|destruct failed; lia].
  - intros (Hs & Hx & Hn & Hle)%IH; [|done]. split_and!; [done|set_solver|lia|lia].
Qed.

Lemma size_list_NoDup (l : list string) : NoDup l → size (list_to_set l : gset string) = length l.
Proof. intros Hnd. by rewrite size_list_to_set. Qed.

Lemma waves_fuel fuel l : ∀ loaded jc w r w',
  NoDup l → (∀ x, x ∈ loaded → x ∈ l) → (length l - size loaded < fuel)%nat →
  waves fuel l loaded jc w = (Ok r, w') →
  ∃ loaded' jc', r = Some (loaded', jc') ∧ loaded ⊆ loaded' ∧ ∀ x, x ∈ loaded' → x ∈ l.
Proof.
  induction fuel as [|fuel IH]; intros loaded jc w r w' Hnd Hsub Hf; [lia|].
  cbn [waves]. destruct (Nat.leb_spec (length l) (size loaded)).
  { intros [= <- _]. eauto. }
  unfold mbind at 1, M_bind at 1.
  destruct (wave l loaded 0 jc w) as [[[[loaded1 n] jc1]| |] w1] eqn:Hw; [|done|done].
  pose proof (wave_spec _ _ _ _ _ _ _ _ _ Hnd Hw) as (Hs & Hx & Hn & _).
  assert (∀ x, x ∈ loaded1 → x ∈ l) as Hsub1 by (intros x [?|?]%Hx; auto).
  destruct (bool_decide_reflect (n = 0%nat)) as [->|Hn0]; cbn [andb].
  - destruct (bool_decide_reflect (filter (λ name, name ∉ loaded1) l = [])) as [Hr|Hr];
      cbn [negb]; [|intros [= <- _]; eauto].
    assert (length l ≤ size loaded1)%nat as Hall.
    { rewrite <-(size_list_NoDup l Hnd). apply subseteq_size. intros x Hxl.
      apply elem_of_list_to_set in Hxl. apply dec_stable. intros Hnx.
      apply (not_elem_of_nil x). rewrite <-Hr. by apply list_elem_of_filter. }
    destruct fuel; cbn [waves]; (destruct (Nat.leb_spec (length l) (size loaded1)); [|lia]);
      intros [= <- _]; eauto.
  - assert (size loaded1 ≤ length l)%nat.
    { rewrite <-(size_list_NoDup l Hnd). apply subseteq_size. intros x Hx1%Hsub1.
      by apply elem_of_list_to_set. }
    intros (l2 & jc2 & -> & Hs2 & Hx2)%IH; [|done|done|lia].
    exists l2, jc2. split_and!; [done|by etrans|done].
Qed.
End waves.

(** ** Lemmas: the two registries stay consistent *)

Section consistent.
Context `{Host} `{RangeOrder} `{OS}.

(** Every plugin binary reports the same namespace whenever it is started. *)
Definition stable_namespaces (ns_of : string → string) : Prop :=
  ∀ name h plugin h', LoadPlugin name h = (Ok plugin, h') →
    pm_Namespace (Metadata plugin) = ns_of name.

Record plugins_ok (ns_of : string → string) (w : World) : Prop := {
  po_registry : registry_ok (w_registry w);
  po_services : services_ok (w_services w);
  po_names n ns : pr_nameToNS (w_registry w) !! n = Some ns → ns = ns_of n;
}.

(** [m] keeps the registries consistent unless it panics. *)
Context (ns_of : string → string).
Notation keeps := (maintains (plugins_ok ns_of)).

Lemma ko_update_state f : keeps (update_state f).
Proof. intros w r w' [] [= <- <-] _. by split. Qed.
Lemma ko_in_host {A} (m : M host A) : keeps (in_host m).
Proof. intros w r w' [] Hm _. unfold in_host in Hm. destruct (m _). injection Hm as <- <-. by split. Qed.
Lemma ko_in_fs {A} (m : M FS A) : keeps (in_fs m).
Proof. intros w r w' [] Hm _. unfold in_fs in Hm. destruct (m _). injection Hm as <- <-. by split. Qed.
#[local] Hint Resolve ko_update_state ko_in_host ko_in_fs : maintains.

Lemma ko_ignore {A} (m : M World A) : keeps m → keeps (ignore m).
Proof. intros. unfold ignore. auto with maintains. Qed.
Lemma ko_or_fail {A} p (r : res A) k : (∀ a, keeps (k a)) → keeps (or_fail p r k).
Proof. intros. destruct r; cbn; auto with maintains. Qed.
Lemma ko_try_or_fail {A} p (m : M World A) k :
  keeps m → (∀ a, keeps (k a)) → keeps (try_or_fail p m k).
Proof. intros. unfold try_or_fail. auto using ko_or_fail with maintains. Qed.
#[local] Hint Resolve ko_ignore ko_or_fail ko_try_or_fail : maintains.

Lemma ko_services {A} (m : M ServiceRegistry A) :
  (∀ s r s', services_ok s → m s = (r, s') → no_panic r → services_ok s') →
  keeps (in_services m).
Proof.
  intros Hm w r w' [Hr Hs Hn] E Hnp. unfold in_services in E.
  destruct (m (w_services w)) as [r1 s1] eqn:Em. injection E as <- <-.
  split; cbn; [done| |done]. by eapply Hm.
Qed.
Lemma ko_unregister ns : keeps (update_registry (Registry.Unregister ns)).
Proof.
  intros w r w' [Hr Hs Hn] [= <- <-] _. split; cbn; [by apply Unregister_ok|done|].
  intros n ns'. destruct (Registry.name_for _ _); [|apply Hn].
  intros [_ Hl]%lookup_delete_Some. by apply Hn.
Qed.
Lemma ko_RegisterPlugin ns p sds : keeps (in_services (RegisterPlugin ns p sds)).
Proof. apply ko_services. intros. by eapply services_ok_RegisterPlugin. Qed.
Lemma ko_MarkServiceReady s : keeps (in_services (MarkServiceReady s)).
Proof.
  apply ko_services. intros s0 r s' Hs E _.
  destruct (MarkServiceReady_spec s s0 Hs) as (r1 & E1 & ? & _). congruence.
Qed.
Lemma ko_UnregisterPlugin ns : keeps (in_services (UnregisterPlugin ns)).
Proof.
  apply ko_services. intros s r s' Hs E Hr. pose proof (UnregisterPlugin_spec ns s Hs) as Hu.
  destruct (existsb _ _).
  - destruct Hu as (p & r1 & E1). rewrite E1 in E. by injection E as <- <-.
  - destruct Hu as (r1 & E1 & ? & _). congruence.
Qed.
#[local] Hint Resolve ko_unregister ko_RegisterPlugin ko_MarkServiceReady ko_UnregisterPlugin
  : maintains.

Lemma update_registry_bind {A} f (k : () → M World A) w :
  (update_registry f ≫= k) w = k () (set_registry (f (w_registry w)) w).
Proof. done. Qed.
Lemma ko_mark_ready p : keeps (mark_ready p).
Proof.
  unfold mark_ready. induction (GetProvidedServices p) as [|s l IH]; cbn; auto with maintains.
Qed.
(** Registering keeps the registry consistent when the namespace is the one
    of the name: a name already in use leads to that namespace, which is then
    taken. *)
Lemma ko_register_plugin plugin name :
  pm_Namespace (Metadata plugin) = ns_of name → keeps (register_plugin plugin name).
Proof.
  intros Hns w r w' Hw. unfold register_plugin. unfold mbind at 1, M_bind at 1, gets.
  destruct (Register plugin name (w_registry w)) as [r1|err|p] eqn:E.
  - rewrite update_registry_bind.
    assert (plugins_ok ns_of (set_registry r1 w)) as Hw1.
    { destruct Hw as [Hr Hs Hn]. destruct (Register_inv _ _ _ _ E) as (Hfree & _ & Hnames).
      split; cbn; [|done|].
      - eapply Register_ok; [done| |exact E].
        destruct (pr_nameToNS (w_registry w) !! name) as [ns|] eqn:Hl; [exfalso|done].
        pose proof (Hn _ _ Hl) as ->. apply (ro_registered _ Hr) in Hl as [q Hq]. congruence.
      - intros n ns. rewrite Hnames. intros [[<- <-]|[_ Hl]]%lookup_insert_Some; auto. }
    revert Hw1. apply (mt_bind _ (attempt _)); [auto with maintains|].
    intros [[]|e|]; auto 8 with maintains.
  - revert Hw. apply (mt_bind _ (ignore _)); auto with maintains.
  - by intros [= <- <-].
Qed.
Lemma ko_initial_config name m : keeps (initial_config name m).
Proof. unfold initial_config. auto with maintains. Qed.
Lemma ko_apply_initial p name : keeps (apply_initial p name).
Proof.
  unfold apply_initial. apply mt_bind; [auto with maintains|]. intros [v|e|]; repeat case_match;
    auto with maintains.
Qed.
Lemma ko_save_jack jc msg : keeps (save_jack jc msg).
Proof. unfold save_jack. auto with maintains. Qed.
#[local] Hint Resolve ko_mark_ready ko_initial_config ko_apply_initial ko_save_jack : maintains.

Context (Hstable : stable_namespaces ns_of).

Lemma LoadPlugin_stable name w plugin w' :
  attempt (in_host (LoadPlugin name)) w = (Ok (Ok plugin), w') →
  pm_Namespace (Metadata plugin) = ns_of name.
Proof.
  unfold attempt, in_host. destruct (LoadPlugin name (w_host w)) as [[p|e|] h] eqn:E;
    intros Heq; try done. injection Heq as -> _. by eapply Hstable.
Qed.
Lemma ko_loadSinglePlugin name jc : keeps (loadSinglePlugin name jc).
Proof.
  unfold loadSinglePlugin. cbv zeta. apply mt_bind_ok; [auto with maintains|].
  intros w [plugin|e|p] w' E; [|auto with maintains..]. apply LoadPlugin_stable in E.
  apply mt_bind; [auto with maintains|]. intros jc1.
  apply mt_bind; [by apply ko_register_plugin|]. intros [err|]; [auto with maintains|].
  apply mt_bind; [auto with maintains|]. intros _. apply mt_bind; [auto with maintains|].
  intros config. apply mt_bind; [auto with maintains|]. intros _.
  case_match; [auto with maintains|]. apply mt_bind; [auto with maintains|].
  intros [[]|err|]; auto with maintains.
Qed.
Lemma ko_canLoadPlugin name : keeps (canLoadPlugin name).
Proof.
  unfold canLoadPlugin. apply mt_bind; [auto with maintains|]. intros [p|e|];
    auto 6 with maintains.
Qed.
Lemma ko_wave l : ∀ loaded n jc, keeps (wave l loaded n jc).
Proof.
  induction l as [|name l IH]; intros loaded n jc; cbn [wave]; [auto with maintains|].
  case_decide; [apply IH|]. apply mt_bind; [apply ko_canLoadPlugin|]. intros [[] ?]; [|apply IH].
  apply mt_bind; [apply ko_loadSinglePlugin|]. intros []. apply IH.
Qed.
Lemma ko_waves fuel l : ∀ loaded jc, keeps (waves fuel l loaded jc).
Proof.
  induction fuel as [|fuel IH]; intros loaded jc; cbn [waves]; case_match;
    auto with maintains.
  apply mt_bind; [apply ko_wave|]. intros [[] ?]. case_match; auto with maintains.
Qed.
Lemma ko_loadPlugins : keeps loadPlugins.
Proof.
  unfold loadPlugins. apply mt_bind; [auto with maintains|]. intros jc. cbv zeta.
  apply mt_bind; [apply ko_waves|]. auto with maintains.
Qed.
Lemma ko_handlePluginEnable name : keeps (handlePluginEnable name).
Proof.
  unfold handlePluginEnable. case_match; [auto with maintains|].
  apply ko_try_or_fail; [auto with maintains|]. intros jc.
  apply mt_bind; [auto with maintains|]. intros registry. cbv zeta.
  case_match; [auto with maintains|]. unfold try_or_fail.
  apply mt_bind_ok; [auto with maintains|]. intros w [plugin|e|p] w' E; cbn [or_fail];
    [|auto with maintains..]. apply LoadPlugin_stable in E.
  apply mt_bind; [by apply ko_register_plugin|]. intros []; auto 6 with maintains.
Qed.
Lemma ko_handlePluginDisable name : keeps (handlePluginDisable name).
Proof.
  unfold handlePluginDisable. case_match; [auto with maintains|].
  apply ko_try_or_fail; [auto with maintains|]. intros jc.
  repeat (case_match; auto with maintains). apply mt_bind; [auto with maintains|].
  intros registry. repeat (case_match; auto with maintains).
Qed.
End consistent.

(** ** Lemmas: total correctness, when the host does not panic *)

Section total.
Context `{HostSafe} `{RangeOrder} `{OS} (ns_of : string → string).
Context (Hstable : stable_namespaces ns_of).

(** From consistent registries [m] returns a result that satisfies [Q], and
    leaves consistent registries. *)
Definition runs {A} (m : M World A) (Q : A → Prop) : Prop :=
  ∀ w, plugins_ok ns_of w → ∃ a w', m w = (Ok a, w') ∧ Q a ∧ plugins_ok ns_of w'.

Lemma runs_ret {A} (a : A) (Q : A → Prop) : Q a → runs (mret a) Q.
Proof. intros Ha w Hw. by exists a, w. Qed.
Lemma runs_bind {A B} (m : M World A) (f : A → M World B) P Q :
  runs m P → (∀ a, P a → runs (f a) Q) → runs (m ≫= f) Q.
Proof.
  intros Hm Hf w Hw. destruct (Hm w Hw) as (a & w1 & E & Ha & Hw1).
  destruct (Hf a Ha w1 Hw1) as (b & w2 & E2 & Hb & Hw2).
  exists b, w2. split; [|done]. unfold mbind, M_bind. by rewrite E.
Qed.
Lemma runs_gets {A} (f : World → A) : runs (gets f) (λ _, True).
Proof. intros w Hw. by exists (f w), w. Qed.
(** A safe computation that keeps the registries, its error looked at. *)
Lemma runs_attempt {A} (m : M World A) (P : A → Prop) :
  (∀ w, plugins_ok ns_of w → no_panic (m w).1) → maintains (plugins_ok ns_of) m →
  (∀ w a w', m w = (Ok a, w') → P a) →
  runs (attempt m) (λ r, no_panic r ∧ ∀ a, r = Ok a → P a).
Proof.
  intros Hn Hk HP w Hw. specialize (Hn w Hw). unfold attempt.
  destruct (m w) as [[a|e|p] w'] eqn:E; cbn in Hn; [| |done].
  - eexists _, _. split; [done|]. split; [|by eapply Hk].
    split; [done|]. intros ? [= <-]. by eapply HP.
  - eexists _, _. split; [done|]. split; [|by eapply Hk]. done.
Qed.
Lemma runs_in_host {A} (m : M host A) (P : A → Prop) :
  safe m → (∀ h a h', m h = (Ok a, h') → P a) →
  runs (attempt (in_host m)) (λ r, no_panic r ∧ ∀ a, r = Ok a → P a).
Proof.
  intros Hs HP. apply runs_attempt; [|apply ko_in_host|].
  - intros w _. unfold in_host. specialize (Hs (w_host w)). by destruct (m _).
  - intros w a w'. unfold in_host. destruct (m _) as [r h] eqn:E. intros [= -> _]. eauto.
Qed.
Lemma runs_in_fs {A} (m : M FS A) (P : A → Prop) :
  safe m → (∀ fs a fs', m fs = (Ok a, fs') → P a) →
  runs (attempt (in_fs m)) (λ r, no_panic r ∧ ∀ a, r = Ok a → P a).
Proof.
  intros Hs HP. apply runs_attempt; [|apply ko_in_fs|].
  - intros w _. unfold in_fs. specialize (Hs (w_fs w)). by destruct (m _).
  - intros w a w'. unfold in_fs. destruct (m _) as [r fs] eqn:E. intros [= -> _]. eauto.
Qed.
Lemma runs_weaken {A} (m : M World A) (P Q : A → Prop) :
  runs m P → (∀ a, P a → Q a) → runs m Q.
Proof. intros Hm HPQ w Hw. destruct (Hm w Hw) as (a & w' & ? & ? & ?). eauto 6. Qed.
Lemma runs_ignore_host {A} (m : M host A) : safe m → runs (ignore (in_host m)) (λ _, True).
Proof.
  intros Hs. eapply runs_bind; [by apply (runs_in_host m (λ _, True))|].
  intros _ _. by apply runs_ret.
Qed.
Lemma runs_ignore_fs {A} (m : M FS A) : safe m → runs (ignore (in_fs m)) (λ _, True).
Proof.
  intros Hs. eapply runs_bind; [by apply (runs_in_fs m (λ _, True))|].
  intros _ _. by apply runs_ret.
Qed.
Lemma runs_keeps {A} (m : M World A) :
  (∀ w, ∃ a w', m w = (Ok a, w')) → maintains (plugins_ok ns_of) m → runs m (λ _, True).
Proof.
  intros Hm Hk w Hw. destruct (Hm w) as (a & w' & E). exists a, w'. split_and!; [done..|].
  by eapply Hk.
Qed.
Lemma runs_update_state f : runs (update_state f) (λ _, True).
Proof. apply runs_keeps; [by intros w; eexists _, _|apply ko_update_state]. Qed.
#[local] Hint Resolve runs_gets runs_ignore_host runs_ignore_fs runs_update_state : runs.

Lemma returns_ignore {A} (m : M World A) : safe m → returns (ignore m).
Proof. intros. apply returns_bind; [by apply returns_attempt|]. intros. apply returns_ret. Qed.
Lemma returns_update_registry f : returns (update_registry f).
Proof. apply returns_modify. Qed.
#[local] Hint Resolve returns_ignore returns_update_registry safe_RegisterPlugin : returns.
#[local] Hint Resolve safe_in_host safe_in_fs safe_in_services : returns.

Lemma returns_register_plugin plugin name : returns (register_plugin plugin name).
Proof.
  intros w. unfold register_plugin. unfold mbind at 1, M_bind at 1, gets.
  destruct (Register plugin name (w_registry w)) as [r1|err|p] eqn:Er.
  - apply (returns_bind (update_registry (λ _, r1))); [auto with returns|].
    intros _. apply returns_bind; [auto with returns|].
    intros [[]|e|p]; [auto with returns| |auto with returns].
    apply returns_bind; [auto with returns|]. intros _.
    apply returns_bind; [auto with returns safe|]. auto with returns.
  - apply (returns_bind (ignore (in_host (Close plugin)))); auto with returns safe.
  - unfold Register in Er. by repeat case_match.
Qed.
Lemma runs_register_plugin plugin name :
  pm_Namespace (Metadata plugin) = ns_of name →
  runs (register_plugin plugin name) (λ _, True).
Proof. intros. apply runs_keeps; [apply returns_register_plugin|by apply ko_register_plugin]. Qed.
Lemma runs_mark_ready p : runs (mark_ready p) (λ _, True).
Proof.
  unfold mark_ready. induction (GetProvidedServices p) as [|s l IH];
    cbn [for_each]; [by apply runs_ret|].
  eapply (runs_bind _ _ (λ _, True)); [|intros _ _; exact IH]. intros w Hw.
  destruct (MarkServiceReady_spec (sd_Name s) (w_services w) (po_services _ _ Hw))
    as (r & E & Hr & _).
  eexists (), _. split; [unfold in_services; rewrite E; reflexivity|]. split; [done|].
  destruct Hw. by split.
Qed.
Lemma runs_LoadPlugin name :
  runs (attempt (in_host (LoadPlugin name)))
    (λ r, no_panic r ∧ ∀ p, r = Ok p → pm_Namespace (Metadata p) = ns_of name).
Proof. apply runs_in_host; [auto with safe|]. intros. by eapply Hstable. Qed.
Lemma runs_canLoadPlugin name : runs (canLoadPlugin name) (λ _, True).
Proof.
  eapply runs_bind; [apply runs_LoadPlugin|]. intros [p|e|p] [Hp _]; [|by apply runs_ret|done].
  eapply runs_bind; [apply runs_gets|]. intros r _.
  eapply runs_bind; [apply runs_ignore_host; auto with safe|]. intros. by apply runs_ret.
Qed.
Lemma runs_initial_config name m : runs (initial_config name m) (λ _, True).
Proof.
  eapply runs_bind; [apply (runs_in_fs _ (λ _, True)); auto with safe no_panic|].
  intros. by apply runs_ret.
Qed.

(** The jack configuration edited in place keeps its plugin map. *)
Definition has_plugins (jc : JackConfig) : Prop := is_Some (jc_Plugins jc).
Lemma runs_with_plugin name st jc :
  has_plugins jc → runs (lift (with_plugin name st jc)) has_plugins.
Proof.
  intros [m Hm] w Hw. unfold with_plugin. rewrite Hm. eexists _, w.
  split; [reflexivity|]. split; [|done]. by eexists.
Qed.
Lemma runs_loadSinglePlugin name jc :
  has_plugins jc → runs (loadSinglePlugin name jc) (λ r, has_plugins r.1).
Proof.
  intros Hjc. unfold loadSinglePlugin. cbv zeta. eapply runs_bind; [apply runs_LoadPlugin|].
  intros [plugin|e|p] [Hp Hns]; [|by apply runs_ret|done]. specialize (Hns _ eq_refl).
  eapply runs_bind; [by apply runs_with_plugin|]. intros jc1 Hjc1.
  eapply runs_bind; [by apply runs_register_plugin|]. intros [err|] _; [by apply runs_ret|].
  eapply runs_bind; [apply runs_ignore_host; auto with safe|]. intros _ _.
  eapply runs_bind; [apply runs_initial_config|]. intros config _.
  eapply runs_bind; [apply runs_update_state|]. intros _ _.
  case_match; [by apply runs_ret|].
  eapply runs_bind; [apply (runs_in_host _ (λ _, True)); auto with safe|].
  intros [[]|err|] [Hok _]; [|by apply runs_ret|done].
  eapply runs_bind; [apply runs_mark_ready|]. intros. by apply runs_ret.
Qed.
Lemma runs_wave l : ∀ loaded n jc,
  has_plugins jc → runs (wave l loaded n jc) (λ r, has_plugins r.2).
Proof.
  induction l as [|name l IH]; intros loaded n jc Hjc; cbn [wave]; [by apply runs_ret|].
  case_decide; [by apply IH|]. eapply runs_bind; [apply runs_canLoadPlugin|].
  intros [[] ?] _; [|by apply IH].
  eapply runs_bind; [by apply runs_loadSinglePlugin|]. intros [jc1 failed] Hjc1. by apply IH.
Qed.
Lemma runs_waves fuel l : ∀ loaded jc,
  has_plugins jc → runs (waves fuel l loaded jc) (λ _, True).
Proof.
  induction fuel as [|fuel IH]; intros loaded jc Hjc; cbn [waves];
    (case_match; [by apply runs_ret|]); [by apply runs_ret|].
  eapply runs_bind; [by apply runs_wave|]. intros [[loaded1 n] jc1] Hjc1. cbn in Hjc1.
  case_match; [by apply runs_ret|]. by apply IH.
Qed.
Lemma runs_try_fs {A} p (m : M FS A) (P : A → Prop) k :
  safe m → (∀ fs a fs', m fs = (Ok a, fs') → P a) →
  (∀ a, P a → runs (k a) (λ _, True)) → runs (try_or_fail p (in_fs m) k) (λ _, True).
Proof.
  intros Hs HP Hk. eapply runs_bind; [by apply (runs_in_fs m P)|].
  intros [a|e|w] [Hok Ha]; cbn; [by apply Hk, Ha|by apply runs_ret|done].
Qed.
Lemma runs_loadPlugins :
  runs (attempt loadPlugins) no_panic.
Proof.
  intros w Hw. unfold loadPlugins, attempt. unfold mbind at 1, M_bind at 1, wrapM, in_fs at 1.
  pose proof (safe_LoadJackConfig (w_fs w)) as Hs.
  destruct (LoadJackConfig (w_fs w)) as [[jc|e|p] fs] eqn:E; cbn -[waves] in *; [| |done].
  2: { eexists _, _. split; [done|]. split; [done|]. by destruct Hw. }
  apply LoadJackConfig_plugins in E.
  match goal with |- context [match ?m ?w1 with _ => _ end] =>
    assert (runs m (λ _, True)) as Hm
  end.
  { eapply runs_bind; [by apply runs_waves|]. intros done _.
    eapply runs_bind; [apply runs_ignore_fs; auto with safe|]. intros _ _.
    apply runs_update_state. }
  edestruct Hm as (a & w' & Em & _ & Hw'); [|rewrite Em; by eexists _, _].
  by destruct Hw.
Qed.
Lemma runs_handlePluginEnable name : runs (handlePluginEnable name) (λ _, True).
Proof.
  unfold handlePluginEnable. case_match; [by apply runs_ret|].
  eapply (runs_try_fs _ _ has_plugins);
    [auto with safe|intros *; apply LoadJackConfig_plugins|]. intros jc Hjc.
  eapply runs_bind; [apply runs_gets|]. intros registry _. cbv zeta.
  match goal with |- runs (if ?b then _ else _) _ => destruct b; [by apply runs_ret|] end.
  eapply runs_bind; [apply runs_LoadPlugin|].
  intros [plugin|e|p] [Hp Hns]; cbn [or_fail]; [|by apply runs_ret|done].
  eapply runs_bind; [apply runs_register_plugin; auto|].
  intros [err|] _; [by apply runs_ret|].
  eapply (runs_bind _ _ (λ _, True)).
  - eapply runs_bind; [apply (runs_in_fs _ (λ _, True)); auto with safe no_panic|].
    intros [v|e|w] [Hok _]; [apply runs_ignore_host; auto with safe| |done].
    case_match; [apply runs_ignore_host; auto with safe|by apply runs_ret].
  - intros _ _. eapply runs_bind; [by apply runs_with_plugin|]. intros jc1 _.
    eapply (runs_try_fs _ _ (λ _, True)); auto with safe. intros. by apply runs_ret.
Qed.
End total.

(** ** Properties *)

(** C26: loading plugins in waves terminates with a result, whatever order maps
    are walked in, whatever the plugin processes answer (short of a panic of
    the process library) and the file system does, and whatever services the
    plugins require: each wave either makes progress or is the last, so one
    more wave than there are enabled plugins always suffices; only enabled
    plugins are loaded, and the registries are consistent afterwards. *)
Theorem waves_terminate `{HostSafe} `{RangeOrder} `{OS} ns_of
    (plugins : gmap string PluginState) jc w :
  stable_namespaces ns_of → plugins_ok ns_of w → is_Some (jc_Plugins jc) →
  let enabledPlugins := enabled_names (range plugins) in
  ∃ loaded jc' w',
    waves (S (length enabledPlugins)) enabledPlugins ∅ jc w = (Ok (Some (loaded, jc')), w') ∧
    (∀ name, name ∈ loaded → ∃ st, plugins !! name = Some st ∧ ps_Enabled st = true) ∧
    plugins_ok ns_of w'.
Proof.
  intros Hst Hw Hjc enabledPlugins.
  destruct (runs_waves ns_of Hst (S (length enabledPlugins)) enabledPlugins ∅ jc Hjc w Hw)
    as (r & w' & E & _ & Hw').
  pose proof E as (loaded & jc' & -> & _ & Hl)%waves_fuel.
  - exists loaded, jc', w'. split_and!; [done| |done].
    intros name Hn%Hl. by apply elem_of_filter_range in Hn.
  - apply NoDup_filter_range.
  - set_solver.
  - rewrite size_empty. lia.
Qed.

(** As long as every plugin binary reports one namespace of its own and the
    process library does not panic, starting the daemon's plugins and enabling
    a plugin always end with an answer, and they and disabling a plugin
    (when it does not panic) keep the plugin registry and the service registry
    consistent, on success and on every error path. *)
Theorem plugin_commands_consistent `{HostSafe} `{RangeOrder} `{OS} ns_of w :
  stable_namespaces ns_of → plugins_ok ns_of w →
  (∃ r w', loadPlugins w = (r, w') ∧ no_panic r ∧ plugins_ok ns_of w') ∧
  (∀ name, ∃ resp w', handlePluginEnable name w = (Ok resp, w') ∧ plugins_ok ns_of w') ∧
  (∀ name r w', handlePluginDisable name w = (r, w') → no_panic r → plugins_ok ns_of w').
Proof.
  intros Hst Hw. split_and!.
  - destruct (runs_loadPlugins ns_of Hst w Hw) as (r & w' & E & Hr & Hw').
    unfold attempt in E. destruct (loadPlugins w) as [[a|e|p] w1]; [| |done];
      injection E as <- <-; by eexists _, _.
  - intros name. destruct (runs_handlePluginEnable ns_of Hst name w Hw) as (? & ? & ? & _ & ?).
    eauto.
  - intros *. intros Hr Hp. by eapply ko_handlePluginDisable.
Qed.

(** A host with one plugin binary, which provides the service "database". *)
Definition db_metadata : MetadataResponse :=
  {| mr_metadata := {| pm_Namespace := "database"; pm_Version := "1.0"; pm_Description := "";
       pm_Category := ""; pm_ConfigPath := "";
       pm_DefaultConfig := Some {["path" := VStr "/var/lib/jack/logs.db"]};
       pm_Dependencies := []; pm_PathPrefix := "" |};
     mr_ProvidedServices := [db_service]; mr_RequiredServices := []; mr_CLICommands := [] |}.
Definition db_host : Host := {|
  host := ();
  h_executable p := mret (String.eqb p "bin/jack-plugin-sqlite3"); h_ReadDir _ := mret [];
  h_NewPluginClient _ := mret 1%positive; h_Dispense _ := mret ();
  h_Metadata _ := mret db_metadata; h_SetupDaemonService _ := mret ();
  h_ApplyConfig _ _ := mret (); h_ValidateConfig _ _ := mret (); h_Flush _ := mret ();
  h_Status _ := mret JNull; h_ExecuteCLICommand _ _ _ := mret "";
  h_CallService _ _ _ _ := mret (Some JNull); h_Close _ := mret () |}.
(** The configuration that enables sqlite3, and the daemon before it loads it. *)
Definition db_jack : JackConfig :=
  {| jc_Plugins := Some {["sqlite3" := {| ps_Version := ""; ps_Enabled := true |}]};
     jc_Observer := None; jc_Logging := None; jc_Version := "1.0" |}.
Definition db_world : World (H:=db_host) :=
  {| w_state := NewState;
     w_fs := {| fs_files := {["/etc/jack/jack.json" := CJson (enc_struct enc_config_field db_jack)]};
                fs_tick := 0 |};
     w_registry := NewPluginRegistry; w_services := NewServiceRegistry;
     w_host := tt : host (Host:=db_host) |}.

Lemma db_host_stable : stable_namespaces (H:=db_host) (λ _, "database").
Proof.
  intros name h plugin h'. unfold LoadPlugin, mbind, M_bind, wrapM.
  destruct (FindPlugin name h) as [[p|e|] h1]; cbn; [|done..]. by intros [= <- _].
Qed.

Lemma db_host_safe : HostSafe (H:=db_host).
Proof. split; repeat intro; exact I. Qed.
Lemma db_world_ok : plugins_ok (H:=db_host) (λ _, "database") db_world.
Proof.
  split; [exact registry_ok_new|exact services_ok_new|].
  intros n ns Hl. vm_compute in Hl. discriminate Hl.
Qed.

Lemma waves_terminate_witness :
  let _ := db_host in let _ := default_order in let _ := reliable_os in
  ∃ loaded jc' w',
    waves 2 ["sqlite3"] ∅ db_jack db_world = (Ok (Some (loaded, jc')), w') ∧
    plugins_ok (H:=db_host) (λ _, "database") w'.
Proof.
  intros hs o os.
  destruct (@waves_terminate db_host db_host_safe default_order reliable_os (λ _, "database")
    (gm (jc_Plugins db_jack)) db_jack db_world db_host_stable db_world_ok (ex_intro _ _ eq_refl))
    as (loaded & jc' & w' & E & _ & Hw').
  exists loaded, jc', w'. split; [exact E|exact Hw'].
Defined.

Lemma plugin_commands_consistent_witness :
  let _ := db_host in let _ := default_order in let _ := reliable_os in
  ∃ r w', loadPlugins db_world = (r, w') ∧ no_panic r ∧
    plugins_ok (H:=db_host) (λ _, "database") w'.
Proof.
  intros hs o os.
  exact (proj1 (@plugin_commands_consistent db_host db_host_safe default_order reliable_os
    (λ _, "database") db_world db_host_stable db_world_ok)).
Defined.

(** Disabling a plugin that provides a service crashes the daemon: once the
    plugin has been loaded and its service is ready, plugin-disable unloads it
    and then panics closing the service's channel a second time. *)
Theorem disable_provider_panics :
  let _ := db_host in let _ := default_order in let _ := reliable_os in
  let '(r1, w1) := loadPlugins db_world in
  r1 = Ok () ∧ is_ready "database" (w_services w1) = true ∧
  (handlePluginDisable "sqlite3" w1).1 = Panic "close of closed channel".
Proof. vm_compute. repeat split. Qed.

(** A plugin that is enabled while the daemon runs is registered, but its
    services are never marked ready and its configuration is not loaded. *)
Example enabled_plugin_not_ready :
  let _ := db_host in let _ := default_order in let _ := reliable_os in
  let '(r, w) := handlePluginEnable "sqlite3" db_world in
  r = Ok (ok_message "Plugin 'sqlite3' enabled successfully") ∧
  GetServiceProvider "database" (w_services w) = Some "database" ∧
  is_ready "database" (w_services w) = false ∧
  GetCurrent "database" (w_state w) = unknown_type "database".
Proof. vm_compute. repeat split. Qed.
