(* ===== verification/Observer.v ===== *)
(** * Observer: daemon/observer.go and daemon/observer_helpers.go

    The drift detector.  Link, address and route events come from netlink with
    their data already extracted; the handlers compare them with the state's
    current configuration and may start a reconciliation.  Times are
    nanoseconds of the monotonic clock; every [time.Now] of the code is one
    reading of the [Clock] parameter.  [reconcile] itself is [MarkChange]
    followed by the server's apply, which is another component: a run of the
    observer sees its [MarkChange] as one more step, at any later moment. *)
From S2P Require Import Prelude GoStr GoNet Types Json Value Path State.

(** ** observer_helpers.go *)
Section helpers.
Context `{RangeOrder}.

Definition device_matches (deviceName : string) (iface : Interface) : bool :=
  bool_decide (if_DeviceName iface = deviceName) || bool_decide (if_Device iface = deviceName).
(** The interface and the name of the first match of the iteration. *)
Definition findInterfaceByDevice (config : option InterfacesConfig) (deviceName : string)
    : option (Interface * string) :=
  match config with
  | None => None
  | Some config =>
      (λ p, (p.2.2, p.2.1)) <$>
        list_find (λ p, device_matches deviceName p.2 = true)
                  (range (gm (ic_Interfaces config)))
  end.
End helpers.

Definition compareLinkState (desired : Interface) (configName actualName : string)
    (isUp : bool) (actualMTU : Z) : string :=
  let who := "Interface " +:+ actualName +:+ " (" +:+ configName +:+ ")" in
  if if_Enabled desired && negb isUp then who +:+ " is down but should be up"
  else if negb (if_Enabled desired) && isUp then who +:+ " is up but should be down"
  else if (0 <? if_MTU desired) && negb (actualMTU =? if_MTU desired) then
    who +:+ " has MTU " +:+ itoa actualMTU +:+ " but should have " +:+ itoa (if_MTU desired)
  else "".

(** [strings.Split(s, "/")[0]] *)
Definition before_slash (s : string) : string := hd "" (split slash s).
Definition compareIPAddress (desired : Interface) (configName linkName ipAddr : string)
    (isNew : bool) : string :=
  if nonempty (if_IPAddr desired) then
    let desiredIP := before_slash (if_IPAddr desired) in
    let actualIP := before_slash ipAddr in
    if isNew && negb (bool_decide (actualIP = desiredIP)) then
      "Interface " +:+ linkName +:+ " (" +:+ configName +:+ ") has unexpected IP "
        +:+ actualIP +:+ " (expected " +:+ desiredIP +:+ ")"
    else ""
  else "".

Record RouteData := { rd_Dst : string; rd_Gw : string; rd_Table : Z }.

Definition normalize_default (dst : string) : string :=
  if bool_decide (dst = "default") then "0.0.0.0/0" else dst.
Definition routeDestinationsMatch (actual desired : string) : bool :=
  let actual := normalize_default actual in
  let desired := normalize_default desired in
  match ParseCIDR actual, ParseCIDR desired with
  | Ok (_, actualNet), Ok (_, desiredNet) =>
      bool_decide (IPNet_String actualNet = IPNet_String desiredNet)
  | _, _ => bool_decide (actual = desired)
  end.

Definition compareRoute (desiredRoute : Route) (routeName : string) (actualRoute : RouteData)
    (action : string) : string :=
  let desiredDst := normalize_default (rt_Destination desiredRoute) in
  let what := "Route " +:+ routeName +:+ " (" +:+ desiredDst +:+ ")" in
  if negb (routeDestinationsMatch (rd_Dst actualRoute) desiredDst) then ""
  else if bool_decide (action = "deleted") then what +:+ " was deleted externally"
  else if nonempty (rt_Gateway desiredRoute)
          && negb (bool_decide (rt_Gateway desiredRoute = rd_Gw actualRoute)) then
    what +:+ " has gateway " +:+ rd_Gw actualRoute +:+ " but should have "
      +:+ rt_Gateway desiredRoute
  else if (0 <? rt_Table desiredRoute) && negb (rd_Table actualRoute =? rt_Table desiredRoute)
  then what +:+ " is in table " +:+ itoa (rd_Table actualRoute) +:+ " but should be in table "
         +:+ itoa (rt_Table desiredRoute)
  else "".

(** ** The observer *)

Definition Millisecond : Z := 1000000.
Definition Second : Z := 1000000000.

Record NetworkObserver := {
  lastChange : Z; lastReconcile : Z; autoReconcile : bool; reconcileInterval : Z;
}.

(** The state of a run: the observer, how often the clock has been read, and
    the times at which reconciliations were started, last first. *)
Record Obs := { obs : NetworkObserver; reads : nat; started : list Z }.

(** The clock: its readings never go back. *)
Class Clock := {
  now : nat → Z;
  now_mono i j : (i ≤ j)%nat → now i ≤ now j;
}.

(** [t.Sub(u)] on monotonic readings saturates. *)
Definition time_Sub (t u : Z) : Z := Z.max min_int64 (Z.min max_int64 (t - u)).

(** What netlink reports, with the answer of [netlink.LinkByIndex] (the name,
    [None] for an error) in the events whose handlers ask for it. *)
Record LinkUpdate := { lu_Name : string; lu_Flags : Z; lu_MTU : Z }.
Record AddrUpdate := { au_LinkName : option string; au_IP : option IP; au_NewAddr : bool }.
Record RouteUpdate := {
  ru_Type : Z; ru_Dst : option IPNet; ru_Gw : option IP; ru_Table : Z;
}.
Definition IFF_UP : Z := 1.
Definition RTM_NEWROUTE : Z := 24.
Definition RTM_DELROUTE : Z := 25.

Section observer.
Context `{RangeOrder} `{Clock}.

Definition time_Now : M Obs Z := λ w,
  (Ok (now (reads w)), {| obs := obs w; reads := S (reads w); started := started w |}).
Definition time_Since (t : Z) : M Obs Z := time_Now ≫= λ n, mret (time_Sub n t).
Definition set_obs (o : NetworkObserver) : M Obs () :=
  modify (λ w, {| obs := o; reads := reads w; started := started w |}).

(** [go o.reconcile()] *)
Definition go_reconcile (t : Z) : M Obs () :=
  modify (λ w, {| obs := obs w; reads := reads w; started := t :: started w |}).

(** The configured observer, or the defaults. *)
Definition observer_config (s : State) : bool * Z :=
  match GetCurrentJackConfig s ≫= jc_Observer with
  | Some oc =>
      (oc_AutoReconcile oc,
       if 0 <? oc_ReconcileIntervalMS oc
       then wrap64 (oc_ReconcileIntervalMS oc * Millisecond) else 60 * Second)
  | None => (false, 60 * Second)
  end.
Definition NewNetworkObserver (s : State) (i : nat) : Obs :=
  let '(auto, interval) := observer_config s in
  {| obs := {| lastChange := now i - 2 * Second; lastReconcile := now (S i) - interval;
               autoReconcile := auto; reconcileInterval := interval |};
     reads := S (S i); started := [] |}.

Definition MarkChange : M Obs () :=
  gets obs ≫= λ o, time_Now ≫= λ t,
  set_obs {| lastChange := t; lastReconcile := lastReconcile o;
             autoReconcile := autoReconcile o; reconcileInterval := reconcileInterval o |}.
Definition isRecentChange : M Obs bool :=
  gets obs ≫= λ o, time_Since (lastChange o) ≫= λ d, mret (d <? Second).

Definition maybeReconcile : M Obs () :=
  gets obs ≫= λ o,
  if negb (autoReconcile o) then mret () else
  time_Since (lastReconcile o) ≫= λ d,
  if d <? reconcileInterval o then
    (* the log line reads the clock once more *)
    time_Since (lastReconcile o) ≫= λ _, mret ()
  else
  time_Now ≫= λ t,
  set_obs {| lastChange := lastChange o; lastReconcile := t;
             autoReconcile := autoReconcile o; reconcileInterval := reconcileInterval o |}
    ≫= λ _, go_reconcile t.

Definition checkLinkDrift (s : State) (linkName : string) (isUp : bool) (actualMTU : Z)
    : string :=
  match findInterfaceByDevice (GetCurrentInterfaces s) linkName with
  | None => ""
  | Some (desiredIface, configName) =>
      compareLinkState desiredIface configName linkName isUp actualMTU
  end.
Definition checkAddressDrift (s : State) (linkName ipAddr : string) (isNew : bool) : string :=
  match findInterfaceByDevice (GetCurrentInterfaces s) linkName with
  | None => ""
  | Some (desiredIface, configName) =>
      compareIPAddress desiredIface configName linkName ipAddr isNew
  end.

Definition route_data (route : RouteUpdate) : RouteData :=
  {| rd_Dst := match ru_Dst route with None => "default" | Some d => IPNet_String d end;
     rd_Gw := match ru_Gw route with None => "" | Some g => IP_String g end;
     rd_Table := ru_Table route |}.
(** The first drift message of the enabled routes. *)
Fixpoint first_drift (routes : list (string * Route)) (actualRoute : RouteData)
    (action : string) : string :=
  match routes with
  | [] => ""
  | (name, desiredRoute) :: routes =>
      if negb (rt_Enabled desiredRoute) then first_drift routes actualRoute action
      else
        let drift := compareRoute desiredRoute name actualRoute action in
        if nonempty drift then drift else first_drift routes actualRoute action
  end.
Definition checkRouteDrift (s : State) (route : RouteUpdate) (action : string) : string :=
  match GetCurrentRoutes s with
  | None => ""
  | Some config => first_drift (range (gm (rc_Routes config))) (route_data route) action
  end.

Definition react (drift : string) : M Obs () :=
  if nonempty drift then maybeReconcile else mret ().

Definition link_drift (s : State) (update : LinkUpdate) : string :=
  checkLinkDrift s (lu_Name update)
    (negb (Z.land (lu_Flags update) IFF_UP =? 0)) (lu_MTU update).
Definition handleLinkUpdate (s : State) (update : LinkUpdate) : M Obs () :=
  isRecentChange ≫= λ recent : bool,
  if recent then mret () else react (link_drift s update).

Definition addr_drift (s : State) (update : AddrUpdate) : string :=
  let linkName := default "unknown" (au_LinkName update) in
  match au_IP update with
  | Some ip =>
      if bool_decide (linkName = "unknown") then ""
      else checkAddressDrift s linkName (IP_String ip) (au_NewAddr update)
  | None => ""
  end.
Definition handleAddrUpdate (s : State) (update : AddrUpdate) : M Obs () :=
  isRecentChange ≫= λ recent : bool,
  if recent then mret () else react (addr_drift s update).

Definition route_action (t : Z) : string :=
  if t =? RTM_NEWROUTE then "added" else if t =? RTM_DELROUTE then "deleted" else "modified".
Definition route_drift (s : State) (update : RouteUpdate) : string :=
  checkRouteDrift s update (route_action (ru_Type update)).
Definition handleRouteUpdate (s : State) (update : RouteUpdate) : M Obs () :=
  isRecentChange ≫= λ recent : bool,
  if recent then mret () else react (route_drift s update).

(** One turn of [Run]'s loop, or a [MarkChange] by an apply. *)
Inductive event :=
| ELink (u : LinkUpdate) | EAddr (u : AddrUpdate) | ERoute (u : RouteUpdate) | EMark.
Definition handle_event (s : State) (e : event) : M Obs () :=
  match e with
  | ELink u => handleLinkUpdate s u
  | EAddr u => handleAddrUpdate s u
  | ERoute u => handleRouteUpdate s u
  | EMark => MarkChange
  end.
(** The configuration an event meets is whatever it is at that moment. *)
Definition Run (events : list (State * event)) : M Obs () :=
  for_each events (λ p, handle_event p.1 p.2).

Definition event_drift (s : State) (e : event) : string :=
  match e with
  | ELink u => link_drift s u
  | EAddr u => addr_drift s u
  | ERoute u => route_drift s u
  | EMark => ""
  end.
End observer.

(** ** The helpers: what an empty drift message means *)

Lemma string_app_nonempty (a s : string) c : (a +:+ String c s) ≠ "".
Proof. by destruct a. Qed.

(** An interface has no link drift exactly when its up flag is the
    configured [enabled] and its MTU is the configured one, if one is. *)
Theorem compareLinkState_empty desired configName actualName isUp actualMTU :
  compareLinkState desired configName actualName isUp actualMTU = "" ↔
  isUp = if_Enabled desired ∧ (0 < if_MTU desired → actualMTU = if_MTU desired).
Proof.
  unfold compareLinkState.
  destruct (if_Enabled desired), isUp; cbn [negb andb]; try (split; [done|intros [? _]; done]).
  all: destruct (Z.ltb_spec 0 (if_MTU desired)), (Z.eqb_spec actualMTU (if_MTU desired));
    cbn [negb andb]; split; try done; try (intros _; split; [done|lia]).
  all: intros [_ ?]; exfalso; lia.
Qed.

(** ** Route destinations *)

(** What a destination is compared by: its network in canonical form, or its
    text when it is not a CIDR. *)
Definition canonical (dst : string) : string + string :=
  match ParseCIDR (normalize_default dst) with
  | Ok (_, n) => inl (IPNet_String n)
  | _ => inr (normalize_default dst)
  end.

Lemma routeDestinationsMatch_canonical a d :
  routeDestinationsMatch a d = bool_decide (canonical a = canonical d).
Proof.
  unfold routeDestinationsMatch, canonical.
  destruct (ParseCIDR (normalize_default a)) as [[]| |] eqn:Ha,
    (ParseCIDR (normalize_default d)) as [[]| |] eqn:Hd; cbn;
    apply bool_decide_ext; split; intros; congruence.
Qed.

Definition mask_len_ok (n : Z) : bool := bool_decide (mask_len (CIDRMask n 32) = Some n).

Lemma mask_len_CIDRMask n : 0 ≤ n ≤ 32 → mask_len (CIDRMask n 32) = Some n.
Proof.
  intros Hn. assert (mask_len_ok n = true) as H.
  { assert (forallb mask_len_ok (seqZ 0 33) = true) as Hf by (vm_compute; reflexivity).
    rewrite forallb_forall in Hf. apply Hf, list_elem_of_In, elem_of_seqZ. lia. }
  by apply bool_decide_eq_true in H.
Qed.

Lemma CIDRMask_32 n : ∃ m1 m2 m3 m4, CIDRMask n 32 = [m1; m2; m3; m4].
Proof. eexists _, _, _, _. reflexivity. Qed.

Lemma land_byte a m : is_byte a → is_byte (Z.land a m).
Proof.
  unfold is_byte. intros Ha. split; [apply Z.land_nonneg; lia|].
  assert (Z.land (Z.land a m) 255 = Z.land a m) as E.
  { change 255 with (Z.ones 8). rewrite <- Z.land_assoc, (Z.land_comm m), Z.land_assoc.
    rewrite (Z.land_ones a) by lia. by rewrite Z.mod_small by (change (2 ^ 8) with 256; lia). }
  change 255 with (Z.ones 8) in E. rewrite Z.land_ones in E by lia.
  pose proof (Z.mod_pos_bound (Z.land a m) (2 ^ 8)). change (2 ^ 8) with 256 in *. lia.
Qed.

Lemma masked_bytes l n : Forall is_byte l → Forall is_byte (net_IP (ipv4_net l n)).
Proof.
  cbn. generalize (CIDRMask n 32) as m. induction l as [|a l IH]; intros [|b m]; cbn; auto.
  intros [? ?]%Forall_cons. constructor; auto using land_byte.
Qed.

(** The canonical text of an IPv4 network. *)
Lemma IPNet_String_ipv4 a b c d n :
  0 ≤ n ≤ 32 →
  IPNet_String (ipv4_net [a; b; c; d] n) =
    dotted (net_IP (ipv4_net [a; b; c; d] n)) +:+ "/" +:+ itoa n.
Proof.
  intros Hn. unfold IPNet_String. cbn [net_IP net_Mask ipv4_net].
  pose proof (mask_len_CIDRMask n Hn) as Hm.
  destruct (CIDRMask_32 n) as (m1 & m2 & m3 & m4 & E). rewrite E in *. cbn [zip_with].
  cbn -[mask_len join itoa]. by rewrite Hm.
Qed.

Lemma net_IP_shape a b c d n :
  ∃ x y z t, net_IP (ipv4_net [a; b; c; d] n) = [x; y; z; t].
Proof. eexists _, _, _, _. reflexivity. Qed.

Lemma dotted_cidr_inj x y z t n x' y' z' t' n' :
  Forall is_byte [x; y; z; t] → Forall is_byte [x'; y'; z'; t'] →
  0 ≤ n ≤ 32 → 0 ≤ n' ≤ 32 →
  dotted [x; y; z; t] +:+ "/" +:+ itoa n = dotted [x'; y'; z'; t'] +:+ "/" +:+ itoa n' →
  [x; y; z; t] = [x'; y'; z'; t'] ∧ n = n'.
Proof.
  intros Hb Hb' Hn Hn' E. pose proof (f_equal ParseCIDR E) as P.
  rewrite !ParseCIDR_dotted in P by done.
  assert (v4_prefix ++ [x; y; z; t] = v4_prefix ++ [x'; y'; z'; t']
    ∧ CIDRMask n 32 = CIDRMask n' 32) as [Ha Hm].
  { unfold ipv4_net in P. split; congruence. }
  apply app_inv_head in Ha. split; [done|].
  pose proof (mask_len_CIDRMask n Hn). pose proof (mask_len_CIDRMask n' Hn'). congruence.
Qed.

(** "a.b.c.d/n" *)
Definition cidr (l : list Z) (n : Z) : string := dotted l +:+ "/" +:+ itoa n.

Lemma canonical_ipv4 a b c d n :
  Forall is_byte [a; b; c; d] → 0 ≤ n ≤ 32 →
  canonical (cidr [a; b; c; d] n) = inl (cidr (net_IP (ipv4_net [a; b; c; d] n)) n).
Proof.
  intros Hb Hn. unfold canonical, cidr.
  assert (ParseCIDR (dotted [a; b; c; d] +:+ "/" +:+ itoa n) =
    Ok (v4_prefix ++ [a; b; c; d], ipv4_net [a; b; c; d] n)) as P by by apply ParseCIDR_dotted.
  assert (normalize_default (dotted [a; b; c; d] +:+ "/" +:+ itoa n) =
    dotted [a; b; c; d] +:+ "/" +:+ itoa n) as ->.
  { unfold normalize_default. case_bool_decide as E; [|done]. rewrite E in P. discriminate P. }
  rewrite P. by rewrite IPNet_String_ipv4.
Qed.

(** Two IPv4 destinations match exactly when they are the same network:
    the same prefix length and the same address bits under it, however the
    host bits are written. *)
Theorem routeDestinationsMatch_ipv4 a b c d n a' b' c' d' n' :
  Forall is_byte [a; b; c; d] → Forall is_byte [a'; b'; c'; d'] →
  0 ≤ n ≤ 32 → 0 ≤ n' ≤ 32 →
  routeDestinationsMatch (cidr [a; b; c; d] n) (cidr [a'; b'; c'; d'] n') = true ↔
  n = n' ∧ net_IP (ipv4_net [a; b; c; d] n) = net_IP (ipv4_net [a'; b'; c'; d'] n').
Proof.
  intros Hb Hb' Hn Hn'.
  rewrite routeDestinationsMatch_canonical, !canonical_ipv4, bool_decide_eq_true by done.
  pose proof (masked_bytes _ n Hb) as Hm. pose proof (masked_bytes _ n' Hb') as Hm'.
  destruct (net_IP_shape a b c d n) as (x & y & z & t & E).
  destruct (net_IP_shape a' b' c' d' n') as (x' & y' & z' & t' & E').
  rewrite E in *. rewrite E' in *. split; [|by intros [-> ->]].
  intros [= P]. by apply dotted_cidr_inj in P as [-> ->].
Qed.

Example routeDestinationsMatch_ipv4_witness :
  routeDestinationsMatch "10.0.0.7/8" "10.0.0.0/8" = true.
Proof.
  apply (routeDestinationsMatch_ipv4 10 0 0 7 8 10 0 0 0 8);
    [repeat constructor; vm_compute; discriminate..|lia|lia|].
  split; [lia|vm_compute; reflexivity].
Defined.

(** ** The run of the observer *)

Section run.
Context `{RangeOrder} `{Clock}.

(** Whether an event starts a reconciliation, from the clock readings the
    handler makes. *)
Definition quiet_for (w : Obs) : Z := time_Sub (now (reads w)) (lastChange (obs w)).
Definition since_reconcile (w : Obs) : Z :=
  time_Sub (now (S (reads w))) (lastReconcile (obs w)).
Definition triggers (s : State) (e : event) (w : Obs) : bool :=
  autoReconcile (obs w) && nonempty (event_drift s e) &&
  (Second <=? quiet_for w) && (reconcileInterval (obs w) <=? since_reconcile w).

(** The world after [k] clock readings. *)
Definition ticked (k : nat) (w : Obs) : Obs :=
  {| obs := obs w; reads := k + reads w; started := started w |}.

Lemma isRecentChange_eq w : isRecentChange w = (Ok (quiet_for w <? Second), ticked 1 w).
Proof. reflexivity. Qed.

(** What [maybeReconcile] does, as conditional updates. *)
Lemma maybeReconcile_spec w :
  let go := autoReconcile (obs w) &&
    (reconcileInterval (obs w) <=? time_Sub (now (reads w)) (lastReconcile (obs w))) in
  ∃ w', maybeReconcile w = (Ok (), w') ∧
  started w' = (if go then now (S (reads w)) :: started w else started w) ∧
  obs w' = {| lastChange := lastChange (obs w);
              lastReconcile := if go then now (S (reads w)) else lastReconcile (obs w);
              autoReconcile := autoReconcile (obs w);
              reconcileInterval := reconcileInterval (obs w) |} ∧
  (reads w ≤ reads w')%nat ∧ (go = true → reads w' = S (S (reads w))).
Proof.
  destruct w as [[lc lr auto iv] k st]. cbn.
  unfold maybeReconcile, time_Since, mbind, M_bind. cbn.
  destruct auto; cbn; [|eexists; split; [reflexivity|]; by repeat split].
  destruct (Z.ltb_spec (time_Sub (now k) lr) iv) as [Hlt|Hge].
  - rewrite (proj2 (Z.leb_gt _ _)) by done.
    eexists; split; [reflexivity|]; cbn. split_and!; first [done|lia].
  - rewrite (proj2 (Z.leb_le _ _)) by done.
    eexists; split; [reflexivity|]; cbn. split_and!; first [done|lia].
Qed.

(** The three handlers share this shape. *)
Lemma observe_spec drift w :
  let fires := autoReconcile (obs w) && nonempty drift &&
    (Second <=? quiet_for w) && (reconcileInterval (obs w) <=? since_reconcile w) in
  ∃ w', (isRecentChange ≫= λ recent : bool, if recent then mret () else react drift) w
        = (Ok (), w') ∧
  started w' = (if fires then now (S (S (reads w))) :: started w else started w) ∧
  obs w' = {| lastChange := lastChange (obs w);
              lastReconcile := if fires then now (S (S (reads w)))
                               else lastReconcile (obs w);
              autoReconcile := autoReconcile (obs w);
              reconcileInterval := reconcileInterval (obs w) |} ∧
  (reads w < reads w')%nat ∧ (fires = true → reads w' = S (S (S (reads w)))).
Proof.
  unfold mbind, M_bind. rewrite isRecentChange_eq.
  destruct (Z.ltb_spec (quiet_for w) Second) as [Hlt|Hge];
    [rewrite (proj2 (Z.leb_gt _ _)) by done|rewrite (proj2 (Z.leb_le _ _)) by done].
  { rewrite andb_false_r. exists (ticked 1 w). destruct w as [[] ? ?]; cbn.
    split_and!; first [done|lia]. }
  unfold react. destruct (nonempty drift).
  - destruct (maybeReconcile_spec (ticked 1 w)) as (w' & E & H1 & H2 & H3 & H4).
    exists w'. rewrite !andb_true_r. cbn in *. unfold since_reconcile.
    repeat split; auto; lia.
  - rewrite andb_false_r. exists (ticked 1 w). destruct w as [[] ? ?]; cbn.
    split_and!; first [done|lia].
Qed.

Lemma handle_event_effect s e w :
  ∃ w', handle_event s e w = (Ok (), w') ∧
  started w' = (if triggers s e w then now (S (S (reads w))) :: started w else started w) ∧
  obs w' = {| lastChange := match e with EMark => now (reads w)
                            | _ => lastChange (obs w) end;
              lastReconcile := if triggers s e w then now (S (S (reads w)))
                               else lastReconcile (obs w);
              autoReconcile := autoReconcile (obs w);
              reconcileInterval := reconcileInterval (obs w) |} ∧
  (reads w < reads w')%nat ∧ (triggers s e w = true → reads w' = S (S (S (reads w)))).
Proof.
  destruct e as [u|u|u|].
  - exact (observe_spec (link_drift s u) w).
  - exact (observe_spec (addr_drift s u) w).
  - exact (observe_spec (route_drift s u) w).
  - eexists. split; [reflexivity|]. unfold triggers. cbn. rewrite andb_false_r.
    split_and!; first [done|lia].
Qed.

(** An event starts exactly one reconciliation when automatic
    reconciliation is on, the event shows a drift from the configuration, the
    last change made by the daemon is at least a second ago and the last
    reconciliation at least the interval; otherwise it starts none, and only
    a [MarkChange] moves the time of the last change. *)
Theorem handle_event_spec s e w :
  ∃ w', handle_event s e w = (Ok (), w') ∧
  started w' = (if triggers s e w then now (S (S (reads w))) :: started w else started w) ∧
  obs w' = {| lastChange := match e with EMark => now (reads w)
                            | _ => lastChange (obs w) end;
              lastReconcile := if triggers s e w then now (S (S (reads w)))
                               else lastReconcile (obs w);
              autoReconcile := autoReconcile (obs w);
              reconcileInterval := reconcileInterval (obs w) |}.
Proof. destruct (handle_event_effect s e w) as (w' & ? & ? & ? & _). eauto. Qed.

(** Consecutive starts are an interval apart; the last one is remembered. *)
Record spaced (I : Z) (w : Obs) : Prop := {
  sp_interval : reconcileInterval (obs w) = I;
  sp_gaps : Sorted (λ later earlier, earlier + I ≤ later) (started w);
  sp_last : ∀ t, head (started w) = Some t →
            lastReconcile (obs w) = t ∧ ∃ j, (j < reads w)%nat ∧ t = now j;
  sp_off : autoReconcile (obs w) = false → started w = [];
}.

Lemma time_Sub_ge I t u : min_int64 ≤ I → 0 ≤ t - u → I ≤ time_Sub t u → I ≤ t - u.
Proof. unfold time_Sub, min_int64, max_int64. lia. Qed.

Lemma spaced_event I s e w :
  min_int64 ≤ I → spaced I w →
  ∃ w', handle_event s e w = (Ok (), w') ∧ spaced I w' ∧
    autoReconcile (obs w') = autoReconcile (obs w).
Proof.
  intros HI [Hi Hg Hl Ho]. destruct (handle_event_effect s e w) as (w' & E & Hs & Hw & Hr & Hr').
  exists w'. split; [done|]. split; [|by rewrite Hw].
  unfold triggers in *. destruct (autoReconcile (obs w) && nonempty (event_drift s e) &&
    (Second <=? quiet_for w) && (reconcileInterval (obs w) <=? since_reconcile w)) eqn:Ht.
  - rewrite !andb_true_iff in Ht. destruct Ht as [[[Ha _] _] Ht%Z.leb_le].
    specialize (Hr' eq_refl). split; rewrite ?Hs, ?Hw; cbn; [done| | |congruence].
    + constructor; [done|]. destruct (started w) as [|t l]; constructor.
      destruct (Hl t eq_refl) as [Hlr (j & Hj & ->)].
      unfold since_reconcile in Ht. rewrite Hi, Hlr in Ht.
      pose proof (now_mono j (S (reads w)) ltac:(lia)).
      pose proof (now_mono (S (reads w)) (S (S (reads w))) ltac:(lia)).
      apply time_Sub_ge in Ht; lia.
    + intros t [= <-]. split; [done|]. exists (S (S (reads w))). split; [lia|done].
  - split; rewrite ?Hs, ?Hw; cbn; [done..| |done].
    intros t Ht'. destruct (Hl t Ht') as [? (j & ? & ?)]. split; [done|].
    exists j. split; [lia|done].
Qed.

Lemma spaced_run I events w :
  min_int64 ≤ I → spaced I w →
  ∃ w', Run events w = (Ok (), w') ∧ spaced I w' ∧
    autoReconcile (obs w') = autoReconcile (obs w).
Proof.
  intros HI. revert w. induction events as [|[s e] events IH]; intros w Hw; [by exists w|].
  destruct (spaced_event I s e w HI Hw) as (w1 & E1 & Hw1 & Ha1).
  destruct (IH w1 Hw1) as (w2 & E2 & Hw2 & Ha2).
  exists w2. split; [|split; [done|congruence]].
  unfold Run in *. cbn [for_each fst snd]. unfold mbind, M_bind. by rewrite E1.
Qed.

(** C32: over any sequence of events and configurations, the reconciliations
    of an observer are started at least the configured interval apart, and
    none is started unless the configuration the observer was created with
    asks for automatic reconciliation. *)
Theorem reconcile_rate_limited s i events :
  ∃ w, Run events (NewNetworkObserver s i) = (Ok (), w) ∧
  Sorted (λ later earlier, earlier + (observer_config s).2 ≤ later) (started w) ∧
  ((observer_config s).1 = false → started w = []).
Proof.
  assert (min_int64 ≤ (observer_config s).2) as HI.
  { unfold observer_config, wrap64, min_int64, Second.
    destruct (GetCurrentJackConfig s ≫= jc_Observer) as [oc|]; cbn; [|lia].
    destruct (0 <? oc_ReconcileIntervalMS oc); [|lia].
    pose proof (Z.mod_pos_bound (oc_ReconcileIntervalMS oc * Millisecond + 2 ^ 63) (2 ^ 64)).
    lia. }
  destruct (spaced_run _ events (NewNetworkObserver s i) HI) as (w & E & [Hi Hg Hl Ho] & Ha).
  { unfold NewNetworkObserver. destruct (observer_config s) as [auto iv].
    split; cbn; [done|constructor|done|done]. }
  exists w. split; [done|]. split; [done|]. intros Hoff. apply Ho. rewrite Ha.
  unfold NewNetworkObserver. by destruct (observer_config s).
Qed.
End run.

(** ** Concrete runs *)

(** A clock that advances half a second per reading. *)
Program Definition half_seconds : Clock := {| now i := Z.of_nat i * 500000000 |}.
Next Obligation. intros i j Hij. cbn. lia. Qed.

Definition wan_up : Interface :=
  {| if_IPv6 := None; if_Gateway := ""; if_Comment := ""; if_MAC := ""; if_Type := "physical";
     if_Device := "eth0"; if_DeviceName := ""; if_Protocol := "static";
     if_IPAddr := "10.0.0.1"; if_WGPrivateKey := ""; if_Netmask := "255.0.0.0";
     if_BridgePorts := []; if_DNS := []; if_WGPeers := []; if_Metric := 0; if_MTU := 1500;
     if_BridgeForwardDelay := 0; if_VLANId := 0; if_WGListenPort := 0; if_Enabled := true;
     if_BridgeSTP := false |}.
Definition observed_state (intervalMS : Z) : State :=
  let '(jack, s) := alloc (OJack {| jc_Plugins := None;
      jc_Observer := Some {| oc_Enabled := true; oc_AutoReconcile := true;
                             oc_ReconcileIntervalMS := intervalMS |};
      jc_Logging := None; jc_Version := "1.0" |}) NewState in
  let s := LoadCommitted "jack" (Some jack) s in
  let '(ifaces, s) := alloc (OIfaces {| ic_Interfaces := Some {[ "wan" := wan_up ]};
                                        ic_Version := "1.0" |}) s in
  LoadCommitted "interfaces" (Some ifaces) s.
Definition eth0_down : event := ELink {| lu_Name := "eth0"; lu_Flags := 0; lu_MTU := 1500 |}.

(** Six reports of a dead link, with a 3-second limit: two reconciliations. *)
Example two_reconciliations :
  let s := observed_state 3000 in
  started (snd (Run (H:=default_order) (H0:=half_seconds) (replicate 6 (s, eth0_down))
    (NewNetworkObserver (H0:=half_seconds) s 0))) = [6500000000; 2000000000].
Proof. vm_compute. reflexivity. Qed.

(** A [MarkChange] less than a second before the report hides it. *)
Example marked_change_hides :
  let s := observed_state 3000 in
  started (snd (Run (H:=default_order) (H0:=half_seconds) [(s, EMark); (s, eth0_down)]
    (NewNetworkObserver (H0:=half_seconds) s 0))) = [].
Proof. vm_compute. reflexivity. Qed.

(** An interval of more than 2^63 nanoseconds wraps around and is no limit. *)
Example interval_overflow : (observer_config (observed_state 9223372036855)).2 < 0.
Proof. vm_compute. reflexivity. Qed.

(** Two configured routes to one destination in different tables: an event
    for the first is a drift of the second. *)
Definition main_default : Route :=
  {| rt_Name := "main"; rt_Destination := "default"; rt_Gateway := "10.0.0.254";
     rt_Interface := "wan"; rt_Comment := ""; rt_Metric := 0; rt_Table := 254;
     rt_Enabled := true |}.
Definition vpn_default : Route :=
  {| rt_Name := "vpn"; rt_Destination := "default"; rt_Gateway := "10.8.0.1";
     rt_Interface := "wg0"; rt_Comment := ""; rt_Metric := 0; rt_Table := 100;
     rt_Enabled := true |}.
Example false_route_drift :
  let installed := {| rd_Dst := "default"; rd_Gw := "10.0.0.254"; rd_Table := 254 |} in
  compareRoute main_default "main" installed "added" = "" ∧
  compareRoute vpn_default "vpn" installed "added" =
    "Route vpn (0.0.0.0/0) has gateway 10.0.0.254 but should have 10.8.0.1".
Proof. vm_compute. done. Qed.
