(* ===== verification/Netlink.v ===== *)
(** * Netlink: system/interfaces.go

    The clients the system package works through: [NetlinkClient],
    [FilesystemClient], [CommandRunner] and the processes started for DHCP.
    Their implementations are the netlink library and the operating system,
    so [Kernel] is a parameter: a state and operations that may fail.
    [KernelLaws] is what the library documents of the operations the theorems
    need, over three views of the state (the links, the addresses of a link,
    the routes): a listing returns the view and changes nothing, an operation
    that returns an error changes nothing, and one that succeeds has its
    effect on the view.  [memory_kernel] is a kernel that satisfies the laws. *)
From S2P Require Import Prelude GoStr GoNet.

(** ** netlink's data, as far as the code looks at it *)

(** A link with its attributes; [lk_Up]: the FlagUp flag; [lk_VlanId] of a
    vlan; [lk_Loopback]: the FlagLoopback flag. *)
Record Link := {
  lk_Index : Z; lk_Name : string; lk_MTU : Z; lk_MasterIndex : Z; lk_ParentIndex : Z;
  lk_Up : bool; lk_Type : string; lk_VlanId : Z;
  lk_Loopback : bool;
}.
(** An address is its network; a nil [Gw] is []. *)
Definition Addr := IPNet.
Record NRoute := {
  nr_Dst : option IPNet; nr_Gw : IP; nr_LinkIndex : Z; nr_Priority : Z; nr_Table : Z;
  nr_Protocol : Z; nr_Scope : Z;
}.
#[export] Instance IPNet_eq_dec : EqDecision IPNet.
Proof. solve_decision. Defined.
#[export] Instance Link_eq_dec : EqDecision Link.
Proof. solve_decision. Defined.
#[export] Instance NRoute_eq_dec : EqDecision NRoute.
Proof. solve_decision. Defined.

Definition SCOPE_LINK : Z := 253.
Definition RTPROT_KERNEL : Z := 2.
(** The table a listing without a filter is of. *)
Definition MAIN_TABLE : Z := 254.

(** ** The clients; every listing is of the IPv4 family *)
Class Kernel := {
  kernel : Type;
  k_LinkByName : string → M kernel Link;
  k_LinkByIndex : Z → M kernel Link;
  k_LinkList : M kernel (list Link);
  k_LinkAdd : Link → M kernel ();
  k_LinkDel : Link → M kernel ();
  k_LinkSetUp : Link → M kernel ();
  k_LinkSetDown : Link → M kernel ();
  k_LinkSetMTU : Link → Z → M kernel ();
  k_LinkSetMaster : Link → Link → M kernel ();
  k_LinkSetNoMaster : Link → M kernel ();
  k_AddrList : Link → M kernel (list Addr);
  k_AddrAdd : Link → Addr → M kernel ();
  k_AddrDel : Link → Addr → M kernel ();
  k_RouteAdd : NRoute → M kernel ();
  k_RouteDel : NRoute → M kernel ();
  k_RouteList : option Link → M kernel (list NRoute);
  (* netlink.ParseAddr, a pure function *)
  k_ParseAddr : string → res Addr;
  (* FilesystemClient *)
  k_ReadFile : string → M kernel string;
  k_WriteFile : string → string → M kernel ();
  (* os.CreateTemp (the name) and os.Remove *)
  k_CreateTemp : string → string → M kernel string;
  k_Remove : string → M kernel ();
  (* CommandRunner.Run: the output, also of a command that fails *)
  k_Run : string → list string → M kernel (string * option error);
  (* exec.LookPath, exec.Command(...).Run and .Start *)
  k_LookPath : string → M kernel ();
  k_Command : string → list string → M kernel ();
}.

(** ** The sysctl client *)
Fixpoint replaceDotsWithSlash (s : string) : string :=
  match s with
  | "" => ""
  | String c s => String (if Ascii.eqb c dot then slash else c) (replaceDotsWithSlash s)
  end.
Definition sysctl_Get `{Kernel} (key : string) : M kernel string :=
  k_ReadFile ("/proc/sys/" +:+ replaceDotsWithSlash key).
Definition sysctl_Set `{Kernel} (key value : string) : M kernel () :=
  k_WriteFile ("/proc/sys/" +:+ replaceDotsWithSlash key) value.

(** ** What the netlink library documents *)

(** The link of an index changed in a list. *)
Definition set_link (i : Z) (f : Link → Link) (l : list Link) : list Link :=
  (λ x, if lk_Index x =? i then f x else x) <$> l.
Definition with_master (m : Z) (x : Link) : Link :=
  {| lk_Index := lk_Index x; lk_Name := lk_Name x; lk_MTU := lk_MTU x; lk_MasterIndex := m;
     lk_ParentIndex := lk_ParentIndex x; lk_Up := lk_Up x; lk_Type := lk_Type x;
     lk_VlanId := lk_VlanId x; lk_Loopback := lk_Loopback x |}.
Definition with_up (u : bool) (x : Link) : Link :=
  {| lk_Index := lk_Index x; lk_Name := lk_Name x; lk_MTU := lk_MTU x;
     lk_MasterIndex := lk_MasterIndex x; lk_ParentIndex := lk_ParentIndex x; lk_Up := u;
     lk_Type := lk_Type x; lk_VlanId := lk_VlanId x; lk_Loopback := lk_Loopback x |}.
Definition with_MTU (mtu : Z) (x : Link) : Link :=
  {| lk_Index := lk_Index x; lk_Name := lk_Name x; lk_MTU := mtu;
     lk_MasterIndex := lk_MasterIndex x; lk_ParentIndex := lk_ParentIndex x; lk_Up := lk_Up x;
     lk_Type := lk_Type x; lk_VlanId := lk_VlanId x; lk_Loopback := lk_Loopback x |}.

(** [if_ok r a b]: [a] when the call returned nil, else [b]. *)
Definition if_ok {A B} (r : res A) (a b : B) : B := match r with Ok _ => a | _ => b end.

(** A route as the kernel lists it after it was added: IPv4
    addresses in either form, the default destination as nil or 0.0.0.0/0, and
    a protocol of the kernel's choice. *)
Definition dst_string (d : option IPNet) : string :=
  match d with Some n => IPNet_String n | None => "0.0.0.0/0" end.
Definition same_route (a b : NRoute) : Prop :=
  dst_string (nr_Dst a) = dst_string (nr_Dst b) ∧ IP_Equal (nr_Gw a) (nr_Gw b) = true ∧
  nr_LinkIndex a = nr_LinkIndex b ∧ nr_Priority a = nr_Priority b ∧
  nr_Table a = nr_Table b ∧ nr_Scope a = nr_Scope b.

Class KernelLaws `{Kernel} := {
  links_of : kernel → list Link;
  addrs_of : kernel → Z → list Addr;
  routes_of : kernel → list NRoute;

  (* listings *)
  kl_LinkByName n k r k' : k_LinkByName n k = (r, k') →
    k' = k ∧ no_panic r ∧ ∀ l, r = Ok l → l ∈ links_of k ∧ lk_Name l = n;
  kl_LinkList k r k' : k_LinkList k = (r, k') →
    k' = k ∧ no_panic r ∧ ∀ l, r = Ok l → l = links_of k;
  kl_AddrList l k r k' : k_AddrList l k = (r, k') →
    k' = k ∧ no_panic r ∧ ∀ a, r = Ok a → a = addrs_of k (lk_Index l);
  kl_RouteList k r k' : k_RouteList None k = (r, k') →
    k' = k ∧ no_panic r ∧ ∀ l, r = Ok l → l = filter (λ x, nr_Table x = MAIN_TABLE) (routes_of k);

  (* routes *)
  kl_RouteAdd x k r k' : k_RouteAdd x k = (r, k') →
    no_panic r ∧ links_of k' = links_of k ∧ (∀ i, addrs_of k' i = addrs_of k i) ∧
    if_ok r (∃ y, same_route x y ∧ routes_of k' ≡ₚ y :: routes_of k)
            (routes_of k' = routes_of k);
  kl_RouteDel x k r k' : k_RouteDel x k = (r, k') →
    no_panic r ∧ links_of k' = links_of k ∧ (∀ i, addrs_of k' i = addrs_of k i) ∧
    routes_of k' = if_ok r (filter (.≠ x) (routes_of k)) (routes_of k);
}.

(** A link's place: index, name and master, which the other settings of a link
    leave alone (the MTU of a bridge follows its ports, its flags its carrier). *)
Definition place (x : Link) : Z * string * Z := (lk_Index x, lk_Name x, lk_MasterIndex x).

(** A mask netlink can express: a prefix length. *)
Definition prefix_mask (m : list Z) : Prop := ∃ n, 0 ≤ n ≤ 32 ∧ m = CIDRMask n 32.
(** An address as the kernel lists it after it was added. *)
Definition same_addr (a b : Addr) : Prop :=
  IP_Equal (net_IP b) (net_IP a) = true ∧
  (prefix_mask (net_Mask a) → net_Mask b = net_Mask a).

(** What the calls that change links and addresses do to both views; an address
    that is deleted may take others of its link with it (the secondary ones). *)
Class LinkLaws `{KernelLaws} := {
  ll_LinkSetUp l k r k' : k_LinkSetUp l k = (r, k') →
    no_panic r ∧ place <$> links_of k' = place <$> links_of k ∧
    ∀ i, addrs_of k' i = addrs_of k i;
  ll_LinkSetDown l k r k' : k_LinkSetDown l k = (r, k') →
    no_panic r ∧ place <$> links_of k' = place <$> links_of k;
  ll_LinkSetMTU l mtu k r k' : k_LinkSetMTU l mtu k = (r, k') →
    no_panic r ∧ place <$> links_of k' = place <$> links_of k ∧
    ∀ i, addrs_of k' i = addrs_of k i;
  ll_LinkSetMaster l m k r k' : k_LinkSetMaster l m k = (r, k') →
    no_panic r ∧
    place <$> links_of k' =
      place <$> if_ok r (set_link (lk_Index l) (with_master (lk_Index m)) (links_of k))
                        (links_of k) ∧
    ∀ i, addrs_of k' i = addrs_of k i;
  ll_LinkSetNoMaster l k r k' : k_LinkSetNoMaster l k = (r, k') →
    no_panic r ∧
    place <$> links_of k' =
      place <$> if_ok r (set_link (lk_Index l) (with_master 0) (links_of k)) (links_of k) ∧
    ∀ i, addrs_of k' i = addrs_of k i;
  ll_LinkAdd l : safe (k_LinkAdd l);
  ll_LinkDel l : safe (k_LinkDel l);
  ll_AddrAdd l a k r k' : k_AddrAdd l a k = (r, k') →
    no_panic r ∧ place <$> links_of k' = place <$> links_of k ∧
    (∀ i, i ≠ lk_Index l → addrs_of k' i = addrs_of k i) ∧
    if_ok r (∃ a', same_addr a a' ∧ addrs_of k' (lk_Index l) ≡ₚ a' :: addrs_of k (lk_Index l))
            (addrs_of k' (lk_Index l) = addrs_of k (lk_Index l));
  ll_AddrDel l a k r k' : k_AddrDel l a k = (r, k') →
    no_panic r ∧ place <$> links_of k' = place <$> links_of k ∧
    (∀ i, i ≠ lk_Index l → addrs_of k' i = addrs_of k i) ∧
    if_ok r (∀ b, b ∈ addrs_of k' (lk_Index l) → b ∈ addrs_of k (lk_Index l) ∧ b ≠ a)
            (addrs_of k' (lk_Index l) = addrs_of k (lk_Index l));
  ll_LookPath p : safe (k_LookPath p);
  ll_Command c args : safe (k_Command c args);
  ll_WriteFile p s : safe (k_WriteFile p s);
}.

(** The calls that only look change nothing. *)
Class ReadLaws `{KernelLaws} := {
  rl_LinkByIndex i k r k' : k_LinkByIndex i k = (r, k') →
    k' = k ∧ no_panic r ∧ ∀ l, r = Ok l → l ∈ links_of k ∧ lk_Index l = i;
  rl_RouteList l k r k' : k_RouteList (Some l) k = (r, k') → k' = k ∧ no_panic r;
  rl_ReadFile p k r k' : k_ReadFile p k = (r, k') → k' = k ∧ no_panic r;
  rl_list_table k r k' :
    k_Run "nft" ["-j"; "list"; "table"; "inet"; "jack"] k = (r, k') → k' = k ∧ no_panic r;
  rl_ParseAddr s : no_panic (k_ParseAddr s);
}.

(** The other calls answer. *)
Class CommandLaws `{Kernel} : Prop := {
  cl_CreateTemp dir pattern : safe (k_CreateTemp dir pattern);
  cl_Remove p : safe (k_Remove p);
  cl_Run c args : safe (k_Run c args);
}.

(** ** A kernel in memory *)

Record Memory := {
  mem_links : list Link; mem_addrs : Z → list Addr; mem_routes : list NRoute;
  mem_files : gmap string string;
}.
Definition with_links (l : list Link) (m : Memory) : Memory :=
  {| mem_links := l; mem_addrs := mem_addrs m; mem_routes := mem_routes m;
     mem_files := mem_files m |}.
Definition with_addrs (i : Z) (f : list Addr → list Addr) (m : Memory) : Memory :=
  {| mem_links := mem_links m;
     mem_addrs := λ j, if j =? i then f (mem_addrs m j) else mem_addrs m j;
     mem_routes := mem_routes m; mem_files := mem_files m |}.
Definition with_routes (l : list NRoute) (m : Memory) : Memory :=
  {| mem_links := mem_links m; mem_addrs := mem_addrs m; mem_routes := l;
     mem_files := mem_files m |}.

Definition errno (kind : string) : error := StdError "netlink" kind.
(** [f] on the links when there is one of that index. *)
Definition link_op (l : Link) (f : list Link → list Link) : M Memory () := λ m,
  if existsb (λ x, lk_Index x =? lk_Index l) (mem_links m)
  then (Ok (), with_links (f (mem_links m)) m) else (Err (errno "no such device"), m).
Definition find_link (P : Link → bool) : M Memory Link := λ m,
  (ok_or (errno "Link not found") (List.find P (mem_links m)), m).
(** Names are unique; the index of a new link is the next one. *)
Definition mem_LinkAdd (l : Link) : M Memory () := λ m,
  if existsb (λ x, String.eqb (lk_Name x) (lk_Name l)) (mem_links m)
  then (Err (errno "file exists"), m)
  else
    let i := 1 + foldr (λ x, Z.max (lk_Index x)) 0 (mem_links m) in
    (Ok (), with_links (mem_links m ++
       [{| lk_Index := i; lk_Name := lk_Name l; lk_MTU := lk_MTU l;
           lk_MasterIndex := lk_MasterIndex l; lk_ParentIndex := lk_ParentIndex l;
           lk_Up := lk_Up l; lk_Type := lk_Type l; lk_VlanId := lk_VlanId l;
           lk_Loopback := false |}]) m).

Definition memory_kernel : Kernel := {|
  kernel := Memory;
  k_LinkByName n := find_link (λ l, String.eqb (lk_Name l) n);
  k_LinkByIndex i := find_link (λ l, lk_Index l =? i);
  k_LinkList := gets mem_links;
  k_LinkAdd := mem_LinkAdd;
  k_LinkDel l := link_op l (List.filter (λ x, negb (lk_Index x =? lk_Index l)));
  k_LinkSetUp l := link_op l (set_link (lk_Index l) (with_up true));
  k_LinkSetDown l := link_op l (set_link (lk_Index l) (with_up false));
  k_LinkSetMTU l mtu := link_op l (set_link (lk_Index l) (with_MTU mtu));
  k_LinkSetMaster l m := link_op l (set_link (lk_Index l) (with_master (lk_Index m)));
  k_LinkSetNoMaster l := link_op l (set_link (lk_Index l) (with_master 0));
  k_AddrList l := gets (λ m, mem_addrs m (lk_Index l));
  k_AddrAdd l a := λ m,
    if decide (a ∈ mem_addrs m (lk_Index l)) then (Err (errno "file exists"), m)
    else (Ok (), with_addrs (lk_Index l) (λ as_, as_ ++ [a]) m);
  k_AddrDel l a := λ m,
    if decide (a ∈ mem_addrs m (lk_Index l))
    then (Ok (), with_addrs (lk_Index l) (filter (.≠ a)) m)
    else (Err (errno "cannot assign requested address"), m);
  k_RouteAdd x := λ m,
    if decide (x ∈ mem_routes m) then (Err (errno "file exists"), m)
    else (Ok (), with_routes (mem_routes m ++ [x]) m);
  k_RouteDel x := λ m,
    if decide (x ∈ mem_routes m) then (Ok (), with_routes (filter (.≠ x) (mem_routes m)) m)
    else (Err (errno "no such process"), m);
  k_RouteList l := gets (λ m, match l with
    | None => filter (λ x, nr_Table x = MAIN_TABLE) (mem_routes m)
    | Some l => filter (λ x, nr_Table x = MAIN_TABLE ∧ nr_LinkIndex x = lk_Index l) (mem_routes m)
    end);
  k_ParseAddr s := ParseCIDR s ≫= λ '(ip, n), Ok {| net_IP := ip; net_Mask := net_Mask n |};
  k_ReadFile p := λ m, (ok_or (errno "file not found") (mem_files m !! p), m);
  k_WriteFile p s := modify (λ m,
    {| mem_links := mem_links m; mem_addrs := mem_addrs m; mem_routes := mem_routes m;
       mem_files := <[p := s]> (mem_files m) |});
  k_CreateTemp dir pattern := mret ("/tmp/" +:+ pattern);
  k_Remove p := modify (λ m,
    {| mem_links := mem_links m; mem_addrs := mem_addrs m; mem_routes := mem_routes m;
       mem_files := delete p (mem_files m) |});
  k_Run _ _ := mret ("", Some (errno "executable file not found"));
  k_LookPath _ := fail (errno "executable file not found");
  k_Command _ _ := mret ();
|}.

Lemma IP_Equal_refl ip : IP_Equal ip ip = true.
Proof. unfold IP_Equal. destruct (To4 ip); by apply bool_decide_eq_true. Qed.

Program Definition memory_laws : KernelLaws (H:=memory_kernel) := {|
  links_of := mem_links; addrs_of := mem_addrs; routes_of := mem_routes
|}.
Next Obligation.
  intros n m r m' [= <- <-]. destruct (List.find _ _) as [x|] eqn:E; cbn; [|done].
  split_and!; [done..|]. intros l [= <-]. apply List.find_some in E as [Hin Hn].
  apply String.eqb_eq in Hn. by rewrite list_elem_of_In.
Qed.
Next Obligation. intros m r m' [= <- <-]. by split_and!; [..|intros ? [= <-]]. Qed.
Next Obligation. intros l m r m' [= <- <-]. by split_and!; [..|intros ? [= <-]]. Qed.
Next Obligation. intros m r m' [= <- <-]. by split_and!; [..|intros ? [= <-]]. Qed.
Next Obligation.
  intros x m r m'. cbn. case_decide; intros [= <- <-]; [done|]. split_and!; try done.
  exists x. split; [|by cbn; rewrite Permutation_app_comm].
  by unfold same_route; rewrite IP_Equal_refl.
Qed.
Next Obligation. intros x m r m'. cbn. case_decide; by intros [= <- <-]. Qed.

Lemma link_op_law l f m r m' :
  link_op l f m = (r, m') →
  no_panic r ∧ mem_links m' = if_ok r (f (mem_links m)) (mem_links m) ∧
  mem_addrs m' = mem_addrs m.
Proof. unfold link_op. case_match; by intros [= <- <-]. Qed.
Lemma link_op_place l f m r m' :
  link_op l f m = (r, m') → (∀ ls, place <$> f ls = place <$> ls) →
  no_panic r ∧ place <$> mem_links m' = place <$> mem_links m ∧ ∀ i, mem_addrs m' i = mem_addrs m i.
Proof. intros (? & -> & ->)%link_op_law Hf. by destruct r; cbn; rewrite ?Hf. Qed.
Lemma place_set_link i f ls : (∀ x, place (f x) = place x) → place <$> set_link i f ls = place <$> ls.
Proof.
  intros Hf. unfold set_link. rewrite <- list_fmap_compose. apply list_fmap_ext.
  intros _ x _. cbn. case_match; auto.
Qed.

Lemma memory_link_laws : LinkLaws (H0:=memory_laws).
Proof.
  split.
  - intros l m r m' E%link_op_place; [done|]. intros ls. by apply place_set_link.
  - intros l m r m' E%link_op_place; [by destruct E as (? & ? & ?)|]. intros ls. by apply place_set_link.
  - intros l mtu m r m' E%link_op_place; [done|]. intros ls. by apply place_set_link.
  - intros l x m r m' (? & E1 & E)%link_op_law. cbn. by rewrite E, E1.
  - intros l m r m' (? & E1 & E)%link_op_law. cbn. by rewrite E, E1.
  - intros l m. cbn. unfold mem_LinkAdd. by case_match.
  - intros l m. cbn. unfold link_op. by case_match.
  - intros l a m r m'. cbn. case_decide; intros [= <- <-]; [done|]. split_and!; try done.
    + intros i Hi. cbn. by rewrite (proj2 (Z.eqb_neq _ _)) by done.
    + cbn. rewrite Z.eqb_refl. exists a. split; [by split; [apply IP_Equal_refl|]|].
      by rewrite Permutation_app_comm.
  - intros l a m r m'. cbn. case_decide; intros [= <- <-]; [|done]. split_and!; try done.
    + intros i Hi. cbn. by rewrite (proj2 (Z.eqb_neq _ _)) by done.
    + cbn. rewrite Z.eqb_refl. by intros b [? ?]%list_elem_of_filter.
  - by intros p m.
  - by intros c args m.
  - by intros p s m.
Qed.
Lemma memory_read_laws : ReadLaws (H0:=memory_laws).
Proof.
  split.
  - intros i m r m' [= <- <-]. destruct (List.find _ _) as [l|] eqn:E; split_and!; try done.
    intros l' [= <-]. apply List.find_some in E as [Hin Hi%Z.eqb_eq].
    split; [by apply list_elem_of_In|done].
  - by intros l m r m' [= <- <-].
  - intros p m r m' [= <- <-]. by destruct (_ !! _).
  - by intros m r m' [= <- <-].
  - intros s. cbn. apply no_panic_bind; [apply ParseCIDR_no_panic|]. by intros [].
Qed.
Lemma memory_command_laws : CommandLaws (H:=memory_kernel).
Proof. by split. Qed.
