(* ===== verification/Routes.v ===== *)
(** * Routes: system/routes_manager.go, system/routes.go

    The route manager: applying the enabled static routes, each after removing
    the kernel's routes that match it.  Log output is not modelled.  The
    theorems, from the laws of the kernel: what the table holds after a route
    has been applied, that nothing else is removed, and which interface a
    gateway is reached through. *)
From S2P Require Import Prelude GoStr GoNet Validation Types Netlink.

Definition nil_IP : IP := [].

Definition routesMatch (a b : NRoute) : bool :=
  match nr_Dst a, nr_Dst b with
  | None, None => true
  | Some x, Some y => bool_decide (IPNet_String x = IPNet_String y)
  | _, _ => false
  end &&
  IP_Equal (nr_Gw a) (nr_Gw b) &&
  ((nr_LinkIndex a =? nr_LinkIndex b) || (nr_LinkIndex a =? 0) || (nr_LinkIndex b =? 0)) &&
  (nr_Table a =? nr_Table b).

(** The destination of a validated route. *)
Definition route_dst (route : Route) : res IPNet :=
  if bool_decide (rt_Destination route = "default") then snd <$> ParseCIDR "0.0.0.0/0"
  else wrap ("invalid destination " +:+ rt_Destination route +:+ ": ")
         (snd <$> ParseCIDR (rt_Destination route)).
Definition route_table (route : Route) : Z :=
  if rt_Table route =? 0 then 254 else rt_Table route.

Section routes.
Context `{Kernel}.

(** The first link with an address whose network contains the gateway; a link
    whose addresses cannot be listed is passed over. *)
Fixpoint find_for_gateway (gateway : IP) (links : list Link) : M kernel (option Z) :=
  match links with
  | [] => mret None
  | link :: links =>
      attempt (k_AddrList link) ≫= λ addrs,
      match addrs with
      | Ok addrs =>
          if existsb (λ addr, IPNet_Contains addr gateway) addrs
          then mret (Some (lk_Index link)) else find_for_gateway gateway links
      | _ => find_for_gateway gateway links
      end
  end.
Definition findInterfaceForGateway (gateway : IP) : M kernel Z :=
  wrapM "failed to list interfaces: " k_LinkList ≫= λ links,
  find_for_gateway gateway links ≫= λ found,
  lift (ok_or (ErrorText ("no interface found with network containing gateway "
                          +:+ IP_String gateway)) found).

(** Gateway, link index and scope of the route to add. *)
Definition route_hop (route : Route) : M kernel (IP * Z * Z) :=
  let by_name :=
    wrapM ("interface " +:+ rt_Interface route +:+ " not found: ")
      (k_LinkByName (rt_Interface route)) in
  if nonempty (rt_Gateway route) then
    lift (ok_or (ErrorText ("invalid gateway address: " +:+ rt_Gateway route))
            (ParseIP (rt_Gateway route))) ≫= λ gw,
    if nonempty (rt_Interface route) then
      by_name ≫= λ link, mret (gw, lk_Index link, 0)
    else
      wrapM ("failed to find interface for gateway " +:+ rt_Gateway route +:+ ": ")
        (findInterfaceForGateway gw) ≫= λ linkIndex, mret (gw, linkIndex, 0)
  else if nonempty (rt_Interface route) then
    by_name ≫= λ link, mret (nil_IP, lk_Index link, SCOPE_LINK)
  else fail (ErrorText "route must specify either gateway or interface").

(** Deletion errors are logged. *)
Definition remove_matching (nlRoute : NRoute) (existingRoutes : list NRoute) : M kernel () :=
  for_each existingRoutes (λ existing,
    if routesMatch existing nlRoute then attempt (k_RouteDel existing) ≫= λ _, mret ()
    else mret ()).

Definition applyRoute (routeName : string) (route : Route) : M kernel () :=
  lift (wrap "invalid route configuration: " (check (Route_Validate route))) ≫= λ _,
  lift (route_dst route) ≫= λ dst,
  route_hop route ≫= λ '(gw, linkIndex, scope),
  let nlRoute := {| nr_Dst := Some dst; nr_Gw := gw; nr_LinkIndex := linkIndex;
                    nr_Priority := rt_Metric route; nr_Table := route_table route;
                    nr_Protocol := 0; nr_Scope := scope |} in
  attempt (k_RouteList None) ≫= λ existingRoutes,
  match existingRoutes with
  | Ok existingRoutes => remove_matching nlRoute existingRoutes
  | _ => mret ()
  end ≫= λ _,
  wrapM "failed to add route: " (k_RouteAdd nlRoute).

Definition ApplyRoutesConfig `{RangeOrder} (config : option RoutesConfig) : M kernel () :=
  match config with
  | None => mret ()
  | Some config =>
      for_each (range (gm (rc_Routes config))) (λ p,
        if rt_Enabled p.2 then
          wrapM ("failed to apply route " +:+ p.1 +:+ ": ") (applyRoute p.1 p.2)
        else mret ())
  end.
End routes.

(** ** Lemmas: what the route calls do to the kernel *)

Section laws.
Context `{KernelLaws}.

(** Links and addresses are those of before. *)
Record same_links (k k' : kernel) : Prop := {
  sl_links : links_of k' = links_of k;
  sl_addrs i : addrs_of k' i = addrs_of k i;
}.
Lemma same_links_refl k : same_links k k.
Proof. by split. Qed.
Lemma same_links_trans k1 k2 k3 : same_links k1 k2 → same_links k2 k3 → same_links k1 k3.
Proof. intros [? Ha] [? Hb]. split; [congruence|]. intros i. by rewrite Hb, Ha. Qed.

Lemma find_for_gateway_spec gw links : ∀ k,
  ∃ found, find_for_gateway gw links k = (Ok found, k) ∧
    ∀ i, found = Some i → ∃ l a, l ∈ links ∧ lk_Index l = i ∧ a ∈ addrs_of k i ∧
      IPNet_Contains a gw = true.
Proof.
  induction links as [|l links IH]; intros k; cbn [find_for_gateway]; [by eexists|].
  unfold mbind, M_bind, attempt.
  destruct (k_AddrList l k) as [r k1] eqn:E. apply kl_AddrList in E as (-> & Hp & Ha).
  destruct (IH k) as (found & Hf & Hs).
  assert (∀ i, found = Some i → ∃ l0 a, l0 ∈ l :: links ∧ lk_Index l0 = i ∧
    a ∈ addrs_of k i ∧ IPNet_Contains a gw = true) as Hs'.
  { intros i Hi. destruct (Hs i Hi) as (l0 & a & ? & ? & ? & ?).
    exists l0, a. split_and!; [by right|done..]. }
  destruct r as [addrs|e|w]; cbn; [|by exists found; split|done].
  specialize (Ha addrs eq_refl) as ->.
  destruct (existsb _ _) eqn:Hex; [|by exists found; split].
  eexists. split; [reflexivity|]. intros i [= <-].
  apply existsb_exists in Hex as (a & Hin & Hc). apply list_elem_of_In in Hin.
  exists l, a. split_and!; [by left|done..].
Qed.

Lemma findInterfaceForGateway_spec gw k :
  ∃ r, findInterfaceForGateway gw k = (r, k) ∧ no_panic r ∧
    ∀ i, r = Ok i → ∃ l a, l ∈ links_of k ∧ lk_Index l = i ∧ a ∈ addrs_of k i ∧
      IPNet_Contains a gw = true.
Proof.
  unfold findInterfaceForGateway. unfold mbind at 1, M_bind at 1, wrapM.
  destruct (k_LinkList k) as [r k1] eqn:E. apply kl_LinkList in E as (-> & Hp & Hl).
  destruct r as [links|e|w]; cbn [wrap]; [|by eexists|done].
  specialize (Hl links eq_refl) as ->.
  destruct (find_for_gateway_spec gw (links_of k) k) as (found & Hf & Hs).
  unfold mbind, M_bind. rewrite Hf. eexists. split; [reflexivity|].
  destruct found as [i|]; cbn; [|done]. split; [done|]. intros j [= <-]. by apply Hs.
Qed.

Lemma LinkByName_spec p n k :
  ∃ r, wrapM p (k_LinkByName n) k = (r, k) ∧ no_panic r ∧
    ∀ l, r = Ok l → l ∈ links_of k ∧ lk_Name l = n.
Proof.
  unfold wrapM. destruct (k_LinkByName n k) as [r k1] eqn:E.
  apply kl_LinkByName in E as (-> & Hp & Hl). eexists. split; [reflexivity|].
  destruct r; cbn; [|done..]. split; [done|]. intros l [= <-]. by apply Hl.
Qed.

Lemma remove_matching_spec x l : ∀ k,
  ∃ k', remove_matching x l k = (Ok (), k') ∧ same_links k k' ∧
    (∀ y, y ∈ routes_of k' → y ∈ routes_of k) ∧
    ∀ y, y ∈ routes_of k → routesMatch y x = false → y ∈ routes_of k'.
Proof.
  induction l as [|e l IH]; intros k; cbn.
  { exists k. split_and!; [done|apply same_links_refl|done|done]. }
  unfold mbind at 1, M_bind at 1. destruct (routesMatch e x) eqn:Hm; [|apply IH].
  unfold mbind, M_bind, attempt. destruct (k_RouteDel e k) as [r k1] eqn:E.
  apply kl_RouteDel in E as (Hp & Hl & Ha & Hr).
  assert (same_links k k1) as Hs by by split.
  assert ((∀ y, y ∈ routes_of k1 → y ∈ routes_of k) ∧
    ∀ y, y ∈ routes_of k → routesMatch y x = false → y ∈ routes_of k1) as [H1 H2].
  { rewrite Hr. destruct r; cbn; [|done|done]. split.
    - by intros y [_ ?]%list_elem_of_filter.
    - intros y Hy Hn. apply list_elem_of_filter. split; [|done]. intros ->. congruence. }
  destruct (IH k1) as (k2 & E2 & Hs2 & H3 & H4).
  exists k2. destruct r; [| |done]; cbn; (split_and!; [exact E2|by eapply same_links_trans|auto|auto]).
Qed.

(** The hop of a route: its gateway, if any, parsed, and a link that is the
    configured interface or has an address in the gateway's network. *)
Definition hop_ok (route : Route) (k : kernel) (h : IP * Z * Z) : Prop :=
  let '(gw, linkIndex, scope) := h in
  (if nonempty (rt_Gateway route)
   then ParseIP (rt_Gateway route) = Some gw ∧ scope = 0
   else gw = nil_IP ∧ scope = SCOPE_LINK) ∧
  ∃ l, l ∈ links_of k ∧ lk_Index l = linkIndex ∧
    if nonempty (rt_Interface route) then lk_Name l = rt_Interface route
    else ∃ a, a ∈ addrs_of k linkIndex ∧ IPNet_Contains a gw = true.

Lemma route_hop_spec route k :
  ∃ r, route_hop route k = (r, k) ∧ no_panic r ∧ ∀ h, r = Ok h → hop_ok route k h.
Proof.
  unfold route_hop, hop_ok. cbv zeta.
  destruct (LinkByName_spec ("interface " +:+ rt_Interface route +:+ " not found: ")
    (rt_Interface route) k) as (rl & El & Hpl & Hl).
  destruct (nonempty (rt_Gateway route)).
  - unfold mbind at 1, M_bind at 1, lift.
    destruct (ParseIP (rt_Gateway route)) as [gw|]; cbn [ok_or]; [|by eexists].
    destruct (nonempty (rt_Interface route)).
    + unfold mbind, M_bind. rewrite El. destruct rl as [l|e|w]; [|by eexists|done].
      eexists. split; [reflexivity|]. split; [done|]. intros h [= <-].
      destruct (Hl l eq_refl). split; [done|]. by exists l.
    + destruct (findInterfaceForGateway_spec gw k) as (r & E & Hp & Hf).
      unfold mbind, M_bind, wrapM. rewrite E. destruct r as [i|e|w]; [|by eexists|done].
      eexists. split; [reflexivity|]. split; [done|]. intros h [= <-].
      destruct (Hf i eq_refl) as (l & a & ? & ? & ? & ?). split; [done|]. exists l. eauto.
  - destruct (nonempty (rt_Interface route)); [|by eexists].
    unfold mbind, M_bind. rewrite El. destruct rl as [l|e|w]; [|by eexists|done].
    eexists. split; [reflexivity|]. split; [done|]. intros h [= <-].
    destruct (Hl l eq_refl). split; [done|]. by exists l.
Qed.

(** The kernel route a configured route stands for. *)
Definition wanted (route : Route) (k : kernel) (x : NRoute) : Prop :=
  (∃ dst, route_dst route = Ok dst ∧ nr_Dst x = Some dst) ∧
  hop_ok route k (nr_Gw x, nr_LinkIndex x, nr_Scope x) ∧
  nr_Priority x = rt_Metric route ∧ nr_Table x = route_table route.

Lemma route_dst_no_panic route : no_panic (route_dst route).
Proof.
  unfold route_dst. case_bool_decide; auto using ParseCIDR_no_panic with no_panic.
Qed.

(** Only routes that match [x] may be gone, and nothing but [x] is new. *)
Definition route_added (k k' : kernel) (x : NRoute) (ok : Prop) : Prop :=
  (ok → ∃ y, same_route x y ∧ y ∈ routes_of k') ∧
  (∀ z, z ∈ routes_of k' → z ∈ routes_of k ∨ ok ∧ same_route x z) ∧
  ∀ z, z ∈ routes_of k → routesMatch z x = false → z ∈ routes_of k'.

Lemma replace_route_spec x k :
  ∃ r k', (attempt (k_RouteList None) ≫= λ existingRoutes,
    match existingRoutes with
    | Ok existingRoutes => remove_matching x existingRoutes
    | _ => mret ()
    end ≫= λ _, wrapM "failed to add route: " (k_RouteAdd x)) k = (r, k') ∧
  no_panic r ∧ same_links k k' ∧ route_added k k' x (r = Ok ()).
Proof.
  unfold mbind at 1, M_bind at 1, attempt.
  destruct (k_RouteList None k) as [r0 k0] eqn:E0. apply kl_RouteList in E0 as (-> & Hp0 & _).
  assert (∃ k1, (match Ok r0 : res (res (list NRoute)) with
      | Ok (Ok l) => remove_matching x l | _ => mret () end) k = (Ok (), k1) ∧ same_links k k1 ∧
    (∀ y, y ∈ routes_of k1 → y ∈ routes_of k) ∧
    ∀ y, y ∈ routes_of k → routesMatch y x = false → y ∈ routes_of k1)
    as (k1 & E1 & Hs1 & Hsub & Hkeep).
  { destruct r0 as [l|e|w]; [apply remove_matching_spec| |done].
    exists k. split_and!; [done|apply same_links_refl|done|done]. }
  assert (∀ r0', (match r0' with Ok existingRoutes => remove_matching x existingRoutes
      | _ => mret () end) k = (Ok (), k1) →
    ∃ r k', ((match r0' with Ok existingRoutes => remove_matching x existingRoutes
      | _ => mret () end) ≫= λ _, wrapM "failed to add route: " (k_RouteAdd x)) k = (r, k') ∧
    no_panic r ∧ same_links k k' ∧ route_added k k' x (r = Ok ())) as Hgo.
  { intros r0' E. unfold mbind, M_bind. rewrite E. unfold wrapM.
    destruct (k_RouteAdd x k1) as [r k2] eqn:E2. apply kl_RouteAdd in E2 as (Hp & Hl & Ha & Hr).
    eexists _, k2. split; [reflexivity|].
    assert (same_links k1 k2) as Hs2 by by split.
    destruct r as [[]|e|w]; cbn in *; [| |done];
      (split; [done|]; split; [by eapply same_links_trans|]).
    - destruct Hr as (y & Hy & Hr). unfold route_added. split_and!.
      + intros _. exists y. split; [done|]. rewrite Hr. by left.
      + intros z. rewrite Hr. intros [->|?]%elem_of_cons; auto.
      + intros z Hz Hm. rewrite Hr. right. auto.
    - unfold route_added. rewrite Hr. split_and!; [done|auto|auto]. }
  destruct r0 as [l|e|w]; [by apply (Hgo (Ok l))|by apply (Hgo (Err e))|done].
Qed.

Lemma applyRoute_effect name route k :
  ∃ r k', applyRoute name route k = (r, k') ∧ no_panic r ∧ same_links k k' ∧
  (routes_of k' = routes_of k ∧ r ≠ Ok () ∨
   Route_Validate route = None ∧ ∃ x, wanted route k x ∧ route_added k k' x (r = Ok ())).
Proof.
  unfold applyRoute. unfold mbind at 1, M_bind at 1, lift.
  destruct (Route_Validate route) as [e|] eqn:Hv; cbn.
  { eexists _, k. split; [reflexivity|]. split; [done|]. split; [apply same_links_refl|by left]. }
  unfold mbind at 1, M_bind at 1, lift. pose proof (route_dst_no_panic route) as Hpd.
  destruct (route_dst route) as [dst|e|w] eqn:Hd; [| |done].
  2:{ eexists _, k. split; [reflexivity|]. split; [done|]. split; [apply same_links_refl|by left]. }
  unfold mbind at 1, M_bind at 1. destruct (route_hop_spec route k) as (r & E & Hp & Hh).
  rewrite E. destruct r as [[[gw i] sc]|e|w]; [| |done].
  2:{ eexists _, k. split; [reflexivity|]. split; [done|]. split; [apply same_links_refl|by left]. }
  specialize (Hh _ eq_refl).
  set (x0 := {| nr_Dst := Some dst; nr_Gw := gw; nr_LinkIndex := i;
    nr_Priority := rt_Metric route; nr_Table := route_table route; nr_Protocol := 0;
    nr_Scope := sc |}).
  destruct (replace_route_spec x0 k) as (r & k' & E' & Hp' & Hs & Hr).
  exists r, k'. split_and!; [exact E'|done|done|right]. split; [done|].
  exists x0. split; [|done]. split; [by exists dst|]. by split.
Qed.

(** The route manager's loop over a list of configured routes. *)
Definition apply_enabled (p : string * Route) : M kernel () :=
  if rt_Enabled p.2 then
    wrapM ("failed to apply route " +:+ p.1 +:+ ": ") (applyRoute p.1 p.2)
  else mret ().

(** [z] matches a kernel route that an enabled route of [l] stands for. *)
Definition matched_by (l : list (string * Route)) (k : kernel) (z : NRoute) : Prop :=
  ∃ p x, p ∈ l ∧ rt_Enabled p.2 = true ∧ wanted p.2 k x ∧ routesMatch z x = true.

Lemma wanted_same_links route k k' x : same_links k k' → wanted route k' x → wanted route k x.
Proof.
  intros [Hl Ha] (Hd & (Hg & l & Hin & Hi & Hif) & Hr). split; [done|]. split; [|done].
  split; [done|]. exists l. rewrite <- Hl. split_and!; [done..|].
  revert Hif. destruct (nonempty (rt_Interface route)); [done|]. intros (a & ? & ?). exists a. by rewrite <- Ha.
Qed.

Lemma wanted_dst route k x : wanted route k x → is_Some (nr_Dst x).
Proof. intros [(d & _ & ->) _]. by eexists. Qed.

Lemma IP_Equal_trans a b c : IP_Equal a b = true → IP_Equal b c = true → IP_Equal a c = true.
Proof.
  unfold IP_Equal. destruct (To4 a), (To4 b), (To4 c); rewrite ?bool_decide_eq_true; congruence.
Qed.

(** A route the kernel lists for [x] matches no more than [x] does. *)
Lemma routesMatch_same x y x' :
  same_route x y → is_Some (nr_Dst x) → is_Some (nr_Dst x') → routesMatch y x' = true → routesMatch x x' = true.
Proof.
  intros (Hd & Hg & Hi & _ & Ht & _) [dx Hx] [d' Hx']. unfold routesMatch.
  rewrite Hi, Ht, Hx, Hx'. rewrite Hx in Hd.
  intros [[[Hd' Hg']%andb_true_iff ->]%andb_true_iff ->]%andb_true_iff.
  rewrite (IP_Equal_trans _ _ _ Hg Hg'), !andb_true_r.
  destruct (nr_Dst y) as [dy|]; [|done]. cbn -[IPNet_String] in *. by rewrite Hd.
Qed.

Lemma apply_enabled_effect p k :
  ∃ r k', apply_enabled p k = (r, k') ∧ no_panic r ∧ same_links k k' ∧
  (∀ z, z ∈ routes_of k → z ∈ routes_of k' ∨ matched_by [p] k z) ∧
  (∀ z, z ∈ routes_of k' → z ∈ routes_of k ∨
    rt_Enabled p.2 = true ∧ ∃ x, wanted p.2 k x ∧ same_route x z) ∧
  (r = Ok () → rt_Enabled p.2 = true → Route_Validate p.2 = None ∧
    ∃ x, wanted p.2 k x ∧ ∃ y, same_route x y ∧ y ∈ routes_of k').
Proof.
  unfold apply_enabled. destruct (rt_Enabled p.2) eqn:Hen.
  2:{ exists (Ok ()), k. split_and!; [done|done|apply same_links_refl|by left|by left|done]. }
  destruct (applyRoute_effect p.1 p.2 k) as (r & k' & E & Hp & Hs & Hr).
  unfold wrapM. rewrite E. eexists _, k'. split; [reflexivity|].
  split; [by apply no_panic_wrap|]. split; [done|].
  destruct Hr as [[Hr Hne]|(Hv & x & Hw & Hadd & Hnew & Hkeep)].
  - rewrite Hr. split_and!; [by left|by left|]. by destruct r as [[]| |].
  - split_and!.
    + intros z Hz. destruct (routesMatch z x) eqn:Hm; [right|left; by apply Hkeep].
      exists p, x. by split_and!; [left|..].
    + intros z Hz. destruct (Hnew z Hz) as [?|[_ ?]]; [by left|right]. eauto.
    + intros Hok _. split; [done|]. exists x. split; [done|]. apply Hadd.
      by destruct r as [[]| |].
Qed.

Lemma matched_by_mono l l' k k' z :
  same_links k k' → (∀ p, p ∈ l → p ∈ l') → matched_by l k' z → matched_by l' k z.
Proof.
  intros Hs Hsub (p & x & Hp & Hen & Hw & Hm). exists p, x.
  split_and!; [auto|done|by eapply wanted_same_links|done].
Qed.

(** [route] is in the table of [k'], or was replaced by another of [l]. *)
Definition installed (l : list (string * Route)) (k k' : kernel) (p : string * Route) : Prop :=
  Route_Validate p.2 = None ∧ ∃ x, wanted p.2 k x ∧
    ((∃ y, same_route x y ∧ y ∈ routes_of k') ∨
     matched_by (filter (λ q, q.1 ≠ p.1) l) k x).

Lemma apply_list_effect l : ∀ k, NoDup l.*1 →
  ∃ r k', for_each l apply_enabled k = (r, k') ∧ no_panic r ∧ same_links k k' ∧
  (∀ z, z ∈ routes_of k → z ∈ routes_of k' ∨ matched_by l k z) ∧
  (∀ z, z ∈ routes_of k' → z ∈ routes_of k ∨
    ∃ p x, p ∈ l ∧ rt_Enabled p.2 = true ∧ wanted p.2 k x ∧ same_route x z) ∧
  (r = Ok () → ∀ p, p ∈ l → rt_Enabled p.2 = true → installed l k k' p).
Proof.
  induction l as [|p l IH]; intros k Hnd; cbn [for_each].
  { exists (Ok ()), k. split_and!; [done|done|apply same_links_refl|by left|by left|].
    by intros _ p Hp%not_elem_of_nil. }
  apply NoDup_cons in Hnd as [Hni Hnd].
  destruct (apply_enabled_effect p k) as (r1 & k1 & E1 & Hp1 & Hs1 & Hk1 & Hn1 & Ho1).
  unfold mbind at 1, M_bind at 1. rewrite E1.
  destruct r1 as [[]|e|w]; [| |done].
  2:{ eexists _, k1. split; [reflexivity|]. split_and!; [done|done| | |done].
    - intros z [?|Hm]%Hk1; [by left|right]. revert Hm.
      apply matched_by_mono; [apply same_links_refl|]. intros q Hq%list_elem_of_singleton. subst. by left.
    - intros z [?|(Hen & x & ? & ?)]%Hn1; [by left|right]. exists p, x. by split_and!; [left|..]. }
  destruct (IH k1 Hnd) as (r & k' & E & Hp & Hs & Hk & Hn & Ho).
  exists r, k'. split_and!; [exact E|done|by eapply same_links_trans| | |].
  - intros z [Hz|Hm]%Hk1.
    + destruct (Hk z Hz) as [?|Hm]; [by left|right]. revert Hm.
      apply matched_by_mono; [done|]. by right.
    + right. revert Hm. apply matched_by_mono; [apply same_links_refl|].
      intros q Hq%list_elem_of_singleton. subst. by left.
  - intros z [Hz|(q & x & ? & ? & ? & ?)]%Hn.
    + destruct (Hn1 z Hz) as [?|(? & x & ? & ?)]; [by left|right]. exists p, x.
      by split_and!; [left|..].
    + right. exists q, x. split_and!; [by right|done|by eapply wanted_same_links|done].
  - intros Hok q [->|Hq]%elem_of_cons Hen.
    + destruct (Ho1 eq_refl Hen) as (Hv & x & Hw & y & Hxy & Hy). split; [done|].
      exists x. split; [done|]. destruct (Hk y Hy) as [?|Hm]; [left; eauto|right].
      destruct Hm as (q & x' & Hq & Hen' & Hw' & Hm). exists q, x'.
      split_and!; [|done|by eapply wanted_same_links|].
      * apply list_elem_of_filter. split; [|by right]. intros Heq. apply Hni.
        rewrite <- Heq. by apply list_elem_of_fmap_2.
      * eapply routesMatch_same; [done| | |done]; by eapply wanted_dst.
    + destruct (Ho Hok q Hq Hen) as (Hv & x & Hw & Hx). split; [done|]. exists x.
      split; [by eapply wanted_same_links|]. destruct Hx as [?|Hm]; [by left|right]. revert Hm.
      apply matched_by_mono; [done|]. intros q'. rewrite !list_elem_of_filter.
      intros [? ?]. split; [done|by right].
Qed.
End laws.

(** ** Properties *)

(** C34: applying a routes configuration always answers, never panics, and
    leaves links and addresses alone.  A kernel route disappears only if it
    matches one that an enabled route of the configuration stands for, and a
    new one is one an enabled route stands for: its parsed destination and
    gateway, metric, table (254 by default), and the index of the configured
    interface or of a link whose network contains the gateway.  If it returns
    nil, every enabled route was valid and is in the table, unless another
    enabled route of the configuration matches it. *)
Theorem ApplyRoutesConfig_spec `{KernelLaws} `{RangeOrder} config k :
  ∃ r k', ApplyRoutesConfig (Some config) k = (r, k') ∧ no_panic r ∧ same_links k k' ∧
  let l := range (gm (rc_Routes config)) in
  (∀ z, z ∈ routes_of k → z ∈ routes_of k' ∨ matched_by l k z) ∧
  (∀ z, z ∈ routes_of k' → z ∈ routes_of k ∨
    ∃ p x, p ∈ l ∧ rt_Enabled p.2 = true ∧ wanted p.2 k x ∧ same_route x z) ∧
  (r = Ok () → ∀ name route, gm (rc_Routes config) !! name = Some route →
    rt_Enabled route = true → installed l k k' (name, route)).
Proof.
  destruct (apply_list_effect (range (gm (rc_Routes config))) k (range_NoDup _))
    as (r & k' & E & Hp & Hs & Hk & Hn & Ho).
  exists r, k'. split_and!; [exact E|done|done|]. cbv zeta. split_and!; [done|done|].
  intros Hok name route Hin Hen. apply Ho; [done|by apply range_elem|done].
Qed.

(** A LAN interface of the sample kernel, and a default route through it. *)
Definition lan_kernel : Memory := {|
  mem_links := [{| lk_Index := 2; lk_Name := "lan0"; lk_MTU := 1500; lk_MasterIndex := 0;
                   lk_ParentIndex := 0; lk_Up := true; lk_Type := "device"; lk_VlanId := 0;
                   lk_Loopback := false |}];
  mem_addrs := λ i, if i =? 2 then [{| net_IP := [192; 168; 1; 2]; net_Mask := [255; 255; 255; 0] |}]
                    else [];
  mem_routes := []; mem_files := ∅;
|}.
Definition default_route : Route := {|
  rt_Name := "default"; rt_Destination := "default"; rt_Gateway := "192.168.1.1";
  rt_Interface := ""; rt_Comment := ""; rt_Metric := 10; rt_Table := 0; rt_Enabled := true;
|}.

(** A finding: routes that differ in their metric only match, so applying a
    second one removes the first. *)
Definition backup_route : Route := {|
  rt_Name := "backup"; rt_Destination := "default"; rt_Gateway := "192.168.1.1";
  rt_Interface := ""; rt_Comment := ""; rt_Metric := 20; rt_Table := 0; rt_Enabled := true;
|}.
Lemma backup_route_replaces_default :
  nr_Priority <$> mem_routes
    ((@applyRoute memory_kernel "default" default_route ≫= λ _,
      @applyRoute memory_kernel "backup" backup_route) lan_kernel).2 = [20].
Proof. vm_compute. reflexivity. Qed.

Definition sample_routes : RoutesConfig :=
  {| rc_Routes := Some {["default" := default_route]}; rc_Version := "1.0" |}.
Lemma ApplyRoutesConfig_spec_witness :
  (@ApplyRoutesConfig memory_kernel default_order (Some sample_routes) lan_kernel).1 = Ok () ∧
  ∃ r k', @ApplyRoutesConfig memory_kernel default_order (Some sample_routes) lan_kernel = (r, k') ∧
    no_panic r ∧ @same_links memory_kernel memory_laws lan_kernel k'.
Proof.
  split; [vm_compute; reflexivity|].
  destruct (@ApplyRoutesConfig_spec memory_kernel memory_laws default_order sample_routes lan_kernel)
    as (r & k' & E & Hp & Hs & _).
  exact (ex_intro _ r (ex_intro _ k' (conj E (conj Hp Hs)))).
Defined.
