(* ===== verification/Network.v ===== *)
(** * Network: system/network_manager.go

    The network manager: bringing one interface to its configuration.  A link
    the code holds is the value it was listed with, as in the code (its flags,
    MTU and master are not read again).  Console output is not modelled.  The
    theorems: what an interface's addresses are after its static address was
    ensured, that a bridge gets exactly its configured ports, what setting the
    default gateway does to the routing table, and when a bridge is left
    alone. *)
From S2P Require Import Prelude GoStr GoNet Validation Types Netlink Routes.

(** ** Helper functions *)

(** IPMask(ParseIP(netmask).To4()), nil when it is no IPv4 address. *)
Definition netmask_of (netmask : string) : list Z := default [] (ParseIP netmask ≫= To4).
Definition addr_is (ip : IP) (mask : list Z) (addr : Addr) : bool :=
  IP_Equal (net_IP addr) ip && bool_decide (mask_hex (net_Mask addr) = mask_hex mask).
Definition iface_mtu (iface : Interface) : Z := if if_MTU iface =? 0 then 1500 else if_MTU iface.
Definition iface_metric (iface : Interface) : Z :=
  if if_Metric iface =? 0 then 100 else if_Metric iface.

Definition stringSlicesEqual (a b : list string) : bool :=
  (length a =? length b)%nat &&
  let aMap : gset string := list_to_set a in
  forallb (λ item, bool_decide (item ∈ aMap)) b.

Definition is_default (route : NRoute) : bool :=
  match nr_Dst route with
  | None => true
  | Some dst => bool_decide (IPNet_String dst = "0.0.0.0/0")
  end.

Section network.
Context `{Kernel}.

Definition parse_ip_or (prefix s : string) : M kernel IP :=
  lift (ok_or (ErrorText (prefix +:+ s)) (ParseIP s)).

Definition getBridgePorts (bridgeName : string) : M kernel (list string) :=
  wrapM "failed to get bridge: " (k_LinkByName bridgeName) ≫= λ bridge,
  wrapM "failed to list links: " k_LinkList ≫= λ links,
  mret (lk_Name <$> List.filter (λ link, lk_MasterIndex link =? lk_Index bridge) links).

Definition checkIPMatches (link : Link) (ipAddr netmask : string) : M kernel bool :=
  if negb (nonempty ipAddr) then mret true else
  parse_ip_or "invalid IP address: " ipAddr ≫= λ desiredIP,
  let desiredMask := netmask_of netmask in
  wrapM "failed to list addresses: " (k_AddrList link) ≫= λ addrs,
  mret (existsb (addr_is desiredIP desiredMask) addrs).

Definition bridgeConfigMatches (bridge : Link) (mtu : Z) (ports : list string) : M kernel bool :=
  if negb (lk_MTU bridge =? mtu) then mret false else
  getBridgePorts (lk_Name bridge) ≫= λ currentPorts,
  mret (stringSlicesEqual currentPorts ports).

Definition del_addrs (link : Link) (addrs : list Addr) : M kernel () :=
  for_each addrs (λ addr, wrapM "failed to remove IP: " (k_AddrDel link addr)).

Definition flushIPs (link : Link) : M kernel () :=
  wrapM "failed to list addresses: " (k_AddrList link) ≫= λ addrs, del_addrs link addrs.

Definition setStaticIP (link : Link) (ipAddr netmask : string) : M kernel () :=
  if negb (nonempty ipAddr) then mret () else
  parse_ip_or "invalid IP address: " ipAddr ≫= λ ip,
  wrapM "failed to add IP address: "
    (k_AddrAdd link {| net_IP := ip; net_Mask := netmask_of netmask |}).

Definition ensureStaticIP (link : Link) (ipAddr netmask : string) : M kernel () :=
  if negb (nonempty ipAddr) then mret () else
  parse_ip_or "invalid IP address: " ipAddr ≫= λ desiredIP,
  let desiredMask := netmask_of netmask in
  wrapM "failed to list addresses: " (k_AddrList link) ≫= λ addrs,
  let hasDesiredIP := existsb (addr_is desiredIP desiredMask) addrs in
  let unwantedAddrs := List.filter (λ addr, negb (addr_is desiredIP desiredMask addr)) addrs in
  del_addrs link unwantedAddrs ≫= λ _,
  if hasDesiredIP then mret ()
  else wrapM "failed to add IP address: "
         (k_AddrAdd link {| net_IP := desiredIP; net_Mask := desiredMask |}).

Definition del_default_routes (routes : list NRoute) : M kernel () :=
  for_each routes (λ route,
    if is_default route then attempt (k_RouteDel route) ≫= λ _, mret () else mret ()).

Definition setDefaultGateway (link : Link) (gateway : string) (metric : Z) : M kernel () :=
  if negb (nonempty gateway) then mret () else
  parse_ip_or "invalid gateway address: " gateway ≫= λ gw,
  wrapM "failed to list routes: " (k_RouteList None) ≫= λ routes,
  del_default_routes routes ≫= λ _,
  wrapM "failed to add default route: "
    (k_RouteAdd {| nr_Dst := None; nr_Gw := gw; nr_LinkIndex := lk_Index link;
                   nr_Priority := metric; nr_Table := MAIN_TABLE; nr_Protocol := 0;
                   nr_Scope := 0 |}).

(** exec.Command(...).Run and .Start are both [k_Command]; a failing pkill is
    ignored. *)
Definition startDHCPClient (deviceName : string) : M kernel () :=
  wrapM "dhclient not found: " (k_LookPath "dhclient") ≫= λ _,
  attempt (k_Command "pkill" ["-f"; "dhclient.*" +:+ deviceName]) ≫= λ _,
  wrapM "failed to start dhclient: " (k_Command "dhclient" ["-v"; deviceName]).

(** The switch on the protocol, given the way to set a static address. *)
Definition apply_protocol (static : M kernel ()) (link : Link) (deviceName : string)
    (iface : Interface) : M kernel () :=
  if bool_decide (if_Protocol iface = "static") then
    static ≫= λ _,
    if nonempty (if_Gateway iface)
    then setDefaultGateway link (if_Gateway iface) (iface_metric iface) else mret ()
  else if bool_decide (if_Protocol iface = "dhcp") then startDHCPClient deviceName
  else if bool_decide (if_Protocol iface = "none") || negb (nonempty (if_Protocol iface))
  then mret ()
  else fail (ErrorText ("unknown protocol: " +:+ if_Protocol iface)).

Definition applyIPConfiguration (link : Link) (deviceName : string) (iface : Interface)
  : M kernel () :=
  apply_protocol (ensureStaticIP link (if_IPAddr iface) (if_Netmask iface)) link deviceName iface.

(** ** Bridges *)

Definition addPortToBridge (bridge : Link) (portName : string) : M kernel () :=
  wrapM ("failed to find port " +:+ portName +:+ ": ") (k_LinkByName portName) ≫= λ port,
  wrapM ("failed to bring up port " +:+ portName +:+ ": ") (k_LinkSetUp port) ≫= λ _,
  wrapM ("failed to add port " +:+ portName +:+ " to bridge: ") (k_LinkSetMaster port bridge).

Definition removePortFromBridge (portName : string) : M kernel () :=
  wrapM ("failed to find port " +:+ portName +:+ ": ") (k_LinkByName portName) ≫= λ port,
  wrapM ("failed to remove port " +:+ portName +:+ " from bridge: ") (k_LinkSetNoMaster port).

Definition createBridge (bridgeDevice : string) (mtu : Z) (ports : list string) : M kernel Link :=
  wrapM "failed to create bridge: "
    (k_LinkAdd {| lk_Index := 0; lk_Name := bridgeDevice; lk_MTU := mtu; lk_MasterIndex := 0;
                  lk_ParentIndex := 0; lk_Up := false; lk_Type := "bridge"; lk_VlanId := 0;
                  lk_Loopback := false |})
    ≫= λ _,
  wrapM "failed to get newly created bridge: " (k_LinkByName bridgeDevice) ≫= λ bridge,
  for_each ports (addPortToBridge bridge) ≫= λ _,
  wrapM "failed to bring up bridge: " (k_LinkSetUp bridge) ≫= λ _,
  mret bridge.

Definition updateBridgePorts (bridge : Link) (ports : list string) : M kernel () :=
  wrapM "failed to get current bridge ports: " (getBridgePorts (lk_Name bridge)) ≫= λ currentPorts,
  let desiredPortsMap : gset string := list_to_set ports in
  let currentPortsMap : gset string := list_to_set currentPorts in
  for_each currentPorts (λ portName,
    if decide (portName ∈ desiredPortsMap) then mret () else removePortFromBridge portName)
    ≫= λ _,
  for_each ports (λ portName,
    if decide (portName ∈ currentPortsMap) then mret () else addPortToBridge bridge portName).

Definition bridge_device (name : string) (iface : Interface) : string :=
  if nonempty (if_Device iface) then if_Device iface else name.

(** The bridge to configure, or None when everything matches already. *)
Definition existing_bridge (bridgeDevice : string) (bridge : Link) (iface : Interface) : M kernel (option Link) :=
  wrapM "failed to check bridge config: "
    (bridgeConfigMatches bridge (iface_mtu iface) (if_BridgePorts iface)) ≫= λ configMatches,
  if configMatches : bool then
    if bool_decide (if_Protocol iface = "static") then
      wrapM "failed to check IP matches: "
        (checkIPMatches bridge (if_IPAddr iface) (if_Netmask iface)) ≫= λ ipMatches,
      mret (if ipMatches : bool then None else Some bridge)
    else mret None
  else if negb (lk_MTU bridge =? iface_mtu iface) then
    wrapM "failed to delete bridge for MTU change: " (k_LinkDel bridge) ≫= λ _,
    createBridge bridgeDevice (iface_mtu iface) (if_BridgePorts iface) ≫= λ bridge,
    mret (Some bridge)
  else updateBridgePorts bridge (if_BridgePorts iface) ≫= λ _, mret (Some bridge).

Definition applyBridgeInterface (name : string) (iface : Interface) : M kernel () :=
  let bridgeDevice := bridge_device name iface in
  attempt (k_LinkByName bridgeDevice) ≫= λ existing,
  match existing with
  | Ok existingBridge => existing_bridge bridgeDevice existingBridge iface
  | _ => createBridge bridgeDevice (iface_mtu iface) (if_BridgePorts iface) ≫= λ bridge,
         mret (Some bridge)
  end ≫= λ bridge,
  match bridge with
  | None => mret ()
  | Some bridge => applyIPConfiguration bridge bridgeDevice iface
  end.

(** ** The other types *)

(** The device to bring down. *)
Definition device_of (name : string) (iface : Interface) : string :=
  if nonempty (if_Device iface) then if_Device iface
  else if nonempty (if_DeviceName iface) then if_DeviceName iface else name.

Definition disableInterface (name : string) (iface : Interface) : M kernel () :=
  let deviceName := device_of name iface in
  attempt (k_LinkByName deviceName) ≫= λ link,
  match link with
  | Ok link => wrapM ("failed to bring down " +:+ deviceName +:+ ": ") (k_LinkSetDown link)
  | _ => mret ()
  end.

Definition applyPhysicalInterface (name : string) (iface : Interface) : M kernel () :=
  wrapM ("failed to find interface " +:+ if_Device iface +:+ ": ")
    (k_LinkByName (if_Device iface)) ≫= λ link,
  (if negb (lk_MTU link =? iface_mtu iface)
   then wrapM "failed to set MTU: " (k_LinkSetMTU link (iface_mtu iface)) else mret ()) ≫= λ _,
  wrapM "failed to bring up interface: " (k_LinkSetUp link) ≫= λ _,
  wrapM "failed to flush IPs: " (flushIPs link) ≫= λ _,
  apply_protocol (setStaticIP link (if_IPAddr iface) (if_Netmask iface)) link (if_Device iface)
    iface.

(** From the creation of the vlan's link on. *)
Definition create_vlan (iface : Interface) (parent : Link) : M kernel () :=
  wrapM "failed to create VLAN interface: "
    (k_LinkAdd {| lk_Index := 0; lk_Name := if_DeviceName iface; lk_MTU := iface_mtu iface;
                  lk_MasterIndex := 0; lk_ParentIndex := lk_Index parent; lk_Up := false;
                  lk_Type := "vlan"; lk_VlanId := if_VLANId iface; lk_Loopback := false |}) ≫= λ _,
  wrapM "failed to get VLAN interface: " (k_LinkByName (if_DeviceName iface)) ≫= λ vlanLink,
  wrapM "failed to bring up VLAN interface: " (k_LinkSetUp vlanLink) ≫= λ _,
  wrapM "failed to flush IPs: " (flushIPs vlanLink) ≫= λ _,
  applyIPConfiguration vlanLink (if_DeviceName iface) iface.

Definition applyVLANInterface (name : string) (iface : Interface) : M kernel () :=
  if negb (nonempty (if_Device iface)) then
    fail (ErrorText "parent device not specified for VLAN")
  else if if_VLANId iface =? 0 then fail (ErrorText "VLAN ID not specified")
  else if negb (nonempty (if_DeviceName iface)) then
    fail (ErrorText "device_name not specified for VLAN interface")
  else
  wrapM ("failed to find parent interface " +:+ if_Device iface +:+ ": ")
    (k_LinkByName (if_Device iface)) ≫= λ parent,
  wrapM "failed to bring up parent interface: " (k_LinkSetUp parent) ≫= λ _,
  attempt (k_LinkByName (if_DeviceName iface)) ≫= λ existingLink,
  match existingLink with
  | Ok existingLink => wrapM "failed to delete existing VLAN interface: " (k_LinkDel existingLink)
  | _ => mret ()
  end ≫= λ _,
  create_vlan iface parent.

Definition ApplyInterfaceConfig (name : string) (iface : Interface) : M kernel () :=
  if negb (if_Enabled iface) then disableInterface name iface
  else if bool_decide (if_Type iface = "physical") then applyPhysicalInterface name iface
  else if bool_decide (if_Type iface = "bridge") then applyBridgeInterface name iface
  else if bool_decide (if_Type iface = "vlan") then applyVLANInterface name iface
  else fail (ErrorText ("unsupported interface type: " +:+ if_Type iface)).

Definition EnableIPForwarding : M kernel () :=
  wrapM "failed to set net.ipv4.ip_forward: " (sysctl_Set "net.ipv4.ip_forward" "1").
End network.

(** ** Lemmas: the kernel's calls in the program logic *)

Section calls.
Context `{LinkLaws}.

Definition places (k : kernel) : list (Z * string * Z) := place <$> links_of k.
(** Indices with names, which only creating and deleting links changes. *)
Definition idents (k : kernel) : list (Z * string) := fst <$> places k.
Definition same_addrs (k k' : kernel) : Prop := ∀ i, addrs_of k' i = addrs_of k i.

Ltac kernel_call law :=
  unfold wp; match goal with |- context [match ?c with _ => _ end] =>
    let E := fresh "E" in destruct c as [[] ?] eqn:E; apply law in E; cbn in * end;
  destruct_and?; subst; repeat match goal with a : () |- _ => destruct a end; try done.

Ltac rewrite_places :=
  match goal with Hs : place <$> links_of _ = place <$> set_link _ _ _ |- _ =>
    unfold places at 1; rewrite Hs end.

Lemma wp_LinkByName n k Q E :
  (∀ l, l ∈ links_of k → lk_Name l = n → Q l k) → E k → wp (k_LinkByName n) k Q E.
Proof. intros HQ HE. kernel_call kl_LinkByName. naive_solver. Qed.
Lemma wp_LinkList k (Q : list Link → kernel → Prop) E :
  Q (links_of k) k → E k → wp k_LinkList k Q E.
Proof. intros HQ HE. kernel_call kl_LinkList. naive_solver. Qed.
Lemma wp_AddrList l k (Q : list Addr → kernel → Prop) E :
  Q (addrs_of k (lk_Index l)) k → E k → wp (k_AddrList l) k Q E.
Proof. intros HQ HE. kernel_call kl_AddrList. naive_solver. Qed.
Lemma wp_RouteList k (Q : list NRoute → kernel → Prop) E :
  Q (filter (λ x, nr_Table x = MAIN_TABLE) (routes_of k)) k → E k → wp (k_RouteList None) k Q E.
Proof. intros HQ HE. kernel_call kl_RouteList. naive_solver. Qed.
Lemma wp_LinkSetUp l k (Q : () → kernel → Prop) (E : kernel → Prop) :
  (∀ k', places k' = places k → same_addrs k k' → Q () k' ∧ E k') → wp (k_LinkSetUp l) k Q E.
Proof. intros HQ. kernel_call ll_LinkSetUp; by apply HQ. Qed.
Lemma wp_LinkSetMTU l mtu k (Q : () → kernel → Prop) (E : kernel → Prop) :
  (∀ k', places k' = places k → same_addrs k k' → Q () k' ∧ E k') → wp (k_LinkSetMTU l mtu) k Q E.
Proof. intros HQ. kernel_call ll_LinkSetMTU; by apply HQ. Qed.
Lemma wp_LinkSetDown l k (Q : () → kernel → Prop) (E : kernel → Prop) :
  (∀ k', places k' = places k → Q () k' ∧ E k') → wp (k_LinkSetDown l) k Q E.
Proof. intros HQ. kernel_call ll_LinkSetDown; by apply HQ. Qed.

(** The master of the link of a name. *)
Definition set_master (n : string) (m : Z) (p : Z * string * Z) : Z * string * Z :=
  if decide (p.1.2 = n) then (p.1, m) else p.
(** Indices and names are unique. *)
Definition unique_links (k : kernel) : Prop :=
  NoDup ((fst ∘ fst) <$> places k) ∧ NoDup ((snd ∘ fst) <$> places k).

Lemma NoDup_fmap_inj {A B} (f : A → B) l x y :
  NoDup (f <$> l) → x ∈ l → y ∈ l → f x = f y → x = y.
Proof.
  intros Hnd (i & Hi)%list_elem_of_lookup (j & Hj)%list_elem_of_lookup Heq.
  assert (i = j) as ->; [|congruence].
  eapply NoDup_lookup; [done| |]; rewrite list_lookup_fmap; [by rewrite Hi|by rewrite Hj; cbn; rewrite Heq].
Qed.

Lemma set_link_master k l m :
  unique_links k → place l ∈ places k →
  place <$> set_link (lk_Index l) (with_master m) (links_of k) = set_master (lk_Name l) m <$> places k.
Proof.
  intros [Hi Hn] Hl. unfold places, set_link. rewrite <- !list_fmap_compose.
  apply list_fmap_ext. intros i x Hx. cbn.
  assert (place x ∈ places k) as Hx'.
  { apply list_elem_of_fmap_2. by eapply list_elem_of_lookup_2. }
  unfold set_master. cbn. destruct (Z.eqb_spec (lk_Index x) (lk_Index l)) as [He|He].
  - assert (place x = place l) as [= Hix Hnx _] by by apply (NoDup_fmap_inj _ _ _ _ Hi).
    rewrite decide_True by done. unfold place. cbn. congruence.
  - rewrite decide_False; [done|]. intros Heq. apply He.
    by assert (place x = place l) as [= -> _ _] by by apply (NoDup_fmap_inj _ _ _ _ Hn).
Qed.

Lemma unique_links_idents k k' : idents k' = idents k → unique_links k → unique_links k'.
Proof. unfold unique_links, idents. rewrite !list_fmap_compose. by intros ->. Qed.
Lemma link_place k l : l ∈ links_of k → place l ∈ places k.
Proof. apply list_elem_of_fmap_2. Qed.
Lemma link_ident k l : l ∈ links_of k → (lk_Index l, lk_Name l) ∈ idents k.
Proof. intros Hl%link_place. by apply (list_elem_of_fmap_2 fst) in Hl. Qed.

Lemma wp_LinkSetMaster l m k k0 (Q : () → kernel → Prop) E :
  unique_links k0 → l ∈ links_of k0 → places k = places k0 →
  (∀ k', places k' = set_master (lk_Name l) (lk_Index m) <$> places k → same_addrs k k' → Q () k') →
  (∀ k', E k') → wp (k_LinkSetMaster l m) k Q E.
Proof.
  intros Hu Hl Hp HQ HE. kernel_call ll_LinkSetMaster. apply HQ; [|done].
  rewrite_places. apply set_link_master; [|rewrite Hp; by apply link_place].
  eapply unique_links_idents; [|done]. unfold idents. by rewrite Hp.
Qed.
Lemma wp_LinkSetNoMaster l k (Q : () → kernel → Prop) E :
  unique_links k → l ∈ links_of k →
  (∀ k', places k' = set_master (lk_Name l) 0 <$> places k → same_addrs k k' → Q () k') →
  (∀ k', E k') → wp (k_LinkSetNoMaster l) k Q E.
Proof.
  intros Hu Hl HQ HE. kernel_call ll_LinkSetNoMaster. apply HQ; [|done].
  rewrite_places. apply set_link_master; [done|by apply link_place].
Qed.

(** A port operation sets the master of the one link of its name. *)
Definition port_set (n : string) (m : Z) (k k' : kernel) : Prop :=
  n ∈ (idents k).*2 ∧ places k' = set_master n m <$> places k ∧ same_addrs k k'.

Lemma wp_addPortToBridge bridge n k :
  unique_links k →
  wp (addPortToBridge bridge n) k (λ _, port_set n (lk_Index bridge) k) (λ _, True).
Proof.
  intros Hu. apply wp_bind, wp_wrapM, wp_LinkByName; [|done]. intros l Hl <-.
  apply wp_bind, wp_wrapM, wp_LinkSetUp. intros k1 Hp Ha. split; [|done].
  apply wp_wrapM. eapply wp_LinkSetMaster; [done..| |done]. intros k2 Hp2 Ha2.
  split_and!.
  - by apply link_ident, (list_elem_of_fmap_2 snd) in Hl.
  - by rewrite Hp2, Hp.
  - intros i. by rewrite Ha2, Ha.
Qed.
Lemma wp_removePortFromBridge n k :
  unique_links k → wp (removePortFromBridge n) k (λ _, port_set n 0 k) (λ _, True).
Proof.
  intros Hu. apply wp_bind, wp_wrapM, wp_LinkByName; [|done]. intros l Hl <-.
  apply wp_wrapM, wp_LinkSetNoMaster; [done..| |done]. intros k2 Hp2 Ha2.
  split_and!; [by apply link_ident, (list_elem_of_fmap_2 snd) in Hl|done..].
Qed.

(** Port operations over a list of names, those of [skip] passed over. *)
Definition masters_set (don skip : gset string) (m : Z) (k k' : kernel) : Prop :=
  places k' = (λ p, if decide (p.1.2 ∈ don ∖ skip) then (p.1, m) else p) <$> places k ∧
  don ∖ skip ⊆ list_to_set (idents k).*2 ∧ same_addrs k k'.

Lemma masters_set_idents don skip m k k' : masters_set don skip m k k' → idents k' = idents k.
Proof.
  intros [Hp _]. unfold idents. rewrite Hp, <- list_fmap_compose.
  apply list_fmap_ext. intros _ p _. cbn. by case_decide.
Qed.
Lemma masters_set_step don skip m n k k1 k2 :
  masters_set don skip m k k1 → n ∉ skip → port_set n m k1 k2 →
  masters_set (don ∪ {[n]}) skip m k k2.
Proof.
  intros Hms Hn (Hin & Hp2 & Ha2). pose proof (masters_set_idents _ _ _ _ _ Hms) as Hid.
  destruct Hms as (Hp & Hsub & Ha). rewrite Hid in Hin. split_and!.
  - rewrite Hp2, Hp, <- list_fmap_compose. apply list_fmap_ext. intros _ p _. cbn.
    unfold set_master. repeat case_decide; cbn in *; set_solver.
  - apply (elem_of_list_to_set (C:=gset string)) in Hin.
    intros x [[Hx|Hx]%elem_of_union Hs]%elem_of_difference.
    + apply Hsub. by apply elem_of_difference.
    + by apply elem_of_singleton in Hx as ->.
  - intros i. by rewrite Ha2, Ha.
Qed.
Lemma masters_set_skip don skip m n k k' :
  masters_set don skip m k k' → n ∈ skip → masters_set (don ∪ {[n]}) skip m k k'.
Proof.
  unfold masters_set. intros Hm Hn. by replace ((don ∪ {[n]}) ∖ skip) with (don ∖ skip) by set_solver.
Qed.

Lemma wp_ports body (skip : gset string) m names k :
  unique_links k →
  (∀ n k, unique_links k → wp (body n) k (λ _, port_set n m k) (λ _, True)) →
  wp (for_each names (λ n, if decide (n ∈ skip) then mret () else body n)) k
    (λ _ k', masters_set (list_to_set names) skip m k k') (λ _, True).
Proof.
  intros Hu Hb. eapply wp_mono.
  - apply (wp_for_each (λ don _ k', masters_set (list_to_set don) skip m k k') _ _ _ []).
    { split_and!; [|set_solver|done]. rewrite <- list_fmap_id at 1.
      apply list_fmap_ext. intros _ p _. case_decide; [set_solver|done]. }
    intros don n todo k1 Hms. rewrite list_to_set_app_L, list_to_set_singleton_L.
    case_decide; [by apply wp_ret, masters_set_skip|]. eapply wp_mono; [apply Hb| |done].
    + eapply unique_links_idents; [by eapply masters_set_idents|done].
    + cbn. intros _ k2 Hps. by eapply masters_set_step.
  - done.
  - done.
Qed.

Lemma master_names i ls :
  (λ p : Z * string * Z, p.1.2) <$> filter (λ p : Z * string * Z, p.2 = i) (place <$> ls) =
  lk_Name <$> List.filter (λ link, lk_MasterIndex link =? i) ls.
Proof.
  induction ls as [|x ls IH]; [done|]. rewrite fmap_cons, filter_cons. cbn [List.filter].
  destruct (Z.eqb_spec (lk_MasterIndex x) i).
  - rewrite decide_True by done. rewrite !fmap_cons. by rewrite IH.
  - by rewrite decide_False.
Qed.
Lemma wp_getBridgePorts bridge k (Q : list string → kernel → Prop) (E : kernel → Prop) :
  unique_links k → bridge ∈ links_of k →
  Q ((λ p : Z * string * Z, p.1.2) <$> filter (λ p : Z * string * Z, p.2 = lk_Index bridge) (places k)) k →
  E k → wp (getBridgePorts (lk_Name bridge)) k Q E.
Proof.
  intros [_ Hn] Hb HQ HE. apply wp_bind, wp_wrapM, wp_LinkByName; [|done]. intros l Hl Hname.
  assert (lk_Index l = lk_Index bridge) as ->.
  { assert (place l = place bridge) as [= -> _ _]; [|done].
    apply (NoDup_fmap_inj _ _ _ _ Hn); [by apply link_place..|done]. }
  apply wp_bind, wp_wrapM, wp_LinkList; [|done]. apply wp_ret.
  by rewrite <- master_names.
Qed.

(** The master of a link after its bridge was given the ports. *)
Definition port_master (bridge : Link) (ports : list string) (p : Z * string * Z) : Z :=
  if decide (p.1.2 ∈ ports) then lk_Index bridge
  else if decide (p.2 = lk_Index bridge) then 0 else p.2.

Lemma port_set_master bridge cur ports (p : Z * string * Z) :
  p.1.2 ∈ cur ↔ p.2 = lk_Index bridge →
  ((λ p : Z * string * Z, if decide (p.1.2 ∈ list_to_set (C:=gset string) ports ∖ list_to_set cur)
                          then (p.1, lk_Index bridge) else p) ∘
   (λ p : Z * string * Z, if decide (p.1.2 ∈ list_to_set (C:=gset string) cur ∖ list_to_set ports)
                          then (p.1, 0) else p)) p =
  (p.1, port_master bridge ports p).
Proof.
  destruct p as [[ix n] ms]. unfold port_master. cbn. intros Hcur.
  assert (∀ l l', n ∈ list_to_set (C:=gset string) l ∖ list_to_set l' ↔ n ∈ l ∧ n ∉ l') as Hd.
  { intros l l'. by rewrite elem_of_difference, !elem_of_list_to_set. }
  destruct (decide (n ∈ list_to_set cur ∖ list_to_set ports)) as [H1'|H1']; rewrite Hd in H1'; cbn;
    case_decide as H2'; rewrite Hd in H2';
    destruct (decide (n ∈ ports)), (decide (ms = lk_Index bridge)); try tauto; by subst.
Qed.
Lemma wp_updateBridgePorts bridge ports k :
  unique_links k → bridge ∈ links_of k →
  wp (updateBridgePorts bridge ports) k (λ _ k',
    places k' = (λ p, (p.1, port_master bridge ports p)) <$> places k ∧
    (∀ n, n ∈ ports → n ∈ (idents k).*2) ∧ same_addrs k k') (λ _, True).
Proof.
  intros Hu Hb. apply wp_bind, wp_wrapM, wp_getBridgePorts; [done..| |done].
  set (cur := _ <$> filter _ _).
  apply wp_bind. eapply wp_mono; [by apply wp_ports, wp_removePortFromBridge| |done].
  cbn. intros _ k1 Hm1. pose proof (masters_set_idents _ _ _ _ _ Hm1) as Hid.
  eapply wp_mono; [eapply wp_ports; [by eapply unique_links_idents|by apply wp_addPortToBridge]| |done].
  cbn. intros _ k2 (Hp2 & Hs2 & Ha2). destruct Hm1 as (Hp1 & _ & Ha1).
  assert (∀ p, p ∈ places k → p.1.2 ∈ cur ↔ p.2 = lk_Index bridge) as Hcur.
  { intros p Hp. unfold cur. rewrite list_elem_of_fmap. split.
    - intros (q & Hn & [Hq Hqin]%list_elem_of_filter).
      by rewrite (NoDup_fmap_inj _ _ p q (proj2 Hu)).
    - intros Hpm. exists p. split; [done|]. by apply list_elem_of_filter. }
  split_and!.
  - rewrite Hp2, Hp1, <- list_fmap_compose. apply list_fmap_ext.
    intros i p Hp%list_elem_of_lookup_2. apply (port_set_master bridge cur ports p), Hcur, Hp.
  - intros n Hn. destruct (decide (n ∈ cur)) as [Hc|Hc].
    + unfold cur in Hc. apply list_elem_of_fmap in Hc as (q & -> & [_ Hq]%list_elem_of_filter).
      by apply (list_elem_of_fmap_2 fst), (list_elem_of_fmap_2 snd) in Hq.
    + rewrite <- Hid. apply (elem_of_list_to_set (C:=gset string)). set_solver.
  - intros i. by rewrite Ha2, Ha1.
Qed.

(** ** Lemmas: addresses *)

(** Only the addresses of the one link may differ. *)
Definition only_link (i : Z) (k k' : kernel) : Prop :=
  places k' = places k ∧ ∀ j, j ≠ i → addrs_of k' j = addrs_of k j.
Lemma only_link_refl i k : only_link i k k.
Proof. done. Qed.
Lemma only_link_trans i k1 k2 k3 : only_link i k1 k2 → only_link i k2 k3 → only_link i k1 k3.
Proof. intros [? Ha] [? Hb]. split; [congruence|]. intros j Hj. by rewrite Hb, Ha. Qed.

(** Deleting an address leaves the other addresses of the link: they are in
    other networks, or the kernel promotes secondary addresses. *)
Definition promotes : Prop := ∀ l a k k', k_AddrDel l a k = (Ok (), k') →
  ∀ b, b ∈ addrs_of k (lk_Index l) → b ≠ a → b ∈ addrs_of k' (lk_Index l).

Lemma wp_del_addrs l todo k :
  wp (del_addrs l todo) k (λ _ k', only_link (lk_Index l) k k' ∧
    (∀ b, b ∈ addrs_of k' (lk_Index l) → b ∈ addrs_of k (lk_Index l) ∧ b ∉ todo) ∧
    (todo = [] ∨ promotes →
     ∀ b, b ∈ addrs_of k (lk_Index l) → b ∉ todo → b ∈ addrs_of k' (lk_Index l)))
    (only_link (lk_Index l) k).
Proof.
  apply (wp_for_each (λ don _ k', only_link (lk_Index l) k k' ∧
    (∀ b, b ∈ addrs_of k' (lk_Index l) → b ∈ addrs_of k (lk_Index l) ∧ b ∉ don) ∧
    (don = [] ∨ promotes →
     ∀ b, b ∈ addrs_of k (lk_Index l) → b ∉ don → b ∈ addrs_of k' (lk_Index l))) _ _ _ []).
  { split_and!; [done..| |done]. intros b Hb. split; [done|]. apply not_elem_of_nil. }
  intros don a rest k1 (Ho & Hd & Hp). apply wp_wrapM. unfold wp.
  destruct (k_AddrDel l a k1) as [r k2] eqn:E. pose proof E as E'.
  apply ll_AddrDel in E as (Hnp & Hl & Hi & Hr).
  assert (only_link (lk_Index l) k k2) as Ho2 by (by eapply only_link_trans).
  destruct r as [[]|e|w]; [|done..]. cbn in Hr. split; [done|]. split.
  - intros b Hb. destruct (Hr b Hb) as [Hb1 Hne]. destruct (Hd b Hb1) as [? ?].
    split; [done|]. rewrite elem_of_app, list_elem_of_singleton. tauto.
  - intros [Hnil|Hpro] b Hb Hn; [by destruct don|].
    rewrite elem_of_app, list_elem_of_singleton in Hn.
    eapply Hpro; [done|apply Hp; tauto|]. intros ->. tauto.
Qed.

Lemma addr_is_same d m a b :
  same_addr a b → net_IP a = d → net_Mask a = m → prefix_mask m → addr_is d m b = true.
Proof.
  intros [Hip Hm] <- <- Hp. unfold addr_is. rewrite Hip, (Hm Hp). by apply bool_decide_eq_true.
Qed.

(** What a link has after its static address was set. *)
Definition has_addr (d : IP) (m : list Z) (i : Z) (k : kernel) : Prop :=
  ∃ a, a ∈ addrs_of k i ∧ addr_is d m a = true.
Definition only_addr (d : IP) (m : list Z) (i : Z) (k : kernel) : Prop :=
  ∀ a, a ∈ addrs_of k i → addr_is d m a = true.

Lemma wp_AddrAdd p l d m k :
  prefix_mask m →
  wp (wrapM p (k_AddrAdd l {| net_IP := d; net_Mask := m |})) k (λ _ k',
    only_link (lk_Index l) k k' ∧ has_addr d m (lk_Index l) k' ∧
    (only_addr d m (lk_Index l) k → only_addr d m (lk_Index l) k')) (only_link (lk_Index l) k).
Proof.
  intros Hm. apply wp_wrapM. unfold wp. destruct (k_AddrAdd l _ k) as [r k'] eqn:E.
  apply ll_AddrAdd in E as (Hnp & Hl & Hi & Hr). destruct r as [[]|e|w]; [|done..].
  destruct Hr as (a & Ha & Hr). split; [done|].
  assert (addr_is d m a = true) as Ha' by by eapply addr_is_same. split.
  - exists a. split; [|done]. rewrite Hr. by left.
  - intros Ho b. rewrite Hr. intros [->|?]%elem_of_cons; auto.
Qed.

Lemma wp_ensureStaticIP l ip nm k :
  nonempty ip = true → prefix_mask (netmask_of nm) →
  wp (ensureStaticIP l ip nm) k (λ _ k', ∃ d, ParseIP ip = Some d ∧ only_link (lk_Index l) k k' ∧
    only_addr d (netmask_of nm) (lk_Index l) k' ∧
    (promotes ∨ ¬ has_addr d (netmask_of nm) (lk_Index l) k →
     has_addr d (netmask_of nm) (lk_Index l) k')) (only_link (lk_Index l) k).
Proof.
  intros Hne Hm. unfold ensureStaticIP. rewrite Hne. cbn [negb].
  apply wp_bind, wp_lift. destruct (ParseIP ip) as [d|]; [cbn|done].
  apply wp_bind, wp_wrapM, wp_AddrList; [|done]. apply wp_bind.
  set (un := List.filter _ _). set (has := existsb _ _).
  eapply wp_mono; [apply wp_del_addrs| |done]. cbn. intros _ k1 (Ho1 & Hd1 & Hp1).
  assert (only_addr d (netmask_of nm) (lk_Index l) k1) as Honly.
  { intros a Ha. destruct (Hd1 a Ha) as [Hin Hnot]. destruct (addr_is _ _ a) eqn:Ea; [done|].
    destruct Hnot. apply list_elem_of_In, List.filter_In. split; [by apply list_elem_of_In|by rewrite Ea]. }
  destruct has eqn:Hhas.
  - apply wp_ret. exists d. split; [done|]. split; [done|]. split; [done|].
    apply existsb_exists in Hhas as (a & Ha%list_elem_of_In & Ea).
    intros [Hpro|[]]; [|by exists a]. exists a. split; [|done]. apply Hp1; [by right|done|].
    intros Hun%list_elem_of_In%List.filter_In. by rewrite Ea in Hun; destruct Hun.
  - eapply wp_mono; [by apply wp_AddrAdd| |].
    + cbn. intros _ k2 (Ho2 & Hh2 & Hon2). exists d. split; [done|].
      split; [by eapply only_link_trans|]. auto.
    + intros k2 Ho2. by eapply only_link_trans.
Qed.

Lemma wp_flushIPs l k :
  wp (flushIPs l) k (λ _ k', only_link (lk_Index l) k k' ∧ addrs_of k' (lk_Index l) = [])
    (only_link (lk_Index l) k).
Proof.
  apply wp_bind, wp_wrapM, wp_AddrList; [|done].
  eapply wp_mono; [apply wp_del_addrs| |done]. cbn. intros _ k' (Ho & Hd & _). split; [done|].
  destruct (addrs_of k' _) as [|a l'] eqn:E; [done|]. destruct (Hd a) as [? []]; [by left|done].
Qed.

Lemma wp_setStaticIP l ip nm k :
  nonempty ip = true → prefix_mask (netmask_of nm) →
  wp (setStaticIP l ip nm) k (λ _ k', ∃ d, ParseIP ip = Some d ∧ only_link (lk_Index l) k k' ∧
    has_addr d (netmask_of nm) (lk_Index l) k' ∧
    (addrs_of k (lk_Index l) = [] → only_addr d (netmask_of nm) (lk_Index l) k'))
    (only_link (lk_Index l) k).
Proof.
  intros Hne Hm. unfold setStaticIP. rewrite Hne. cbn [negb].
  apply wp_bind, wp_lift. destruct (ParseIP ip) as [d|]; [cbn|done].
  eapply wp_mono; [by apply wp_AddrAdd| |done]. cbn. intros _ k' (Ho & Hh & Hon). exists d.
  split_and!; [done..|]. intros Hnil. apply Hon. intros a. by rewrite Hnil; intros ?%not_elem_of_nil.
Qed.

(** ** Lemmas: the default gateway *)

Lemma wp_del_default_routes todo k :
  wp (del_default_routes todo) k (λ _ k', same_links k k' ∧
    (∀ z, z ∈ routes_of k' → z ∈ routes_of k) ∧
    ∀ z, z ∈ routes_of k → z ∉ todo ∨ is_default z = false → z ∈ routes_of k') (λ _, False).
Proof.
  apply (wp_for_each (λ don _ k', same_links k k' ∧ (∀ z, z ∈ routes_of k' → z ∈ routes_of k) ∧
    ∀ z, z ∈ routes_of k → z ∉ don ∨ is_default z = false → z ∈ routes_of k') _ _ _ []).
  { split_and!; [apply same_links_refl|done|done]. }
  intros don x rest k1 (Hs & Hsub & Hkeep).
  assert (∀ z, z ∉ don ++ [x] ∨ is_default z = false → z ∉ don ∨ is_default z = false) as Hd.
  { intros z. rewrite elem_of_app. tauto. }
  destruct (is_default x) eqn:Hx.
  2:{ apply wp_ret. split_and!; [done|done|]. intros z Hz Hz'. apply Hkeep; [done|by apply Hd]. }
  apply wp_bind, wp_attempt. unfold wp. destruct (k_RouteDel x k1) as [r k2] eqn:E.
  apply kl_RouteDel in E as (Hp & Hl & Ha & Hr).
  assert (same_links k k2) as Hs2 by (eapply same_links_trans; [done|by split]).
  assert (∀ z, z ∈ routes_of k2 → z ∈ routes_of k1) as Hsub2.
  { rewrite Hr. destruct r; cbn; [|done..]. by intros z [_ ?]%list_elem_of_filter. }
  destruct r as [[]|e|w]; [| |done]; cbn in *; [|intros _];
    (split_and!; [done|by auto|]; intros z Hz Hz'; rewrite Hr).
  - apply list_elem_of_filter. split; [|apply Hkeep; [done|by apply Hd]]. intros ->.
    destruct Hz' as [Hz'|?]; [|congruence]. apply Hz', elem_of_app. right. by left.
  - apply Hkeep; [done|by apply Hd].
Qed.

(** The default route of a gateway through a link. *)
Definition gateway_route (l : Link) (gw : IP) (metric : Z) : NRoute :=
  {| nr_Dst := None; nr_Gw := gw; nr_LinkIndex := lk_Index l; nr_Priority := metric;
     nr_Table := MAIN_TABLE; nr_Protocol := 0; nr_Scope := 0 |}.

Lemma wp_setDefaultGateway l gateway metric k :
  nonempty gateway = true →
  wp (setDefaultGateway l gateway metric) k (λ _ k', same_links k k' ∧
    ∃ gw, ParseIP gateway = Some gw ∧
    (∃ y, same_route (gateway_route l gw metric) y ∧ y ∈ routes_of k') ∧
    (∀ z, z ∈ routes_of k' → z ∈ routes_of k ∨ same_route (gateway_route l gw metric) z) ∧
    ∀ z, z ∈ routes_of k → is_default z = false ∨ nr_Table z ≠ MAIN_TABLE → z ∈ routes_of k')
    (λ k', same_links k k' ∧ (∀ z, z ∈ routes_of k' → z ∈ routes_of k) ∧
    ∀ z, z ∈ routes_of k → is_default z = false ∨ nr_Table z ≠ MAIN_TABLE → z ∈ routes_of k').
Proof.
  intros Hne. unfold setDefaultGateway. rewrite Hne. cbn [negb].
  apply wp_bind, wp_lift. destruct (ParseIP gateway) as [gw|].
  2:{ by split_and!; [apply same_links_refl|..]. }
  apply wp_bind, wp_wrapM, wp_RouteList; [|by split_and!; [apply same_links_refl|..]].
  apply wp_bind. eapply wp_mono; [apply wp_del_default_routes| |done].
  cbn. intros _ k1 (Hs & Hsub & Hkeep). apply wp_wrapM. unfold wp.
  assert (∀ z, z ∈ routes_of k → is_default z = false ∨ nr_Table z ≠ MAIN_TABLE →
    z ∈ routes_of k1) as Hkeep'.
  { intros z Hz [?|Ht]; apply Hkeep; auto. left. by intros [? _]%list_elem_of_filter. }
  destruct (k_RouteAdd _ k1) as [r k2] eqn:E. apply kl_RouteAdd in E as (Hp & Hl & Ha & Hr).
  assert (same_links k k2) as Hs2 by (eapply same_links_trans; [done|by split]).
  destruct r as [[]|e|w]; cbn in Hr; [| |done].
  - destruct Hr as (y & Hy & Hr). split; [done|]. exists gw. split; [done|]. split_and!.
    + exists y. split; [done|]. rewrite Hr. by left.
    + intros z. rewrite Hr. intros [->|?]%elem_of_cons; [by right|left; auto].
    + intros z Hz Hz'. rewrite Hr. right. auto.
  - rewrite Hr. split_and!; auto.
Qed.

(** Links and addresses are kept. *)
Definition same_net (k k' : kernel) : Prop := places k' = places k ∧ same_addrs k k'.
Lemma same_links_net k k' : same_links k k' → same_net k k'.
Proof. intros [Hl Ha]. split; [|done]. unfold places. by rewrite Hl. Qed.
Lemma wp_gateway_kept l gw metric k :
  wp (if nonempty gw then setDefaultGateway l gw metric else mret ()) k
    (λ _, same_net k) (same_net k).
Proof.
  destruct (nonempty gw) eqn:Hne; [|by apply wp_ret].
  eapply wp_mono; [by apply wp_setDefaultGateway| |]; cbn; [intros _|]; intros k' [Hs _];
    by apply same_links_net.
Qed.
Lemma safe_RouteList : safe (k_RouteList None).
Proof.
  intros k. destruct (k_RouteList None k) as [r k'] eqn:E. by apply kl_RouteList in E as (_ & ? & _).
Qed.

(** Safety of what has no other specification. *)
Lemma wp_startDHCPClient d k : wp (startDHCPClient d) k (λ _ _, True) (λ _, True).
Proof.
  apply wp_safe. unfold startDHCPClient. apply safe_bind; [apply safe_wrapM, ll_LookPath|].
  intros _. apply safe_bind; [apply safe_attempt, ll_Command|]. intros _.
  apply safe_wrapM, ll_Command.
Qed.
Lemma wp_any {A} (m : M kernel A) k Q E :
  wp m k Q E → wp m k (λ _ _, True) (λ _, True).
Proof. intros Hw. by eapply wp_mono. Qed.

(** The switch on the protocol: not static. *)
Lemma wp_apply_protocol_other static l d iface k (Q : () → kernel → Prop) :
  if_Protocol iface ≠ "static" → (∀ k', Q () k') →
  wp (apply_protocol static l d iface) k Q (λ _, True).
Proof.
  intros Hp HQ. unfold apply_protocol. rewrite bool_decide_eq_false_2 by done.
  case_bool_decide.
  - eapply wp_mono; [apply wp_startDHCPClient| |done]. intros [] ? _. apply HQ.
  - destruct (_ || _); [apply wp_ret, HQ|by apply wp_fail].
Qed.
Lemma wp_apply_protocol_static static l d iface k (P : kernel → Prop) :
  if_Protocol iface = "static" → wp static k (λ _, P) (λ _, True) →
  (∀ k1 k2, P k1 → same_net k1 k2 → P k2) →
  wp (apply_protocol static l d iface) k (λ _, P) (λ _, True).
Proof.
  intros Hp Hst HP. unfold apply_protocol. rewrite bool_decide_eq_true_2 by done.
  apply wp_bind. eapply wp_mono; [apply Hst| |done]. intros [] k1 HP1.
  eapply wp_mono; [apply wp_gateway_kept| |done]. intros [] k2 Hn. by eapply HP.
Qed.

(** ** Lemmas: the interface a configuration ends up on *)

Lemma set_link_idents i m ls : fst <$> (place <$> set_link i (with_master m) ls) = fst <$> (place <$> ls).
Proof.
  unfold set_link. rewrite <- !list_fmap_compose. apply list_fmap_ext. intros _ x _. cbn.
  by case_match.
Qed.
Lemma places_idents k k' : places k' = places k → idents k' = idents k.
Proof. unfold idents. by intros ->. Qed.

Lemma wp_addPortToBridge_idents bridge n k :
  wp (addPortToBridge bridge n) k (λ _ k', idents k' = idents k) (λ _, True).
Proof.
  apply wp_bind, wp_wrapM, wp_LinkByName; [|done]. intros l Hl <-.
  apply wp_bind, wp_wrapM, wp_LinkSetUp. intros k1 Hp Ha. split; [|done].
  apply wp_wrapM. kernel_call ll_LinkSetMaster. rewrite <- (places_idents _ _ Hp).
  unfold idents. rewrite_places. apply set_link_idents.
Qed.

(** [l] was found under the name [n], and is still there. *)
Definition link_named (n : string) (l : Link) (k : kernel) : Prop := (lk_Index l, n) ∈ idents k.
Lemma link_named_intro l k : l ∈ links_of k → link_named (lk_Name l) l k.
Proof. apply link_ident. Qed.

Lemma wp_createBridge d mtu ports k :
  wp (createBridge d mtu ports) k (λ b, link_named d b) (λ _, True).
Proof.
  apply wp_bind, wp_wrapM. eapply wp_mono; [apply wp_safe, ll_LinkAdd| |done]. intros [] k1 _.
  apply wp_bind, wp_wrapM, wp_LinkByName; [|done]. intros b Hb <-.
  apply wp_bind. eapply wp_mono.
  - apply (wp_for_each (λ _ _ k', idents k' = idents k1) _ _ _ []); [done|].
    intros don x rest k2 Hk2. eapply wp_mono; [apply wp_addPortToBridge_idents| |done].
    cbn. intros _ k3 ->. exact Hk2.
  - cbn. intros _ k2 Hk2. apply wp_bind, wp_wrapM, wp_LinkSetUp. intros k3 Hp3 _. split; [|done].
    apply wp_ret. unfold link_named. rewrite (places_idents _ _ Hp3), Hk2. by apply link_ident.
  - done.
Qed.

Lemma wp_getBridgePorts_any n k Q (E : kernel → Prop) :
  (∀ l, Q l k) → E k → wp (getBridgePorts n) k Q E.
Proof.
  intros HQ HE. apply wp_bind, wp_wrapM, wp_LinkByName; [|done]. intros l _ _.
  apply wp_bind, wp_wrapM, wp_LinkList; [|done]. apply wp_ret, HQ.
Qed.
Lemma wp_bridgeConfigMatches b mtu ports k (Q : bool → kernel → Prop) (E : kernel → Prop) :
  (∀ c, Q c k) → E k → wp (bridgeConfigMatches b mtu ports) k Q E.
Proof.
  intros HQ HE. unfold bridgeConfigMatches. destruct (negb _); [apply wp_ret, HQ|].
  apply wp_bind, wp_getBridgePorts_any; [|done]. intros l. apply wp_ret, HQ.
Qed.
Lemma wp_checkIPMatches b ip nm k (Q : bool → kernel → Prop) (E : kernel → Prop) :
  (∀ c, (c = true → nonempty ip = true →
         ∃ d, ParseIP ip = Some d ∧ has_addr d (netmask_of nm) (lk_Index b) k) → Q c k) →
  E k → wp (checkIPMatches b ip nm) k Q E.
Proof.
  intros HQ HE. unfold checkIPMatches. destruct (nonempty ip); cbn [negb].
  2:{ by apply wp_ret, HQ. }
  apply wp_bind, wp_lift. destruct (ParseIP ip) as [d|]; [cbn|done].
  apply wp_bind, wp_wrapM, wp_AddrList; [|done]. apply wp_ret, HQ.
  intros (a & Ha%list_elem_of_In & Ea)%existsb_exists _. exists d. split; [done|]. by exists a.
Qed.

Lemma wp_ports_idents body (skip : gset string) names k :
  (∀ n k, wp (body n) k (λ _ k', idents k' = idents k) (λ _, True)) →
  wp (for_each names (λ n, if decide (n ∈ skip) then mret () else body n)) k
    (λ _ k', idents k' = idents k) (λ _, True).
Proof.
  intros Hb. apply (wp_for_each (λ _ _ k', idents k' = idents k) _ _ _ []); [done|].
  intros don x rest k1 Hk1. case_decide; [by apply wp_ret|].
  eapply wp_mono; [apply Hb| |done]. cbn. intros _ k2 ->. exact Hk1.
Qed.
Lemma wp_removePort_idents n k :
  wp (removePortFromBridge n) k (λ _ k', idents k' = idents k) (λ _, True).
Proof.
  apply wp_bind, wp_wrapM, wp_LinkByName; [|done]. intros l Hl <-.
  apply wp_wrapM. kernel_call ll_LinkSetNoMaster. unfold idents. rewrite_places.
  apply set_link_idents.
Qed.
Lemma wp_updateBridgePorts_idents b ports k :
  wp (updateBridgePorts b ports) k (λ _ k', idents k' = idents k) (λ _, True).
Proof.
  apply wp_bind, wp_wrapM, wp_getBridgePorts_any; [|done]. intros cur.
  apply wp_bind. eapply wp_mono; [apply wp_ports_idents, wp_removePort_idents| |done].
  cbn. intros _ k1 <-. apply wp_ports_idents, wp_addPortToBridge_idents.
Qed.

(** The bridge to configure is there; None stands for a bridge that has the
    configured address, if it is to have one. *)
Lemma wp_existing_bridge d b iface k :
  b ∈ links_of k → lk_Name b = d →
  wp (existing_bridge d b iface) k (λ ob k', match ob with
    | Some b' => link_named d b' k'
    | None => k' = k ∧ (if_Protocol iface = "static" → nonempty (if_IPAddr iface) = true →
        ∃ ip, ParseIP (if_IPAddr iface) = Some ip ∧
              has_addr ip (netmask_of (if_Netmask iface)) (lk_Index b) k)
    end) (λ _, True).
Proof.
  intros Hb <-. apply wp_bind, wp_wrapM, wp_bridgeConfigMatches; [|done]. intros [|].
  - case_bool_decide as Hp; [|apply wp_ret; by split].
    apply wp_bind, wp_wrapM, wp_checkIPMatches; [|done]. intros [|] Hc; apply wp_ret.
    + split; [done|]. intros _ Hne. by apply Hc.
    + by apply link_named_intro.
  - destruct (negb _).
    + apply wp_bind, wp_wrapM. eapply wp_mono; [apply wp_safe, ll_LinkDel| |done]. intros [] k1 _.
      apply wp_bind. eapply wp_mono; [apply wp_createBridge| |done]. intros b' k2 Hb'. by apply wp_ret.
    + apply wp_bind. eapply wp_mono; [apply wp_updateBridgePorts_idents| |done].
      cbv beta. intros _ k1 Hk1. apply wp_ret. unfold link_named. rewrite Hk1. by apply link_ident.
Qed.

(** The link an interface is configured on. *)
Definition target (name : string) (iface : Interface) : string :=
  if bool_decide (if_Type iface = "physical") then if_Device iface
  else if bool_decide (if_Type iface = "bridge") then bridge_device name iface
  else if_DeviceName iface.

(** The link is there and has the configured static address; unless it is a
    bridge, it has no other. *)
Definition static_done (name : string) (iface : Interface) (k : kernel) : Prop :=
  ∃ l d, link_named (target name iface) l k ∧ ParseIP (if_IPAddr iface) = Some d ∧
    has_addr d (netmask_of (if_Netmask iface)) (lk_Index l) k ∧
    (if_Type iface ≠ "bridge" → only_addr d (netmask_of (if_Netmask iface)) (lk_Index l) k).

Lemma has_addr_same d m i k k' : same_addrs k k' → has_addr d m i k → has_addr d m i k'.
Proof. intros Ha (a & Hin & E). exists a. by rewrite Ha. Qed.
Lemma only_addr_same d m i k k' : same_addrs k k' → only_addr d m i k → only_addr d m i k'.
Proof. intros Ha Ho a. rewrite Ha. apply Ho. Qed.
Lemma static_done_kept name iface k k' :
  static_done name iface k → same_net k k' → static_done name iface k'.
Proof.
  intros (l & d & Hl & Hd & Hh & Ho) [Hp Ha]. exists l, d. split_and!; [|done|..].
  - unfold link_named. by rewrite (places_idents _ _ Hp).
  - by eapply has_addr_same.
  - intros Ht. eapply only_addr_same; [done|auto].
Qed.
Lemma link_named_only n l i k k' : only_link i k k' → link_named n l k → link_named n l k'.
Proof. intros [Hp _] Hl. unfold link_named. by rewrite (places_idents _ _ Hp). Qed.

Context (name : string) (iface : Interface).
Hypothesis Hip : nonempty (if_IPAddr iface) = true.
Hypothesis Hmask : prefix_mask (netmask_of (if_Netmask iface)).
Hypothesis Hstatic : if_Protocol iface = "static".

(** Ensuring the address on the target: on a bridge it needs [promotes], on a
    link without addresses it does not. *)
Lemma wp_applyIPConfiguration_static l k :
  link_named (target name iface) l k → promotes ∨ addrs_of k (lk_Index l) = [] →
  wp (applyIPConfiguration l (target name iface) iface) k (λ _, static_done name iface) (λ _, True).
Proof.
  intros Hl Hk. apply wp_apply_protocol_static; [done| |by apply static_done_kept].
  eapply wp_mono; [by apply wp_ensureStaticIP| |done]. cbv beta.
  intros _ k' (d & Hd & Ho & Hon & Hh). exists l, d.
  split_and!; [by eapply link_named_only|done| |done]. apply Hh.
  destruct Hk as [?|Hnil]; [by left|right]. intros (a & Ha & _). rewrite Hnil in Ha.
  by apply not_elem_of_nil in Ha.
Qed.

Lemma wp_applyPhysical_static k :
  if_Type iface = "physical" →
  wp (applyPhysicalInterface name iface) k (λ _, static_done name iface) (λ _, True).
Proof.
  intros Ht. apply wp_bind, wp_wrapM, wp_LinkByName; [|done]. intros l Hl Hn.
  assert (link_named (target name iface) l k) as Hlk.
  { unfold target. rewrite bool_decide_eq_true_2, <- Hn by done. by apply link_named_intro. }
  clear Hl Hn. apply wp_bind. eapply (wp_mono _ _ (λ _ k1, link_named (target name iface) l k1)).
  { destruct (negb _); [|by apply wp_ret]. apply wp_wrapM, wp_LinkSetMTU. intros k1 Hp _.
    split; [|exact I]. unfold link_named. by rewrite (places_idents _ _ Hp). }
  2: done. cbv beta. intros _ k1 Hlk1.
  apply wp_bind, wp_wrapM, wp_LinkSetUp. intros k2 Hp2 _. split; [|done].
  apply wp_bind, wp_wrapM. eapply wp_mono; [apply wp_flushIPs| |done]. cbv beta.
  intros _ k3 [Ho3 Hnil].
  assert (link_named (target name iface) l k3) as Hlk3.
  { eapply link_named_only; [done|]. unfold link_named. by rewrite (places_idents _ _ Hp2). }
  apply wp_apply_protocol_static; [done| |by apply static_done_kept].
  eapply wp_mono; [by apply wp_setStaticIP| |done]. cbv beta.
  intros _ k4 (d & Hd & Ho & Hh & Hon). exists l, d.
  split_and!; [by eapply link_named_only|done|done|auto].
Qed.

Lemma wp_applyBridge_static k :
  if_Type iface = "bridge" → promotes →
  wp (applyBridgeInterface name iface) k (λ _, static_done name iface) (λ _, True).
Proof.
  intros Ht Hpro. assert (bridge_device name iface = target name iface) as Htg.
  { unfold target. rewrite bool_decide_eq_false_2, bool_decide_eq_true_2; congruence. }
  unfold applyBridgeInterface. rewrite Htg. cbv zeta. apply wp_bind, wp_attempt.
  assert (∀ k1 b, link_named (target name iface) b k1 →
    wp (applyIPConfiguration b (target name iface) iface) k1 (λ _, static_done name iface)
      (λ _, True)) as Hgo by (intros; apply wp_applyIPConfiguration_static; auto).
  apply wp_LinkByName.
  2:{ intros e. apply wp_bind, wp_bind. eapply wp_mono; [apply wp_createBridge| |done].
      intros b k1 Hb. by apply wp_ret, Hgo. }
  intros b Hb Hn. apply wp_bind.
  eapply wp_mono; [by apply wp_existing_bridge| |done]. cbv beta. intros [b'|] k1 Hk1; [by apply Hgo|].
  destruct Hk1 as [-> Hd]. destruct (Hd Hstatic Hip) as (d & Hd' & Hh). apply wp_ret.
  exists b, d. split_and!; [|done|done|done]. rewrite <- Hn. by apply link_named_intro.
Qed.

Lemma wp_create_vlan_static parent k :
  if_Type iface = "vlan" →
  wp (create_vlan iface parent) k (λ _, static_done name iface) (λ _, True).
Proof.
  intros Ht. assert (if_DeviceName iface = target name iface) as Htg.
  { unfold target. rewrite !bool_decide_eq_false_2; congruence. }
  unfold create_vlan. rewrite Htg.
  apply wp_bind, wp_wrapM. eapply wp_mono; [apply wp_safe, ll_LinkAdd| |done]. intros _ k1 _.
  apply wp_bind, wp_wrapM, wp_LinkByName; [|done]. intros l Hl Hn.
  apply wp_bind, wp_wrapM, wp_LinkSetUp. intros k2 Hp2 _. split; [|done].
  apply wp_bind, wp_wrapM. eapply wp_mono; [apply wp_flushIPs| |done]. cbv beta.
  intros _ k3 [Ho3 Hnil]. apply wp_applyIPConfiguration_static; [|by right].
  eapply link_named_only; [done|]. unfold link_named.
  rewrite (places_idents _ _ Hp2), <- Hn. by apply link_ident.
Qed.
Lemma wp_applyVLAN_static k :
  if_Type iface = "vlan" →
  wp (applyVLANInterface name iface) k (λ _, static_done name iface) (λ _, True).
Proof.
  intros Ht. unfold applyVLANInterface. repeat (case_match; [by apply wp_fail|]).
  apply wp_bind, wp_wrapM, wp_LinkByName; [|done]. intros parent _ _.
  apply wp_bind, wp_wrapM, wp_LinkSetUp. intros k1 _ _. split; [|done].
  apply wp_bind, wp_attempt, wp_LinkByName.
  - intros ex _ _. apply wp_bind, wp_wrapM. eapply wp_mono; [apply wp_safe, ll_LinkDel| |done].
    intros _ k2 _. by apply wp_create_vlan_static.
  - intros e. apply wp_bind, wp_ret. by apply wp_create_vlan_static.
Qed.

Lemma wp_ApplyInterfaceConfig_static k :
  if_Enabled iface = true → promotes →
  wp (ApplyInterfaceConfig name iface) k (λ _, static_done name iface) (λ _, True).
Proof.
  intros He Hpro. unfold ApplyInterfaceConfig. rewrite He. cbn [negb].
  repeat (case_bool_decide; [auto using wp_applyPhysical_static, wp_applyBridge_static,
    wp_applyVLAN_static|]). by apply wp_fail.
Qed.
End calls.

(** ** Safety of the interface commands *)

Section safety.
Context `{LinkLaws}.

Ltac safe_call law :=
  intros k; match goal with |- no_panic (?c k).1 =>
    let E := fresh "E" in destruct (c k) as [r k'] eqn:E; apply law in E; tauto end.
Lemma safe_k_LinkByName n : safe (k_LinkByName n).
Proof. safe_call kl_LinkByName. Qed.
Lemma safe_k_LinkList : safe k_LinkList.
Proof. safe_call kl_LinkList. Qed.
Lemma safe_k_AddrList l : safe (k_AddrList l).
Proof. safe_call kl_AddrList. Qed.
Lemma safe_k_RouteList : safe (k_RouteList None).
Proof. safe_call kl_RouteList. Qed.
Lemma safe_k_RouteAdd x : safe (k_RouteAdd x).
Proof. safe_call kl_RouteAdd. Qed.
Lemma safe_k_RouteDel x : safe (k_RouteDel x).
Proof. safe_call kl_RouteDel. Qed.
Lemma safe_k_LinkSetUp l : safe (k_LinkSetUp l).
Proof. safe_call ll_LinkSetUp. Qed.
Lemma safe_k_LinkSetDown l : safe (k_LinkSetDown l).
Proof. safe_call ll_LinkSetDown. Qed.
Lemma safe_k_LinkSetMTU l mtu : safe (k_LinkSetMTU l mtu).
Proof. safe_call ll_LinkSetMTU. Qed.
Lemma safe_k_LinkSetMaster l m : safe (k_LinkSetMaster l m).
Proof. safe_call ll_LinkSetMaster. Qed.
Lemma safe_k_LinkSetNoMaster l : safe (k_LinkSetNoMaster l).
Proof. safe_call ll_LinkSetNoMaster. Qed.
Lemma safe_k_AddrAdd l a : safe (k_AddrAdd l a).
Proof. safe_call ll_AddrAdd. Qed.
Lemma safe_k_AddrDel l a : safe (k_AddrDel l a).
Proof. safe_call ll_AddrDel. Qed.
Lemma safe_parse_ip_or p s : safe (parse_ip_or p s).
Proof. apply safe_lift. by destruct (ParseIP s). Qed.
End safety.
#[export] Hint Resolve safe_k_LinkByName safe_k_LinkList safe_k_AddrList safe_k_RouteList
  safe_k_RouteAdd safe_k_RouteDel safe_k_LinkSetUp safe_k_LinkSetDown safe_k_LinkSetMTU
  safe_k_LinkSetMaster safe_k_LinkSetNoMaster safe_k_AddrAdd safe_k_AddrDel safe_parse_ip_or
  ll_LinkAdd ll_LinkDel ll_LookPath ll_Command ll_WriteFile : safe.
(** A sequence of calls, tests and loops. *)
Ltac solve_safe :=
  repeat first
    [ solve [eauto 3 with safe typeclass_instances nocore]
    | apply safe_bind; [|intros ?] | apply safe_for_each; intros ?
    | apply safe_wrapM | apply safe_attempt | case_match ].

Section safe_commands.
Context `{LinkLaws}.
Lemma safe_del_addrs l a : safe (del_addrs l a).
Proof. unfold del_addrs. solve_safe. Qed.
#[local] Hint Resolve safe_del_addrs : safe.
Lemma safe_setDefaultGateway l g m : safe (setDefaultGateway l g m).
Proof. unfold setDefaultGateway, del_default_routes. solve_safe. Qed.
#[local] Hint Resolve safe_setDefaultGateway : safe.
Lemma safe_startDHCPClient d : safe (startDHCPClient d).
Proof. unfold startDHCPClient. solve_safe. Qed.
#[local] Hint Resolve safe_startDHCPClient : safe.
Lemma safe_apply_protocol static l d iface : safe static → safe (apply_protocol static l d iface).
Proof. intros. unfold apply_protocol. solve_safe. Qed.
Lemma safe_applyIPConfiguration l d iface : safe (applyIPConfiguration l d iface).
Proof. apply safe_apply_protocol. unfold ensureStaticIP. solve_safe. Qed.
#[local] Hint Resolve safe_applyIPConfiguration : safe.
Lemma safe_getBridgePorts n : safe (getBridgePorts n).
Proof. unfold getBridgePorts. solve_safe. Qed.
#[local] Hint Resolve safe_getBridgePorts : safe.
Lemma safe_addPortToBridge b n : safe (addPortToBridge b n).
Proof. unfold addPortToBridge. solve_safe. Qed.
Lemma safe_removePortFromBridge n : safe (removePortFromBridge n).
Proof. unfold removePortFromBridge. solve_safe. Qed.
#[local] Hint Resolve safe_addPortToBridge safe_removePortFromBridge : safe.
Lemma safe_createBridge d mtu ports : safe (createBridge d mtu ports).
Proof. unfold createBridge. solve_safe. Qed.
#[local] Hint Resolve safe_createBridge : safe.
Lemma safe_existing_bridge d b iface : safe (existing_bridge d b iface).
Proof.
  unfold existing_bridge, bridgeConfigMatches, checkIPMatches, updateBridgePorts. solve_safe.
Qed.
#[local] Hint Resolve safe_existing_bridge : safe.
Lemma safe_ApplyInterfaceConfig name iface : safe (ApplyInterfaceConfig name iface).
Proof.
  unfold ApplyInterfaceConfig, disableInterface, applyPhysicalInterface, applyBridgeInterface,
    applyVLANInterface, create_vlan, flushIPs.
  solve_safe. all: apply safe_apply_protocol; unfold setStaticIP; solve_safe.
Qed.
Lemma safe_EnableIPForwarding : safe EnableIPForwarding.
Proof. unfold EnableIPForwarding, sysctl_Set. solve_safe. Qed.
End safe_commands.

(** ** Properties *)


(** Bringing a bridge to its ports: if it returns nil, every configured port
    exists and is in the bridge, a link that was in the bridge and is no
    configured port is in no bridge, and every other link stays where it was. *)
Theorem updateBridgePorts_spec `{LinkLaws} bridge ports k :
  unique_links k → bridge ∈ links_of k →
  ∃ r k', updateBridgePorts bridge ports k = (r, k') ∧ no_panic r ∧
    (r = Ok () →
     places k' = (λ p, (p.1, port_master bridge ports p)) <$> places k ∧
     (∀ n, n ∈ ports → n ∈ (idents k).*2) ∧ same_addrs k k').
Proof.
  intros Hu Hb. destruct (updateBridgePorts bridge ports k) as [r k'] eqn:E. exists r, k'.
  split; [done|]. eapply wp_result in E; [|by apply wp_updateBridgePorts].
  destruct E as (Hp & HQ & _). split; [done|]. apply HQ.
Qed.

(** Setting the default gateway keeps links, addresses and every route that
    is not a default route of the main table, on failure as well; on success
    the default route through the gateway is in the table, and nothing else is
    new. *)
Theorem setDefaultGateway_spec `{LinkLaws} l gateway metric k :
  nonempty gateway = true →
  ∃ r k', setDefaultGateway l gateway metric k = (r, k') ∧ no_panic r ∧ same_links k k' ∧
    (∀ z, z ∈ routes_of k → is_default z = false ∨ nr_Table z ≠ MAIN_TABLE → z ∈ routes_of k') ∧
    (r = Ok () → ∃ gw, ParseIP gateway = Some gw ∧
      (∃ y, same_route (gateway_route l gw metric) y ∧ y ∈ routes_of k') ∧
      ∀ z, z ∈ routes_of k' → z ∈ routes_of k ∨ same_route (gateway_route l gw metric) z).
Proof.
  intros Hne. destruct (setDefaultGateway l gateway metric k) as [r k'] eqn:E. exists r, k'.
  split; [done|]. eapply wp_result in E; [|by apply wp_setDefaultGateway].
  destruct E as (Hp & HQ & HE). split; [done|]. destruct r as [[]|e|w]; [| |done].
  - destruct (HQ () eq_refl) as (Hs & gw & Hgw & Hy & Hsub & Hkeep).
    split_and!; [done|done|]. intros _. by exists gw.
  - destruct (HE (ex_intro _ e eq_refl)) as (Hs & _ & Hkeep). by split_and!.
Qed.

(** Two port lists without duplicates are equal for the code exactly when
    they hold the same ports. *)
Theorem stringSlicesEqual_perm a b :
  NoDup a → NoDup b → stringSlicesEqual a b = true ↔ a ≡ₚ b.
Proof.
  intros Ha Hb. unfold stringSlicesEqual. rewrite andb_true_iff, Nat.eqb_eq, forallb_forall.
  assert ((∀ x, In x b → bool_decide (x ∈ (list_to_set a : gset string)) = true) ↔ b ⊆ a) as ->.
  { split.
    - intros Hi x Hx%list_elem_of_In%Hi%bool_decide_eq_true. by apply elem_of_list_to_set in Hx.
    - intros Hs x Hx%list_elem_of_In. apply bool_decide_eq_true, elem_of_list_to_set. by apply Hs. }
  split.
  - intros [Hlen Hsub]. symmetry. apply submseteq_length_Permutation; [|lia].
    by apply NoDup_submseteq.
  - intros Hp. split; [by rewrite Hp|]. intros x. by rewrite Hp.
Qed.

(** ** The properties at concrete inputs *)

Lemma memory_promotes : @promotes memory_kernel memory_laws.
Proof.
  intros l a m m'. cbn. case_decide; intros [= <-]. intros b Hb Hne. cbn.
  rewrite Z.eqb_refl. by apply list_elem_of_filter.
Qed.

Definition sample_link (i : Z) (n : string) (master : Z) (type : string) : Link :=
  {| lk_Index := i; lk_Name := n; lk_MTU := 1500; lk_MasterIndex := master; lk_ParentIndex := 0;
     lk_Up := true; lk_Type := type; lk_VlanId := 0; lk_Loopback := false |}.
Definition net_24 (ip : IP) : Addr := {| net_IP := ip; net_Mask := [255; 255; 255; 0] |}.
(** lan1 in the bridge br-lan, lan2 in no bridge; the bridge has two addresses. *)
Definition bridge_kernel : Memory := {|
  mem_links := [sample_link 2 "br-lan" 0 "bridge"; sample_link 3 "lan1" 2 "device";
                sample_link 4 "lan2" 0 "device"];
  mem_addrs := λ i, if i =? 2 then [net_24 [192; 168; 1; 1]; net_24 [10; 0; 0; 1]] else [];
  mem_routes := []; mem_files := ∅;
|}.
Definition static_iface (type device ip : string) (ports : list string) : Interface :=
  {| if_IPv6 := None; if_Gateway := ""; if_Comment := ""; if_MAC := ""; if_Type := type;
     if_Device := device; if_DeviceName := ""; if_Protocol := "static"; if_IPAddr := ip;
     if_WGPrivateKey := ""; if_Netmask := "255.255.255.0"; if_BridgePorts := ports;
     if_DNS := []; if_WGPeers := []; if_Metric := 0; if_MTU := 0; if_BridgeForwardDelay := 0;
     if_VLANId := 0; if_WGListenPort := 0; if_Enabled := true; if_BridgeSTP := false |}.

Lemma mask_24 : prefix_mask (netmask_of "255.255.255.0").
Proof. exists 24. split; [lia|]. vm_compute. reflexivity. Qed.


Lemma bridge_kernel_unique : @unique_links memory_kernel memory_laws bridge_kernel.
Proof. split; apply (bool_decide_unpack _); vm_compute; exact I. Qed.
Lemma updateBridgePorts_spec_witness :
  ∃ r k', @updateBridgePorts memory_kernel (sample_link 2 "br-lan" 0 "bridge") ["lan2"] bridge_kernel
      = (r, k') ∧ no_panic r ∧ (r = Ok () →
     @places memory_kernel memory_laws k' =
       (λ p, (p.1, port_master (sample_link 2 "br-lan" 0 "bridge") ["lan2"] p)) <$>
       @places memory_kernel memory_laws bridge_kernel ∧
     (∀ n, n ∈ ["lan2"] → n ∈ (@idents memory_kernel memory_laws bridge_kernel).*2) ∧
     @same_addrs memory_kernel memory_laws bridge_kernel k').
Proof.
  apply (@updateBridgePorts_spec memory_kernel memory_laws memory_link_laws).
  - exact bridge_kernel_unique.
  - left.
Defined.

Lemma setDefaultGateway_spec_witness :
  ∃ r k', @setDefaultGateway memory_kernel (sample_link 2 "br-lan" 0 "bridge") "192.168.1.254" 100
      bridge_kernel = (r, k') ∧ no_panic r ∧
    @same_links memory_kernel memory_laws bridge_kernel k'.
Proof.
  destruct (@setDefaultGateway_spec memory_kernel memory_laws memory_link_laws
    (sample_link 2 "br-lan" 0 "bridge") "192.168.1.254" 100 bridge_kernel eq_refl)
    as (r & k' & E & Hp & Hs & _).
  exact (ex_intro _ r (ex_intro _ k' (conj E (conj Hp Hs)))).
Defined.

Lemma stringSlicesEqual_perm_witness :
  stringSlicesEqual ["lan1"; "lan2"] ["lan2"; "lan1"] = true ↔ ["lan1"; "lan2"] ≡ₚ ["lan2"; "lan1"].
Proof. apply stringSlicesEqual_perm; apply (bool_decide_unpack _); vm_compute; exact I. Defined.

(** Findings: a repeated port hides one that is missing, and a bridge whose
    ports match keeps addresses that are not configured. *)
Lemma repeated_port_matches : stringSlicesEqual ["lan1"; "lan2"] ["lan1"; "lan1"] = true.
Proof. reflexivity. Qed.
Lemma bridge_keeps_stale_address :
  let '(r, k') := @ApplyInterfaceConfig memory_kernel "lan"
    (static_iface "bridge" "br-lan" "192.168.1.1" ["lan1"]) bridge_kernel in
  r = Ok () ∧ mem_addrs k' 2 = [net_24 [192; 168; 1; 1]; net_24 [10; 0; 0; 1]].
Proof. by vm_compute. Qed.
