(* ===== verification/Snapshot.v ===== *)
(** * Snapshot: system/snapshot_manager.go, system/snapshot.go, system/rollback.go

    The snapshot manager: capturing the state of the kernel and restoring it.
    The clock is an argument.  Log output is not modelled; an error that is only
    logged is dropped, as in the code.  The theorems: restoring what was just
    captured changes nothing, and what a restore does to addresses, ports and
    links that are not in the snapshot. *)
From S2P Require Import Prelude GoStr GoNet Validation Types Json ConfigStore Netlink Routes Network.

(** ** Helper functions *)
Definition containsScope (scopes : list string) (scope : string) : bool :=
  existsb (λ s, bool_decide (s = scope)) scopes.
Definition containsString (slice : list string) (str : string) : bool :=
  existsb (λ s, bool_decide (s = str)) slice.

Definition ip_forward_path : string := "/proc/sys/net/ipv4/ip_forward".
Definition up_down (up : bool) : string := if up then "up" else "down".
(** [ip.String()] of an address that is not nil. *)
Definition gw_string (gw : IP) : string := match gw with [] => "" | _ => IP_String gw end.
Definition route_dst_string (dst : option IPNet) : string :=
  match dst with Some dst => IPNet_String dst | None => "default" end.

(** A call whose error is only logged. *)
Definition logged {S A} (m : M S A) : M S () := attempt m ≫= λ _, mret ().

Section snapshot.
Context `{Kernel}.

(** ** Capture *)

(** The name of a link, "" when the index is 0 or unknown. *)
Definition device_name (index : Z) : M kernel string :=
  if index <=? 0 then mret "" else
  attempt (k_LinkByIndex index) ≫= λ link,
  mret match link with Ok link => lk_Name link | _ => "" end.

Definition bridge_ports (bridgeName : string) : M kernel (list string) :=
  wrapM ("failed to find bridge " +:+ bridgeName +:+ ": ") (k_LinkByName bridgeName) ≫= λ bridge,
  wrapM "failed to list interfaces: " k_LinkList ≫= λ links,
  mret (lk_Name <$> List.filter (λ link, lk_MasterIndex link =? lk_Index bridge) links).

(** The first default route with a gateway. *)
Definition is_gateway_route (route : NRoute) : bool :=
  match nr_Dst route, nr_Gw route with None, _ :: _ => true | _, _ => false end.

(** Type, ports, vlan id and parent. *)
Definition capture_type (link : Link) : M kernel (string * list string * Z * string) :=
  if bool_decide (lk_Type link = "bridge") then
    attempt (bridge_ports (lk_Name link)) ≫= λ ports,
    mret ("bridge", match ports with Ok ports => ports | _ => [] end, 0, "")
  else if bool_decide (lk_Type link = "vlan") then
    attempt (k_LinkByIndex (lk_ParentIndex link)) ≫= λ parent,
    mret ("vlan", [], lk_VlanId link, match parent with Ok parent => lk_Name parent | _ => "" end)
  else if bool_decide (lk_Type link = "wireguard") then mret ("wireguard", [], 0, "")
  else mret ("physical", [], 0, "").

Definition captureInterfaceState (link : Link) : M kernel InterfaceSnapshot :=
  wrapM "failed to list addresses: " (k_AddrList link) ≫= λ addrs,
  attempt (k_RouteList (Some link)) ≫= λ routes,
  let gateway := match routes with Ok routes => List.find is_gateway_route routes | _ => None end in
  capture_type link ≫= λ '(type, ports, vlan_id, parent),
  mret {| is_Name := lk_Name link; is_Type := type; is_Existed := true; is_MTU := lk_MTU link;
          is_State := up_down (lk_Up link); is_Addresses := IPNet_String <$> addrs;
          is_Gateway := match gateway with Some route => gw_string (nr_Gw route) | None => "" end;
          is_Metric := match gateway with Some route => nr_Priority route | None => 0 end;
          is_Ports := ports; is_VLANId := vlan_id; is_ParentDevice := parent |}.

(** The interfaces by name; one whose state cannot be captured is left out. *)
Fixpoint capture_links (links : list Link) (m : gmap string InterfaceSnapshot)
    : M kernel (gmap string InterfaceSnapshot) :=
  match links with
  | [] => mret m
  | link :: links =>
      if bool_decide (lk_Name link = "lo") then capture_links links m else
      attempt (captureInterfaceState link) ≫= λ snapshot,
      capture_links links
        match snapshot with Ok snapshot => <[lk_Name link := snapshot]> m | _ => m end
  end.

Definition capture_route (route : NRoute) : M kernel RouteSnapshot :=
  device_name (nr_LinkIndex route) ≫= λ device,
  mret {| rs_Destination := route_dst_string (nr_Dst route); rs_Gateway := gw_string (nr_Gw route);
          rs_Device := device; rs_Metric := nr_Priority route; rs_Table := nr_Table route;
          rs_Scope := nr_Scope route |}.
Fixpoint capture_routes (routes : list NRoute) : M kernel (list RouteSnapshot) :=
  match routes with
  | [] => mret []
  | route :: routes =>
      capture_route route ≫= λ s, capture_routes routes ≫= λ l, mret (s :: l)
  end.

(** At the time [now], in nanoseconds. *)
Definition CaptureSystemSnapshot (now : Z) : M kernel SystemSnapshot :=
  attempt (k_ReadFile ip_forward_path) ≫= λ data,
  wrapM "failed to list interfaces: " k_LinkList ≫= λ links,
  capture_links links ∅ ≫= λ interfaces,
  wrapM "failed to list routes: " (k_RouteList None) ≫= λ routes,
  capture_routes routes ≫= λ routes,
  attempt (k_Run "nft" ["-j"; "list"; "table"; "inet"; "jack"]) ≫= λ output,
  mret {| ss_Timestamp := now; ss_CheckpointID := "auto-" +:+ itoa (now / 1000000000);
          ss_IPForwarding := match data with
                             | Ok data => bool_decide (trim_space data = "1") | _ => false end;
          ss_Interfaces := Some interfaces; ss_Routes := routes;
          ss_NftablesRules := match output with Ok (output, None) => output | _ => "" end |}.

(** ** Restore: routes *)

Definition snapshotRoutesMatch (route : NRoute) (snapshot : RouteSnapshot) : M kernel bool :=
  if negb (bool_decide (route_dst_string (nr_Dst route) = rs_Destination snapshot)) then mret false
  else if negb (bool_decide (gw_string (nr_Gw route) = rs_Gateway snapshot)) then mret false
  else
    device_name (nr_LinkIndex route) ≫= λ routeDev,
    mret (bool_decide (routeDev = rs_Device snapshot) &&
          (nr_Priority route =? rs_Metric snapshot) && (nr_Table route =? rs_Table snapshot)).
Fixpoint snapshotRouteExists (route : NRoute) (snapshots : list RouteSnapshot) : M kernel bool :=
  match snapshots with
  | [] => mret false
  | snapshot :: snapshots =>
      snapshotRoutesMatch route snapshot ≫= λ b,
      if b : bool then mret true else snapshotRouteExists route snapshots
  end.
Fixpoint snapshotRouteInCurrent (snapshot : RouteSnapshot) (routes : list NRoute) : M kernel bool :=
  match routes with
  | [] => mret false
  | route :: routes =>
      snapshotRoutesMatch route snapshot ≫= λ b,
      if b : bool then mret true else snapshotRouteInCurrent snapshot routes
  end.

(** Routes of the kernel and link-local routes are left alone. *)
Definition remove_route (snapshotRoutes : list RouteSnapshot) (current : NRoute) : M kernel () :=
  if (nr_Protocol current =? RTPROT_KERNEL) || (nr_Scope current =? SCOPE_LINK) then mret ()
  else
    snapshotRouteExists current snapshotRoutes ≫= λ exists_,
    if exists_ : bool then mret () else logged (k_RouteDel current).

Definition add_route (currentRoutes : list NRoute) (snapshot : RouteSnapshot) : M kernel () :=
  snapshotRouteInCurrent snapshot currentRoutes ≫= λ found,
  if found : bool then mret () else
  match (if bool_decide (rs_Destination snapshot = "default") then Ok None
         else (λ p, Some p.2) <$> ParseCIDR (rs_Destination snapshot)) with
  | Ok dst =>
      (if nonempty (rs_Device snapshot) then
         attempt (k_LinkByName (rs_Device snapshot)) ≫= λ link,
         mret match link with Ok link => lk_Index link | _ => 0 end
       else mret 0) ≫= λ index,
      logged (k_RouteAdd
        {| nr_Dst := dst;
           nr_Gw := if nonempty (rs_Gateway snapshot)
                    then default [] (ParseIP (rs_Gateway snapshot)) else [];
           nr_LinkIndex := index; nr_Priority := rs_Metric snapshot;
           nr_Table := rs_Table snapshot; nr_Protocol := 0; nr_Scope := rs_Scope snapshot |})
  | _ => mret ()
  end.

Definition rollbackRoutes (snapshotRoutes : list RouteSnapshot) : M kernel () :=
  wrapM "failed to list current routes: " (k_RouteList None) ≫= λ currentRoutes,
  for_each currentRoutes (remove_route snapshotRoutes) ≫= λ _,
  for_each snapshotRoutes (add_route currentRoutes).

(** ** Restore: interfaces *)

Definition restoreIPAddresses (link : Link) (snapshotAddrs : list string) : M kernel () :=
  wrapM "failed to list current addresses: " (k_AddrList link) ≫= λ currentAddrs,
  for_each currentAddrs (λ current,
    if containsString snapshotAddrs (IPNet_String current) then mret ()
    else logged (k_AddrDel link current)) ≫= λ _,
  for_each snapshotAddrs (λ addrStr,
    if existsb (λ current, bool_decide (IPNet_String current = addrStr)) currentAddrs then mret ()
    else match k_ParseAddr addrStr with
         | Ok addr => logged (k_AddrAdd link addr)
         | Err _ => mret ()
         | Panic w => lift (Panic w)
         end).

Definition restoreBridgePorts (bridge : Link) (snapshotPorts : list string) : M kernel () :=
  wrapM "failed to get current bridge ports: " (bridge_ports (lk_Name bridge)) ≫= λ currentPorts,
  for_each currentPorts (λ port,
    if containsString snapshotPorts port then mret () else
    attempt (k_LinkByName port) ≫= λ portLink,
    match portLink with Ok portLink => logged (k_LinkSetNoMaster portLink) | _ => mret () end)
    ≫= λ _,
  for_each snapshotPorts (λ port,
    if containsString currentPorts port then mret () else
    attempt (k_LinkByName port) ≫= λ portLink,
    match portLink with Ok portLink => logged (k_LinkSetMaster portLink bridge) | _ => mret () end).

(** The code only logs that it cannot. *)
Definition recreateInterface (snapshot : InterfaceSnapshot) : M kernel () := mret ().

Definition restoreInterfaceState (snapshot : InterfaceSnapshot) (currentLinks : gmap string Link)
    : M kernel () :=
  match currentLinks !! is_Name snapshot with
  | None => recreateInterface snapshot
  | Some link =>
      (if negb (lk_MTU link =? is_MTU snapshot)
       then wrapM "failed to set MTU: " (k_LinkSetMTU link (is_MTU snapshot)) else mret ()) ≫= λ _,
      let snapshotUp := bool_decide (is_State snapshot = "up") in
      (if negb (Bool.eqb (lk_Up link) snapshotUp) then
         if snapshotUp then wrapM "failed to set link up: " (k_LinkSetUp link)
         else wrapM "failed to set link down: " (k_LinkSetDown link)
       else mret ()) ≫= λ _,
      wrapM "failed to restore IP addresses: " (restoreIPAddresses link (is_Addresses snapshot))
        ≫= λ _,
      if bool_decide (is_Type snapshot = "bridge") && negb (bool_decide (is_Ports snapshot = []))
      then wrapM "failed to restore bridge ports: " (restoreBridgePorts link (is_Ports snapshot))
      else mret ()
  end.

(** The links by name, a later one replacing an earlier. *)
Definition by_name (links : list Link) : gmap string Link :=
  fold_left (λ m link, <[lk_Name link := link]> m) links ∅.

Definition remove_created `{RangeOrder} (snapshots : gmap string InterfaceSnapshot)
    (p : string * Link) : M kernel () :=
  if bool_decide (p.1 = "lo") then mret () else
  match snapshots !! p.1 with
  | Some snapshot => if is_Existed snapshot then mret () else logged (k_LinkDel p.2)
  | None => logged (k_LinkDel p.2)
  end.

Definition rollbackInterfaces `{RangeOrder} (snapshots : gmap string InterfaceSnapshot)
    : M kernel () :=
  wrapM "failed to list current interfaces: " k_LinkList ≫= λ currentLinks,
  let currentNames := by_name currentLinks in
  for_each (range currentNames) (remove_created snapshots) ≫= λ _,
  for_each (range snapshots) (λ p,
    if is_Existed p.2 then logged (restoreInterfaceState p.2 currentNames) else mret ()).

(** ** Restore *)

Definition rollbackIPForwarding (enabled : bool) : M kernel () :=
  wrapM "failed to write to /proc/sys/net/ipv4/ip_forward: "
    (k_WriteFile ip_forward_path (if enabled then "1" else "0")).

(** One subsystem, when the scope has it: its error is collected. *)
Definition restore_part (name : string) (scope : list string) (m : M kernel ())
    (errors : list error) : M kernel (list error) :=
  if containsScope scope name || containsScope scope "all" then
    attempt m ≫= λ r,
    mret match r with Err e => errors ++ [Wrapf (name +:+ ": ") e] | _ => errors end
  else mret errors.

Definition RestoreSnapshot `{RangeOrder} (snapshot : SystemSnapshot) (scope : list string)
    : M kernel () :=
  restore_part "routes" scope (rollbackRoutes (ss_Routes snapshot)) [] ≫= λ errors,
  restore_part "interfaces" scope (rollbackInterfaces (gm (ss_Interfaces snapshot))) errors
    ≫= λ errors,
  restore_part "ipforward" scope (rollbackIPForwarding (ss_IPForwarding snapshot)) errors
    ≫= λ errors,
  match errors with
  | [] => mret ()
  | _ => fail (ErrorText ("rollback completed with " +:+ itoa (Z.of_nat (length errors)) +:+
                          " error(s): " +:+ fmt_list (error_string <$> errors)))
  end.

(** The temporary file is removed when the function returns. *)
Definition RestoreNftablesRules (rulesJSON : string) : M kernel () :=
  if negb (nonempty rulesJSON) then mret () else
  wrapM "failed to create temp file: " (k_CreateTemp "" "jack-nft-rollback-*.json") ≫= λ tmpFile,
  attempt (
    wrapM "failed to write rules to temp file: " (k_WriteFile tmpFile rulesJSON) ≫= λ _,
    k_Run "nft" ["-j"; "-f"; tmpFile] ≫= λ '(output, err),
    match err with
    | Some err => fail (ErrorText ("failed to restore firewall rules: " +:+ error_string err +:+
                                   " (output: " +:+ output +:+ ")"))
    | None => mret ()
    end) ≫= λ r,
  logged (k_Remove tmpFile) ≫= λ _, lift r.
End snapshot.

(** ** Lemmas: computations that only look *)

Section reads.
Context `{ReadLaws}.

(** [m] changes nothing and does not panic. *)
Definition reads {A} (m : M kernel A) : Prop := ∀ k, ∃ r, m k = (r, k) ∧ no_panic r.
(** It also returns nil. *)
Definition finds {A} (m : M kernel A) : Prop := ∀ k, ∃ a, m k = (Ok a, k).

Lemma finds_ret {A} (a : A) : finds (mret a).
Proof. intros k. by eexists. Qed.
Lemma finds_bind {A B} (m : M kernel A) (f : A → M kernel B) :
  finds m → (∀ a, finds (f a)) → finds (m ≫= f).
Proof.
  intros Hm Hf k. destruct (Hm k) as [a E]. destruct (Hf a k) as [b E'].
  exists b. unfold mbind, M_bind. by rewrite E.
Qed.
Lemma finds_attempt {A} (m : M kernel A) : reads m → finds (attempt m).
Proof.
  intros Hm k. destruct (Hm k) as (r & E & Hp). exists r. unfold attempt. rewrite E. by destruct r.
Qed.
Lemma reads_finds {A} (m : M kernel A) : finds m → reads m.
Proof. intros Hm k. destruct (Hm k) as [a E]. by exists (Ok a). Qed.
Lemma reads_bind {A B} (m : M kernel A) (f : A → M kernel B) :
  reads m → (∀ a, reads (f a)) → reads (m ≫= f).
Proof.
  intros Hm Hf k. destruct (Hm k) as (r & E & Hp). unfold mbind, M_bind. rewrite E.
  destruct r as [a|e|w]; [apply Hf|by eexists|done].
Qed.
Lemma reads_wrapM {A} p (m : M kernel A) : reads m → reads (wrapM p m).
Proof.
  intros Hm k. destruct (Hm k) as (r & E & Hp). unfold wrapM. rewrite E. eexists.
  split; [done|]. by apply no_panic_wrap.
Qed.

Ltac read_call law :=
  intros k; match goal with |- ∃ r, ?c k = _ ∧ _ =>
    let E := fresh "E" in destruct (c k) as [r k'] eqn:E; apply law in E; exists r;
    destruct_and?; by subst end.
Lemma reads_LinkByName n : reads (k_LinkByName n).
Proof. read_call kl_LinkByName. Qed.
Lemma reads_LinkList : reads k_LinkList.
Proof. read_call kl_LinkList. Qed.
Lemma reads_AddrList l : reads (k_AddrList l).
Proof. read_call kl_AddrList. Qed.
Lemma reads_RouteList l : reads (k_RouteList l).
Proof. destruct l; [read_call rl_RouteList|read_call kl_RouteList]. Qed.
Lemma reads_LinkByIndex i : reads (k_LinkByIndex i).
Proof. read_call rl_LinkByIndex. Qed.
Lemma reads_ReadFile p : reads (k_ReadFile p).
Proof. read_call rl_ReadFile. Qed.

Lemma finds_device_name i : finds (device_name i).
Proof.
  unfold device_name. case_match; [apply finds_ret|].
  apply finds_bind; [apply finds_attempt, reads_LinkByIndex|]. intros r. apply finds_ret.
Qed.
Lemma finds_capture_route r : finds (capture_route r).
Proof. apply finds_bind; [apply finds_device_name|]. intros d. apply finds_ret. Qed.
Lemma finds_match r s : finds (snapshotRoutesMatch r s).
Proof.
  unfold snapshotRoutesMatch. repeat (case_match; [apply finds_ret|]).
  apply finds_bind; [apply finds_device_name|]. intros d. apply finds_ret.
Qed.
Lemma reads_bridge_ports n : reads (bridge_ports n).
Proof.
  apply reads_bind; [apply reads_wrapM, reads_LinkByName|]. intros b.
  apply reads_bind; [apply reads_wrapM, reads_LinkList|]. intros l. apply reads_finds, finds_ret.
Qed.
Lemma finds_capture_type l : finds (capture_type l).
Proof.
  unfold capture_type. repeat case_match; try apply finds_ret;
    (apply finds_bind; [apply finds_attempt|intros r; apply finds_ret]).
  - apply reads_bridge_ports.
  - apply reads_LinkByIndex.
Qed.
Lemma reads_captureInterfaceState l : reads (captureInterfaceState l).
Proof.
  apply reads_bind; [apply reads_wrapM, reads_AddrList|]. intros addrs.
  apply reads_finds, finds_bind; [apply finds_attempt, reads_RouteList|]. intros r.
  apply finds_bind; [apply finds_capture_type|]. intros [[[] ?] ?]. apply finds_ret.
Qed.
Lemma finds_capture_links links : ∀ m, finds (capture_links links m).
Proof.
  induction links as [|l links IH]; intros m; cbn; [apply finds_ret|].
  case_bool_decide; [apply IH|].
  apply finds_bind; [apply finds_attempt, reads_captureInterfaceState|]. intros r. apply IH.
Qed.
Lemma finds_capture_routes rs : finds (capture_routes rs).
Proof.
  induction rs as [|r rs IH]; cbn; [apply finds_ret|].
  apply finds_bind; [apply finds_capture_route|]. intros s. by apply finds_bind; [|intros; apply finds_ret].
Qed.

Lemma reads_list_table : reads (k_Run "nft" ["-j"; "list"; "table"; "inet"; "jack"]).
Proof. read_call rl_list_table. Qed.
Lemma reads_CaptureSystemSnapshot now : reads (CaptureSystemSnapshot now).
Proof.
  apply reads_bind; [apply reads_finds, finds_attempt, reads_ReadFile|]. intros data.
  apply reads_bind; [apply reads_wrapM, reads_LinkList|]. intros links.
  apply reads_bind; [apply reads_finds, finds_capture_links|]. intros interfaces.
  apply reads_bind; [apply reads_wrapM, reads_RouteList|]. intros routes.
  apply reads_bind; [apply reads_finds, finds_capture_routes|]. intros rs.
  apply reads_finds, finds_bind; [apply finds_attempt, reads_list_table|]. intros o. apply finds_ret.
Qed.

Lemma reads_inv {A B} (m : M kernel A) (f : A → M kernel B) k b k' :
  reads m → (m ≫= f) k = (Ok b, k') → ∃ a, m k = (Ok a, k) ∧ f a k = (Ok b, k').
Proof.
  intros Hm. destruct (Hm k) as (r & E & _). unfold mbind, M_bind. rewrite E.
  destruct r as [a|e|w]; [|done..]. eauto.
Qed.
Lemma wrapM_ok {A} p (m : M kernel A) k a k' : wrapM p m k = (Ok a, k') ↔ m k = (Ok a, k').
Proof. unfold wrapM. destruct (m k) as [[a'|e|w] k1]; cbn; split; by intros [=]; simplify_eq. Qed.

(** A loop whose every step does nothing. *)
Lemma for_each_idle {A} (l : list A) (body : A → M kernel ()) k :
  (∀ x, x ∈ l → body x k = (Ok (), k)) → for_each l body k = (Ok (), k).
Proof.
  induction l as [|x l IH]; intros Hb; cbn; [done|].
  rewrite (bind_eq _ _ _ () k) by (apply Hb; by left). apply IH. intros y Hy. apply Hb. by right.
Qed.

(** ** Lemmas: restoring what was captured *)

Lemma capture_routes_inv rs l k :
  capture_routes rs k = (Ok l, k) → Forall2 (λ r s, capture_route r k = (Ok s, k)) rs l.
Proof.
  revert l. induction rs as [|r rs IH]; intros l; cbn; [by intros [= <-]|].
  intros (s & E & E')%reads_inv; [|apply reads_finds, finds_capture_route].
  apply reads_inv in E' as (l' & E2 & E3); [|apply reads_finds, finds_capture_routes].
  injection E3 as <-. constructor; [done|]. by apply IH.
Qed.
Lemma captured_matches r s k :
  capture_route r k = (Ok s, k) → snapshotRoutesMatch r s k = (Ok true, k).
Proof.
  unfold capture_route. intros (d & E & E')%reads_inv; [|apply reads_finds, finds_device_name].
  injection E' as <-. unfold snapshotRoutesMatch. cbn. rewrite !bool_decide_eq_true_2 by done. cbn.
  rewrite (bind_eq _ _ _ _ _ E), bool_decide_eq_true_2 by done. by rewrite !Z.eqb_refl.
Qed.
Lemma route_exists r s snaps k :
  s ∈ snaps → snapshotRoutesMatch r s k = (Ok true, k) →
  snapshotRouteExists r snaps k = (Ok true, k).
Proof.
  intros Hs Hm. induction snaps as [|s' snaps IH]; [by apply not_elem_of_nil in Hs|]. cbn.
  destruct (finds_match r s' k) as [b E]. rewrite (bind_eq _ _ _ _ _ E).
  destruct b; [done|]. apply elem_of_cons in Hs as [->|Hs]; [congruence|by apply IH].
Qed.
Lemma route_in_current r s rs k :
  r ∈ rs → snapshotRoutesMatch r s k = (Ok true, k) →
  snapshotRouteInCurrent s rs k = (Ok true, k).
Proof.
  intros Hr Hm. induction rs as [|r' rs IH]; [by apply not_elem_of_nil in Hr|]. cbn.
  destruct (finds_match r' s k) as [b E]. rewrite (bind_eq _ _ _ _ _ E).
  destruct b; [done|]. apply elem_of_cons in Hr as [->|Hr]; [congruence|by apply IH].
Qed.

Lemma rollbackRoutes_captured rs l k :
  k_RouteList None k = (Ok rs, k) → capture_routes rs k = (Ok l, k) →
  rollbackRoutes l k = (Ok (), k).
Proof.
  intros Hrs Hl%capture_routes_inv. unfold rollbackRoutes.
  rewrite (bind_eq _ _ _ rs k) by by apply wrapM_ok.
  rewrite (bind_eq _ _ _ () k).
  - apply for_each_idle. intros s Hs. apply list_elem_of_lookup in Hs as [i Hi].
    destruct (Forall2_lookup_r _ _ _ _ _ Hl Hi) as (r & Hr & Hc). unfold add_route.
    by rewrite (bind_eq _ _ _ true k)
      by (eapply route_in_current; [by eapply list_elem_of_lookup_2|by apply captured_matches]).
  - apply for_each_idle. intros r Hr. apply list_elem_of_lookup in Hr as [i Hi].
    destruct (Forall2_lookup_l _ _ _ _ _ Hl Hi) as (s & Hs & Hc). unfold remove_route.
    case_match; [done|]. by rewrite (bind_eq _ _ _ true k)
      by (eapply route_exists; [by eapply list_elem_of_lookup_2|by apply captured_matches]).
Qed.

Lemma containsString_in l s : containsString l s = true ↔ s ∈ l.
Proof.
  unfold containsString. rewrite existsb_exists. split.
  - by intros (x & Hx%list_elem_of_In & ->%bool_decide_eq_true).
  - intros Hs. exists s. split; [by apply list_elem_of_In|by apply bool_decide_eq_true].
Qed.

Lemma restoreIPAddresses_captured l addrs k :
  k_AddrList l k = (Ok addrs, k) →
  restoreIPAddresses l (IPNet_String <$> addrs) k = (Ok (), k).
Proof.
  intros Ha. unfold restoreIPAddresses. rewrite (bind_eq _ _ _ addrs k) by by apply wrapM_ok.
  rewrite (bind_eq _ _ _ () k).
  - apply for_each_idle. intros a Hin%list_elem_of_fmap. destruct Hin as (x & -> & Hx).
    rewrite (proj2 (existsb_exists _ _)); [done|]. exists x.
    split; [by apply list_elem_of_In|by apply bool_decide_eq_true].
  - apply for_each_idle. intros a Hin.
    by rewrite (proj2 (containsString_in _ _)) by by apply list_elem_of_fmap_2.
Qed.
Lemma restoreBridgePorts_captured b ports k :
  bridge_ports (lk_Name b) k = (Ok ports, k) → restoreBridgePorts b ports k = (Ok (), k).
Proof.
  intros Hp. unfold restoreBridgePorts. rewrite (bind_eq _ _ _ ports k) by by apply wrapM_ok.
  rewrite (bind_eq _ _ _ () k); apply for_each_idle; intros p Hin;
    by rewrite (proj2 (containsString_in _ _)).
Qed.

Lemma capture_type_ports l k type ports vid parent :
  capture_type l k = (Ok (type, ports, vid, parent), k) → type = "bridge" → ports ≠ [] →
  bridge_ports (lk_Name l) k = (Ok ports, k).
Proof.
  unfold capture_type. intros E -> Hne. case_bool_decide.
  - apply reads_inv in E as (r & E & E'); [|apply reads_finds, finds_attempt, reads_bridge_ports].
    injection E' as <-. unfold attempt in E.
    destruct (bridge_ports (lk_Name l) k) as [[ports|e|w] k'] eqn:Eb; try done; injection E as <- <-; done.
  - case_bool_decide; [|case_bool_decide; by injection E].
    apply reads_inv in E as (r & E & E'); [done|]. apply reads_finds, finds_attempt, reads_LinkByIndex.
Qed.

Lemma restoreInterfaceState_captured l snap links k :
  captureInterfaceState l k = (Ok snap, k) → links !! lk_Name l = Some l →
  restoreInterfaceState snap links k = (Ok (), k).
Proof.
  intros E Hl. unfold captureInterfaceState in E.
  apply reads_inv in E as (addrs & Ea & E); [|apply reads_wrapM, reads_AddrList].
  apply wrapM_ok in Ea.
  apply reads_inv in E as (routes & _ & E); [|apply reads_finds, finds_attempt, reads_RouteList].
  apply reads_inv in E as ([[[type ports] vid] parent] & Et & E);
    [|apply reads_finds, finds_capture_type].
  injection E as <-. unfold restoreInterfaceState. cbn [is_Name]. rewrite Hl. cbn.
  rewrite Z.eqb_refl. cbn [negb].
  assert (bool_decide (up_down (lk_Up l) = "up") = lk_Up l) as -> by by destruct (lk_Up l).
  rewrite Bool.eqb_reflx. cbn [negb].
  rewrite (bind_eq _ _ _ () k), (bind_eq _ _ _ () k), (bind_eq _ _ _ () k); [|..|done|done].
  2:{ apply wrapM_ok. by apply restoreIPAddresses_captured. }
  case_bool_decide as Ht; [|done]. case_bool_decide as Hp; [done|]. cbn.
  apply wrapM_ok, restoreBridgePorts_captured. by eapply capture_type_ports.
Qed.

(** The captured interfaces, when every link's addresses could be listed. *)
Lemma capture_links_spec links k : ∀ m m',
  NoDup (lk_Name <$> links) →
  (∀ l, l ∈ links → ∃ a, k_AddrList l k = (Ok a, k)) →
  capture_links links m k = (Ok m', k) →
  (∀ l, l ∈ links → lk_Name l ≠ "lo" →
     ∃ snap, m' !! lk_Name l = Some snap ∧ captureInterfaceState l k = (Ok snap, k)) ∧
  (∀ n, n = "lo" ∨ n ∉ lk_Name <$> links → m' !! n = m !! n).
Proof.
  induction links as [|l links IH]; intros m m' Hnd Ha; cbn [capture_links].
  { intros [= <-]. split; [by intros l ?%not_elem_of_nil|done]. }
  rewrite fmap_cons in Hnd. apply NoDup_cons in Hnd as [Hni Hnd].
  assert (∀ l', l' ∈ links → ∃ a, k_AddrList l' k = (Ok a, k)) as Ha' by (intros; apply Ha; by right).
  case_bool_decide as Hlo.
  - intros E. destruct (IH m m' Hnd Ha' E) as [HA HB]. split.
    + intros l' [->|Hl']%elem_of_cons Hn; [done|by apply HA].
    + intros n Hn. apply HB. destruct Hn as [?|Hn]; [by left|right]. rewrite fmap_cons in Hn.
      intros Hin. apply Hn. by right.
  - destruct (reads_captureInterfaceState l k) as (r & Er & Hp).
    assert (∃ snap, r = Ok snap) as [snap ->].
    { destruct (Ha l) as [a Ea]; [by left|]. unfold captureInterfaceState in Er.
      rewrite (bind_eq _ _ _ a k) in Er by by apply wrapM_ok.
      match type of Er with ?c k = _ => assert (finds c) as Hf end.
      { apply finds_bind; [apply finds_attempt, reads_RouteList|]. intros ?.
        apply finds_bind; [apply finds_capture_type|]. intros [[[] ?] ?]. apply finds_ret. }
      destruct (Hf k) as [snap E']. rewrite E' in Er. injection Er as <-. by eexists. }
    rewrite (bind_eq _ _ _ (Ok snap) k) by by apply attempt_eq.
    intros E. destruct (IH _ m' Hnd Ha' E) as [HA HB]. split.
    + intros l' [->|Hl']%elem_of_cons Hn; [|by apply HA]. exists snap. split; [|done].
      rewrite HB by by right. apply lookup_insert_eq.
    + intros n Hn. rewrite fmap_cons, elem_of_cons in Hn. rewrite HB by tauto.
      apply lookup_insert_ne. intros <-. tauto.
Qed.

Lemma by_name_spec links : NoDup (lk_Name <$> links) →
  ∀ n l, by_name links !! n = Some l ↔ l ∈ links ∧ lk_Name l = n.
Proof.
  unfold by_name. intros Hnd.
  enough (∀ m : gmap string Link, (∀ l, l ∈ links → m !! lk_Name l = None) → ∀ n l,
    fold_left (λ m link, <[lk_Name link := link]> m) links m !! n = Some l ↔
    l ∈ links ∧ lk_Name l = n ∨ m !! n = Some l) as He.
  { intros n l. rewrite He by (intros; apply lookup_empty). rewrite lookup_empty. naive_solver. }
  induction links as [|x links IH]; intros m Hm n l; cbn [fold_left].
  { split; [by right|]. by intros [[?%not_elem_of_nil _]|?]. }
  rewrite fmap_cons in Hnd. apply NoDup_cons in Hnd as [Hni Hnd].
  rewrite IH; [|done|].
  - rewrite elem_of_cons. destruct (decide (lk_Name x = n)) as [<-|Hne].
    + rewrite lookup_insert_eq, Hm by by left. split.
      * intros [?|[= ->]]; left; tauto.
      * intros [[[->|Hl] Hn]|[=]]; [by right|]. destruct Hni. rewrite <- Hn. by apply list_elem_of_fmap_2.
    + rewrite lookup_insert_ne by done. split; [tauto|]. intros [[[->|Hl] Hn]|?]; tauto.
  - intros l' Hl'. rewrite lookup_insert_ne; [apply Hm; by right|]. intros Heq. destruct Hni.
    rewrite Heq. by apply list_elem_of_fmap_2.
Qed.

Lemma rollbackInterfaces_captured `{RangeOrder} links snaps k :
  k_LinkList k = (Ok links, k) → NoDup (lk_Name <$> links) →
  (∀ l, l ∈ links → ∃ a, k_AddrList l k = (Ok a, k)) →
  capture_links links ∅ k = (Ok snaps, k) →
  rollbackInterfaces snaps k = (Ok (), k).
Proof.
  intros Hl Hnd Ha Hc. destruct (capture_links_spec _ _ _ _ Hnd Ha Hc) as [Hin1 Hout].
  assert (∀ l, l ∈ links → lk_Name l ≠ "lo" → ∃ snap, snaps !! lk_Name l = Some snap ∧
    captureInterfaceState l k = (Ok snap, k) ∧ is_Existed snap = true ∧ is_Name snap = lk_Name l) as Hs.
  { intros l Hin Hn. destruct (Hin1 l Hin Hn) as (snap & Hsnap & E). exists snap.
    split; [done|]. split; [done|]. unfold captureInterfaceState in E.
    apply reads_inv in E as (addrs & Ea & E); [|apply reads_wrapM, reads_AddrList].
    apply reads_inv in E as (routes & _ & E); [|apply reads_finds, finds_attempt, reads_RouteList].
    apply reads_inv in E as ([[[type ports] vid] parent] & Et & E);
      [|apply reads_finds, finds_capture_type]. by injection E as <-. }
  unfold rollbackInterfaces. rewrite (bind_eq _ _ _ links k) by by apply wrapM_ok.
  rewrite (bind_eq _ _ _ () k).
  - apply for_each_idle. intros [n snap] Hin%range_elem.
    assert (n ≠ "lo" ∧ n ∈ lk_Name <$> links) as [Hlo Hn].
    { destruct (decide (n = "lo" ∨ n ∉ lk_Name <$> links)) as [Hd|Hd].
      - rewrite Hout, lookup_empty in Hin by done. done.
      - destruct (decide (n ∈ lk_Name <$> links)); tauto. }
    apply list_elem_of_fmap in Hn as (l & -> & Hll). destruct (Hs l Hll Hlo) as (s' & Hs' & E & He & _).
    assert (s' = snap) as -> by congruence. cbn. rewrite He. unfold logged.
    rewrite (bind_eq _ _ _ (Ok ()) k); [done|]. apply attempt_eq; [|done].
    eapply restoreInterfaceState_captured; [done|]. by apply by_name_spec.
  - apply for_each_idle. intros [n l] Hin%range_elem.
    apply by_name_spec in Hin as [Hin <-]; [|done]. unfold remove_created. cbn.
    case_bool_decide as Hlo; [done|]. destruct (Hs l Hin Hlo) as (s' & -> & _ & He & _). by rewrite He.
Qed.
End reads.

Lemma restore_part_idle `{ReadLaws} name scope m errors k :
  m k = (Ok (), k) → restore_part name scope m errors k = (Ok errors, k).
Proof.
  intros E. unfold restore_part. case_match; [|done].
  rewrite (bind_eq _ _ _ (Ok ()) k); [done|]. by apply attempt_eq.
Qed.

(** ** Lemmas: restoring addresses *)

Section addresses.
Context `{LinkLaws}.

Lemma same_addr_string a b :
  same_addr a b → prefix_mask (net_Mask a) → IPNet_String b = IPNet_String a.
Proof.
  intros [Hip Hm] Hp. unfold IPNet_String. rewrite (Hm Hp).
  assert (default (net_IP b) (To4 (net_IP b)) = default (net_IP a) (To4 (net_IP a))) as ->; [|done].
  revert Hip. unfold IP_Equal. destruct (To4 (net_IP b)), (To4 (net_IP a)); cbn; try done;
    by intros ?%bool_decide_eq_true.
Qed.

(** What a kernel does for which address calls only fail when they must: the
    address to delete is missing, or the address to add is there. *)
Class AddressesWork : Prop := {
  aw_AddrList l k : ∃ a, k_AddrList l k = (Ok a, k);
  aw_AddrDel l a k : a ∈ addrs_of k (lk_Index l) → ∃ k', k_AddrDel l a k = (Ok (), k');
  aw_AddrAdd l a k : (∀ b, b ∈ addrs_of k (lk_Index l) → IPNet_String b ≠ IPNet_String a) →
    ∃ k', k_AddrAdd l a k = (Ok (), k');
  aw_promotes : promotes;
}.
Context `{AddressesWork}.

Definition addr_strings (k : kernel) (i : Z) : list string := IPNet_String <$> addrs_of k i.

(** The first loop: the addresses not in the snapshot go. *)
Lemma wp_remove_addresses l keep todo k :
  NoDup todo → (∀ a, a ∈ todo → a ∈ addrs_of k (lk_Index l)) →
  wp (for_each todo (λ current,
      if containsString keep (IPNet_String current) then mret () else logged (k_AddrDel l current)))
    k (λ _ k', only_link (lk_Index l) k k' ∧ ∀ a, a ∈ addrs_of k' (lk_Index l) ↔
        a ∈ addrs_of k (lk_Index l) ∧ (a ∉ todo ∨ IPNet_String a ∈ keep)) (λ _, False).
Proof.
  intros Hnd Hin. eapply (wp_mono _ _ _ _ (λ _, False)).
  - apply (wp_for_each (λ don rest k', don ++ rest = todo ∧ only_link (lk_Index l) k k' ∧
      ∀ a, a ∈ addrs_of k' (lk_Index l) ↔
        a ∈ addrs_of k (lk_Index l) ∧ (a ∉ don ∨ IPNet_String a ∈ keep)) _ _ _ []).
    { split_and!; [done..|]. intros a. split; [|by intros [? _]]. intros ?. split; [done|left].
      apply not_elem_of_nil. }
    intros don a rest k1 (Hsplit & Ho & Hk1). rewrite cons_middle, app_assoc in Hsplit.
    assert (a ∉ don) as Hfresh.
    { rewrite <- Hsplit in Hnd. apply NoDup_app in Hnd as [Hnd _]. apply NoDup_app in Hnd as (_ & Hd & _).
      intros Ha. apply (Hd a Ha). by left. }
    assert (a ∈ addrs_of k (lk_Index l)) as Hak.
    { apply Hin. rewrite <- Hsplit, !elem_of_app. left. right. by left. }
    destruct (containsString keep (IPNet_String a)) eqn:Hc.
    + apply containsString_in in Hc. apply wp_ret. split_and!; [done|done|]. intros b.
      rewrite Hk1, elem_of_app, list_elem_of_singleton. split; [|tauto].
      intros [? [?|?]]; [|tauto]. destruct (decide (b = a)) as [->|]; tauto.
    + assert (IPNet_String a ∉ keep) as Hc'.
      { intros Hk. apply containsString_in in Hk. congruence. }
      destruct (aw_AddrDel l a k1) as [k2 E]; [apply Hk1; tauto|].
      apply wp_bind, wp_attempt. unfold wp. rewrite E. apply wp_ret.
      pose proof (ll_AddrDel _ _ _ _ _ E) as (_ & Hl & Hi & Hr). cbn in Hr.
      split; [done|]. split; [by eapply only_link_trans|]. intros b.
      rewrite elem_of_app, list_elem_of_singleton. split.
      * intros Hb. destruct (Hr b Hb) as [Hb1 Hne]. apply Hk1 in Hb1. tauto.
      * intros [Hb Hor]. destruct (decide (b = a)) as [->|Hne]; [tauto|].
        eapply aw_promotes; [done| |done]. apply Hk1. tauto.
  - cbv beta. intros _ k' (_ & Ho & Hk'). split; [done|]. exact Hk'.
  - done.
Qed.

(** The second loop: the missing addresses of the snapshot come. *)
Lemma wp_add_addresses l current todo k :
  (∀ s, s ∈ todo → ∃ a, k_ParseAddr s = Ok a ∧ IPNet_String a = s ∧ prefix_mask (net_Mask a)) →
  (∀ s, s ∈ todo → s ∈ IPNet_String <$> current ↔ s ∈ addr_strings k (lk_Index l)) →
  NoDup todo →
  wp (for_each todo (λ addrStr,
      if existsb (λ current, bool_decide (IPNet_String current = addrStr)) current then mret ()
      else match k_ParseAddr addrStr with
           | Ok addr => logged (k_AddrAdd l addr)
           | Err _ => mret ()
           | Panic w => lift (Panic w)
           end)) k (λ _ k', only_link (lk_Index l) k k' ∧ ∀ s, s ∈ addr_strings k' (lk_Index l) ↔
        s ∈ addr_strings k (lk_Index l) ∨ s ∈ todo) (λ _, False).
Proof.
  intros Hparse Hcur Hnd. eapply (wp_mono _ _ _ _ (λ _, False)).
  - apply (wp_for_each (λ don rest k', don ++ rest = todo ∧ only_link (lk_Index l) k k' ∧
      ∀ s, s ∈ addr_strings k' (lk_Index l) ↔ s ∈ addr_strings k (lk_Index l) ∨ s ∈ don) _ _ _ []).
    { split_and!; [done..|]. intros s. split; [by left|]. by intros [?|?%not_elem_of_nil]. }
    intros don s rest k1 (Hsplit & Ho & Hk1). rewrite cons_middle, app_assoc in Hsplit.
    assert (s ∈ todo) as Hs. { rewrite <- Hsplit, !elem_of_app. left. right. by left. }
    assert (s ∉ don) as Hfresh.
    { rewrite <- Hsplit in Hnd. apply NoDup_app in Hnd as [Hnd _]. apply NoDup_app in Hnd as (_ & Hd & _).
      intros Ha. apply (Hd s Ha). by left. }
    assert (existsb (λ current, bool_decide (IPNet_String current = s)) current = true ↔
      s ∈ addr_strings k (lk_Index l)) as Hex.
    { rewrite existsb_exists, <- Hcur, list_elem_of_fmap by done. split.
      - intros (x & Hx%list_elem_of_In & <-%bool_decide_eq_true). by exists x.
      - intros (x & -> & Hx). exists x. by rewrite bool_decide_eq_true, <- list_elem_of_In. }
    destruct (existsb _ current).
    + apply wp_ret. split_and!; [done|done|]. intros t.
      rewrite Hk1, elem_of_app, list_elem_of_singleton. split; [tauto|].
      intros [?|[?| ->]]; [tauto..|]. left. by apply Hex.
    + destruct (Hparse s Hs) as (a & -> & Has & Hm).
      assert (s ∉ addr_strings k1 (lk_Index l)) as Hns.
      { rewrite Hk1. intros [Hn|?]; [|done]. by apply Hex in Hn. }
      destruct (aw_AddrAdd l a k1) as [k2 E].
      { intros b Hb Heq. apply Hns. rewrite <- Has, <- Heq. by apply list_elem_of_fmap_2. }
      apply wp_bind, wp_attempt. unfold wp. rewrite E. apply wp_ret.
      pose proof (ll_AddrAdd _ _ _ _ _ E) as (_ & Hl & Hi & a' & Ha' & Hr).
      split; [done|]. split; [by eapply only_link_trans|]. intros t. unfold addr_strings at 1.
      rewrite Hr, fmap_cons, elem_of_cons, (same_addr_string _ _ Ha' Hm), Has, elem_of_app,
        list_elem_of_singleton.
      fold (addr_strings k1 (lk_Index l)). rewrite Hk1. tauto.
  - cbv beta. intros _ k' (_ & Ho & Hk'). split; [done|]. exact Hk'.
  - done.
Qed.

Lemma wp_restoreIPAddresses l snapshotAddrs k :
  NoDup (addrs_of k (lk_Index l)) → NoDup snapshotAddrs →
  (∀ s, s ∈ snapshotAddrs →
     ∃ a, k_ParseAddr s = Ok a ∧ IPNet_String a = s ∧ prefix_mask (net_Mask a)) →
  wp (restoreIPAddresses l snapshotAddrs) k (λ _ k', only_link (lk_Index l) k k' ∧
    ∀ s, s ∈ addr_strings k' (lk_Index l) ↔ s ∈ snapshotAddrs) (λ _, False).
Proof.
  intros Hnd Hnd' Hparse. unfold restoreIPAddresses.
  destruct (aw_AddrList l k) as [addrs Ea]. apply wp_bind, wp_wrapM. unfold wp at 1. rewrite Ea.
  apply kl_AddrList in Ea as (_ & _ & Ha). specialize (Ha addrs eq_refl) as ->.
  apply wp_bind. eapply wp_mono; [by apply wp_remove_addresses| |done]. cbv beta.
  intros _ k1 (Ho1 & Hk1).
  assert (∀ s, s ∈ addr_strings k1 (lk_Index l) ↔
    s ∈ addr_strings k (lk_Index l) ∧ s ∈ snapshotAddrs) as Hs1.
  { intros s. unfold addr_strings. rewrite !list_elem_of_fmap. split.
    - intros (a & -> & Hin%Hk1). split; [exists a|]; tauto.
    - intros [(a & -> & Hin) Hs]. exists a. split; [done|]. apply Hk1. tauto. }
  eapply wp_mono; [apply wp_add_addresses; [done| |done]| |done].
  - intros s Hs. rewrite Hs1. unfold addr_strings. tauto.
  - cbv beta. intros _ k2 (Ho2 & Hk2). split; [by eapply only_link_trans|].
    intros s. rewrite Hk2, Hs1. tauto.
Qed.
End addresses.

Lemma restore_captured `{ReadLaws} `{RangeOrder} now snapshot k r k' :
  NoDup (lk_Name <$> links_of k) →
  (∀ l, l ∈ links_of k → ∃ a, k_AddrList l k = (Ok a, k)) →
  CaptureSystemSnapshot now k = (Ok snapshot, k) →
  k_WriteFile ip_forward_path (if ss_IPForwarding snapshot then "1" else "0") k = (r, k') →
  no_panic r →
  (RestoreSnapshot snapshot ["all"] k).2 = k' ∧
  (r = Ok () → (RestoreSnapshot snapshot ["all"] k).1 = Ok ()).
Proof.
  intros Hnd Ha Hc Hw Hr. unfold CaptureSystemSnapshot in Hc.
  apply reads_inv in Hc as (data & _ & Hc); [|apply reads_finds, finds_attempt, reads_ReadFile].
  apply reads_inv in Hc as (links & Hl & Hc); [|apply reads_wrapM, reads_LinkList].
  apply wrapM_ok in Hl. pose proof (kl_LinkList _ _ _ Hl) as (_ & _ & Hl').
  specialize (Hl' links eq_refl) as ->.
  apply reads_inv in Hc as (snaps & Hs & Hc); [|apply reads_finds, finds_capture_links].
  apply reads_inv in Hc as (routes & Hrs & Hc); [|apply reads_wrapM, reads_RouteList].
  apply wrapM_ok in Hrs.
  apply reads_inv in Hc as (rsnaps & Hrc & Hc); [|apply reads_finds, finds_capture_routes].
  assert (ss_Interfaces snapshot = Some snaps ∧ ss_Routes snapshot = rsnaps) as [Hi Hro].
  { unfold mbind, M_bind, attempt in Hc.
    destruct (k_Run _ _ k) as [[?|?|?] ?]; [| |done]; by injection Hc as <- _. }
  unfold RestoreSnapshot. rewrite Hi, Hro. cbn [gm].
  rewrite (bind_eq _ _ _ [] k) by by eapply restore_part_idle, rollbackRoutes_captured.
  rewrite (bind_eq _ _ _ [] k) by by eapply restore_part_idle, rollbackInterfaces_captured.
  unfold restore_part, rollbackIPForwarding, mbind, M_bind, attempt, wrapM.
  change (containsScope ["all"] "ipforward" || containsScope ["all"] "all") with true.
  cbv beta iota. rewrite Hw.
  by destruct r as [[]|e|w].
Qed.

(** ** Properties *)

(** Restoring everything from a snapshot that was just captured does nothing
    but write the captured setting of IP forwarding: no route, address, link or
    port is touched, whatever kind of links there are.  (Names are unique, and
    the addresses of every link can be listed: a link for which that fails is
    not captured, and the restore deletes it.) *)
Theorem RestoreSnapshot_captured `{ReadLaws} `{RangeOrder} now snapshot k r k' :
  NoDup (lk_Name <$> links_of k) →
  (∀ l, l ∈ links_of k → ∃ a, k_AddrList l k = (Ok a, k)) →
  CaptureSystemSnapshot now k = (Ok snapshot, k) →
  k_WriteFile ip_forward_path (if ss_IPForwarding snapshot then "1" else "0") k = (r, k') →
  no_panic r →
  (RestoreSnapshot snapshot ["all"] k).2 = k' ∧
  (r = Ok () → (RestoreSnapshot snapshot ["all"] k).1 = Ok ()).
Proof. apply restore_captured. Qed.

(** Where address calls fail only when they must, restoring the addresses of
    a link gives it exactly the addresses of the snapshot, and changes nothing
    else. *)
Theorem restoreIPAddresses_exact `{LinkLaws} `{!AddressesWork} l snapshotAddrs k :
  NoDup (addrs_of k (lk_Index l)) → NoDup snapshotAddrs →
  (∀ s, s ∈ snapshotAddrs →
     ∃ a, k_ParseAddr s = Ok a ∧ IPNet_String a = s ∧ prefix_mask (net_Mask a)) →
  ∃ k', restoreIPAddresses l snapshotAddrs k = (Ok (), k') ∧ only_link (lk_Index l) k k' ∧
    ∀ s, s ∈ IPNet_String <$> addrs_of k' (lk_Index l) ↔ s ∈ snapshotAddrs.
Proof.
  intros Hnd Hnd' Hp. pose proof (wp_restoreIPAddresses l snapshotAddrs k Hnd Hnd' Hp) as Hw.
  revert Hw. unfold wp. destruct (restoreIPAddresses _ _ k) as [[[]|e|w] k']; [|done..].
  intros [Ho Hs]. by exists k'.
Qed.

(** ** The properties at concrete inputs *)

Definition captured_bridge : SystemSnapshot :=
  match @CaptureSystemSnapshot memory_kernel 1000000000000 bridge_kernel with
  | (Ok s, _) => s
  | _ => {| ss_Timestamp := 0; ss_CheckpointID := ""; ss_IPForwarding := false;
            ss_Interfaces := None; ss_Routes := []; ss_NftablesRules := "" |}
  end.
Lemma RestoreSnapshot_captured_witness :
  (@RestoreSnapshot memory_kernel default_order captured_bridge ["all"] bridge_kernel).2 =
  (@k_WriteFile memory_kernel ip_forward_path "0" bridge_kernel).2 ∧
  (@Ok () () = Ok () →
   (@RestoreSnapshot memory_kernel default_order captured_bridge ["all"] bridge_kernel).1 = Ok ()).
Proof.
  apply (@RestoreSnapshot_captured memory_kernel memory_laws memory_read_laws default_order
    1000000000000 captured_bridge bridge_kernel (Ok ())).
  - apply (bool_decide_unpack _). vm_compute. exact I.
  - intros l _. eexists. reflexivity.
  - vm_compute. reflexivity.
  - vm_compute. reflexivity.
  - exact I.
Defined.

Lemma memory_addresses_work : @AddressesWork memory_kernel memory_laws.
Proof.
  split.
  - intros l m. by eexists.
  - intros l a m Ha. cbn. rewrite decide_True by done. by eexists.
  - intros l a m Ha. cbn. rewrite decide_False; [by eexists|]. intros Hin. by apply (Ha a Hin).
  - exact memory_promotes.
Qed.
Lemma restoreIPAddresses_exact_witness :
  ∃ k', @restoreIPAddresses memory_kernel (sample_link 2 "br-lan" 0 "bridge")
      ["192.168.1.1/24"; "172.16.0.1/24"] bridge_kernel = (Ok (), k') ∧
    @only_link memory_kernel memory_laws 2 bridge_kernel k' ∧
    ∀ s, s ∈ IPNet_String <$> mem_addrs k' 2 ↔ s ∈ ["192.168.1.1/24"; "172.16.0.1/24"].
Proof.
  apply (@restoreIPAddresses_exact memory_kernel memory_laws memory_link_laws memory_addresses_work
    (sample_link 2 "br-lan" 0 "bridge")).
  - apply (bool_decide_unpack _). vm_compute. exact I.
  - apply (bool_decide_unpack _). vm_compute. exact I.
  - intros s Hs. apply elem_of_cons in Hs as [->|Hs]; [|apply list_elem_of_singleton in Hs as ->];
      (eexists; split; [vm_compute; reflexivity|]; split; [vm_compute; reflexivity|];
       exists 24; split; [lia|]; vm_compute; reflexivity).
Defined.

(** Findings: a bridge captured without ports keeps the ports it got since, and
    a link that was not captured is deleted. *)
Definition empty_bridge_kernel : Memory := {|
  mem_links := [sample_link 2 "br-lan" 0 "bridge"; sample_link 3 "lan1" 0 "device"];
  mem_addrs := λ _, []; mem_routes := []; mem_files := ∅;
|}.
Lemma rollback_keeps_new_port :
  match @CaptureSystemSnapshot memory_kernel 0 empty_bridge_kernel with
  | (Ok s, _) =>
      let k := (@addPortToBridge memory_kernel (sample_link 2 "br-lan" 0 "bridge") "lan1"
                  empty_bridge_kernel).2 in
      lk_MasterIndex <$> mem_links (@RestoreSnapshot memory_kernel default_order s ["all"] k).2
      = [0; 2]
  | _ => False
  end.
Proof. vm_compute. reflexivity. Qed.
Lemma rollback_deletes_uncaptured :
  mem_links (@rollbackInterfaces memory_kernel default_order ∅ empty_bridge_kernel).2 = [].
Proof. vm_compute. reflexivity. Qed.
