(* ===== verification/Interfaces.v ===== *)
(** * Interfaces: state/interfaces.go

    Loading the interfaces configuration and, on the first boot, making one from
    the links of the kernel.  The functions work on the configuration files and
    the kernel together.  The type assertions on a [netlink.Link] look at its
    [lk_Type].  Log output is not modelled. *)
From S2P Require Import Prelude GoStr GoNet Validation Types Json Value Struct Codec Path ConfigStore Netlink Routes Network Snapshot.

Section interfaces.
Context `{OS} `{Kernel}.

Definition in_files {A} (m : M FS A) : M (FS * kernel) A := λ s,
  match m s.1 with (r, fs) => (r, (fs, s.2)) end.
Definition in_links {A} (m : M kernel A) : M (FS * kernel) A := λ s,
  match m s.2 with (r, k) => (r, (s.1, k)) end.

(** ** Kinds of links *)

Definition isLoopback (link : Link) : bool :=
  bool_decide (lk_Name link = "lo") || lk_Loopback link.
Definition isBridge (link : Link) : bool := bool_decide (lk_Type link = "bridge").
Definition virtualPrefixes : list string :=
  ["veth"; "docker"; "tun"; "tap"; "wg"; "wg-"; "sit"; "teql"; "ip6tnl"; "gre"; "vlan";
   "macvlan"; "vxlan"].
Definition isVirtual (link : Link) : bool :=
  bool_decide (lk_Type link ∈ ["veth"; "tuntap"; "wireguard"]) ||
  existsb (has_prefix (lk_Name link)) virtualPrefixes.
Definition is_physical (link : Link) : bool :=
  negb (isLoopback link || isBridge link || isVirtual link).

(** ** Detection *)

(** Strategy 1: the link of the first default route that is no loopback. *)
Fixpoint default_route_link (routes : list NRoute) : M kernel (option Link) :=
  match routes with
  | [] => mret None
  | route :: routes =>
      match nr_Dst route with
      | None =>
          if 0 <? nr_LinkIndex route then
            attempt (k_LinkByIndex (nr_LinkIndex route)) ≫= λ link,
            match link with
            | Ok link => if isLoopback link then default_route_link routes else mret (Some link)
            | _ => default_route_link routes
            end
          else default_route_link routes
      | Some _ => default_route_link routes
      end
  end.
(** Strategies 2 and 3: the first physical link that is up with an address, else
    the first physical one. *)
Fixpoint first_configured (links : list Link) (firstPhysical : option Link)
    : M kernel (option Link) :=
  match links with
  | [] => mret firstPhysical
  | link :: links =>
      if negb (is_physical link) then first_configured links firstPhysical else
      let firstPhysical := match firstPhysical with None => Some link | p => p end in
      if lk_Up link then
        attempt (k_AddrList link) ≫= λ addrs,
        match addrs with
        | Ok (_ :: _) => mret (Some link)
        | _ => first_configured links firstPhysical
        end
      else first_configured links firstPhysical
  end.
Definition detectWANInterface : M kernel Link :=
  attempt (k_RouteList None) ≫= λ routes,
  match routes with Ok routes => default_route_link routes | _ => mret None end ≫= λ found,
  match found with
  | Some link => mret link
  | None =>
      wrapM "failed to list network interfaces: " k_LinkList ≫= λ links,
      first_configured links None ≫= λ found,
      lift (ok_or (ErrorText "no suitable WAN interface found") found)
  end.
Definition detectLANInterfaces (wanIface : Link) : M kernel (list Link) :=
  wrapM "failed to list network interfaces: " k_LinkList ≫= λ links,
  mret (List.filter (λ link, negb (bool_decide (lk_Name link = lk_Name wanIface)) &&
                             is_physical link) links).

(** ** The default configuration *)

(** The [types.Interface] literals. *)
Definition new_interface (type device protocol ipaddr netmask gateway : string)
    (ports : list string) : Interface :=
  {| if_IPv6 := None; if_Gateway := gateway; if_Comment := ""; if_MAC := ""; if_Type := type;
     if_Device := device; if_DeviceName := device; if_Protocol := protocol; if_IPAddr := ipaddr;
     if_WGPrivateKey := ""; if_Netmask := netmask; if_BridgePorts := ports; if_DNS := [];
     if_WGPeers := []; if_Metric := 0; if_MTU := 0; if_BridgeForwardDelay := 0;
     if_VLANId := 0; if_WGListenPort := 0; if_Enabled := true; if_BridgeSTP := false |}.

(** Protocol, address and netmask to preserve. *)
Definition wan_address (addrs : res (list Addr)) : res (string * string * string) :=
  match addrs with
  | Ok (addr :: _) =>
      match ParseCIDR (IPNet_String addr) with
      | Ok (ip, ipNet) => Ok ("static", IP_String ip, IP_String (net_Mask ipNet))
      | Err _ => Ok ("dhcp", "", "")
      | Panic w => Panic w
      end
  | _ => Ok ("dhcp", "", "")
  end.
Definition is_wan_gateway (wanIface : Link) (route : NRoute) : bool :=
  match nr_Dst route with None => true | Some dst => bool_decide (IPNet_String dst = "0.0.0.0/0") end
  && match nr_Gw route with [] => false | _ => true end
  && (nr_LinkIndex route =? lk_Index wanIface).
Definition wan_gateway (wanIface : Link) (routes : res (list NRoute)) : string :=
  match routes with
  | Ok routes =>
      match List.find (is_wan_gateway wanIface) routes with
      | Some route => IP_String (nr_Gw route)
      | None => ""
      end
  | _ => ""
  end.
Definition lan_interface (lanIfaces : list Link) : Interface :=
  new_interface "bridge" "br-lan" "static" "192.168.1.1" "255.255.255.0" ""
    (lk_Name <$> lanIfaces).

(** A link was detected when this is reached, so the configuration is never
    empty. *)
Definition generateDefaultInterfacesConfig : M kernel InterfacesConfig :=
  wrapM "failed to detect WAN interface: " detectWANInterface ≫= λ wanIface,
  wrapM "failed to detect LAN interfaces: " (detectLANInterfaces wanIface) ≫= λ lanIfaces,
  attempt (k_AddrList wanIface) ≫= λ addrs,
  lift (wan_address addrs) ≫= λ '(protocol, ipaddr, netmask),
  attempt (k_RouteList None) ≫= λ routes,
  let wan := new_interface "physical" (lk_Name wanIface) protocol ipaddr netmask
               (wan_gateway wanIface routes) [] in
  let interfaces := {["wan" := wan]} in
  let interfaces :=
    match lanIfaces with [] => interfaces | _ => <["lan" := lan_interface lanIfaces]> interfaces end in
  mret {| ic_Interfaces := Some interfaces; ic_Version := "1.0" |}.

(** A configuration that cannot be saved is used all the same. *)
Definition LoadInterfacesConfig : M (FS * kernel) InterfacesConfig :=
  attempt (in_files (LoadConfig Unmarshal_InterfacesConfig "interfaces")) ≫= λ loaded,
  match loaded with
  | Err err =>
      if errors_Is err ErrNotExist then
        wrapM "failed to generate default interfaces config: "
          (in_links generateDefaultInterfacesConfig) ≫= λ defaultConfig,
        attempt (in_files (SaveConfig "interfaces" (enc_struct enc_config_field defaultConfig)))
          ≫= λ _,
        mret defaultConfig
      else fail err
  | Panic w => lift (Panic w)
  | Ok config =>
      mret {| ic_Interfaces := Some (gm (ic_Interfaces config)); ic_Version := ic_Version config |}
  end.
End interfaces.

(** ** Lemmas: detection *)

Section detect.
Context `{ReadLaws}.

(** What was found, when something was. *)
Lemma reads_default_route_link routes : ∀ k, ∃ found, default_route_link routes k = (Ok found, k) ∧
  ∀ l, found = Some l → isLoopback l = false ∧ l ∈ links_of k ∧
    ∃ route, route ∈ routes ∧ nr_Dst route = None ∧ nr_LinkIndex route = lk_Index l.
Proof.
  induction routes as [|route routes IH]; intros k; cbn; [by eexists|].
  assert (∃ found, default_route_link routes k = (Ok found, k) ∧
    ∀ l, found = Some l → isLoopback l = false ∧ l ∈ links_of k ∧
      ∃ x, x ∈ route :: routes ∧ nr_Dst x = None ∧ nr_LinkIndex x = lk_Index l) as Hrest.
  { destruct (IH k) as (found & E & Hf). exists found. split; [done|]. intros l Hl.
    destruct (Hf l Hl) as (? & ? & x & ? & ? & ?). split_and!; [done..|]. exists x.
    split; [by right|done]. }
  destruct (nr_Dst route) eqn:Hd; [done|]. case_match; [|done].
  destruct (k_LinkByIndex (nr_LinkIndex route) k) as [r k'] eqn:E.
  pose proof (rl_LinkByIndex _ _ _ _ E) as (-> & Hnp & Hl).
  rewrite (bind_eq _ _ _ _ _ (attempt_eq _ _ _ _ E Hnp)). destruct r as [l|e|w]; [|done..].
  destruct (isLoopback l) eqn:Hlo; [done|]. exists (Some l). split; [done|]. intros l' [= <-].
  destruct (Hl l eq_refl) as [Hin Hi]. split_and!; [done..|]. exists route. split; [by left|done].
Qed.
Lemma reads_first_configured links : ∀ first k, ∃ found,
  first_configured links first k = (Ok found, k) ∧
  ∀ l, found = Some l → first = Some l ∨ (l ∈ links ∧ is_physical l = true).
Proof.
  induction links as [|link links IH]; intros first k; cbn; [exists first; by split; [|left]|].
  assert (∀ f, (∀ l, f = Some l → first = Some l ∨ (l = link ∧ is_physical l = true)) →
    ∃ found, first_configured links f k = (Ok found, k) ∧
    ∀ l, found = Some l → first = Some l ∨ (l ∈ link :: links ∧ is_physical l = true)) as Hrest.
  { intros f Hf. destruct (IH f k) as (found & E & Hfound). exists found. split; [done|].
    intros l Hl. destruct (Hfound l Hl) as [Hl'|[? ?]]; [|right; split; [by right|done]].
    destruct (Hf l Hl') as [?|[-> ?]]; [by left|right; split; [by left|done]]. }
  destruct (is_physical link) eqn:Hp; cbn [negb]; [|apply Hrest; auto].
  assert (∀ l, match first with None => Some link | p => p end = Some l →
    first = Some l ∨ (l = link ∧ is_physical l = true)) as Hf.
  { destruct first; [auto|]. intros l [= <-]. by right. }
  destruct (lk_Up link); [|by apply Hrest].
  destruct (reads_AddrList link k) as (r & E & Hnp).
  rewrite (bind_eq _ _ _ _ _ (attempt_eq _ _ _ _ E Hnp)). destruct r as [[|a addrs]|e|w]; [by apply Hrest| |by apply Hrest|done].
  exists (Some link). split; [done|]. intros l [= <-]. right. split; [by left|done].
Qed.

(** The WAN link: no loopback, and physical unless a default route goes
    through it. *)
Definition wan_link (k : kernel) (l : Link) : Prop :=
  l ∈ links_of k ∧ isLoopback l = false ∧
  (is_physical l = true ∨
   ∃ route, route ∈ routes_of k ∧ nr_Dst route = None ∧ nr_LinkIndex route = lk_Index l).
Lemma physical_no_loopback l : is_physical l = true → isLoopback l = false.
Proof. unfold is_physical. by destruct (isLoopback l). Qed.

Lemma detectWANInterface_spec k : ∃ r, detectWANInterface k = (r, k) ∧ no_panic r ∧
  ∀ l, r = Ok l → wan_link k l.
Proof.
  unfold detectWANInterface.
  destruct (k_RouteList None k) as [rr k'] eqn:Er. apply kl_RouteList in Er as Hr.
  destruct Hr as (-> & Hnp & Hrs).
  rewrite (bind_eq _ _ _ _ _ (attempt_eq _ _ _ _ Er Hnp)).
  assert (∃ found, (match rr with Ok routes => default_route_link routes | _ => mret None end) k
      = (Ok found, k) ∧ ∀ l, found = Some l → wan_link k l) as (found & E & Hf).
  { destruct rr as [routes|e|w]; [|by eexists|done].
    destruct (reads_default_route_link routes k) as (found & E & Hf). exists found.
    split; [done|]. intros l Hl. destruct (Hf l Hl) as (Hlo & Hin & x & Hx & Hd & Hi).
    split_and!; [done..|]. right. exists x. rewrite (Hrs _ eq_refl) in Hx.
    by apply list_elem_of_filter in Hx as [_ Hx]. }
  rewrite (bind_eq _ _ _ _ _ E). destruct found as [l|].
  { exists (Ok l). split_and!; [done..|]. intros l' [= <-]. auto. }
  destruct (k_LinkList k) as [rl k'] eqn:El. apply kl_LinkList in El as Hl.
  destruct Hl as (-> & Hnp' & Hls). rewrite (bind_wrap_eq _ _ _ _ _ _ El).
  destruct rl as [links|e|w]; [|by eexists|done].
  destruct (reads_first_configured links None k) as (found & E' & Hf').
  rewrite (bind_eq _ _ _ _ _ E'). eexists. split; [done|].
  destruct found as [l|]; [|done]. split; [done|]. intros l' [= <-].
  destruct (Hf' l eq_refl) as [?|[Hin Hp]]; [done|]. rewrite (Hls _ eq_refl) in Hin.
  split; [done|]. split; [by apply physical_no_loopback|by left].
Qed.

Lemma detectLANInterfaces_spec wan k : ∃ r, detectLANInterfaces wan k = (r, k) ∧ no_panic r ∧
  ∀ l, r = Ok l → l = List.filter (λ link, negb (bool_decide (lk_Name link = lk_Name wan)) &&
                                         is_physical link) (links_of k).
Proof.
  unfold detectLANInterfaces, wrapM, mbind, M_bind. destruct (k_LinkList k) as [rl k'] eqn:El.
  apply kl_LinkList in El as (-> & Hnp & Hls). destruct rl as [links|e|w]; [|by eexists|done].
  eexists. split; [done|]. split; [done|]. intros l [= <-]. by rewrite (Hls _ eq_refl).
Qed.
Lemma wan_address_no_panic addrs : no_panic addrs → no_panic (wan_address addrs).
Proof.
  intros Hnp. unfold wan_address. destruct addrs as [[|a addrs]|e|w]; [done| |done..].
  pose proof (ParseCIDR_no_panic (IPNet_String a)). by destruct (ParseCIDR _) as [[]|e|w].
Qed.

(** The default configuration, from what was detected and what the kernel lists
    of the WAN link. *)
Definition default_config (wan : Link) (lan : list Link) (addr : string * string * string)
    (gateway : string) : InterfacesConfig :=
  let '(protocol, ipaddr, netmask) := addr in
  let interfaces := {["wan" := new_interface "physical" (lk_Name wan) protocol ipaddr netmask gateway []]} in
  {| ic_Interfaces := Some match lan with
                           | [] => interfaces
                           | _ => <["lan" := lan_interface lan]> interfaces end;
     ic_Version := "1.0" |}.
Lemma generateDefault_cases k : ∃ r, generateDefaultInterfacesConfig k = (r, k) ∧ no_panic r ∧
  ∀ c, r = Ok c → ∃ wan addrs addr routes, wan_link k wan ∧
    no_panic addrs ∧ (∀ l, addrs = Ok l → l = addrs_of k (lk_Index wan)) ∧
    wan_address addrs = Ok addr ∧
    no_panic routes ∧ (∀ l, routes = Ok l → l = filter (λ x, nr_Table x = MAIN_TABLE) (routes_of k)) ∧
    c = default_config wan (List.filter (λ link, negb (bool_decide (lk_Name link = lk_Name wan)) &&
                              is_physical link) (links_of k)) addr (wan_gateway wan routes).
Proof.
  unfold generateDefaultInterfacesConfig. destruct (detectWANInterface_spec k) as (rw & Ew & Hnw & Hw).
  rewrite (bind_wrap_eq _ _ _ _ _ _ Ew). destruct rw as [wan|e|w]; [|by eexists|done].
  destruct (detectLANInterfaces_spec wan k) as (rl & El & Hnl & Hl).
  rewrite (bind_wrap_eq _ _ _ _ _ _ El). destruct rl as [lan|e|w]; [|by eexists|done].
  destruct (k_AddrList wan k) as [addrs k1] eqn:Ea. apply kl_AddrList in Ea as Ha.
  destruct Ha as (-> & Hna & Ha).
  rewrite (bind_eq _ _ _ _ _ (attempt_eq _ _ _ _ Ea Hna)). pose proof (wan_address_no_panic _ Hna) as Hnad.
  destruct (wan_address addrs) as [addr|e|w] eqn:Ead; [|by eexists|done].
  rewrite (bind_eq (lift _) _ k addr k eq_refl).
  destruct (k_RouteList None k) as [routes k1] eqn:Er. apply kl_RouteList in Er as Hr.
  destruct Hr as (-> & Hnr & Hr).
  destruct addr as [[protocol ipaddr] netmask]. rewrite (bind_eq _ _ _ _ _ (attempt_eq _ _ _ _ Er Hnr)).
  eexists. split; [done|]. split; [done|]. intros c [= <-].
  exists wan, addrs, (protocol, ipaddr, netmask), routes. split_and!; try done; [by apply Hw|].
  by rewrite (Hl _ eq_refl).
Qed.
End detect.

(** ** Lemmas: the file *)

Lemma LoadConfig_frame `{OS} {A} (dec : json → res A) ns fs :
  fs_files (LoadConfig dec ns fs).2 = fs_files fs.
Proof.
  unfold LoadConfig, os_ReadFile, mbind, M_bind, wrapM, syscall, gets, lift. cbn.
  destruct (os_error _) as [[e b]|]; [done|]. by destruct (fs_files fs !! _).
Qed.
Lemma new_interface_wf type device protocol ipaddr netmask gateway ports :
  wf_iface (new_interface type device protocol ipaddr netmask gateway ports).
Proof. unfold wf_iface, wf_struct. repeat constructor. Qed.
Lemma default_config_wf wan lan addr gateway :
  wf_struct wf_config_field (default_config wan lan addr gateway).
Proof.
  destruct addr as [[protocol ipaddr] netmask]. apply Forall_cons. split; [|repeat constructor].
  cbn. change (gm (Some ?m)) with m. destruct lan.
  - apply (map_Forall_singleton (λ _, wf_iface)), new_interface_wf.
  - apply map_Forall_insert_2; [apply new_interface_wf|].
    apply (map_Forall_singleton (λ _, wf_iface)), new_interface_wf.
Qed.

(** A saved configuration is read back. *)
Lemma reload_saved `{OS} `{Kernel} c fs k :
  fs_files fs !! config_path "interfaces" = Some (CJson (enc_struct enc_config_field c)) →
  wf_struct wf_config_field c → is_Some (ic_Interfaces c) → os_error (fs_tick fs) = None →
  (LoadInterfacesConfig (fs, k)).1 = Ok c.
Proof.
  intros Hf Hwf [m Hm] Hos.
  assert ((LoadConfig Unmarshal_InterfacesConfig "interfaces" fs).1 = Ok c) as Hload.
  { eapply LoadConfig_read; [done|exact Hf|].
    by apply (dec_enc_struct_wf _ _ wf_config_field is_config_field _ dec_enc_config_field). }
  unfold LoadInterfacesConfig.
  destruct (LoadConfig Unmarshal_InterfacesConfig "interfaces" fs) as [r fs1] eqn:E.
  cbn in Hload. subst r.
  assert (in_files (LoadConfig Unmarshal_InterfacesConfig "interfaces") (fs, k) = (Ok c, (fs1, k)))
    as E' by by unfold in_files; cbn; rewrite E.
  rewrite (bind_eq _ _ _ _ _ (attempt_eq _ _ _ _ E' I)). cbn. destruct c as [ifs v].
  cbn in Hm. by rewrite Hm.
Qed.

Lemma safe_LoadInterfacesConfig `{OS} `{ReadLaws} : safe LoadInterfacesConfig.
Proof.
  assert (∀ A (m : M FS A), safe m → safe (in_files m : M (FS * kernel) A)) as Hf.
  { intros A m Hm s. specialize (Hm s.1). unfold in_files. by destruct (m s.1). }
  apply safe_attempt_bind; [by apply Hf, safe_LoadConfig, Unmarshal_InterfacesConfig_no_panic|].
  intros [c|e|w] Hnp; [auto with safe| |done]. case_match; [|auto with safe].
  apply safe_bind.
  - apply safe_wrapM. intros s. destruct (generateDefault_cases s.2) as (r & E & Hr & _).
    unfold in_links. by rewrite E.
  - intros c. apply safe_bind; [apply safe_attempt, Hf; auto with safe|]. auto with safe.
Qed.

(** ** Lemmas: what is detected is valid *)

Definition v4 (ip : IP) : Prop :=
  ∃ a b c d, Forall is_byte [a; b; c; d] ∧ To4 ip = Some [a; b; c; d].
Lemma v4_length ip a b c d : To4 ip = Some [a; b; c; d] → IP_String ip = dotted [a; b; c; d].
Proof. intros E. unfold IP_String. by rewrite E. Qed.
Lemma ValidateIP_v4 ip : v4 ip → ValidateIP (IP_String ip) = None.
Proof.
  intros (a & b & c & d & Hb & E). rewrite (v4_length _ _ _ _ _ E). unfold ValidateIP.
  rewrite bool_decide_eq_false_2 by apply dotted_not_empty. by rewrite ParseIP_dotted.
Qed.
Definition prefix_checks (n : Z) : bool :=
  bool_decide (mask_len (CIDRMask n 32) = Some n) && (length (CIDRMask n 32) =? 4)%nat &&
  match ValidateNetmask (IP_String (CIDRMask n 32)) with None => true | _ => false end.
Lemma mask_len_prefix n : 0 ≤ n ≤ 32 →
  mask_len (CIDRMask n 32) = Some n ∧ length (CIDRMask n 32) = 4%nat ∧
  ValidateNetmask (IP_String (CIDRMask n 32)) = None.
Proof.
  intros Hn. assert (forallb prefix_checks (seqZ 0 33) = true) as Hc by (vm_compute; reflexivity).
  rewrite forallb_forall in Hc. specialize (Hc n). unfold prefix_checks in Hc.
  rewrite !andb_true_iff, bool_decide_eq_true, Nat.eqb_eq in Hc.
  destruct Hc as [[? ?] Hv]; [apply list_elem_of_In, elem_of_seqZ; lia|].
  split_and!; [done..|]. by destruct (ValidateNetmask _).
Qed.
Lemma IPNet_String_v4 addr a b c d n :
  To4 (net_IP addr) = Some [a; b; c; d] → 0 ≤ n ≤ 32 → net_Mask addr = CIDRMask n 32 →
  IPNet_String addr = dotted [a; b; c; d] +:+ "/" +:+ itoa n.
Proof.
  intros E Hn Hm. unfold IPNet_String. rewrite E, Hm. destruct (mask_len_prefix n Hn) as (Hl & H4 & _).
  cbn [default from_option id]. rewrite H4. cbn [length Nat.eqb andb orb negb]. by rewrite Hl.
Qed.

Section valid.
Context `{ReadLaws}.
(** IPv4 addresses with a prefix length, and IPv4 gateways: what the listings of
    the IPv4 family have. *)
Record ipv4_kernel (k : kernel) : Prop := {
  v4_addrs i a : a ∈ addrs_of k i → v4 (net_IP a) ∧ prefix_mask (net_Mask a);
  v4_gateways x : x ∈ routes_of k → nr_Gw x = [] ∨ v4 (nr_Gw x);
}.
Lemma wan_address_valid addrs protocol ipaddr netmask :
  (∀ l, addrs = Ok l → ∀ a, a ∈ l → v4 (net_IP a) ∧ prefix_mask (net_Mask a)) →
  wan_address addrs = Ok (protocol, ipaddr, netmask) →
  (ipaddr ≠ "" → ValidateIP ipaddr = None) ∧ (netmask ≠ "" → ValidateNetmask netmask = None).
Proof.
  intros Ha. unfold wan_address. destruct addrs as [[|a l]|e|w]; [by intros [= <- <- <-]| |by intros [= <- <- <-]..].
  destruct (Ha _ eq_refl a) as [(b1 & b2 & b3 & b4 & Hb & E) (n & Hn & Hm)]; [by left|].
  rewrite (IPNet_String_v4 _ _ _ _ _ _ E Hn Hm), ParseCIDR_dotted by done.
  intros [= <- <- <-]. split; intros _.
  - apply ValidateIP_v4. by exists b1, b2, b3, b4.
  - apply (mask_len_prefix n Hn).
Qed.
Lemma wan_gateway_valid k wan routes :
  ipv4_kernel k → (∀ l, routes = Ok l → l = filter (λ x, nr_Table x = MAIN_TABLE) (routes_of k)) →
  wan_gateway wan routes ≠ "" → ValidateIP (wan_gateway wan routes) = None.
Proof.
  intros Hk Hr. unfold wan_gateway. destruct routes as [l|e|w]; [|done..].
  destruct (List.find _ l) as [x|] eqn:E; [|done]. intros _.
  apply List.find_some in E as [Hin Hx]. apply list_elem_of_In in Hin.
  rewrite (Hr _ eq_refl) in Hin. apply list_elem_of_filter in Hin as [_ Hin].
  destruct (v4_gateways _ Hk x Hin) as [Hg|Hg]; [|by apply ValidateIP_v4].
  unfold is_wan_gateway in Hx. rewrite Hg, andb_false_r in Hx. done.
Qed.
End valid.

(** ** Properties *)

(** C16: autodetection changes nothing in the kernel and never panics.  If it
    finds a configuration, its WAN link exists, is no loopback and is physical
    unless a default route goes through it; the bridge "lan" is there exactly
    when there is another physical link, and has exactly the other physical
    links as its ports; there are no other interfaces. *)
Theorem generateDefault_spec `{ReadLaws} k :
  ∃ r, generateDefaultInterfacesConfig k = (r, k) ∧ no_panic r ∧ ∀ c, r = Ok c →
    let interfaces := gm (ic_Interfaces c) in
    let ports wan := List.filter (λ link, negb (bool_decide (lk_Name link = lk_Name wan)) &&
                                          is_physical link) (links_of k) in
    ∃ wan w, wan_link k wan ∧ interfaces !! "wan" = Some w ∧ if_Device w = lk_Name wan ∧
      if_BridgePorts w = [] ∧
      match interfaces !! "lan" with
      | Some lan => ports wan ≠ [] ∧ if_Type lan = "bridge" ∧
          if_BridgePorts lan = lk_Name <$> ports wan ∧ lk_Name wan ∉ if_BridgePorts lan
      | None => ports wan = []
      end ∧
      ∀ n, is_Some (interfaces !! n) → n = "wan" ∨ n = "lan".
Proof.
  destruct (generateDefault_cases k) as (r & E & Hnp & Hr). exists r. split_and!; [done..|].
  intros c Hc. destruct (Hr c Hc) as (wan & addrs & [[protocol ipaddr] netmask] & routes & Hw & _ &
    _ & _ & _ & _ & ->). cbv zeta. unfold default_config. cbn [ic_Interfaces gm].
  remember (List.filter (λ link, negb (bool_decide (lk_Name link = lk_Name wan)) &&
    is_physical link) (links_of k)) as ports eqn:Hports. exists wan. rewrite <- Hports.
  assert (lk_Name wan ∉ lk_Name <$> ports) as Hwan.
  { rewrite Hports. intros (l & Hn & Hl%list_elem_of_In%List.filter_In)%list_elem_of_fmap.
    destruct Hl as [_ Hl]. rewrite bool_decide_eq_true_2 in Hl by done. done. }
  clear Hports. destruct ports as [|p ports]; repeat change (gm (Some ?m)) with m.
  - eexists. split; [done|]. split; [apply lookup_singleton_eq|]. do 2 (split; [done|]). split.
    + by rewrite lookup_singleton_ne by done.
    + intros n [x Hx]. apply lookup_singleton_Some in Hx as [<- _]. by left.
  - eexists. split; [done|].
    split; [rewrite lookup_insert_ne by done; apply lookup_singleton_eq|]. do 2 (split; [done|]). split.
    + by rewrite lookup_insert_eq.
    + intros n [x [[<- _]|[_ [<- _]%lookup_singleton_Some]]%lookup_insert_Some]; auto.
Qed.

(** C17: on a kernel whose addresses and gateways are IPv4, every interface of the
    configuration made on the first boot passes the validation a commit
    demands. *)
Theorem generateDefault_valid `{ReadLaws} k c k' :
  ipv4_kernel k → generateDefaultInterfacesConfig k = (Ok c, k') →
  ∀ n i, gm (ic_Interfaces c) !! n = Some i → Interface_Validate i = None.
Proof.
  intros Hk E. destruct (generateDefault_cases k) as (r & E' & _ & Hr). rewrite E in E'.
  injection E' as <- _. destruct (Hr c eq_refl) as (wan & addrs & [[protocol ipaddr] netmask] & routes
    & _ & _ & Ha & Had & _ & Hro & ->). unfold default_config. cbn [ic_Interfaces].
  assert (Interface_Validate (new_interface "physical" (lk_Name wan) protocol ipaddr netmask
    (wan_gateway wan routes) []) = None) as Hwan.
  { apply wan_address_valid in Had as [Hip Hm].
    - apply interface_valid. cbn. split_and!; try done; try lia; auto.
      by apply (wan_gateway_valid k).
    - intros l Hl a Hin. rewrite (Ha _ Hl) in Hin. by apply (v4_addrs _ Hk _ _ Hin). }
  intros n i. destruct (List.filter _ _) as [|p ports]; change (gm (Some ?m)) with m.
  - by intros [_ <-]%lookup_singleton_Some.
  - intros [[_ <-]|[_ [_ <-]%lookup_singleton_Some]]%lookup_insert_Some; [|done].
    apply interface_valid. cbn. split_and!; try done; lia.
Qed.
(** Loading the interfaces configuration never panics and leaves the kernel
    alone; a file that can be read and parsed is returned, an absent map made
    empty, and nothing is written.  On the first boot (the file is missing) the
    configuration returned, once it is saved, is the one every later load reads,
    whatever the kernel has become. *)
Theorem LoadInterfacesConfig_spec `{OS} `{ReadLaws} fs k :
  let path := config_path "interfaces" in
  ∃ r fs', LoadInterfacesConfig (fs, k) = (r, (fs', k)) ∧ no_panic r ∧
    (∀ c, (LoadConfig Unmarshal_InterfacesConfig "interfaces" fs).1 = Ok c →
       r = Ok {| ic_Interfaces := Some (gm (ic_Interfaces c)); ic_Version := ic_Version c |} ∧
       fs_files fs' = fs_files fs) ∧
    ∀ c, r = Ok c → fs_files fs !! path = None → is_Some (fs_files fs' !! path) →
      os_error (fs_tick fs') = None → ∀ k2, (LoadInterfacesConfig (fs', k2)).1 = Ok c.
Proof.
  intros path. unfold LoadInterfacesConfig at 1.
  pose proof (safe_LoadConfig Unmarshal_InterfacesConfig "interfaces"
    Unmarshal_InterfacesConfig_no_panic fs) as Hsafe.
  pose proof (LoadConfig_frame Unmarshal_InterfacesConfig "interfaces" fs) as Hframe.
  destruct (LoadConfig Unmarshal_InterfacesConfig "interfaces" fs) as [rl fs1] eqn:El.
  cbn in Hsafe, Hframe. assert (in_files (LoadConfig Unmarshal_InterfacesConfig "interfaces") (fs, k) =
    (rl, (fs1, k))) as El' by by unfold in_files; cbn; rewrite El.
  rewrite (bind_eq _ _ _ _ _ (attempt_eq _ _ _ _ El' Hsafe)).
  destruct rl as [c|e|w]; [|clear El'|done].
  { eexists _, fs1. split; [done|]. split; [done|]. split; [by intros ? [= <-]|].
    intros c' _ Hnone. rewrite Hframe. by intros [x Hx]; rewrite Hnone in Hx. }
  destruct (errors_Is e ErrNotExist).
  2: { eexists _, fs1. split; [done|]. split; [done|]. by split. }
  destruct (generateDefault_cases k) as (rg & Eg & Hng & Hg).
  assert (in_links generateDefaultInterfacesConfig (fs1, k) = (rg, (fs1, k))) as Eg'
    by by unfold in_links; cbn; rewrite Eg.
  rewrite (bind_wrap_eq _ _ _ _ _ _ Eg').
  destruct rg as [c|e'|w]; [| |done]; [|eexists _, fs1; split_and!; try done].
  pose proof (safe_SaveConfig "interfaces" (enc_struct enc_config_field c) fs1) as Hs.
  pose proof (SaveConfig_spec "interfaces" (enc_struct enc_config_field c) fs1) as Hspec.
  destruct (SaveConfig "interfaces" _ fs1) as [rs fs2] eqn:Es. cbn in Hs, Hspec.
  assert (in_files (SaveConfig "interfaces" (enc_struct enc_config_field c)) (fs1, k) =
    (rs, (fs2, k))) as Es' by by unfold in_files; cbn; rewrite Es.
  rewrite (bind_eq _ _ _ _ _ (attempt_eq _ _ _ _ Es' Hs)).
  eexists _, fs2. split; [done|]. split; [done|]. split; [done|].
  intros c' [= <-] Hnone Hsome Hos k2. rewrite Hframe in Hspec. fold path in Hspec.
  destruct rs as [[]|e'|w]; [|rewrite Hspec, Hnone in Hsome; by destruct Hsome..].
  destruct (Hg c eq_refl) as (wan & addrs & [[? ?] ?] & routes & _ & _ & _ & _ & _ & _ & ->).
  apply reload_saved; [exact Hspec|apply default_config_wf|by eexists|done].
Qed.

(** ** The properties at concrete inputs *)

Definition nic (i : Z) (n : string) (up loopback : bool) : Link :=
  {| lk_Index := i; lk_Name := n; lk_MTU := 1500; lk_MasterIndex := 0; lk_ParentIndex := 0;
     lk_Up := up; lk_Type := "device"; lk_VlanId := 0; lk_Loopback := loopback |}.
Definition default_via (dst : option IPNet) (gw : IP) (index : Z) : NRoute :=
  {| nr_Dst := dst; nr_Gw := gw; nr_LinkIndex := index; nr_Priority := 0; nr_Table := MAIN_TABLE;
     nr_Protocol := 4; nr_Scope := 0 |}.
(** A new machine: a loopback, eth0 with an address, eth1 and the default route. *)
Definition new_machine (dst : option IPNet) : Memory := {|
  mem_links := [nic 1 "lo" true true; nic 2 "eth0" true false; nic 3 "eth1" true false];
  mem_addrs := λ i, if i =? 2 then [net_24 [192; 0; 2; 10]]
                    else if i =? 3 then [net_24 [198; 51; 100; 7]] else [];
  mem_routes := [default_via dst [198; 51; 100; 1] 3]; mem_files := ∅;
|}.
Definition any_network : IPNet := {| net_IP := [0; 0; 0; 0]; net_Mask := [0; 0; 0; 0] |}.
Definition detected (dst : option IPNet) : InterfacesConfig :=
  match (@generateDefaultInterfacesConfig memory_kernel (new_machine dst)).1 with
  | Ok c => c | _ => {| ic_Interfaces := None; ic_Version := "" |} end.

Lemma new_machine_ipv4 dst : @ipv4_kernel memory_kernel memory_laws (new_machine dst).
Proof.
  assert (∀ a b c d, Forall is_byte [a; b; c; d] → v4 (net_IP (net_24 [a; b; c; d])) ∧
    prefix_mask (net_Mask (net_24 [a; b; c; d]))) as Hnet.
  { intros a b c d Hb. split; [by exists a, b, c, d|]. exists 24. split; [lia|]. vm_compute. reflexivity. }
  split.
  - intros i a. cbn. case_match; [|case_match]; intros Hin; [apply list_elem_of_singleton in Hin as ->..|by apply not_elem_of_nil in Hin];
      apply Hnet; repeat constructor; lia.
  - intros x Hx. apply list_elem_of_singleton in Hx as ->. right. exists 198, 51, 100, 1.
    split; [repeat constructor; lia|reflexivity].
Qed.
Lemma generateDefault_spec_witness :
  ∃ r, @generateDefaultInterfacesConfig memory_kernel (new_machine None) = (r, new_machine None) ∧
    no_panic r.
Proof.
  destruct (@generateDefault_spec memory_kernel memory_laws memory_read_laws (new_machine None))
    as (r & E & Hnp & _).
  exact (ex_intro _ r (conj E Hnp)).
Defined.
Lemma generateDefault_valid_witness :
  Interface_Validate (default zero_Interface (gm (ic_Interfaces (detected None)) !! "lan")) = None.
Proof.
  refine (@generateDefault_valid memory_kernel memory_laws memory_read_laws (new_machine None)
    (detected None) (new_machine None) (new_machine_ipv4 None) _ "lan" _ _);
    vm_compute; reflexivity.
Defined.
Lemma LoadInterfacesConfig_spec_witness :
  ∃ r fs', @LoadInterfacesConfig reliable_os memory_kernel
      ({| fs_files := ∅; fs_tick := 0 |}, new_machine None) = (r, (fs', new_machine None)) ∧ no_panic r.
Proof.
  destruct (@LoadInterfacesConfig_spec reliable_os memory_kernel memory_laws memory_read_laws
    {| fs_files := ∅; fs_tick := 0 |} (new_machine None)) as (r & fs' & E & Hnp & _).
  exact (ex_intro _ r (ex_intro _ fs' (conj E Hnp))).
Defined.

(** The WAN is the link of the default route when the library lists that route
    without a destination.  A finding: when it lists it with 0.0.0.0/0, as the
    search for the gateway expects, the first link with an address is taken, and
    its gateway is missing. *)
Example wan_by_default_route :
  (if_Device <$> gm (ic_Interfaces (detected None)) !! "wan") = Some "eth1" ∧
  (if_Gateway <$> gm (ic_Interfaces (detected None)) !! "wan") = Some "198.51.100.1".
Proof. split; vm_compute; reflexivity. Qed.
Example wan_misdetected :
  (if_Device <$> gm (ic_Interfaces (detected (Some any_network))) !! "wan") = Some "eth0" ∧
  (if_Gateway <$> gm (ic_Interfaces (detected (Some any_network))) !! "wan") = Some "" ∧
  (if_BridgePorts <$> gm (ic_Interfaces (detected (Some any_network))) !! "lan") = Some ["eth1"].
Proof. split_and!; vm_compute; reflexivity. Qed.
