(* ===== verification/Apply.v ===== *)
(** * Apply: apply, rollback and start-up (daemon/server.go)

    The daemon's world together with the kernel it configures, and the commands
    that act on both: apply with its rollback, rollback to a checkpoint,
    checkpoint creation, and what [Start] does before it accepts connections.
    [now] is the time of day at the capture of a snapshot.  Of the network
    observer only the time of the last own change matters here.  Log output is
    not modelled; an error that is only logged is dropped. *)
From S2P Require Import Prelude GoStr GoNet Types Json Value Struct Codec Path Diff ConfigStore State Registry Services Loader Order Server PluginCommands Observer Netlink Routes Network Snapshot.

Section apply.
Context `{Host} `{RangeOrder} `{OS} `{Clock} `{Kernel}.

(** The world, the kernel and the observer, when it runs. *)
Record Sys := { sys_world : World; sys_kernel : kernel; sys_observer : option Obs }.

Definition in_world {A} (m : M World A) : M Sys A := λ s,
  match m (sys_world s) with
  | (r, w) => (r, {| sys_world := w; sys_kernel := sys_kernel s; sys_observer := sys_observer s |})
  end.
Definition in_kernel {A} (m : M kernel A) : M Sys A := λ s,
  match m (sys_kernel s) with
  | (r, k) => (r, {| sys_world := sys_world s; sys_kernel := k; sys_observer := sys_observer s |})
  end.
(** [if s.networkObserver != nil { s.networkObserver.MarkChange() }] *)
Definition mark_change : M Sys () := λ s,
  match sys_observer s with
  | None => (Ok (), s)
  | Some o =>
      match MarkChange o with
      | (r, o) => (r, {| sys_world := sys_world s; sys_kernel := sys_kernel s;
                         sys_observer := Some o |})
      end
  end.
(** A state operation with the files it writes. *)
Definition in_store {A} (m : M (State * FS) A) : M World A := λ w,
  match m (w_state w, w_fs w) with
  | (r, (s, fs)) => (r, {| w_state := s; w_fs := fs; w_registry := w_registry w;
                           w_services := w_services w; w_host := w_host w |})
  end.
(** A new configuration object for an interface value to refer to. *)
Definition new_object (o : config_obj) : M World loc := λ w,
  match alloc o (w_state w) with (l, s) => (Ok l, set_state s w) end.
(** A method call on a plugin that may be nil. *)
Definition on_plugin {A} (plugin : option PluginLoader) (k : PluginLoader → M World A)
    : M World A :=
  match plugin with
  | Some plugin => k plugin
  | None => lift (Panic "invalid memory address or nil pointer dereference")
  end.

(** ** Rolling plugins back *)

Definition rollback_plugin (namespace : string) : M World () :=
  gets (λ w, Registry.Get namespace (w_registry w)) ≫= λ plugin,
  on_plugin plugin (λ plugin,
  ignore (in_host (Flush plugin)) ≫= λ _,
  gets (λ w, Registry.GetPluginNameForNamespace namespace (w_registry w)) ≫= λ pluginName,
  match pluginName with
  | None => mret ()
  | Some pluginName =>
      with_state id ≫= λ s,
      match GetLastApplied namespace s with
      | Ok (Some oldConfig) =>
          ignore (in_host (ApplyConfig plugin (deref s (Some oldConfig))))
      | _ =>
          attempt (in_fs (LoadConfig Unmarshal_map pluginName)) ≫= λ loaded,
          match loaded with
          | Ok config => ignore (in_host (ApplyConfig plugin (Some (OMap config))))
          | _ => mret ()
          end
      end
  end).
Definition rollbackPlugins : M World () :=
  gets (λ w, Registry.List (w_registry w)) ≫= λ namespaces,
  for_each namespaces rollback_plugin.

(** ** Apply *)

(** The namespaces in the order their plugins are applied. *)
Definition plugin_order : M World (list string) :=
  with_state GetCurrentJackConfig ≫= λ jackConfig,
  match jackConfig with
  | Some jc =>
      in_host (orderPluginsByDependencies (jc_Plugins jc)) ≫= λ orderedPlugins,
      gets (λ w, omap (λ pluginName,
        Registry.GetNamespaceForPlugin pluginName (w_registry w)) orderedPlugins)
  | None => gets (λ w, Registry.List (w_registry w))
  end.

(** The configuration to apply to a plugin: the committed one (a nil map when
    it is no map), else the file's, else the default one; [None] to skip it. *)
Definition plugin_config (namespace pluginName : string) (plugin : option PluginLoader)
    : M World (option loc) :=
  with_state id ≫= λ s,
  match GetCommitted namespace s with
  | Ok committed =>
      match deref s committed, committed with
      | Some (OMap _), Some l => mret (Some l)
      | _, _ => new_object (OMap None) ≫= λ l, mret (Some l)
      end
  | _ =>
      attempt (in_fs (LoadConfig Unmarshal_map pluginName)) ≫= λ loaded,
      match loaded with
      | Ok config => new_object (OMap config) ≫= λ l, mret (Some l)
      | _ =>
          on_plugin plugin (λ plugin,
          match pm_DefaultConfig (Metadata plugin) with
          | Some d => new_object (OMap (Some d)) ≫= λ l, mret (Some l)
          | None => mret None
          end)
      end
  end.

(** [ConfigsEqual] with the configuration last applied; no entry means no. *)
Definition unchanged (namespace : string) (config : loc) (s : State) : bool :=
  match GetLastApplied namespace s with
  | Ok lastApplied => ConfigsEqual (deref s (Some config)) (deref s lastApplied)
  | _ => false
  end.

(** One plugin; the error of its [ApplyConfig] is returned as a value, for the
    rollback. *)
Definition apply_plugin (namespace : string) : M World (option error) :=
  gets (λ w, Registry.Get namespace (w_registry w)) ≫= λ plugin,
  gets (λ w, Registry.GetPluginNameForNamespace namespace (w_registry w)) ≫= λ pluginName,
  match pluginName with
  | None => mret None
  | Some pluginName =>
      plugin_config namespace pluginName plugin ≫= λ config,
      match config with
      | None => mret None
      | Some config =>
          with_state id ≫= λ s,
          if unchanged namespace config s then mret None else
          on_plugin plugin (λ plugin,
          attempt (in_host (ApplyConfig plugin (deref s (Some config)))) ≫= λ applied,
          match applied with
          | Err err => mret (Some (Wrapf ("plugin " +:+ namespace +:+ ": ") err))
          | _ =>
              update_state (SetLastApplied namespace (Some config)) ≫= λ _,
              mark_ready plugin ≫= λ _, mret None
          end)
      end
  end.
Fixpoint apply_plugins (namespaces : list string) : M World (option error) :=
  match namespaces with
  | [] => mret None
  | namespace :: namespaces =>
      apply_plugin namespace ≫= λ failed,
      match failed with
      | Some err => mret (Some err)
      | None => apply_plugins namespaces
      end
  end.

(** The status of every plugin is asked for; it is a map and never the []byte
    the code looks for, so there are no warnings. *)
Definition collect_warnings : M World (list string) :=
  gets (λ w, Registry.List (w_registry w)) ≫= λ namespaces,
  for_each namespaces (λ namespace,
    gets (λ w, Registry.Get namespace (w_registry w)) ≫= λ plugin,
    on_plugin plugin (λ plugin, ignore (in_host (Status plugin)))) ≫= λ _,
  mret [].

(** The interfaces, in order, until one fails. *)
Fixpoint apply_interfaces (interfaces : gmap string Interface) (names : list string)
    : M kernel (option error) :=
  match names with
  | [] => mret None
  | name :: names =>
      attempt (ApplyInterfaceConfig name (default zero_Interface (interfaces !! name))) ≫= λ r,
      match r with
      | Err err => mret (Some (Wrapf ("interface " +:+ name +:+ ": ") err))
      | _ => apply_interfaces interfaces names
      end
  end.

(** Steps 3 and 4: plugins and routes. *)
Definition apply_plugins_and_routes (snapshot : SystemSnapshot) : M Sys (list string) :=
  in_world plugin_order ≫= λ orderedNamespaces,
  in_world (apply_plugins orderedNamespaces) ≫= λ failed,
  match failed with
  | Some err =>
      in_world rollbackPlugins ≫= λ _,
      logged (in_kernel (RestoreSnapshot snapshot ["ipforward"; "interfaces"])) ≫= λ _, fail err
  | None =>
      attempt (in_world (in_fs (LoadConfig Unmarshal_RoutesConfig "routes"))) ≫= λ routesConfig,
      match routesConfig with
      | Ok routesConfig =>
          attempt (in_kernel (ApplyRoutesConfig (Some routesConfig))) ≫= λ applied,
          match applied with
          | Err err =>
              in_world rollbackPlugins ≫= λ _,
              logged (in_kernel (RestoreSnapshot snapshot ["all"])) ≫= λ _,
              fail (Wrapf "routes: " err)
          | _ => in_world collect_warnings
          end
      | _ => in_world collect_warnings
      end
  end.

Definition executeApplyWithRollback (snapshot : SystemSnapshot) : M Sys (list string) :=
  mark_change ≫= λ _,
  wrapM "ip forwarding: " (in_kernel EnableIPForwarding) ≫= λ _,
  in_world (with_state GetCommittedInterfaces) ≫= λ interfaces,
  match interfaces with
  | None => lift (Panic "invalid memory address or nil pointer dereference")
  | Some interfaces =>
      let orderedNames := orderInterfaces (ic_Interfaces interfaces) in
      in_kernel (apply_interfaces (gm (ic_Interfaces interfaces)) orderedNames) ≫= λ failed,
      match failed with
      | Some err =>
          logged (in_kernel (RestoreSnapshot snapshot ["ipforward"; "interfaces"])) ≫= λ _,
          fail err
      | None => apply_plugins_and_routes snapshot
      end
  end.

Definition handleApply (now : Z) : M Sys Response :=
  attempt (in_kernel (CaptureSystemSnapshot now)) ≫= λ captured,
  match captured with
  | Err err => mret (fail_response ("failed to capture snapshot: " +:+ error_string err))
  | Panic w => lift (Panic w)
  | Ok snapshot =>
      let checkpointID := ss_CheckpointID snapshot in
      logged (in_world (in_store (SaveSnapshot checkpointID snapshot))) ≫= λ _,
      attempt (executeApplyWithRollback snapshot) ≫= λ r,
      match r with
      | Err err =>
          mret (fail_response ("apply failed, rolled back to checkpoint " +:+ checkpointID
                               +:+ ": " +:+ error_string err))
      | Panic w => lift (Panic w)
      | Ok warnings =>
          in_world (in_store (PruneOldSnapshots 10)) ≫= λ _,
          in_world (gets (λ w, Registry.List (w_registry w))) ≫= λ namespaces,
          mret (ok_message ("Configuration applied (interfaces + " +:+ join " + " namespaces
                            +:+ " + routes)" +:+
                            match warnings with
                            | [] => ""
                            | _ => Server.newline +:+ join Server.newline warnings
                            end))
      end
  end.

(** ** Rollback and checkpoints *)

Definition handleRollback (checkpointID : string) : M Sys Response :=
  let checkpointID := if bool_decide (checkpointID = "") then "latest" else checkpointID in
  attempt (in_world (in_store (LoadSnapshot checkpointID))) ≫= λ loaded,
  match loaded with
  | Err err => mret (fail_response ("failed to load checkpoint: " +:+ error_string err))
  | Panic w => lift (Panic w)
  | Ok snapshot =>
      in_world rollbackPlugins ≫= λ _,
      attempt (in_kernel (RestoreSnapshot snapshot ["all"])) ≫= λ r,
      match r with
      | Err err => mret (fail_response ("rollback failed: " +:+ error_string err))
      | Panic w => lift (Panic w)
      | Ok _ =>
          (if nonempty (ss_NftablesRules snapshot)
           then logged (in_kernel (RestoreNftablesRules (ss_NftablesRules snapshot)))
           else mret ()) ≫= λ _,
          mret (ok_message ("Successfully rolled back to checkpoint: " +:+ checkpointID))
      end
  end.

Definition with_checkpoint_id (id : string) (s : SystemSnapshot) : SystemSnapshot :=
  {| ss_Timestamp := ss_Timestamp s; ss_CheckpointID := id; ss_IPForwarding := ss_IPForwarding s;
     ss_Interfaces := ss_Interfaces s; ss_Routes := ss_Routes s;
     ss_NftablesRules := ss_NftablesRules s |}.
Definition handleCheckpointCreate (now : Z) : M Sys Response :=
  attempt (in_kernel (CaptureSystemSnapshot now)) ≫= λ captured,
  match captured with
  | Err err => mret (fail_response ("failed to capture snapshot: " +:+ error_string err))
  | Panic w => lift (Panic w)
  | Ok snapshot =>
      let id := "manual-" +:+ itoa (ss_Timestamp snapshot / 1000000000) in
      attempt (in_world (in_store (SaveSnapshot id (with_checkpoint_id id snapshot)))) ≫= λ saved,
      match saved with
      | Err err => mret (fail_response ("failed to save checkpoint: " +:+ error_string err))
      | Panic w => lift (Panic w)
      | Ok _ => mret (ok_response (DText id) [PText ("Created checkpoint: " +:+ id)])
      end
  end.
End apply.

(** ** Lemmas: what apply and rollback keep *)

(** Configurations: what is committed or pending stays, no type gains either,
    and no configuration object changes. *)
Record configs_kept (s s' : State) : Prop := {
  ck_entries t e : registry s !! t = Some e → ∃ e', registry s' !! t = Some e' ∧
    Committed e' = Committed e ∧ Pending e' = Pending e;
  ck_new t e' : registry s !! t = None → registry s' !! t = Some e' →
    Committed e' = None ∧ Pending e' = None;
  ck_heap l o : heap s !! l = Some o → heap s' !! l = Some o;
}.
Lemma configs_kept_refl s : configs_kept s s.
Proof. split; [eauto|congruence|done]. Qed.
Lemma configs_kept_trans s1 s2 s3 : configs_kept s1 s2 → configs_kept s2 s3 → configs_kept s1 s3.
Proof.
  intros [A1 B1 C1] [A2 B2 C2]. split; [| |auto].
  - intros t e Ht. destruct (A1 t e Ht) as (e1 & Ht1 & E1 & E1').
    destruct (A2 t e1 Ht1) as (e2 & Ht2 & E2 & E2'). exists e2. split; [done|]. split; congruence.
  - intros t e3 Hn Ht3. destruct (registry s2 !! t) as [e2|] eqn:Ht2; [|by eapply B2].
    destruct (B1 t e2 Hn Ht2) as [E1 E1']. destruct (A2 t e2 Ht2) as (e3' & Ht3' & E2 & E2').
    assert (e3' = e3) as -> by congruence. split; congruence.
Qed.
Lemma configs_kept_SetLastApplied t c s : configs_kept s (SetLastApplied t c s).
Proof.
  unfold SetLastApplied, entry_of. split; cbn; [| |done].
  - intros t' e Ht'. destruct (decide (t' = t)) as [->|Hne].
    + rewrite lookup_insert_eq, Ht'. by eexists.
    + rewrite lookup_insert_ne by done. eauto.
  - intros t' e' Hn. destruct (decide (t' = t)) as [->|Hne].
    + rewrite lookup_insert_eq, Hn. by intros [= <-].
    + rewrite lookup_insert_ne by done. congruence.
Qed.
Lemma configs_kept_alloc o s : configs_kept s (alloc o s).2.
Proof.
  unfold alloc. split; cbn; [eauto|congruence|]. intros l o' Hl.
  rewrite lookup_insert_ne; [done|]. intros <-. apply (is_fresh (dom (heap s))).
  by apply elem_of_dom.
Qed.
Lemma configs_kept_snapshots m l s : configs_kept s (with_snapshots m l s).
Proof. split; cbn; [eauto|congruence|done]. Qed.
Lemma configs_kept_interfaces s s' ic :
  configs_kept s s' → GetCommittedInterfaces s = Some ic → GetCommittedInterfaces s' = Some ic.
Proof.
  intros [A B C]. unfold GetCommittedInterfaces, object_of, GetCommitted.
  destruct (registry s !! "interfaces") as [e|] eqn:Hr; [|done].
  destruct (A _ _ Hr) as (e' & -> & -> & _). unfold deref. destruct (Committed e) as [l|]; [|done].
  cbn. destruct (heap s !! l) as [o|] eqn:Hl; [|done]. by rewrite (C _ _ Hl).
Qed.

Section kept.
Context `{HostSafe} `{RangeOrder} `{OS} `{Clock}.

(** The configurations, their ownership and the plugin registry of [w0], and a
    consistent service registry. *)
Record world_kept (w0 w : World) : Prop := {
  wk_configs : configs_kept (w_state w0) (w_state w);
  wk_isolated : isolated (w_state w0) → isolated (w_state w);
  wk_registry : w_registry w = w_registry w0;
  wk_services : services_ok (w_services w);
}.
Context (w0 : World) (Hreg : registry_ok (w_registry w0)).
Notation pres := (preserves (world_kept w0)).

Lemma pres_in_host {A} (m : M host A) : safe m → pres (in_host m).
Proof.
  intros Hs w [? ? ? ?]. unfold wp, in_host. specialize (Hs (w_host w)).
  destruct (m (w_host w)) as [[a|e|p] h]; [by split..|done].
Qed.
Lemma pres_in_fs {A} (m : M FS A) : safe m → pres (in_fs m).
Proof.
  intros Hs w [? ? ? ?]. unfold wp, in_fs. specialize (Hs (w_fs w)).
  destruct (m (w_fs w)) as [[a|e|p] h]; [by split..|done].
Qed.
Lemma pres_new_object o : pres (new_object o).
Proof.
  intros w [Hc Hi Hr Hs]. unfold wp, new_object. destruct (alloc o (w_state w)) as [l s] eqn:E.
  split; cbn; [| |done..].
  - eapply configs_kept_trans; [done|].
    pose proof (configs_kept_alloc o (w_state w)) as Ha. by rewrite E in Ha.
  - intros H0'. eapply isolated_alloc; [done|auto].
Qed.
Lemma pres_MarkServiceReady n : pres (in_services (MarkServiceReady n)).
Proof.
  intros w [Hc Hi Hr Hs]. unfold wp, in_services.
  destruct (MarkServiceReady_spec n _ Hs) as (r & -> & Hr' & _). by split.
Qed.
Lemma pres_mark_ready p : pres (mark_ready p).
Proof. apply pres_for_each. intros s _. apply pres_MarkServiceReady. Qed.
Lemma pres_ignore {A} (m : M World A) : pres m → pres (ignore m).
Proof. intros. unfold ignore. auto with preserves. Qed.
Lemma pres_on_plugin {A} (plugin : option PluginLoader) (k : PluginLoader → M World A) :
  is_Some plugin → (∀ p, pres (k p)) → pres (on_plugin plugin k).
Proof. intros [p ->] Hk. apply Hk. Qed.
Hint Resolve pres_in_host pres_in_fs pres_new_object pres_mark_ready pres_ignore : preserves.

Lemma ans_ignore {A} (m : M World A) : pres m → answers (world_kept w0) (ignore m).
Proof. intros. apply ans_attempt_bind; [done|]. intros r _. apply ans_ret. Qed.
Definition all_registered (l : list string) : Prop :=
  ∀ ns, ns ∈ l → is_Some (Registry.Get ns (w_registry w0)).
Lemma registered_list w : world_kept w0 w → all_registered (Registry.List (w_registry w)).
Proof.
  intros Hw ns. rewrite (wk_registry _ _ Hw). unfold Registry.List.
  intros ([ns' p] & -> & Hin%range_elem)%list_elem_of_fmap. by exists p.
Qed.
Lemma ans_rollback_plugin ns :
  is_Some (Registry.Get ns (w_registry w0)) → answers (world_kept w0) (rollback_plugin ns).
Proof.
  intros Hns. unfold rollback_plugin.
  eapply (ans_gets_bind _ is_Some); [by intros w Hw; rewrite (wk_registry _ _ Hw)|].
  intros plugin [p ->]. cbn [on_plugin].
  apply ans_bind; [apply ans_ignore; auto with preserves safe|]. intros _.
  apply ans_bind; [auto with preserves|]. intros [name|]; [|auto with preserves].
  apply (ans_bind _ (with_state id)); [apply ans_gets|]. intros s.
  assert (answers (world_kept w0) (attempt (in_fs (LoadConfig Unmarshal_map name)) ≫= λ loaded,
    match loaded with
    | Ok config => ignore (in_host (ApplyConfig p (Some (OMap config))))
    | _ => mret ()
    end)) as Hfile.
  { apply ans_attempt_bind; [auto with preserves safe|]. intros [c|e|w] _;
      [apply ans_ignore; auto with preserves safe|apply ans_ret..]. }
  destruct (GetLastApplied ns s) as [[l|]|e|w]; [|done..].
  apply ans_ignore. auto with preserves safe.
Qed.
Lemma ans_rollbackPlugins : answers (world_kept w0) rollbackPlugins.
Proof.
  eapply (ans_gets_bind _ all_registered); [apply registered_list|]. intros l Hl. apply ans_for_each.
  intros ns Hns. by apply ans_rollback_plugin, Hl.
Qed.
Lemma pres_rollbackPlugins : pres rollbackPlugins.
Proof. apply ans_pres, ans_rollbackPlugins. Qed.

Lemma safe_orderPlugins c : safe (orderPluginsByDependencies c).
Proof.
  intros h. unfold orderPluginsByDependencies. unfold mbind, M_bind.
  destruct (collect_returns (range (gm c)) [] ∅ h) as (en & deps & h' & ->). done.
Qed.
Lemma pres_plugin_order : pres plugin_order.
Proof.
  unfold plugin_order. apply (pres_bind _ (with_state _)); [apply pres_gets|].
  intros [jc|]; [|auto with preserves].
  apply (pres_bind _ (in_host _)); [apply pres_in_host, safe_orderPlugins|].
  intros l. auto with preserves.
Qed.
(** The configuration found may be shared: it is an object and nobody's
    pending one. *)
Definition may_apply (c : option loc) (w : World) : Prop :=
  isolated (w_state w0) → ∀ l, c = Some l → l ∈ dom (heap (w_state w)) ∧
    ∀ t e, registry (w_state w) !! t = Some e → Pending e ≠ Some l.
Notation found := (λ c w, world_kept w0 w ∧ may_apply c w).

Lemma wp_new_config o w :
  world_kept w0 w → wp (new_object o ≫= λ l, mret (Some l)) w found (world_kept w0).
Proof.
  intros Hw. apply wp_bind. pose proof (pres_new_object o w Hw) as Hn. revert Hn.
  unfold wp at 1 2, new_object. destruct (alloc o (w_state w)) as [l s] eqn:E. intros Hn.
  apply wp_ret. split; [done|]. intros Hi l' [= <-]. cbn.
  pose proof (alloc_fresh _ _ _ _ E) as (_ & Hh & _). split; [rewrite Hh; set_solver|].
  intros t e He Hp. apply (isolated_fresh _ _ _ _ _ _ (wk_isolated _ _ Hw Hi) E He).
  by right; left.
Qed.
Lemma wp_plugin_config ns name plugin w :
  is_Some plugin → world_kept w0 w →
  wp (plugin_config ns name plugin) w found (world_kept w0).
Proof.
  intros [p ->] Hw. unfold plugin_config. apply wp_bind. change (wp (with_state id) w) with
    (wp (gets (λ w, id (w_state w))) w). unfold wp at 1. cbn [gets id].
  assert (wp (attempt (in_fs (LoadConfig Unmarshal_map name)) ≫= λ loaded,
    match loaded with
    | Ok config => new_object (OMap config) ≫= λ l, mret (Some l)
    | _ => on_plugin (Some p) (λ plugin,
        match pm_DefaultConfig (Metadata plugin) with
        | Some d => new_object (OMap (Some d)) ≫= λ l, mret (Some l)
        | None => mret None
        end)
    end) w found (world_kept w0)) as Hfile.
  { apply wp_bind, wp_attempt.
    eapply wp_mono; [by apply (pres_in_fs (LoadConfig Unmarshal_map name)); [auto with safe|]|..];
      cbv beta; [by intros; apply wp_new_config|]. intros w1 Hw1 e. cbn [on_plugin].
    case_match; [by apply wp_new_config|]. by apply wp_ret. }
  destruct (GetCommitted ns (w_state w)) as [c|e|e] eqn:Ec; [|done..].
  destruct (deref (w_state w) c) as [[]|] eqn:Ed; try by apply wp_new_config.
  destruct c as [l|]; [|done]. apply wp_ret. split; [done|]. intros Hi l' [= <-].
  pose proof (wk_isolated _ _ Hw Hi) as Hiso. unfold GetCommitted in Ec.
  destruct (registry (w_state w) !! ns) as [en|] eqn:Hen; [|done]. injection Ec as Ec. split.
  - cbn in Ed. by apply elem_of_dom.
  - intros t e' He' Hp. apply (iso_shared _ Hiso t e' ns en l); [done..|]. by left.
Qed.
Lemma wp_SetLastApplied ns c w :
  world_kept w0 w → may_apply (Some c) w →
  wp (update_state (SetLastApplied ns (Some c))) w (λ _, world_kept w0) (world_kept w0).
Proof.
  intros [Hc Hi Hr Hs] Hm. unfold wp. cbn. split; cbn; [| |done..].
  - eapply configs_kept_trans; [done|apply configs_kept_SetLastApplied].
  - intros Hi0. destruct (Hm Hi0 c eq_refl) as [Hd Hn]. by apply isolated_SetLastApplied; auto.
Qed.
(** Only the host changes. *)
Lemma wp_in_host_found {A} (m : M host A) c w :
  safe m → world_kept w0 w → may_apply c w →
  wp (attempt (in_host m)) w (λ r w', no_panic r ∧ world_kept w0 w' ∧ may_apply c w') (λ _, False).
Proof.
  intros Hs Hw Hm. apply wp_attempt. pose proof (pres_in_host m Hs w Hw) as Hp. revert Hp.
  unfold wp, in_host. destruct (m (w_host w)) as [[a|e|p] h]; [..|done]; intros Hp;
    [|intros x]; (split; [done|]; split; [exact Hp|exact Hm]).
Qed.
Lemma pres_apply_plugin ns : pres (apply_plugin ns).
Proof.
  intros w Hw. unfold apply_plugin. apply wp_bind. cbn. apply wp_bind. cbn.
  rewrite (wk_registry _ _ Hw). destruct (Registry.GetPluginNameForNamespace ns _) as [name|] eqn:Hn;
    [|by apply wp_ret].
  assert (is_Some (Registry.Get ns (w_registry w0))) as [p Hp].
  { apply name_for_Some in Hn. by eapply ro_registered. }
  rewrite Hp. apply wp_bind. eapply wp_mono; [by apply wp_plugin_config| |done]. cbv beta.
  intros [config|] w1 [Hw1 Hm1]; [|by apply wp_ret]. apply wp_bind. cbn.
  destruct (unchanged _ _ _); [by apply wp_ret|]. apply wp_bind.
  eapply wp_mono; [by apply wp_in_host_found; [auto with safe|..]| |done]. cbv beta.
  intros [[]|e|e] w2 (Hnp & Hw2 & Hm2); [|by apply wp_ret|done].
  apply wp_bind. eapply wp_mono; [by apply wp_SetLastApplied| |done]. cbv beta. intros _ w3 Hw3.
  apply wp_bind. eapply wp_mono; [by apply pres_mark_ready| |done]. cbv beta. intros _ w4 Hw4.
  by apply wp_ret.
Qed.
Lemma pres_apply_plugins l : pres (apply_plugins l).
Proof.
  induction l as [|ns l IH]; cbn; [auto with preserves|].
  apply pres_bind; [apply pres_apply_plugin|]. intros [e|]; auto with preserves.
Qed.
Lemma pres_collect_warnings : pres collect_warnings.
Proof.
  unfold collect_warnings. eapply (pres_gets_bind _ all_registered); [apply registered_list|].
  intros l Hl. apply pres_bind; [|auto with preserves]. apply pres_for_each. intros ns Hns.
  eapply (pres_gets_bind _ is_Some).
  - intros w Hw. rewrite (wk_registry _ _ Hw). by apply Hl.
  - intros plugin Hp. apply pres_on_plugin; [done|]. intros p. cbv beta. auto with preserves safe.
Qed.
(** Nothing but the snapshots may differ. *)
Definition snapshots_only (s s' : State) : Prop := ∃ m l, s' = with_snapshots m l s.
Lemma snapshots_only_refl s : snapshots_only s s.
Proof. exists (snapshots s), (snapshotList s). by destruct s. Qed.
Lemma pres_in_store {A} (m : M (State * FS) A) :
  (∀ s fs, wp m (s, fs) (λ _ p, snapshots_only s p.1) (λ p, snapshots_only s p.1)) →
  pres (in_store m).
Proof.
  intros Hm w [Hc Hi Hr Hs]. specialize (Hm (w_state w) (w_fs w)). unfold wp, in_store in *.
  destruct (m _) as [[a|e|p] [s fs]]; [..|done]; cbn [fst] in Hm; destruct Hm as (sn & l & ->);
    (split; cbn; [| |done..]); try (eapply configs_kept_trans; [done|apply configs_kept_snapshots]);
    intros Hi0; destruct (Hi Hi0); by split.
Qed.
Lemma wp_SaveSnapshot id snapshot s fs :
  wp (SaveSnapshot id snapshot) (s, fs) (λ _ p, snapshots_only s p.1) (λ p, snapshots_only s p.1).
Proof.
  apply wp_bind. unfold wp at 1. cbn. unfold wp, on_fs. cbn.
  assert (safe (persistSnapshot id snapshot)) as Hp.
  { apply safe_bind; [auto with safe|]. intros _. auto with safe. }
  specialize (Hp fs). destruct (persistSnapshot id snapshot fs) as [[a|e|w] fs']; [..|done]; cbn;
    by eexists _, _.
Qed.
Lemma pres_SaveSnapshot id snapshot : pres (in_store (SaveSnapshot id snapshot)).
Proof. apply pres_in_store. intros. apply wp_SaveSnapshot. Qed.
Lemma pres_Prune n : pres (in_store (PruneOldSnapshots n)).
Proof.
  apply pres_in_store. intros s fs. destruct (PruneOldSnapshots_spec n s fs) as (m & fs' & E & _).
  unfold wp. rewrite E. cbn. by eexists _, _.
Qed.
Lemma pres_LoadSnapshot id : pres (in_store (LoadSnapshot id)).
Proof.
  apply pres_in_store. intros s fs. apply wp_bind. unfold wp at 1. cbn.
  apply wp_bind, wp_lift. unfold resolve_latest.
  destruct (if bool_decide (id = "latest") then _ else _) as [id'|e|w] eqn:E.
  - destruct (snapshots s !! id') as [snap|]; [apply wp_ret, snapshots_only_refl|].
    unfold wp, on_fs. cbn. assert (safe (loadSnapshotFromDisk id')) as Hs.
    { apply safe_bind; [auto with safe|]. intros [j|sn|t|]; auto with safe no_panic. }
    specialize (Hs fs). destruct (loadSnapshotFromDisk id' fs) as [[a|e|w] fs']; [..|done];
      cbn; apply snapshots_only_refl.
  - apply snapshots_only_refl.
  - case_bool_decide; [|done]. by destruct (last _).
Qed.
End kept.

(** ** Lemmas: kernel calls always answer *)

Section kernel_safe.
Context `{LinkLaws} `{!ReadLaws} `{!CommandLaws} `{RangeOrder}.
Lemma reads_safe {A} (m : M kernel A) : Snapshot.reads m → safe m.
Proof. intros Hm k. destruct (Hm k) as (r & -> & Hr). done. Qed.
Lemma reads_all_safe : 
  (∀ i, safe (k_LinkByIndex i)) ∧ (∀ l, safe (k_RouteList l)) ∧ (∀ p, safe (k_ReadFile p)).
Proof.
  split_and!; intros x; apply reads_safe;
    [apply reads_LinkByIndex|apply reads_RouteList|apply reads_ReadFile].
Qed.
Lemma finds_safe {A} (m : M kernel A) : finds m → safe m.
Proof. intros Hm. by apply reads_safe, reads_finds. Qed.
Lemma safe_CaptureSystemSnapshot now : safe (CaptureSystemSnapshot now).
Proof. apply reads_safe, reads_CaptureSystemSnapshot. Qed.

Lemma safe_find_for_gateway gw links : safe (find_for_gateway gw links).
Proof. induction links; cbn; solve_safe. Qed.
Lemma safe_ok_or {A} e (o : option A) : safe (lift (ok_or e o) : M kernel A).
Proof. apply safe_lift. by destruct o. Qed.
#[local] Hint Resolve safe_find_for_gateway safe_ok_or : safe.
Lemma safe_route_hop route : safe (route_hop route).
Proof. unfold route_hop, findInterfaceForGateway. solve_safe. Qed.
#[local] Hint Resolve safe_route_hop : safe.
Lemma safe_applyRoute name route : safe (applyRoute name route).
Proof.
  unfold applyRoute. apply safe_bind.
  { apply safe_lift, no_panic_wrap. by destruct (Route_Validate route). }
  intros _. apply safe_bind; [apply safe_lift, route_dst_no_panic|]. intros dst.
  unfold remove_matching. solve_safe.
Qed.
Lemma safe_ApplyRoutesConfig c : safe (ApplyRoutesConfig c).
Proof. unfold ApplyRoutesConfig. pose proof safe_applyRoute. solve_safe. Qed.

Lemma safe_logged {A} (m : M kernel A) : safe m → safe (logged m).
Proof. intros. unfold logged. solve_safe. Qed.
Lemma safe_bridge_ports n : safe (bridge_ports n).
Proof. apply reads_safe, reads_bridge_ports. Qed.
Lemma safe_match r s : safe (snapshotRoutesMatch r s).
Proof. apply finds_safe, finds_match. Qed.
#[local] Hint Resolve safe_logged safe_bridge_ports safe_match cl_CreateTemp cl_Remove cl_Run : safe.
Lemma safe_route_exists r l : safe (snapshotRouteExists r l).
Proof. induction l; cbn; solve_safe. Qed.
Lemma safe_in_current s l : safe (snapshotRouteInCurrent s l).
Proof. induction l; cbn; solve_safe. Qed.
#[local] Hint Resolve safe_route_exists safe_in_current : safe.
Lemma safe_rollbackRoutes l : safe (rollbackRoutes l).
Proof. unfold rollbackRoutes, remove_route, add_route. solve_safe. Qed.
Lemma safe_restoreIPAddresses l a : safe (restoreIPAddresses l a).
Proof.
  unfold restoreIPAddresses. apply safe_bind; [solve_safe|]. intros cur.
  apply safe_bind; [solve_safe|]. intros _. apply safe_for_each. intros s. case_match; [solve_safe|].
  pose proof (rl_ParseAddr s) as Hp. destruct (k_ParseAddr s); [solve_safe..|done].
Qed.
Lemma safe_restoreBridgePorts b p : safe (restoreBridgePorts b p).
Proof. unfold restoreBridgePorts. solve_safe. Qed.
#[local] Hint Resolve safe_rollbackRoutes safe_restoreIPAddresses safe_restoreBridgePorts : safe.
Lemma safe_rollbackInterfaces s : safe (rollbackInterfaces s).
Proof.
  unfold rollbackInterfaces, remove_created, restoreInterfaceState, recreateInterface. solve_safe.
Qed.
#[local] Hint Resolve safe_rollbackInterfaces : safe.
Lemma safe_RestoreSnapshot s scope : safe (RestoreSnapshot s scope).
Proof. unfold RestoreSnapshot, restore_part, rollbackIPForwarding. solve_safe. Qed.
Lemma safe_RestoreNftablesRules r : safe (RestoreNftablesRules r).
Proof.
  unfold RestoreNftablesRules. case_match; [auto with safe|]. apply safe_bind; [solve_safe|].
  intros f. apply safe_attempt_bind; [solve_safe|]. intros x Hx. solve_safe.
Qed.
Lemma safe_apply_interfaces m names : safe (apply_interfaces m names).
Proof.
  induction names; cbn; [auto with safe|]. pose proof safe_ApplyInterfaceConfig. solve_safe.
Qed.
End kernel_safe.
#[export] Hint Resolve safe_CaptureSystemSnapshot safe_ApplyRoutesConfig safe_RestoreSnapshot
  safe_RestoreNftablesRules safe_apply_interfaces safe_EnableIPForwarding : safe.

(** ** Lemmas: the whole system *)

Section sys.
Context `{HostSafe} `{RangeOrder} `{OS} `{Clock} `{LinkLaws} `{!ReadLaws} `{!CommandLaws}.
Context (s0 : Sys) (Hreg : registry_ok (w_registry (sys_world s0))).
Definition sys_kept (s : Sys) : Prop := world_kept (sys_world s0) (sys_world s).
Notation pres := (preserves sys_kept).

Lemma pres_in_world {A} (m : M World A) :
  preserves (world_kept (sys_world s0)) m → pres (in_world m).
Proof.
  intros Hm s Hs. specialize (Hm _ Hs). unfold wp, in_world in *.
  by destruct (m (sys_world s)) as [[a|e|p] w].
Qed.
Lemma ans_in_world {A} (m : M World A) :
  answers (world_kept (sys_world s0)) m → answers sys_kept (in_world m).
Proof.
  intros Hm s Hs. specialize (Hm _ Hs). unfold wp, in_world in *.
  by destruct (m (sys_world s)) as [[a|e|p] w].
Qed.
Lemma pres_in_kernel {A} (m : M kernel A) : safe m → pres (in_kernel m).
Proof.
  intros Hm s Hs. specialize (Hm (sys_kernel s)). unfold wp, in_kernel.
  by destruct (m (sys_kernel s)) as [[a|e|p] k].
Qed.
Lemma pres_mark_change : pres mark_change.
Proof. intros s Hs. unfold wp, mark_change. by destruct (sys_observer s). Qed.
Lemma pres_logged {A} (m : M Sys A) : pres m → pres (logged m).
Proof. intros. unfold logged. auto with preserves. Qed.
#[local] Hint Resolve pres_in_world pres_in_kernel pres_mark_change pres_logged : preserves.

Lemma pres_apply_plugins_and_routes snapshot : pres (apply_plugins_and_routes snapshot).
Proof.
  unfold apply_plugins_and_routes. apply pres_bind; [by apply pres_in_world, pres_plugin_order|].
  intros l. apply pres_bind; [by apply pres_in_world, pres_apply_plugins|]. intros [e|].
  - apply pres_bind; [by apply pres_in_world, pres_rollbackPlugins|]. intros _.
    apply pres_bind; [|auto with preserves]. apply pres_logged, pres_in_kernel. solve_safe.
  - assert (pres (in_world collect_warnings)) as Hw by by apply pres_in_world, pres_collect_warnings.
    apply pres_bind; [apply pres_attempt, pres_in_world, pres_in_fs; auto with safe|].
    intros [rc|e|p]; [|done..].
    apply pres_bind; [apply pres_attempt, pres_in_kernel; solve_safe|]. intros [[]|e|p]; [done| |done].
    apply pres_bind; [by apply pres_in_world, pres_rollbackPlugins|]. intros _.
    apply pres_bind; [|auto with preserves]. apply pres_logged, pres_in_kernel. solve_safe.
Qed.
Lemma pres_executeApply snapshot :
  GetCommittedInterfaces (w_state (sys_world s0)) ≠ None → pres (executeApplyWithRollback snapshot).
Proof.
  intros Hic. unfold executeApplyWithRollback. apply pres_bind; [apply pres_mark_change|]. intros _.
  apply pres_bind; [apply pres_wrapM, pres_in_kernel; solve_safe|]. intros _ s Hs.
  apply wp_bind. unfold wp at 1, in_world. cbn.
  destruct (GetCommittedInterfaces (w_state (sys_world s0))) as [ic|] eqn:E; [|done].
  rewrite (configs_kept_interfaces _ _ _ (wk_configs _ _ Hs) E). revert Hs. destruct s as [w k o]. cbn.
  intros Hs. change (sys_kept {| sys_world := w; sys_kernel := k; sys_observer := o |}) in Hs.
  revert Hs. generalize {| sys_world := w; sys_kernel := k; sys_observer := o |}. clear w k o.
  apply pres_bind; [apply pres_in_kernel; solve_safe|]. intros [e|].
  - apply pres_bind; [|auto with preserves]. apply pres_logged, pres_in_kernel. solve_safe.
  - apply pres_apply_plugins_and_routes.
Qed.

(** Without an interfaces configuration it panics. *)
Lemma mt_executeApply snapshot : maintains sys_kept (executeApplyWithRollback snapshot).
Proof.
  unfold executeApplyWithRollback. apply mt_bind; [apply mt_pres, pres_mark_change|]. intros _.
  apply mt_bind; [apply mt_pres, pres_wrapM, pres_in_kernel; solve_safe|]. intros _.
  apply mt_bind; [apply mt_pres, pres_in_world, pres_gets|]. intros [ic|]; [|apply mt_lift].
  cbv zeta. apply mt_bind; [apply mt_pres, pres_in_kernel; solve_safe|]. intros [e|]; apply mt_pres.
  - apply pres_bind; [|auto with preserves]. apply pres_logged, pres_in_kernel. solve_safe.
  - apply pres_apply_plugins_and_routes.
Qed.

Lemma ans_Prune n : answers (world_kept (sys_world s0)) (in_store (PruneOldSnapshots n)).
Proof.
  intros w Hw. pose proof (pres_Prune _ n w Hw) as Hp. revert Hp. unfold wp, in_store.
  destruct (PruneOldSnapshots_spec n (w_state w) (w_fs w)) as (m & fs' & E & _). by rewrite E.
Qed.
Lemma ans_logged {A} (m : M Sys A) : pres m → answers sys_kept (logged m).
Proof. intros. apply ans_attempt_bind; [done|]. intros r _. apply ans_ret. Qed.
Lemma ans_handleApply now :
  GetCommittedInterfaces (w_state (sys_world s0)) ≠ None → answers sys_kept (handleApply now).
Proof.
  intros Hic. unfold handleApply. apply ans_attempt_bind; [apply pres_in_kernel; solve_safe|].
  intros [snapshot|e|p] Hp; [|apply ans_ret|done].
  apply ans_bind; [by apply ans_logged, pres_in_world, pres_SaveSnapshot|]. intros _.
  apply ans_attempt_bind; [by apply pres_executeApply|]. intros [l|e|p] Hp'; [|apply ans_ret|done].
  apply ans_bind; [apply ans_in_world, ans_Prune|]. intros _.
  apply ans_bind; [apply ans_in_world, ans_gets|]. intros ns. apply ans_ret.
Qed.
Lemma mt_handleApply now : maintains sys_kept (handleApply now).
Proof.
  unfold handleApply. apply mt_bind; [apply mt_pres, pres_attempt, pres_in_kernel; solve_safe|].
  intros [snapshot|e|p]; [|apply mt_ret|apply mt_lift].
  apply mt_bind; [by apply mt_pres, ans_pres, ans_logged, pres_in_world, pres_SaveSnapshot|]. intros _.
  apply mt_bind; [apply mt_attempt, mt_executeApply|]. intros [l|e|p]; [|apply mt_ret|apply mt_lift].
  apply mt_bind; [apply mt_pres, ans_pres, ans_in_world, ans_Prune|]. intros _.
  apply mt_bind; [apply mt_pres, pres_in_world, pres_gets|]. intros ns. apply mt_ret.
Qed.
Lemma ans_handleRollback id : answers sys_kept (handleRollback id).
Proof.
  unfold handleRollback. apply ans_attempt_bind; [by apply pres_in_world, pres_LoadSnapshot|].
  intros [snapshot|e|p] Hp; [|apply ans_ret|done].
  apply ans_bind; [by apply ans_in_world, ans_rollbackPlugins|]. intros _.
  apply ans_attempt_bind; [apply pres_in_kernel; solve_safe|]. intros [[]|e|p] Hp'; [|apply ans_ret|done].
  apply ans_bind; [|intros _; apply ans_ret]. case_match; [|apply ans_ret].
  apply ans_logged, pres_in_kernel. solve_safe.
Qed.
Lemma ans_handleCheckpointCreate now : answers sys_kept (handleCheckpointCreate now).
Proof.
  unfold handleCheckpointCreate. apply ans_attempt_bind; [apply pres_in_kernel; solve_safe|].
  intros [snapshot|e|p] Hp; [|apply ans_ret|done].
  apply ans_attempt_bind; [by apply pres_in_world, pres_SaveSnapshot|].
  intros [r|e|p] Hp'; [apply ans_ret..|done].
Qed.
End sys.

(** ** Lemmas: applying the plugins again *)

Section again.
Context `{Host} `{RangeOrder} `{OS}.

Definition has_name (ns : string) (w : World) : Prop :=
  Registry.GetPluginNameForNamespace ns (w_registry w) ≠ None.
(** A namespace with no plugin name, or with a committed map, as [Start] and
    [enablePlugin] leave it. *)
Definition map_committed (ns : string) (w : World) : Prop :=
  has_name ns w → ∃ l m, GetCommitted ns (w_state w) = Ok (Some l) ∧
    deref (w_state w) (Some l) = Some (OMap m).
(** It needs no plugin call: what is committed is what was last applied. *)
Definition settled (ns : string) (w : World) : Prop :=
  has_name ns w → ∃ l, GetCommitted ns (w_state w) = Ok (Some l) ∧
    unchanged ns l (w_state w) = true.

Lemma ConfigsEqual_refl c : ConfigsEqual c c = true.
Proof. destruct c; cbn; [|done]. by rewrite bool_decide_eq_true_2 by done. Qed.
Lemma mark_ready_frame p w r w' :
  mark_ready p w = (r, w') → w_state w' = w_state w ∧ w_registry w' = w_registry w.
Proof.
  unfold mark_ready. revert w. induction (GetProvidedServices p) as [|sd l IH]; intros w; cbn.
  { by intros [= _ <-]. }
  unfold mbind, M_bind, in_services at 1. destruct (MarkServiceReady _ _) as [[[]|e|x] sr]; cbn;
    [|by intros [= _ <-]..]. by intros (-> & ->)%IH.
Qed.

Lemma plugin_config_committed ns name plugin l m w :
  GetCommitted ns (w_state w) = Ok (Some l) → deref (w_state w) (Some l) = Some (OMap m) →
  plugin_config ns name plugin w = (Ok (Some l), w).
Proof.
  intros Hc Hd. unfold plugin_config. rewrite (bind_eq (with_state id) _ w (w_state w) w eq_refl).
  by rewrite Hc, Hd.
Qed.

(** A plugin that was applied, or did not need to be, is settled; the state
    differs by what was last applied for it. *)
Lemma apply_plugin_effect ns w w' :
  map_committed ns w → apply_plugin ns w = (Ok None, w') →
  w_registry w' = w_registry w ∧
  (w' = w ∧ settled ns w ∨
   ∃ l, GetCommitted ns (w_state w) = Ok (Some l) ∧
     w_state w' = SetLastApplied ns (Some l) (w_state w)).
Proof.
  intros Hm. unfold apply_plugin.
  rewrite (bind_eq (gets _) _ w _ w eq_refl), (bind_eq (gets _) _ w _ w eq_refl).
  destruct (Registry.GetPluginNameForNamespace ns (w_registry w)) as [name|] eqn:Hn.
  2: { intros [= <-]. split; [done|left]. split; [done|]. by intros []. }
  destruct Hm as (l & m & Hc & Hd); [by unfold has_name; rewrite Hn|].
  rewrite (bind_eq _ _ _ _ _ (plugin_config_committed _ name _ _ _ _ Hc Hd)).
  rewrite (bind_eq (with_state id) _ w (w_state w) w eq_refl). cbn [id].
  destruct (unchanged ns l (w_state w)) eqn:Hu.
  { intros [= <-]. split; [done|left]. split; [done|]. intros _. by exists l. }
  destruct (Registry.Get ns (w_registry w)) as [p|]; [|done]. cbn [on_plugin].
  intros (r & w1 & E1 & E)%bind_ok_inv.
  assert (w_state w1 = w_state w ∧ w_registry w1 = w_registry w) as [Hs1 Hr1].
  { revert E1. unfold attempt, in_host. destruct (ApplyConfig p _ _) as [[[]|e|x] h];
      intros [= _ <-]; done. }
  destruct r as [a|e|x]; [|done|];
    (apply bind_ok_inv in E as (a1 & w2 & E2 & E); injection E2 as _ <-;
     apply bind_ok_inv in E as (a3 & w3 & E3 & E); injection E as <-;
     apply mark_ready_frame in E3 as [-> ->]; cbn; rewrite Hr1; split; [done|]; right; exists l;
     by rewrite Hs1).
Qed.
Lemma settled_apply_plugin ns w :
  map_committed ns w → settled ns w → apply_plugin ns w = (Ok None, w).
Proof.
  intros Hm Hs. unfold apply_plugin.
  rewrite (bind_eq (gets _) _ w _ w eq_refl), (bind_eq (gets _) _ w _ w eq_refl).
  destruct (Registry.GetPluginNameForNamespace ns (w_registry w)) as [name|] eqn:Hn; [|done].
  assert (has_name ns w) as Hh by by unfold has_name; rewrite Hn.
  destruct (Hm Hh) as (l & m & Hc & Hd). destruct (Hs Hh) as (l' & Hc' & Hu).
  assert (l' = l) as -> by congruence.
  rewrite (bind_eq _ _ _ _ _ (plugin_config_committed _ name _ _ _ _ Hc Hd)).
  rewrite (bind_eq (with_state id) _ w (w_state w) w eq_refl). cbn [id]. by rewrite Hu.
Qed.

Lemma GetCommitted_SetLastApplied t c ns s :
  is_Some (registry s !! t) → GetCommitted ns (SetLastApplied t c s) = GetCommitted ns s.
Proof.
  intros [e He]. unfold GetCommitted, SetLastApplied, entry_of. cbn. rewrite He.
  destruct (decide (ns = t)) as [->|Hne]; [by rewrite lookup_insert_eq, He|].
  by rewrite lookup_insert_ne.
Qed.
Lemma unchanged_SetLastApplied_same ns l m s :
  deref s (Some l) = Some (OMap m) → unchanged ns l (SetLastApplied ns (Some l) s) = true.
Proof.
  intros Hd. unfold unchanged, GetLastApplied, SetLastApplied. cbn [registry with_registry].
  rewrite lookup_insert_eq. apply ConfigsEqual_refl.
Qed.
Lemma unchanged_SetLastApplied_other t c ns l s :
  ns ≠ t → unchanged ns l (SetLastApplied t c s) = unchanged ns l s.
Proof.
  intros Hne. unfold unchanged, GetLastApplied, SetLastApplied. cbn [registry with_registry].
  by rewrite lookup_insert_ne.
Qed.

(** Applying one plugin keeps the others' committed maps and settledness. *)
Lemma apply_plugin_keeps ns w w' t :
  map_committed ns w → apply_plugin ns w = (Ok None, w') → map_committed t w →
  map_committed t w' ∧ (settled t w → settled t w') ∧ (t = ns → settled t w').
Proof.
  intros Hm E Ht. destruct (apply_plugin_effect _ _ _ Hm E) as (Hr & [[-> Hs]|(l & Hc & Hw)]).
  { split; [done|]. split; [done|]. by intros ->. }
  assert (∀ u, has_name u w' ↔ has_name u w) as Hh by by intros u; unfold has_name; rewrite Hr.
  assert (is_Some (registry (w_state w) !! ns)) as Hns.
  { unfold GetCommitted in Hc. by destruct (registry (w_state w) !! ns). }
  assert (settled ns w') as Hset.
  { intros Hn%Hh. destruct (Hm Hn) as (l' & m & Hc' & Hd). exists l'. rewrite Hw.
    rewrite GetCommitted_SetLastApplied by done. split; [done|].
    assert (l' = l) as -> by congruence. by eapply unchanged_SetLastApplied_same. }
  split; [|split; [|by intros ->]].
  - intros Hn%Hh. destruct (Ht Hn) as (l' & m & Hc' & Hd). exists l', m. rewrite Hw.
    by rewrite GetCommitted_SetLastApplied by done.
  - intros Hst. destruct (decide (t = ns)) as [->|Hne]; [done|]. intros Hn%Hh.
    destruct (Hst Hn) as (l' & Hc' & Hu). exists l'. rewrite Hw.
    by rewrite GetCommitted_SetLastApplied, unchanged_SetLastApplied_other by done.
Qed.
Lemma apply_plugins_keeps l : ∀ w w' t,
  (∀ ns, ns ∈ l → map_committed ns w) → apply_plugins l w = (Ok None, w') → map_committed t w →
  map_committed t w' ∧ (settled t w → settled t w') ∧ (t ∈ l → settled t w').
Proof.
  induction l as [|ns l IH]; intros w w' t Hl; cbn.
  { intros [= <-] Ht. split_and!; [done..|]. by intros ?%not_elem_of_nil. }
  intros (r & w1 & E1 & E)%bind_ok_inv Ht. destruct r as [e|]; [done|].
  assert (map_committed ns w) as Hns by (apply Hl; by left).
  destruct (apply_plugin_keeps _ _ _ t Hns E1 Ht) as (Ht1 & Hs1 & Hn1).
  destruct (IH w1 w' t) as (Ht2 & Hs2 & Hn2); [|done|done|].
  { intros u Hu. apply (apply_plugin_keeps _ _ _ u Hns E1), Hl. by right. }
  split; [done|]. split; [auto|]. intros [->|Hin]%elem_of_cons; auto.
Qed.
Lemma apply_plugins_registry l : ∀ w w',
  (∀ ns, ns ∈ l → map_committed ns w) → apply_plugins l w = (Ok None, w') →
  w_registry w' = w_registry w.
Proof.
  induction l as [|ns l IH]; intros w w' Hl; cbn; [by intros [= <-]|].
  intros (r & w1 & E1 & E)%bind_ok_inv. destruct r as [e|]; [done|].
  assert (map_committed ns w) as Hns by (apply Hl; by left).
  rewrite (IH w1 w'); [apply (apply_plugin_effect _ _ _ Hns E1)| |done].
  intros u Hu. apply (apply_plugin_keeps _ _ _ u Hns E1), Hl. by right.
Qed.
Lemma settled_apply_plugins l w :
  (∀ ns, ns ∈ l → map_committed ns w ∧ settled ns w) → apply_plugins l w = (Ok None, w).
Proof.
  induction l as [|ns l IH]; intros Hl; cbn; [done|].
  rewrite (bind_eq _ _ w None w); [|by apply settled_apply_plugin; apply Hl; left].
  apply IH. intros t Ht. apply Hl. by right.
Qed.
End again.

(** ** Lemmas: what a successful apply leaves *)

Section settles.
Context `{HostSafe} `{RangeOrder} `{OS} `{Clock} `{LinkLaws} `{!ReadLaws} `{!CommandLaws}.

(** The configurations of [w0] and what was last applied, the plugins of [w0]. *)
Record same_configs (w0 w : World) : Prop := {
  sc_plugins : w_registry w = w_registry w0;
  sc_registry : State.registry (w_state w) = State.registry (w_state w0);
  sc_heap : heap (w_state w) = heap (w_state w0);
}.
Lemma same_map_committed w0 w ns : same_configs w0 w → map_committed ns w0 → map_committed ns w.
Proof.
  intros [Hp Hr Hh]. unfold map_committed, has_name, GetCommitted, deref. by rewrite Hp, Hr, Hh.
Qed.
Lemma same_settled w0 w ns : same_configs w0 w → settled ns w0 → settled ns w.
Proof.
  intros [Hp Hr Hh]. unfold settled, has_name, GetCommitted, unchanged, GetLastApplied, deref.
  by rewrite Hp, Hr, Hh.
Qed.
Section frame.
Context (w0 : World).
Notation pres := (preserves (same_configs w0)).

Lemma sc_in_host {A} (m : M host A) : safe m → pres (in_host m).
Proof.
  intros Hs w [? ? ?]. unfold wp, in_host. specialize (Hs (w_host w)).
  destruct (m (w_host w)) as [[a|e|p] h]; [by split..|done].
Qed.
Lemma sc_in_fs {A} (m : M FS A) : safe m → pres (in_fs m).
Proof.
  intros Hs w [? ? ?]. unfold wp, in_fs. specialize (Hs (w_fs w)).
  destruct (m (w_fs w)) as [[a|e|p] h]; [by split..|done].
Qed.
Lemma sc_in_store {A} (m : M (State * FS) A) :
  (∀ s fs, wp m (s, fs) (λ _ p, snapshots_only s p.1) (λ p, snapshots_only s p.1)) →
  pres (in_store m).
Proof.
  intros Hm w [? ? ?]. specialize (Hm (w_state w) (w_fs w)). unfold wp, in_store in *.
  destruct (m _) as [[a|e|p] [s fs]]; [..|done]; cbn [fst] in Hm; destruct Hm as (sn & l & ->);
    by split.
Qed.
Lemma sc_collect_warnings : registry_ok (w_registry w0) → pres collect_warnings.
Proof.
  intros Hreg. unfold collect_warnings. eapply (pres_gets_bind _ (all_registered w0)).
  - intros w [-> _ _] ns. unfold Registry.List.
    intros ([ns' p] & -> & Hin%range_elem)%list_elem_of_fmap. by exists p.
  - intros l Hl. apply pres_bind; [|auto with preserves]. apply pres_for_each. intros ns Hns.
    eapply (pres_gets_bind _ is_Some); [intros w [-> _ _]; by apply Hl|]. intros plugin [p ->].
    apply pres_bind; [|auto with preserves]. apply pres_attempt, sc_in_host. auto with safe.
Qed.
End frame.

Lemma in_world_inv {A} (m : M World A) s r s' :
  in_world m s = (r, s') → m (sys_world s) = (r, sys_world s').
Proof. unfold in_world. destruct (m (sys_world s)) as [r' w]. by intros [= <- <-]. Qed.
Lemma in_kernel_world {A} (m : M kernel A) s r s' :
  in_kernel m s = (r, s') → sys_world s' = sys_world s.
Proof. unfold in_kernel. destruct (m (sys_kernel s)) as [r' k]. by intros [= _ <-]. Qed.
Lemma mark_change_world s r s' : mark_change s = (r, s') → sys_world s' = sys_world s.
Proof.
  unfold mark_change. destruct (sys_observer s) as [o|]; [|by intros [= _ <-]].
  destruct (MarkChange o). by intros [= _ <-].
Qed.

(** The order contains the namespace of every enabled plugin. *)
Definition enabled_namespace (jc : JackConfig) (w : World) (ns : string) : Prop :=
  ∃ name st, gm (jc_Plugins jc) !! name = Some st ∧ ps_Enabled st = true ∧
    Registry.GetNamespaceForPlugin name (w_registry w) = Some ns.
Lemma plugin_order_enabled w l w1 jc :
  plugin_order w = (Ok l, w1) → GetCurrentJackConfig (w_state w) = Some jc →
  same_configs w w1 ∧ ∀ ns, enabled_namespace jc w ns → ns ∈ l.
Proof.
  unfold plugin_order. intros (o & w2 & E & E')%bind_ok_inv. injection E as <- <-. intros Hjc.
  rewrite Hjc in E'. apply bind_ok_inv in E' as (names & w2 & E & E').
  assert (same_configs w w2) as [Hp Hr Hh].
  { refine (pres_run _ _ _ _ _ _ _ E); [apply sc_in_host, safe_orderPlugins|done]. }
  injection E' as <- <-. split; [done|]. intros ns (name & st & Hl & Hen & Hns).
  rewrite Hp. apply list_elem_of_omap. exists name. split; [|done].
  destruct (ordered_plugins (jc_Plugins jc) (w_host w)) as (names' & h' & E2 & _ & Hin).
  unfold in_host in E. rewrite E2 in E. injection E as <- _. apply Hin. by exists st.
Qed.

Lemma plugins_and_routes_done snapshot s ws s' :
  registry_ok (w_registry (sys_world s)) →
  apply_plugins_and_routes snapshot s = (Ok ws, s') →
  ∃ l w1 w2, plugin_order (sys_world s) = (Ok l, w1) ∧ apply_plugins l w1 = (Ok None, w2) ∧
    (registry_ok (w_registry w2) → same_configs w2 (sys_world s')).
Proof.
  intros Hreg. unfold apply_plugins_and_routes.
  intros (l & s1 & E1%in_world_inv & E)%bind_ok_inv.
  apply bind_ok_inv in E as (r & s2 & E2%in_world_inv & E). exists l, (sys_world s1), (sys_world s2).
  destruct r as [e|].
  { apply bind_ok_inv in E as (? & ? & _ & E). by apply bind_ok_inv in E as (? & ? & _ & E). }
  split; [done|]. split; [done|]. intros Hreg2.
  apply bind_ok_inv in E as (rc & s3 & E3%attempt_inv%in_world_inv & E).
  assert (same_configs (sys_world s2) (sys_world s3)) as H3'.
  { refine (pres_run _ _ _ _ _ _ _ E3); [apply sc_in_fs; auto with safe|done]. }
  assert (∀ s4, same_configs (sys_world s2) (sys_world s4) →
    in_world collect_warnings s4 = (Ok ws, s') → same_configs (sys_world s2) (sys_world s')) as Hw.
  { intros s4 H4' E4%in_world_inv. exact (pres_run _ _ _ _ _ (sc_collect_warnings _ Hreg2) H4' E4). }
  destruct rc as [rc|e|x]; [|by eapply Hw..].
  apply bind_ok_inv in E as (r & s4 & E4%attempt_inv%in_kernel_world & E).
  rewrite <- E4 in H3'. destruct r as [[]|e|x]; [by eapply Hw| |by eapply Hw].
  apply bind_ok_inv in E as (? & ? & _ & E). by apply bind_ok_inv in E as (? & ? & _ & E).
Qed.

Lemma has_name_enabled w jc ns :
  registry_ok (w_registry w) → enabled_namespace jc w ns → has_name ns w.
Proof.
  intros Hreg (name & st & _ & _ & Hns). unfold has_name, Registry.GetPluginNameForNamespace.
  by rewrite (name_for_ok _ _ _ Hreg Hns).
Qed.

(** Up to the capture and the saved snapshot the configurations are those of
    before. *)
Lemma handleApply_done now s resp s' :
  handleApply now s = (Ok resp, s') → rp_Success resp = true →
  ∃ snapshot s1 ws s2, same_configs (sys_world s) (sys_world s1) ∧
    apply_plugins_and_routes snapshot s1 = (Ok ws, s2) ∧
    same_configs (sys_world s2) (sys_world s').
Proof.
  unfold handleApply. intros (r & s1 & E1%attempt_inv%in_kernel_world & E)%bind_ok_inv Hresp.
  destruct r as [snapshot|e|x]; [|by injection E as <- _|done].
  apply bind_ok_inv in E as ([] & s2 & E2 & E). unfold logged in E2.
  apply bind_ok_inv in E2 as (r2 & s2' & E2%attempt_inv%in_world_inv & E2').
  injection E2' as ->.
  assert (same_configs (sys_world s) (sys_world s2)) as H2'.
  { refine (pres_run _ _ _ _ _ _ _ E2); [|by rewrite E1]. apply sc_in_store. intros.
    apply wp_SaveSnapshot. }
  apply bind_ok_inv in E as (r3 & s3 & E3%attempt_inv & E).
  destruct r3 as [ws|e|x]; [|by injection E as <- _|done].
  apply bind_ok_inv in E as ([] & s4 & E4%in_world_inv & E).
  apply bind_ok_inv in E as (l & s5 & E5%in_world_inv & E). injection E as _ <-.
  injection E5 as _ E5.
  unfold executeApplyWithRollback in E3.
  apply bind_ok_inv in E3 as ([] & t1 & F1%mark_change_world & E3).
  apply bind_ok_inv in E3 as ([] & t2 & F2 & E3).
  assert (sys_world t2 = sys_world t1) as F2'.
  { unfold wrapM in F2. destruct (in_kernel EnableIPForwarding t1) as [r t] eqn:F.
    injection F2 as _ <-. by eapply in_kernel_world. }
  apply bind_ok_inv in E3 as (ic & t3 & F3%in_world_inv & E3). injection F3 as _ F3.
  destruct ic as [ic|]; [|done].
  apply bind_ok_inv in E3 as (failed & t4 & F4%in_kernel_world & E3). destruct failed as [e|].
  { by apply bind_ok_inv in E3 as (? & ? & _ & E3). }
  exists snapshot, t4, ws, s3. split; [|split; [done|]].
  - by rewrite F4, <- F3, F2', F1.
  - rewrite <- E5. refine (pres_run _ _ _ _ _ _ _ E4); [|done]. apply sc_in_store. intros st fs.
    destruct (PruneOldSnapshots_spec 10 st fs) as (m & fs' & Ep & _). unfold wp. rewrite Ep. cbn.
    by eexists _, _.
Qed.
(** The checkpoint that an apply saves is kept in memory, on disk if it can. *)
Lemma logged_SaveSnapshot id snapshot w k o :
  ∃ w1, logged (in_world (in_store (SaveSnapshot id snapshot)))
      {| sys_world := w; sys_kernel := k; sys_observer := o |} =
      (Ok (), {| sys_world := w1; sys_kernel := k; sys_observer := o |}) ∧
    same_configs w w1 ∧ w_services w1 = w_services w ∧ w_host w1 = w_host w ∧
    snapshots (w_state w1) !! id = Some snapshot.
Proof.
  pose proof (wp_SaveSnapshot id snapshot (w_state w) (w_fs w)) as Hp.
  exists (in_store (SaveSnapshot id snapshot) w).2. revert Hp.
  unfold wp, logged, attempt, in_world, in_store, mbind, M_bind.
  cbn [sys_world]. destruct (SaveSnapshot _ _ _) as [r [s fs]] eqn:E. cbn.
  assert (snapshots s !! id = Some snapshot) as Hl.
  { unfold SaveSnapshot, on_state, on_fs, mbind, M_bind in E. cbn in E.
    destruct (persistSnapshot _ _ _). injection E as _ <- _. cbn. by rewrite lookup_insert_eq. }
  destruct r as [[]|e|x]; [..|done]; cbn; intros (m & l & ->); by split_and!.
Qed.
(** An interface that fails: the plugins are not reached. *)
Lemma execute_interface_failure snapshot w k o k1 ic err k2 :
  EnableIPForwarding k = (Ok (), k1) →
  GetCommittedInterfaces (w_state w) = Some ic →
  apply_interfaces (gm (ic_Interfaces ic)) (orderInterfaces (ic_Interfaces ic)) k1
    = (Ok (Some err), k2) →
  ∃ o', executeApplyWithRollback snapshot {| sys_world := w; sys_kernel := k; sys_observer := o |} =
    (Err err, {| sys_world := w; sys_observer := o';
       sys_kernel := (RestoreSnapshot snapshot ["ipforward"; "interfaces"] k2).2 |}).
Proof.
  intros Hf Hic Ha. pose proof (safe_RestoreSnapshot snapshot ["ipforward"; "interfaces"] k2) as Hs.
  assert (∃ o', mark_change {| sys_world := w; sys_kernel := k; sys_observer := o |} =
    (Ok (), {| sys_world := w; sys_kernel := k; sys_observer := o' |})) as [o' Em].
  { unfold mark_change. cbn. destruct o as [o|]; by eauto. }
  exists o'. unfold executeApplyWithRollback. rewrite (bind_eq _ _ _ _ _ Em).
  rewrite (bind_eq _ _ _ () {| sys_world := w; sys_kernel := k1; sys_observer := o' |})
    by (unfold wrapM, in_kernel; cbn; by rewrite Hf).
  rewrite (bind_eq _ _ _ (Some ic) {| sys_world := w; sys_kernel := k1; sys_observer := o' |})
    by (unfold in_world, with_state, gets; cbn; by rewrite Hic).
  cbv zeta. rewrite (bind_eq _ _ _ (Some err) {| sys_world := w; sys_kernel := k2; sys_observer := o' |})
    by (unfold in_kernel; cbn; by rewrite Ha).
  unfold logged, attempt, in_kernel, mbind, M_bind. cbn [sys_kernel sys_world sys_observer].
  by destruct (RestoreSnapshot _ _ k2) as [[[]|e|x] k3].
Qed.
End settles.

(** ** Properties *)

(** C7: apply, rollback and checkpoint creation always answer the client,
    whatever the plugin processes, the files, the commands and the kernel do.
    What is committed or pending stays as it was, configuration objects do not
    change, no two configurations become shared, and the plugin and service
    registries stay consistent.  (For apply, an interfaces configuration has
    been loaded: without one it panics.) *)
Theorem apply_commands_answer `{HostSafe} `{RangeOrder} `{OS} `{Clock} `{LinkLaws} `{!ReadLaws}
    `{!CommandLaws} now id s :
  registry_ok (w_registry (sys_world s)) → services_ok (w_services (sys_world s)) →
  let answered m := ∃ resp s', m s = (Ok resp, s') ∧ world_kept (sys_world s) (sys_world s') in
  (GetCommittedInterfaces (w_state (sys_world s)) ≠ None → answered (handleApply now)) ∧
  answered (handleRollback id) ∧ answered (handleCheckpointCreate now).
Proof.
  intros Hreg Hsvc. assert (sys_kept s s) as Hs.
  { split; [apply configs_kept_refl|done..]. }
  assert (∀ m : M Sys Response, answers (sys_kept s) m → ∃ resp s', m s = (Ok resp, s') ∧
    world_kept (sys_world s) (sys_world s')) as Hans.
  { intros m Hm. specialize (Hm s Hs). revert Hm. unfold wp.
    destruct (m s) as [[resp|e|w] s']; [|done..]. intros Hk. by exists resp, s'. }
  split_and!; [intros Hic|..]; apply Hans.
  - by apply ans_handleApply.
  - by apply ans_handleRollback.
  - by apply ans_handleCheckpointCreate.
Qed.



(** C10: when an interface cannot be configured, apply reports the error and no
    plugin is touched: plugin processes, registries, configurations and what
    was last applied are as before, the checkpoint is kept in memory, and the
    kernel is the one the restore of links and IP forwarding leaves. *)
Theorem handleApply_interface_failure `{HostSafe} `{RangeOrder} `{OS} `{Clock} `{LinkLaws}
    `{!ReadLaws} `{!CommandLaws} now s snapshot k1 ic err k2 :
  let w := sys_world s in
  CaptureSystemSnapshot now (sys_kernel s) = (Ok snapshot, sys_kernel s) →
  EnableIPForwarding (sys_kernel s) = (Ok (), k1) →
  GetCommittedInterfaces (w_state w) = Some ic →
  apply_interfaces (gm (ic_Interfaces ic)) (orderInterfaces (ic_Interfaces ic)) k1
    = (Ok (Some err), k2) →
  ∃ s', handleApply now s =
      (Ok (fail_response ("apply failed, rolled back to checkpoint " +:+ ss_CheckpointID snapshot
                          +:+ ": " +:+ error_string err)), s') ∧
    sys_kernel s' = (RestoreSnapshot snapshot ["ipforward"; "interfaces"] k2).2 ∧
    same_configs w (sys_world s') ∧ w_services (sys_world s') = w_services w ∧
    w_host (sys_world s') = w_host w ∧
    snapshots (w_state (sys_world s')) !! ss_CheckpointID snapshot = Some snapshot.
Proof.
  intros w Hc Hf Hic Ha. destruct s as [w' k o]. cbn [sys_world sys_kernel] in *. subst w.
  unfold handleApply.
  rewrite (bind_eq _ _ _ (Ok snapshot) {| sys_world := w'; sys_kernel := k; sys_observer := o |})
    by (unfold attempt, in_kernel; cbn; by rewrite Hc).
  destruct (logged_SaveSnapshot (ss_CheckpointID snapshot) snapshot w' k o)
    as (w1 & Hlog & Hw & Hsv & Hh & Hsnap). rewrite (bind_eq _ _ _ _ _ Hlog).
  assert (GetCommittedInterfaces (w_state w1) = Some ic) as Hic1.
  { rewrite <- Hic. destruct Hw as [_ Hr Hhp].
    unfold GetCommittedInterfaces, object_of, GetCommitted, deref. by rewrite Hr, Hhp. }
  destruct (execute_interface_failure snapshot w1 k o k1 ic err k2 Hf Hic1 Ha) as [o' Ex].
  exists {| sys_world := w1; sys_observer := o';
    sys_kernel := (RestoreSnapshot snapshot ["ipforward"; "interfaces"] k2).2 |}.
  split; [|by split_and!].
  erewrite (bind_eq _ _ _ (Err err)) by (unfold attempt; by rewrite Ex). done.
Qed.

(** ** The properties at concrete inputs *)

(** The daemon with the sqlite3 plugin loaded and an interfaces configuration,
    on the sample kernel. *)
Definition apply_world (ic : InterfacesConfig) : World (H:=db_host) :=
  let w := (@loadPlugins db_host default_order reliable_os db_world).2 in
  let '(l, s) := alloc (OIfaces ic) (w_state w) in
  set_state (LoadCommitted "interfaces" (Some l) s) w.
Definition apply_sys (ic : InterfacesConfig) : @Sys db_host memory_kernel :=
  {| sys_world := apply_world ic; sys_kernel := bridge_kernel : @kernel memory_kernel;
     sys_observer := None |}.
Definition lan_only : InterfacesConfig :=
  {| ic_Interfaces := Some {["lan" := static_iface "bridge" "br-lan" "192.168.1.1" ["lan1"; "lan2"]]};
     ic_Version := "1.0" |}.
Definition lan_and_missing : InterfacesConfig :=
  {| ic_Interfaces := Some {["lan" := static_iface "bridge" "br-lan" "192.168.1.1" ["lan1"; "lan2"];
                             "wan" := static_iface "physical" "eth9" "10.1.0.2" []]};
     ic_Version := "1.0" |}.

Lemma apply_world_ok ic :
  registry_ok (w_registry (apply_world ic)) ∧ services_ok (w_services (apply_world ic)).
Proof.
  destruct (@runs_loadPlugins db_host db_host_safe default_order reliable_os (λ _, "database")
    db_host_stable db_world db_world_ok) as (r & w' & E & _ & [Hr Hs _]).
  unfold apply_world. unfold attempt in E.
  destruct (@loadPlugins db_host default_order reliable_os db_world) as [[a|e|p] w]; [| |done];
    injection E as _ ->; cbn [snd]; by destruct (alloc _ _).
Qed.
(** The result of a run that returns. *)
Definition answer {S} (p : res Response * S) : Response :=
  match p.1 with Ok r => r | _ => fail_response "" end.
Lemma answer_success {S} (p : res Response * S) :
  rp_Success (answer p) = true → p = (Ok (answer p), p.2).
Proof. by destruct p as [[r|e|w] s]. Qed.

Lemma apply_commands_answer_witness :
  ∃ resp s', @handleApply db_host default_order reliable_os half_seconds memory_kernel 0
    (apply_sys lan_and_missing) = (Ok resp, s') ∧
    world_kept (sys_world (apply_sys lan_and_missing)) (sys_world s').
Proof.
  destruct (apply_world_ok lan_and_missing) as [Hr Hs].
  apply (@apply_commands_answer db_host db_host_safe default_order reliable_os half_seconds
    memory_kernel memory_laws memory_link_laws memory_read_laws memory_command_laws 0 ""
    (apply_sys lan_and_missing) Hr Hs).
  intros E. vm_compute in E. discriminate E.
Defined.

Lemma only_name `{Host} `{RangeOrder} n t ns w :
  pr_nameToNS (w_registry w) = {[n := t]} → has_name ns w → ns = t.
Proof.
  intros Hn. unfold has_name, Registry.GetPluginNameForNamespace. rewrite Hn.
  destruct (Registry.name_for _ _) as [m|] eqn:E; [intros _|done].
  apply name_for_Some in E. by apply lookup_singleton_Some in E as [_ <-].
Qed.
Lemma apply_world_names :
  pr_nameToNS (w_registry (apply_world lan_only)) = {["sqlite3" := "database"]}.
Proof. vm_compute. reflexivity. Qed.
(** Loading fills in the version. *)
Definition loaded_jack : JackConfig :=
  {| jc_Plugins := Some {["sqlite3" := {| ps_Version := "1.0"; ps_Enabled := true |}]};
     jc_Observer := None; jc_Logging := None; jc_Version := "1.0" |}.

Lemma handleApply_interface_failure_witness :
  let s := apply_sys lan_and_missing in
  let k1 := (@EnableIPForwarding memory_kernel bridge_kernel).2 in
  ∃ s', @handleApply db_host default_order reliable_os half_seconds memory_kernel 1000000000000 s =
    (Ok (fail_response ("apply failed, rolled back to checkpoint auto-1000: " +:+
       "interface wan: failed to find interface eth9: netlink: Link not found")), s') ∧
    w_host (sys_world s') = w_host (sys_world s) ∧
    snapshots (w_state (sys_world s')) !! "auto-1000" = Some captured_bridge.
Proof.
  intros s k1.
  destruct (@handleApply_interface_failure db_host db_host_safe default_order reliable_os half_seconds
    memory_kernel memory_laws memory_link_laws memory_read_laws memory_command_laws
    1000000000000 s captured_bridge k1 lan_and_missing
    (Wrapf "interface wan: " (Wrapf "failed to find interface eth9: " (errno "Link not found")))
    (@apply_interfaces memory_kernel (gm (ic_Interfaces lan_and_missing))
      (@orderInterfaces default_order (ic_Interfaces lan_and_missing)) k1).2)
    as (s' & E & _ & _ & _ & Hh & Hs).
  - vm_compute. reflexivity.
  - refine (run_eq (@EnableIPForwarding memory_kernel bridge_kernel) (Ok ()) _).
    vm_compute. reflexivity.
  - vm_compute. reflexivity.
  - refine (run_eq (@apply_interfaces memory_kernel (gm (ic_Interfaces lan_and_missing))
      (@orderInterfaces default_order (ic_Interfaces lan_and_missing)) k1) _ _).
    vm_compute. reflexivity.
  - exact (ex_intro _ s' (conj E (conj Hh Hs))).
Defined.

(** ** Findings *)

(** A plugin host that records the configurations it is sent. *)
Definition recording_host : Host := {|
  host := list json;
  h_executable p := mret (String.eqb p "bin/jack-plugin-sqlite3"); h_ReadDir _ := mret [];
  h_NewPluginClient _ := mret 1%positive; h_Dispense _ := mret ();
  h_Metadata _ := mret db_metadata; h_SetupDaemonService _ := mret ();
  h_ApplyConfig _ c := modify (λ l, l ++ [c]); h_ValidateConfig _ _ := mret ();
  h_Flush _ := mret (); h_Status _ := mret JNull; h_ExecuteCLICommand _ _ _ := mret "";
  h_CallService _ _ _ _ := mret (Some JNull);
  h_Close _ := mret () |}.
(** The daemon with no plugin, then sqlite3 enabled while it runs. *)
Definition enabled_world : World (H:=recording_host) :=
  (@handlePluginEnable recording_host default_order reliable_os "sqlite3"
    {| w_state := NewState;
       w_fs := {| fs_files := ∅; fs_tick := 0 |};
       w_registry := NewPluginRegistry; w_services := NewServiceRegistry;
       w_host := [] : host (Host:=recording_host) |}).2.
Definition apply_twice : World (H:=recording_host) :=
  (@apply_plugins recording_host default_order reliable_os ["database"]
    (@apply_plugins recording_host default_order reliable_os ["database"] enabled_world).2).2.
(** The namespace has no committed configuration but, after the first apply, an
    entry, so the second apply sends the plugin a null configuration. *)
Example second_apply_sends_null :
  w_host enabled_world = [JObj [("path", JStr "/var/lib/jack/logs.db")]] ∧
  w_host apply_twice = w_host enabled_world ++ [JObj [("path", JStr "/var/lib/jack/logs.db")]; JNull].
Proof. split; vm_compute; reflexivity. Qed.

(** A default route that an interface with a gateway replaced does not come back
    when a later interface fails: links are restored, routes are not. *)
Definition gateway_iface : Interface :=
  {| if_IPv6 := None; if_Gateway := "192.168.1.254"; if_Comment := ""; if_MAC := "";
     if_Type := "physical"; if_Device := "lan2"; if_DeviceName := ""; if_Protocol := "static";
     if_IPAddr := "192.168.1.2"; if_WGPrivateKey := ""; if_Netmask := "255.255.255.0";
     if_BridgePorts := []; if_DNS := []; if_WGPeers := []; if_Metric := 0; if_MTU := 0;
     if_BridgeForwardDelay := 0; if_VLANId := 0; if_WGListenPort := 0; if_Enabled := true;
     if_BridgeSTP := false |}.
Definition gateway_then_missing : InterfacesConfig :=
  {| ic_Interfaces := Some {["wan" := gateway_iface; "vpn" := static_iface "vlan" "eth9" "10.1.0.2" []]};
     ic_Version := "1.0" |}.
Definition routed_sys : @Sys db_host memory_kernel :=
  {| sys_world := apply_world gateway_then_missing; sys_observer := None;
     sys_kernel := {| mem_links := mem_links bridge_kernel; mem_addrs := mem_addrs bridge_kernel;
       mem_routes := [{| nr_Dst := None; nr_Gw := [10; 0; 0; 254]; nr_LinkIndex := 2; nr_Priority := 0;
                         nr_Table := MAIN_TABLE; nr_Protocol := 4; nr_Scope := 0 |}];
       mem_files := ∅ |} : @kernel memory_kernel |}.
Example failed_apply_loses_default_route :
  let p := @handleApply db_host default_order reliable_os half_seconds memory_kernel 0 routed_sys in
  rp_Success (answer p) = false ∧
  IP_String ∘ nr_Gw <$> mem_routes (sys_kernel p.2) = ["192.168.1.254"] ∧
  mem_addrs (sys_kernel p.2) 4 = [].
Proof. vm_compute. auto. Qed.
