(* ===== verification/Daemon.v ===== *)
(** * Daemon: start-up, requests and shut-down (daemon/server.go, daemon/protocol.go)

    What [Start] does before it accepts connections, and the dispatch of the
    requests that arrive then, over the whole system of [Apply].  [now] is the
    time of day.  The daemon as a state machine: requests one after the other,
    in any order.  The theorems: start-up establishes the invariants of the
    daemon, and every request keeps them.  The info command is in [Inspect], the
    socket in [Client]; log output is left out. *)
From S2P Require Import Prelude GoStr GoNet Types Json Value Struct Codec Path Diff ConfigStore State Registry Services Loader Order Server PluginCommands Observer Netlink Routes Network Snapshot Interfaces Apply.

Section daemon.
Context `{Host} `{RangeOrder} `{OS} `{Clock} `{Kernel} `{FloatToInt}.

(** ** Start *)

(** The files and the kernel. *)
Definition in_files_and_kernel {A} (m : M (FS * kernel) A) : M Sys A := λ s,
  let w := sys_world s in
  match m (w_fs w, sys_kernel s) with
  | (r, (fs, k)) =>
      (r, {| sys_world := {| w_state := w_state w; w_fs := fs; w_registry := w_registry w;
                             w_services := w_services w; w_host := w_host w |};
             sys_kernel := k; sys_observer := sys_observer s |})
  end.
(** [s.networkObserver = NewNetworkObserver(s)] *)
Definition new_observer : M Sys () := λ s,
  (Ok (), {| sys_world := sys_world s; sys_kernel := sys_kernel s;
             sys_observer := Some (NewNetworkObserver (w_state (sys_world s)) 0) |}).
(** [s.state.LoadCommitted(configType, config)] with a new object. *)
Definition load_committed (configType : string) (config : config_obj) : M World () :=
  update_state (λ s, let '(l, s) := alloc config s in LoadCommitted configType (Some l) s).

(** The configuration of one registered namespace: its file's, the plugin's
    default one, or an empty one. *)
Definition load_plugin_config (namespace : string) : M World () :=
  gets (λ w, Registry.GetPluginNameForNamespace namespace (w_registry w)) ≫= λ pluginName,
  match pluginName with
  | None => mret ()
  | Some pluginName =>
      attempt (in_fs (LoadConfig Unmarshal_map pluginName)) ≫= λ loaded,
      gets (λ w, Registry.Get namespace (w_registry w)) ≫= λ plugin,
      load_committed namespace (OMap
        match loaded with
        | Ok config => config
        | _ =>
            match plugin ≫= λ plugin, pm_DefaultConfig (Metadata plugin) with
            | Some config => Some config
            | None => Some ∅
            end
        end)
  end.
Definition load_plugin_configs : M World () :=
  gets (λ w, Registry.List (w_registry w)) ≫= λ namespaces,
  for_each namespaces load_plugin_config.

(** The routes file, or no routes. *)
Definition load_routes : M World RoutesConfig :=
  attempt (in_fs (LoadConfig Unmarshal_RoutesConfig "routes")) ≫= λ loaded,
  mret match loaded with
       | Ok routesConfig => routesConfig
       | _ => {| rc_Routes := Some ∅; rc_Version := "" |}
       end.

(** Interfaces and routes only: the plugins are configured as they are loaded. *)
Definition apply_on_startup (interfacesConfig : InterfacesConfig) (routesConfig : RoutesConfig)
    : M Sys () :=
  mark_change ≫= λ _,
  for_each (orderInterfaces (ic_Interfaces interfacesConfig)) (λ name,
    logged (in_kernel (ApplyInterfaceConfig name
      (default zero_Interface (gm (ic_Interfaces interfacesConfig) !! name))))) ≫= λ _,
  logged (in_kernel (ApplyRoutesConfig (Some routesConfig))).

(** Up to the loop that accepts connections.  The error of the interfaces file
    also has a hint appended to its text, which is left out. *)
Definition Start (applyOnStartup : bool) : M Sys () :=
  logged (in_world loadPlugins) ≫= λ _,
  new_observer ≫= λ _,
  logged (in_world (in_store LoadSnapshotsFromDisk)) ≫= λ _,
  wrapM "failed to load interfaces config: "
    (in_files_and_kernel LoadInterfacesConfig) ≫= λ interfacesConfig,
  in_world (load_committed "interfaces" (OIfaces interfacesConfig)) ≫= λ _,
  in_world load_routes ≫= λ routesConfig,
  in_world (load_committed "routes" (ORoutes routesConfig)) ≫= λ _,
  in_world load_plugin_configs ≫= λ _,
  if applyOnStartup then apply_on_startup interfacesConfig routesConfig else mret ().

(** The daemon [NewServer] makes. *)
Definition NewServer (fs : FS) (h : host) (k : kernel) : Sys :=
  {| sys_world := {| w_state := NewState; w_fs := fs; w_registry := NewPluginRegistry;
                     w_services := NewServiceRegistry; w_host := h |};
     sys_kernel := k; sys_observer := None |}.

(** ** Requests *)

(** [logs-subscribe] does not come this far; its filter is in [Client]. *)
Record Request := {
  rq_Value : value; rq_Command : string; rq_Path : string; rq_Plugin : string;
  rq_CLICommand : string; rq_CLIArgs : list string; rq_CheckpointID : string;
}.
(** [s.handlers], but for info, whose handler is in [Inspect]. *)
Definition handlers (now : Z) (req : Request) : list (string * M Sys Response) :=
  [("status", in_world handleStatus); ("diff", in_world handleDiff);
   ("commit", in_world handleCommit); ("revert", in_world handleRevert);
   ("apply", handleApply now); ("show", in_world (handleShow (rq_Path req)));
   ("get", in_world (handleGet (rq_Path req)));
   ("set", in_world (handleSet (rq_Path req) (rq_Value req)));
   ("validate", in_world (handleValidate (rq_Path req) (rq_Value req)));
   ("plugin-enable", in_world (handlePluginEnable (rq_Plugin req)));
   ("plugin-disable", in_world (handlePluginDisable (rq_Plugin req)));
   ("plugin-rescan", in_world handlePluginRescan);
   ("plugin-cli", in_world (handlePluginCLI (rq_Plugin req) (rq_CLICommand req) (rq_CLIArgs req)));
   ("rollback", handleRollback (rq_CheckpointID req));
   ("checkpoint-list", in_world handleCheckpointList);
   ("checkpoint-create", handleCheckpointCreate now)].
(** [None]: the info command, which [respond] of [Client] answers. *)
Definition handleRequest (now : Z) (req : Request) : option (M Sys Response) :=
  if bool_decide (rq_Command req = "info") then None else
  Some match List.find (λ p, bool_decide (p.1 = rq_Command req)) (handlers now req) with
       | Some (_, handler) => handler
       | None => mret (fail_response ("unknown command: " +:+ rq_Command req))
       end.

(** What [Stop] does besides closing the socket. *)
Definition Stop : M World () := gets w_registry ≫= λ registry, in_host (CloseAll registry).

(** ** The state machine *)

(** A request that is answered; one that panics ends the daemon. *)
Inductive daemon_step : Sys → Sys → Prop :=
| step_request now req handler resp s s' :
    handleRequest now req = Some handler → handler s = (Ok resp, s') → daemon_step s s'.
(** The states of a daemon whose start-up succeeded. *)
Inductive daemon_state (fs : FS) (h : host) (k : kernel) : Sys → Prop :=
| state_started apply s : Start apply (NewServer fs h k) = (Ok (), s) → daemon_state fs h k s
| state_step s s' : daemon_state fs h k s → daemon_step s s' → daemon_state fs h k s'.
End daemon.

(** ** Lemmas: what the commands leave alone *)

Section frames.
Context `{Host} `{RangeOrder} `{OS} `{FloatToInt}.

(** An invariant that plugin processes and files do not matter for. *)
Context (I : World → Prop).
Context (I_host : ∀ A (m : M host A), maintains I (in_host m)).
Context (I_fs : ∀ A (m : M FS A), maintains I (in_fs m)).
Notation keeps := (maintains I).

Lemma mt_or_fail {A} p (r : res A) k : (∀ a, keeps (k a)) → keeps (or_fail p r k).
Proof. intros Hk. destruct r; cbn; auto with maintains. Qed.
Lemma mt_try_or_fail {A} p (m : M World A) k :
  keeps m → (∀ a, keeps (k a)) → keeps (try_or_fail p m k).
Proof. intros. unfold try_or_fail. auto using mt_or_fail with maintains. Qed.
Lemma mt_ignore {A} (m : M World A) : keeps m → keeps (ignore m).
Proof. intros. unfold ignore. auto with maintains. Qed.
Lemma mt_with_state {A} (f : State → A) : keeps (with_state f).
Proof. apply mt_gets. Qed.
(** A sequence of calls, tests and error returns. *)
Ltac solve_maintains :=
  repeat first
    [ solve [eauto 3 with maintains nocore] | apply I_host | apply I_fs | apply mt_with_state
    | apply mt_bind; [|intros ?] | apply mt_or_fail; intros ? | apply mt_try_or_fail; [|intros ?]
    | apply mt_ignore | apply mt_for_each; intros ? | apply mt_attempt | case_match ].

Lemma mt_handlePluginRescan : keeps handlePluginRescan.
Proof. unfold handlePluginRescan. solve_maintains. Qed.
Lemma mt_handlePluginCLI name c args : keeps (handlePluginCLI name c args).
Proof. unfold handlePluginCLI. solve_maintains. Qed.

Section state.
Context (I_state : ∀ f, maintains I (update_state f)).
Lemma mt_collect_diffs s types : ∀ acc k, (∀ l, keeps (k l)) → keeps (collect_diffs s types acc k).
Proof.
  induction types as [|t types IH]; intros acc k Hk; cbn [collect_diffs]; [apply Hk|].
  do 3 (apply mt_or_fail; intros ?). by apply IH.
Qed.
Lemma mt_validate_types types : ∀ v, keeps (validate_types types v).
Proof.
  induction types as [|t types IH]; intros v; cbn [validate_types]; [apply mt_ret|].
  apply mt_bind; [apply mt_with_state|]. intros s. destruct (GetCurrent t s) as [c|e|p]; [|apply IH|apply mt_lift].
  do 2 (case_match; [apply IH|]). apply mt_bind; [apply mt_gets|]. intros [p|]; [|apply IH].
  apply mt_bind; [apply mt_attempt, I_host|]. intros []; apply IH.
Qed.
Lemma mt_save_types types : ∀ k, keeps k → keeps (save_types types k).
Proof.
  induction types as [|t types IH]; intros k Hk; cbn [save_types]; [done|].
  apply mt_bind; [apply mt_with_state|]. intros s. apply mt_or_fail. intros c.
  apply mt_bind; [apply mt_gets|]. intros n. apply mt_try_or_fail; [apply I_fs|]. intros _. by apply IH.
Qed.
Lemma mt_handle_config req : keeps (handle_config req).
Proof.
  destruct req; cbn [handle_config].
  - unfold handleStatus. solve_maintains.
  - unfold handleDiff. apply mt_bind; [apply mt_with_state|]. intros s. case_match; [|apply mt_ret].
    apply mt_collect_diffs. intros l. apply mt_ret.
  - unfold handleCommit, validatePending. pose proof mt_validate_types. pose proof mt_save_types.
    solve_maintains.
  - unfold handleRevert. solve_maintains.
  - unfold handleShow. solve_maintains.
  - unfold handleGet. solve_maintains.
  - unfold handleSet. solve_maintains.
  - unfold handleValidate. solve_maintains.
  - unfold handleCheckpointList. solve_maintains.
Qed.
End state.

Section plugins.
Context (I_registry : ∀ f, maintains I (update_registry f)).
Context (I_services : ∀ A (m : M ServiceRegistry A), maintains I (in_services m)).
Lemma mt_register_plugin p name : keeps (register_plugin p name).
Proof. unfold register_plugin. solve_maintains. Qed.
Lemma mt_handlePluginEnable name : keeps (handlePluginEnable name).
Proof.
  unfold handlePluginEnable, apply_initial, save_jack. pose proof mt_register_plugin. solve_maintains.
Qed.
Lemma mt_handlePluginDisable name : keeps (handlePluginDisable name).
Proof. unfold handlePluginDisable, save_jack. solve_maintains. Qed.

(** Loading also stores new configuration objects. *)
Context (I_load : ∀ t o, maintains I (load_committed t o)).
Lemma mt_loadSinglePlugin name jc : keeps (loadSinglePlugin name jc).
Proof.
  unfold loadSinglePlugin, initial_config, mark_ready. pose proof mt_register_plugin.
  pose proof I_load as Hl. unfold load_committed in Hl. solve_maintains.
Qed.
Lemma mt_wave l : ∀ loaded n jc, keeps (wave l loaded n jc).
Proof.
  induction l as [|name l IH]; intros loaded n jc; cbn [wave]; [apply mt_ret|].
  case_decide; [apply IH|]. apply mt_bind; [unfold canLoadPlugin; solve_maintains|].
  intros [[] ?]; [|apply IH]. apply mt_bind; [apply mt_loadSinglePlugin|]. intros []. apply IH.
Qed.
Lemma mt_waves fuel l : ∀ loaded jc, keeps (waves fuel l loaded jc).
Proof.
  induction fuel as [|fuel IH]; intros loaded jc; cbn [waves]; case_match; try apply mt_ret.
  apply mt_bind; [apply mt_wave|]. intros [[] ?]. case_match; [apply mt_ret|apply IH].
Qed.
Lemma mt_loadPlugins : keeps loadPlugins.
Proof.
  unfold loadPlugins. pose proof mt_waves. pose proof I_load as Hl. unfold load_committed in Hl.
  solve_maintains.
Qed.
End plugins.
End frames.

(** ** Lemmas: one request *)

(** The invariants of the daemon. *)
Record daemon_ok `{Host} (ns_of : string → string) (w : World) : Prop := {
  dk_plugins : plugins_ok ns_of w;
  dk_isolated : isolated (w_state w);
}.
Section request.
Context `{HostSafe} `{RangeOrder} `{OS} `{Clock} `{LinkLaws} `{!ReadLaws} `{!CommandLaws} `{FloatToInt}.
Context (ns_of : string → string) (Hstable : stable_namespaces ns_of).

Lemma daemon_ok_kept w w' : daemon_ok ns_of w → world_kept w w' → daemon_ok ns_of w'.
Proof.
  intros [[Hr Hs Hn] Hi] [Hc Hi' Hr' Hs']. split; [|auto]. by split; rewrite ?Hr'.
Qed.
Lemma config_ok req w resp w' :
  daemon_ok ns_of w → handle_config req w = (Ok resp, w') → daemon_ok ns_of w'.
Proof.
  intros [Hp Hi] E. split; [|eapply command_isolated; [by exists req, resp|done]].
  refine (mt_handle_config (plugins_ok ns_of) _ _ _ req w (Ok resp) w' Hp E I).
  - intros A m w1 r w2 [] E1 _. unfold in_host in E1. destruct (m _). injection E1 as <- <-. by split.
  - intros A m w1 r w2 [] E1 _. unfold in_fs in E1. destruct (m _). injection E1 as <- <-. by split.
  - intros f w1 r w2 [] [= <- <-] _. by split.
Qed.
(** The plugin commands do not touch the configurations. *)
Lemma same_state_frames s0 :
  let I := λ w, w_state w = s0 in
  (∀ A (m : M host A), maintains I (in_host m)) ∧ (∀ A (m : M FS A), maintains I (in_fs m)) ∧
  (∀ f, maintains I (update_registry f)) ∧
  (∀ A (m : M ServiceRegistry A), maintains I (in_services m)).
Proof.
  intros I. split_and!.
  - intros A m w r w' Hw E _. unfold in_host in E. destruct (m _). by injection E as <- <-.
  - intros A m w r w' Hw E _. unfold in_fs in E. destruct (m _). by injection E as <- <-.
  - by intros f w r w' Hw [= <- <-] _.
  - intros A m w r w' Hw E _. unfold in_services in E. destruct (m _). by injection E as <- <-.
Qed.
Lemma plugin_command_ok (m : M World Response) w resp w' :
  maintains (plugins_ok ns_of) m → maintains (λ w1, w_state w1 = w_state w) m →
  daemon_ok ns_of w → m w = (Ok resp, w') → daemon_ok ns_of w'.
Proof.
  intros Hm Hst [Hp Hi] E. split; [by eapply Hm|]. by rewrite (Hst w _ w' eq_refl E I).
Qed.
Lemma plugins_ok_host {A} (m : M host A) : maintains (plugins_ok ns_of) (in_host m).
Proof.
  intros w r w' [] E _. unfold in_host in E. destruct (m _). injection E as <- <-. by split.
Qed.
Lemma plugins_ok_fs {A} (m : M FS A) : maintains (plugins_ok ns_of) (in_fs m).
Proof. intros w r w' [] E _. unfold in_fs in E. destruct (m _). injection E as <- <-. by split. Qed.

(** The three kinds of handlers: configuration commands, plugin commands (which
    do not touch the configurations) and those over the whole system. *)
Inductive handler_kind : M Sys Response → Prop :=
| kind_config req : handler_kind (in_world (handle_config req))
| kind_plugin m : maintains (plugins_ok ns_of) m → (∀ s0, maintains (λ w, w_state w = s0) m) →
    handler_kind (in_world m)
| kind_sys m : (∀ s, registry_ok (w_registry (sys_world s)) → maintains (sys_kept s) m) →
    handler_kind m.

Lemma handlers_kind now req p : p ∈ handlers now req → handler_kind p.2.
Proof.
  intros Hp. unfold handlers in Hp.
  repeat (apply elem_of_cons in Hp as [->|Hp]; [cbn [snd]|]); [..|by apply not_elem_of_nil in Hp].
  - apply (kind_config RStatus).
  - apply (kind_config RDiff).
  - apply (kind_config RCommit).
  - apply (kind_config RRevert).
  - apply kind_sys. intros s Hr. by apply mt_handleApply.
  - apply (kind_config (RShow _)).
  - apply (kind_config (RGet _)).
  - apply (kind_config (RSet _ _)).
  - apply (kind_config (RValidate _ _)).
  - apply kind_plugin; [by apply ko_handlePluginEnable|]. intros s0.
    destruct (same_state_frames s0) as (? & ? & ? & ?). by apply mt_handlePluginEnable.
  - apply kind_plugin; [by apply ko_handlePluginDisable|]. intros s0.
    destruct (same_state_frames s0) as (? & ? & ? & ?). by apply mt_handlePluginDisable.
  - apply kind_plugin; [apply mt_handlePluginRescan; intros; [apply plugins_ok_host|apply plugins_ok_fs]|].
    intros s0. destruct (same_state_frames s0) as (? & ? & _). by apply mt_handlePluginRescan.
  - apply kind_plugin; [apply mt_handlePluginCLI; intros; apply plugins_ok_host|].
    intros s0. destruct (same_state_frames s0) as (? & ? & _). by apply mt_handlePluginCLI.
  - apply kind_sys. intros s Hr. by apply mt_pres, ans_pres, ans_handleRollback.
  - apply (kind_config RCheckpointList).
  - apply kind_sys. intros s Hr. by apply mt_pres, ans_pres, ans_handleCheckpointCreate.
Qed.
(** A request goes to one of these handlers, or changes nothing. *)
Lemma daemon_step_kind s s' :
  daemon_step s s' → s' = s ∨ ∃ m resp, handler_kind m ∧ m s = (Ok resp, s').
Proof.
  intros [now req handler resp t t' Hh E]. unfold handleRequest in Hh.
  destruct (bool_decide _); [done|]. apply (inj Some) in Hh.
  destruct (List.find _ (handlers now req)) as [[c m]|] eqn:Ef.
  - right. apply List.find_some in Ef as [Hin _]. subst m. exists handler, resp. split; [|done].
    exact (handlers_kind now req (c, handler) (proj2 (list_elem_of_In _ _) Hin)).
  - left. subst handler. by injection E as _ <-.
Qed.

Lemma handler_kind_ok m s resp s' :
  handler_kind m → daemon_ok ns_of (sys_world s) → m s = (Ok resp, s') →
  daemon_ok ns_of (sys_world s').
Proof.
  intros [req|m1 Hm Hst|m1 Hm] Hs E.
  - apply in_world_inv in E. by eapply config_ok.
  - apply in_world_inv in E. by eapply plugin_command_ok.
  - eapply daemon_ok_kept; [exact Hs|]. eapply (Hm s); [apply Hs| |exact E|done].
    destruct Hs as [[] ?]. split; [apply configs_kept_refl|done..].
Qed.
Lemma daemon_step_ok s s' :
  daemon_step s s' → daemon_ok ns_of (sys_world s) → daemon_ok ns_of (sys_world s').
Proof.
  intros [->|(m & resp & Hm & E)]%daemon_step_kind Hs; [done|]. by eapply handler_kind_ok.
Qed.
End request.

(** ** Lemmas: start-up *)

Section start.
Context `{HostSafe} `{RangeOrder} `{OS} `{Clock} `{LinkLaws} `{!ReadLaws} `{!CommandLaws}.
Context (ns_of : string → string) (Hstable : stable_namespaces ns_of).
Notation ok := (daemon_ok ns_of).

Definition has_interfaces (w : World) : Prop := GetCommittedInterfaces (w_state w) ≠ None.
(** [w'] differs in files, plugin processes and snapshots. *)
Lemma ok_same_configs w w' :
  ok w → same_configs w w' → w_services w' = w_services w → ok w'.
Proof.
  intros [[Hr Hs Hn] [Hv Hsh Hp]] [Hp' Hr' Hh'] Hs'. split; [split; by rewrite ?Hp', ?Hs'|].
  split; rewrite Hr'; [by rewrite Hh'|done..].
Qed.
Lemma same_configs_interfaces w w' : same_configs w w' → has_interfaces w → has_interfaces w'.
Proof.
  intros [_ Hr Hh]. unfold has_interfaces, GetCommittedInterfaces, object_of, GetCommitted, deref.
  by rewrite Hr, Hh.
Qed.

(** What loading a configuration does. *)
Lemma load_committed_spec t o w :
  ∃ l s, load_committed t o w = (Ok (), set_state s w) ∧
    (isolated (w_state w) → isolated s) ∧
    GetCommitted t s = Ok (Some l) ∧ deref s (Some l) = Some o ∧
    (∀ t', t' ≠ t → GetCommitted t' s = GetCommitted t' (w_state w)) ∧
    ∀ c x, deref (w_state w) c = Some x → deref s c = Some x.
Proof.
  destruct (alloc o (w_state w)) as [l s1] eqn:Ea.
  destruct (alloc_fresh _ _ _ _ Ea) as (Hf & Hh & Hr & _). exists l, (LoadCommitted t (Some l) s1).
  split; [unfold load_committed, update_state, modify; by rewrite Ea|]. split_and!.
  - intros Hi. by eapply isolated_LoadCommitted.
  - unfold GetCommitted, LoadCommitted. cbn. by rewrite lookup_insert_eq.
  - cbn. rewrite Hh. by rewrite lookup_insert_eq.
  - intros t' Ht. unfold GetCommitted, LoadCommitted. cbn. by rewrite lookup_insert_ne, Hr.
  - intros [l'|] x; [|done]. cbn. rewrite Hh. intros Hl. rewrite lookup_insert_ne; [done|].
    intros <-. apply Hf. by apply elem_of_dom.
Qed.
Lemma wp_load_committed t o w (Q : () → World → Prop) E :
  ok w →
  (∀ s l, ok (set_state s w) → GetCommitted t s = Ok (Some l) → deref s (Some l) = Some o →
    (∀ t', t' ≠ t → GetCommitted t' s = GetCommitted t' (w_state w)) →
    (∀ c x, deref (w_state w) c = Some x → deref s c = Some x) → Q () (set_state s w)) →
  wp (load_committed t o) w Q E.
Proof.
  intros [[Hr Hs Hn] Hi] HQ. destruct (load_committed_spec t o w) as (l & s & E1 & Hi' & Hc & Hd & Ho & Hk).
  unfold wp. rewrite E1. apply (HQ s l); try done. split; [by split|auto].
Qed.
Lemma interfaces_elsewhere t s s' :
  t ≠ "interfaces" → (∀ t', t' ≠ t → GetCommitted t' s' = GetCommitted t' s) →
  (∀ c x, deref s c = Some x → deref s' c = Some x) →
  GetCommittedInterfaces s ≠ None → GetCommittedInterfaces s' ≠ None.
Proof.
  intros Ht Ho Hd. unfold GetCommittedInterfaces, object_of. rewrite (Ho "interfaces") by done.
  destruct (GetCommitted "interfaces" s) as [c| |]; [|done..].
  destruct (deref s c) as [x|] eqn:E; [|done]. by rewrite (Hd _ _ E).
Qed.
Lemma map_committed_elsewhere t w s ns :
  ns ≠ t → (∀ t', t' ≠ t → GetCommitted t' s = GetCommitted t' (w_state w)) →
  (∀ c x, deref (w_state w) c = Some x → deref s c = Some x) →
  map_committed ns w → map_committed ns (set_state s w).
Proof.
  intros Ht Ho Hd Hm Hn. destruct (Hm Hn) as (l & m & Hc & Hx). exists l, m. cbn [w_state set_state].
  rewrite Ho by done. split; [done|]. by apply Hd.
Qed.

(** The configuration of one plugin. *)
Lemma wp_load_plugin_config ns w :
  ns ≠ "interfaces" → ok w → has_interfaces w →
  wp (load_plugin_config ns) w (λ _ w', ok w' ∧ has_interfaces w' ∧ w_registry w' = w_registry w ∧
    map_committed ns w' ∧ ∀ t, map_committed t w → map_committed t w') (λ _, False).
Proof.
  intros Hns Hok Hi. unfold load_plugin_config. apply wp_bind, wp_gets.
  destruct (Registry.GetPluginNameForNamespace ns (w_registry w)) as [name|] eqn:Hn.
  2: { apply wp_ret. split_and!; try done. intros Hh. by destruct Hh. }
  apply wp_bind, wp_attempt.
  assert (∀ (r : res (gomap value)) w1, same_configs w w1 → w_services w1 = w_services w →
    wp (gets (λ w, Registry.Get ns (w_registry w)) ≫= λ plugin,
      load_committed ns (OMap match r with
        | Ok config => config
        | _ => match plugin ≫= λ plugin, pm_DefaultConfig (Metadata plugin) with
               | Some config => Some config | None => Some ∅ end end)) w1
      (λ _ w', ok w' ∧ has_interfaces w' ∧ w_registry w' = w_registry w ∧
        map_committed ns w' ∧ ∀ t, map_committed t w → map_committed t w') (λ _, False)) as Hload.
  { intros r w1 Hsc Hsv. apply wp_bind, wp_gets.
    apply wp_load_committed; [by eapply ok_same_configs|]. intros s l Hok' Hc Hd Ho Hk.
    assert (map_committed ns (set_state s w1)) as Hmap by (intros _; by eexists _, _).
    split; [done|]. split; [|split; [apply Hsc|split; [done|]]].
    - eapply (interfaces_elsewhere ns); [done|exact Ho|exact Hk|].
      by eapply same_configs_interfaces.
    - intros t Ht. destruct (decide (t = ns)) as [->|Hne]; [done|].
      eapply (map_committed_elsewhere ns); [done|exact Ho|exact Hk|].
      by eapply same_map_committed. }
  pose proof (safe_LoadConfig Unmarshal_map name Unmarshal_map_no_panic (w_fs w)) as Hs.
  unfold wp, in_fs. destruct (LoadConfig Unmarshal_map name (w_fs w)) as [[c|e|x] fs]; [..|done].
  - by apply (Hload (Ok c)).
  - intros e'. by apply (Hload (Err e')).
Qed.

Lemma listed_name w ns :
  plugins_ok ns_of w → has_name ns w → ns ∈ Registry.List (w_registry w) ∧ ∃ n, ns = ns_of n.
Proof.
  intros [Hr _ Hn] Hh. unfold has_name, Registry.GetPluginNameForNamespace in Hh.
  destruct (Registry.name_for ns _) as [n|] eqn:E; [|done]. apply name_for_Some in E.
  split; [|exists n; by apply Hn]. destruct (ro_registered _ Hr _ _ E) as [p Hp].
  unfold Registry.List. apply list_elem_of_fmap. exists (ns, p). split; [done|by apply range_elem].
Qed.
Context (Hreserved : ∀ n, ns_of n ≠ "interfaces").
Lemma wp_load_plugin_configs w :
  ok w → has_interfaces w →
  wp load_plugin_configs w (λ _ w', ok w' ∧ has_interfaces w' ∧ ∀ ns, map_committed ns w')
    (λ _, False).
Proof.
  intros Hok Hi. unfold load_plugin_configs. apply wp_bind, wp_gets.
  eapply (wp_mono _ _ _ _ (λ _, False)).
  - apply (wp_for_each (λ don todo w', (∀ ns, ns ∈ todo → ns ≠ "interfaces") ∧ ok w' ∧
      has_interfaces w' ∧ w_registry w' = w_registry w ∧ ∀ ns, ns ∈ don → map_committed ns w') _ _ _ []).
    + split_and!; [|done..|by intros ? ?%not_elem_of_nil]. intros ns Hns.
      unfold Registry.List in Hns. apply list_elem_of_fmap in Hns as ([ns' p] & -> & Hin%range_elem).
      destruct Hok as [[Hr _ Hn] _]. destruct (ro_named _ Hr ns') as [n Hn']; [by exists p|].
      cbn. rewrite (Hn _ _ Hn'). apply Hreserved.
    + intros don ns todo w1 (Hres & Hok1 & Hi1 & Hr1 & Hdon).
      eapply wp_mono; [apply wp_load_plugin_config; [apply Hres; by left|done..]| |done].
      cbv beta. intros _ w2 (Hok2 & Hi2 & Hr2 & Hns & Hkeep).
      split; [intros t Ht; apply Hres; by right|]. do 2 (split; [done|]).
      split; [congruence|]. intros t [Ht| ->%list_elem_of_singleton]%elem_of_app; auto.
  - cbv beta. intros _ w' (_ & Hok' & Hi' & Hr' & Hd). do 2 (split; [done|]). intros ns Hh.
    destruct (listed_name w' ns (dk_plugins _ _ Hok') Hh) as [Hin _]. rewrite Hr' in Hin.
    by apply (Hd ns Hin).
  - done.
Qed.

Notation K := (λ s, ok (sys_world s)).
Lemma wp_in_world {A} (m : M World A) s (Q : A → Sys → Prop) (E : Sys → Prop) :
  wp m (sys_world s)
    (λ a w, Q a {| sys_world := w; sys_kernel := sys_kernel s; sys_observer := sys_observer s |})
    (λ w, E {| sys_world := w; sys_kernel := sys_kernel s; sys_observer := sys_observer s |}) →
  wp (in_world m) s Q E.
Proof. unfold wp, in_world. by destruct (m (sys_world s)) as [[a|e|p] w]. Qed.
Lemma wp_loadPlugins w : ok w → wp loadPlugins w (λ _, ok) ok.
Proof.
  intros [Hp Hi]. destruct (runs_loadPlugins ns_of Hstable w Hp) as (r & w' & E & Hr & Hp').
  pose proof (attempt_inv _ _ _ _ E) as E'.
  assert (isolated (w_state w')) as Hi'.
  { refine (mt_loadPlugins (λ w, isolated (w_state w)) _ _ _ _ _ w r w' Hi E' Hr).
    - intros A m w1 r1 w2 H1' E1 _. unfold in_host in E1. destruct (m _). by injection E1 as <- <-.
    - intros A m w1 r1 w2 H1' E1 _. unfold in_fs in E1. destruct (m _). by injection E1 as <- <-.
    - by intros f w1 r1 w2 H1' [= <- <-] _.
    - intros A m w1 r1 w2 H1' E1 _. unfold in_services in E1. destruct (m _). by injection E1 as <- <-.
    - intros t o w1 r1 w2 H1' E1 _. destruct (load_committed_spec t o w1) as (l & s & E2 & Hs & _).
      rewrite E2 in E1. injection E1 as <- <-. by apply Hs. }
  unfold wp. rewrite E'. destruct r as [[]|e|p]; [by split..|done].
Qed.
Lemma wp_LoadSnapshotsFromDisk s fs :
  wp LoadSnapshotsFromDisk (s, fs) (λ _ p, snapshots_only s p.1) (λ p, snapshots_only s p.1).
Proof.
  assert (∀ A (m : M FS A) (Q : A → State * FS → Prop), safe m →
    (∀ a fs', Q a (s, fs')) → ∀ fs, wp (on_fs m) (s, fs) Q (λ p, snapshots_only s p.1)) as Hfs.
  { intros A m Q Hm HQ fs0. specialize (Hm fs0). unfold wp, on_fs. cbn.
    destruct (m fs0) as [[a|e|p] fs1]; [apply HQ|apply snapshots_only_refl|done]. }
  unfold LoadSnapshotsFromDisk. apply wp_bind, Hfs; [auto with safe|]. intros _ fs1.
  apply wp_bind, Hfs.
  - apply safe_wrapM. intros fs2. unfold os_ReadDir, mbind, M_bind, syscall, gets. cbn.
    by destruct (os_error _) as [[]|].
  - intros entries fs2. cbn. by eexists _, _.
Qed.
Lemma ok_in_store (m : M (State * FS) ()) w :
  (∀ s fs, wp m (s, fs) (λ _ p, snapshots_only s p.1) (λ p, snapshots_only s p.1)) →
  ok w → wp (in_store m) w (λ _, ok) ok.
Proof.
  intros Hm Hok. specialize (Hm (w_state w) (w_fs w)). unfold wp, in_store in *.
  destruct (m _) as [[a|e|p] [s fs]]; [..|done]; cbn [fst] in Hm; destruct Hm as (sn & l & ->);
    (eapply ok_same_configs; [exact Hok| |done]); by split.
Qed.
(** Parts whose error is only logged. *)
Lemma wp_logged (m : M Sys ()) s (P : Sys → Prop) :
  wp m s (λ _, P) P → wp (logged m) s (λ _, P) (λ _, False).
Proof.
  intros Hm. apply wp_bind, wp_attempt. eapply wp_mono; [exact Hm|..]; cbv beta; intros;
    by apply wp_ret.
Qed.
(** Parts that leave the world alone. *)
Lemma wp_in_kernel m s (P : Sys → Prop) :
  safe m → (∀ s', sys_world s' = sys_world s → P s') → wp (in_kernel m : M Sys ()) s (λ _, P) P.
Proof.
  intros Hm HP. specialize (Hm (sys_kernel s)). unfold wp, in_kernel.
  destruct (m (sys_kernel s)) as [[a|e|p] k]; [by apply HP..|done].
Qed.
Lemma wp_apply_on_startup ic rc s :
  wp (apply_on_startup ic rc) s (λ _ s', sys_world s' = sys_world s) (λ _, False).
Proof.
  unfold apply_on_startup. apply wp_bind.
  assert (wp mark_change s (λ _ s', sys_world s' = sys_world s) (λ _, False)) as Hmark.
  { unfold wp, mark_change. by destruct (sys_observer s). }
  eapply wp_mono; [exact Hmark| |done]. cbv beta. intros _ s1 Hs1. apply wp_bind.
  eapply (wp_mono _ _ _ _ (λ _, False)); [| |done].
  - apply (wp_for_each (λ _ _ s', sys_world s' = sys_world s) _ _ _ []); [done|].
    intros don name todo s2 Hs2. cbv beta in *. apply wp_logged, wp_in_kernel; [apply safe_ApplyInterfaceConfig|].
    congruence.
  - cbv beta. intros _ s2 Hs2. apply wp_logged, wp_in_kernel; [solve_safe|]. congruence.
Qed.

Lemma wp_load_routes w :
  ok w → has_interfaces w →
  wp load_routes w (λ _ w', ok w' ∧ has_interfaces w') (λ _, False).
Proof.
  intros Hok Hi. apply wp_bind, wp_attempt. pose proof (safe_load_routes "routes" (w_fs w)) as Hs.
  unfold wp, in_fs. destruct (LoadConfig Unmarshal_RoutesConfig "routes" (w_fs w)) as [[c|e|p] fs];
    [|intros x|done];
    (split; [eapply ok_same_configs; [exact Hok|by split|done]|
             eapply same_configs_interfaces; [|exact Hi]; by split]).
Qed.
Lemma wp_Start apply s :
  ok (sys_world s) →
  wp (Start apply) s (λ _ s', ok (sys_world s') ∧ has_interfaces (sys_world s') ∧
    ∀ ns, map_committed ns (sys_world s')) K.
Proof.
  intros Hok. unfold Start. apply wp_bind.
  eapply wp_mono; [apply (wp_logged _ _ K), wp_in_world, wp_loadPlugins, Hok| |done]. cbv beta.
  intros _ s1 Hok1. apply wp_bind. unfold wp at 1. cbn [new_observer].
  set (s2 := {| sys_world := sys_world s1; sys_kernel := sys_kernel s1; sys_observer := _ |}).
  assert (ok (sys_world s2)) as Hok2 by exact Hok1. clearbody s2. apply wp_bind.
  eapply wp_mono; [apply (wp_logged _ _ K), wp_in_world, ok_in_store;
    [apply wp_LoadSnapshotsFromDisk|exact Hok2]| |done]. cbv beta. intros _ s3 Hok3.
  apply wp_bind, wp_wrapM. unfold wp at 1, in_files_and_kernel.
  pose proof (safe_LoadInterfacesConfig (w_fs (sys_world s3), sys_kernel s3)) as Hs.
  destruct (LoadInterfacesConfig _) as [[ic|e|p] [fs k]]; [| |done].
  2: { eapply ok_same_configs; [exact Hok3| |done]. by split. }
  match goal with |- wp _ ?t _ _ => set (s4 := t) end.
  assert (ok (sys_world s4)) as Hok4.
  { eapply ok_same_configs; [exact Hok3| |done]. by split. }
  clearbody s4. clear Hs. apply wp_bind, wp_in_world, wp_load_committed; [exact Hok4|].
  intros st l Hok5 Hc Hd _ _. match goal with |- wp _ ?t _ _ => set (s5 := t) end.
  assert (ok (sys_world s5) ∧ has_interfaces (sys_world s5)) as [Hok5' Hi5].
  { split; [exact Hok5|]. unfold has_interfaces, GetCommittedInterfaces, object_of. cbn.
    by rewrite Hc, Hd. }
  clearbody s5. clear Hok5 Hc Hd st l. apply wp_bind, wp_in_world.
  eapply wp_mono; [by apply wp_load_routes| |done]. cbv beta. intros rc w6 [Hok6 Hi6].
  apply wp_bind, wp_in_world, wp_load_committed; [exact Hok6|]. intros st l Hok7 _ _ Ho Hk.
  assert (has_interfaces (set_state st w6)) as Hi7
    by by eapply (interfaces_elsewhere "routes").
  apply wp_bind, wp_in_world. eapply wp_mono; [by apply wp_load_plugin_configs| |done]. cbv beta.
  intros _ w8 Hw8. destruct apply; [|by apply wp_ret].
  eapply wp_mono; [apply wp_apply_on_startup| |done]. cbv beta. intros _ s9 ->. exact Hw8.
Qed.
End start.

(** ** Properties *)

(** C15: start-up always ends, whatever the plugin processes, the files and the
    kernel do; the registries are consistent and no configuration is shared
    wrongly, also when it fails.  When it succeeds, an interfaces configuration is
    loaded and every plugin's namespace has a committed map, which is what apply
    relies on.  (A plugin always reports the same namespace, and none reports
    "interfaces".) *)
Theorem Start_establishes `{HostSafe} `{RangeOrder} `{OS} `{Clock} `{LinkLaws} `{!ReadLaws}
    `{!CommandLaws} ns_of apply fs h k :
  stable_namespaces ns_of → (∀ n, ns_of n ≠ "interfaces") →
  ∃ r s, Start apply (NewServer fs h k) = (r, s) ∧ no_panic r ∧ daemon_ok ns_of (sys_world s) ∧
    (r = Ok () → GetCommittedInterfaces (w_state (sys_world s)) ≠ None ∧
       ∀ ns, map_committed ns (sys_world s)).
Proof.
  intros Hst Hres. assert (daemon_ok ns_of (sys_world (NewServer fs h k))) as Hok.
  { split; [|exact isolated_new]. split; [exact registry_ok_new|exact services_ok_new|].
    intros n ns Hl. cbn in Hl. by rewrite lookup_empty in Hl. }
  pose proof (wp_Start ns_of Hst Hres apply _ Hok) as Hw. revert Hw. unfold wp.
  destruct (Start apply (NewServer fs h k)) as [[[]|e|p] s]; [..|done]; intros Hw; eexists _, s.
  - split; [done|]. split; [done|]. split; [apply Hw|]. intros _. apply Hw.
  - split; [done|]. split; [done|]. by split.
Qed.

Lemma daemon_state_sound `{HostSafe} `{RangeOrder} `{OS} `{Clock} `{LinkLaws} `{!ReadLaws}
    `{!CommandLaws} `{FloatToInt} ns_of fs h k s :
  stable_namespaces ns_of → (∀ n, ns_of n ≠ "interfaces") →
  daemon_state fs h k s → daemon_ok ns_of (sys_world s).
Proof.
  intros Hst Hres Hs. induction Hs as [apply s E|s s' _ IH Hstep].
  - assert (daemon_ok ns_of (sys_world (NewServer fs h k))) as Hok.
    { split; [|exact isolated_new]. split; [exact registry_ok_new|exact services_ok_new|].
      intros n ns Hl. cbn in Hl. by rewrite lookup_empty in Hl. }
    pose proof (wp_Start ns_of Hst Hres apply _ Hok) as Hw. unfold wp in Hw.
    rewrite E in Hw. apply Hw.
  - by eapply daemon_step_ok.
Qed.

(** C3: in every state a daemon reaches by any sequence of requests after a
    successful start-up, the plugin and service registries are consistent and a
    pending configuration shares its object with no other one. *)
Theorem daemon_state_ok `{HostSafe} `{RangeOrder} `{OS} `{Clock} `{LinkLaws} `{!ReadLaws}
    `{!CommandLaws} `{FloatToInt} ns_of fs h k s :
  stable_namespaces ns_of → (∀ n, ns_of n ≠ "interfaces") →
  daemon_state fs h k s → daemon_ok ns_of (sys_world s).
Proof. apply daemon_state_sound. Qed.

(** ** The properties at concrete inputs *)

Lemma Start_establishes_witness :
  ∃ r s, @Start db_host default_order reliable_os half_seconds memory_kernel true
      (NewServer (w_fs db_world) (w_host db_world) (new_machine None : @kernel memory_kernel)) = (r, s) ∧
    no_panic r ∧ @daemon_ok db_host (λ _, "database") (sys_world s) ∧
    (r = Ok () → GetCommittedInterfaces (w_state (sys_world s)) ≠ None ∧
       ∀ ns, @map_committed db_host default_order ns (sys_world s)).
Proof.
  apply (@Start_establishes db_host db_host_safe default_order reliable_os half_seconds memory_kernel
    memory_laws memory_link_laws memory_read_laws memory_command_laws (λ _, "database") true
    (w_fs db_world) (w_host db_world) (new_machine None) db_host_stable).
  intros n. discriminate.
Defined.
(** A daemon that was started and then asked to apply. *)
Definition started : @Sys db_host memory_kernel :=
  (@Start db_host default_order reliable_os half_seconds memory_kernel true
    (NewServer (w_fs db_world) (w_host db_world) (new_machine None : @kernel memory_kernel))).2.
Definition apply_request : Request :=
  {| rq_Value := VNil; rq_Command := "apply"; rq_Path := ""; rq_Plugin := ""; rq_CLICommand := "";
     rq_CLIArgs := []; rq_CheckpointID := "" |}.
Definition after_apply : res Response * @Sys db_host memory_kernel :=
  @handleApply db_host default_order reliable_os half_seconds memory_kernel 0 started.
Lemma daemon_state_ok_witness :
  rp_Success (answer after_apply) = true ∧
  @daemon_ok db_host (λ _, "database") (sys_world after_apply.2).
Proof.
  split; [vm_compute; reflexivity|].
  apply (@daemon_state_ok db_host db_host_safe default_order reliable_os half_seconds memory_kernel
    memory_laws memory_link_laws memory_read_laws memory_command_laws amd64_float_to_int (λ _, "database")
    (w_fs db_world) (w_host db_world) (new_machine None) after_apply.2 db_host_stable).
  - intros n. discriminate.
  - eapply state_step; [eapply (state_started _ _ _ true)|].
    + refine (run_eq (@Start db_host default_order reliable_os half_seconds memory_kernel true
        (NewServer (w_fs db_world) (w_host db_world) (new_machine None : @kernel memory_kernel)))
        (Ok ()) _). vm_compute. reflexivity.
    + eapply (step_request 0 apply_request); [reflexivity|].
      refine (answer_success after_apply _). vm_compute. reflexivity.
Defined.
