(* ===== verification/Store.v ===== *)
(** * The transactional store: what the daemon promises its clients

    An abstract specification of the configuration commands of daemon/server.go
    and daemon/state.go: a store with a committed and a staged configuration per
    type, without heap, sharing, files, plugins or kernel, and its steps (edit,
    commit, revert).  The theorems: every request the daemon answers, whatever
    else it does, is a step of the store or leaves it alone; and what the store
    commits has passed validation. *)
From S2P Require Import Prelude GoStr GoNet Types Json Value Struct Codec Path Diff ConfigStore State Registry Services Loader Order Server PluginCommands Observer Netlink Routes Network Snapshot Interfaces Apply Daemon.

(** ** The specification *)

Record Store := {
  committed : string → option config_obj;
  staged : string → option config_obj;
}.
(** What a client sees: the staged configuration, else the committed one. *)
Definition working (S : Store) (t : string) : option config_obj :=
  match staged S t with Some o => Some o | None => committed S t end.

Definition commit_staged (S : Store) : Store :=
  {| committed := working S; staged := λ _, None |}.
Definition drop_staged (S : Store) : Store :=
  {| committed := committed S; staged := λ _, None |}.
Definition stage_object (t : string) (o : config_obj) (S : Store) : Store :=
  {| committed := committed S; staged := λ t', if decide (t' = t) then Some o else staged S t' |}.

(** Stores are compared type by type. *)
#[export] Instance store_equiv : Equiv Store := λ S T,
  ∀ t, committed S t = committed T t ∧ staged S t = staged T t.
#[export] Instance store_equivalence : Equivalence (≡@{Store}).
Proof.
  split.
  - by intros S t.
  - intros S T E t. by destruct (E t).
  - intros S T U E F t. destruct (E t) as [-> ->]. apply F.
Qed.
#[export] Instance working_proper : Proper ((≡) ==> (=) ==> (=)) working.
Proof. intros S T E t ? <-. unfold working. by destruct (E t) as [-> ->]. Qed.
#[export] Instance commit_staged_proper : Proper ((≡) ==> (≡)) commit_staged.
Proof. intros S T E t. cbn. by rewrite E. Qed.
#[export] Instance drop_staged_proper : Proper ((≡) ==> (≡)) drop_staged.
Proof. intros S T E t. cbn. by destruct (E t). Qed.
#[export] Instance stage_object_proper t o : Proper ((≡) ==> (≡)) (stage_object t o).
Proof. intros S T E t'. cbn. by destruct (E t') as [-> ->]. Qed.

(** The interfaces and routes of a configuration pass validation. *)
Definition valid_object (t : string) (o : option config_obj) : Prop :=
  (t = "interfaces" → ∀ c, o = Some (OIfaces c) →
     map_Forall (λ _ i, Interface_Validate i = None) (gm (ic_Interfaces c))) ∧
  (t = "routes" → ∀ c, o = Some (ORoutes c) →
     map_Forall (λ _ r, Route_Validate r = None) (gm (rc_Routes c))).
Definition valid_store (S : Store) : Prop := ∀ t, valid_object t (committed S t).

Section steps.
Context `{FloatToInt}.

(** An edit starts from what is staged, or from a copy of what is committed. *)
Definition edit_base (S : Store) (t : string) (o : config_obj) : Prop :=
  staged S t = Some o ∨ staged S t = None ∧ copied t (committed S t) o.

Inductive store_step (S T : Store) : Prop :=
| store_stay : T ≡ S → store_step S T
| store_edit t rest path v base o :
    path_parts path = t :: rest → edit_base S t base → SetValue (Some base) path v = Ok o →
    T ≡ stage_object t o S → store_step S T
| store_commit :
    (∀ t, staged S t ≠ None → valid_object t (staged S t)) → T ≡ commit_staged S → store_step S T
| store_revert : T ≡ drop_staged S → store_step S T.

#[export] Instance valid_store_proper : Proper ((≡) ==> iff) valid_store.
Proof.
  intros S T E. unfold valid_store. split; intros Hv t; [rewrite <-(proj1 (E t))|rewrite (proj1 (E t))]; done.
Qed.
(** Validity of what is committed is an invariant of the store. *)
Lemma store_step_valid S T : store_step S T → valid_store S → valid_store T.
Proof.
  intros [->|t rest path v base o _ _ _ ->|Hv ->| ->] HS; try exact HS.
  intros t. cbn. unfold working. specialize (Hv t). destruct (staged S t) as [o|]; [by apply Hv|apply HS].
Qed.
Lemma store_steps_valid S T : rtc store_step S T → valid_store S → valid_store T.
Proof. induction 1; [done|]. intros HS. eauto using store_step_valid. Qed.
End steps.

(** ** The daemon as a store *)

(** The store a state implements. *)
Definition abs (s : State) : Store :=
  {| committed := λ t, object_of s (GetCommitted t s);
     staged := λ t, if HasPendingFor t s then object_of s (GetCurrent t s) else None |}.
Definition sys_abs `{Host, Kernel} (s : Sys) : Store := abs (w_state (sys_world s)).

Lemma object_of_content s r : object_of s r = match content s r with Ok o => o | _ => None end.
Proof. by destruct r. Qed.
(** A pending configuration has an object, so the working one is current. *)
Lemma abs_working s t : isolated s → working (abs s) t = object_of s (GetCurrent t s).
Proof.
  intros Hi. unfold working. cbn. unfold HasPendingFor, GetCurrent, GetCommitted, effective, is_pending.
  destruct (registry s !! t) as [e|] eqn:He; [|done].
  destruct (Pending e) as [l|] eqn:Hp; cbn; [|by destruct (Committed e)].
  assert (l ∈ dom (heap s)) as [o Ho]%elem_of_dom by (eapply iso_valid; unfold refs; eauto).
  by rewrite Ho.
Qed.

Section simulation.
Context `{HostSafe} `{RangeOrder} `{OS} `{Clock} `{LinkLaws} `{!ReadLaws} `{!CommandLaws} `{FloatToInt}.

Lemma abs_kept s s' : isolated s → configs_kept s s' → abs s' ≡ abs s.
Proof.
  intros Hi [A B C] t. cbn. unfold HasPendingFor, GetCommitted, GetCurrent, effective, is_pending.
  destruct (registry s !! t) as [e|] eqn:He.
  - destruct (A t e He) as (e' & -> & Ec & Ep). cbn. rewrite Ec, Ep.
    assert (∀ l, refs e l → heap s' !! l = heap s !! l) as Hl.
    { intros l Hr. pose proof (iso_valid _ Hi t e l He Hr) as [o Ho]%elem_of_dom.
      rewrite Ho. by apply C. }
    split; [|destruct (Pending e) as [l|] eqn:Hp; cbn; [|done]].
    + destruct (Committed e) as [l|] eqn:Hc; cbn; [|done]. apply Hl. unfold refs. auto.
    + apply Hl. unfold refs. auto.
  - destruct (registry s' !! t) as [e'|] eqn:He'; [|done].
    destruct (B t e' He He') as [-> ->]. done.
Qed.
Lemma abs_commit s s' : isolated s → CommitPending s = Ok s' → abs s' ≡ commit_staged (abs s).
Proof.
  intros Hi Hc. assert (∀ t, registry s' !! t = commit_entry <$> registry s !! t) as Hr.
  { intros t. revert Hc. unfold CommitPending. destruct (HasPending s); [|done].
    intros [= <-]. cbn. by rewrite lookup_fmap. }
  assert (heap s' = heap s) as Hh
    by (revert Hc; unfold CommitPending; destruct (HasPending s); by intros [= <-]).
  intros t. change (committed (commit_staged (abs s)) t) with (working (abs s) t).
  rewrite abs_working by done. cbn. unfold HasPendingFor, GetCommitted, GetCurrent.
  rewrite Hr. destruct (registry s !! t) as [[c [p|] a]|]; cbn; by rewrite ?Hh.
Qed.
Lemma abs_revert s s' : RevertPending s = Ok s' → abs s' ≡ drop_staged (abs s).
Proof.
  intros [= <-] t. cbn. unfold HasPendingFor, GetCommitted. cbn. rewrite lookup_fmap.
  by destruct (registry s !! t).
Qed.
Lemma abs_stage ct path rest v s s' :
  isolated s → path_parts path = ct :: rest → stage ct path v s = Ok s' →
  store_step (abs s) (abs s').
Proof.
  intros Hi Hp Hs. destruct (stage_current _ _ _ _ _ _ Hi Hp Hs) as (o0 & o & Hset & Hcur & Hbase).
  apply (store_edit _ _ ct rest path v o0 o); [done| |done|].
  - destruct Hbase as [[Hc Hpe]|(c & Hpe & Hc & Hcp)]; [left|right]; cbn; rewrite Hpe;
      rewrite object_of_content, Hc; done.
  - intros t. destruct (stage_content _ _ _ _ _ _ t Hi Hp Hs) as (Hcom & _ & Hoth). cbn.
    rewrite (stage_pending _ _ _ _ _ _ t Hi Hp Hs), !object_of_content, Hcom. split; [done|].
    case_decide as Ht; [by rewrite Ht, Hcur|]. rewrite Hoth by done. by rewrite <-object_of_content.
Qed.
Lemma abs_config req w resp w' :
  isolated (w_state w) → handle_config req w = (Ok resp, w') →
  store_step (abs (w_state w)) (abs (w_state w')).
Proof.
  intros Hi Hr. destruct req as [| | | |p|p|p v|p v|];
    try (apply read_only_state in Hr; [by rewrite Hr; apply store_stay|exact I]).
  - apply handleCommit_inv in Hr as [[-> _]|[Hc Hv]]; [by apply store_stay|].
    apply store_commit; [|by apply abs_commit]. intros t Ht. cbn in Ht |- *.
    destruct (HasPendingFor t (w_state w)) eqn:Hp; [|done]. apply Hv, GetPendingTypes_elem.
    unfold HasPendingFor, is_pending in Hp. destruct (registry _ !! t) as [e|]; [|done].
    apply bool_decide_eq_true, not_eq_None_Some in Hp as [l Hl]. eauto.
  - by apply store_revert, abs_revert, (handleRevert_inv _ resp).
  - apply handleSet_inv in Hr as [[_ ->]|(_ & ct & rest & s' & _ & Hp & Hs & ->)];
      [by apply store_stay|]. by eapply abs_stage.
Qed.

Context (ns_of : string → string) (Hstable : stable_namespaces ns_of).

(** A request the daemon answers is a step of the store. *)
Lemma step_simulated s s' :
  daemon_ok ns_of (sys_world s) → daemon_step s s' → store_step (sys_abs s) (sys_abs s').
Proof.
  intros Hok [->|(m & resp & Hm & E)]%(daemon_step_kind ns_of Hstable); [by apply store_stay|].
  destruct Hm as [req|m Hm Hst|m Hm].
  - apply in_world_inv in E. eapply abs_config; [apply Hok|done].
  - apply in_world_inv in E. apply store_stay. unfold sys_abs.
    by rewrite (Hst _ (sys_world s) _ _ eq_refl E I).
  - apply store_stay, abs_kept; [apply Hok|]. destruct Hok as [[Hr Hsv Hn] Hi].
    assert (sys_kept s s) as Hk by (split; [apply configs_kept_refl|done..]).
    apply (Hm s Hr s _ s' Hk E I).
Qed.
Lemma steps_simulated s s' :
  daemon_ok ns_of (sys_world s) → rtc daemon_step s s' →
  daemon_ok ns_of (sys_world s') ∧ rtc store_step (sys_abs s) (sys_abs s').
Proof.
  intros Hok Hs. induction Hs as [s|s1 s2 s3 H12 _ IH]; [done|].
  destruct IH as [Hok3 Hr]; [by eapply daemon_step_ok|]. split; [done|].
  eapply rtc_l; [by apply step_simulated|done].
Qed.
End simulation.

(** ** Properties *)


(** C2: if the interfaces and routes loaded at start-up pass validation, the
    committed ones always do, in every state that any sequence of requests
    leads to. *)
Theorem committed_always_valid `{HostSafe} `{RangeOrder} `{OS} `{Clock} `{LinkLaws} `{!ReadLaws}
    `{!CommandLaws} `{FloatToInt} ns_of fs h k s s' :
  stable_namespaces ns_of → (∀ n, ns_of n ≠ "interfaces") →
  daemon_state fs h k s → valid_store (sys_abs s) → rtc daemon_step s s' → valid_store (sys_abs s').
Proof.
  intros Hst Hres Hs Hv Hr. eapply store_steps_valid; [|exact Hv].
  eapply steps_simulated; [done| |done]. by eapply daemon_state_sound.
Qed.

(** ** The properties at concrete inputs *)

Definition request (command path : string) (v : value) : Request :=
  {| rq_Value := v; rq_Command := command; rq_Path := path; rq_Plugin := ""; rq_CLICommand := "";
     rq_CLIArgs := []; rq_CheckpointID := "" |}.
(** On the daemon of [started]: the MTU of the detected WAN port is set and
    committed. *)
Definition after_set : res Response * @Sys db_host memory_kernel :=
  @in_world db_host memory_kernel _ (@handleSet db_host amd64_float_to_int
    "interfaces.wan.mtu" (VInt 1400)) started.
Definition after_commit : res Response * @Sys db_host memory_kernel :=
  @in_world db_host memory_kernel _ (@handleCommit db_host default_order reliable_os) after_set.2.

Lemma started_state :
  @daemon_state db_host default_order reliable_os half_seconds memory_kernel amd64_float_to_int
    (w_fs db_world) (w_host db_world) (new_machine None) started.
Proof.
  refine (state_started _ _ _ true _ _).
  refine (run_eq (@Start db_host default_order reliable_os half_seconds memory_kernel true
    (NewServer (w_fs db_world) (w_host db_world) (new_machine None : @kernel memory_kernel)))
    (Ok ()) _). vm_compute. reflexivity.
Defined.
Lemma set_and_commit :
  rtc (@daemon_step db_host default_order reliable_os half_seconds memory_kernel amd64_float_to_int)
    started after_commit.2.
Proof.
  eapply (rtc_l _ _ after_set.2);
    [eapply (step_request 0 (request "set" "interfaces.wan.mtu" (VInt 1400))); [reflexivity|]
    |eapply rtc_once, (step_request 0 (request "commit" "" VNil)); [reflexivity|]].
  - refine (answer_success after_set _). vm_compute. reflexivity.
  - refine (answer_success after_commit _). vm_compute. reflexivity.
Defined.
Example set_and_commit_mtu :
  (if_MTU <$> (GetCommittedInterfaces (w_state (sys_world after_commit.2)) ≫= λ c,
     gm (ic_Interfaces c) !! "wan")) = Some 1400.
Proof. vm_compute. reflexivity. Qed.

(** The detected configuration is valid, and there are no routes. *)
Lemma started_valid : valid_store (sys_abs started).
Proof.
  assert (forallb (λ p, bool_decide (Interface_Validate p.2 = None)) (map_to_list
    (match GetCommittedInterfaces (w_state (sys_world started)) with
     | Some c => gm (ic_Interfaces c) | None => ∅ end)) = true) as Hi by (vm_compute; reflexivity).
  assert (match committed (sys_abs started) "routes" with
    | Some (ORoutes c) => bool_decide (gm (rc_Routes c) = ∅) | _ => false end = true) as Hr
    by (vm_compute; reflexivity).
  intros t. split; intros -> c Hc.
  - unfold GetCommittedInterfaces in Hi. change (object_of _ _) with
      (committed (sys_abs started) "interfaces") in Hi. rewrite Hc in Hi.
    intros n i Hn. rewrite forallb_forall in Hi. apply (bool_decide_eq_true_1 _), (Hi (n, i)).
    by apply list_elem_of_In, elem_of_map_to_list.
  - rewrite Hc in Hr. apply bool_decide_eq_true in Hr. rewrite Hr. apply map_Forall_empty.
Qed.
Lemma committed_always_valid_witness : valid_store (sys_abs after_commit.2).
Proof.
  apply (@committed_always_valid db_host db_host_safe default_order reliable_os half_seconds
    memory_kernel memory_laws memory_link_laws memory_read_laws memory_command_laws
    amd64_float_to_int (λ _, "database") (w_fs db_world) (w_host db_world) (new_machine None)
    started after_commit.2 db_host_stable).
  - intros n. discriminate.
  - exact started_state.
  - exact started_valid.
  - exact set_and_commit.
Defined.
