(* ===== verification/FirewallRules.v ===== *)
(** * FirewallRules: the firewall plugin's configuration, rules and log filter
      (plugins/core/firewall: types.go, firewall_rules.go, parser.go, capture.go)

    The configuration records with their validation, the generation of
    nftables rules as text, the parser of logged packets, and the sampling and
    rate limit that packets pass before they are stored.  The theorems: exactly
    which configurations are accepted, whatever order the zones are visited in;
    what a rule takes from its settings; that the parser reads back the header of
    a well-formed packet and never panics; and bounds on what is stored. *)
From S2P Require Import Prelude GoStr GoNet Validation Types.

(** ** types.go: the records *)

Record FirewallDefaults := {
  fd_Input : string; fd_Forward : string; fd_Output : string; fd_SynFlood : bool;
  fd_DropInvalid : bool;
}.
Record Zone := {
  zn_Name : string; zn_Interfaces : list string; zn_Input : string; zn_Forward : string;
  zn_Output : string; zn_Masquerade : bool; zn_MTUFix : bool; zn_Family : string;
  zn_Comment : string;
}.
Record Forwarding := {
  fw_Src : string; fw_Dest : string; fw_Family : string; fw_Comment : string;
}.
Record Rule := {
  ru_Name : string; ru_Src : string; ru_Dest : string; ru_Proto : string; ru_SrcIP : string;
  ru_DestIP : string; ru_SrcPort : string; ru_DestPort : string; ru_ICMPType : list string;
  ru_Target : string; ru_Family : string; ru_Limit : string;
}.
Record PortForward := {
  pf_Name : string; pf_Src : string; pf_Dest : string; pf_Proto : string; pf_SrcDPort : string;
  pf_DestIP : string; pf_DestPort : string; pf_Target : string; pf_Enabled : bool;
  pf_Comment : string;
}.
(** [LoggingConfig] of types.go, by its other name. *)
Record FirewallLoggingConfig := {
  fl_Enabled : bool; fl_LogAccepts : bool; fl_LogDrops : bool; fl_SamplingRate : Z;
  fl_RateLimitPerSec : Z; fl_MaxLogEntries : Z; fl_RetentionDays : Z;
}.
Record FirewallConfig := {
  fc_Version : string; fc_Enabled : bool; fc_Defaults : FirewallDefaults;
  fc_Zones : gomap Zone; fc_Forwardings : list Forwarding; fc_Rules : list Rule;
  fc_PortForwards : list PortForward; fc_Logging : FirewallLoggingConfig;
}.
Record FirewallLogEntry := {
  le_ID : Z; le_Timestamp : string; le_Action : string; le_SrcIP : string; le_DstIP : string;
  le_Protocol : string; le_SrcPort : Z; le_DstPort : Z; le_InterfaceIn : string;
  le_InterfaceOut : string; le_PacketLength : Z; le_CreatedAt : string;
}.

(** ** types.go: validation *)

Definition Zone_Validate (z : Zone) : option error :=
  let v := NewCollector in
  let v := when (bool_decide (zn_Interfaces z = []))
             (Check (Some (ErrorText "zone has no interfaces"))) v in
  let v := CheckMsg (ValidatePolicy (zn_Input z)) "invalid input policy" v in
  let v := CheckMsg (ValidatePolicy (zn_Forward z)) "invalid forward policy" v in
  Error v.

Definition zone_exists (zones : gomap Zone) (name : string) : bool :=
  bool_decide (is_Some (gm zones !! name)).
Definition Forwarding_Validate (zones : gomap Zone) (f : Forwarding) : option error :=
  let v := NewCollector in
  let v := when (bool_decide (fw_Src f = ""))
             (Check (Some (ErrorText "source zone not specified"))) v in
  let v := when (bool_decide (fw_Dest f = ""))
             (Check (Some (ErrorText "destination zone not specified"))) v in
  let v := when (negb (zone_exists zones (fw_Src f)) && nonempty (fw_Src f))
             (Check (Some (ErrorText ("references non-existent source zone: " +:+ fw_Src f)))) v in
  let v := when (negb (zone_exists zones (fw_Dest f)) && nonempty (fw_Dest f))
             (Check (Some (ErrorText ("references non-existent dest zone: " +:+ fw_Dest f)))) v in
  Error v.

Definition Rule_Validate (zones : gomap Zone) (r : Rule) : option error :=
  let v := NewCollector in
  let v := when (nonempty (ru_Src r) && negb (zone_exists zones (ru_Src r)))
             (Check (Some (ErrorText ("references non-existent source zone: " +:+ ru_Src r)))) v in
  let v := CheckMsg (ValidatePolicy (ru_Target r)) "invalid target" v in
  let v := when (nonempty (ru_Proto r))
             (Check (ValidateProtocol (ru_Proto r) ["tcp"; "udp"; "icmp"; "icmpv6"])) v in
  let v := when (nonempty (ru_SrcPort r))
             (CheckMsg (ValidatePortString (ru_SrcPort r)) "invalid source port") v in
  let v := when (nonempty (ru_DestPort r))
             (CheckMsg (ValidatePortString (ru_DestPort r)) "invalid destination port") v in
  let v := when (nonempty (ru_SrcIP r))
             (CheckMsg (ValidateIP (ru_SrcIP r)) "invalid source IP") v in
  let v := when (nonempty (ru_DestIP r))
             (CheckMsg (ValidateIP (ru_DestIP r)) "invalid destination IP") v in
  Error v.

Definition PortForward_Validate (pf : PortForward) : option error :=
  let v := NewCollector in
  let v := if bool_decide (pf_DestIP pf = "")
           then Check (Some (ErrorText "missing destination IP")) v
           else CheckMsg (ValidateIP (pf_DestIP pf)) "invalid destination IP" v in
  let v := if bool_decide (pf_SrcDPort pf = "")
           then Check (Some (ErrorText "missing source port")) v
           else CheckMsg (ValidatePortString (pf_SrcDPort pf)) "invalid source port" v in
  let v := when (nonempty (pf_DestPort pf))
             (CheckMsg (ValidatePortString (pf_DestPort pf)) "invalid destination port") v in
  let v := when (nonempty (pf_Proto pf))
             (CheckMsg (ValidateProtocol (pf_Proto pf) ["tcp"; "udp"])
                "invalid protocol (must be tcp or udp)") v in
  Error v.

(** [interfaceToZone] and the collector through the loops over the zones. *)
Definition check_interface (zoneName : string) (st : gmap string string * ErrorCollector)
    (iface : string) : gmap string string * ErrorCollector :=
  (<[iface := zoneName]> st.1,
   when_some (st.1 !! iface) (λ existingZone,
     Check (Some (ErrorText ("interface " +:+ iface +:+ " appears in multiple zones: " +:+
                             existingZone +:+ " and " +:+ zoneName)))) st.2).
Definition check_zone (st : gmap string string * ErrorCollector) (p : string * Zone)
    : gmap string string * ErrorCollector :=
  let '(zoneName, zone) := p in
  if bool_decide (zoneName = "") then
    (st.1, Check (Some (ErrorText "zone name cannot be empty")) st.2)
  else
    let st := fold_left (check_interface zoneName) (zn_Interfaces zone) st in
    (st.1, when_some (Zone_Validate zone)
             (λ err, CheckMsg (Some err) ("zone " +:+ zoneName)) st.2).

Section validate.
Context `{RangeOrder}.

Definition FirewallConfig_Validate (fc : option FirewallConfig) : option error :=
  match fc with
  | None => Error (Check (Some (ErrorText "config is nil")) NewCollector)
  | Some fc =>
      let v := when (bool_decide (gm (fc_Zones fc) = ∅))
                 (Check (Some (ErrorText "no zones defined"))) NewCollector in
      let '(_, v) := fold_left check_zone (range (gm (fc_Zones fc))) (∅, v) in
      let v := fold_left (λ v p, when_some (Forwarding_Validate (fc_Zones fc) p.2)
                 (λ err, CheckMsg (Some err) ("forwarding " +:+ itoa (Z.of_nat p.1))) v)
                 (indexed (fc_Forwardings fc)) v in
      let v := fold_left (λ v rule, when_some (Rule_Validate (fc_Zones fc) rule)
                 (λ err, CheckMsg (Some err) ("rule " +:+ ru_Name rule)) v) (fc_Rules fc) v in
      let v := fold_left (λ v pf, when_some (PortForward_Validate pf)
                 (λ err, CheckMsg (Some err) ("port forward " +:+ pf_Name pf)) v)
                 (fc_PortForwards fc) v in
      Error v
  end.
(** [ValidateFirewallConfig] of firewall_rules.go. *)
Definition ValidateFirewallConfig (config : option FirewallConfig) : option error :=
  FirewallConfig_Validate config.
End validate.

(** ** firewall_rules.go: the text of the rules *)

Definition shouldLog (action : string) (loggingConfig : FirewallLoggingConfig) : bool :=
  if negb (fl_Enabled loggingConfig) then false
  else
    let actionLower := to_lower action in
    if bool_decide (actionLower = "accept") then fl_LogAccepts loggingConfig
    else if bool_decide (actionLower = "drop") || bool_decide (actionLower = "reject")
    then fl_LogDrops loggingConfig
    else false.
Definition getNFLOGGroup (action : string) : Z :=
  if bool_decide (to_lower action = "accept") then 101 else 100.

(** A double quote and a text between two of them. *)
Definition quote : string := bytes [34%N].
Definition quoted (s : string) : string := quote +:+ s +:+ quote.
(** [if cond { parts = append(parts, part) }]. *)
Definition part_if (cond : bool) (part : string) : list string := if cond then [part] else [].
Definition log_part (action : string) (loggingConfig : FirewallLoggingConfig) : list string :=
  part_if (shouldLog action loggingConfig) ("log group " +:+ itoa (getNFLOGGroup action)).

Definition GeneratePortForwardDNATRule (portFwd : PortForward) : string :=
  let dnatTarget :=
    if nonempty (pf_DestPort portFwd) && negb (bool_decide (pf_DestPort portFwd = pf_SrcDPort portFwd))
    then pf_DestIP portFwd +:+ ":" +:+ pf_DestPort portFwd
    else pf_DestIP portFwd in
  join " " (
    part_if (nonempty (pf_Proto portFwd)) ("meta l4proto " +:+ pf_Proto portFwd) ++
    part_if (nonempty (pf_SrcDPort portFwd)) ("th dport " +:+ pf_SrcDPort portFwd) ++
    ["counter dnat to " +:+ dnatTarget +:+ " comment " +:+ quoted (pf_Comment portFwd)]).

Definition GeneratePortForwardFilterRule (portFwd : PortForward)
    (loggingConfig : FirewallLoggingConfig) : string :=
  join " " (
    ["ip daddr " +:+ pf_DestIP portFwd] ++
    part_if (nonempty (pf_Proto portFwd)) ("meta l4proto " +:+ pf_Proto portFwd) ++
    (if nonempty (pf_DestPort portFwd) then ["th dport " +:+ pf_DestPort portFwd]
     else part_if (nonempty (pf_SrcDPort portFwd)) ("th dport " +:+ pf_SrcDPort portFwd)) ++
    log_part "accept" loggingConfig ++
    ["counter accept comment " +:+ quoted ("Allow-PortForward-" +:+ pf_Name portFwd)]).

Definition is_established_rule (name : string) : bool :=
  bool_decide (name = "Allow-Established-Related") ||
  has_prefix name "Allow-Established-Related-".
Definition GenerateCustomRule (rule : Rule) (loggingConfig : FirewallLoggingConfig) : string :=
  let target := to_lower (ru_Target rule) in
  join " " (
    (if is_established_rule (ru_Name rule) then ["ct state established,related"]
     else
       part_if (nonempty (ru_Proto rule))
         (if bool_decide (ru_Proto rule = "icmp") then "meta l4proto icmp"
          else "meta l4proto " +:+ ru_Proto rule) ++
       part_if (nonempty (ru_DestPort rule)) ("th dport " +:+ ru_DestPort rule) ++
       part_if (nonempty (ru_SrcPort rule)) ("th sport " +:+ ru_SrcPort rule)) ++
    log_part target loggingConfig ++
    ["counter " +:+ target +:+ " comment " +:+ quoted (ru_Name rule)]).

(** ** parser.go *)

Definition IPProtoTCP : Z := 6.
Definition IPProtoUDP : Z := 17.
Definition IPProtoICMP : Z := 1.

(** Indexing and slicing a byte slice; out of range they panic. *)
Definition byte_at (payload : list Z) (i : nat) : res Z :=
  match payload !! i with Some b => Ok b | None => Panic "index out of range" end.
Definition slice (payload : list Z) (a b : nat) : res (list Z) :=
  if (a <=? b)%nat && (b <=? length payload)%nat then Ok (take (b - a) (drop a payload))
  else Panic "slice bounds out of range".
(** [binary.BigEndian.Uint16]. *)
Definition BigEndian_Uint16 (l : list Z) : res Z :=
  match l with a :: b :: _ => Ok (Z.lor (Z.shiftl a 8) b) | _ => Panic "index out of range" end.

Definition uint16_at (payload : list Z) (i : nat) : res Z :=
  slice payload i (i + 2) ≫= BigEndian_Uint16.

(** The ports of TCP and UDP, when the payload reaches that far. *)
Definition parse_ports (payload : list Z) (ihl : nat) : res (Z * Z) :=
  if (ihl + 4 <=? length payload)%nat then
    uint16_at payload ihl ≫= λ src,
    uint16_at payload (ihl + 2) ≫= λ dst,
    Ok (src, dst)
  else Ok (0, 0).
(** [now]: the formatted time. *)
Definition ParseIPPacket (now : string) (payload : list Z) (action : string)
    : res FirewallLogEntry :=
  if (length payload <? 20)%nat then
    Err (ErrorText ("packet too short: " +:+ itoa (Z.of_nat (length payload)) +:+ " bytes"))
  else
    byte_at payload 0 ≫= λ b0,
    let ipVersion := Z.shiftr b0 4 in
    if negb (ipVersion =? 4) then
      Err (ErrorText ("unsupported IP version: " +:+ itoa ipVersion))
    else
      let ihl := Z.to_nat (Z.land b0 15 * 4) in
      if (length payload <? ihl)%nat then
        Err (ErrorText ("packet shorter than IHL: " +:+ itoa (Z.of_nat (length payload)) +:+ " < " +:+
                        itoa (Z.of_nat ihl)))
      else
        uint16_at payload 2 ≫= λ totalLength,
        byte_at payload 9 ≫= λ protocol,
        slice payload 12 16 ≫= λ srcIP,
        slice payload 16 20 ≫= λ dstIP,
        (if protocol =? IPProtoTCP then parse_ports payload ihl ≫= λ p, Ok ("TCP", p)
         else if protocol =? IPProtoUDP then parse_ports payload ihl ≫= λ p, Ok ("UDP", p)
         else if protocol =? IPProtoICMP then Ok ("ICMP", (0, 0))
         else Ok ("PROTO-" +:+ itoa protocol, (0, 0))) ≫= λ '(name, (srcPort, dstPort)),
        Ok {| le_ID := 0; le_Timestamp := now; le_Action := action; le_SrcIP := IP_String srcIP;
              le_DstIP := IP_String dstIP; le_Protocol := name; le_SrcPort := srcPort;
              le_DstPort := dstPort; le_InterfaceIn := ""; le_InterfaceOut := "";
              le_PacketLength := totalLength; le_CreatedAt := "" |}.

Definition ShouldLogEntry (entry : FirewallLogEntry) (config : FirewallLoggingConfig) : bool :=
  if negb (fl_Enabled config) then false
  else if bool_decide (le_Action entry = "ACCEPT") then fl_LogAccepts config
  else if bool_decide (le_Action entry = "DROP") || bool_decide (le_Action entry = "REJECT")
  then fl_LogDrops config
  else false.
(** [%] truncates towards zero. *)
Definition ApplySampling (samplingCounter samplingRate : Z) : bool :=
  if samplingRate <=? 1 then true else Z.rem samplingCounter samplingRate =? 0.

(** ** capture.go: what is stored *)

(** Times are nanoseconds of the monotonic clock. *)
Definition second : Z := 1000000000.
Record RateLimiter := { lim_maxPerSec : Z; lim_tokens : Z; lim_lastReset : Z }.
Definition NewRateLimiter (maxPerSec now : Z) : RateLimiter :=
  {| lim_maxPerSec := maxPerSec; lim_tokens := maxPerSec; lim_lastReset := now |}.
Definition Allow (now : Z) (r : RateLimiter) : bool * RateLimiter :=
  if lim_maxPerSec r <=? 0 then (true, r)
  else
    let r :=
      if second <=? now - lim_lastReset r
      then {| lim_maxPerSec := lim_maxPerSec r; lim_tokens := lim_maxPerSec r; lim_lastReset := now |}
      else r in
    if 0 <? lim_tokens r
    then (true, {| lim_maxPerSec := lim_maxPerSec r; lim_tokens := lim_tokens r - 1;
                   lim_lastReset := lim_lastReset r |})
    else (false, r).

(** The counters of a [LogCapture]; its sockets and its database are not part of
    the state. *)
Record LogCapture := {
  cap_config : FirewallLoggingConfig; cap_samplingCounter : Z; cap_rateLimiter : RateLimiter;
}.
Definition NewLogCapture (config : FirewallLoggingConfig) (now : Z) : LogCapture :=
  {| cap_config := config; cap_samplingCounter := 0;
     cap_rateLimiter := NewRateLimiter (fl_RateLimitPerSec config) now |}.

(** The attributes of an NFLOG message the code looks at, the time it is
    handled at, also formatted, and the action of its group. *)
Record packet := {
  pk_Payload : option (list Z); pk_InDev : option Z; pk_OutDev : option Z;
  pk_action : string; pk_time : Z; pk_stamp : string;
}.
Definition with_interfaces (pk : packet) (e : FirewallLogEntry) : FirewallLogEntry :=
  {| le_ID := le_ID e; le_Timestamp := le_Timestamp e; le_Action := le_Action e;
     le_SrcIP := le_SrcIP e; le_DstIP := le_DstIP e; le_Protocol := le_Protocol e;
     le_SrcPort := le_SrcPort e; le_DstPort := le_DstPort e;
     le_InterfaceIn := match pk_InDev pk with Some i => "if" +:+ itoa i | None => "" end;
     le_InterfaceOut := match pk_OutDev pk with Some i => "if" +:+ itoa i | None => "" end;
     le_PacketLength := le_PacketLength e; le_CreatedAt := le_CreatedAt e |}.
(** The entry given to [InsertLog], if any, whose outcome is ignored. *)
Definition processNFLOGPacket (pk : packet) (c : LogCapture)
    : res (option FirewallLogEntry) * LogCapture :=
  match pk_Payload pk with
  | None | Some [] => (Ok None, c)
  | Some payload =>
      match ParseIPPacket (pk_stamp pk) payload (pk_action pk) with
      | Panic w => (Panic w, c)
      | Err _ => (Ok None, c)
      | Ok entry =>
          let entry := with_interfaces pk entry in
          if negb (ShouldLogEntry entry (cap_config c)) then (Ok None, c)
          else
            let c := {| cap_config := cap_config c;
                        cap_samplingCounter := wrap64 (cap_samplingCounter c + 1);
                        cap_rateLimiter := cap_rateLimiter c |} in
            if negb (ApplySampling (cap_samplingCounter c) (fl_SamplingRate (cap_config c)))
            then (Ok None, c)
            else
              let '(allowed, limiter) := Allow (pk_time pk) (cap_rateLimiter c) in
              let c := {| cap_config := cap_config c; cap_samplingCounter := cap_samplingCounter c;
                          cap_rateLimiter := limiter |} in
              (Ok (if allowed then Some entry else None), c)
      end
  end.

(** ** Lemmas: validation *)

(** What the validation of each part asks for. *)
Definition zone_ok (z : Zone) : Prop :=
  zn_Interfaces z ≠ [] ∧ ValidatePolicy (zn_Input z) = None ∧ ValidatePolicy (zn_Forward z) = None.
Definition forwarding_ok (zones : gmap string Zone) (f : Forwarding) : Prop :=
  fw_Src f ≠ "" ∧ fw_Dest f ≠ "" ∧ is_Some (zones !! fw_Src f) ∧ is_Some (zones !! fw_Dest f).
Definition rule_ok (zones : gmap string Zone) (r : Rule) : Prop :=
  (ru_Src r ≠ "" → is_Some (zones !! ru_Src r)) ∧
  ValidatePolicy (ru_Target r) = None ∧
  (ru_Proto r ≠ "" → ru_Proto r ∈ ["tcp"; "udp"; "icmp"; "icmpv6"]) ∧
  (ru_SrcPort r ≠ "" → ValidatePortString (ru_SrcPort r) = None) ∧
  (ru_DestPort r ≠ "" → ValidatePortString (ru_DestPort r) = None) ∧
  (ru_SrcIP r ≠ "" → ValidateIP (ru_SrcIP r) = None) ∧
  (ru_DestIP r ≠ "" → ValidateIP (ru_DestIP r) = None).
Definition port_forward_ok (pf : PortForward) : Prop :=
  pf_DestIP pf ≠ "" ∧ ValidateIP (pf_DestIP pf) = None ∧
  pf_SrcDPort pf ≠ "" ∧ ValidatePortString (pf_SrcDPort pf) = None ∧
  (pf_DestPort pf ≠ "" → ValidatePortString (pf_DestPort pf) = None) ∧
  (pf_Proto pf ≠ "" → pf_Proto pf = "tcp" ∨ pf_Proto pf = "udp").

Lemma ValidateProtocol_None p l : p ≠ "" → ValidateProtocol p l = None ↔ p ∈ l.
Proof.
  intros Hp. unfold ValidateProtocol. rewrite bool_decide_eq_false_2 by done.
  destruct (existsb (String.eqb p) l) eqn:E.
  - apply existsb_exists in E as (q & Hq & ->%String.eqb_eq). rewrite <-list_elem_of_In in Hq. tauto.
  - split; [done|]. intros Hin. rewrite <-not_true_iff_false, existsb_exists in E. destruct E.
    exists p. split; [by apply list_elem_of_In|apply String.eqb_refl].
Qed.
Lemma Zone_Validate_None z : Zone_Validate z = None ↔ zone_ok z.
Proof.
  unfold Zone_Validate, zone_ok. cbv zeta. autorewrite with collector.
  rewrite bool_decide_eq_true. cbn. destruct (zn_Interfaces z); naive_solver.
Qed.
Lemma zone_exists_true zones n : zone_exists zones n = true ↔ is_Some (gm zones !! n).
Proof. apply bool_decide_eq_true. Qed.
Lemma Forwarding_Validate_None zones f :
  Forwarding_Validate zones f = None ↔ forwarding_ok (gm zones) f.
Proof.
  unfold Forwarding_Validate, forwarding_ok. cbv zeta. autorewrite with collector.
  rewrite !andb_true_iff, !negb_true_iff, !nonempty_true, !bool_decide_eq_true,
    <-!not_true_iff_false, !zone_exists_true. cbn.
  destruct (decide (is_Some (gm zones !! fw_Src f))), (decide (is_Some (gm zones !! fw_Dest f)));
    naive_solver.
Qed.
Lemma Rule_Validate_None zones r : Rule_Validate zones r = None ↔ rule_ok (gm zones) r.
Proof.
  unfold Rule_Validate, rule_ok. cbv zeta. autorewrite with collector.
  rewrite !andb_true_iff, !negb_true_iff, !nonempty_true, <-!not_true_iff_false, !zone_exists_true.
  cbn. assert (ru_Proto r ≠ "" → ValidateProtocol (ru_Proto r) ["tcp"; "udp"; "icmp"; "icmpv6"] = None
    ↔ ru_Proto r ∈ ["tcp"; "udp"; "icmp"; "icmpv6"]) by apply ValidateProtocol_None.
  destruct (decide (is_Some (gm zones !! ru_Src r))); naive_solver.
Qed.
Lemma PortForward_Validate_None pf : PortForward_Validate pf = None ↔ port_forward_ok pf.
Proof.
  unfold PortForward_Validate, port_forward_ok. cbv zeta.
  assert (pf_Proto pf ≠ "" → ValidateProtocol (pf_Proto pf) ["tcp"; "udp"] = None
    ↔ pf_Proto pf = "tcp" ∨ pf_Proto pf = "udp") as Hp.
  { intros Hp. rewrite ValidateProtocol_None by done. set_solver. }
  do 2 case_bool_decide; autorewrite with collector; rewrite !nonempty_true; cbn; naive_solver.
Qed.

Lemma check_interface_fold name l : ∀ m v,
  let st := fold_left (check_interface name) l (m, v) in
  dom st.1 ≡ dom m ∪ list_to_set l ∧
  (errs st.2 = [] ↔ errs v = [] ∧ NoDup l ∧ ∀ i, i ∈ l → i ∉ dom m).
Proof.
  induction l as [|i l IH]; intros m v.
  { cbn. split; [set_solver|]. split; [|naive_solver]. intros Hv. split; [done|].
    split; [constructor|]. set_solver. }
  cbn [fold_left]. unfold check_interface at 2 4. cbn [fst snd].
  destruct (IH (<[i := name]> m) (when_some (m !! i) (λ existingZone, Check (Some (ErrorText
    ("interface " +:+ i +:+ " appears in multiple zones: " +:+ existingZone +:+ " and " +:+ name)))) v))
    as [Hd He].
  rewrite Hd, He, dom_insert, NoDup_cons. split; [set_solver|]. clear IH Hd He.
  destruct (m !! i) as [z|] eqn:Hi; cbn [when_some].
  - rewrite errs_Check. split; [naive_solver|]. intros (_ & _ & Hn). exfalso.
    apply (Hn i); [by left|]. by apply elem_of_dom_2 in Hi.
  - apply not_elem_of_dom in Hi. split.
    + intros (Hv & Hnd & Hn). split; [done|]. split; [split; [|done]|].
      * intros Hin. apply (Hn i Hin). set_solver.
      * intros j [->|Hj]%elem_of_cons; [done|]. specialize (Hn j Hj). set_solver.
    + intros (Hv & [Hni Hnd] & Hn). split; [done|]. split; [done|]. intros j Hj.
      assert (j ≠ i) by congruence. specialize (Hn j). set_solver.
Qed.

(** The interfaces of some zones, with repetitions. *)
Definition all_interfaces (l : list (string * Zone)) : list string :=
  concat ((λ p, zn_Interfaces p.2) <$> l).
Lemma check_zone_fold l : ∀ m v,
  errs (fold_left check_zone l (m, v)).2 = [] ↔
    errs v = [] ∧ Forall (λ p, p.1 ≠ "" ∧ zone_ok p.2) l ∧ NoDup (all_interfaces l) ∧
    ∀ i, i ∈ all_interfaces l → i ∉ dom m.
Proof.
  induction l as [|[n z] l IH]; intros m v.
  { cbn. split; [|naive_solver]. intros Hv. split_and!; [done..|constructor|].
    intros i Hi. by apply not_elem_of_nil in Hi. }
  cbn [fold_left check_zone]. rewrite Forall_cons. cbn [fst snd].
  case_bool_decide as Hn.
  { rewrite IH, errs_Check. naive_solver. }
  destruct (check_interface_fold n (zn_Interfaces z) m v) as [Hd He].
  destruct (fold_left (check_interface n) (zn_Interfaces z) (m, v)) as [m1 v1].
  cbn [fst snd] in *. rewrite IH. clear IH.
  assert (errs (when_some (Zone_Validate z) (λ err, CheckMsg (Some err) ("zone " +:+ n)) v1) = []
    ↔ errs v1 = [] ∧ zone_ok z) as ->.
  { rewrite <-Zone_Validate_None. destruct (Zone_Validate z); cbn [when_some];
      [rewrite errs_CheckMsg|]; naive_solver. }
  rewrite He. change (all_interfaces ((n, z) :: l)) with (zn_Interfaces z ++ all_interfaces l).
  rewrite NoDup_app. setoid_rewrite elem_of_app. setoid_rewrite Hd.
  setoid_rewrite elem_of_union. setoid_rewrite elem_of_list_to_set. naive_solver.
Qed.
Lemma all_interfaces_perm l l' : l ≡ₚ l' → all_interfaces l ≡ₚ all_interfaces l'.
Proof. intros Hl. unfold all_interfaces. by rewrite Hl. Qed.

Lemma firewall_config_valid `{RangeOrder} c :
  ValidateFirewallConfig (Some c) = None ↔
    gm (fc_Zones c) ≠ ∅ ∧
    map_Forall (λ name z, name ≠ "" ∧ zone_ok z) (gm (fc_Zones c)) ∧
    NoDup (all_interfaces (map_to_list (gm (fc_Zones c)))) ∧
    Forall (forwarding_ok (gm (fc_Zones c))) (fc_Forwardings c) ∧
    Forall (rule_ok (gm (fc_Zones c))) (fc_Rules c) ∧
    Forall port_forward_ok (fc_PortForwards c).
Proof.
  cbn.
  rewrite (surjective_pairing (fold_left check_zone _ _)). rewrite Error_None.
  rewrite (errs_fold (λ pf, when_some (PortForward_Validate pf) _) port_forward_ok).
  2: { intros pf ec. rewrite <-PortForward_Validate_None. destruct (PortForward_Validate pf);
         cbn [when_some]; rewrite ?errs_CheckMsg; naive_solver. }
  rewrite (errs_fold (λ r, when_some (Rule_Validate (fc_Zones c) r) _) (rule_ok (gm (fc_Zones c)))).
  2: { intros r ec. rewrite <-Rule_Validate_None. destruct (Rule_Validate _ r);
         cbn [when_some]; rewrite ?errs_CheckMsg; naive_solver. }
  rewrite (errs_fold (λ p : nat * Forwarding, when_some (Forwarding_Validate (fc_Zones c) p.2) _)
    (λ p, forwarding_ok (gm (fc_Zones c)) p.2)).
  2: { intros [k f] ec. rewrite <-Forwarding_Validate_None. cbn.
       destruct (Forwarding_Validate _ f); cbn [when_some]; rewrite ?errs_CheckMsg; naive_solver. }
  rewrite check_zone_fold, errs_when_Check, bool_decide_eq_true, Forall_indexed.
  rewrite (all_interfaces_perm _ _ (range_perm (gm (fc_Zones c)))).
  rewrite (range_perm (gm (fc_Zones c))), map_Forall_to_list.
  setoid_rewrite dom_empty. assert (Forall (λ p : string * Zone, p.1 ≠ "" ∧ zone_ok p.2)
    (map_to_list (gm (fc_Zones c))) ↔ Forall (uncurry (λ name z, name ≠ "" ∧ zone_ok z))
    (map_to_list (gm (fc_Zones c)))) as -> by (apply Forall_iff; by intros []).
  split; intros Hc; [destruct Hc as (((((_ & Hne) & Hz & Hnd & _) & Hf) & Hr) & Hp)
    |destruct Hc as (Hne & Hz & Hnd & Hf & Hr & Hp)]; split_and!; try done.
  intros E. by apply Hne in E.
Qed.

(** ** Lemmas: logged packets *)

Lemma land_shiftl_byte a b : is_byte b → Z.land (Z.shiftl a 8) b = 0.
Proof.
  unfold is_byte. intros Hb. apply Z.bits_inj'. intros n Hn. rewrite Z.land_spec, Z.bits_0.
  destruct (Z.ltb_spec n 8).
  - by rewrite Z.shiftl_spec_low.
  - replace b with (b mod 2 ^ 8) by (apply Z.mod_small; lia).
    by rewrite Z.mod_pow2_bits_high, andb_false_r by lia.
Qed.
Lemma BigEndian_value a b l :
  is_byte b → BigEndian_Uint16 (a :: b :: l) = Ok (a * 256 + b).
Proof.
  intros Hb. cbn. f_equal. pose proof (land_shiftl_byte a b Hb) as Hl.
  rewrite <-Z.lxor_lor, <-Z.add_nocarry_lxor by done. by rewrite Z.shiftl_mul_pow2.
Qed.
Lemma slice_app (l1 l2 l3 : list Z) :
  slice (l1 ++ l2 ++ l3) (length l1) (length l1 + length l2) = Ok l2.
Proof.
  unfold slice. rewrite !length_app.
  rewrite (proj2 (Nat.leb_le _ _)), (proj2 (Nat.leb_le _ _)) by lia. cbn.
  rewrite drop_app_length. f_equal. replace (_ - _)%nat with (length l2) by lia. apply take_app_length.
Qed.
(** A slice inside the payload. *)
Lemma slice_ok l a b : (a ≤ b)%nat → (b ≤ length l)%nat →
  ∃ s, slice l a b = Ok s ∧ length s = (b - a)%nat ∧ ∀ x, x ∈ s → x ∈ l.
Proof.
  intros Ha Hb. unfold slice. rewrite !(proj2 (Nat.leb_le _ _)) by lia. cbn. eexists.
  split; [done|]. split; [rewrite length_take, length_drop; lia|].
  intros x Hx. rewrite <-(take_drop a l), elem_of_app. right.
  rewrite <-(take_drop (b - a) (drop a l)), elem_of_app. by left.
Qed.
Lemma byte_at_ok l i : (i < length l)%nat → ∃ b, byte_at l i = Ok b ∧ b ∈ l.
Proof.
  intros [b Hb]%lookup_lt_is_Some. exists b. unfold byte_at. rewrite Hb.
  split; [done|]. by eapply list_elem_of_lookup_2.
Qed.
Lemma uint16_ok l i : (i + 2 ≤ length l)%nat → Forall is_byte l →
  ∃ r, uint16_at l i = Ok r ∧ 0 ≤ r ≤ 65535.
Proof.
  intros Hi Hl. destruct (slice_ok l i (i + 2)) as (s & Hs & Hlen & Hin); [lia..|].
  unfold uint16_at. rewrite Hs. destruct s as [|a [|b s]]; cbn in Hlen; try lia.
  rewrite Forall_forall in Hl.
  assert (is_byte a) as Ha by (apply Hl, Hin; by left).
  assert (is_byte b) as Hb by (apply Hl, Hin; right; by left).
  exists (a * 256 + b). split; [by apply BigEndian_value|]. unfold is_byte in *. lia.
Qed.
Lemma parse_ports_ok l ihl : Forall is_byte l →
  ∃ src dst, parse_ports l ihl = Ok (src, dst) ∧ 0 ≤ src ≤ 65535 ∧ 0 ≤ dst ≤ 65535.
Proof.
  intros Hl. unfold parse_ports. destruct (Nat.leb_spec (ihl + 4) (length l)).
  - destruct (uint16_ok l ihl) as (src & -> & ?); [lia|done|].
    destruct (uint16_ok l (ihl + 2)) as (dst & -> & ?); [lia|done|]. cbn. eauto.
  - exists 0, 0. split; [done|lia].
Qed.

(** ** Lemmas: sampling and the rate limit *)

Lemma wrap64_id z : min_int64 ≤ z ≤ max_int64 → wrap64 z = z.
Proof.
  unfold min_int64, max_int64, wrap64. intros Hz. rewrite Z.mod_small by lia. lia.
Qed.

(** One call consumes one token, after a possible reset. *)
Lemma Allow_cases now r b r' :
  0 < lim_maxPerSec r → Allow now r = (b, r') →
  lim_maxPerSec r' = lim_maxPerSec r ∧
  ∃ tokens, lim_tokens r' = (if b then tokens - 1 else tokens) ∧ (b = true → 0 < tokens) ∧
    (lim_lastReset r' = lim_lastReset r ∧ tokens = lim_tokens r ∨
     second ≤ now - lim_lastReset r ∧ lim_lastReset r' = now ∧ tokens = lim_maxPerSec r).
Proof.
  intros Hm. unfold Allow. rewrite (proj2 (Z.leb_gt _ _)) by done.
  destruct (Z.leb_spec second (now - lim_lastReset r)); cbn [lim_tokens lim_maxPerSec lim_lastReset];
    (destruct (Z.ltb_spec 0 (lim_maxPerSec r)) || idtac);
    (destruct (Z.ltb_spec 0 (lim_tokens r)) || idtac);
    intros [= <- <-]; cbn; (split; [done|]); eexists; (split; [done|]); naive_solver lia.
Qed.

(** A sequence of packets, and the entries stored for them. *)
Fixpoint capture_run (pks : list packet) (c : LogCapture) : res (list FirewallLogEntry) * LogCapture :=
  match pks with
  | [] => (Ok [], c)
  | pk :: pks =>
      match processNFLOGPacket pk c with
      | (Ok stored, c) =>
          let '(r, c) := capture_run pks c in (app (option_list stored) <$> r, c)
      | (Err e, c) => (Err e, c)
      | (Panic w, c) => (Panic w, c)
      end
  end.
Definition packet_bytes (pk : packet) : Prop :=
  ∀ payload, pk_Payload pk = Some payload → Forall is_byte payload.

Lemma ParseIPPacket_safe now payload action :
  Forall is_byte payload →
  match ParseIPPacket now payload action with
  | Ok e => le_Action e = action ∧ le_Timestamp e = now ∧ 0 ≤ le_SrcPort e ≤ 65535 ∧
            0 ≤ le_DstPort e ≤ 65535 ∧ 0 ≤ le_PacketLength e ≤ 65535
  | Err _ => True
  | Panic _ => False
  end.
Proof.
  intros Hb. unfold ParseIPPacket. destruct (Nat.ltb_spec (length payload) 20); [done|].
  destruct (byte_at_ok payload 0) as (b0 & -> & _); [lia|]. cbn [mbind res_bind].
  destruct (negb _); [done|]. destruct (Nat.ltb_spec (length payload) (Z.to_nat (Z.land b0 15 * 4))); [done|].
  destruct (uint16_ok payload 2) as (total & -> & ?); [lia|done|]. cbn [mbind res_bind].
  destruct (byte_at_ok payload 9) as (protocol & -> & _); [lia|]. cbn [mbind res_bind].
  destruct (slice_ok payload 12 16) as (src & -> & _); [lia..|]. cbn [mbind res_bind].
  destruct (slice_ok payload 16 20) as (dst & -> & _); [lia..|]. cbn [mbind res_bind].
  destruct (parse_ports_ok payload (Z.to_nat (Z.land b0 15 * 4)) Hb) as (sp & dp & -> & ? & ?).
  destruct (protocol =? IPProtoTCP), (protocol =? IPProtoUDP), (protocol =? IPProtoICMP);
    cbn; split_and!; done || lia.
Qed.

Lemma process_cases pk c :
  packet_bytes pk → ∃ stored c', processNFLOGPacket pk c = (Ok stored, c') ∧
    cap_config c' = cap_config c ∧
    (∀ e, stored = Some e → ShouldLogEntry e (cap_config c) = true) ∧
    (stored = None ∧ c' = c ∨
     cap_samplingCounter c' = wrap64 (cap_samplingCounter c + 1) ∧
     (stored ≠ None →
      ApplySampling (cap_samplingCounter c') (fl_SamplingRate (cap_config c)) = true) ∧
     (stored = None ∧ cap_rateLimiter c' = cap_rateLimiter c ∨
      Allow (pk_time pk) (cap_rateLimiter c) =
        (bool_decide (stored ≠ None), cap_rateLimiter c'))).
Proof.
  intros Hb. unfold processNFLOGPacket.
  destruct (pk_Payload pk) as [[|b payload]|] eqn:Hp;
    [by exists None, c; split_and!; auto| |by exists None, c; split_and!; auto].
  pose proof (ParseIPPacket_safe (pk_stamp pk) (b :: payload) (pk_action pk) (Hb _ Hp)) as Hs.
  destruct (ParseIPPacket _ _ _) as [e| |]; [|by exists None, c; split_and!; auto|done].
  destruct (ShouldLogEntry (with_interfaces pk e) (cap_config c)) eqn:Hl; cbn [negb];
    [|by exists None, c; split_and!; auto].
  cbn [cap_config cap_samplingCounter cap_rateLimiter].
  destruct (ApplySampling _ _) eqn:Hsm; cbn [negb].
  2: { exists None. eexists. split; [done|]. cbn. split_and!; [done..|].
       right. split; [done|]. split; [done|]. by left. }
  destruct (Allow (pk_time pk) (cap_rateLimiter c)) as [[] l] eqn:Ha.
  - eexists (Some _), _. split; [done|]. cbn. split_and!; [done|by intros ? [= <-]|].
    right. split; [done|]. split; [done|]. by right.
  - exists None. eexists. split; [done|]. cbn. split_and!; [done..|].
    right. split; [done|]. split; [done|]. by right.
Qed.

Lemma sampling_step s n stored :
  1 < s → 0 ≤ n → (stored = true → Z.rem (n + 1) s = 0) →
  Z.b2z stored + n / s ≤ (n + 1) / s.
Proof.
  intros Hs Hn Hr. destruct stored; cbn [Z.b2z].
  - specialize (Hr eq_refl). rewrite Z.rem_mod_nonneg in Hr by lia.
    pose proof (Z.div_mod (n + 1) s) as Hd. rewrite Hr in Hd.
    assert (n / s < (n + 1) / s); [|lia]. apply Z.div_lt_upper_bound; lia.
  - apply Z.div_le_mono; lia.
Qed.
Lemma capture_run_bounds pks : ∀ c,
  Forall packet_bytes pks → 0 ≤ cap_samplingCounter c →
  cap_samplingCounter c + Z.of_nat (length pks) ≤ max_int64 →
  ∃ es c', capture_run pks c = (Ok es, c') ∧
    Forall (λ e, ShouldLogEntry e (cap_config c) = true) es ∧
    (1 < fl_SamplingRate (cap_config c) →
     Z.of_nat (length es) + cap_samplingCounter c / fl_SamplingRate (cap_config c)
       ≤ (cap_samplingCounter c + Z.of_nat (length pks)) / fl_SamplingRate (cap_config c)) ∧
    (∀ m tend, 0 < m → lim_maxPerSec (cap_rateLimiter c) = m →
     0 ≤ lim_tokens (cap_rateLimiter c) → lim_lastReset (cap_rateLimiter c) ≤ tend →
     Forall (λ pk, pk_time pk ≤ tend) pks →
     Z.of_nat (length es) ≤ lim_tokens (cap_rateLimiter c) +
       m * ((tend - lim_lastReset (cap_rateLimiter c)) / second)).
Proof.
  induction pks as [|pk pks IH]; intros c Hb Hc Hmax.
  { exists [], c. split; [done|]. split; [constructor|]. cbn [length] in *. split.
    - intros _. by rewrite Z.add_0_r.
    - intros m tend Hm _ Ht Hl _. assert (0 ≤ (tend - lim_lastReset (cap_rateLimiter c)) / second); [|lia].
      apply Z.div_pos; [lia|done]. }
  apply Forall_cons in Hb as [Hpk Hb]. cbn [length] in Hmax.
  destruct (process_cases pk c Hpk) as (stored & c1 & E & Hcfg & Hlog & Hcase).
  assert (cap_samplingCounter c1 = cap_samplingCounter c ∧ stored = None ∨
    cap_samplingCounter c1 = cap_samplingCounter c + 1) as Hcount.
  { destruct Hcase as [[-> ->]|[-> _]]; [by left|right]. apply wrap64_id.
    unfold min_int64, max_int64 in *. lia. }
  destruct (IH c1) as (es & c2 & E2 & Hes & Hsamp & Hlim); [done|lia|lia|].
  exists (option_list stored ++ es), c2. cbn [capture_run]. rewrite E, E2. split; [done|].
  rewrite Hcfg in *. split; [|split].
  - apply Forall_app. split; [|done]. destruct stored; cbn; [|constructor].
    apply Forall_singleton. by apply Hlog.
  - intros Hs. specialize (Hsamp Hs). rewrite length_app. cbn [length].
    assert (Z.of_nat (length (option_list stored)) +
      cap_samplingCounter c / fl_SamplingRate (cap_config c) ≤
      cap_samplingCounter c1 / fl_SamplingRate (cap_config c)) as Hst.
    { destruct Hcount as [[-> ->]| Hc1]; [done|]. rewrite Hc1.
      replace (Z.of_nat (length (option_list stored))) with (Z.b2z (bool_decide (stored ≠ None)))
        by by destruct stored.
      apply sampling_step; [done..|]. intros Hst%bool_decide_eq_true.
      destruct Hcase as [[? _]|(_ & Hsm & _)]; [done|]. specialize (Hsm Hst).
      unfold ApplySampling in Hsm. rewrite (proj2 (Z.leb_gt _ _)), Hc1 in Hsm by done.
      by apply Z.eqb_eq. }
    assert ((cap_samplingCounter c1 + Z.of_nat (length pks)) / fl_SamplingRate (cap_config c)
      ≤ (cap_samplingCounter c + Z.of_nat (S (length pks))) / fl_SamplingRate (cap_config c)).
    { apply Z.div_le_mono; lia. }
    lia.
  - intros m tend Hm Hmx Ht Hl Hall. apply Forall_cons in Hall as [Hpt Hall].
    rewrite length_app. destruct Hcase as [[-> ->]|(_ & _ & [[-> Hr]|Ha])].
    + by apply Hlim.
    + rewrite Hr in Hlim. by apply Hlim.
    + apply Allow_cases in Ha as (Hmx' & tokens & Htk & Hpos & Hreset); [|by rewrite Hmx].
      assert (0 ≤ tokens ∧ (bool_decide (stored ≠ None) = true → 0 < tokens)) as [Ht0 Hpos'].
      { split; [|done]. destruct Hreset as [[_ ->]|(_ & _ & ->)]; lia. }
      replace (Z.of_nat (length (option_list stored) + length es)) with
        (Z.b2z (bool_decide (stored ≠ None)) + Z.of_nat (length es)) by (destruct stored; cbn; lia).
      assert (lim_lastReset (cap_rateLimiter c1) ≤ tend) as Hl1
        by (destruct Hreset as [[-> _]|(_ & -> & _)]; lia).
      assert (Z.of_nat (length es) + Z.b2z (bool_decide (stored ≠ None)) ≤
        tokens + m * ((tend - lim_lastReset (cap_rateLimiter c1)) / second)) as Hes'.
      { specialize (Hlim m tend Hm ltac:(congruence)). rewrite Htk in Hlim.
        destruct (bool_decide (stored ≠ None)); cbn [Z.b2z];
          (assert (0 < tokens) by by apply Hpos') || idtac;
          specialize (Hlim ltac:(lia) Hl1 Hall); lia. }
      destruct Hreset as [[Hr ->]|(Hsec & Hr & ->)]; rewrite Hr in Hes'; [lia|].
      assert (1 + (tend - pk_time pk) / second
        ≤ (tend - lim_lastReset (cap_rateLimiter c)) / second); [|nia].
      rewrite <-(Z.div_add_l 1 second (tend - pk_time pk)) by done.
      apply Z.div_le_mono; [done|]. lia.
Qed.

(** ** Lemmas: well-formed packets *)

(** An IPv4 packet: the fields of its header that are logged, the other bytes of
    the header, its options, and a transport header that starts with two ports. *)
Record ipv4_packet := {
  ip_length : Z; ip_protocol : Z; ip_src : list Z; ip_dst : list Z;
  ip_tos : Z; ip_id : list Z; ip_ttl : Z; ip_checksum : list Z; ip_options : list Z;
  ip_src_port : Z; ip_dst_port : Z; ip_rest : list Z;
}.
Definition big_endian (n : Z) : list Z := [n / 256; n mod 256].
Definition header_words (p : ipv4_packet) : Z := 5 + Z.of_nat (length (ip_options p)) / 4.
Definition encode_header (p : ipv4_packet) : list Z :=
  [64 + header_words p; ip_tos p] ++ big_endian (ip_length p) ++ ip_id p ++
  [ip_ttl p; ip_protocol p] ++ ip_checksum p ++ ip_src p ++ ip_dst p ++ ip_options p.
Definition encode_packet (p : ipv4_packet) : list Z :=
  encode_header p ++ big_endian (ip_src_port p) ++ big_endian (ip_dst_port p) ++ ip_rest p.
Record well_formed (p : ipv4_packet) : Prop := {
  wf_length : 0 ≤ ip_length p ≤ 65535;
  wf_src_port : 0 ≤ ip_src_port p ≤ 65535;
  wf_dst_port : 0 ≤ ip_dst_port p ≤ 65535;
  wf_src : length (ip_src p) = 4%nat;
  wf_dst : length (ip_dst p) = 4%nat;
  wf_id : length (ip_id p) = 4%nat;
  wf_checksum : length (ip_checksum p) = 2%nat;
  wf_options : ∃ n, (n ≤ 10)%nat ∧ length (ip_options p) = (4 * n)%nat;
}.
Lemma big_endian_value n l : 0 ≤ n ≤ 65535 → BigEndian_Uint16 (big_endian n ++ l) = Ok n.
Proof.
  intros Hn. unfold big_endian. cbn [app]. rewrite BigEndian_value.
  - f_equal. pose proof (Z.div_mod n 256). lia.
  - unfold is_byte. pose proof (Z.mod_pos_bound n 256). lia.
Qed.
Lemma uint16_at_app l1 n l2 :
  0 ≤ n ≤ 65535 → uint16_at (l1 ++ big_endian n ++ l2) (length l1) = Ok n.
Proof.
  intros Hn. unfold uint16_at. change (length l1 + 2)%nat with (length l1 + length (big_endian n))%nat.
  rewrite slice_app. cbn [mbind res_bind]. rewrite <-(app_nil_r (big_endian n)).
  by apply big_endian_value.
Qed.
Lemma header_words_bits p : well_formed p →
  Z.shiftr (64 + header_words p) 4 = 4 ∧
  Z.to_nat (Z.land (64 + header_words p) 15 * 4) = length (encode_header p).
Proof.
  intros [_ _ _ Hs Hd Hi Hc (n & Hn & Ho)].
  assert (length (encode_header p) = (20 + 4 * n)%nat) as ->.
  { unfold encode_header, big_endian. rewrite !length_app. cbn. lia. }
  assert (header_words p = 5 + Z.of_nat n) as ->.
  { unfold header_words. rewrite Ho, Nat2Z.inj_mul, Z.mul_comm, Z.div_mul by done. done. }
  assert (0 ≤ Z.of_nat n ≤ 10) as Hz by lia. replace (20 + 4 * n)%nat with
    (Z.to_nat (20 + 4 * Z.of_nat n)) by lia. revert Hz. generalize (Z.of_nat n). clear.
  intros z Hz. assert (z ∈ seqZ 0 11) as Hin by (apply elem_of_seqZ; lia).
  clear Hz. revert z Hin. apply Forall_forall. repeat constructor.
Qed.
Lemma ports_read p : well_formed p →
  parse_ports (encode_packet p) (length (encode_header p)) = Ok (ip_src_port p, ip_dst_port p).
Proof.
  intros [_ Hs Hd _ _ _ _ _]. unfold parse_ports, encode_packet.
  rewrite (proj2 (Nat.leb_le _ _)) by (rewrite !length_app; cbn; lia).
  rewrite uint16_at_app by done. cbn [mbind res_bind].
  replace (encode_header p ++ big_endian (ip_src_port p) ++ big_endian (ip_dst_port p) ++ ip_rest p)
    with ((encode_header p ++ big_endian (ip_src_port p)) ++ big_endian (ip_dst_port p) ++ ip_rest p)
    by by rewrite <-app_assoc.
  replace (length (encode_header p) + 2)%nat
    with (length (encode_header p ++ big_endian (ip_src_port p))) by (rewrite length_app; done).
  by rewrite uint16_at_app.
Qed.

(** ** Properties *)

(** C19: a firewall configuration is accepted exactly when it has zones, each with
    a name, interfaces and policies ACCEPT, DROP or REJECT, no interface is
    listed twice (in one zone or in two), forwardings and rules refer to zones
    that exist, and the addresses, ports and protocols of rules and port
    forwards are valid; the order in which the zones are visited does not
    matter.  A nil configuration is refused. *)
Theorem FirewallConfig_Validate_None `{RangeOrder} fc :
  ValidateFirewallConfig fc = None ↔
    ∃ c, fc = Some c ∧ gm (fc_Zones c) ≠ ∅ ∧
      map_Forall (λ name z, name ≠ "" ∧ zone_ok z) (gm (fc_Zones c)) ∧
      NoDup (all_interfaces (map_to_list (gm (fc_Zones c)))) ∧
      Forall (forwarding_ok (gm (fc_Zones c))) (fc_Forwardings c) ∧
      Forall (rule_ok (gm (fc_Zones c))) (fc_Rules c) ∧
      Forall port_forward_ok (fc_PortForwards c).
Proof.
  destruct fc as [c|]; [rewrite firewall_config_valid; naive_solver|]. cbn. naive_solver.
Qed.

(** The parser never panics on bytes from the network, however short or
    malformed; what it returns has the action it was given, and ports and
    length in the range of a 16-bit number. *)
Theorem ParseIPPacket_total now payload action :
  Forall is_byte payload →
  no_panic (ParseIPPacket now payload action) ∧
  ∀ e, ParseIPPacket now payload action = Ok e →
    le_Action e = action ∧ 0 ≤ le_SrcPort e ≤ 65535 ∧ 0 ≤ le_DstPort e ≤ 65535 ∧
    0 ≤ le_PacketLength e ≤ 65535.
Proof.
  intros Hb. pose proof (ParseIPPacket_safe now payload action Hb) as Hs.
  destruct (ParseIPPacket now payload action); [|done..]. split; [done|].
  intros ? [= <-]. tauto.
Qed.

(** C20: the entry made of a well-formed TCP or UDP packet, whatever options its
    header has, has the packet's addresses, ports, protocol and length. *)
Theorem ParseIPPacket_header now p action :
  well_formed p → ip_protocol p = IPProtoTCP ∨ ip_protocol p = IPProtoUDP →
  ParseIPPacket now (encode_packet p) action = Ok {|
    le_ID := 0; le_Timestamp := now; le_Action := action; le_SrcIP := dotted (ip_src p);
    le_DstIP := dotted (ip_dst p);
    le_Protocol := if bool_decide (ip_protocol p = IPProtoTCP) then "TCP" else "UDP";
    le_SrcPort := ip_src_port p; le_DstPort := ip_dst_port p; le_InterfaceIn := "";
    le_InterfaceOut := ""; le_PacketLength := ip_length p; le_CreatedAt := "" |}.
Proof.
  intros Hwf Hpr. pose proof (header_words_bits p Hwf) as [Hver Hihl].
  pose proof (ports_read p Hwf) as Hports. destruct Hwf as [Hl _ _ Hs Hd Hi Hc _].
  assert (length (encode_header p) ≤ length (encode_packet p))%nat as Hlen
    by (unfold encode_packet; rewrite !length_app; lia).
  assert (20 ≤ length (encode_packet p))%nat as Hlen20
    by (unfold encode_packet, encode_header, big_endian; rewrite !length_app; cbn; lia).
  assert (∃ rest, encode_packet p = [64 + header_words p; ip_tos p] ++ big_endian (ip_length p) ++
    ip_id p ++ [ip_ttl p; ip_protocol p] ++ ip_checksum p ++ ip_src p ++ ip_dst p ++ rest) as [rest Hr].
  { unfold encode_packet, encode_header. rewrite <-!app_assoc. by eexists. }
  assert (uint16_at (encode_packet p) 2 = Ok (ip_length p)) as Htot
    by (rewrite Hr; by rewrite (uint16_at_app [_; _])).
  destruct (ip_id p) as [|i1 [|i2 [|i3 [|i4 []]]]]; try done.
  destruct (ip_checksum p) as [|c1 [|c2 []]]; try done.
  destruct (ip_src p) as [|s1 [|s2 [|s3 [|s4 []]]]]; try done.
  destruct (ip_dst p) as [|d1 [|d2 [|d3 [|d4 []]]]]; try done.
  assert (byte_at (encode_packet p) 0 = Ok (64 + header_words p)) as H0 by by rewrite Hr.
  assert (byte_at (encode_packet p) 9 = Ok (ip_protocol p)) as H9 by by rewrite Hr.
  assert (slice (encode_packet p) 12 16 = Ok [s1; s2; s3; s4]) as Hsrc by by rewrite Hr.
  assert (slice (encode_packet p) 16 20 = Ok [d1; d2; d3; d4]) as Hdst by by rewrite Hr.
  unfold ParseIPPacket. rewrite (proj2 (Nat.ltb_ge _ _)), H0 by done. cbn [mbind res_bind].
  rewrite Hver. cbn [Z.eqb Pos.eqb negb]. rewrite Hihl, (proj2 (Nat.ltb_ge _ _)) by done.
  rewrite Htot. cbn [mbind res_bind]. rewrite H9. cbn [mbind res_bind]. rewrite Hsrc.
  cbn [mbind res_bind]. rewrite Hdst. cbn [mbind res_bind]. rewrite Hports.
  destruct Hpr as [Hp|Hp]; rewrite Hp; reflexivity.
Qed.

(** Whatever packets arrive, storing never panics; every entry stored is of an
    action the configuration logs; of k packets at most k divided by the
    sampling rate are stored; and with a rate limit, at most that many in the
    first second and that many more in each later second. *)
Theorem capture_bounded config t0 pks tend :
  Forall packet_bytes pks → Z.of_nat (length pks) ≤ max_int64 →
  t0 ≤ tend → Forall (λ pk, pk_time pk ≤ tend) pks →
  ∃ es c, capture_run pks (NewLogCapture config t0) = (Ok es, c) ∧
    Forall (λ e, ShouldLogEntry e config = true) es ∧
    (1 < fl_SamplingRate config →
     Z.of_nat (length es) ≤ Z.of_nat (length pks) / fl_SamplingRate config) ∧
    (0 < fl_RateLimitPerSec config →
     Z.of_nat (length es) ≤ fl_RateLimitPerSec config * (1 + (tend - t0) / second)).
Proof.
  intros Hb Hk Ht Htimes.
  destruct (capture_run_bounds pks (NewLogCapture config t0) Hb) as (es & c & E & Hes & Hs & Hl);
    [done|done|]. exists es, c. split; [done|]. split; [done|].
  cbn [NewLogCapture NewRateLimiter cap_config cap_samplingCounter cap_rateLimiter lim_maxPerSec
    lim_tokens lim_lastReset] in *. split.
  - intros Hr. specialize (Hs Hr). rewrite Z.div_0_l, Z.add_0_l in Hs by lia. lia.
  - intros Hm. specialize (Hl _ tend Hm eq_refl (Z.lt_le_incl _ _ Hm) Ht Htimes). lia.
Qed.

(** ** The properties at concrete inputs *)

Definition https_packet : ipv4_packet :=
  {| ip_length := 60; ip_protocol := IPProtoTCP; ip_src := [192; 168; 1; 2]; ip_dst := [10; 0; 0; 1];
     ip_tos := 0; ip_id := [0; 1; 64; 0]; ip_ttl := 64; ip_checksum := [0; 0];
     ip_options := [1; 1; 1; 0]; ip_src_port := 51000; ip_dst_port := 443; ip_rest := [7] |}.
Lemma https_well_formed : well_formed https_packet.
Proof. split; cbn; try lia. exists 1%nat. split; [lia|done]. Qed.
Lemma ParseIPPacket_header_witness :
  (∀ e, ParseIPPacket "now" (encode_packet https_packet) "DROP" = Ok e →
     le_SrcIP e = "192.168.1.2" ∧ le_DstPort e = 443) ∧
  no_panic (ParseIPPacket "now" (encode_packet https_packet) "DROP").
Proof.
  rewrite (ParseIPPacket_header "now" https_packet "DROP" https_well_formed (or_introl eq_refl)).
  split; [|exact I]. intros e [= <-]. split; reflexivity.
Defined.
Lemma ParseIPPacket_total_witness : no_panic (ParseIPPacket "now" [69; 0; 0; 255] "DROP").
Proof.
  apply (ParseIPPacket_total "now" [69; 0; 0; 255] "DROP"). unfold is_byte.
  repeat constructor; discriminate.
Defined.

Definition log_all (sampling limit : Z) : FirewallLoggingConfig :=
  {| fl_Enabled := true; fl_LogAccepts := true; fl_LogDrops := true; fl_SamplingRate := sampling;
     fl_RateLimitPerSec := limit; fl_MaxLogEntries := 0; fl_RetentionDays := 0 |}.
Definition dropped (t : Z) : packet :=
  {| pk_Payload := Some (encode_packet https_packet); pk_InDev := Some 2; pk_OutDev := None;
     pk_action := "DROP"; pk_time := t; pk_stamp := "now" |}.
Lemma dropped_bytes t : packet_bytes (dropped t).
Proof. intros payload [= <-]. unfold is_byte. repeat constructor; discriminate. Qed.
Lemma capture_bounded_witness :
  ∃ es c, capture_run (dropped <$> [1; 2; 3; 4; 5]) (NewLogCapture (log_all 2 1) 0) = (Ok es, c) ∧
    Z.of_nat (length es) ≤ 1.
Proof.
  destruct (capture_bounded (log_all 2 1) 0 (dropped <$> [1; 2; 3; 4; 5]) 5) as (es & c & E & _ & _ & Hl).
  - apply Forall_fmap, Forall_true. exact dropped_bytes.
  - vm_compute. discriminate.
  - lia.
  - apply Forall_fmap. repeat constructor; discriminate.
  - exact (ex_intro _ es (ex_intro _ c (conj E (Hl eq_refl)))).
Defined.

(** The limit is per second since the last reset: twice as many entries can be
    stored within a tenth of a second. *)
Example rate_limit_burst :
  (λ es, length es) <$> (capture_run (dropped <$> [900000000; 900000000; 1000000000; 1000000000])
    (NewLogCapture (log_all 1 2) 0)).1 = Ok 4%nat.
Proof. vm_compute. reflexivity. Qed.

(** A finding: the rule made of a [Rule] does not depend on its addresses, its
    destination zone, ICMP types, family and limit, which validation checks and
    the configuration file accepts.  So "accept SSH from 10.0.0.1" accepts SSH
    from everywhere. *)
Example rule_ignores_addresses r dest srcIP destIP icmp family limit log :
  GenerateCustomRule
    {| ru_Name := ru_Name r; ru_Src := ru_Src r; ru_Dest := dest; ru_Proto := ru_Proto r;
       ru_SrcIP := srcIP; ru_DestIP := destIP; ru_SrcPort := ru_SrcPort r;
       ru_DestPort := ru_DestPort r; ru_ICMPType := icmp; ru_Target := ru_Target r;
       ru_Family := family; ru_Limit := limit |} log = GenerateCustomRule r log.
Proof. reflexivity. Qed.
Definition ssh_rule : Rule :=
  {| ru_Name := "Allow-SSH"; ru_Src := "wan"; ru_Dest := ""; ru_Proto := "tcp";
     ru_SrcIP := "10.0.0.1"; ru_DestIP := ""; ru_SrcPort := ""; ru_DestPort := "22";
     ru_ICMPType := []; ru_Target := "ACCEPT"; ru_Family := "ipv4"; ru_Limit := "" |}.
Example ssh_rule_text :
  GenerateCustomRule ssh_rule (log_all 1 1) =
    "meta l4proto tcp th dport 22 log group 101 counter accept comment " +:+ quoted "Allow-SSH".
Proof. vm_compute. reflexivity. Qed.
