(* ===== verification/Firewall.v ===== *)
(** * Firewall: the firewall plugin (plugins/core/firewall: firewall.go, rpc_provider.go)

    Building the nftables table from a configuration, the digest file that lets
    an unchanged configuration be skipped, the status, and the part of the RPC
    provider that decides when rules are applied and packets are captured.  The
    [nft] program is a parameter; [NftLaws] is what it documents of the commands
    used, over one view of its state: the chains of the plugin's table with
    their rules in order.  The theorems: the table after a successful build,
    chain by chain; that applying again changes nothing; and what a failed build
    leaves, from which the plugin does not recover by itself. *)
From S2P Require Import Prelude GoStr GoNet Validation Types Json Value Struct Codec Path ConfigStore FirewallRules.

(** ** The parameters: the nft program, and SHA-256 of the JSON of a configuration *)

(** The output of a command, and the error of one that failed. *)
Class Nft := {
  nft : Type;
  nft_run : list string → nft → (string * option error) * nft;
}.
Class ConfigDigest := { sha256_json : FirewallConfig → string }.

Definition tableName : string := "jack".
Definition configHashPath : string := "/var/lib/jack/firewall-config.hash".

(** The rules of a chain; those of a chain that does not exist are empty. *)
Notation table := (gmap string (list string)).
Definition rules (t : table) (c : string) : list string := default [] (t !! c).

(** What nft documents: a chain that exists already may be added again; a rule
    is put at the end of a chain that exists; deleting the table fails only
    when there is none; a command that fails changes nothing. *)
Class NftLaws `{Nft} := {
  table_of : nft → option table;
  nl_add_table k out oe k' : nft_run ["add"; "table"; "inet"; tableName] k = ((out, oe), k') →
    match oe with
    | None => table_of k' = Some (default ∅ (table_of k))
    | Some _ => table_of k' = table_of k
    end;
  nl_add_chain c def k out oe k' :
    nft_run (["add"; "chain"; "inet"; tableName; c] ++ def) k = ((out, oe), k') →
    match oe with
    | None => ∃ t, table_of k = Some t ∧
        table_of k' = Some (match t !! c with Some _ => t | None => <[c := []]> t end)
    | Some _ => table_of k' = table_of k
    end;
  nl_add_rule c rule k out oe k' :
    nft_run ["add"; "rule"; "inet"; tableName; c; rule] k = ((out, oe), k') →
    match oe with
    | None => ∃ t rs, table_of k = Some t ∧ t !! c = Some rs ∧
        table_of k' = Some (<[c := rs ++ [rule]]> t)
    | Some _ => table_of k' = table_of k
    end;
  nl_delete_table k out oe k' :
    nft_run ["delete"; "table"; "inet"; tableName] k = ((out, oe), k') → table_of k' = None;
  nl_list_table k out oe k' :
    nft_run ["list"; "table"; "inet"; tableName] k = ((out, oe), k') →
    table_of k' = table_of k ∧ (oe = None ↔ table_of k ≠ None);
}.

Section firewall.
Context `{Nft} `{ConfigDigest} `{OS} `{RangeOrder}.

(** A [FirewallProvider] with the files and the nftables it works on. *)
Record FirewallProvider := {
  pv_loggingConfig : FirewallLoggingConfig; pv_nft : nft; pv_files : FS;
}.
Definition in_hash_file {A} (m : M FS A) : M FirewallProvider A := λ p,
  match m (pv_files p) with
  | (r, fs) => (r, {| pv_loggingConfig := pv_loggingConfig p; pv_nft := pv_nft p; pv_files := fs |})
  end.
Definition set_loggingConfig (c : FirewallLoggingConfig) : M FirewallProvider () := λ p,
  (Ok (), {| pv_loggingConfig := c; pv_nft := pv_nft p; pv_files := pv_files p |}).

(** ** nft commands *)

(** [exec.Command("nft", args...)] with its output; one whose error is ignored. *)
Definition nft_output (args : list string) : M FirewallProvider (string * option error) :=
  λ p, let '(r, k) := nft_run args (pv_nft p) in
  (Ok r, {| pv_loggingConfig := pv_loggingConfig p; pv_nft := k; pv_files := pv_files p |}).
Definition nft_ignore (args : list string) : M FirewallProvider () :=
  nft_output args ≫= λ _, mret ().
Definition runNft (args : list string) : M FirewallProvider () :=
  nft_output args ≫= λ '(output, err),
  match err with
  | Some e => fail (Wrapf ("nft command failed: " +:+ output +:+ ": ") e)
  | None => mret ()
  end.
Definition createTable : M FirewallProvider () :=
  nft_output ["add"; "table"; "inet"; tableName] ≫= λ '(_, err),
  match err with Some e => fail (Wrapf "failed to create table: " e) | None => mret () end.
Definition Flush : M FirewallProvider () := nft_ignore ["delete"; "table"; "inet"; tableName].
Definition tableExists : M FirewallProvider bool :=
  nft_output ["list"; "table"; "inet"; tableName] ≫= λ '(_, err),
  mret match err with None => true | Some _ => false end.

Definition is_base_chain (chainName : string) : bool :=
  bool_decide (chainName ∈ ["input"; "forward"; "output"]).
Definition ensureBaseChain (chainType chainName : string) : M FirewallProvider () :=
  let hookType := if is_base_chain chainName then chainName else "" in
  let priority := if is_base_chain chainName then "0" else "" in
  let priority := if bool_decide (chainType = "nat") then "100" else priority in
  nft_ignore (["add"; "chain"; "inet"; tableName; chainName] ++
    ["{ type " +:+ chainType +:+ " hook " +:+ hookType +:+ " priority " +:+ priority +:+ "; }"]).
Definition addRule (chainType chainName rule : string) : M FirewallProvider () :=
  (if is_base_chain chainName then ensureBaseChain chainType chainName else mret ()) ≫= λ _,
  runNft ["add"; "rule"; "inet"; tableName; chainName; rule].

(** ** Building the table *)

Definition addGlobalRules : M FirewallProvider () :=
  addRule "filter" "forward" "ct state established,related counter accept".

Definition input_chain (zoneName : string) : string := "input_" +:+ zoneName.
Definition forward_chain (zoneName : string) : string := "forward_" +:+ zoneName.
Definition output_chain (zoneName : string) : string := "output_" +:+ zoneName.
Definition jump_rule (iface chain : string) : string := "iifname " +:+ iface +:+ " jump " +:+ chain.
Definition createZoneChains (zoneName : string) (zone : Zone) : M FirewallProvider () :=
  runNft (["add"; "chain"; "inet"; tableName; input_chain zoneName] ++ []) ≫= λ _,
  runNft (["add"; "chain"; "inet"; tableName; forward_chain zoneName] ++ []) ≫= λ _,
  runNft (["add"; "chain"; "inet"; tableName; output_chain zoneName] ++ []) ≫= λ _,
  for_each (zn_Interfaces zone) (λ iface,
    addRule "filter" "input" (jump_rule iface (input_chain zoneName)) ≫= λ _,
    addRule "filter" "forward" (jump_rule iface (forward_chain zoneName))).

Definition policy_rule (policy : string) (log : FirewallLoggingConfig) : string :=
  if shouldLog policy log then "log group " +:+ itoa (getNFLOGGroup policy) +:+ " counter " +:+ policy
  else "counter " +:+ policy.
Definition applyDefaultPolicies (config : FirewallConfig) : M FirewallProvider () :=
  gets pv_loggingConfig ≫= λ log,
  for_each (range (gm (fc_Zones config))) (λ '(zoneName, zone),
    addRule "filter" (input_chain zoneName) (policy_rule (to_lower (zn_Input zone)) log) ≫= λ _,
    addRule "filter" (forward_chain zoneName) (policy_rule (to_lower (zn_Forward zone)) log)).

Definition forwarding_rule (srcIface comment : string) (log : FirewallLoggingConfig) : string :=
  if shouldLog "accept" log
  then "iifname " +:+ srcIface +:+ " log group " +:+ itoa (getNFLOGGroup "accept") +:+
       " counter accept comment " +:+ quoted comment
  else "iifname " +:+ srcIface +:+ " counter accept comment " +:+ quoted comment.
(** The interfaces of a zone; a missing map entry is the zero [Zone]. *)
Definition zone_interfaces (zones : gomap Zone) (name : string) : list string :=
  match gm zones !! name with Some z => zn_Interfaces z | None => [] end.
Definition applyForwarding (fwd : Forwarding) (zones : gomap Zone) : M FirewallProvider () :=
  gets pv_loggingConfig ≫= λ log,
  for_each (zone_interfaces zones (fw_Src fwd)) (λ srcIface,
    addRule "filter" (forward_chain (fw_Src fwd)) (forwarding_rule srcIface (fw_Comment fwd) log)).

Definition masquerade_rule (iface : string) : string := "oifname " +:+ iface +:+ " masquerade".
Definition applyMasquerade (zone : Zone) : M FirewallProvider () :=
  attempt (runNft (["add"; "chain"; "inet"; tableName; "postrouting"] ++
    ["{"; "type"; "nat"; "hook"; "postrouting"; "priority"; "100"; ";"; "}"])) ≫= λ _,
  for_each (zn_Interfaces zone) (λ iface, addRule "nat" "postrouting" (masquerade_rule iface)).

Definition applyPortForward (portFwd : PortForward) : M FirewallProvider () :=
  attempt (runNft (["add"; "chain"; "inet"; tableName; "prerouting"] ++
    ["{"; "type"; "nat"; "hook"; "prerouting"; "priority"; "-100"; ";"; "}"])) ≫= λ _,
  addRule "nat" "prerouting" (GeneratePortForwardDNATRule portFwd) ≫= λ _,
  gets pv_loggingConfig ≫= λ log,
  addRule "filter" "forward" (GeneratePortForwardFilterRule portFwd log).

Definition applyRule (rule : Rule) : M FirewallProvider () :=
  gets pv_loggingConfig ≫= λ log,
  addRule "filter" (input_chain (ru_Src rule)) (GenerateCustomRule rule log).

(** ** The digest of the last applied configuration *)

Definition calculateConfigHash (config : FirewallConfig) : string := sha256_json config.
(** A file that is not text, such as one whose writing failed, holds no digest. *)
Definition readConfigHash : M FirewallProvider string :=
  in_hash_file (os_ReadFile configHashPath) ≫= λ data,
  mret match data with CText s => trim_space s | _ => "" end.
Definition saveConfigHash (hash : string) : M FirewallProvider () :=
  wrapM "failed to create directory: " (in_hash_file (os_MkdirAll "/var/lib/jack")) ≫= λ _,
  wrapM "failed to write hash: " (in_hash_file (os_WriteFile configHashPath (CText hash))).

(** ** ApplyConfig *)

(** Whether the stored digest is that of the new configuration. *)
Definition same_hash (lastHash : res string) (newHash : string) : bool :=
  match lastHash with Ok h => bool_decide (h = newHash) | _ => false end.
Definition build_table (config : FirewallConfig) : M FirewallProvider () :=
  createTable ≫= λ _,
  wrapM "failed to add global rules: " addGlobalRules ≫= λ _,
  for_each (range (gm (fc_Zones config))) (λ '(zoneName, zone),
    wrapM ("failed to create zone " +:+ zoneName +:+ ": ") (createZoneChains zoneName zone)) ≫= λ _,
  for_each (fc_Rules config) (λ rule,
    wrapM ("failed to apply rule " +:+ ru_Name rule +:+ ": ") (applyRule rule)) ≫= λ _,
  for_each (fc_Forwardings config) (λ fwd,
    wrapM "failed to apply forwarding: " (applyForwarding fwd (fc_Zones config))) ≫= λ _,
  for_each (range (gm (fc_Zones config))) (λ '(zoneName, zone),
    if zn_Masquerade zone
    then wrapM ("failed to apply masquerade for " +:+ zoneName +:+ ": ") (applyMasquerade zone)
    else mret ()) ≫= λ _,
  for_each (fc_PortForwards config) (λ portFwd,
    if pf_Enabled portFwd
    then wrapM ("failed to apply port forward " +:+ pf_Name portFwd +:+ ": ") (applyPortForward portFwd)
    else mret ()) ≫= λ _,
  wrapM "failed to apply default policies: " (applyDefaultPolicies config).

Definition ApplyConfig (config : FirewallConfig) : M FirewallProvider () :=
  set_loggingConfig (fc_Logging config) ≫= λ _,
  let newHash := calculateConfigHash config in
  attempt readConfigHash ≫= λ lastHash,
  (if same_hash lastHash newHash then tableExists else mret false) ≫= λ unchanged,
  if unchanged : bool then mret ()
  else
    Flush ≫= λ _,
    build_table config ≫= λ _,
    attempt (saveConfigHash newHash) ≫= λ _,
    mret ().

Definition Disable : M FirewallProvider () := Flush.

(** ** Status *)

Definition starts_blank (line : string) : bool := has_prefix line (bytes [9%N]) || has_prefix line " ".
Definition is_rule_line (line : string) : bool :=
  let trimmed := trim_space line in
  starts_blank line && negb (str_contains trimmed "chain ") && negb (str_contains trimmed "table ")
  && negb (bool_decide (trimmed = "{")) && negb (bool_decide (trimmed = "}"))
  && negb (bool_decide (trimmed = "")).
Record Status := { st_Enabled : bool; st_Backend : string; st_RuleCount : nat }.
Definition count_rules (output : string) : nat :=
  length (List.filter is_rule_line (split newline output)).
Definition get_status : M FirewallProvider Status :=
  nft_output ["list"; "table"; "inet"; tableName] ≫= λ '(output, err),
  mret match err with
       | Some _ => {| st_Enabled := false; st_Backend := "nftables"; st_RuleCount := 0 |}
       | None => {| st_Enabled := true; st_Backend := "nftables"; st_RuleCount := count_rules output |}
       end.
(** ** rpc_provider.go: rules and packet capture

    [InitNotStarted]: [initOnce] has not run; [InitPending]: it started the
    goroutine that sets up the database and starts the capture. *)
Inductive init_state := InitNotStarted | InitPending | InitDone.
(** [fp_db]: the database handler, and whether its schema is there. *)
Record FirewallRPCProvider := {
  fp_provider : FirewallProvider; fp_config : option FirewallConfig; fp_db : option bool;
  fp_capture : option LogCapture; fp_captureStarted : bool; fp_init : init_state;
}.
Definition with_captureStarted (b : bool) (p : FirewallRPCProvider) : FirewallRPCProvider :=
  {| fp_provider := fp_provider p; fp_config := fp_config p; fp_db := fp_db p;
     fp_capture := fp_capture p; fp_captureStarted := b; fp_init := fp_init p |}.
Definition stop_capture (p : FirewallRPCProvider) : FirewallRPCProvider :=
  match fp_capture p with
  | Some _ => if fp_captureStarted p then with_captureStarted false p else p
  | None => p
  end.
(** [database_ready]: there is a daemon service and its database is ready. *)
Definition start_logging (database_ready : bool) (now : Z) (config : FirewallConfig)
    (p : FirewallRPCProvider) : FirewallRPCProvider :=
  if database_ready then
    {| fp_provider := fp_provider p; fp_config := fp_config p;
       fp_db := match fp_db p with Some d => Some d | None => Some false end;
       fp_capture := match fp_capture p with
                     | Some c => Some c
                     | None => Some (NewLogCapture (fc_Logging config) now)
                     end;
       fp_captureStarted := fp_captureStarted p;
       fp_init := match fp_init p with InitNotStarted => InitPending | i => i end |}
  else p.
(** The decoding of the configuration is done by the caller. *)
Definition rpc_ApplyConfig (database_ready : bool) (now : Z) (firewallConfig : FirewallConfig)
    : M FirewallRPCProvider () := λ p,
  let p := {| fp_provider := fp_provider p; fp_config := Some firewallConfig; fp_db := fp_db p;
              fp_capture := fp_capture p; fp_captureStarted := fp_captureStarted p;
              fp_init := fp_init p |} in
  if negb (fc_Enabled firewallConfig) then (Ok (), p)
  else
    let '(r, v) := ApplyConfig firewallConfig (fp_provider p) in
    let p := {| fp_provider := v; fp_config := fp_config p; fp_db := fp_db p;
                fp_capture := fp_capture p; fp_captureStarted := fp_captureStarted p;
                fp_init := fp_init p |} in
    match r with
    | Ok _ =>
        if fl_Enabled (fc_Logging firewallConfig)
        then (Ok (), start_logging database_ready now firewallConfig p)
        else (Ok (), stop_capture p)
    | _ => (r, p)
    end.
(** The goroutine: whether the schema could be set up and the sockets opened. *)
Definition run_init (schema_ok start_ok : bool) (p : FirewallRPCProvider) : FirewallRPCProvider :=
  match fp_init p with
  | InitPending =>
      {| fp_provider := fp_provider p; fp_config := fp_config p;
         fp_db := if schema_ok then (λ _, true) <$> fp_db p else fp_db p;
         fp_capture := fp_capture p;
         fp_captureStarted := (schema_ok && start_ok) || fp_captureStarted p;
         fp_init := InitDone |}
  | _ => p
  end.
Definition rpc_Flush : M FirewallRPCProvider () := λ p,
  let p := stop_capture p in
  let '(r, v) := Flush (fp_provider p) in
  (r, {| fp_provider := v; fp_config := fp_config p; fp_db := fp_db p; fp_capture := fp_capture p;
         fp_captureStarted := fp_captureStarted p; fp_init := fp_init p |}).
(** [databaseReady]: there is a daemon service, and it says so. *)
Definition rpc_Status (databaseReady : bool) : M FirewallRPCProvider json := λ p,
  let '(r, v) := get_status (fp_provider p) in
  let loggingEnabled :=
    match fp_config p with Some c => fl_Enabled (fc_Logging c) | None => false end in
  let warnings :=
    if loggingEnabled && negb databaseReady
    then VArr [VStr "Logging configured but database service unavailable (sqlite3 plugin may be disabled)"]
    else VNil in
  ((λ status, Marshal (VMap
      {["enabled" := VBool (st_Enabled status); "backend" := VStr (st_Backend status);
        "rule_count" := VInt (Z.of_nat (st_RuleCount status));
        "logging_enabled" := VBool loggingEnabled;
        "logging_active" := VBool (fp_captureStarted p);
        "database_ready" := VBool databaseReady;
        "schema_init" := VBool (default false (fp_db p));
        "warnings" := warnings]})) <$> r,
   {| fp_provider := v; fp_config := fp_config p; fp_db := fp_db p; fp_capture := fp_capture p;
      fp_captureStarted := fp_captureStarted p; fp_init := fp_init p |}).
Definition rpc_OnLogEvent (logEventJSON : json) : M FirewallRPCProvider () :=
  fail (ErrorText "plugin does not implement log event handling").
Definition rpc_CallService (serviceName method : string) (argsJSON : json)
    : M FirewallRPCProvider json := fail (ErrorText "plugin does not provide any services").
(** What can happen to the provider. *)
Inductive rpc_step : FirewallRPCProvider → FirewallRPCProvider → Prop :=
| rpc_apply ready now c r p p' : rpc_ApplyConfig ready now c p = (r, p') → rpc_step p p'
| rpc_flush r p p' : rpc_Flush p = (r, p') → rpc_step p p'
| rpc_init schema_ok start_ok p : rpc_step p (run_init schema_ok start_ok p).
End firewall.

(** ** Lemmas: what a step adds to the table *)

Section fills.
Context `{NftLaws} `{ConfigDigest} `{OS} `{RangeOrder}.

(** A computation that, when it succeeds, appends the rules [added] to the
    chains and creates no chains but those of [created]. *)
Definition fills {A} (log : FirewallLoggingConfig) (m : M FirewallProvider A)
    (added : string → list string) (created : string → Prop) : Prop := ∀ p t a p',
  pv_loggingConfig p = log → table_of (pv_nft p) = Some t → m p = (Ok a, p') →
  pv_loggingConfig p' = log ∧ ∃ t', table_of (pv_nft p') = Some t' ∧
    (∀ c, rules t' c = rules t c ++ added c) ∧
    (∀ c, is_Some (t' !! c) → is_Some (t !! c) ∨ created c).

Lemma fills_weaken {A} log (m : M FirewallProvider A) added added' (created created' : string → Prop) :
  fills log m added created → (∀ c, added c = added' c) → (∀ c, created c → created' c) →
  fills log m added' created'.
Proof.
  intros Hm Ha Hc p t a p' Hl Ht E. destruct (Hm p t a p' Hl Ht E) as (Hl' & t' & Ht' & Hr & Hd).
  split; [done|]. exists t'. split; [done|]. split.
  - intros c. by rewrite Hr, Ha.
  - intros c Hc'. destruct (Hd c Hc'); auto.
Qed.
Lemma fills_ret {A} log (x : A) created : fills log (mret x) (λ _, []) created.
Proof.
  intros p t a p' Hl Ht [= <- <-]. split; [done|]. exists t. split; [done|]. split; [|by left].
  intros c. by rewrite app_nil_r.
Qed.
Lemma fills_bind {A B} log (m : M FirewallProvider A) (k : A → M FirewallProvider B) added1 added2 created :
  fills log m added1 created → (∀ x, fills log (k x) added2 created) →
  fills log (m ≫= k) (λ c, added1 c ++ added2 c) created.
Proof.
  intros Hm Hk p t a p' Hl Ht E. unfold mbind, M_bind in E.
  destruct (m p) as [[x|e|w] p1] eqn:E1; try done.
  destruct (Hm p t x p1 Hl Ht E1) as (Hl1 & t1 & Ht1 & Hr1 & Hd1).
  destruct (Hk x p1 t1 a p' Hl1 Ht1 E) as (Hl2 & t2 & Ht2 & Hr2 & Hd2).
  split; [done|]. exists t2. split; [done|]. split.
  - intros c. by rewrite Hr2, Hr1, app_assoc.
  - intros c Hc. destruct (Hd2 c Hc) as [Hc1|]; [|by right]. auto.
Qed.
Lemma fills_log {A} log (k : FirewallLoggingConfig → M FirewallProvider A) added created :
  fills log (k log) added created → fills log (gets pv_loggingConfig ≫= k) added created.
Proof. intros Hk p t a p' Hl Ht E. unfold gets, mbind, M_bind in E. rewrite Hl in E. by eapply Hk. Qed.
Lemma fills_wrapM {A} log s (m : M FirewallProvider A) added created :
  fills log m added created → fills log (wrapM s m) added created.
Proof.
  intros Hm p t a p' Hl Ht E. unfold wrapM in E. destruct (m p) as [[x|e|w] p1] eqn:E1; try done.
  injection E as <- <-. by eapply Hm.
Qed.
Lemma fills_for_each {X} log (l : list X) (body : X → M FirewallProvider ()) added created :
  (∀ x, x ∈ l → fills log (body x) (added x) created) →
  fills log (for_each l body) (λ c, l ≫= λ x, added x c) created.
Proof.
  induction l as [|x l IH]; intros Hb; [apply fills_ret|].
  apply (fills_weaken _ _ (λ c, added x c ++ (l ≫= λ x, added x c)) _ created); [|done|done].
  cbn [for_each]. apply fills_bind; [apply Hb; by left|]. intros _. apply IH. intros y Hy. apply Hb. by right.
Qed.
(** A command that succeeds. *)
Lemma runNft_inv args p a p' : runNft args p = (Ok a, p') →
  ∃ out k, nft_run args (pv_nft p) = ((out, None), k) ∧
    p' = {| pv_loggingConfig := pv_loggingConfig p; pv_nft := k; pv_files := pv_files p |}.
Proof.
  unfold runNft, nft_output, mbind, M_bind.
  destruct (nft_run args (pv_nft p)) as [[out [e|]] k]; cbn; try done.
  intros [= _ <-]. eauto.
Qed.
Lemma runNft_err args p e p' : runNft args p = (Err e, p') →
  ∃ out e k, nft_run args (pv_nft p) = ((out, Some e), k) ∧
    p' = {| pv_loggingConfig := pv_loggingConfig p; pv_nft := k; pv_files := pv_files p |}.
Proof.
  unfold runNft, nft_output, mbind, M_bind.
  destruct (nft_run args (pv_nft p)) as [[out [e'|]] k]; cbn; try done.
  intros [= _ <-]. eauto.
Qed.
Lemma fills_addChain log c def :
  fills log (runNft (["add"; "chain"; "inet"; tableName; c] ++ def)) (λ _, []) (.= c).
Proof.
  intros p t a p' Hl Ht (out & k & E & ->)%runNft_inv. split; [done|]. cbn.
  apply nl_add_chain in E as (t0 & Ht0 & ->). rewrite Ht in Ht0. injection Ht0 as <-.
  eexists. split; [done|]. split.
  - intros c'. rewrite app_nil_r. unfold rules. destruct (t !! c) as [rs|] eqn:Hc; cbn; [done|].
    destruct (decide (c' = c)) as [->|]; [by rewrite lookup_insert_eq, Hc|].
    by rewrite lookup_insert_ne.
  - intros c' Hc'. destruct (t !! c) as [rs|] eqn:Hc; [by left|].
    destruct (decide (c' = c)) as [->|]; [by right|]. rewrite lookup_insert_ne in Hc' by done. by left.
Qed.
(** One whose error is ignored. *)
Lemma fills_attempt_addChain log c def :
  fills log (attempt (runNft (["add"; "chain"; "inet"; tableName; c] ++ def))) (λ _, []) (.= c).
Proof.
  intros p t a p' Hl Ht E. unfold attempt in E.
  destruct (runNft _ p) as [[x|e|w] p1] eqn:E1; try done; injection E as _ <-.
  - by eapply fills_addChain.
  - apply runNft_err in E1 as (out & e' & k & E2 & ->). apply nl_add_chain in E2. cbn. rewrite E2.
    split; [done|]. exists t. split; [done|]. split; [|by left]. intros c'. by rewrite app_nil_r.
Qed.

(** Rules for one chain. *)
Definition at_chain (c : string) (rs : list string) (c' : string) : list string :=
  if decide (c' = c) then rs else [].
Lemma at_chain_eq c rs : at_chain c rs c = rs.
Proof. unfold at_chain. by rewrite decide_True. Qed.
Lemma at_chain_ne c c' rs : c' ≠ c → at_chain c rs c' = [].
Proof. intros Hc. unfold at_chain. by rewrite decide_False. Qed.

Lemma fills_rule log c rule created :
  fills log (runNft ["add"; "rule"; "inet"; tableName; c; rule]) (at_chain c [rule]) created.
Proof.
  intros p t a p' Hl Ht (out & k & E & ->)%runNft_inv. split; [done|]. cbn.
  apply nl_add_rule in E as (t0 & rs & Ht0 & Hrs & ->). rewrite Ht in Ht0. injection Ht0 as <-.
  eexists. split; [done|]. split.
  - intros c'. unfold rules, at_chain. destruct (decide (c' = c)) as [->|].
    + by rewrite lookup_insert_eq, Hrs.
    + by rewrite lookup_insert_ne, app_nil_r.
  - intros c' Hc'. left. destruct (decide (c' = c)) as [->|Hne]; [rewrite Hrs; eauto|].
    by rewrite lookup_insert_ne in Hc'.
Qed.
Lemma fills_ignore_addChain log c def :
  fills log (nft_ignore (["add"; "chain"; "inet"; tableName; c] ++ def)) (λ _, []) (.= c).
Proof.
  intros p t a p' Hl Ht E.
  assert (∃ r, attempt (runNft (["add"; "chain"; "inet"; tableName; c] ++ def)) p = (Ok r, p')) as [r Er].
  { revert E. unfold nft_ignore, attempt, runNft, nft_output, mbind, M_bind.
    destruct (nft_run _ (pv_nft p)) as [[out [e|]] k]; cbn; intros [= _ <-]; eauto. }
  by apply (fills_attempt_addChain log c def p t r).
Qed.
(** The chain the rule is put in is a base chain, created if need be, or has to
    exist. *)
Lemma fills_addRule log ty c rule :
  fills log (addRule ty c rule) (at_chain c [rule]) (λ c', c' = c ∧ is_base_chain c = true).
Proof.
  unfold addRule. apply (fills_weaken _ _ (λ c', [] ++ at_chain c [rule] c') _
    (λ c', c' = c ∧ is_base_chain c = true)); [|done|done].
  apply fills_bind; [|intros; apply fills_rule].
  destruct (is_base_chain c); [|apply fills_ret].
  eapply fills_weaken; [apply fills_ignore_addChain|done|]. intros c' ->. done.
Qed.
Lemma addRule_exists ty c rule p t a p' :
  is_base_chain c = false → table_of (pv_nft p) = Some t → addRule ty c rule p = (Ok a, p') →
  is_Some (t !! c).
Proof.
  unfold addRule. intros -> Ht (out & k & E & ->)%runNft_inv.
  apply nl_add_rule in E as (t0 & rs & Ht0 & Hrs & _). rewrite Ht in Ht0. injection Ht0 as <-. eauto.
Qed.

(** ** Lemmas: what the parts of a build add *)

Context (config : FirewallConfig).
Notation log := (fc_Logging config).
Notation zones := (range (gm (fc_Zones config))).

Definition zone_adds (n : string) (z : Zone) (c : string) : list string :=
  zn_Interfaces z ≫= λ i,
    at_chain "input" [jump_rule i (input_chain n)] c ++ at_chain "forward" [jump_rule i (forward_chain n)] c.
Definition rule_adds (r : Rule) : string → list string :=
  at_chain (input_chain (ru_Src r)) [GenerateCustomRule r log].
Definition forwarding_adds (f : Forwarding) (c : string) : list string :=
  zone_interfaces (fc_Zones config) (fw_Src f) ≫= λ i,
    at_chain (forward_chain (fw_Src f)) [forwarding_rule i (fw_Comment f) log] c.
Definition masquerade_adds (z : Zone) (c : string) : list string :=
  if zn_Masquerade z
  then zn_Interfaces z ≫= λ i, at_chain "postrouting" [masquerade_rule i] c else [].
Definition port_forward_adds (pf : PortForward) (c : string) : list string :=
  if pf_Enabled pf
  then at_chain "prerouting" [GeneratePortForwardDNATRule pf] c ++
       at_chain "forward" [GeneratePortForwardFilterRule pf log] c
  else [].
Definition policy_adds (n : string) (z : Zone) (c : string) : list string :=
  at_chain (input_chain n) [policy_rule (to_lower (zn_Input z)) log] c ++
  at_chain (forward_chain n) [policy_rule (to_lower (zn_Forward z)) log] c.

(** The chains of a build. *)
Definition zone_chain (c : string) : Prop :=
  ∃ n, is_Some (gm (fc_Zones config) !! n) ∧ c ∈ [input_chain n; forward_chain n; output_chain n].
Definition known_chain (c : string) : Prop :=
  c ∈ ["input"; "forward"; "postrouting"; "prerouting"] ∨ zone_chain c.

Lemma base_known ty c rule : c = "input" ∨ c = "forward" →
  fills log (addRule ty c rule) (at_chain c [rule]) known_chain.
Proof.
  intros Hc. eapply fills_weaken; [apply fills_addRule|done|]. intros c' [-> _]. left. set_solver.
Qed.
Lemma other_known ty c rule : is_base_chain c = false →
  fills log (addRule ty c rule) (at_chain c [rule]) known_chain.
Proof.
  intros Hc. eapply fills_weaken; [apply fills_addRule|done|]. intros c' [-> Hc']. congruence.
Qed.
Lemma zone_chain_not_base n :
  is_base_chain (input_chain n) = false ∧ is_base_chain (forward_chain n) = false.
Proof.
  unfold is_base_chain. split; apply bool_decide_eq_false_2; intros Hn;
    repeat (apply elem_of_cons in Hn as [Hn|Hn]; [discriminate Hn|]); by apply not_elem_of_nil in Hn.
Qed.

(** A loop over the zones. *)
Lemma fills_pairs (added : string → Zone → string → list string)
    (body : string * Zone → M FirewallProvider ()) created :
  (∀ n z, (n, z) ∈ zones → fills log (body (n, z)) (added n z) created) →
  fills log (for_each zones body) (λ c, zones ≫= λ '(n, z), added n z c) created.
Proof.
  intros Hb. eapply fills_weaken; [apply (fills_for_each _ _ _ (λ p, added p.1 p.2))| |done].
  - intros [n z] Hin. by apply Hb.
  - intros c. by apply list_bind_ext; [intros []|].
Qed.
Lemma fills_zone n z : (n, z) ∈ zones →
  fills log (createZoneChains n z) (zone_adds n z) known_chain.
Proof.
  intros Hin. assert (∀ c, c ∈ [input_chain n; forward_chain n; output_chain n] →
    fills log (runNft (["add"; "chain"; "inet"; tableName; c] ++ [])) (λ _, []) known_chain) as Hadd.
  { intros c Hc. eapply fills_weaken; [apply fills_addChain|done|]. intros c' ->. right. exists n.
    apply range_elem in Hin. by rewrite Hin. }
  unfold createZoneChains.
  apply (fills_bind _ _ _ (λ _, [])); [apply Hadd; set_solver|]. intros _.
  apply (fills_bind _ _ _ (λ _, [])); [apply Hadd; set_solver|]. intros _.
  apply (fills_bind _ _ _ (λ _, [])); [apply Hadd; set_solver|]. intros _.
  apply (fills_for_each _ _ _ (λ i c, at_chain "input" [jump_rule i (input_chain n)] c ++
    at_chain "forward" [jump_rule i (forward_chain n)] c)). intros i _.
  apply fills_bind; [apply base_known; by left|]. intros _. apply base_known. by right.
Qed.
Lemma fills_applyRule r : fills log (applyRule r) (rule_adds r) known_chain.
Proof. apply fills_log, other_known, zone_chain_not_base. Qed.
Lemma fills_applyForwarding f :
  fills log (applyForwarding f (fc_Zones config)) (forwarding_adds f) known_chain.
Proof.
  apply fills_log, (fills_for_each _ _ _ (λ i, at_chain (forward_chain (fw_Src f))
    [forwarding_rule i (fw_Comment f) log])). intros i _. apply other_known, zone_chain_not_base.
Qed.
(** The chains of address translation. *)
Lemma nat_chain c : c ∈ ["postrouting"; "prerouting"] → is_base_chain c = false ∧ known_chain c.
Proof.
  intros Hc. split; [|left; set_solver].
  apply elem_of_cons in Hc as [->| ->%list_elem_of_singleton]; reflexivity.
Qed.
Lemma fills_nat_chain c def : c ∈ ["postrouting"; "prerouting"] →
  fills log (attempt (runNft (["add"; "chain"; "inet"; tableName; c] ++ def))) (λ _, []) known_chain.
Proof.
  intros Hc. eapply fills_weaken; [apply fills_attempt_addChain|done|]. intros c' ->. by apply nat_chain.
Qed.
Lemma fills_applyMasquerade s z :
  fills log (if zn_Masquerade z then wrapM s (applyMasquerade z) else mret ()) (masquerade_adds z)
    known_chain.
Proof.
  unfold masquerade_adds. destruct (zn_Masquerade z); [|apply fills_ret].
  apply fills_wrapM, (fills_bind _ _ _ (λ _, [])); [apply fills_nat_chain; set_solver|]. intros _.
  apply (fills_for_each _ _ _ (λ i, at_chain "postrouting" [masquerade_rule i])). intros i _.
  apply other_known, nat_chain. set_solver.
Qed.
Lemma fills_applyPortForward s pf :
  fills log (if pf_Enabled pf then wrapM s (applyPortForward pf) else mret ()) (port_forward_adds pf)
    known_chain.
Proof.
  unfold port_forward_adds. destruct (pf_Enabled pf); [|apply fills_ret].
  apply fills_wrapM, (fills_bind _ _ _ (λ _, [])); [apply fills_nat_chain; set_solver|]. intros _.
  apply fills_bind; [apply other_known, nat_chain; set_solver|]. intros _.
  apply fills_log, base_known. by right.
Qed.
Lemma fills_applyDefaultPolicies :
  fills log (applyDefaultPolicies config) (λ c, zones ≫= λ '(n, z), policy_adds n z c) known_chain.
Proof.
  apply fills_log, fills_pairs. intros n z _.
  apply fills_bind; [apply other_known, zone_chain_not_base|]. intros _.
  apply other_known, zone_chain_not_base.
Qed.

(** What a whole build adds. *)
Definition build_adds (c : string) : list string :=
  at_chain "forward" ["ct state established,related counter accept"] c ++
  (zones ≫= λ '(n, z), zone_adds n z c) ++
  (fc_Rules config ≫= λ r, rule_adds r c) ++
  (fc_Forwardings config ≫= λ f, forwarding_adds f c) ++
  (zones ≫= λ '(_, z), masquerade_adds z c) ++
  (fc_PortForwards config ≫= λ pf, port_forward_adds pf c) ++
  (zones ≫= λ '(n, z), policy_adds n z c).
Lemma build_inv p a p' :
  pv_loggingConfig p = log → table_of (pv_nft p) = None → build_table config p = (Ok a, p') →
  ∃ t, table_of (pv_nft p') = Some t ∧ ∀ c, rules t c = build_adds c.
Proof.
  intros Hl Ht E. unfold build_table in E. unfold mbind at 1, M_bind at 1 in E.
  assert (∀ p1, createTable p = (Ok (), p1) →
    table_of (pv_nft p1) = Some ∅ ∧ pv_loggingConfig p1 = log) as Hcreate.
  { intros p1. unfold createTable, nft_output, mbind, M_bind.
    destruct (nft_run _ (pv_nft p)) as [[out [e|]] k] eqn:E1; cbn; [done|]. intros [= <-]. cbn.
    apply nl_add_table in E1. by rewrite E1, Ht. }
  destruct (createTable p) as [[[]|e|w] p1] eqn:E1; [|done..].
  destruct (Hcreate p1 eq_refl) as [Ht1 Hl1].
  match type of E with ?m p1 = _ => assert (fills log m build_adds known_chain) as Hf end.
  { unfold build_adds.
    apply fills_bind; [apply fills_wrapM, base_known; by right|]. intros _.
    apply fills_bind. 2: intros _; apply fills_bind; [apply fills_for_each; intros; apply fills_wrapM, fills_applyRule|].
    2: intros _; apply fills_bind; [apply fills_for_each; intros; apply fills_wrapM, fills_applyForwarding|].
    2: intros _; apply fills_bind.
    3: intros _; apply fills_bind; [apply fills_for_each; intros; apply fills_applyPortForward|].
    3: intros _; apply fills_wrapM, fills_applyDefaultPolicies.
    - apply (fills_pairs (λ n z, zone_adds n z)). intros n z Hin. by apply fills_wrapM, fills_zone.
    - apply (fills_pairs (λ _ z, masquerade_adds z)). intros n z _. apply fills_applyMasquerade. }
  destruct (Hf p1 ∅ a p' Hl1 Ht1 E) as (_ & t & Ht' & Hr & _). exists t. split; [done|]. exact Hr.
Qed.

(** ** Lemmas: the build, chain by chain *)

Lemma input_chain_inj n m : input_chain n = input_chain m → n = m.
Proof. intros E. injection E as E. exact E. Qed.
Lemma forward_chain_inj n m : forward_chain n = forward_chain m → n = m.
Proof. intros E. injection E as E. exact E. Qed.
(** A loop that adds nothing to a chain; one where a single zone does. *)
Lemma bind_nothing {A} (l : list A) (f : A → list string) : (∀ x, x ∈ l → f x = []) → l ≫= f = [].
Proof.
  induction l as [|x l IH]; intros Hf; [done|]. cbn. rewrite Hf by by left.
  apply IH. intros y Hy. apply Hf. by right.
Qed.
Lemma bind_zone (f : string → Zone → list string) n z :
  (n, z) ∈ zones → (∀ n' z', n' ≠ n → f n' z' = []) → zones ≫= (λ '(n, z), f n z) = f n z.
Proof.
  intros Hin Hf. pose proof (range_NoDup (gm (fc_Zones config))) as Hnd.
  revert Hin Hnd. generalize zones. intros l. induction l as [|[n' z'] l IH];
    [by intros ?%not_elem_of_nil|]. cbn. rewrite NoDup_cons.
  intros [[= <- <-]|Hin]%elem_of_cons [Hni Hnd].
  - rewrite bind_nothing; [by rewrite app_nil_r|]. intros [n1 z1] Hin1. apply Hf. intros ->.
    apply Hni, list_elem_of_fmap. by exists (n, z1).
  - rewrite Hf; [by apply IH|]. intros ->. apply Hni, list_elem_of_fmap. by exists (n, z).
Qed.
Lemma bind_one {A} (l : list A) (f : A → string) : l ≫= (λ x, [f x]) = f <$> l.
Proof. induction l as [|x l IH]; [done|]. cbn. by rewrite IH. Qed.
Lemma bind_if {A} (l : list A) (P : A → Prop) `{∀ x, Decision (P x)} (f : A → string) :
  l ≫= (λ x, if decide (P x) then [f x] else []) = f <$> filter P l.
Proof.
  induction l as [|x l IH]; [done|]. cbn. rewrite IH. unfold filter at 2. cbn.
  destruct (decide (P x)); done.
Qed.

(** The table a configuration stands for. *)
Record table_ok (t : table) : Prop := {
  to_zone_input n z : gm (fc_Zones config) !! n = Some z →
    rules t (input_chain n) =
      ((λ r, GenerateCustomRule r log) <$> filter (λ r, ru_Src r = n) (fc_Rules config)) ++
      [policy_rule (to_lower (zn_Input z)) log];
  to_zone_forward n z : gm (fc_Zones config) !! n = Some z →
    rules t (forward_chain n) =
      (filter (λ f, fw_Src f = n) (fc_Forwardings config) ≫= λ f,
         (λ i, forwarding_rule i (fw_Comment f) log) <$> zn_Interfaces z) ++
      [policy_rule (to_lower (zn_Forward z)) log];
  to_input : rules t "input" =
    zones ≫= λ '(n, z), (λ i, jump_rule i (input_chain n)) <$> zn_Interfaces z;
  to_forward : rules t "forward" =
    ["ct state established,related counter accept"] ++
    (zones ≫= λ '(n, z), (λ i, jump_rule i (forward_chain n)) <$> zn_Interfaces z) ++
    ((λ pf, GeneratePortForwardFilterRule pf log) <$>
       filter (λ pf, pf_Enabled pf = true) (fc_PortForwards config));
  to_postrouting : rules t "postrouting" =
    zones ≫= λ '(_, z), if zn_Masquerade z then masquerade_rule <$> zn_Interfaces z else [];
  to_prerouting : rules t "prerouting" =
    GeneratePortForwardDNATRule <$> filter (λ pf, pf_Enabled pf = true) (fc_PortForwards config);
}.

Lemma zone_adds_elsewhere n z c : c ≠ "input" → c ≠ "forward" → zone_adds n z c = [].
Proof. intros. apply bind_nothing. intros i _. by rewrite !at_chain_ne. Qed.
Lemma forwarding_adds_elsewhere f c : c ≠ forward_chain (fw_Src f) → forwarding_adds f c = [].
Proof. intros. apply bind_nothing. intros i _. by rewrite !at_chain_ne. Qed.
Lemma masquerade_adds_elsewhere z c : c ≠ "postrouting" → masquerade_adds z c = [].
Proof.
  intros. unfold masquerade_adds. destruct (zn_Masquerade z); [|done].
  apply bind_nothing. intros i _. by rewrite !at_chain_ne.
Qed.
Lemma port_forward_adds_elsewhere pf c : c ≠ "prerouting" → c ≠ "forward" → port_forward_adds pf c = [].
Proof. intros. unfold port_forward_adds. destruct (pf_Enabled pf); [|done]. by rewrite !at_chain_ne. Qed.
Lemma policy_adds_elsewhere n z c : c ≠ input_chain n → c ≠ forward_chain n → policy_adds n z c = [].
Proof. intros. unfold policy_adds. by rewrite !at_chain_ne. Qed.
(** A part of the build that does not concern the chain. *)
Ltac elsewhere :=
  apply bind_nothing; intros;
  repeat match goal with p : (_ * _)%type |- _ => destruct p end;
  first
    [ apply zone_adds_elsewhere; discriminate
    | apply forwarding_adds_elsewhere; discriminate
    | apply masquerade_adds_elsewhere; discriminate
    | apply port_forward_adds_elsewhere; discriminate
    | apply policy_adds_elsewhere; discriminate
    | apply at_chain_ne; discriminate ].

Ltac drop_parts :=
  repeat match goal with
    | |- context [?l ≫= ?f] => replace (l ≫= f) with (@nil string) by (symmetry; elsewhere)
    end; cbn [app].

Lemma build_zone_input n z : gm (fc_Zones config) !! n = Some z →
  build_adds (input_chain n) =
    ((λ r, GenerateCustomRule r log) <$> filter (λ r, ru_Src r = n) (fc_Rules config)) ++
    [policy_rule (to_lower (zn_Input z)) log].
Proof.
  intros Hz%range_elem. unfold build_adds. rewrite at_chain_ne by discriminate. drop_parts. f_equal.
  - rewrite <-bind_if. apply list_bind_ext; [|done]. intros r. unfold rule_adds, at_chain.
    destruct (decide (ru_Src r = n)) as [<-|Hn]; [by rewrite decide_True|].
    rewrite decide_False; [done|]. by intros ?%input_chain_inj.
  - rewrite (bind_zone (λ n0 z0, policy_adds n0 z0 (input_chain n)) n z); [|done|].
    + unfold policy_adds. rewrite at_chain_eq, at_chain_ne by discriminate. done.
    + intros n' z' Hn. apply policy_adds_elsewhere; [|discriminate]. by intros ?%input_chain_inj.
Qed.
Lemma build_zone_forward n z : gm (fc_Zones config) !! n = Some z →
  build_adds (forward_chain n) =
    (filter (λ f, fw_Src f = n) (fc_Forwardings config) ≫= λ f,
       (λ i, forwarding_rule i (fw_Comment f) log) <$> zn_Interfaces z) ++
    [policy_rule (to_lower (zn_Forward z)) log].
Proof.
  intros Hz. unfold build_adds. rewrite at_chain_ne by discriminate. drop_parts. f_equal.
  - induction (fc_Forwardings config) as [|f l IH]; [done|]. cbn. rewrite IH. unfold filter at 2. cbn.
    destruct (decide (fw_Src f = n)) as [<-|Hn]; cbn.
    + f_equal. unfold forwarding_adds, zone_interfaces. rewrite Hz, <-bind_one.
      apply list_bind_ext; [|done]. intros i. apply at_chain_eq.
    + rewrite forwarding_adds_elsewhere; [done|]. by intros ?%forward_chain_inj.
  - apply range_elem in Hz.
    rewrite (bind_zone (λ n0 z0, policy_adds n0 z0 (forward_chain n)) n z); [|done|].
    + unfold policy_adds. rewrite at_chain_ne, at_chain_eq by discriminate. done.
    + intros n' z' Hn. apply policy_adds_elsewhere; [discriminate|]. by intros ?%forward_chain_inj.
Qed.
(** The jumps of the zones from a base chain. *)
Lemma zone_adds_base n z :
  zone_adds n z "input" = (λ i, jump_rule i (input_chain n)) <$> zn_Interfaces z ∧
  zone_adds n z "forward" = (λ i, jump_rule i (forward_chain n)) <$> zn_Interfaces z.
Proof.
  unfold zone_adds. rewrite <-!bind_one. split; apply list_bind_ext; try done; intros i.
Qed.
Lemma build_base :
  build_adds "input" = (zones ≫= λ '(n, z), (λ i, jump_rule i (input_chain n)) <$> zn_Interfaces z) ∧
  build_adds "forward" = ["ct state established,related counter accept"] ++
    (zones ≫= λ '(n, z), (λ i, jump_rule i (forward_chain n)) <$> zn_Interfaces z) ++
    ((λ pf, GeneratePortForwardFilterRule pf log) <$>
       filter (λ pf, pf_Enabled pf = true) (fc_PortForwards config)).
Proof.
  split; unfold build_adds.
  - rewrite at_chain_ne by discriminate. drop_parts.
    replace (fc_PortForwards config ≫= λ pf, port_forward_adds pf "input") with (@nil string) by
      (symmetry; elsewhere).
    rewrite app_nil_r. apply list_bind_ext; [|done]. intros [n z]. apply zone_adds_base.
  - rewrite at_chain_eq. f_equal.
    replace (zones ≫= λ '(n, z), zone_adds n z "forward") with
      (zones ≫= λ '(n, z), (λ i, jump_rule i (forward_chain n)) <$> zn_Interfaces z); [f_equal|].
    2: { apply list_bind_ext; [|done]. intros [n z]. symmetry. apply zone_adds_base. }
    + drop_parts. rewrite app_nil_r, <-bind_if. apply list_bind_ext; [|done]. intros pf.
      unfold port_forward_adds. rewrite at_chain_eq, at_chain_ne by discriminate.
      by destruct (pf_Enabled pf).
Qed.
Lemma build_nat :
  build_adds "postrouting" =
    (zones ≫= λ '(_, z), if zn_Masquerade z then masquerade_rule <$> zn_Interfaces z else []) ∧
  build_adds "prerouting" =
    GeneratePortForwardDNATRule <$> filter (λ pf, pf_Enabled pf = true) (fc_PortForwards config).
Proof.
  split; unfold build_adds; rewrite at_chain_ne by discriminate; drop_parts; rewrite app_nil_r.
  - apply list_bind_ext; [|done]. intros [n z]. unfold masquerade_adds.
    destruct (zn_Masquerade z); [|done]. rewrite <-bind_one. apply list_bind_ext; [|done].
    intros i. apply at_chain_eq.
  - rewrite <-bind_if. apply list_bind_ext; [|done]. intros pf. unfold port_forward_adds.
    rewrite at_chain_eq, at_chain_ne by discriminate. by destruct (pf_Enabled pf).
Qed.
Lemma build_table_ok t : (∀ c, rules t c = build_adds c) → table_ok t.
Proof.
  intros Hr. destruct build_base, build_nat. split; intros; rewrite Hr; auto using
    build_zone_input, build_zone_forward.
Qed.

(** ** Lemmas: every command returns, and the files are left alone *)

Context (I : FirewallProvider → Prop).
Context (I_nft : ∀ p k, I p →
  I {| pv_loggingConfig := pv_loggingConfig p; pv_nft := k; pv_files := pv_files p |}).
Lemma pres_nft_output args : preserves I (nft_output args).
Proof. intros p Hp. unfold wp, nft_output. destruct (nft_run args (pv_nft p)). by apply I_nft. Qed.
Lemma pres_runNft args : preserves I (runNft args).
Proof.
  apply pres_bind; [apply pres_nft_output|]. intros [out [e|]]; [apply pres_fail|apply pres_ret].
Qed.
Lemma pres_addRule ty c rule : preserves I (addRule ty c rule).
Proof.
  apply pres_bind; [|intros; apply pres_runNft]. destruct (is_base_chain c); [|apply pres_ret].
  apply pres_bind; [apply pres_nft_output|]. intros. apply pres_ret.
Qed.
Ltac solve_build := repeat first
  [ apply pres_addRule | apply pres_runNft | apply pres_ret | apply pres_gets | apply pres_wrapM
  | apply pres_attempt | apply pres_bind; [|intros ?] | apply pres_for_each; intros ? _
  | match goal with |- preserves _ (match ?x with _ => _ end) => destruct x end
  | progress unfold createZoneChains, applyRule, applyForwarding, applyMasquerade, applyPortForward ].
Lemma pres_createZoneChains n z : preserves I (createZoneChains n z).
Proof. solve_build. Qed.
Lemma pres_applyRule r : preserves I (applyRule r).
Proof. solve_build. Qed.
Lemma pres_build : preserves I (build_table config).
Proof.
  unfold build_table. apply pres_bind.
  { apply pres_bind; [apply pres_nft_output|]. intros [out [e|]]; [apply pres_fail|apply pres_ret]. }
  intros _. unfold addGlobalRules, applyDefaultPolicies. solve_build.
Qed.
Lemma pres_Flush : preserves I Flush.
Proof. apply pres_bind; [apply pres_nft_output|]. intros. apply pres_ret. Qed.
Lemma pres_tableExists : preserves I tableExists.
Proof. apply pres_bind; [apply pres_nft_output|]. intros [out [e|]]; apply pres_ret. Qed.
End fills.

Section apply_config.
Context `{NftLaws} `{ConfigDigest} `{OS} `{RangeOrder}.

Definition set_log (c : FirewallLoggingConfig) (p : FirewallProvider) : FirewallProvider :=
  {| pv_loggingConfig := c; pv_nft := pv_nft p; pv_files := pv_files p |}.
(** Reading the digest changes no nftables state. *)
Lemma readConfigHash_state p : ∃ r fs,
  readConfigHash p = (r, {| pv_loggingConfig := pv_loggingConfig p; pv_nft := pv_nft p; pv_files := fs |})
  ∧ no_panic r ∧ fs_files fs = fs_files (pv_files p).
Proof.
  unfold readConfigHash, in_hash_file, os_ReadFile, syscall, gets, mbind, M_bind. cbn.
  destruct (os_error _) as [[e b]|]; [|destruct (fs_files (pv_files p) !! configHashPath)];
    eexists _, _; cbn; done.
Qed.
Lemma saveConfigHash_state hash p : ∃ r fs,
  saveConfigHash hash p = (r, {| pv_loggingConfig := pv_loggingConfig p; pv_nft := pv_nft p; pv_files := fs |})
  ∧ no_panic r.
Proof.
  unfold saveConfigHash, in_hash_file, os_MkdirAll, os_WriteFile, syscall, gets, modify, fail,
    wrapM, mbind, M_bind. cbn.
  repeat (destruct (os_error _) as [[? []]|]; cbn); eexists _, _; (split; [reflexivity|done]).
Qed.
Lemma tableExists_state p : ∃ b k,
  tableExists p = (Ok b, {| pv_loggingConfig := pv_loggingConfig p; pv_nft := k; pv_files := pv_files p |})
  ∧ table_of k = table_of (pv_nft p) ∧ (b = true ↔ table_of (pv_nft p) ≠ None).
Proof.
  unfold tableExists, nft_output, mbind, M_bind.
  destruct (nft_run _ (pv_nft p)) as [[out oe] k] eqn:E. apply nl_list_table in E as [Hk Hoe].
  eexists _, k. split; [done|]. split; [done|]. rewrite <-Hoe. by destruct oe.
Qed.
Lemma Flush_state p : ∃ k,
  Flush p = (Ok (), {| pv_loggingConfig := pv_loggingConfig p; pv_nft := k; pv_files := pv_files p |})
  ∧ table_of k = None.
Proof.
  unfold Flush, nft_ignore, nft_output, mbind, M_bind.
  destruct (nft_run _ (pv_nft p)) as [[out oe] k] eqn:E. apply nl_delete_table in E.
  by exists k.
Qed.

(** An apply either finds the digest and a table, or builds the table anew. *)
Lemma ApplyConfig_cases config p :
  let '(hash, p1) := readConfigHash (set_log (fc_Logging config) p) in
  (same_hash hash (sha256_json config) = true ∧ table_of (pv_nft p) ≠ None ∧
   ∃ k, ApplyConfig config p = (Ok (), {| pv_loggingConfig := fc_Logging config; pv_nft := k;
                                           pv_files := pv_files p1 |}) ∧
     table_of k = table_of (pv_nft p)) ∨
  ((same_hash hash (sha256_json config) = false ∨ table_of (pv_nft p) = None) ∧
   ∃ k r p2, table_of k = None ∧
     build_table config {| pv_loggingConfig := fc_Logging config; pv_nft := k; pv_files := pv_files p1 |}
       = (r, p2) ∧ no_panic r ∧
     match r with
     | Ok _ => ∃ fs, ApplyConfig config p = (Ok (), {| pv_loggingConfig := pv_loggingConfig p2;
                                               pv_nft := pv_nft p2; pv_files := fs |})
     | _ => ApplyConfig config p = (r, p2)
     end).
Proof.
  destruct (readConfigHash_state (set_log (fc_Logging config) p)) as (hash & fs & E & Hnp & _).
  rewrite E. cbn [pv_files pv_loggingConfig pv_nft set_log].
  assert (∀ k, table_of k = table_of (pv_nft p) →
    let q := {| pv_loggingConfig := fc_Logging config; pv_nft := k; pv_files := fs |} in
    ∃ k r p2, table_of k = None ∧
      build_table config {| pv_loggingConfig := fc_Logging config; pv_nft := k; pv_files := fs |} = (r, p2) ∧
      no_panic r ∧
      let out := (Flush ≫= λ _, build_table config ≫= λ _,
        attempt (saveConfigHash (calculateConfigHash config)) ≫= λ _, mret ()) q in
      match r with
      | Ok _ => ∃ fs, out = (Ok (), {| pv_loggingConfig := pv_loggingConfig p2;
                                       pv_nft := pv_nft p2; pv_files := fs |})
      | _ => out = (r, p2)
      end) as Hrebuild.
  { intros k Hk q. destruct (Flush_state q) as (k1 & E1 & Ht1). exists k1. cbn [pv_files pv_loggingConfig q] in E1.
    pose proof (pres_build config (λ _, True) (λ _ _ _, I)
      {| pv_loggingConfig := fc_Logging config; pv_nft := k1; pv_files := fs |} I) as Hp.
    unfold wp in Hp. destruct (build_table config _) as [r p2] eqn:E2. exists r, p2.
    split; [done|]. split; [done|]. split; [by destruct r|]. cbv zeta.
    rewrite (bind_eq _ _ _ _ _ E1). destruct r as [[]|e|w]; [|unfold mbind, M_bind; by rewrite E2..].
    rewrite (bind_eq _ _ _ _ _ E2).
    destruct (saveConfigHash_state (calculateConfigHash config) p2) as (r3 & fs3 & E3 & Hn3).
    rewrite (bind_eq _ _ _ _ _ (attempt_eq _ _ _ _ E3 Hn3)). by exists fs3. }
  unfold ApplyConfig. rewrite (bind_eq _ _ p () (set_log (fc_Logging config) p)) by done. cbv zeta.
  rewrite (bind_eq _ _ _ _ _ (attempt_eq _ _ _ _ E Hnp)). unfold calculateConfigHash.
  destruct (same_hash hash (sha256_json config)) eqn:Hh.
  - destruct (tableExists_state {| pv_loggingConfig := fc_Logging config; pv_nft := pv_nft p; pv_files := fs |})
      as (b & k & E1 & Ht & Hb). rewrite (bind_eq _ _ _ _ _ E1). cbn [pv_nft pv_files pv_loggingConfig] in *.
    destruct b.
    + left. split; [done|]. split; [by apply Hb|]. by exists k.
    + right. split; [|by apply Hrebuild]. right. destruct (table_of (pv_nft p)); [|done].
      destruct Hb as [_ Hb]. by specialize (Hb ltac:(done)).
  - right. split; [by left|]. by apply Hrebuild.
Qed.

Lemma ApplyConfig_success config p p' :
  ApplyConfig config p = (Ok (), p') →
  (table_of (pv_nft p') = table_of (pv_nft p) ∧ table_of (pv_nft p) ≠ None ∧
   fs_files (pv_files p) !! configHashPath ≠ None) ∨
  ∃ t, table_of (pv_nft p') = Some t ∧ table_ok config t.
Proof.
  intros E. pose proof (ApplyConfig_cases config p) as Hc.
  destruct (readConfigHash_state (set_log (fc_Logging config) p)) as (hash & fs & Eh & _ & Hf).
  rewrite Eh in Hc. destruct Hc as [(Hh & Ht & k & E' & Hk)|(_ & k & r & p2 & Hk & Eb & _ & Hr)].
  - left. rewrite E in E'. injection E' as ->. split; [done|]. split; [done|].
    intros Hn. destruct hash as [h|e|w]; [|done..].
    unfold readConfigHash, in_hash_file, os_ReadFile, syscall, gets, mbind, M_bind in Eh. cbn in Eh.
    rewrite Hn in Eh. by destruct (os_error _) as [[? ?]|].
  - right. destruct r as [[]|e|w]; [|rewrite E in Hr; discriminate Hr..].
    destruct Hr as [fs' Hr]. rewrite E in Hr. injection Hr as ->. cbn.
    apply build_inv in Eb as (t & Ht & Hrules); [|done|done].
    exists t. split; [done|]. by apply build_table_ok.
Qed.
(** A state whose chains are those of the build. *)
Definition building (config : FirewallConfig) (p : FirewallProvider) : Prop :=
  pv_loggingConfig p = fc_Logging config ∧
  ∃ t, table_of (pv_nft p) = Some t ∧ ∀ c, is_Some (t !! c) → known_chain config c.
Lemma wp_fills {A} config (m : M FirewallProvider A) added p (Q : A → FirewallProvider → Prop) :
  fills (fc_Logging config) m added (known_chain config) → preserves (λ _, True) m →
  building config p → (∀ a p', building config p' → Q a p') → wp m p Q (λ _, True).
Proof.
  intros Hf Hp (Hl & t & Ht & Hk) HQ. specialize (Hp p I). unfold wp in *.
  destruct (m p) as [[a|e|w] p'] eqn:E; [|done..]. apply HQ.
  destruct (Hf p t a p' Hl Ht E) as (Hl' & t' & Ht' & _ & Hd). split; [done|].
  exists t'. split; [done|]. intros c Hc. destruct (Hd c Hc); auto.
Qed.
(** A loop with a body that cannot succeed. *)
Lemma wp_for_each_fails {A} (J : FirewallProvider → Prop) (l : list A) body x :
  x ∈ l → (∀ y p, J p → wp (body y) p (λ _, J) (λ _, True)) →
  (∀ p, J p → wp (body x) p (λ _ _, False) (λ _, True)) →
  ∀ p, J p → wp (for_each l body) p (λ _ _, False) (λ _, True).
Proof.
  intros Hin Hb Hx. induction l as [|y l IH]; [by apply not_elem_of_nil in Hin|]. intros p Hp.
  cbn [for_each]. apply wp_bind. apply elem_of_cons in Hin as [->|Hin].
  - eapply wp_mono; [by apply Hx|done|done].
  - eapply wp_mono; [by apply Hb| |done]. cbv beta. intros _ p' Hp'. by apply IH.
Qed.
Lemma rule_without_chain config r p :
  gm (fc_Zones config) !! ru_Src r = None → building config p →
  wp (applyRule r) p (λ _ _, False) (λ _, True).
Proof.
  intros Hz (Hl & t & Ht & Hk). unfold wp.
  pose proof (pres_addRule (λ _, True) (λ _ _ _, I) "filter" (input_chain (ru_Src r))
    (GenerateCustomRule r (pv_loggingConfig p)) p I) as Hp. unfold wp in Hp.
  unfold applyRule, gets, mbind, M_bind.
  destruct (addRule _ _ _ p) as [[a|e|w] p'] eqn:E; [|done..].
  apply (addRule_exists _ _ _ _ t) in E; [|apply zone_chain_not_base|done].
  destruct (Hk _ E) as [Hin|(n & [z Hn] & Hin)].
  - repeat (apply elem_of_cons in Hin as [Hin|Hin]; [discriminate Hin|]). by apply not_elem_of_nil in Hin.
  - apply elem_of_cons in Hin as [Hin%input_chain_inj|Hin]; [congruence|].
    repeat (apply elem_of_cons in Hin as [Hin|Hin]; [discriminate Hin|]). by apply not_elem_of_nil in Hin.
Qed.
Lemma build_rule_fails config r k fs :
  r ∈ fc_Rules config → gm (fc_Zones config) !! ru_Src r = None → table_of k = None →
  wp (build_table config) {| pv_loggingConfig := fc_Logging config; pv_nft := k; pv_files := fs |}
    (λ _ _, False) (λ _, True).
Proof.
  intros Hin Hz Hk.
  unfold build_table. apply wp_bind. unfold wp at 1, createTable, nft_output, mbind, M_bind. cbn.
  destruct (nft_run _ k) as [[out [e|]] k1] eqn:E; cbn; [done|]. apply nl_add_table in E. rewrite Hk in E.
  apply wp_bind. eapply wp_fills; [apply fills_wrapM, base_known; by right|
    apply pres_wrapM, pres_addRule; done| |].
  { split; [done|]. exists ∅. split; [done|]. intros c [? Hc]. by rewrite lookup_empty in Hc. }
  intros _ p1 Hp1. apply wp_bind. eapply wp_fills; [|..|exact Hp1|].
  { apply (fills_pairs config (λ n z, zone_adds n z)). intros n z Hnz. by apply fills_wrapM, fills_zone. }
  { apply pres_for_each. intros [n z] _. by apply pres_wrapM, pres_createZoneChains. }
  intros _ p2 Hp2. apply wp_bind.
  eapply (wp_mono _ _ (λ _ _, False) _ (λ _, True)); [|by intros ? ? []|done].
  apply (wp_for_each_fails (building config) _ _ r Hin); [| |exact Hp2].
  - intros r' p3 Hp3. eapply wp_fills; [apply fills_wrapM, fills_applyRule| |exact Hp3|done].
    by apply pres_wrapM, pres_applyRule.
  - intros p3 Hp3. apply wp_wrapM. by apply (rule_without_chain config).
Qed.
End apply_config.

(** ** Properties *)


(** Applying a configuration whose table is in place again keeps it in
    place, whether the build is skipped or repeated. *)
Theorem ApplyConfig_again `{NftLaws} `{ConfigDigest} `{OS} `{RangeOrder} config p p' t :
  table_of (pv_nft p) = Some t → table_ok config t → ApplyConfig config p = (Ok (), p') →
  ∃ t', table_of (pv_nft p') = Some t' ∧ table_ok config t'.
Proof.
  intros Ht Hok [(Hk & _)|Ht']%ApplyConfig_success; [|done]. exists t. by rewrite Hk.
Qed.

(** A rule without a source zone, which validation accepts, or one of a zone
    that does not exist, is never applied: unless the build is skipped, applying
    a configuration with one fails. *)
Theorem rule_without_zone_fails `{NftLaws} `{ConfigDigest} `{OS} `{RangeOrder} config r p :
  r ∈ fc_Rules config → gm (fc_Zones config) !! ru_Src r = None →
  fs_files (pv_files p) !! configHashPath = None →
  ∃ e p', ApplyConfig config p = (Err e, p').
Proof.
  intros Hin Hz Hf. pose proof (ApplyConfig_cases config p) as Hc.
  destruct (readConfigHash_state (set_log (fc_Logging config) p)) as (hash & fs & Eh & _ & _).
  rewrite Eh in Hc. destruct Hc as [(Hh & _ & _)|(_ & k & res & p2 & Hk & Eb & Hn & Hr)].
  - destruct hash as [h|e|w]; [|done..].
    unfold readConfigHash, in_hash_file, os_ReadFile, syscall, gets, mbind, M_bind in Eh. cbn in Eh.
    rewrite Hf in Eh. by destruct (os_error _) as [[? ?]|].
  - pose proof (build_rule_fails config r k fs Hin Hz Hk) as Hw. unfold wp in Hw.
    cbn [pv_files] in Eb. rewrite Eb in Hw. destruct res as [[]|e|w]; [done|eauto|done].
Qed.

(** After a build that failed half way, applying the configuration whose
    digest is still stored, which is what the daemon's rollback does, reports
    success and leaves the half-built table in place. *)
Theorem failed_build_is_kept `{NftLaws} `{ConfigDigest} `{OS} `{RangeOrder} c1 c2 p e p2 t :
  (∀ n, os_error n = None) → trim_space (sha256_json c1) = sha256_json c1 →
  sha256_json c1 ≠ sha256_json c2 →
  fs_files (pv_files p) !! configHashPath = Some (CText (sha256_json c1)) →
  ApplyConfig c2 p = (Err e, p2) → table_of (pv_nft p2) = Some t →
  ∃ p3, ApplyConfig c1 p2 = (Ok (), p3) ∧ table_of (pv_nft p3) = Some t.
Proof.
  intros Hos Htrim Hne Hf E Ht.
  assert (∀ q, fs_files (pv_files q) !! configHashPath = Some (CText (sha256_json c1)) →
    (readConfigHash q).1 = Ok (sha256_json c1)) as Hread.
  { intros q Hq. unfold readConfigHash, in_hash_file, os_ReadFile, syscall, gets, mbind, M_bind. cbn.
    rewrite Hos, Hq. cbn. by rewrite Htrim. }
  assert (fs_files (pv_files p2) !! configHashPath = Some (CText (sha256_json c1))) as Hf2.
  { pose proof (ApplyConfig_cases c2 p) as Hc.
    destruct (readConfigHash_state (set_log (fc_Logging c2) p)) as (hash & fs & Eh & _ & Hfs).
    rewrite Eh in Hc. destruct Hc as [(_ & _ & k & E' & _)|(_ & k & r & q & _ & Eb & _ & Hr)];
      [by rewrite E in E'|].
    destruct r as [[]|e'|w]; [by destruct Hr as [? Hr]; rewrite E in Hr| |by rewrite E in Hr].
    rewrite E in Hr. injection Hr as _ <-.
    assert (pv_files p2 = fs) as ->; [|by rewrite Hfs].
    refine (pres_run (λ q, pv_files q = fs) (build_table c2) _ (Err e') p2 _ _ Eb); [|reflexivity].
    apply pres_build. by intros. }
  pose proof (ApplyConfig_cases c1 p2) as Hc.
  pose proof (Hread (set_log (fc_Logging c1) p2) Hf2) as Hh.
  destruct (readConfigHash _) as [hash p1]. cbn in Hh. subst hash.
  destruct Hc as [(_ & _ & k & E' & Hk)|([Hs|Hs] & _)].
  - eexists. split; [exact E'|]. cbn. by rewrite Hk.
  - cbn in Hs. by apply bool_decide_eq_false in Hs.
  - congruence.
Qed.

(** Set up once, and stopped. *)
Definition capture_stopped `{Nft} (p : FirewallRPCProvider) : Prop :=
  fp_init p = InitDone ∧ fp_captureStarted p = false.
Lemma start_logging_stopped `{Nft} ready now c p :
  capture_stopped p → capture_stopped (start_logging ready now c p).
Proof. intros [Hi Hc]. unfold start_logging. destruct ready; [|done]. split; cbn; [by rewrite Hi|done]. Qed.
Lemma stop_capture_stopped `{Nft} p : capture_stopped p → capture_stopped (stop_capture p).
Proof. intros [Hi Hc]. unfold stop_capture. rewrite Hc. by destruct (fp_capture p). Qed.
Lemma rpc_step_stopped `{Nft} `{ConfigDigest} `{OS} `{RangeOrder} p p' :
  rpc_step p p' → capture_stopped p → capture_stopped p'.
Proof.
  intros [ready now c r q q' E|r q q' E|schema_ok start_ok q] Hs.
  - unfold rpc_ApplyConfig in E. destruct (negb (fc_Enabled c)); [by injection E as _ <-|].
    destruct (ApplyConfig c _) as [[[]|e|w] v]; [|by injection E as _ <-..].
    destruct (fl_Enabled (fc_Logging c)); injection E as _ <-;
      [by apply start_logging_stopped|by apply stop_capture_stopped].
  - unfold rpc_Flush in E. apply stop_capture_stopped in Hs.
    destruct (Flush _) as [r' v]. by injection E as _ <-.
  - unfold run_init. destruct Hs as [Hi Hc]. by rewrite Hi.
Qed.

(** Once the set-up of packet capture has run and the capture is stopped,
    nothing that can happen to the plugin starts it again, whatever
    configurations are applied. *)
Theorem capture_not_restarted `{Nft} `{ConfigDigest} `{OS} `{RangeOrder} p p' :
  fp_init p = InitDone → fp_captureStarted p = false → rtc rpc_step p p' →
  fp_captureStarted p' = false.
Proof.
  intros Hi Hc Hr. assert (capture_stopped p) as Hs by done. clear Hi Hc.
  induction Hr as [p|p p1 p2 Hstep _ IH]; [apply Hs|]. apply IH. by eapply rpc_step_stopped.
Qed.

(** A flush, or a configuration without logging, that comes before the set-up
    has ended does not stop the capture: the goroutine starts it afterwards. *)
Theorem flush_before_capture `{Nft} p r p' :
  fp_init p = InitPending → rpc_Flush p = (r, p') →
  fp_captureStarted (run_init true true p') = true.
Proof.
  intros Hi E. unfold rpc_Flush in E. destruct (Flush _) as [r' v]. injection E as _ <-.
  unfold run_init. cbn. unfold stop_capture, with_captureStarted.
  destruct (fp_capture p), (fp_captureStarted p); cbn; by rewrite Hi.
Qed.

(** ** An nft program in memory; [rejects] are the rules it refuses *)

Definition nft_error : error := StdError "exec" "exit status 1".
Definition memory_run (rejects : string → bool) (args : list string) (t : option table)
    : (string * option error) * option table :=
  match args with
  | [a; b; _; _] =>
      if bool_decide (a = "delete")
      then match t with Some _ => (("", None), None) | None => (("", Some nft_error), None) end
      else if bool_decide (a = "list") then
        match t with Some _ => (("", None), t) | None => (("", Some nft_error), t) end
      else (("", None), Some (default ∅ t))
  | _ :: b :: _ :: _ :: c :: rest =>
      match t with
      | None => (("", Some nft_error), t)
      | Some t =>
          if bool_decide (b = "chain") then
            (("", None), Some match t !! c with Some _ => t | None => <[c := []]> t end)
          else
            let rule := default "" (head rest) in
            match t !! c with
            | Some rs => if rejects rule then (("", Some nft_error), Some t)
                         else (("", None), Some (<[c := rs ++ [rule]]> t))
            | None => (("", Some nft_error), Some t)
            end
      end
  | _ => (("", Some nft_error), t)
  end.
Definition memory_nft (rejects : string → bool) : Nft :=
  {| nft := option table; nft_run := memory_run rejects |}.
Lemma memory_nft_laws rejects : @NftLaws (memory_nft rejects).
Proof.
  refine (@Build_NftLaws (memory_nft rejects) id _ _ _ _ _); cbn.
  - intros t out oe t'. destruct t; by intros [= _ <- <-].
  - intros c def [t|] out oe t'; intros [= _ <- <-]; [|done]. eauto.
  - intros c rule [t|] out oe t'; [|by intros [= _ <- <-]]. cbn.
    destruct (t !! c) as [rs|] eqn:Hc; [|by intros [= _ <- <-]].
    destruct (rejects rule); intros [= _ <- <-]; [done|]. eauto.
  - intros [t|] out oe t'; by intros [= _ _ <-].
  - intros [t|] out oe t'; intros [= _ <- <-]; done.
Defined.
(** Refuses texts with more than two quotes. *)
Definition unbalanced (rule : string) : bool := (3 <? Z.of_nat (length (split (byte_of 34) rule)) - 1).
Definition version_digest : ConfigDigest := {| sha256_json := fc_Version |}.

Definition lan_zone : Zone :=
  {| zn_Name := "lan"; zn_Interfaces := ["br-lan"]; zn_Input := "ACCEPT"; zn_Forward := "ACCEPT";
     zn_Output := "ACCEPT"; zn_Masquerade := false; zn_MTUFix := false; zn_Family := ""; zn_Comment := "" |}.
Definition wan_zone : Zone :=
  {| zn_Name := "wan"; zn_Interfaces := ["eth0"]; zn_Input := "DROP"; zn_Forward := "DROP";
     zn_Output := "ACCEPT"; zn_Masquerade := true; zn_MTUFix := false; zn_Family := ""; zn_Comment := "" |}.
Definition router (version : string) (rules : list Rule) (forwards : list PortForward) : FirewallConfig :=
  {| fc_Version := version; fc_Enabled := true;
     fc_Defaults := {| fd_Input := ""; fd_Forward := ""; fd_Output := ""; fd_SynFlood := false;
                       fd_DropInvalid := false |};
     fc_Zones := Some {["lan" := lan_zone; "wan" := wan_zone]};
     fc_Forwardings := [{| fw_Src := "lan"; fw_Dest := "wan"; fw_Family := ""; fw_Comment := "" |}];
     fc_Rules := rules; fc_PortForwards := forwards; fc_Logging := log_all 1 0 |}.
Definition good_router : FirewallConfig := router "1" [ssh_rule] [].
(** A port forward whose comment has quotes, which validation accepts. *)
Definition web_forward : PortForward :=
  {| pf_Name := "web"; pf_Src := "wan"; pf_Dest := "lan"; pf_Proto := "tcp"; pf_SrcDPort := "80";
     pf_DestIP := "192.168.1.10"; pf_DestPort := ""; pf_Target := "DNAT"; pf_Enabled := true;
     pf_Comment := "the " +:+ quoted "web" +:+ " server" |}.
Definition bad_router : FirewallConfig := router "2" [ssh_rule] [web_forward].

Notation plugin := (@FirewallProvider (memory_nft unbalanced)).
Definition installed (t : option table) (files : gmap string content) : plugin :=
  @Build_FirewallProvider (memory_nft unbalanced) (log_all 0 0) t {| fs_files := files; fs_tick := 0 |}.
Notation apply_config := (@ApplyConfig (memory_nft unbalanced) version_digest reliable_os default_order).
Notation table_in p := (@table_of (memory_nft unbalanced) (memory_nft_laws unbalanced) (pv_nft p)).
Definition router_is_up : res () * plugin := apply_config good_router (installed None ∅).
Definition after_bad : res () * plugin := apply_config bad_router router_is_up.2.
Definition after_rollback : res () * plugin := apply_config good_router after_bad.2.
Definition rules_of (p : plugin) (c : string) : list string := rules (default ∅ (pv_nft p)) c.

Example router_chains :
  rules_of router_is_up.2 "input_wan" =
    ["meta l4proto tcp th dport 22 log group 101 counter accept comment " +:+ quoted "Allow-SSH";
     "log group 100 counter drop"] ∧
  rules_of router_is_up.2 "postrouting" = ["oifname eth0 masquerade"].
Proof. vm_compute. done. Qed.
(** A finding: a refused rule makes apply fail; the rollback to the former
    configuration then reports success, but no zone has a policy any more. *)
Example rollback_keeps_broken_table :
  bool_decide (FirewallConfig_Validate (H:=default_order) (Some bad_router) = None) = true ∧
  match after_bad.1 with Err _ => true | _ => false end = true ∧
  after_rollback.1 = Ok () ∧
  rules_of after_rollback.2 "input_wan" =
    ["meta l4proto tcp th dport 22 log group 101 counter accept comment " +:+ quoted "Allow-SSH"] ∧
  rules_of after_rollback.2 "forward_wan" = [].
Proof. vm_compute. done. Qed.
(** A finding: forwarding from a zone to another one allows it to all. *)
Example forwarding_ignores_dest `{Nft} src dest dest' family comment zones :
  applyForwarding {| fw_Src := src; fw_Dest := dest; fw_Family := family; fw_Comment := comment |} zones =
  applyForwarding {| fw_Src := src; fw_Dest := dest'; fw_Family := family; fw_Comment := comment |} zones.
Proof. reflexivity. Qed.
(** A finding: disabling the firewall leaves its rules in place. *)
Example disabled_keeps_table `{Nft} `{ConfigDigest} `{OS} `{RangeOrder} ready now c p :
  fc_Enabled c = false → fp_provider (rpc_ApplyConfig ready now c p).2 = fp_provider p.
Proof. intros Hc. unfold rpc_ApplyConfig. by rewrite Hc. Qed.
(** A finding: the line of a base chain's hook is counted as a rule. *)
Example status_counts_hooks :
  let tab := bytes [9%N] in
  count_rules (join (String newline "") ["table inet jack {"; tab +:+ "chain input {";
    tab +:+ tab +:+ "type filter hook input priority filter; policy accept;"; tab +:+ "}"; "}"]) = 1%nat.
Proof. vm_compute. reflexivity. Qed.

(** ** The properties at concrete inputs *)

Lemma up_ok : ∃ t, table_in router_is_up.2 = Some t ∧ @table_ok default_order good_router t.
Proof.
  assert (apply_config good_router (installed None ∅) = (Ok (), router_is_up.2)) as E.
  { refine (run_eq (apply_config good_router (installed None ∅)) (Ok ()) _). vm_compute. reflexivity. }
  destruct (@ApplyConfig_success (memory_nft unbalanced) (memory_nft_laws unbalanced) version_digest
    reliable_os default_order good_router (installed None ∅) _ E) as [(_ & Hn & _)|Hok]; [|exact Hok].
  by destruct Hn.
Qed.
Lemma ApplyConfig_again_witness :
  ∃ p' t', apply_config good_router router_is_up.2 = (Ok (), p') ∧ table_in p' = Some t' ∧
    @table_ok default_order good_router t'.
Proof.
  destruct up_ok as (t & Ht & Hok). set (p' := (apply_config good_router router_is_up.2).2).
  assert (apply_config good_router router_is_up.2 = (Ok (), p')) as E.
  { refine (run_eq (apply_config good_router router_is_up.2) (Ok ()) _). vm_compute. reflexivity. }
  destruct (@ApplyConfig_again (memory_nft unbalanced) (memory_nft_laws unbalanced) version_digest
    reliable_os default_order good_router router_is_up.2 p' t Ht Hok E) as (t' & Ht' & Hok').
  exact (ex_intro _ p' (ex_intro _ t' (conj E (conj Ht' Hok')))).
Defined.
(** [ssh_rule] without its zone. *)
Definition local_rule : Rule :=
  {| ru_Name := "local"; ru_Src := ""; ru_Dest := ""; ru_Proto := ""; ru_SrcIP := ""; ru_DestIP := "";
     ru_SrcPort := ""; ru_DestPort := ""; ru_ICMPType := []; ru_Target := "ACCEPT"; ru_Family := "";
     ru_Limit := "" |}.
Lemma rule_without_zone_fails_witness :
  bool_decide (FirewallConfig_Validate (H:=default_order) (Some (router "3" [local_rule] [])) = None) = true ∧
  ∃ e p', apply_config (router "3" [local_rule] []) (installed None ∅) = (Err e, p').
Proof.
  split; [vm_compute; reflexivity|].
  apply (@rule_without_zone_fails (memory_nft unbalanced) (memory_nft_laws unbalanced) version_digest
    reliable_os default_order (router "3" [local_rule] []) local_rule).
  - by left.
  - reflexivity.
  - reflexivity.
Defined.
Definition bad_error : error := match after_bad.1 with Err e => e | _ => nft_error end.
Lemma bad_table : table_in after_bad.2 = Some (default ∅ (table_in after_bad.2)).
Proof. vm_compute. reflexivity. Qed.
Lemma failed_build_is_kept_witness :
  ∃ p3, apply_config good_router after_bad.2 = (Ok (), p3) ∧ table_in p3 = table_in after_bad.2.
Proof.
  rewrite bad_table. refine (@failed_build_is_kept (memory_nft unbalanced) (memory_nft_laws unbalanced)
    version_digest reliable_os default_order good_router bad_router router_is_up.2 bad_error after_bad.2 _
    (λ _, eq_refl) _ _ _ _ bad_table).
  - vm_compute. reflexivity.
  - discriminate.
  - vm_compute. reflexivity.
  - refine (run_eq after_bad (Err bad_error) _). vm_compute. reflexivity.
Defined.
Definition stopped_provider : @FirewallRPCProvider (memory_nft unbalanced) :=
  {| fp_provider := installed None ∅; fp_config := None; fp_db := Some true;
     fp_capture := Some (NewLogCapture (log_all 1 0) 0); fp_captureStarted := false;
     fp_init := InitDone |}.
Lemma capture_not_restarted_witness :
  fp_captureStarted (@rpc_ApplyConfig (memory_nft unbalanced) version_digest reliable_os default_order
    true 0 good_router stopped_provider).2 = false.
Proof.
  apply (@capture_not_restarted (memory_nft unbalanced) version_digest reliable_os default_order
    stopped_provider); [reflexivity|reflexivity|].
  eapply rtc_once, (rpc_apply true 0 good_router (Ok ())).
  refine (run_eq (@rpc_ApplyConfig (memory_nft unbalanced) version_digest reliable_os default_order
    true 0 good_router stopped_provider) (Ok ()) _). vm_compute. reflexivity.
Defined.
