(* ===== verification/WireGuardConfig.v ===== *)
(** * WireGuardConfig: the configuration of the WireGuard plugin

    plugins/core/wireguard: types.go and wireguard_config.go.  A peer has the
    fields and the Validate method of types/types.go, modelled in [Types].  The
    theorems: which configurations [ValidateVPNConfig] accepts, and the network
    an address and a netmask stand for after [FormatCIDR]. *)
From S2P Require Import Prelude GoStr GoNet Validation Types.

Record VPNInterface := {
  vi_Type : string; vi_Enabled : bool; vi_DeviceName : string; vi_PrivateKey : string;
  vi_ListenPort : Z; vi_Address : string; vi_Netmask : string; vi_MTU : Z;
  vi_Peers : list WireGuardPeer; vi_FirewallZone : string; vi_Comment : string;
}.
Record VPNConfig := { vc_Version : string; vc_Interfaces : gomap VPNInterface }.

(** ** types.go *)

Definition VPNInterface_Validate (vi : VPNInterface) : option error :=
  let v := NewCollector in
  let v := when (0 <? vi_ListenPort vi)
             (CheckMsg (ValidatePort (vi_ListenPort vi)) "invalid listen port") v in
  let v := when (nonempty (vi_PrivateKey vi))
             (CheckMsg (ValidateWireGuardKey (vi_PrivateKey vi)) "invalid private key") v in
  let v := when (nonempty (vi_Address vi))
             (CheckMsg (ValidateIP (vi_Address vi)) "invalid address") v in
  let v := when (nonempty (vi_Netmask vi))
             (CheckMsg (ValidateNetmask (vi_Netmask vi)) "invalid netmask") v in
  let v := when (0 <? vi_MTU vi) (CheckMsg (ValidateMTU (vi_MTU vi)) "invalid MTU") v in
  let v := check_peers (vi_Peers vi) v in
  Error v.

Definition VPNConfig_Validate `{RangeOrder} (vc : VPNConfig) : option error :=
  let v := fold_left (λ v '(ifaceName, iface),
    when_some (VPNInterface_Validate iface)
      (λ err, CheckMsg (Some err) ("VPN interface " +:+ ifaceName)) v)
    (range (gm (vc_Interfaces vc))) NewCollector in
  Error v.

(** ** wireguard_config.go *)

Definition netmask_table : list (string * string) :=
  [("255.255.255.255", "32"); ("255.255.255.254", "31"); ("255.255.255.252", "30");
   ("255.255.255.248", "29"); ("255.255.255.240", "28"); ("255.255.255.224", "27");
   ("255.255.255.192", "26"); ("255.255.255.128", "25"); ("255.255.255.0", "24");
   ("255.255.254.0", "23"); ("255.255.252.0", "22"); ("255.255.248.0", "21");
   ("255.255.240.0", "20"); ("255.255.224.0", "19"); ("255.255.192.0", "18");
   ("255.255.128.0", "17"); ("255.255.0.0", "16"); ("255.254.0.0", "15");
   ("255.252.0.0", "14"); ("255.248.0.0", "13"); ("255.240.0.0", "12");
   ("255.224.0.0", "11"); ("255.192.0.0", "10"); ("255.128.0.0", "9");
   ("255.0.0.0", "8")].
Definition NetmaskToCIDR (netmask : string) : string :=
  let masks : gmap string string := list_to_map netmask_table in
  match masks !! netmask with
  | Some cidr => cidr
  | None => "24"
  end.

Definition StringSlicesEqual (a b : list string) : bool :=
  (length a =? length b)%nat &&
  let aMap : gset string := list_to_set a in
  forallb (λ item, bool_decide (item ∈ aMap)) b.

(** [if cond { args = append(args, more...) }]. *)
Definition args_if (cond : bool) (more : list string) : list string := if cond then more else [].
Definition BuildPeerArgs (deviceName : string) (peer : WireGuardPeer) : list string * bool :=
  (["set"; deviceName; "peer"; wp_PublicKey peer] ++
   args_if (nonempty (wp_PresharedKey peer)) ["preshared-key"; "/dev/stdin"] ++
   args_if (nonempty (wp_Endpoint peer)) ["endpoint"; wp_Endpoint peer] ++
   args_if (0 <? length (wp_AllowedIPs peer))%nat ["allowed-ips"; join "," (wp_AllowedIPs peer)] ++
   args_if (0 <? wp_PersistentKeepalive peer)
     ["persistent-keepalive"; itoa (wp_PersistentKeepalive peer)],
   nonempty (wp_PresharedKey peer)).

Definition cidr_error (prefix cidr : string) : option error :=
  match ParseCIDR cidr with Err err => Some (Wrapf (prefix +:+ cidr +:+ ": ") err) | _ => None end.

(** The body of the loop over the peers; [p] is an index with its peer. *)
Definition check_peer (name : string) (p : nat * WireGuardPeer) : option error :=
  let '(i, peer) := p in
  let at_peer := "interface " +:+ name +:+ ", peer " +:+ itoa (Z.of_nat i) in
  if negb (nonempty (wp_PublicKey peer)) then
    Some (ErrorText (at_peer +:+ ": public_key is required"))
  else if (String.length (wp_PublicKey peer) <? 40)%nat || str_contains (wp_PublicKey peer) " " then
    Some (ErrorText (at_peer +:+
      ": invalid public_key format (expected base64 key, typically 44 characters)"))
  else if (length (wp_AllowedIPs peer) =? 0)%nat then
    Some (ErrorText (at_peer +:+ ": allowed_ips is required"))
  else match first_error (indexed (wp_AllowedIPs peer)) (λ '(j, allowedIP),
    cidr_error (at_peer +:+ ", allowed_ip " +:+ itoa (Z.of_nat j) +:+ ": invalid CIDR ") allowedIP) with
  | Some err => Some err
  | None =>
      if nonempty (wp_Endpoint peer) && negb (length (split colon (wp_Endpoint peer)) =? 2)%nat then
        Some (ErrorText (at_peer +:+ ": invalid endpoint format (expected host:port)"))
      else if (wp_PersistentKeepalive peer <? 0) || (65535 <? wp_PersistentKeepalive peer) then
        Some (ErrorText (at_peer +:+ ": invalid persistent_keepalive " +:+
          itoa (wp_PersistentKeepalive peer) +:+ " (must be 0-65535)"))
      else None
  end.

(** The body of the loop over the interfaces. *)
Definition check_vpn_interface (p : string * VPNInterface) : option error :=
  let '(name, iface) := p in
  let at_iface := "interface " +:+ name in
  if negb (nonempty (vi_DeviceName iface)) then
    Some (ErrorText (at_iface +:+ ": device_name is required"))
  else if negb (nonempty (vi_PrivateKey iface)) then
    Some (ErrorText (at_iface +:+ ": private_key is required"))
  else if negb (nonempty (vi_Address iface)) then
    Some (ErrorText (at_iface +:+ ": address is required"))
  else if negb (nonempty (vi_Netmask iface)) then
    Some (ErrorText (at_iface +:+ ": netmask is required"))
  else if (vi_ListenPort iface <? 0) || (65535 <? vi_ListenPort iface) then
    Some (ErrorText (at_iface +:+ ": invalid listen port " +:+ itoa (vi_ListenPort iface) +:+
      " (must be 0-65535)"))
  else if (vi_MTU iface <? 0) || (9000 <? vi_MTU iface) then
    Some (ErrorText (at_iface +:+ ": invalid MTU " +:+ itoa (vi_MTU iface) +:+ " (must be 0-9000)"))
  else match
    (if negb (str_contains (vi_Address iface) "/") then
       match ParseIP (vi_Address iface) with
       | None => Some (ErrorText (at_iface +:+ ": invalid IP address: " +:+ vi_Address iface))
       | Some _ => None
       end
     else cidr_error (at_iface +:+ ": invalid CIDR address ") (vi_Address iface)) with
  | Some err => Some err
  | None => first_error (indexed (vi_Peers iface)) (check_peer name)
  end.

Definition ValidateVPNConfig `{RangeOrder} (config : option VPNConfig) : option error :=
  match config with
  | None => Some (ErrorText "config is nil")
  | Some config =>
      if (size (gm (vc_Interfaces config)) =? 0)%nat then Some (ErrorText "no interfaces defined")
      else first_error (range (gm (vc_Interfaces config))) check_vpn_interface
  end.

Definition FormatCIDR (ipAddr netmask : string) : string :=
  if str_contains ipAddr "/" then ipAddr else ipAddr +:+ "/" +:+ NetmaskToCIDR netmask.

(** ** What a valid configuration is *)

Definition cidr_ok (s : string) : Prop := ∃ r, ParseCIDR s = Ok r.
Definition vpn_address_ok (s : string) : Prop :=
  if str_contains s "/" then cidr_ok s else is_Some (ParseIP s).
Definition vpn_peer_ok (p : WireGuardPeer) : Prop :=
  (40 ≤ String.length (wp_PublicKey p))%nat ∧ str_contains (wp_PublicKey p) " " = false ∧
  wp_AllowedIPs p ≠ [] ∧ Forall cidr_ok (wp_AllowedIPs p) ∧
  (wp_Endpoint p ≠ "" → length (split colon (wp_Endpoint p)) = 2%nat) ∧
  0 ≤ wp_PersistentKeepalive p ≤ 65535.
Definition vpn_interface_ok (i : VPNInterface) : Prop :=
  vi_DeviceName i ≠ "" ∧ vi_PrivateKey i ≠ "" ∧ vi_Address i ≠ "" ∧ vi_Netmask i ≠ "" ∧
  0 ≤ vi_ListenPort i ≤ 65535 ∧ 0 ≤ vi_MTU i ≤ 9000 ∧ vpn_address_ok (vi_Address i) ∧
  Forall vpn_peer_ok (vi_Peers i).

(** ** Lemmas *)

Lemma cidr_error_None prefix s : cidr_error prefix s = None ↔ cidr_ok s.
Proof.
  unfold cidr_error, cidr_ok. pose proof (ParseCIDR_no_panic s).
  destruct (ParseCIDR s); [naive_solver..|done].
Qed.
Lemma check_peer_None name i p : check_peer name (i, p) = None ↔ vpn_peer_ok p.
Proof.
  unfold check_peer, vpn_peer_ok. cbv zeta.
  rewrite !if_Some_None, match_None, !if_Some_None, first_error_None.
  rewrite negb_false_iff, nonempty_true, orb_false_iff, Nat.ltb_ge, Nat.eqb_neq, out_of_range_false.
  rewrite andb_false_iff, nonempty_false, negb_false_iff, Nat.eqb_eq.
  rewrite <- (Forall_indexed cidr_ok).
  assert (∀ l, Forall (λ x : nat * string, (let '(j, allowedIP) := x in cidr_error
      (("interface " +:+ name +:+ ", peer " +:+ itoa (Z.of_nat i)) +:+
        ", allowed_ip " +:+ itoa (Z.of_nat j) +:+ ": invalid CIDR ") allowedIP) = None) l ↔
    Forall (λ x : nat * string, cidr_ok x.2) l) as ->.
  { intros l. apply Forall_iff. intros [j s]. apply cidr_error_None. }
  rewrite length_zero_iff_nil. assert (wp_PublicKey p ≠ "" ↔ (0 < String.length (wp_PublicKey p))%nat) as ->.
  { destruct (wp_PublicKey p); cbn; (split; [done || lia|done || lia]). }
  destruct (decide (wp_Endpoint p = "")); intuition (lia || done).
Qed.
Lemma check_vpn_interface_None name i : check_vpn_interface (name, i) = None ↔ vpn_interface_ok i.
Proof.
  unfold check_vpn_interface, vpn_interface_ok, vpn_address_ok. cbv zeta.
  rewrite !if_Some_None, match_None, first_error_None, !negb_false_iff, !nonempty_true,
    !out_of_range_false, <- (Forall_indexed vpn_peer_ok).
  assert (Forall (λ x, check_peer name x = None) (indexed (vi_Peers i)) ↔
    Forall (λ p : nat * WireGuardPeer, vpn_peer_ok p.2) (indexed (vi_Peers i))) as ->.
  { apply Forall_iff. intros [k p]. apply check_peer_None. }
  destruct (str_contains (vi_Address i) "/"); cbn [negb].
  - rewrite cidr_error_None. tauto.
  - assert (is_Some (ParseIP (vi_Address i)) ↔ ParseIP (vi_Address i) ≠ None) as ->
      by (symmetry; apply not_eq_None_Some).
    destruct (ParseIP (vi_Address i)); naive_solver.
Qed.
Lemma vpn_config_valid `{RangeOrder} c :
  ValidateVPNConfig (Some c) = None ↔
    gm (vc_Interfaces c) ≠ ∅ ∧ map_Forall (λ _, vpn_interface_ok) (gm (vc_Interfaces c)).
Proof.
  cbn. rewrite if_Some_None, first_error_None, Nat.eqb_neq, map_size_non_empty_iff.
  rewrite (range_perm (gm (vc_Interfaces c))), map_Forall_to_list.
  assert (∀ l, Forall (λ x : string * VPNInterface, check_vpn_interface x = None) l ↔
    Forall (uncurry (λ _ : string, vpn_interface_ok)) l) as ->; [|done].
  intros l. apply Forall_iff. intros [n i]. apply check_vpn_interface_None.
Qed.

(** ** Lemmas: addresses and lists *)

(** The table holds the masks of /8 to /32 and nothing else. *)
Definition dotted_mask (n : Z) : string := dotted (CIDRMask n 32).
Definition netmask_prefix (n : Z) : Z := if n <? 8 then 24 else n.
Lemma NetmaskToCIDR_prefix n : 0 ≤ n ≤ 32 → NetmaskToCIDR (dotted_mask n) = itoa (netmask_prefix n).
Proof.
  intros Hn. apply String.eqb_eq.
  apply (seqZ_cases (λ n, String.eqb (NetmaskToCIDR (dotted_mask n)) (itoa (netmask_prefix n))) 0 33);
    [vm_compute; reflexivity|lia].
Qed.

(** *** A CIDR holds no comma, so joining allowed networks with commas is
    undone by splitting. *)
Lemma no_comma_digits s : all_digits s = true → contains_byte comma s = false.
Proof. by apply contains_byte_digits. Qed.
Lemma parse_digits_no_comma s v : parse_digits s = Some v → contains_byte comma s = false.
Proof.
  intros H. apply no_comma_digits. destruct s; [done|]. by eapply digits_val_all_digits.
Qed.
Lemma parse_octet_no_comma s v : parse_octet s = Some v → contains_byte comma s = false.
Proof.
  unfold parse_octet. intros H. destruct s as [|a [|b s]]; [done|..].
  - by apply bind_Some in H as (w & Hw%parse_digits_no_comma & _).
  - destruct (Ascii.eqb a (byte_of 48)); [done|].
    by apply bind_Some in H as (w & Hw%parse_digits_no_comma & _).
Qed.
Lemma parse_ipv4_no_comma s v : parse_ipv4 s = Some v → contains_byte comma s = false.
Proof.
  unfold parse_ipv4. intros H. rewrite <- (join_split dot s). apply contains_byte_join; [done|].
  destruct (split dot s) as [|a [|b [|c [|d [|]]]]]; try done.
  apply bind_Some in H as (? & Ha%parse_octet_no_comma & H).
  apply bind_Some in H as (? & Hb%parse_octet_no_comma & H).
  apply bind_Some in H as (? & Hc%parse_octet_no_comma & H).
  apply bind_Some in H as (? & Hd%parse_octet_no_comma & H). by repeat constructor.
Qed.
Lemma hex_run_no_comma acc len s v n rest :
  hex_run acc len s = (v, n, rest) → contains_byte comma rest = false → contains_byte comma s = false.
Proof.
  revert acc len. induction s as [|c s IH]; intros acc len; cbn [hex_run];
    [by intros [= <- <- <-]|].
  destruct (hex_val c) as [d|] eqn:Hc; [|by intros [= <- <- <-]].
  intros E Hr. change (Ascii.eqb c comma || contains_byte comma s = false). rewrite (IH _ _ E Hr), orb_false_r. apply not_true_iff_false. intros ->%eqb_ascii_spec.
  by vm_compute in Hc.
Qed.
Lemma ipv6_groups_no_comma fuel bs ell s bs' ell' :
  ipv6_groups fuel bs ell s = Some (bs', ell', "") → contains_byte comma s = false.
Proof.
  revert bs ell s. induction fuel as [|fuel IH]; intros bs ell s; cbn [ipv6_groups]; [done|].
  destruct (16 <=? length bs)%nat; [by intros [= _ _ ->]|].
  destruct (hex_run 0 0 s) as [[v n] rest] eqn:Hr.
  destruct ((4 <? n)%nat || (n =? 0)%nat); [done|].
  destruct rest as [|c rest]; [intros _; by eapply hex_run_no_comma|].
  destruct (Ascii.eqb c dot) eqn:Hdot.
  { destruct (_ || _); [done|]. intros E. apply bind_Some in E as (v4 & Hv & _).
    by eapply parse_ipv4_no_comma. }
  destruct (Ascii.eqb c colon) eqn:Hc; [|done]. apply eqb_ascii_spec in Hc as ->. cbn [negb].
  intros E. eapply hex_run_no_comma; [done|]. change (contains_byte comma rest = false).
  destruct rest as [|c' rest]; [done|]. destruct (Ascii.eqb c' colon) eqn:Hc'; [|by eapply IH].
  apply eqb_ascii_spec in Hc' as ->. change (contains_byte comma rest = false).
  destruct ell; [done|]. destruct rest; [done|]. by eapply IH.
Qed.
Lemma parse_ipv6_no_comma s v : parse_ipv6 s = Some v → contains_byte comma s = false.
Proof.
  unfold parse_ipv6. cbv zeta.
  assert (∀ s' ell, (match ipv6_groups 9 [] ell s' with
    | Some (_, _, "") => contains_byte comma s' = false | _ => True end)) as Hg.
  { intros s' ell. destruct (ipv6_groups 9 [] ell s') as [[[bs e] [|]]|] eqn:E; try done.
    by eapply ipv6_groups_no_comma. }
  assert (∀ s' ell w, (match ipv6_groups 9 [] ell s' with
    | Some (done, ell, "") => match ell with
        | None => if (length done =? 16)%nat then Some done else None
        | Some e => if (length done <? 16)%nat then
            Some (take e done ++ replicate (16 - length done) 0 ++ drop e done) else None end
    | _ => None end) = Some w → contains_byte comma s' = false) as Hf.
  { intros s' ell w. specialize (Hg s' ell).
    by destruct (ipv6_groups 9 [] ell s') as [[[bs e] [|]]|]. }
  destruct s as [|c [|c' s]]; [apply Hf..|].
  destruct (Ascii.eqb c colon && Ascii.eqb c' colon) eqn:E; [|apply Hf].
  apply andb_true_iff in E as [->%eqb_ascii_spec ->%eqb_ascii_spec].
  change (contains_byte comma (String colon (String colon s))) with (contains_byte comma s).
  destruct s; [done|apply Hf].
Qed.
Lemma parse_addr_no_comma s v : parse_addr s = Some v → contains_byte comma s = false.
Proof.
  unfold parse_addr. destruct (first_mark s) as [c|]; [|done].
  destruct (Ascii.eqb c dot); [intros (w & ? & _)%bind_Some; by eapply parse_ipv4_no_comma|].
  destruct (Ascii.eqb c colon); [|done]. destruct (contains_byte _ s); [done|].
  intros (w & ? & _)%bind_Some. by eapply parse_ipv6_no_comma.
Qed.
Lemma cidr_no_comma s : cidr_ok s → contains_byte comma s = false.
Proof.
  intros [r Hr]. unfold ParseCIDR in Hr. pose proof (join_split slash s) as Hj.
  destruct (split slash s) as [|a [|m ms]]; [done..|]. rewrite <- Hj.
  change (join (String slash "") (a :: m :: ms)) with (a +:+ "/" +:+ join "/" (m :: ms)).
  destruct (parse_addr a) as [ip|] eqn:Ha; [|done]. cbn -[join] in Hr.
  destruct (parse_prefix_len (join "/" (m :: ms))) as [n|] eqn:Hn; [|done].
  unfold parse_prefix_len in Hn. apply bind_Some in Hn as (w & Hw & _).
  rewrite !contains_byte_app. by rewrite (parse_addr_no_comma _ _ Ha), (parse_digits_no_comma _ _ Hw).
Qed.
(** What [wg] reads is what the peer's configuration lists. *)
Lemma split_allowed_ips l : l ≠ [] → Forall cidr_ok l → split comma (join "," l) = l.
Proof.
  intros Hl Hc. apply (split_join comma); [done|]. eapply Forall_impl; [exact Hc|].
  intros s. apply cidr_no_comma.
Qed.

Lemma StringSlicesEqual_spec a b :
  StringSlicesEqual a b = true ↔ length a = length b ∧ b ⊆ a.
Proof.
  unfold StringSlicesEqual. rewrite andb_true_iff, Nat.eqb_eq, forallb_forall.
  setoid_rewrite bool_decide_eq_true. setoid_rewrite elem_of_list_to_set.
  setoid_rewrite <- list_elem_of_In. done.
Qed.

(** ** Properties *)

(** A WireGuard configuration is accepted exactly when there is one, it has
    an interface, and every interface has a device name, a private key, an
    address with or without prefix length, a netmask, a port and an MTU (at most
    9000) in range, and peers with a key of at least 40 characters without
    space, at least one valid allowed network, an endpoint with exactly one
    colon (or none) and a keepalive in range; keys are not decoded, and the
    netmask is not looked at. *)
Theorem ValidateVPNConfig_None `{RangeOrder} config :
  ValidateVPNConfig config = None ↔
    ∃ c, config = Some c ∧ gm (vc_Interfaces c) ≠ ∅ ∧
      map_Forall (λ _, vpn_interface_ok) (gm (vc_Interfaces c)).
Proof.
  destruct config as [c|]; [rewrite vpn_config_valid; naive_solver|]. cbn. naive_solver.
Qed.

(** An IPv4 address with the netmask of a prefix length is formatted as an
    address of the network of that length when the length is at least 8; the
    netmasks of /0 to /7, which the validation accepts, become /24. *)
Theorem FormatCIDR_network a b c d n :
  Forall is_byte [a; b; c; d] → 0 ≤ n ≤ 32 →
  ParseCIDR (FormatCIDR (dotted [a; b; c; d]) (dotted_mask n)) =
    Ok (v4_prefix ++ [a; b; c; d], ipv4_net [a; b; c; d] (netmask_prefix n)).
Proof.
  intros Hb Hn. unfold FormatCIDR. rewrite str_contains_byte, all_digits_join_no_slash by done.
  rewrite NetmaskToCIDR_prefix by done. apply ParseCIDR_dotted; [done|].
  unfold netmask_prefix. case_match; lia.
Qed.

(** Lists without repetitions compare equal exactly when one is a permutation
    of the other. *)
Theorem StringSlicesEqual_perm a b : NoDup b → StringSlicesEqual a b = true ↔ a ≡ₚ b.
Proof.
  intros Hb. rewrite StringSlicesEqual_spec. split; [|by intros ->].
  intros [Hl Hs]. symmetry. apply submseteq_length_Permutation; [|lia].
  by apply NoDup_submseteq.
Qed.

(** ** Witnesses and examples *)

Definition sample_key : string := "yAnz5TF+lXXJte14tji3zlMNq+hd2rYUIgJBgB3fBmk=".
Definition sample_peer : WireGuardPeer :=
  {| wp_PublicKey := sample_key; wp_PresharedKey := ""; wp_Endpoint := "203.0.113.1:51820";
     wp_Comment := ""; wp_AllowedIPs := ["10.8.0.0/24"]; wp_PersistentKeepalive := 25 |}.
Definition sample_tunnel : VPNInterface :=
  {| vi_Type := "wireguard"; vi_Enabled := true; vi_DeviceName := "wg0";
     vi_PrivateKey := "cHJpdmF0ZQ=="; vi_ListenPort := 51820; vi_Address := "10.8.0.2";
     vi_Netmask := "255.255.255.0"; vi_MTU := 1420; vi_Peers := [sample_peer];
     vi_FirewallZone := "vpn"; vi_Comment := "" |}.
Definition sample_vpn : VPNConfig :=
  {| vc_Version := "1.0"; vc_Interfaces := Some {["office" := sample_tunnel]} |}.

Lemma FormatCIDR_network_witness :
  ParseCIDR (FormatCIDR (dotted [10; 8; 0; 2]) (dotted_mask 16)) =
    Ok (v4_prefix ++ [10; 8; 0; 2], ipv4_net [10; 8; 0; 2] (netmask_prefix 16)).
Proof.
  apply (FormatCIDR_network 10 8 0 2 16); [|lia].
  repeat constructor; unfold is_byte; lia.
Defined.
Lemma StringSlicesEqual_perm_witness :
  StringSlicesEqual ["10.0.0.0/8"; "::/0"] ["::/0"; "10.0.0.0/8"] = true ↔
  ["10.0.0.0/8"; "::/0"] ≡ₚ ["::/0"; "10.0.0.0/8"].
Proof. apply (StringSlicesEqual_perm _ ["::/0"; "10.0.0.0/8"]). apply (bool_decide_unpack _). vm_compute. exact I. Defined.

Example sample_vpn_valid : @ValidateVPNConfig default_order (Some sample_vpn) = None.
Proof. vm_compute. reflexivity. Qed.
(** The shorter netmasks. *)
Example half_the_internet : FormatCIDR "10.0.0.1" "128.0.0.0" = "10.0.0.1/24".
Proof. vm_compute. reflexivity. Qed.
Example prefix_as_netmask :
  ValidateNetmask "/16" = None ∧ FormatCIDR "10.0.0.1" "/16" = "10.0.0.1/24".
Proof. vm_compute. by split. Qed.
(** The comparison is neither symmetric nor one of multisets. *)
Example slices_not_symmetric :
  StringSlicesEqual ["a"; "b"] ["a"; "a"] = true ∧ StringSlicesEqual ["a"; "a"] ["a"; "b"] = false.
Proof. vm_compute. by split. Qed.
(** An IPv6 endpoint is accepted by the validation of the configuration types,
    not by that of the plugin. *)
Example ipv6_endpoint :
  ValidateEndpoint "[2001:db8::1]:51820" = None ∧
  length (split colon "[2001:db8::1]:51820") ≠ 2%nat.
Proof. vm_compute. by split. Qed.
Example peer_arguments :
  BuildPeerArgs "wg0" sample_peer =
    (["set"; "wg0"; "peer"; sample_key; "endpoint"; "203.0.113.1:51820"; "allowed-ips";
      "10.8.0.0/24"; "persistent-keepalive"; "25"], false).
Proof. vm_compute. reflexivity. Qed.
