(* ===== verification/WireGuard.v ===== *)
(** * WireGuard: the WireGuard plugin (plugins/core/wireguard: wireguard.go, rpc_provider.go)

    Tunnels are made with the [ip] and [wg] programs and the netlink library.
    [Kernel] is the one of the system package; [Wg] adds what only this plugin
    uses: commands with an input, and the listings of both address families.
    [WgLaws] is what the programs document, over one view of the state: the
    WireGuard devices by name, with their keys, ports and peers.  The theorems:
    what the devices are after a configuration was applied; when an existing
    device is left alone, and that one with peers never is; the route to the
    endpoint of a tunnel that takes the default route. *)
From S2P Require Import Prelude GoStr GoNet Validation Types WireGuardConfig Netlink Routes Network.

(** ** The parameters *)

Class Wg `{Kernel} := {
  (* exec.Command(...).CombinedOutput with a standard input *)
  CombinedOutput : string → list string → string → M kernel (string * option error);
  (* netlink.AddrList and RouteList(nil) with FAMILY_ALL *)
  k_AddrList_all : Link → M kernel (list Addr);
  k_RouteList_all : M kernel (list NRoute);
}.

Section wireguard.
Context `{Wg} `{RangeOrder}.

(** ** wireguard.go *)

(** A command whose output goes into the error. *)
Definition run_command (what name : string) (args : list string) (stdin : string) : M kernel () :=
  CombinedOutput name args stdin ≫= λ '(output, err),
  match err with Some e => fail (Wrapf (what +:+ output +:+ ": ") e) | None => mret () end.

(** [peer.PublicKey[:16]] is evaluated before the comment is looked at. *)
Definition configurePeer (deviceName : string) (peer : WireGuardPeer) : M kernel () :=
  let '(args, needsStdin) := BuildPeerArgs deviceName peer in
  run_command "failed to configure peer: " "wg" args
    (if needsStdin : bool then wp_PresharedKey peer else "") ≫= λ _,
  if (String.length (wp_PublicKey peer) <? 16)%nat
  then lift (Panic "slice bounds out of range") else mret ().

Definition flushIPs (link : Link) : M kernel () :=
  wrapM "failed to list addresses: " (k_AddrList_all link) ≫= λ addrs,
  for_each addrs (λ addr,
    wrapM ("failed to delete address " +:+ IPNet_String addr +:+ ": ") (k_AddrDel link addr)).

Definition setStaticIP (link : Link) (ipAddr netmask : string) : M kernel () :=
  let cidr := FormatCIDR ipAddr netmask in
  wrapM ("invalid IP address " +:+ cidr +:+ ": ") (lift (k_ParseAddr cidr)) ≫= λ addr,
  wrapM "failed to add address: " (k_AddrAdd link addr).

(** The text of an error says that the route is there already. *)
Definition file_exists (e : error) : bool := str_contains (error_string e) "file exists".

(** The loop over the routes: the gateway and the link of the default route
    with the lowest metric so far. *)
Definition default_dst (dst : option IPNet) : bool :=
  match dst with None => true | Some d => bool_decide (IPNet_String d = "0.0.0.0/0") end.
Fixpoint find_default (routes : list NRoute) (best : option (IP * Link)) (lowestMetric : Z)
  : M kernel (option (IP * Link)) :=
  match routes with
  | [] => mret best
  | route :: routes =>
      if default_dst (nr_Dst route) && negb (bool_decide (nr_Gw route = []))
         && (nr_Priority route <? lowestMetric) then
        attempt (k_LinkByIndex (nr_LinkIndex route)) ≫= λ link,
        match link with
        | Ok link =>
            if negb (bool_decide (lk_Type link = "wireguard"))
            then find_default routes (Some (nr_Gw route, link)) (nr_Priority route)
            else find_default routes best lowestMetric
        | _ => find_default routes best lowestMetric
        end
      else find_default routes best lowestMetric
  end.
(** A route struct with a destination, a gateway and a link; the rest is zero. *)
Definition new_route (dst : IPNet) (gw : IP) (linkIndex metric scope : Z) : NRoute :=
  {| nr_Dst := Some dst; nr_Gw := gw; nr_LinkIndex := linkIndex; nr_Priority := metric;
     nr_Table := 0; nr_Protocol := 0; nr_Scope := scope |}.
Definition addEndpointRoute (endpoint : string) : M kernel () :=
  wrapM ("invalid endpoint format " +:+ endpoint +:+ ": ") (lift (SplitHostPort endpoint))
    ≫= λ '(host, _),
  match ParseIP host with
  | None => fail (ErrorText ("invalid endpoint IP: " +:+ host))
  | Some endpointIP =>
      wrapM "failed to list routes: " k_RouteList_all ≫= λ routes,
      find_default routes None 999999 ≫= λ best,
      match best with
      | None => fail (ErrorText "no default gateway found")
      | Some (defaultGW, defaultLink) =>
          attempt (k_RouteAdd (new_route {| net_IP := endpointIP; net_Mask := CIDRMask 32 32 |}
            defaultGW (lk_Index defaultLink) 0 0)) ≫= λ r,
          match r with
          | Err e => if file_exists e then mret ()
                     else fail (Wrapf "failed to add endpoint route: " e)
          | _ => mret ()
          end
      end
  end.

Definition is_default_route (allowedIP : string) : bool :=
  bool_decide (allowedIP = "0.0.0.0/0") || bool_decide (allowedIP = "::/0").
(** The body of the loop; every error is logged. *)
Definition add_allowed_route (link : Link) (peer : WireGuardPeer) (allowedIP : string) : M kernel () :=
  match ParseCIDR allowedIP with
  | Ok (_, ipNet) =>
      let isDefaultRoute := is_default_route allowedIP in
      let route := new_route ipNet [] (lk_Index link) 50
                     (if isDefaultRoute then SCOPE_LINK else 0) in
      (if isDefaultRoute && nonempty (wp_Endpoint peer)
       then attempt (addEndpointRoute (wp_Endpoint peer)) ≫= λ _, mret () else mret ()) ≫= λ _,
      attempt (k_RouteAdd route) ≫= λ _, mret ()
  | _ => mret ()
  end.
Definition addPeerRoutes (link : Link) (iface : VPNInterface) : M kernel () :=
  for_each (vi_Peers iface) (λ peer, for_each (wp_AllowedIPs peer) (add_allowed_route link peer)).

(** ** interfaceConfigMatches *)

(** Whether one line of the dump is a peer of the configuration; an error
    for a line of fewer than nine fields. *)
Definition peer_line_matches (desiredPeers : gmap string WireGuardPeer) (line : string) : res bool :=
  let peerFields := fields line in
  if (length peerFields <? 9)%nat then Err (ErrorText "invalid wg dump peer line") else
  match desiredPeers !! nth 1 peerFields "" with
  | None => Ok false
  | Some desiredPeer =>
      if nonempty (wp_Endpoint desiredPeer)
         && negb (bool_decide (nth 3 peerFields "" = wp_Endpoint desiredPeer)) then Ok false
      else if negb (StringSlicesEqual (split comma (nth 4 peerFields "")) (wp_AllowedIPs desiredPeer))
      then Ok false
      else if (0 <? wp_PersistentKeepalive desiredPeer)
         && negb (bool_decide (nth 8 peerFields "" = itoa (wp_PersistentKeepalive desiredPeer)))
      then Ok false
      else Ok true
  end.
Fixpoint peer_lines_match (desiredPeers : gmap string WireGuardPeer) (lines : list string) : res bool :=
  match lines with
  | [] => Ok true
  | line :: lines =>
      peer_line_matches desiredPeers line ≫= λ b,
      if b : bool then peer_lines_match desiredPeers lines else Ok false
  end.
(** The part that reads the dump. *)
Definition dump_matches (output : string) (desired : VPNInterface) : res bool :=
  let lines := split newline (trim_space output) in
  let interfaceFields := fields (hd "" lines) in
  if (length interfaceFields <? 4)%nat then Err (ErrorText "invalid wg dump interface line") else
  let currentListenPort := nth 3 interfaceFields "" in
  if (0 <? vi_ListenPort desired)
     && negb (bool_decide (currentListenPort = itoa (vi_ListenPort desired)))
     && negb (bool_decide (currentListenPort = "0")) then Ok false
  else if negb (length (tail lines) =? length (vi_Peers desired))%nat then Ok false
  else
    let desiredPeers : gmap string WireGuardPeer :=
      fold_left (λ m peer, <[wp_PublicKey peer := peer]> m) (vi_Peers desired) ∅ in
    peer_lines_match desiredPeers (tail lines).
(** The part that looks at the link. *)
Definition link_matches (desired : VPNInterface) : M kernel bool :=
  wrapM "failed to get interface: " (k_LinkByName (vi_DeviceName desired)) ≫= λ link,
  if (0 <? vi_MTU desired) && negb (lk_MTU link =? vi_MTU desired) then mret false else
  wrapM "failed to list addresses: " (k_AddrList link) ≫= λ addrs,
  mret match addrs with
  | [] => negb (nonempty (vi_Address desired))
  | addr :: _ => negb (nonempty (vi_Address desired))
                 || bool_decide (IP_String (net_IP addr) = vi_Address desired)
  end.
Definition interfaceConfigMatches (desired : VPNInterface) : M kernel bool :=
  CombinedOutput "wg" ["show"; vi_DeviceName desired; "dump"] "" ≫= λ '(output, err),
  match err with
  | Some e => fail (Wrapf "failed to run 'wg show': " e)
  | None =>
      lift (dump_matches output desired) ≫= λ b,
      if b : bool then link_matches desired else mret false
  end.

(** ** applyInterface *)

(** From the creation of the device to its peers. *)
Definition create_device (iface : VPNInterface) : M kernel () :=
  run_command "failed to create interface: " "ip"
    ["link"; "add"; "dev"; vi_DeviceName iface; "type"; "wireguard"] "" ≫= λ _,
  run_command "failed to set private key: " "wg"
    ["set"; vi_DeviceName iface; "private-key"; "/dev/stdin"] (vi_PrivateKey iface) ≫= λ _,
  (if 0 <? vi_ListenPort iface
   then run_command "failed to set listen port: " "wg"
          ["set"; vi_DeviceName iface; "listen-port"; itoa (vi_ListenPort iface)] ""
   else mret ()) ≫= λ _,
  for_each (indexed (vi_Peers iface)) (λ p,
    wrapM ("failed to configure peer " +:+ itoa (Z.of_nat p.1) +:+ ": ")
      (configurePeer (vi_DeviceName iface) p.2)).
(** The rest: the link's MTU, state, address and routes. *)
Definition configure_link (iface : VPNInterface) : M kernel () :=
  wrapM "failed to get interface: " (k_LinkByName (vi_DeviceName iface)) ≫= λ wgLink,
  (if 0 <? vi_MTU iface then wrapM "failed to set MTU: " (k_LinkSetMTU wgLink (vi_MTU iface))
   else mret ()) ≫= λ _,
  wrapM "failed to bring up interface: " (k_LinkSetUp wgLink) ≫= λ _,
  wrapM "failed to flush IPs: " (flushIPs wgLink) ≫= λ _,
  wrapM "failed to set IP address: " (setStaticIP wgLink (vi_Address iface) (vi_Netmask iface)) ≫= λ _,
  wrapM "failed to add peer routes: " (addPeerRoutes wgLink iface).
Definition rebuild (iface : VPNInterface) : M kernel () :=
  create_device iface ≫= λ _, configure_link iface.
Definition applyInterface (iface : VPNInterface) : M kernel () :=
  attempt (k_LinkByName (vi_DeviceName iface)) ≫= λ existingLink,
  match existingLink with
  | Ok existingLink =>
      attempt (interfaceConfigMatches iface) ≫= λ configMatches,
      match configMatches with
      | Ok true => wrapM "failed to add peer routes: " (addPeerRoutes existingLink iface)
      | _ =>
          wrapM "failed to delete existing interface: " (k_LinkDel existingLink) ≫= λ _,
          rebuild iface
      end
  | _ => rebuild iface
  end.

(** ** The provider *)

Record WireGuardProvider := { wg_interfaces : gomap VPNInterface; wg_kernel : kernel }.
Definition in_kernel {A} (m : M kernel A) : M WireGuardProvider A := λ p,
  match m (wg_kernel p) with
  | (r, k) => (r, {| wg_interfaces := wg_interfaces p; wg_kernel := k |})
  end.
Definition set_interfaces (c : gomap VPNInterface) : M WireGuardProvider () := λ p,
  (Ok (), {| wg_interfaces := c; wg_kernel := wg_kernel p |}).

(** The provider is made on the kernel it finds. *)
Definition New (k : kernel) : res WireGuardProvider * kernel :=
  match k_LookPath "wg" k with
  | (Err e, k') => (Err (Wrapf "wireguard-tools not found: " e), k')
  | (Panic w, k') => (Panic w, k')
  | (Ok _, k') => (Ok {| wg_interfaces := Some ∅; wg_kernel := k' |}, k')
  end.

Definition removeDisabled (iface : VPNInterface) : M kernel () :=
  attempt (k_LinkByName (vi_DeviceName iface)) ≫= λ link,
  match link with
  | Ok link =>
      wrapM ("failed to remove interface " +:+ vi_DeviceName iface +:+ ": ") (k_LinkDel link)
  | _ => mret ()
  end.
(** The body of the loop over the interfaces. *)
Definition apply_tunnel (p : string * VPNInterface) : M kernel () :=
  if negb (vi_Enabled p.2) then removeDisabled p.2
  else wrapM ("failed to apply interface " +:+ p.1 +:+ ": ") (applyInterface p.2).
Definition ApplyConfig (config : VPNConfig) : M WireGuardProvider () :=
  set_interfaces (vc_Interfaces config) ≫= λ _,
  in_kernel (for_each (range (gm (vc_Interfaces config))) apply_tunnel).

Definition Validate (config : VPNConfig) : option error := ValidateVPNConfig (Some config).

(** The removal of a link may fail, which is logged. *)
Definition Flush : M WireGuardProvider () := in_kernel (
  wrapM "failed to list links: " k_LinkList ≫= λ links,
  for_each links (λ link,
    if bool_decide (lk_Type link = "wireguard")
    then attempt (k_LinkDel link) ≫= λ _, mret () else mret ())).

Definition Enable : M WireGuardProvider () :=
  gets wg_interfaces ≫= λ ifaces,
  in_kernel (for_each (range (gm ifaces)) (λ p,
    if negb (vi_Enabled p.2) then mret () else
    wrapM ("interface " +:+ p.1 +:+ " not found: ") (k_LinkByName (vi_DeviceName p.2)) ≫= λ link,
    wrapM ("failed to bring up " +:+ p.1 +:+ ": ") (k_LinkSetUp link))).

Definition Disable : M WireGuardProvider () :=
  gets wg_interfaces ≫= λ ifaces,
  in_kernel (for_each (range (gm ifaces)) (λ p,
    attempt (k_LinkByName (vi_DeviceName p.2)) ≫= λ link,
    match link with
    | Ok link => attempt (k_LinkSetDown link) ≫= λ _, mret ()
    | _ => mret ()
    end)).

Definition active_tunnel (link : Link) : bool :=
  bool_decide (lk_Type link = "wireguard") && lk_Up link.
Definition Status : M WireGuardProvider (bool * string * Z) := in_kernel (
  wrapM "failed to list links: " k_LinkList ≫= λ links,
  let tunnelCount := Z.of_nat (length (List.filter active_tunnel links)) in
  mret (0 <? tunnelCount, "wireguard", tunnelCount)).

(** ** rpc_provider.go: [configJSON] is what [json.Unmarshal] makes of the bytes *)

Definition rpc_ApplyConfig (configJSON : res VPNConfig) : M WireGuardProvider () :=
  lift configJSON ≫= λ vpnConfig, ApplyConfig vpnConfig.
Definition rpc_ValidateConfig (configJSON : res VPNConfig) : res () :=
  configJSON ≫= λ vpnConfig, check (Validate vpnConfig).
Definition rpc_Status : M WireGuardProvider (list (string * (bool + string + Z))) :=
  Status ≫= λ '(enabled, provider, tunnels),
  mret [("enabled", inl (inl enabled)); ("provider", inl (inr provider)); ("tunnels", inr tunnels)].
End wireguard.

(** ** What the programs and the library document *)

(** A peer of a device: an empty preshared key or endpoint is none, keepalive 0
    is off. *)
#[export] Instance IPNet_countable : Countable IPNet.
Proof.
  apply (inj_countable' (λ n, (net_IP n, net_Mask n)) (λ p, {| net_IP := p.1; net_Mask := p.2 |})).
  by intros [].
Defined.
Record WgPeer := {
  pr_PresharedKey : string; pr_Endpoint : string; pr_Keepalive : Z; pr_AllowedIPs : gset IPNet;
}.
Record WgDevice := { wd_PrivateKey : string; wd_ListenPort : Z; wd_Peers : gmap string WgPeer }.
Definition new_device : WgDevice := {| wd_PrivateKey := ""; wd_ListenPort := 0; wd_Peers := ∅ |}.
Definition new_peer : WgPeer :=
  {| pr_PresharedKey := ""; pr_Endpoint := ""; pr_Keepalive := 0; pr_AllowedIPs := ∅ |}.

(** The networks of a list of CIDRs. *)
Definition networks (l : list string) : gset IPNet :=
  list_to_set (omap (λ s, match ParseCIDR s with Ok (_, n) => Some n | _ => None end) l).

(** The settings of [wg set ... peer]: the arguments, and the effect. *)
Inductive wg_option :=
| SetPresharedKey | SetEndpoint (endpoint : string) | SetAllowedIPs (text : string)
| SetKeepalive (seconds : Z).
Definition option_args (o : wg_option) : list string :=
  match o with
  | SetPresharedKey => ["preshared-key"; "/dev/stdin"]
  | SetEndpoint e => ["endpoint"; e]
  | SetAllowedIPs s => ["allowed-ips"; s]
  | SetKeepalive n => ["persistent-keepalive"; itoa n]
  end.
Definition option_ok (o : wg_option) : Prop :=
  match o with SetAllowedIPs s => Forall cidr_ok (split comma s) | SetKeepalive n => 0 ≤ n ≤ 65535
             | _ => True end.
Definition set_option (stdin : string) (p : WgPeer) (o : wg_option) : WgPeer :=
  match o with
  | SetPresharedKey => {| pr_PresharedKey := stdin; pr_Endpoint := pr_Endpoint p;
      pr_Keepalive := pr_Keepalive p; pr_AllowedIPs := pr_AllowedIPs p |}
  | SetEndpoint e => {| pr_PresharedKey := pr_PresharedKey p; pr_Endpoint := e;
      pr_Keepalive := pr_Keepalive p; pr_AllowedIPs := pr_AllowedIPs p |}
  | SetAllowedIPs s => {| pr_PresharedKey := pr_PresharedKey p; pr_Endpoint := pr_Endpoint p;
      pr_Keepalive := pr_Keepalive p; pr_AllowedIPs := networks (split comma s) |}
  | SetKeepalive n => {| pr_PresharedKey := pr_PresharedKey p; pr_Endpoint := pr_Endpoint p;
      pr_Keepalive := n; pr_AllowedIPs := pr_AllowedIPs p |}
  end.
Definition without_nets (nets : gset IPNet) (p : WgPeer) : WgPeer :=
  {| pr_PresharedKey := pr_PresharedKey p; pr_Endpoint := pr_Endpoint p;
     pr_Keepalive := pr_Keepalive p; pr_AllowedIPs := pr_AllowedIPs p ∖ nets |}.
Definition with_peers (m : gmap string WgPeer) (d : WgDevice) : WgDevice :=
  {| wd_PrivateKey := wd_PrivateKey d; wd_ListenPort := wd_ListenPort d; wd_Peers := m |}.
(** A network belongs to one peer, the last that was given it; the settings of
    a peer that is the device itself are ignored. *)
Definition set_peer (public : string → string) (key stdin : string) (opts : list wg_option)
    (d : WgDevice) : WgDevice :=
  if decide (key = public (wd_PrivateKey d)) then d else
  let p := foldl (set_option stdin) (default new_peer (wd_Peers d !! key)) opts in
  with_peers (<[key := p]> (without_nets (pr_AllowedIPs p) <$> wd_Peers d)) d.
Definition set_private_key (public : string → string) (key : string) (d : WgDevice) : WgDevice :=
  {| wd_PrivateKey := key; wd_ListenPort := wd_ListenPort d;
     wd_Peers := delete (public key) (wd_Peers d) |}.
Definition set_listen_port (port : Z) (d : WgDevice) : WgDevice :=
  {| wd_PrivateKey := wd_PrivateKey d; wd_ListenPort := port; wd_Peers := wd_Peers d |}.

(** The dump of a device: fields without white space, separated by tabs; a line
    of four for the device (private key, public key, listen port, firewall
    mark), and a line of eight for each peer (public key, preshared key,
    endpoint, allowed networks, latest handshake, two counters, keepalive).  A
    firewall mark is "off" or a hexadecimal number. *)
Definition tab : string := bytes [9%N].
Definition dump_text (lines : list (list string)) : string :=
  join (String newline "") (join tab <$> lines) +:+ String newline "".
Definition dump_of (d : WgDevice) (out : string) : Prop := ∃ head lines,
  out = dump_text (head :: lines) ∧ length head = 4%nat ∧ Forall word head ∧
  nth 2 head "" = itoa (wd_ListenPort d) ∧
  (nth 3 head "" = "off" ∨ ∃ s, nth 3 head "" = "0x" +:+ s) ∧
  length lines = size (wd_Peers d) ∧ Forall (λ l, length l = 8%nat ∧ Forall word l) lines.

(** A call that does not panic and leaves a view of the state alone. *)
Definition leaves {S A V} (view : S → V) (m : M S A) : Prop :=
  ∀ s r s', m s = (r, s') → no_panic r ∧ view s' = view s.

Class WgLaws {K : Kernel} {W : Wg (H:=K)} {L : KernelLaws (H:=K)} := {
  wg_of : kernel → gmap string WgDevice;
  (* the public key of a private one *)
  wg_public : string → string;
  wl_LinkDel l k r k' : k_LinkDel l k = (r, k') →
    no_panic r ∧ wg_of k' = if_ok r (delete (lk_Name l) (wg_of k)) (wg_of k);
  wl_LinkSetUp l : leaves wg_of (k_LinkSetUp l);
  wl_LinkSetMTU l mtu : leaves wg_of (k_LinkSetMTU l mtu);
  wl_AddrAdd l a : leaves wg_of (k_AddrAdd l a);
  wl_AddrDel l a : leaves wg_of (k_AddrDel l a);
  wl_RouteAdd x : leaves wg_of (k_RouteAdd x);
  wl_AddrList_all l k r k' : k_AddrList_all l k = (r, k') →
    k' = k ∧ no_panic r ∧ ∀ as_, r = Ok as_ → addrs_of k (lk_Index l) ⊆ as_;
  wl_RouteList_all k r k' : k_RouteList_all k = (r, k') → k' = k ∧ no_panic r;
  wl_link_add n k r k' :
    CombinedOutput "ip" ["link"; "add"; "dev"; n; "type"; "wireguard"] "" k = (r, k') →
    ∃ out oe, r = Ok (out, oe) ∧ match oe with
    | None => wg_of k' = <[n := new_device]> (wg_of k)
    | Some _ => wg_of k' = wg_of k
    end;
  wl_private_key n key k r k' :
    CombinedOutput "wg" ["set"; n; "private-key"; "/dev/stdin"] key k = (r, k') →
    ∃ out oe, r = Ok (out, oe) ∧ match oe with
    | None => ∃ d, wg_of k !! n = Some d ∧
        wg_of k' = <[n := set_private_key wg_public key d]> (wg_of k)
    | Some _ => delete n (wg_of k') = delete n (wg_of k)
    end;
  wl_listen_port n port k r k' : 0 ≤ port ≤ 65535 →
    CombinedOutput "wg" ["set"; n; "listen-port"; itoa port] "" k = (r, k') →
    ∃ out oe, r = Ok (out, oe) ∧ match oe with
    | None => ∃ d, wg_of k !! n = Some d ∧ wg_of k' = <[n := set_listen_port port d]> (wg_of k)
    | Some _ => delete n (wg_of k') = delete n (wg_of k)
    end;
  wl_peer n key opts stdin k r k' : Forall option_ok opts →
    CombinedOutput "wg" (["set"; n; "peer"; key] ++ concat (option_args <$> opts)) stdin k = (r, k') →
    ∃ out oe, r = Ok (out, oe) ∧ match oe with
    | None => ∃ d, wg_of k !! n = Some d ∧
        wg_of k' = <[n := set_peer wg_public key stdin opts d]> (wg_of k)
    | Some _ => delete n (wg_of k') = delete n (wg_of k)
    end;
  wl_dump n k r k' : CombinedOutput "wg" ["show"; n; "dump"] "" k = (r, k') →
    k' = k ∧ ∃ out oe, r = Ok (out, oe) ∧
      (oe = None → ∃ d, wg_of k !! n = Some d ∧ dump_of d out);
}.

(** ** Lemmas: reading a dump *)

Lemma fields_tab l : Forall word l → fields (join tab l) = l.
Proof. by apply fields_join. Qed.
Lemma dump_lines ls :
  ls ≠ [] → Forall (λ l, l ≠ [] ∧ Forall word l) ls →
  split newline (trim_space (dump_text ls)) = join tab <$> ls.
Proof.
  intros Hn Hls. unfold dump_text. rewrite trim_space_line.
  - apply split_join; [by destruct ls|]. apply Forall_fmap. eapply Forall_impl; [exact Hls|].
    intros l [_ Hl]. apply contains_byte_join; [done|]. eapply Forall_impl; [exact Hl|].
    intros w [_ Hw]. by apply graphic_no_byte.
  - apply framed_join; [by destruct ls|]. apply Forall_fmap. eapply Forall_impl; [exact Hls|].
    intros l [Hl Hw]. apply framed_join; [done|]. eapply Forall_impl; [exact Hw|]. apply framed_word.
Qed.

Lemma peer_lines_no_panic m ls : no_panic (peer_lines_match m ls).
Proof.
  induction ls as [|l ls IH]; [done|]. cbn [peer_lines_match]. apply no_panic_bind; [|by intros []].
  unfold peer_line_matches. cbv zeta. destruct (_ <? _)%nat; [done|].
  destruct (m !! _); [|done]. by repeat destruct (_ && _) || destruct (negb _).
Qed.
Lemma dump_matches_no_panic out desired : no_panic (dump_matches out desired).
Proof.
  unfold dump_matches. cbv zeta. destruct (_ <? _)%nat; [done|]. destruct (_ && _ && _); [done|].
  destruct (negb _); [done|]. apply peer_lines_no_panic.
Qed.

(** A dump as documented is only taken for the configuration of a device
    without peers and of one without a listen port. *)
Lemma dump_unmatched d out desired :
  dump_of d out → dump_matches out desired = Ok true →
  wd_Peers d = ∅ ∧ vi_Peers desired = [] ∧ vi_ListenPort desired ≤ 0.
Proof.
  intros (head & lines & -> & Hlen & Hhead & _ & Hmark & Hsize & Hlines). unfold dump_matches.
  rewrite dump_lines; [|done|].
  2: { constructor; [by destruct head|]. eapply Forall_impl; [exact Hlines|]. intros l [? ?]. by destruct l. }
  cbv zeta. cbn [fmap list_fmap hd tail]. rewrite fields_tab, Hlen by done. cbn [Nat.ltb Nat.leb].
  destruct (_ && _ && _) eqn:Hport; [done|].
  rewrite length_fmap. destruct (Nat.eqb_spec (length lines) (length (vi_Peers desired))) as [Hl|]; [|done].
  destruct Hlines as [|l lines [Hl8 Hlw] _]; cbn [negb fmap list_fmap peer_lines_match].
  - intros _. split_and!; [by apply map_size_empty_inv|by destruct (vi_Peers desired)|].
    destruct (Z.ltb_spec 0 (vi_ListenPort desired)) as [Hp|]; [|lia]. exfalso.
    pose proof (all_digits_itoa (vi_ListenPort desired) ltac:(lia)) as Hd.
    destruct Hmark as [Hm|[s Hm]]; rewrite Hm in Hport.
    + rewrite bool_decide_eq_false_2 in Hport by (intros E; rewrite <- E in Hd; by vm_compute in Hd). done.
    + rewrite bool_decide_eq_false_2 in Hport by (intros E; rewrite <- E in Hd; by vm_compute in Hd).
      by rewrite bool_decide_eq_false_2 in Hport by (by intros [=]).
  - unfold peer_line_matches. rewrite fields_tab, Hl8 by done. done.
Qed.

(** ** Lemmas: the peers of a device *)

(** The settings of a peer of the configuration, its networks less [taken]. *)
Definition peer_settings (taken : gset IPNet) (p : WireGuardPeer) : WgPeer :=
  {| pr_PresharedKey := wp_PresharedKey p; pr_Endpoint := wp_Endpoint p;
     pr_Keepalive := wp_PersistentKeepalive p;
     pr_AllowedIPs := networks (wp_AllowedIPs p) ∖ taken |}.
Definition networks_of (l : list WireGuardPeer) : gset IPNet :=
  ⋃ ((λ p, networks (wp_AllowedIPs p)) <$> l).
(** The peers are those of the list, with their settings, and the networks that
    no later peer of the list has. *)
Definition peers_ok (l : list WireGuardPeer) (m : gmap string WgPeer) : Prop :=
  dom m = list_to_set (wp_PublicKey <$> l) ∧
  ∀ i p, l !! i = Some p → m !! wp_PublicKey p = Some (peer_settings (networks_of (drop (S i) l)) p).
Definition device_ok (iface : VPNInterface) (d : WgDevice) : Prop :=
  wd_PrivateKey d = vi_PrivateKey iface ∧
  (0 < vi_ListenPort iface → wd_ListenPort d = vi_ListenPort iface) ∧
  peers_ok (vi_Peers iface) (wd_Peers d).

Definition peer_options (p : WireGuardPeer) : list wg_option :=
  (if nonempty (wp_PresharedKey p) then [SetPresharedKey] else []) ++
  (if nonempty (wp_Endpoint p) then [SetEndpoint (wp_Endpoint p)] else []) ++
  (if (0 <? length (wp_AllowedIPs p))%nat then [SetAllowedIPs (join "," (wp_AllowedIPs p))] else []) ++
  (if 0 <? wp_PersistentKeepalive p then [SetKeepalive (wp_PersistentKeepalive p)] else []).
Definition peer_stdin (p : WireGuardPeer) : string :=
  if nonempty (wp_PresharedKey p) then wp_PresharedKey p else "".

Lemma BuildPeerArgs_options n p :
  BuildPeerArgs n p =
    (["set"; n; "peer"; wp_PublicKey p] ++ concat (option_args <$> peer_options p),
     nonempty (wp_PresharedKey p)).
Proof.
  unfold BuildPeerArgs, peer_options, args_if. rewrite !fmap_app, !concat_app.
  f_equal. by repeat case_match.
Qed.
Lemma peer_options_ok p : vpn_peer_ok p → Forall option_ok (peer_options p).
Proof.
  intros (_ & _ & Hn & Hc & _ & Hk). unfold peer_options.
  rewrite !Forall_app; split_and!; case_match; constructor; try done.
  cbn. by rewrite split_allowed_ips.
Qed.
Lemma peer_options_settings p :
  vpn_peer_ok p → foldl (set_option (peer_stdin p)) new_peer (peer_options p) = peer_settings ∅ p.
Proof.
  intros (_ & _ & Hn & Hc & _ & Hk). unfold peer_options, peer_stdin, peer_settings.
  destruct (nonempty (wp_PresharedKey p)) eqn:E1; [|apply nonempty_false in E1];
  (destruct (nonempty (wp_Endpoint p)) eqn:E2; [|apply nonempty_false in E2]);
  (destruct (wp_AllowedIPs p) eqn:El; [done|]; cbn [length Nat.ltb Nat.leb]);
  rewrite <- El in *;
  (destruct (Z.ltb_spec 0 (wp_PersistentKeepalive p));
    [|assert (wp_PersistentKeepalive p = 0) as Hz by lia; rewrite Hz]);
  cbn -[difference join]; rewrite split_allowed_ips, difference_empty_L by done; f_equal; congruence.
Qed.

Lemma networks_of_snoc l x : networks_of (l ++ [x]) = networks_of l ∪ networks (wp_AllowedIPs x).
Proof. unfold networks_of. rewrite fmap_app, union_list_app_L. cbn. by rewrite union_empty_r_L. Qed.
Lemma without_nets_settings nets taken p :
  without_nets nets (peer_settings taken p) = peer_settings (taken ∪ nets) p.
Proof. unfold without_nets, peer_settings. cbn. f_equal. set_solver. Qed.

Lemma set_peer_ok public x l d :
  vpn_peer_ok x → peers_ok l (wd_Peers d) → wp_PublicKey x ∉ wp_PublicKey <$> l →
  wp_PublicKey x ≠ public (wd_PrivateKey d) →
  ∃ m, set_peer public (wp_PublicKey x) (peer_stdin x) (peer_options x) d = with_peers m d ∧
       peers_ok (l ++ [x]) m.
Proof.
  intros Hx [Hdom Hl] Hnew Hpub. unfold set_peer. rewrite decide_False by done.
  assert (wd_Peers d !! wp_PublicKey x = None) as ->.
  { apply not_elem_of_dom. rewrite Hdom. by rewrite elem_of_list_to_set. }
  cbn [default]. rewrite peer_options_settings by done. eexists. split; [reflexivity|]. split.
  - rewrite dom_insert_L, dom_fmap_L, Hdom, fmap_app, list_to_set_app_L. cbn. set_solver.
  - intros i p Hi. apply lookup_app_Some in Hi as [Hi|[Hi Hs]].
    + rewrite lookup_insert_ne.
      2: { intros E. apply Hnew. rewrite E. apply list_elem_of_fmap_2. by eapply list_elem_of_lookup_2. }
      rewrite lookup_fmap, (Hl i p Hi). cbn [fmap option_fmap option_map]. f_equal.
      rewrite without_nets_settings. f_equal. pose proof (lookup_lt_Some _ _ _ Hi).
      rewrite drop_app_le by lia. rewrite networks_of_snoc. cbn. set_solver.
    + apply list_lookup_singleton_Some in Hs as [Hi0 <-]. rewrite lookup_insert_eq. do 2 f_equal.
      rewrite drop_ge; [done|]. rewrite length_app. cbn. lia.
Qed.

(** ** Lemmas: the steps of applyInterface *)

Lemma SplitHostPort_no_panic s : no_panic (SplitHostPort s).
Proof.
  unfold SplitHostPort. destruct (last_index_byte colon s); [|done].
  repeat case_match; done.
Qed.

Section devices.
Context {K : Kernel} {W : Wg (H:=K)} {L : KernelLaws (H:=K)} {G : WgLaws} {R : ReadLaws (H0:=L)}.

(** A computation that leaves the devices alone. *)
Definition quiet {A} (m : M kernel A) : Prop := ∀ D, preserves (λ k, wg_of k = D) m.
Lemma quiet_leaves {A} (m : M kernel A) : leaves wg_of m → quiet m.
Proof.
  intros Hm D k <-. unfold wp. destruct (m k) as [r k'] eqn:E. apply Hm in E as [Hr Hd].
  by destruct r.
Qed.
(** One that only looks. *)
Lemma quiet_reads {A} (m : M kernel A) : (∀ k r k', m k = (r, k') → k' = k ∧ no_panic r) → quiet m.
Proof. intros Hm. apply quiet_leaves. intros k r k' E. apply Hm in E as [-> ?]. done. Qed.

Lemma quiet_ret {A} (a : A) : quiet (mret a).
Proof. intros D. apply pres_ret. Qed.
Lemma quiet_fail {A} e : quiet (fail e : M kernel A).
Proof. intros D. apply pres_fail. Qed.
Lemma quiet_lift {A} (r : res A) : no_panic r → quiet (lift r).
Proof. intros Hr D. by apply pres_lift. Qed.
Lemma quiet_bind {A B} (m : M kernel A) (f : A → M kernel B) :
  quiet m → (∀ a, quiet (f a)) → quiet (m ≫= f).
Proof. intros Hm Hf D. apply pres_bind; [apply Hm|]. intros a. apply Hf. Qed.
Lemma quiet_attempt {A} (m : M kernel A) : quiet m → quiet (attempt m).
Proof. intros Hm D. apply pres_attempt, Hm. Qed.
Lemma quiet_wrapM {A} p (m : M kernel A) : quiet m → quiet (wrapM p m).
Proof. intros Hm D. apply pres_wrapM, Hm. Qed.
Lemma quiet_for_each {A} (l : list A) (body : A → M kernel ()) :
  (∀ x, quiet (body x)) → quiet (for_each l body).
Proof. intros Hb D. apply pres_for_each. intros x _. apply Hb. Qed.
Lemma quiet_LinkByName n : quiet (k_LinkByName n).
Proof. apply quiet_reads. intros k r k' E. by apply kl_LinkByName in E as (-> & ? & _). Qed.
Lemma quiet_LinkByIndex i : quiet (k_LinkByIndex i).
Proof. apply quiet_reads. intros k r k' E. by apply rl_LinkByIndex in E as (-> & ? & _). Qed.
Lemma quiet_AddrList l : quiet (k_AddrList l).
Proof. apply quiet_reads. intros k r k' E. by apply kl_AddrList in E as (-> & ? & _). Qed.
Lemma quiet_AddrList_all l : quiet (k_AddrList_all l).
Proof. apply quiet_reads. intros k r k' E. by apply wl_AddrList_all in E as (-> & ? & _). Qed.
Lemma quiet_RouteList_all : quiet k_RouteList_all.
Proof. apply quiet_reads. intros k r k' E. by apply wl_RouteList_all in E. Qed.
Lemma quiet_LinkSetUp l : quiet (k_LinkSetUp l).
Proof. apply quiet_leaves, wl_LinkSetUp. Qed.
Lemma quiet_LinkSetMTU l mtu : quiet (k_LinkSetMTU l mtu).
Proof. apply quiet_leaves, wl_LinkSetMTU. Qed.
Lemma quiet_AddrAdd l a : quiet (k_AddrAdd l a).
Proof. apply quiet_leaves, wl_AddrAdd. Qed.
Lemma quiet_AddrDel l a : quiet (k_AddrDel l a).
Proof. apply quiet_leaves, wl_AddrDel. Qed.
Lemma quiet_RouteAdd x : quiet (k_RouteAdd x).
Proof. apply quiet_leaves, wl_RouteAdd. Qed.
Lemma quiet_ParseAddr s : quiet (lift (k_ParseAddr s)).
Proof. apply quiet_lift, rl_ParseAddr. Qed.
End devices.
Create HintDb quiet.
#[export] Hint Resolve quiet_ret quiet_fail quiet_attempt quiet_wrapM quiet_for_each
  quiet_LinkByName quiet_LinkByIndex quiet_AddrList quiet_AddrList_all quiet_RouteList_all
  quiet_LinkSetUp quiet_LinkSetMTU quiet_AddrAdd quiet_AddrDel quiet_RouteAdd quiet_ParseAddr : quiet.
(** Goes through the code: binds, loops and cases, and the calls above. *)
Ltac go_quiet := repeat match goal with
  | |- quiet (_ ≫= _) => apply quiet_bind; [|intro]
  | |- quiet (wrapM _ _) => apply quiet_wrapM
  | |- quiet (attempt _) => apply quiet_attempt
  | |- quiet (for_each _ _) => apply quiet_for_each; intro
  | |- quiet (match ?x with _ => _ end) => destruct x
  | |- quiet _ => progress (eauto 2 with quiet; [])
  end; eauto 2 with quiet.

Section steps.
Context {K : Kernel} {W : Wg (H:=K)} {L : KernelLaws (H:=K)} {G : WgLaws} {R : ReadLaws (H0:=L)}.

Lemma quiet_find_default routes best lowest : quiet (find_default routes best lowest).
Proof.
  revert best lowest. induction routes as [|x routes IH]; intros best lowest; cbn [find_default]; go_quiet; apply IH.
Qed.
Lemma quiet_addEndpointRoute e : quiet (addEndpointRoute e).
Proof.
  unfold addEndpointRoute. apply quiet_bind; [apply quiet_wrapM, quiet_lift, SplitHostPort_no_panic|].
  intros [host port]. destruct (ParseIP host); [|apply quiet_fail].
  apply quiet_bind; [apply quiet_wrapM, quiet_RouteList_all|]. intros routes.
  apply quiet_bind; [apply quiet_find_default|]. intros best. go_quiet.
Qed.
Lemma quiet_addPeerRoutes link iface : quiet (addPeerRoutes link iface).
Proof.
  apply quiet_for_each. intros p. apply quiet_for_each. intros ip. unfold add_allowed_route.
  destruct (ParseCIDR ip) as [[a n]| |]; [|apply quiet_ret..]. cbv zeta.
  apply quiet_bind; [|intro; go_quiet]. destruct (_ && _); [|apply quiet_ret].
  apply quiet_bind; [apply quiet_attempt, quiet_addEndpointRoute|intros; apply quiet_ret].
Qed.
Lemma quiet_configure_link iface : quiet (configure_link iface).
Proof.
  unfold configure_link, flushIPs, setStaticIP.
  go_quiet. apply quiet_addPeerRoutes.
Qed.
Lemma quiet_link_matches iface : quiet (link_matches iface).
Proof. unfold link_matches. go_quiet. Qed.
End steps.

Lemma indexed_snd {A} (l : list A) : (indexed l).*2 = l.
Proof. unfold indexed. rewrite fmap_imap. change (λ n, snd ∘ pair n) with (λ _ : nat, @id A). by rewrite (imap_const id), list_fmap_id. Qed.
Lemma insert_off {V} (m m' : gmap string V) n v : m' = <[n := v]> m → delete n m' = delete n m.
Proof. intros ->. by rewrite delete_insert_eq. Qed.

Section rebuild.
Context {K : Kernel} {W : Wg (H:=K)} {L : KernelLaws (H:=K)} {G : WgLaws} {R : ReadLaws (H0:=L)}.

(** Every device but [n] is as it was. *)
Definition off (n : string) (k k' : kernel) : Prop := delete n (wg_of k') = delete n (wg_of k).

Lemma run_command_wp what name args stdin k (Q E : kernel → Prop) :
  (∀ r k', CombinedOutput name args stdin k = (r, k') →
    ∃ out oe, r = Ok (out, oe) ∧ match oe with None => Q k' | Some _ => E k' end) →
  wp (run_command what name args stdin) k (λ _, Q) E.
Proof.
  intros Hc. unfold run_command. apply wp_bind. unfold wp at 1.
  destruct (CombinedOutput name args stdin k) as [r k'] eqn:Er.
  destruct (Hc r k' eq_refl) as (out & [e|] & -> & Hq); [by apply wp_fail|by apply wp_ret].
Qed.

(** What is asked of a tunnel beyond its own validation. *)
Definition tunnel_ok (iface : VPNInterface) : Prop :=
  vpn_interface_ok iface ∧ NoDup (wp_PublicKey <$> vi_Peers iface) ∧
  wg_public (vi_PrivateKey iface) ∉ wp_PublicKey <$> vi_Peers iface.
(** The device while its peers are configured. *)
Definition has_device (iface : VPNInterface) (l : list WireGuardPeer) (k k' : kernel) : Prop :=
  off (vi_DeviceName iface) k k' ∧ ∃ d, wg_of k' !! vi_DeviceName iface = Some d ∧
    wd_PrivateKey d = vi_PrivateKey iface ∧
    (0 < vi_ListenPort iface → wd_ListenPort d = vi_ListenPort iface) ∧ peers_ok l (wd_Peers d).

Lemma configurePeer_wp iface don x k k1 :
  vpn_peer_ok x → wp_PublicKey x ∉ wp_PublicKey <$> don →
  wp_PublicKey x ≠ wg_public (vi_PrivateKey iface) → has_device iface don k k1 →
  wp (configurePeer (vi_DeviceName iface) x) k1 (λ _, has_device iface (don ++ [x]) k)
    (off (vi_DeviceName iface) k).
Proof.
  intros Hx Hnew Hself (Hoff & d & Hd & Hpriv & Hport & Hpeers). unfold configurePeer.
  rewrite BuildPeerArgs_options. apply wp_bind.
  eapply wp_mono; [apply (run_command_wp _ _ _ _ _
    (has_device iface (don ++ [x]) k) (off (vi_DeviceName iface) k))| |done].
  - intros r k2 E. fold (peer_stdin x) in E. apply wl_peer in E as (out & oe & -> & Hc); [|by apply peer_options_ok].
    exists out, oe. split; [done|]. destruct oe as [e|]; [unfold off; congruence|].
    destruct Hc as (d0 & Hd0 & Hk2). rewrite Hd in Hd0. injection Hd0 as <-.
    destruct (set_peer_ok wg_public x don d) as (m & Hm & Hpm); [done..|by rewrite Hpriv|].
    split; [etrans; [by eapply insert_off|exact Hoff]|].
    exists (with_peers m d). rewrite Hk2, Hm, lookup_insert_eq. by split_and!.
  - intros [] k2 Hk2. destruct Hx as (Hlen & _).
    destruct (Nat.ltb_spec (String.length (wp_PublicKey x)) 16); [lia|]. by apply wp_ret.
Qed.

Lemma configure_peers_wp iface k k1 :
  tunnel_ok iface → has_device iface [] k k1 →
  wp (for_each (indexed (vi_Peers iface)) (λ p,
      wrapM ("failed to configure peer " +:+ itoa (Z.of_nat p.1) +:+ ": ")
        (configurePeer (vi_DeviceName iface) p.2))) k1
    (λ _, has_device iface (vi_Peers iface) k) (off (vi_DeviceName iface) k).
Proof.
  intros (Hok & Hnd & Hself) Hk1.
  assert (Forall vpn_peer_ok (vi_Peers iface)) as Hps by apply Hok.
  eapply wp_mono; [apply (wp_for_each (λ don todo k', don ++ todo = indexed (vi_Peers iface) ∧
    has_device iface don.*2 k k') (off (vi_DeviceName iface) k) _ _ []); [done|]| |done].
  - intros don [i x] todo k2 [Hl Hk2]. apply wp_wrapM.
    assert (vi_Peers iface = don.*2 ++ x :: todo.*2) as Hv
      by (rewrite <- (indexed_snd (vi_Peers iface)), <- Hl, fmap_app; done).
    rewrite Hv in Hps, Hnd, Hself. apply Forall_app in Hps as [_ [Hx _]%Forall_cons].
    rewrite fmap_app, fmap_cons in Hnd, Hself. apply NoDup_app in Hnd as (_ & Hnd & _).
    eapply wp_mono; [apply (configurePeer_wp iface don.*2)|..]; try done.
    + intros Hin. apply (Hnd _ Hin). by left.
    + intros E. apply Hself. rewrite <- E. apply elem_of_app. right. by left.
    + cbn. intros _ k3 Hk3. rewrite fmap_app, <- app_assoc. by split.
  - intros [] k2 [_ Hk2]. rewrite app_nil_l, indexed_snd in Hk2. done.
Qed.

Lemma create_device_wp iface k :
  tunnel_ok iface →
  wp (create_device iface) k (λ _, has_device iface (vi_Peers iface) k) (off (vi_DeviceName iface) k).
Proof.
  intros Hok. unfold create_device. set (n := vi_DeviceName iface).
  apply wp_bind. eapply wp_mono; [apply (run_command_wp _ _ _ _ _
    (λ k', wg_of k' = <[n := new_device]> (wg_of k)) (off n k))| |done].
  { intros r k' E. apply wl_link_add in E as (out & oe & -> & Hc). exists out, oe. split; [done|].
    destruct oe; [unfold off; congruence|done]. }
  cbn. intros _ k1 Hk1. assert (off n k k1) as Ho1 by by eapply insert_off.
  apply wp_bind. eapply wp_mono; [apply (run_command_wp _ _ _ _ _
    (λ k', wg_of k' = <[n := set_private_key wg_public (vi_PrivateKey iface) new_device]> (wg_of k1))
    (off n k))| |done].
  { intros r k' E. apply wl_private_key in E as (out & oe & -> & Hc). exists out, oe. split; [done|].
    destruct oe; [unfold off; congruence|]. destruct Hc as (d & Hd & Hc).
    rewrite Hk1, lookup_insert_eq in Hd. injection Hd as <-. done. }
  cbn. intros _ k2 Hk2. assert (off n k k2) as Ho2
    by (etrans; [by eapply insert_off|exact Ho1]).
  assert (∀ port k', wg_of k' = <[n := set_listen_port port
      (set_private_key wg_public (vi_PrivateKey iface) new_device)]> (wg_of k2) →
    (0 < vi_ListenPort iface → port = vi_ListenPort iface) → has_device iface [] k k') as Hdev.
  { intros port k' Hk' Hp. split; [etrans; [by eapply insert_off|exact Ho2]|].
    eexists. split; [by rewrite Hk', lookup_insert_eq|]. cbn. split_and!; [done..|].
    rewrite delete_empty. by split. }
  apply wp_bind. apply (wp_mono _ _ (λ _ k', has_device iface [] k k') _ (off n k));
    [|intros [] k3 Hk3; by apply configure_peers_wp|done].
  assert (vpn_interface_ok iface) as (_ & _ & _ & _ & Hport & _) by apply Hok.
  destruct (Z.ltb_spec 0 (vi_ListenPort iface)).
  - apply run_command_wp. intros r k' E. apply wl_listen_port in E as (out & oe & -> & Hc); [|done].
    exists out, oe. split; [done|]. destruct oe; [unfold off; congruence|].
    destruct Hc as (d & Hd & Hc). rewrite Hk2, lookup_insert_eq in Hd. injection Hd as <-.
    by eapply Hdev.
  - apply wp_ret. apply (Hdev 0); [|lia]. rewrite Hk2. unfold set_listen_port. cbn.
    by rewrite insert_insert_eq.
Qed.
End rebuild.

(** ** Lemmas: applying a configuration *)

Section apply.
Context {K : Kernel} {W : Wg (H:=K)} {L : KernelLaws (H:=K)} {G : WgLaws} {R : ReadLaws (H0:=L)}.

(** netlink finds a device that exists. *)
Definition finds_devices : Prop :=
  ∀ n k e k', k_LinkByName n k = (Err e, k') → wg_of k !! n = None.
(** The device has the configuration of the tunnel; or it was there, without
    peers, and none was configured. *)
Definition configured (iface : VPNInterface) (before after : option WgDevice) : Prop :=
  ∃ d, after = Some d ∧
  (device_ok iface d ∨
   before = Some d ∧ wd_Peers d = ∅ ∧ vi_Peers iface = [] ∧ vi_ListenPort iface ≤ 0).
(** What is left of a tunnel that was applied. *)
Definition tunnel_done (iface : VPNInterface) (before after : option WgDevice) : Prop :=
  if vi_Enabled iface then configured iface before after else finds_devices → after = None.

Lemma off_lookup n k k' m : off n k k' → m ≠ n → wg_of k' !! m = wg_of k !! m.
Proof. intros Ho Hm. rewrite <- (lookup_delete_ne (wg_of k') n m), Ho by done. by apply lookup_delete_ne. Qed.
Lemma off_same n k k' : wg_of k' = wg_of k → off n k k'.
Proof. unfold off. by intros ->. Qed.
Lemma off_trans n k1 k2 k3 : off n k1 k2 → off n k2 k3 → off n k1 k3.
Proof. unfold off. congruence. Qed.

Lemma quiet_wp {A} (m : M kernel A) k :
  quiet m → wp m k (λ _ k', wg_of k' = wg_of k) (λ k', wg_of k' = wg_of k).
Proof. intros Hm. exact (Hm (wg_of k) k eq_refl). Qed.

Lemma interfaceConfigMatches_wp iface k :
  wp (interfaceConfigMatches iface) k (λ b k', wg_of k' = wg_of k ∧
      (b = true → configured iface (wg_of k !! vi_DeviceName iface) (wg_of k !! vi_DeviceName iface)))
    (λ k', wg_of k' = wg_of k).
Proof.
  unfold interfaceConfigMatches. apply wp_bind. unfold wp at 1.
  destruct (CombinedOutput "wg" ["show"; vi_DeviceName iface; "dump"] "" k) as [r k'] eqn:E.
  apply wl_dump in E as (-> & out & [e|] & -> & Hd); [by apply wp_fail|].
  destruct (Hd eq_refl) as (d & Hk & Hdump). apply wp_bind, wp_lift.
  destruct (dump_matches out iface) as [[|]|e|w] eqn:Hm; [|by apply wp_ret|done|].
  - destruct (dump_unmatched d out iface Hdump Hm) as (Hd0 & Hp & Hl).
    eapply wp_mono; [apply quiet_wp, quiet_link_matches| |done].
    cbn. intros b k' Hk'. split; [done|]. intros _. exists d. split; [done|]. by right.
  - pose proof (dump_matches_no_panic out iface) as Hp. by rewrite Hm in Hp.
Qed.

Lemma rebuild_wp iface k :
  tunnel_ok iface →
  wp (rebuild iface) k (λ _, has_device iface (vi_Peers iface) k) (off (vi_DeviceName iface) k).
Proof.
  intros Hok. unfold rebuild. apply wp_bind. eapply wp_mono; [by apply create_device_wp| |done].
  intros [] k1 Hk1. eapply wp_mono; [apply quiet_wp, quiet_configure_link|..].
  - intros [] k2 Hk2. unfold has_device, off. by rewrite Hk2.
  - intros k2 Hk2. unfold off. rewrite Hk2. apply Hk1.
Qed.
Lemma has_device_configured iface k k' before :
  has_device iface (vi_Peers iface) k k' → configured iface before (wg_of k' !! vi_DeviceName iface).
Proof. intros (_ & d & Hd & ? & ? & ?). exists d. split; [done|]. by left. Qed.

Lemma LinkDel_wp n l k :
  lk_Name l = n →
  wp (k_LinkDel l) k (λ _ k', wg_of k' = delete n (wg_of k)) (off n k).
Proof.
  intros <-. unfold wp. destruct (k_LinkDel l k) as [r k'] eqn:E. apply wl_LinkDel in E as [Hr Hd].
  destruct r; cbn in Hd; [done| |done]. by apply off_same.
Qed.
Lemma LinkByName_wp n k (Q : res Link → kernel → Prop) E :
  (∀ l, lk_Name l = n → Q (Ok l) k) → (∀ e, k_LinkByName n k = (Err e, k) → Q (Err e) k) →
  wp (attempt (k_LinkByName n)) k Q E.
Proof.
  intros Hq He. unfold wp, attempt. destruct (k_LinkByName n k) as [r k'] eqn:El.
  pose proof El as (-> & Hr & Hl)%kl_LinkByName. destruct r as [l|e|]; [|by apply He|done].
  apply Hq. by destruct (Hl l eq_refl).
Qed.

Lemma applyInterface_wp iface k :
  tunnel_ok iface →
  let n := vi_DeviceName iface in
  wp (applyInterface iface) k
    (λ _ k', off n k k' ∧ configured iface (wg_of k !! n) (wg_of k' !! n)) (off n k).
Proof.
  intros Hok n. unfold applyInterface. apply wp_bind.
  assert (∀ k1, off n k k1 → wp (rebuild iface) k1
    (λ _ k', off n k k' ∧ configured iface (wg_of k !! n) (wg_of k' !! n)) (off n k)) as Hre.
  { intros k1 Hk1. eapply wp_mono; [by apply rebuild_wp|..].
    - intros [] k2 Hk2. split; [eapply off_trans; [done|apply Hk2]|by eapply has_device_configured].
    - intros k2 Hk2. by eapply off_trans. }
  apply LinkByName_wp; [|by intros e _; apply Hre]. intros l Hl. apply wp_bind, wp_attempt.
  assert (∀ k1, wg_of k1 = wg_of k → wp (wrapM "failed to delete existing interface: " (k_LinkDel l)
      ≫= λ _, rebuild iface) k1
    (λ _ k', off n k k' ∧ configured iface (wg_of k !! n) (wg_of k' !! n)) (off n k)) as Hdel.
  { intros k1 Hk1. apply wp_bind, wp_wrapM. eapply wp_mono; [by apply (LinkDel_wp n)|..].
    - intros [] k2 Hk2. apply Hre. unfold off. rewrite Hk2, Hk1. apply delete_delete_eq.
    - intros k2 Hk2. unfold off in *. congruence. }
  eapply wp_mono; [apply interfaceConfigMatches_wp|..]; cbn.
  - intros [|] k1 [Hk1 Hc]; [|by apply Hdel]. apply wp_wrapM.
    eapply wp_mono; [apply quiet_wp, quiet_addPeerRoutes|..]; cbn.
    + intros _ k2 Hk2. rewrite Hk2, Hk1. split; [apply off_same; congruence|by apply Hc].
    + intros k2 Hk2. apply off_same. congruence.
  - intros k1 Hk1 e. by apply Hdel.
Qed.

Lemma apply_tunnel_wp p k :
  (vi_Enabled p.2 = true → tunnel_ok p.2) →
  let n := vi_DeviceName p.2 in
  wp (apply_tunnel p) k
    (λ _ k', off n k k' ∧ tunnel_done p.2 (wg_of k !! n) (wg_of k' !! n)) (off n k).
Proof.
  intros Hok n. unfold apply_tunnel, tunnel_done. destruct (vi_Enabled p.2) eqn:He; cbn [negb].
  { apply wp_wrapM, applyInterface_wp. by apply Hok. }
  unfold removeDisabled. apply wp_bind. apply LinkByName_wp.
  - intros l Hl. apply wp_wrapM. eapply wp_mono; [by apply (LinkDel_wp n)| |done].
    intros [] k' Hk'. rewrite Hk', lookup_delete_eq. split; [|done].
    unfold off. rewrite Hk'. apply delete_delete_eq.
  - intros e E. apply wp_ret. split; [done|]. intros Hf. by eapply Hf.
Qed.
End apply.

(** A device with peers does not compare equal, and comparing it changes nothing. *)
Lemma peers_do_not_match {K : Kernel} {W : Wg (H:=K)} {L : KernelLaws (H:=K)} {G : WgLaws} iface k d :
  wg_of k !! vi_DeviceName iface = Some d → wd_Peers d ≠ ∅ →
  ∃ r, interfaceConfigMatches iface k = (r, k) ∧ no_panic r ∧ r ≠ Ok true.
Proof.
  intros Hd Hp. unfold interfaceConfigMatches, mbind at 1, M_bind at 1.
  destruct (CombinedOutput "wg" ["show"; vi_DeviceName iface; "dump"] "" k) as [r k'] eqn:E.
  apply wl_dump in E as (-> & out & [e|] & -> & Hdump); [by eexists|].
  destruct (Hdump eq_refl) as (d' & Hd' & Ho). rewrite Hd in Hd'. injection Hd' as <-.
  pose proof (dump_matches_no_panic out iface) as Hnp. unfold mbind, M_bind, lift.
  destruct (dump_matches out iface) as [[|]|e|w] eqn:Hm; [|by eexists|by eexists|done].
  by destruct (dump_unmatched d out iface Ho Hm) as [? _].
Qed.

(** The default route the loop picks: one with a gateway over a link that can be
    looked up and is no tunnel, of the lowest metric below 999999, the first of
    those with the same. *)
Section endpoint.
Context {K : Kernel} {W : Wg (H:=K)} {L : KernelLaws (H:=K)} {R : ReadLaws (H0:=L)}.
Definition candidate (k : kernel) (x : NRoute) (l : Link) : Prop :=
  default_dst (nr_Dst x) = true ∧ nr_Gw x ≠ [] ∧ k_LinkByIndex (nr_LinkIndex x) k = (Ok l, k) ∧
  lk_Type l ≠ "wireguard".
Definition best_default (k : kernel) (routes : list NRoute) (bound : Z) (x : NRoute) (l : Link) : Prop :=
  ∃ before after, routes = before ++ x :: after ∧ candidate k x l ∧ nr_Priority x < bound ∧
  (∀ y l', y ∈ before → candidate k y l' → nr_Priority x < nr_Priority y) ∧
  ∀ y l', y ∈ after → candidate k y l' → nr_Priority x ≤ nr_Priority y.
Lemma find_default_spec k routes best bound :
  ∃ b, find_default routes best bound k = (Ok b, k) ∧
    ((b = best ∧ ∀ y l, y ∈ routes → candidate k y l → bound ≤ nr_Priority y) ∨
     ∃ x l, b = Some (nr_Gw x, l) ∧ best_default k routes bound x l).
Proof.
  revert best bound. induction routes as [|x routes IH]; intros best bound; cbn [find_default].
  { exists best. split; [done|]. left. split; [done|]. by intros y l ?%elem_of_nil. }
  assert ((∀ l, candidate k x l → bound ≤ nr_Priority x) →
    ∃ b, find_default routes best bound k = (Ok b, k) ∧
      ((b = best ∧ ∀ y l, y ∈ x :: routes → candidate k y l → bound ≤ nr_Priority y) ∨
       ∃ x' l, b = Some (nr_Gw x', l) ∧ best_default k (x :: routes) bound x' l)) as Hskip.
  { intros Hx. destruct (IH best bound) as (b & E & Hb). exists b. split; [exact E|].
    destruct Hb as [[Hb Hr]|(y & l & Hb & before & after & Hl & Hc & Hlt & Hbef & Haft)]; [left|right].
    - split; [done|]. intros y l [->|Hy]%elem_of_cons Hc; [by eapply Hx|by eapply Hr].
    - exists y, l. split; [done|]. exists (x :: before), after. split_and!; [by rewrite Hl|done..| |done].
      intros z l' [->|Hz]%elem_of_cons Hc'; [|by eapply Hbef]. specialize (Hx _ Hc'). lia. }
  destruct (default_dst (nr_Dst x) && negb (bool_decide (nr_Gw x = [])) && (nr_Priority x <? bound)) eqn:Hif.
  2: { apply Hskip. intros l (Hd & Hg & _). rewrite Hd, bool_decide_eq_false_2 in Hif by done.
       cbn in Hif. by apply Z.ltb_ge in Hif. }
  apply andb_true_iff in Hif as [[Hd Hg%negb_true_iff%bool_decide_eq_false]%andb_true_iff Hlt%Z.ltb_lt].
  unfold mbind, M_bind, attempt. destruct (k_LinkByIndex (nr_LinkIndex x) k) as [r k'] eqn:E.
  pose proof E as (-> & Hr & _)%rl_LinkByIndex. destruct r as [l|e|]; [| |done].
  2: { apply Hskip. intros l (_ & _ & Hl & _). congruence. }
  case_bool_decide as Ht; cbn [negb].
  { apply Hskip. intros l' (_ & _ & Hl & Ht'). congruence. }
  assert (candidate k x l) as Hc by done.
  destruct (IH (Some (nr_Gw x, l)) (nr_Priority x)) as (b & Eb & Hb). exists b. split; [exact Eb|]. right.
  destruct Hb as [[-> Hall]|(y & l' & -> & before & after & Hl & Hc' & Hlt' & Hbef & Haft)].
  - exists x, l. split; [done|]. exists [], routes. split_and!; [done..| |done]. by intros y l' ?%elem_of_nil.
  - exists y, l'. split; [done|]. exists (x :: before), after. split_and!; [by rewrite Hl|done|lia| |done].
    intros z lz [->|Hz]%elem_of_cons Hcz; [lia|by eapply Hbef].
Qed.
End endpoint.

Section apply_config.
Context {K : Kernel} {W : Wg (H:=K)} {L : KernelLaws (H:=K)} {G : WgLaws} {R : ReadLaws (H0:=L)}.
Context `{RangeOrder}.

Lemma apply_tunnels_wp (l : list (string * VPNInterface)) k :
  NoDup (vi_DeviceName <$> l.*2) → Forall (λ p, vi_Enabled p.2 = true → tunnel_ok p.2) l →
  wp (for_each l apply_tunnel) k
    (λ _ k', (∀ n, n ∉ vi_DeviceName <$> l.*2 → wg_of k' !! n = wg_of k !! n) ∧
      Forall (λ p, tunnel_done p.2 (wg_of k !! vi_DeviceName p.2) (wg_of k' !! vi_DeviceName p.2)) l)
    (λ k', ∀ n, n ∉ vi_DeviceName <$> l.*2 → wg_of k' !! n = wg_of k !! n).
Proof.
  intros Hnd Hok.
  eapply wp_mono; [apply (wp_for_each (λ don todo k', don ++ todo = l ∧
    (∀ n, n ∉ vi_DeviceName <$> don.*2 → wg_of k' !! n = wg_of k !! n) ∧
    Forall (λ p, tunnel_done p.2 (wg_of k !! vi_DeviceName p.2) (wg_of k' !! vi_DeviceName p.2)) don)
    (λ k', ∀ n, n ∉ vi_DeviceName <$> l.*2 → wg_of k' !! n = wg_of k !! n) _ _ []); [done|]| |done].
  - intros don x todo k1 (Hl & Hoff & Hdone). rewrite <- Hl in Hnd, Hok |- *.
    apply Forall_app in Hok as [_ [Hx _]%Forall_cons].
    rewrite !fmap_app in *. apply NoDup_app in Hnd as (_ & Hnd & _).
    assert (vi_DeviceName x.2 ∉ vi_DeviceName <$> don.*2) as Hnew by (intros Hin; apply (Hnd _ Hin); by left).
    eapply wp_mono; [by apply apply_tunnel_wp|..].
    + intros [] k2 [Ho Hd]. rewrite Hoff in Hd by done. split_and!; [by rewrite <- app_assoc|..].
      * intros n Hn. apply not_elem_of_app in Hn as [Hn Hnx].
        rewrite (off_lookup _ _ _ _ Ho); [by apply Hoff|]. intros ->. apply Hnx. by left.
      * apply Forall_app. split; [|by repeat constructor]. apply Forall_forall. intros q Hq.
        rewrite Forall_forall in Hdone. specialize (Hdone q Hq).
        rewrite (off_lookup _ _ _ _ Ho); [done|]. intros E. apply Hnew. rewrite <- E.
        by apply list_elem_of_fmap_2, list_elem_of_fmap_2.
    + intros k2 Ho n Hn. apply not_elem_of_app in Hn as [Hn Hnx].
      rewrite (off_lookup _ _ _ _ Ho); [by apply Hoff|]. intros ->. apply Hnx. by left.
  - cbn. intros _ k' (_ & ? & ?). done.
Qed.

(** The tunnels of a configuration that may be applied together. *)
Definition tunnels_ok (m : gmap string VPNInterface) : Prop :=
  (∀ name iface, m !! name = Some iface → vi_Enabled iface = true →
    NoDup (wp_PublicKey <$> vi_Peers iface) ∧
    wg_public (vi_PrivateKey iface) ∉ wp_PublicKey <$> vi_Peers iface) ∧
  ∀ name1 name2 i1 i2, m !! name1 = Some i1 → m !! name2 = Some i2 →
    vi_DeviceName i1 = vi_DeviceName i2 → name1 = name2.

Lemma device_names_NoDup (m : gmap string VPNInterface) :
  (∀ name1 name2 i1 i2, m !! name1 = Some i1 → m !! name2 = Some i2 →
    vi_DeviceName i1 = vi_DeviceName i2 → name1 = name2) →
  NoDup (vi_DeviceName <$> (range m).*2).
Proof.
  intros Hinj. pose proof (range_NoDup m) as Hnd. assert (∀ p, p ∈ range m → m !! p.1 = Some p.2) as Hel
    by (intros [a b]; apply range_elem). revert Hnd Hel. generalize (range m). intros l.
  induction l as [|p l IH]; cbn; [constructor|]. intros [Hp Hnd]%NoDup_cons Hel. constructor.
  - intros (i & Hi & (q & -> & Hq)%list_elem_of_fmap)%list_elem_of_fmap. apply Hp.
    rewrite (Hinj p.1 q.1 p.2 q.2); [by apply list_elem_of_fmap_2|apply Hel; by left|apply Hel; by right|done].
  - apply IH; [done|]. intros q Hq. apply Hel. by right.
Qed.


End apply_config.

(** An existing WireGuard device with peers is deleted and built anew by
    every application of its tunnel's configuration, also when it has exactly
    that configuration: the dump of [wg show] never passes the comparison. *)
Theorem device_with_peers_is_rebuilt {K : Kernel} {W : Wg (H:=K)} {L : KernelLaws (H:=K)} {G : WgLaws}
    iface link k d :
  k_LinkByName (vi_DeviceName iface) k = (Ok link, k) →
  wg_of k !! vi_DeviceName iface = Some d → wd_Peers d ≠ ∅ →
  applyInterface iface k =
    (wrapM "failed to delete existing interface: " (k_LinkDel link) ≫= λ _, rebuild iface) k.
Proof.
  intros Hl Hd Hp. destruct (peers_do_not_match iface k d Hd Hp) as (r & E & Hr & Hne).
  unfold applyInterface. rewrite (bind_eq _ _ _ _ _ (attempt_eq _ _ _ _ Hl I)).
  rewrite (bind_eq _ _ _ _ _ (attempt_eq _ _ _ _ E Hr)).
  by destruct r as [[|]| |].
Qed.

(** The route to the endpoint of a tunnel that takes the default route goes
    through the gateway of the best default route: the one with the lowest metric
    (the first of several) among those that have a gateway and whose link is
    known and no tunnel.  Without one below metric 999999 nothing is added. *)
Theorem addEndpointRoute_spec {K : Kernel} {W : Wg (H:=K)} {L : KernelLaws (H:=K)} {R : ReadLaws (H0:=L)}
    endpoint host port ip routes k :
  SplitHostPort endpoint = Ok (host, port) → ParseIP host = Some ip →
  k_RouteList_all k = (Ok routes, k) →
  ((∀ y l, y ∈ routes → candidate k y l → 999999 ≤ nr_Priority y) ∧
   addEndpointRoute endpoint k = (Err (ErrorText "no default gateway found"), k)) ∨
  ∃ x l, best_default k routes 999999 x l ∧
    addEndpointRoute endpoint k =
      match k_RouteAdd (new_route {| net_IP := ip; net_Mask := CIDRMask 32 32 |}
              (nr_Gw x) (lk_Index l) 0 0) k with
      | (Err e, k') => (if file_exists e then Ok () else Err (Wrapf "failed to add endpoint route: " e), k')
      | (r, k') => (r, k')
      end.
Proof.
  intros Hs Hip Hr. unfold addEndpointRoute. rewrite Hs.
  change (wrapM ?p (lift (Ok ?a)) ≫= ?f) with (λ s, f a s). cbv beta match. rewrite Hip.
  rewrite (bind_wrap_eq _ _ _ _ _ _ Hr).
  destruct (find_default_spec k routes None 999999) as (b & E & Hb). rewrite (bind_eq _ _ _ _ _ E).
  destruct Hb as [[-> Hb]|(x & l & -> & Hb)]; [left; by split|right]. exists x, l. split; [done|].
  unfold mbind, M_bind, attempt.
  destruct (k_RouteAdd _ k) as [[[]|e|w] k'] eqn:Ea; [done| |done]. by destruct (file_exists e).
Qed.

(** ** A machine in memory: [memory_kernel] with WireGuard devices beside it *)

Definition WgMemory : Type := Memory * gmap string WgDevice.
Definition on_memory {A} (m : M Memory A) : M WgMemory A := λ s,
  match m s.1 with (r, k) => (r, (k, s.2)) end.
Definition drop_device (n : string) (m : gmap string WgDevice) : gmap string WgDevice := delete n m.
Definition wg_kernel_in_memory : Kernel :=
  let K := memory_kernel in {|
  kernel := WgMemory;
  k_LinkByName n := on_memory (@k_LinkByName K n);
  k_LinkByIndex i := on_memory (@k_LinkByIndex K i);
  k_LinkList := on_memory (@k_LinkList K);
  k_LinkAdd l := on_memory (@k_LinkAdd K l);
  k_LinkDel l := λ s, match @k_LinkDel K l s.1 with
    | (Ok _, k) => (Ok (), (k, drop_device (lk_Name l) s.2))
    | (r, k) => (r, (k, s.2))
    end;
  k_LinkSetUp l := on_memory (@k_LinkSetUp K l);
  k_LinkSetDown l := on_memory (@k_LinkSetDown K l);
  k_LinkSetMTU l mtu := on_memory (@k_LinkSetMTU K l mtu);
  k_LinkSetMaster l m := on_memory (@k_LinkSetMaster K l m);
  k_LinkSetNoMaster l := on_memory (@k_LinkSetNoMaster K l);
  k_AddrList l := on_memory (@k_AddrList K l);
  k_AddrAdd l a := on_memory (@k_AddrAdd K l a);
  k_AddrDel l a := on_memory (@k_AddrDel K l a);
  k_RouteAdd x := on_memory (@k_RouteAdd K x);
  k_RouteDel x := on_memory (@k_RouteDel K x);
  k_RouteList l := on_memory (@k_RouteList K l);
  k_ParseAddr := @k_ParseAddr K;
  k_ReadFile p := on_memory (@k_ReadFile K p);
  k_WriteFile p s := on_memory (@k_WriteFile K p s);
  k_CreateTemp dir pattern := on_memory (@k_CreateTemp K dir pattern);
  k_Remove p := on_memory (@k_Remove K p);
  k_Run c args := on_memory (@k_Run K c args);
  k_LookPath p := on_memory (@k_LookPath K p);
  k_Command c args := on_memory (@k_Command K c args);
|}.

(** The programs: the arguments are read back as options. *)
Fixpoint parse_options (args : list string) : option (list wg_option) :=
  match args with
  | [] => Some []
  | what :: arg :: args =>
      o ← (if bool_decide (what = "preshared-key") then Some SetPresharedKey
           else if bool_decide (what = "endpoint") then Some (SetEndpoint arg)
           else if bool_decide (what = "allowed-ips") then Some (SetAllowedIPs arg)
           else if bool_decide (what = "persistent-keepalive") then
             match atoi arg with Ok n => Some (SetKeepalive n) | _ => None end
           else None);
      os ← parse_options args; Some (o :: os)
  | _ => None
  end.
Definition sample_public (private : string) : string := "public key of " +:+ private.
Definition wg_set (args : list string) (stdin : string) (d : WgDevice) : option WgDevice :=
  match args with
  | what :: arg :: args =>
      if bool_decide (what = "private-key") then Some (set_private_key sample_public stdin d)
      else if bool_decide (what = "listen-port") then
        match atoi arg with Ok n => Some (set_listen_port n d) | _ => None end
      else if bool_decide (what = "peer") then
        opts ← parse_options args; Some (set_peer sample_public arg stdin opts d)
      else None
  | _ => None
  end.
Definition or_none (w : string) : string := if nonempty w && all_graphic w then w else "(none)".
Definition peer_fields (p : string * WgPeer) : list string :=
  or_none <$> [p.1; pr_PresharedKey p.2; pr_Endpoint p.2;
    join "," (IPNet_String <$> elements (pr_AllowedIPs p.2)); "0"; "0"; "0"; itoa (pr_Keepalive p.2)].
Definition wg_dump (d : WgDevice) : string :=
  dump_text ([or_none (wd_PrivateKey d); "(hidden)"; itoa (wd_ListenPort d); "off"] ::
             (peer_fields <$> map_to_list (wd_Peers d))).
Definition no_device : string * option error := ("", Some (errno "no such device")).
Definition wg_programs (name : string) (args : list string) (stdin : string)
  : M WgMemory (string * option error) := λ s,
  match args with
  | what :: n :: rest =>
      if bool_decide (name = "ip") then
        match rest with
        | _ :: n :: _ =>
            match mem_LinkAdd {| lk_Index := 0; lk_Name := n; lk_MTU := 1420; lk_MasterIndex := 0;
                lk_ParentIndex := 0; lk_Up := false; lk_Type := "wireguard"; lk_VlanId := 0;
                lk_Loopback := false |} s.1 with
            | (Ok _, k) => (Ok ("", None), (k, <[n := new_device]> s.2))
            | (_, k) => (Ok no_device, (k, s.2))
            end
        | _ => (Ok no_device, s)
        end
      else match s.2 !! n with
      | None => (Ok no_device, s)
      | Some d =>
          if bool_decide (what = "show") then (Ok (wg_dump d, None), s)
          else match wg_set rest stdin d with
          | Some d => (Ok ("", None), (s.1, <[n := d]> s.2))
          | None => (Ok no_device, s)
          end
      end
  | _ => (Ok no_device, s)
  end.
Definition wg_in_memory : Wg (H:=wg_kernel_in_memory) := {|
  CombinedOutput := wg_programs : string → list string → string →
    M (@kernel wg_kernel_in_memory) (string * option error);
  k_AddrList_all l := on_memory (@k_AddrList memory_kernel l) : M (@kernel wg_kernel_in_memory) _;
  k_RouteList_all := on_memory (@k_RouteList memory_kernel None) : M (@kernel wg_kernel_in_memory) _;
|}.

Lemma on_memory_inv {A} (m : M Memory A) s r s' :
  on_memory m s = (r, s') → m s.1 = (r, s'.1) ∧ s'.2 = s.2.
Proof. unfold on_memory. destruct (m s.1) as [r0 k]. by intros [= <- <-]. Qed.
Lemma on_memory_reads {A} (m : M Memory A) s r s' (P : Prop) :
  (∀ k', m s.1 = (r, k') → k' = s.1 ∧ P) → on_memory m s = (r, s') → s' = s ∧ P.
Proof.
  intros Hm (E & Hs)%on_memory_inv. destruct (Hm _ E) as [Hk HP]. split; [|done].
  destruct s, s'. cbn in *. congruence.
Qed.
Lemma on_memory_leaves {A} (m : M Memory A) :
  (∀ k, no_panic (m k).1) → leaves snd (on_memory m).
Proof. intros Hm s r s' (E & ->)%on_memory_inv. split; [|done]. specialize (Hm s.1). by rewrite E in Hm. Qed.

Definition wg_memory_laws : KernelLaws (H:=wg_kernel_in_memory).
Proof.
  refine (@Build_KernelLaws wg_kernel_in_memory (λ s, mem_links s.1) (λ s i, mem_addrs s.1 i)
    (λ s, mem_routes s.1) _ _ _ _ _ _).
  - intros n s r s'. apply on_memory_reads. intros k'. apply (kl_LinkByName (KernelLaws:=memory_laws)).
  - intros s r s'. apply on_memory_reads. intros k'. apply (kl_LinkList (KernelLaws:=memory_laws)).
  - intros l s r s'. apply on_memory_reads. intros k'. apply (kl_AddrList (KernelLaws:=memory_laws)).
  - intros s r s'. apply on_memory_reads. intros k'. apply (kl_RouteList (KernelLaws:=memory_laws)).
  - intros x s r s' [E _]%on_memory_inv. by apply (kl_RouteAdd (KernelLaws:=memory_laws)) in E.
  - intros x s r s' [E _]%on_memory_inv. by apply (kl_RouteDel (KernelLaws:=memory_laws)) in E.
Defined.
Lemma wg_memory_read_laws : ReadLaws (H0:=wg_memory_laws).
Proof.
  split.
  - intros i s r s'. apply on_memory_reads. intros k'.
    apply (rl_LinkByIndex (ReadLaws:=memory_read_laws)).
  - intros l s r s'. apply on_memory_reads. intros k'. apply (rl_RouteList (ReadLaws:=memory_read_laws)).
  - intros p s r s'. apply on_memory_reads. intros k'. apply (rl_ReadFile (ReadLaws:=memory_read_laws)).
  - intros s r s'. apply on_memory_reads. intros k'. apply (rl_list_table (ReadLaws:=memory_read_laws)).
  - apply (rl_ParseAddr (ReadLaws:=memory_read_laws)).
Qed.

Lemma parse_options_args opts :
  Forall option_ok opts → parse_options (concat (option_args <$> opts)) = Some opts.
Proof.
  induction 1 as [|o opts Ho _ IH]; [done|]. destruct o; cbn -[atoi itoa]; [by rewrite IH..|].
  rewrite atoi_itoa by (cbn in Ho; unfold min_int64, max_int64; lia). cbn. by rewrite IH.
Qed.
Lemma or_none_word w : word (or_none w).
Proof.
  unfold or_none. destruct (nonempty w && all_graphic w) eqn:E; [|by split].
  apply andb_true_iff in E as [Hn Hg]. by apply nonempty_true in Hn.
Qed.
Lemma wg_dump_of d : dump_of d (wg_dump d).
Proof.
  exists [or_none (wd_PrivateKey d); "(hidden)"; itoa (wd_ListenPort d); "off"],
    (peer_fields <$> map_to_list (wd_Peers d)).
  split_and!; [done|done| |done|by left|by rewrite length_fmap, length_map_to_list|].
  - repeat constructor; try done; [apply or_none_word..| |]; apply itoa_word.
  - apply Forall_fmap, Forall_true. intros p. split; [done|]. unfold peer_fields.
    apply Forall_fmap, Forall_true. intros w. apply or_none_word.
Qed.

Definition wg_memory_wg_laws : WgLaws (K:=wg_kernel_in_memory) (W:=wg_in_memory) (L:=wg_memory_laws).
Proof.
  refine (@Build_WgLaws wg_kernel_in_memory wg_in_memory wg_memory_laws snd sample_public
    _ _ _ _ _ _ _ _ _ _ _ _ _).
  - intros l s r s'. cbn. unfold link_op. destruct (existsb _ _); by intros [= <- <-].
  - intros l. apply on_memory_leaves. intros k. cbn. unfold link_op. by case_match.
  - intros l mtu. apply on_memory_leaves. intros k. cbn. unfold link_op. by case_match.
  - intros l a. apply on_memory_leaves. intros k. cbn. by case_decide.
  - intros l a. apply on_memory_leaves. intros k. cbn. by case_decide.
  - intros x. apply on_memory_leaves. intros k. cbn. by case_decide.
  - intros l s r s'. apply on_memory_reads. intros k' (-> & Hr & Ha)%(kl_AddrList (KernelLaws:=memory_laws)).
    split_and!; [done..|]. by intros as_ ->%Ha.
  - intros s r s'. apply on_memory_reads. by intros k' (-> & Hr & _)%(kl_RouteList (KernelLaws:=memory_laws)).
  - intros n s r s'. cbn. unfold wg_programs. cbn -[mem_LinkAdd].
    destruct (mem_LinkAdd _ _) as [[[]| |] k]; intros [= <- <-]; by eexists _, _.
  - intros n key s r s'. cbn. unfold wg_programs. cbn.
    destruct (s.2 !! n) as [d|] eqn:E; intros [= <- <-]; eexists _, _; (split; [done|]); cbn; eauto.
  - intros n port s r s' Hp. cbn. unfold wg_programs. cbn -[atoi itoa].
    destruct (s.2 !! n) as [d|] eqn:E; [|intros [= <- <-]; by eexists _, _].
    rewrite atoi_itoa by (unfold min_int64, max_int64; lia).
    intros [= <- <-]. eexists _, _; (split; [done|]); cbn; eauto.
  - intros n key opts stdin s r s' Ho. cbn. unfold wg_programs. cbn -[parse_options concat].
    destruct (s.2 !! n) as [d|] eqn:E; [|intros [= <- <-]; by eexists _, _].
    rewrite parse_options_args by done. cbn.
    intros [= <- <-]. eexists _, _; (split; [done|]); cbn; eauto.
  - intros n s r s'. cbn. unfold wg_programs. cbn -[wg_dump].
    destruct (s.2 !! n) as [d|] eqn:E; intros [= <- <-]; (split; [done|]); eexists _, _; (split; [done|]);
      [|done]. intros _. eauto using wg_dump_of.
Defined.

(** ** Witnesses and examples *)

(** A machine with one interface and a default route over it. *)
Definition wan_link : Link :=
  {| lk_Index := 2; lk_Name := "eth0"; lk_MTU := 1500; lk_MasterIndex := 0; lk_ParentIndex := 0;
     lk_Up := true; lk_Type := "device"; lk_VlanId := 0; lk_Loopback := false |}.
Definition gateway : IP := v4_prefix ++ [192; 0; 2; 1].
Definition default_route (gw : IP) (metric : Z) : NRoute :=
  {| nr_Dst := None; nr_Gw := gw; nr_LinkIndex := 2; nr_Priority := metric; nr_Table := MAIN_TABLE;
     nr_Protocol := 0; nr_Scope := 0 |}.
Definition wan_machine : WgMemory :=
  ({| mem_links := [wan_link]; mem_addrs := λ _, []; mem_files := ∅;
      mem_routes := [default_route [192; 0; 2; 9] 200; default_route gateway 100] |}, ∅).
Definition apply_vpn (config : VPNConfig) (s : WgMemory) :=
  @ApplyConfig wg_kernel_in_memory wg_in_memory default_order config
    (@Build_WireGuardProvider wg_kernel_in_memory None s).
Definition vpn_applied : WgMemory :=
  @wg_kernel wg_kernel_in_memory (apply_vpn sample_vpn wan_machine).2.
Definition sample_device : WgDevice :=
  {| wd_PrivateKey := "cHJpdmF0ZQ=="; wd_ListenPort := 51820;
     wd_Peers := {[sample_key := peer_settings ∅ sample_peer]} |}.

Example sample_vpn_applied :
  (apply_vpn sample_vpn wan_machine).1 = Ok () ∧ vpn_applied.2 !! "wg0" = Some sample_device ∧
  (λ n, IPNet_String n) <$> mem_addrs vpn_applied.1 3 = ["10.8.0.2/24"].
Proof. vm_compute. by split_and!. Qed.

Lemma sample_tunnels_ok :
  @tunnels_ok _ _ _ wg_memory_wg_laws (gm (vc_Interfaces sample_vpn)).
Proof.
  change (gm (vc_Interfaces sample_vpn)) with ({["office" := sample_tunnel]} : gmap string VPNInterface).
  split.
  - intros name iface [<- <-]%lookup_singleton_Some _. split; [apply NoDup_singleton|].
    apply (bool_decide_unpack _). vm_compute. exact I.
  - by intros n1 n2 i1 i2 [<- _]%lookup_singleton_Some [<- _]%lookup_singleton_Some _.
Defined.

Definition tunnel_link : Link :=
  default wan_link (List.find (λ l, String.eqb (lk_Name l) "wg0") (mem_links vpn_applied.1)).
Lemma device_with_peers_is_rebuilt_witness :
  @applyInterface wg_kernel_in_memory wg_in_memory sample_tunnel vpn_applied =
    (wrapM "failed to delete existing interface: " (@k_LinkDel wg_kernel_in_memory tunnel_link)
       ≫= λ _, @rebuild wg_kernel_in_memory wg_in_memory sample_tunnel) vpn_applied.
Proof.
  refine (@device_with_peers_is_rebuilt _ _ _ wg_memory_wg_laws sample_tunnel tunnel_link vpn_applied
    sample_device _ _ _).
  - vm_compute. reflexivity.
  - vm_compute. reflexivity.
  - apply (bool_decide_unpack _). vm_compute. exact I.
Defined.
Lemma addEndpointRoute_spec_witness :
  let routes := mem_routes wan_machine.1 in
  ((∀ y l, y ∈ routes → @candidate wg_kernel_in_memory wan_machine y l → 999999 ≤ nr_Priority y) ∧
   @addEndpointRoute wg_kernel_in_memory wg_in_memory "203.0.113.1:51820" wan_machine =
     (Err (ErrorText "no default gateway found"), wan_machine)) ∨
  ∃ x l, @best_default wg_kernel_in_memory wan_machine routes 999999 x l ∧
    @addEndpointRoute wg_kernel_in_memory wg_in_memory "203.0.113.1:51820" wan_machine =
      match @k_RouteAdd wg_kernel_in_memory
              (new_route {| net_IP := v4_prefix ++ [203; 0; 113; 1]; net_Mask := CIDRMask 32 32 |}
              (nr_Gw x) (lk_Index l) 0 0) wan_machine with
      | (Err e, k') => (if file_exists e then Ok () else Err (Wrapf "failed to add endpoint route: " e), k')
      | (r, k') => (r, k')
      end.
Proof.
  refine (@addEndpointRoute_spec _ wg_in_memory wg_memory_laws wg_memory_read_laws "203.0.113.1:51820"
    "203.0.113.1" "51820" (v4_prefix ++ [203; 0; 113; 1]) (mem_routes wan_machine.1) wan_machine _ _ _);
    vm_compute; reflexivity.
Defined.
Example endpoint_route_gateway :
  (λ x, (nr_Gw x, dst_string (nr_Dst x))) <$>
    last (mem_routes (@addEndpointRoute wg_kernel_in_memory wg_in_memory "203.0.113.1:51820" wan_machine).2.1) =
  Some (gateway, "203.0.113.1/32").
Proof. vm_compute. reflexivity. Qed.

(** Findings: the endpoint of a peer may be a host name or an IPv6 address,
    which get no route, or one whose mask is not that of an IPv6 address. *)
Example endpoint_by_name :
  ValidateEndpoint "vpn.example.com:51820" = None ∧
  (@addEndpointRoute wg_kernel_in_memory wg_in_memory "vpn.example.com:51820" wan_machine).1 =
    Err (ErrorText "invalid endpoint IP: vpn.example.com").
Proof. vm_compute. by split. Qed.
Example endpoint_ipv6 :
  IPNet_String {| net_IP := default [] (ParseIP "2001:db8::1"); net_Mask := CIDRMask 32 32 |} = "<nil>".
Proof. vm_compute. reflexivity. Qed.
(** A finding: a device without peers keeps the private key it has when another
    one is configured. *)
Definition lonely_tunnel (key : string) : VPNInterface :=
  {| vi_Type := "wireguard"; vi_Enabled := true; vi_DeviceName := "wg0"; vi_PrivateKey := key;
     vi_ListenPort := 0; vi_Address := "10.8.0.2"; vi_Netmask := "255.255.255.0"; vi_MTU := 1420;
     vi_Peers := []; vi_FirewallZone := ""; vi_Comment := "" |}.
Definition lonely_vpn (key : string) : VPNConfig :=
  {| vc_Version := "1.0"; vc_Interfaces := Some {["office" := lonely_tunnel key]} |}.
Example private_key_not_compared :
  let s := @wg_kernel wg_kernel_in_memory (apply_vpn (lonely_vpn "old") wan_machine).2 in
  let p := apply_vpn (lonely_vpn "new") s in
  p.1 = Ok () ∧ wd_PrivateKey <$> (@wg_kernel wg_kernel_in_memory p.2).2 !! "wg0" = Some "old".
Proof. vm_compute. by split. Qed.
(** A finding: a tunnel dropped from the configuration keeps running. *)
Example dropped_tunnel_kept :
  let p := apply_vpn {| vc_Version := "1.0"; vc_Interfaces := Some ∅ |} vpn_applied in
  p.1 = Ok () ∧ (@wg_kernel wg_kernel_in_memory p.2).2 !! "wg0" = Some sample_device.
Proof. vm_compute. by split. Qed.
