(* ===== verification/DhcpConfig.v ===== *)
(** * DhcpConfig: the configuration of the dnsmasq plugin

    plugins/core/dnsmasq: types.go and dnsmasq_config.go.  There are two
    validations: the Validate methods, and the functions the plugin calls.  The
    theorems: exactly what each accepts, and the addresses of a pool's range. *)
From S2P Require Import Prelude GoStr GoNet Validation Types.

(** ** types.go *)

Record DHCPServer := {
  ds_Enabled : bool; ds_Domain : string; ds_LeaseFile : string; ds_Authoritative : bool;
  ds_LogDHCP : bool; ds_Comment : string;
}.
Record DHCPPool := {
  dp_Interface : string; dp_Start : Z; dp_Limit : Z; dp_LeaseTime : string; dp_DHCPv4 : string;
  dp_DHCPv6 : string; dp_RA : string; dp_RAManagement : Z; dp_RADefault : Z; dp_DNS : list string;
  dp_Domain : string; dp_Comment : string;
}.
Record StaticLease := { sl_Name : string; sl_MAC : string; sl_IP : string; sl_Comment : string }.
Record DHCPConfig := {
  dc_Version : string; dc_Server : DHCPServer; dc_DHCPPools : gomap DHCPPool;
  dc_StaticLeases : list StaticLease;
}.
Record DNSServer := {
  dn_Enabled : bool; dn_Port : Z; dn_Domain : string; dn_ExpandHosts : bool;
  dn_LocaliseQueries : bool; dn_RebindProtection : bool; dn_RebindLocalhost : bool;
  dn_Authoritative : bool; dn_DomainNeeded : bool; dn_BogusPriv : bool; dn_LogQueries : bool;
  dn_CacheSize : Z; dn_Upstreams : list string; dn_Comment : string;
}.
Record ARecord := { ar_Name : string; ar_IP : string; ar_TTL : Z; ar_Comment : string }.
Record AAAARecord := { a6_Name : string; a6_IP : string; a6_TTL : Z; a6_Comment : string }.
Record CNAMERecord := { cn_CNAME : string; cn_Target : string; cn_TTL : Z; cn_Comment : string }.
Record MXRecord := {
  mx_Domain : string; mx_Server : string; mx_Priority : Z; mx_TTL : Z; mx_Comment : string;
}.
Record SRVRecord := {
  sv_Service : string; sv_Proto : string; sv_Domain : string; sv_Target : string; sv_Port : Z;
  sv_Priority : Z; sv_Weight : Z; sv_TTL : Z; sv_Comment : string;
}.
Record TXTRecord := { tx_Name : string; tx_Text : string; tx_TTL : Z; tx_Comment : string }.
Record PTRRecord := { pt_IP : string; pt_Name : string; pt_TTL : Z; pt_Comment : string }.
Record DNSRecords := {
  dr_ARecords : list ARecord; dr_AAAARecords : list AAAARecord; dr_CNAMERecords : list CNAMERecord;
  dr_MXRecords : list MXRecord; dr_SRVRecords : list SRVRecord; dr_TXTRecords : list TXTRecord;
  dr_PTRRecords : list PTRRecord;
}.
Record DNSConfig := { dn_Version : string; dn_Server : DNSServer; dn_Records : DNSRecords }.

(** ** types.go: the Validate methods *)

Definition DHCPPool_Validate (dp : DHCPPool) : option error :=
  let v := NewCollector in
  let v := when (dp_Start dp <=? 0)
             (Check (Some (ErrorText "start address must be positive"))) v in
  let v := when (dp_Limit dp <=? 0) (Check (Some (ErrorText "limit must be positive"))) v in
  let v := when (65536 <? dp_Limit dp)
             (Check (Some (ErrorText ("limit " +:+ itoa (dp_Limit dp) +:+
                " exceeds reasonable maximum (65536)")))) v in
  let v := when (negb (nonempty (dp_Interface dp)))
             (Check (Some (ErrorText "interface not specified"))) v in
  let v := check_dns (dp_DNS dp) v in
  let v := when (nonempty (dp_Domain dp))
             (CheckMsg (ValidateDomain (dp_Domain dp)) "invalid domain") v in
  Error v.
Definition StaticLease_Validate (sl : StaticLease) : option error :=
  let v := CheckMsg (ValidateMAC (sl_MAC sl)) "invalid MAC address" NewCollector in
  let v := CheckMsg (ValidateIP (sl_IP sl)) "invalid IP address" v in
  Error v.

(** pool.Start + pool.Limit - 1, and the test of the inner loop. *)
Definition pool_end (p : DHCPPool) : Z := wrap64 (wrap64 (dp_Start p + dp_Limit p) - 1).
Definition pools_overlap (p q : string * DHCPPool) : bool :=
  negb (bool_decide (p.1 = q.1)) && bool_decide (dp_Interface p.2 = dp_Interface q.2) &&
  ((dp_Start p.2 <=? pool_end q.2) && (dp_Start q.2 <=? pool_end p.2)).
Definition overlap_error (p q : string * DHCPPool) : error :=
  ErrorText ("DHCP pools " +:+ p.1 +:+ " and " +:+ q.1 +:+
    " have overlapping IP ranges on interface " +:+ dp_Interface p.2).
(** [for i, x := range l { if err := x.Validate(); err != nil { v.CheckMsg(err, what i) } }] *)
Definition check_all {A} (validate : A → option error) (what : string) (l : list A)
    (v : ErrorCollector) : ErrorCollector :=
  fold_left (λ v p, when_some (validate p.2)
    (λ err, CheckMsg (Some err) (what +:+ itoa (Z.of_nat p.1))) v) (indexed l) v.

Definition DHCPConfig_Validate `{RangeOrder} (dc : DHCPConfig) : option error :=
  let pools := range (gm (dc_DHCPPools dc)) in
  let v := fold_left (λ v p, when_some (DHCPPool_Validate p.2)
    (λ err, CheckMsg (Some err) ("DHCP pool " +:+ p.1)) v) pools NewCollector in
  let v := fold_left (λ v p1, fold_left (λ v p2,
    when (pools_overlap p1 p2) (Check (Some (overlap_error p1 p2))) v) pools v) pools v in
  let v := check_all StaticLease_Validate "static lease " (dc_StaticLeases dc) v in
  Error v.

(** An A, AAAA, CNAME or PTR record: a name with an address or a name. *)
Definition ARecord_Validate (r : ARecord) : option error :=
  let v := CheckMsg (ValidateDomain (ar_Name r)) "invalid name" NewCollector in
  Error (CheckMsg (ValidateIP (ar_IP r)) "invalid IP" v).
Definition AAAARecord_Validate (r : AAAARecord) : option error :=
  let v := CheckMsg (ValidateDomain (a6_Name r)) "invalid name" NewCollector in
  Error (CheckMsg (ValidateIP (a6_IP r)) "invalid IP" v).
Definition CNAMERecord_Validate (r : CNAMERecord) : option error :=
  let v := CheckMsg (ValidateDomain (cn_CNAME r)) "invalid CNAME" NewCollector in
  Error (CheckMsg (ValidateDomain (cn_Target r)) "invalid target" v).
Definition PTRRecord_Validate (r : PTRRecord) : option error :=
  let v := CheckMsg (ValidateIP (pt_IP r)) "invalid IP" NewCollector in
  Error (CheckMsg (ValidateDomain (pt_Name r)) "invalid name" v).
Definition DNSConfig_Validate (dn : DNSConfig) : option error :=
  let s := dn_Server dn in
  let r := dn_Records dn in
  let v := WithContext "DNS server" NewCollector in
  let v := when (0 <? dn_Port s) (CheckMsg (ValidatePort (dn_Port s)) "invalid port") v in
  let v := when (nonempty (dn_Domain s)) (CheckMsg (ValidateDomain (dn_Domain s)) "invalid domain") v in
  let v := fold_left (λ v upstream,
    CheckMsg (ValidateIP upstream) ("invalid upstream " +:+ upstream) v) (dn_Upstreams s) v in
  let v := check_all ARecord_Validate "A record " (dr_ARecords r) v in
  let v := check_all AAAARecord_Validate "AAAA record " (dr_AAAARecords r) v in
  let v := check_all CNAMERecord_Validate "CNAME record " (dr_CNAMERecords r) v in
  let v := check_all PTRRecord_Validate "PTR record " (dr_PTRRecords r) v in
  Error v.

(** ** dnsmasq_config.go *)

(** The patterns [^\d+[mhdw]$], and six pairs of hex digits between colons or
    between hyphens. *)
Definition is_unit (c : ascii) : bool := existsb (Ascii.eqb c) [byte_of 109; byte_of 104; byte_of 100; byte_of 119].
Definition isValidLeaseTime (leaseTime : string) : bool :=
  match rev_str leaseTime with
  | String u s => is_unit u && nonempty s && all_digits s
  | "" => false
  end.
Definition isValidMAC (mac : string) : bool :=
  mac_groups colon 2 [6]%nat mac || mac_groups hyphen 2 [6]%nat mac.

Definition text_error (s : string) : option error := Some (ErrorText s).
(** The body of the loop over the pools. *)
Definition check_pool (p : string * DHCPPool) : option error :=
  let '(poolName, pool) := p in
  let at_pool := "pool " +:+ poolName in
  if negb (nonempty (dp_Interface pool)) then text_error (at_pool +:+ ": interface is required")
  else if (dp_Start pool <? 0) || (255 <? dp_Start pool) then
    text_error (at_pool +:+ ": invalid start address " +:+ itoa (dp_Start pool) +:+ " (must be 0-255)")
  else if (dp_Limit pool <? 1) || (255 <? dp_Limit pool) then
    text_error (at_pool +:+ ": invalid limit " +:+ itoa (dp_Limit pool) +:+ " (must be 1-255)")
  else if 255 <? dp_Start pool + dp_Limit pool then
    text_error (at_pool +:+ ": start (" +:+ itoa (dp_Start pool) +:+ ") + limit (" +:+
      itoa (dp_Limit pool) +:+ ") exceeds 255")
  else if nonempty (dp_LeaseTime pool) && negb (isValidLeaseTime (dp_LeaseTime pool)) then
    text_error (at_pool +:+ ": invalid lease time format " +:+ dp_LeaseTime pool +:+
      " (expected format: 1h, 12h, 7d)")
  else first_error (indexed (dp_DNS pool)) (λ '(i, dns),
    match ParseIP dns with
    | None => text_error (at_pool +:+ ": invalid DNS server IP at index " +:+ itoa (Z.of_nat i) +:+ ": " +:+ dns)
    | Some _ => None
    end).
Definition check_lease (p : nat * StaticLease) : option error :=
  let '(i, lease) := p in
  let at_lease := "static lease " +:+ itoa (Z.of_nat i) in
  if negb (nonempty (sl_MAC lease)) then text_error (at_lease +:+ ": MAC address is required")
  else if negb (isValidMAC (sl_MAC lease)) then
    text_error (at_lease +:+ ": invalid MAC address format: " +:+ sl_MAC lease)
  else if negb (nonempty (sl_IP lease)) then text_error (at_lease +:+ ": IP address is required")
  else match ParseIP (sl_IP lease) with
  | None => text_error (at_lease +:+ ": invalid IP address: " +:+ sl_IP lease)
  | Some _ => None
  end.
Definition ValidateDHCPConfig `{RangeOrder} (config : option DHCPConfig) : option error :=
  match config with
  | None => text_error "config is nil"
  | Some config =>
      if ds_Enabled (dc_Server config) && (size (gm (dc_DHCPPools config)) =? 0)%nat then
        text_error "DHCP enabled but no pools defined"
      else match first_error (range (gm (dc_DHCPPools config))) check_pool with
      | Some err => Some err
      | None => first_error (indexed (dc_StaticLeases config)) check_lease
      end
  end.

(** The loops of [ValidateDNSConfig]. *)
Definition check_a (p : nat * ARecord) : option error :=
  let '(i, record) := p in
  if negb (nonempty (ar_Name record)) then
    text_error ("A record " +:+ itoa (Z.of_nat i) +:+ ": name is required")
  else match ParseIP (ar_IP record) with
  | None => text_error ("A record " +:+ itoa (Z.of_nat i) +:+ " (" +:+ ar_Name record +:+
              "): invalid IPv4 address: " +:+ ar_IP record)
  | Some _ => None
  end.
Definition check_aaaa (p : nat * AAAARecord) : option error :=
  let '(i, record) := p in
  if negb (nonempty (a6_Name record)) then
    text_error ("AAAA record " +:+ itoa (Z.of_nat i) +:+ ": name is required")
  else if match ParseIP (a6_IP record) with None => true | Some ip => bool_decide (is_Some (To4 ip)) end
  then text_error ("AAAA record " +:+ itoa (Z.of_nat i) +:+ " (" +:+ a6_Name record +:+
         "): invalid IPv6 address: " +:+ a6_IP record)
  else None.
Definition check_cname (p : nat * CNAMERecord) : option error :=
  let '(i, record) := p in
  let at_record := "CNAME record " +:+ itoa (Z.of_nat i) in
  if negb (nonempty (cn_CNAME record)) then text_error (at_record +:+ ": cname is required")
  else if negb (nonempty (cn_Target record)) then
    text_error (at_record +:+ " (" +:+ cn_CNAME record +:+ "): target is required")
  else None.
Definition check_mx (p : nat * MXRecord) : option error :=
  let '(i, record) := p in
  let at_record := "MX record " +:+ itoa (Z.of_nat i) in
  if negb (nonempty (mx_Domain record)) then text_error (at_record +:+ ": domain is required")
  else if negb (nonempty (mx_Server record)) then
    text_error (at_record +:+ " (" +:+ mx_Domain record +:+ "): server is required")
  else if mx_Priority record <? 0 then
    text_error (at_record +:+ " (" +:+ mx_Domain record +:+ "): priority cannot be negative")
  else None.
Definition check_srv (p : nat * SRVRecord) : option error :=
  let '(i, record) := p in
  let at_record := "SRV record " +:+ itoa (Z.of_nat i) in
  if negb (nonempty (sv_Service record)) then text_error (at_record +:+ ": service is required")
  else if negb (nonempty (sv_Proto record)) then
    text_error (at_record +:+ " (" +:+ sv_Service record +:+ "): proto is required")
  else if negb (nonempty (sv_Target record)) then
    text_error (at_record +:+ " (" +:+ sv_Service record +:+ "): target is required")
  else if (sv_Port record <? 1) || (65535 <? sv_Port record) then
    text_error (at_record +:+ " (" +:+ sv_Service record +:+ "): invalid port " +:+ itoa (sv_Port record))
  else None.
Definition check_ptr (p : nat * PTRRecord) : option error :=
  let '(i, record) := p in
  let at_record := "PTR record " +:+ itoa (Z.of_nat i) in
  if negb (nonempty (pt_IP record)) then text_error (at_record +:+ ": IP is required")
  else match ParseIP (pt_IP record) with
  | None => text_error (at_record +:+ ": invalid IP address: " +:+ pt_IP record)
  | Some _ =>
      if negb (nonempty (pt_Name record)) then
        text_error (at_record +:+ " (" +:+ pt_IP record +:+ "): name is required")
      else None
  end.
(** The first error of a list of checks. *)
Fixpoint first_of (l : list (option error)) : option error :=
  match l with
  | [] => None
  | Some err :: _ => Some err
  | None :: l => first_of l
  end.
Definition ValidateDNSConfig (config : option DNSConfig) : option error :=
  match config with
  | None => text_error "config is nil"
  | Some config =>
      let s := dn_Server config in
      let r := dn_Records config in
      if negb (dn_Port s =? 0) && ((dn_Port s <? 1) || (65535 <? dn_Port s)) then
        text_error ("invalid DNS port " +:+ itoa (dn_Port s) +:+ " (must be 1-65535)")
      else first_of [
        first_error (indexed (dn_Upstreams s)) (λ '(i, upstream),
          match ParseIP upstream with
          | None => text_error ("invalid upstream DNS server at index " +:+ itoa (Z.of_nat i) +:+ ": " +:+ upstream)
          | Some _ => None
          end);
        first_error (indexed (dr_ARecords r)) check_a;
        first_error (indexed (dr_AAAARecords r)) check_aaaa;
        first_error (indexed (dr_CNAMERecords r)) check_cname;
        first_error (indexed (dr_MXRecords r)) check_mx;
        first_error (indexed (dr_SRVRecords r)) check_srv;
        first_error (indexed (dr_PTRRecords r)) check_ptr]
  end.

Definition NetworkPortion (ip : string) : string :=
  match last_index_byte dot ip with
  | None => ip
  | Some lastDot => take_str lastDot ip
  end.

(** Entries added to a new map, in the order of the visit. *)
Definition collect_strings `{RangeOrder} {V} (f : V → option string) (m : gmap string V) : gmap string string :=
  fold_left (λ ips '(name, v), match f v with Some s => <[name := s]> ips | None => ips end)
    (range m) ∅.
Definition interface_ip (iface : Interface) : option string :=
  if nonempty (if_IPAddr iface) then Some (if_IPAddr iface) else None.
Definition interface_device (iface : Interface) : option string :=
  if bool_decide (if_Type iface = "bridge") && nonempty (if_DeviceName iface)
  then Some (if_DeviceName iface)
  else if bool_decide (if_Type iface = "physical") && nonempty (if_Device iface)
  then Some (if_Device iface)
  else None.
Definition GetInterfaceIPsFromConfig `{RangeOrder} (c : InterfacesConfig) : gmap string string :=
  collect_strings interface_ip (gm (ic_Interfaces c)).
Definition GetInterfaceDevicesFromConfig `{RangeOrder} (c : InterfacesConfig) : gmap string string :=
  collect_strings interface_device (gm (ic_Interfaces c)).

(** ** What a valid configuration is *)

Definition is_ip (s : string) : Prop := is_Some (ParseIP s).
Definition dhcp_pool_ok (p : DHCPPool) : Prop :=
  dp_Interface p ≠ "" ∧ 0 ≤ dp_Start p ∧ 1 ≤ dp_Limit p ∧ dp_Start p + dp_Limit p ≤ 255 ∧
  (dp_LeaseTime p ≠ "" → isValidLeaseTime (dp_LeaseTime p) = true) ∧ Forall is_ip (dp_DNS p).
Definition static_lease_ok (l : StaticLease) : Prop := isValidMAC (sl_MAC l) = true ∧ is_ip (sl_IP l).

(** What the Validate method of a pool asks, and two pools without a common
    address (the ends taken in 64-bit arithmetic). *)
Definition pool_fields_ok (p : DHCPPool) : Prop :=
  0 < dp_Start p ∧ 0 < dp_Limit p ≤ 65536 ∧ dp_Interface p ≠ "" ∧
  Forall (λ dns, ValidateIP dns = None) (dp_DNS p) ∧
  (dp_Domain p ≠ "" → ValidateDomain (dp_Domain p) = None).
Definition pools_apart (p q : DHCPPool) : Prop :=
  pool_end p < dp_Start q ∨ pool_end q < dp_Start p.

Definition srv_ok (r : SRVRecord) : Prop :=
  sv_Service r ≠ "" ∧ sv_Proto r ≠ "" ∧ sv_Target r ≠ "" ∧ 1 ≤ sv_Port r ≤ 65535.
Definition dns_config_ok (c : DNSConfig) : Prop :=
  let r := dn_Records c in
  (dn_Port (dn_Server c) = 0 ∨ 1 ≤ dn_Port (dn_Server c) ≤ 65535) ∧
  Forall is_ip (dn_Upstreams (dn_Server c)) ∧
  Forall (λ a, ar_Name a ≠ "" ∧ is_ip (ar_IP a)) (dr_ARecords r) ∧
  Forall (λ a, a6_Name a ≠ "" ∧ ∃ ip, ParseIP (a6_IP a) = Some ip ∧ To4 ip = None) (dr_AAAARecords r) ∧
  Forall (λ c, cn_CNAME c ≠ "" ∧ cn_Target c ≠ "") (dr_CNAMERecords r) ∧
  Forall (λ m, mx_Domain m ≠ "" ∧ mx_Server m ≠ "" ∧ 0 ≤ mx_Priority m) (dr_MXRecords r) ∧
  Forall srv_ok (dr_SRVRecords r) ∧
  Forall (λ p, is_ip (pt_IP p) ∧ pt_Name p ≠ "") (dr_PTRRecords r).

(** ** Lemmas *)

Lemma first_error_indexed {A} (P : A → Prop) (l : list A) body :
  (∀ i x, body (i, x) = None ↔ P x) → first_error (indexed l) body = None ↔ Forall P l.
Proof.
  intros Hb. rewrite first_error_None, <- (Forall_indexed P). apply Forall_iff. intros [i x]. apply Hb.
Qed.
Lemma match_ip_None s e :
  match ParseIP s with Some _ => None | None => Some (ErrorText e) end = None ↔ is_ip s.
Proof. unfold is_ip. destruct (ParseIP s); split; try done; by intros []. Qed.
Lemma is_ip_nonempty s : is_ip s → s ≠ "".
Proof. intros [ip H] ->. by vm_compute in H. Qed.
Lemma isValidMAC_nonempty s : isValidMAC s = true → s ≠ "".
Proof. by intros H ->. Qed.

Lemma check_pool_None name p : check_pool (name, p) = None ↔ dhcp_pool_ok p.
Proof.
  unfold check_pool, dhcp_pool_ok, text_error. cbv zeta. rewrite !if_Some_None.
  rewrite (first_error_indexed is_ip) by (intros; apply match_ip_None).
  rewrite negb_false_iff, nonempty_true, !out_of_range_false, Z.ltb_ge, andb_false_iff,
    nonempty_false, negb_false_iff.
  destruct (decide (dp_LeaseTime p = "")); intuition (lia || done).
Qed.
Lemma check_lease_None i l : check_lease (i, l) = None ↔ static_lease_ok l.
Proof.
  unfold check_lease, static_lease_ok, text_error. cbv zeta. rewrite !if_Some_None, match_ip_None.
  rewrite !negb_false_iff, !nonempty_true. split; [tauto|].
  intros [Hm Hi]. split_and!; auto using is_ip_nonempty, isValidMAC_nonempty.
Qed.
Lemma range_Forall `{RangeOrder} {V} (P : string * V → Prop) (Q : V → Prop) (m : gmap string V) :
  (∀ n v, P (n, v) ↔ Q v) → Forall P (range m) ↔ map_Forall (λ _, Q) m.
Proof.
  intros HPQ. rewrite (range_perm m), map_Forall_to_list. apply Forall_iff. intros [n v]. apply HPQ.
Qed.
Lemma dhcp_config_valid `{RangeOrder} c :
  ValidateDHCPConfig (Some c) = None ↔
    (ds_Enabled (dc_Server c) = true → gm (dc_DHCPPools c) ≠ ∅) ∧
    map_Forall (λ _, dhcp_pool_ok) (gm (dc_DHCPPools c)) ∧
    Forall static_lease_ok (dc_StaticLeases c).
Proof.
  cbn. unfold text_error. rewrite if_Some_None, match_None, first_error_None.
  rewrite (first_error_indexed static_lease_ok) by apply check_lease_None.
  rewrite (range_Forall _ dhcp_pool_ok) by apply check_pool_None.
  rewrite andb_false_iff, Nat.eqb_neq, map_size_non_empty_iff. destruct (ds_Enabled _); intuition done.
Qed.

Lemma first_of_None l : first_of l = None ↔ Forall (λ o, o = None) l.
Proof.
  induction l as [|[e|] l IH]; cbn; rewrite ?Forall_cons; [by split|naive_solver|naive_solver].
Qed.
Lemma dns_config_valid c : ValidateDNSConfig (Some c) = None ↔ dns_config_ok c.
Proof.
  unfold ValidateDNSConfig, dns_config_ok, text_error. cbv zeta.
  rewrite if_Some_None, first_of_None, !Forall_cons, Forall_nil.
  rewrite (first_error_indexed is_ip) by (intros; apply match_ip_None).
  rewrite (first_error_indexed (λ a, ar_Name a ≠ "" ∧ is_ip (ar_IP a))).
  2: { intros i a. cbn. unfold text_error. by rewrite if_Some_None, match_ip_None, negb_false_iff, nonempty_true. }
  rewrite (first_error_indexed (λ a, a6_Name a ≠ "" ∧ ∃ ip, ParseIP (a6_IP a) = Some ip ∧ To4 ip = None)).
  2: { intros i a. cbn. unfold text_error. rewrite !if_Some_None, negb_false_iff, nonempty_true.
       destruct (ParseIP (a6_IP a)) as [ip|]; [|naive_solver].
       rewrite bool_decide_eq_false, <- eq_None_not_Some. naive_solver. }
  rewrite (first_error_indexed (λ c, cn_CNAME c ≠ "" ∧ cn_Target c ≠ "")).
  2: { intros i a. cbn. unfold text_error. rewrite !if_Some_None, !negb_false_iff, !nonempty_true. tauto. }
  rewrite (first_error_indexed (λ m, mx_Domain m ≠ "" ∧ mx_Server m ≠ "" ∧ 0 ≤ mx_Priority m)).
  2: { intros i a. cbn. unfold text_error. rewrite !if_Some_None, !negb_false_iff, !nonempty_true, Z.ltb_ge. tauto. }
  rewrite (first_error_indexed srv_ok).
  2: { intros i a. cbn. unfold text_error, srv_ok.
       rewrite !if_Some_None, !negb_false_iff, !nonempty_true, out_of_range_false. tauto. }
  rewrite (first_error_indexed (λ p, is_ip (pt_IP p) ∧ pt_Name p ≠ "")).
  2: { intros i a. cbn. unfold text_error. rewrite if_Some_None, negb_false_iff, nonempty_true.
       unfold is_ip at 1. pose proof (is_ip_nonempty (pt_IP a)) as Hne. unfold is_ip in Hne.
       destruct (ParseIP (pt_IP a)); rewrite ?if_Some_None, ?negb_false_iff, ?nonempty_true; [|naive_solver].
       split; [naive_solver|]. intros [Hi Hn]. split_and!; auto. }
  rewrite andb_false_iff, negb_false_iff, Z.eqb_eq, out_of_range_false. tauto.
Qed.

(** *** The Validate method *)

Lemma errs_check_all {A} (validate : A → option error) what l v :
  errs (check_all validate what l v) = [] ↔ errs v = [] ∧ Forall (λ x, validate x = None) l.
Proof.
  unfold check_all. rewrite <- (Forall_indexed (λ x, validate x = None)).
  apply (errs_fold (λ p : nat * A, when_some (validate p.2)
    (λ err, CheckMsg (Some err) (what +:+ itoa (Z.of_nat p.1))))). intros [i x] v'. cbn.
  destruct (validate x); cbn [when_some]; rewrite ?errs_CheckMsg; naive_solver.
Qed.
Lemma DHCPPool_Validate_None p : DHCPPool_Validate p = None ↔ pool_fields_ok p.
Proof.
  unfold DHCPPool_Validate, pool_fields_ok. cbv zeta. autorewrite with collector.
  rewrite !Z.leb_le, Z.ltb_lt, negb_true_iff, nonempty_false, nonempty_true. cbn.
  split; [|intros; split_and!; try tauto; intros; lia || tauto]. intros H. split_and!; try tauto.
  - destruct (Z.le_gt_cases (dp_Start p) 0); [|done]. tauto || (exfalso; naive_solver).
  - destruct (Z.le_gt_cases (dp_Limit p) 0); [|done]. exfalso; naive_solver.
  - destruct (Z.le_gt_cases (dp_Limit p) 65536); [done|]. exfalso; naive_solver.
  - intros E. naive_solver.
Qed.
Lemma pools_overlap_false p q :
  pools_overlap p q = false ↔
    (p.1 ≠ q.1 → dp_Interface p.2 = dp_Interface q.2 → pools_apart p.2 q.2).
Proof.
  unfold pools_overlap, pools_apart. rewrite !andb_false_iff, negb_false_iff, bool_decide_eq_true,
    bool_decide_eq_false, !Z.leb_gt.
  destruct (decide (p.1 = q.1)), (decide (dp_Interface p.2 = dp_Interface q.2)); naive_solver.
Qed.
Lemma errs_overlap (l1 l2 : list (string * DHCPPool)) v :
  errs (fold_left (λ v p1, fold_left (λ v p2,
    when (pools_overlap p1 p2) (Check (Some (overlap_error p1 p2))) v) l2 v) l1 v) = [] ↔
  errs v = [] ∧ Forall (λ p, Forall (λ q, pools_overlap p q = false) l2) l1.
Proof.
  apply (errs_fold (λ p1 v, fold_left (λ v p2,
    when (pools_overlap p1 p2) (Check (Some (overlap_error p1 p2))) v) l2 v)). intros p v'.
  apply (errs_fold (λ p2, when (pools_overlap p p2) (Check (Some (overlap_error p p2))))).
  intros q w. rewrite errs_when_Check. destruct (pools_overlap p q); naive_solver.
Qed.
Lemma dhcp_pools_valid `{RangeOrder} dc :
  DHCPConfig_Validate dc = None ↔
    map_Forall (λ _, pool_fields_ok) (gm (dc_DHCPPools dc)) ∧
    (∀ n1 n2 p1 p2, gm (dc_DHCPPools dc) !! n1 = Some p1 → gm (dc_DHCPPools dc) !! n2 = Some p2 →
      n1 ≠ n2 → dp_Interface p1 = dp_Interface p2 → pools_apart p1 p2) ∧
    Forall (λ l, StaticLease_Validate l = None) (dc_StaticLeases dc).
Proof.
  unfold DHCPConfig_Validate. cbv zeta. rewrite Error_None, errs_check_all, errs_overlap.
  rewrite (errs_fold (λ p : string * DHCPPool, when_some (DHCPPool_Validate p.2) _)
    (λ p, pool_fields_ok p.2)).
  2: { intros p v. rewrite <- DHCPPool_Validate_None. destruct (DHCPPool_Validate p.2);
         cbn [when_some]; rewrite ?errs_CheckMsg; naive_solver. }
  rewrite (range_Forall (λ p, pool_fields_ok p.2) pool_fields_ok) by done.
  rewrite Forall_forall. setoid_rewrite Forall_forall. setoid_rewrite pools_overlap_false.
  split.
  - intros [[[_ Hf] Ho] Hl]. split_and!; try done. intros n1 n2 p1 p2 H1 H2 Hn Hi.
    apply (Ho (n1, p1)) with (x := (n2, p2)); try done; by apply range_elem.
  - intros (Hf & Ho & Hl). split_and!; try done. intros [n1 p1] H1%range_elem [n2 p2] H2%range_elem.
    apply (Ho n1 n2); done.
Qed.

(** *** Maps made from the interfaces, addresses of a range *)

Lemma collect_omap `{RangeOrder} {V} (f : V → option string) (m : gmap string V) :
  collect_strings f m = omap f m.
Proof.
  unfold collect_strings. assert (∀ (l : list (string * V)) acc, NoDup l.*1 →
    (∀ p, p ∈ l → acc !! p.1 = None) →
    fold_left (λ ips '(name, v), match f v with Some s => <[name := s]> ips | None => ips end) l acc =
    (omap f (list_to_map l : gmap string V) : gmap string string) ∪ acc) as Hf.
  { intros l. induction l as [|[n v] l IH]; intros acc; cbn [fold_left fmap list_fmap].
    { intros _ _. by rewrite list_to_map_nil, omap_empty, map_empty_union. }
    intros [Hn Hnd]%NoDup_cons Hacc. cbn in Hn.
    assert (acc !! n = None) as Han by (apply (Hacc (n, v)); by left).
    assert ((list_to_map l : gmap string V) !! n = None) as Hln by by apply not_elem_of_list_to_map.
    rewrite IH, list_to_map_cons; [|done|].
    - destruct (f v) as [s|] eqn:E.
      + rewrite (omap_insert_Some _ _ _ _ s) by done. rewrite <- insert_union_r; [|by rewrite lookup_omap, Hln].
        by rewrite insert_union_l.
      + rewrite omap_insert_None by done. by rewrite delete_id by by rewrite lookup_omap, Hln.
    - intros p Hp. assert (p.1 ≠ n) by (intros <-; apply Hn; by apply list_elem_of_fmap_2).
      destruct (f v); rewrite ?lookup_insert_ne by done; apply Hacc; by right. }
  rewrite Hf, map_union_empty; [|apply range_NoDup|by intros; apply lookup_empty].
  f_equal. rewrite <- (list_to_map_to_list m) at 2.
  apply list_to_map_proper; [apply range_NoDup|apply range_perm].
Qed.

Lemma last_index_app c a b :
  contains_byte c b = false → last_index_byte c (a +:+ String c b) = Some (String.length a).
Proof.
  intros Hb. assert (last_index_byte c b = None) as Hn.
  { induction b as [|d b IH]; [done|]. apply orb_false_iff in Hb as [Hd Hb]. cbn [last_index_byte].
    by rewrite (IH Hb), Hd. }
  induction a as [|d a IH].
  - change ("" +:+ String c b) with (String c b). cbn [last_index_byte]. by rewrite Hn, Ascii.eqb_refl.
  - change (String d a +:+ String c b) with (String d (a +:+ String c b)). cbn [last_index_byte]. by rewrite IH.
Qed.
Lemma NetworkPortion_dotted a b c d :
  Forall is_byte [a; b; c; d] → NetworkPortion (dotted [a; b; c; d]) = dotted [a; b; c].
Proof.
  intros Hb. assert (dotted [a; b; c; d] = dotted [a; b; c] +:+ String dot (itoa d)) as ->.
  { change (dotted [a; b; c; d]) with (itoa a +:+ "." +:+ itoa b +:+ "." +:+ itoa c +:+ "." +:+ itoa d).
    change (dotted [a; b; c]) with (itoa a +:+ "." +:+ itoa b +:+ "." +:+ itoa c).
    change (String dot (itoa d)) with ("." +:+ itoa d). by rewrite !app_str_assoc. }
  unfold NetworkPortion. rewrite last_index_app; [apply take_str_app|].
  apply itoa_no_byte; [|done]. rewrite !Forall_cons in Hb. unfold is_byte in Hb. lia.
Qed.

(** ** Properties *)

(** The plugin accepts a DHCP configuration exactly when there is one, it has
    a pool if DHCP is enabled, every pool has an interface, a range within 0 to
    255 of at least one address, a lease time of digits and a unit (if any) and
    DNS servers that are IP addresses, and every static lease has a MAC of six
    pairs and an IP address.  The order in which the pools are visited does not
    matter; pools that overlap are accepted. *)
Theorem ValidateDHCPConfig_None `{RangeOrder} config :
  ValidateDHCPConfig config = None ↔
    ∃ c, config = Some c ∧ (ds_Enabled (dc_Server c) = true → gm (dc_DHCPPools c) ≠ ∅) ∧
      map_Forall (λ _, dhcp_pool_ok) (gm (dc_DHCPPools c)) ∧
      Forall static_lease_ok (dc_StaticLeases c).
Proof.
  destruct config as [c|]; [rewrite dhcp_config_valid; naive_solver|]. cbn. naive_solver.
Qed.

(** The Validate method, which nothing calls, accepts a DHCP configuration
    exactly when the fields of pools and leases are valid and no two pools on one
    interface have an address in common. *)
Theorem DHCPConfig_Validate_None `{RangeOrder} dc :
  DHCPConfig_Validate dc = None ↔
    map_Forall (λ _, pool_fields_ok) (gm (dc_DHCPPools dc)) ∧
    (∀ n1 n2 p1 p2, gm (dc_DHCPPools dc) !! n1 = Some p1 → gm (dc_DHCPPools dc) !! n2 = Some p2 →
      n1 ≠ n2 → dp_Interface p1 = dp_Interface p2 → pools_apart p1 p2) ∧
    Forall (λ l, StaticLease_Validate l = None) (dc_StaticLeases dc).
Proof. apply dhcp_pools_valid. Qed.

(** A DNS configuration is accepted exactly when its port is 0 or in range, its
    upstream servers are IP addresses and every record has its fields. *)
Theorem ValidateDNSConfig_None config :
  ValidateDNSConfig config = None ↔ ∃ c, config = Some c ∧ dns_config_ok c.
Proof.
  destruct config as [c|]; [rewrite dns_config_valid; naive_solver|]. cbn. naive_solver.
Qed.

(** The addresses of the interfaces are those of the configuration, whatever
    order its map is visited in. *)
Theorem GetInterfaceIPsFromConfig_lookup `{RangeOrder} c name :
  GetInterfaceIPsFromConfig c !! name = gm (ic_Interfaces c) !! name ≫= interface_ip.
Proof. unfold GetInterfaceIPsFromConfig. by rewrite collect_omap, lookup_omap. Qed.

(** The bounds of a validated pool's range on an interface with an IPv4
    address are addresses that differ from it in the last byte only, and the
    range is not empty. *)
Theorem range_addresses `{RangeOrder} config name pool a b c d :
  ValidateDHCPConfig (Some config) = None → gm (dc_DHCPPools config) !! name = Some pool →
  Forall is_byte [a; b; c; d] →
  let network := NetworkPortion (dotted [a; b; c; d]) in
  let last_byte := dp_Start pool + dp_Limit pool in
  ParseIP (network +:+ "." +:+ itoa (dp_Start pool)) = Some (v4_prefix ++ [a; b; c; dp_Start pool]) ∧
  ParseIP (network +:+ "." +:+ itoa last_byte) = Some (v4_prefix ++ [a; b; c; last_byte]) ∧
  0 ≤ dp_Start pool < last_byte ∧ last_byte ≤ 255.
Proof.
  intros (_ & Hp & _)%dhcp_config_valid Hl Hb. cbv zeta.
  destruct (Hp _ _ Hl) as (_ & Hs & Hlim & Hend & _). rewrite NetworkPortion_dotted by done.
  assert (∀ x, is_byte x → ParseIP (dotted [a; b; c] +:+ "." +:+ itoa x) = Some (v4_prefix ++ [a; b; c; x])) as Hx.
  { intros x Hx. rewrite <- ParseIP_dotted.
    - f_equal. change (dotted [a; b; c]) with (itoa a +:+ "." +:+ itoa b +:+ "." +:+ itoa c).
      change (dotted [a; b; c; x]) with (itoa a +:+ "." +:+ itoa b +:+ "." +:+ itoa c +:+ "." +:+ itoa x).
      by rewrite !app_str_assoc.
    - rewrite !Forall_cons in *. naive_solver. }
  split_and!; [apply Hx; unfold is_byte; lia..|done|lia|done].
Qed.

(** ** Witnesses and examples *)

Definition sample_pool_of (start limit : Z) : DHCPPool :=
  {| dp_Interface := "lan"; dp_Start := start; dp_Limit := limit; dp_LeaseTime := "12h";
     dp_DHCPv4 := "server"; dp_DHCPv6 := ""; dp_RA := ""; dp_RAManagement := 0; dp_RADefault := 0;
     dp_DNS := []; dp_Domain := ""; dp_Comment := "" |}.
Definition dhcp_of (pools : gmap string DHCPPool) : DHCPConfig :=
  {| dc_Version := "1.0";
     dc_Server := {| ds_Enabled := true; ds_Domain := ""; ds_LeaseFile := ""; ds_Authoritative := false;
                     ds_LogDHCP := false; ds_Comment := "" |};
     dc_DHCPPools := Some pools; dc_StaticLeases := [] |}.

Lemma range_addresses_witness :
  ParseIP (NetworkPortion (dotted [192; 168; 1; 1]) +:+ "." +:+ itoa 100) = Some (v4_prefix ++ [192; 168; 1; 100]).
Proof.
  refine (proj1 (@range_addresses default_order (dhcp_of {["p" := sample_pool_of 100 50]}) "p"
    (sample_pool_of 100 50) 192 168 1 1 _ _ _)); [vm_compute; reflexivity..|].
  repeat constructor; unfold is_byte; lia.
Defined.

(** A finding: the validation in use accepts pools that overlap. *)
Example overlapping_pools :
  let c := dhcp_of {["a" := sample_pool_of 100 50; "b" := sample_pool_of 120 50]} in
  @ValidateDHCPConfig default_order (Some c) = None ∧ @DHCPConfig_Validate default_order c ≠ None.
Proof. vm_compute. by split. Qed.
(** The ends of ranges wrap around. *)
Example wrapping_pools :
  let c := dhcp_of {["a" := sample_pool_of max_int64 2; "b" := sample_pool_of max_int64 2]} in
  @DHCPConfig_Validate default_order c = None.
Proof. vm_compute. reflexivity. Qed.
(** A finding: an A record may hold an IPv6 address. *)
Example a_record_ipv6 :
  check_a (0%nat, {| ar_Name := "host"; ar_IP := "2001:db8::1"; ar_TTL := 0; ar_Comment := "" |}) = None.
Proof. vm_compute. reflexivity. Qed.
Example lease_times :
  isValidLeaseTime "12h" = true ∧ isValidLeaseTime "90s" = false ∧ isValidLeaseTime "h" = false.
Proof. vm_compute. by split_and!. Qed.
