(* ===== verification/Dnsmasq.v ===== *)
(** * Dnsmasq: the dnsmasq plugin (plugins/core/dnsmasq: dnsmasq.go, rpc_provider.go)

    The DHCP configuration becomes a text by a template, which is written to a
    file, tested and loaded by the dnsmasq service.  The files are those of
    [ConfigStore]; text/template and the host's programs are parameters, and
    [dhcp_template] is what the template the repository ships expands to.  The
    theorems: what a successful application leaves; and that a text which is in
    the file already is neither tested nor loaded, whatever became of it. *)
From S2P Require Import Prelude GoStr GoNet Validation Types Json Value Struct Codec Path ConfigStore DhcpConfig.

Definition dnsmasqConfigPath : string := "/etc/dnsmasq.d/jack.conf".
Definition dnsmasqTemplatePath : string := "/etc/jack/templates/dnsmasq.conf.tmpl".

(** The data of the template. *)
Record TemplateData := {
  td_Config : DHCPConfig; td_InterfaceIPs : gmap string string;
  td_InterfaceDevices : gmap string string; td_NetworkPortion : string → string;
}.

(** text/template, with the function [add] on integers. *)
Class Template := {
  tmpl : Type;
  template_Parse : string → error + tmpl;
  template_Execute : tmpl → TemplateData → error + string;
}.

(** exec.LookPath, [systemctl <verb> dnsmasq], and [dnsmasq --test] on what the
    configuration file holds: its output, and an error if it was refused. *)
Class DnsmasqHost := {
  host : Type;
  h_LookPath : string → option error;
  systemctl : string → host → option error * host;
  dnsmasq_test : option content → string * option error;
}.

(** ** templates/dnsmasq.conf.tmpl *)

Definition if_text (b : bool) (s : string) : string := if b then s else "".
Definition for_text {A} (f : A → string) (l : list A) : string := foldr (λ x s, f x +:+ s) "" l.
Definition template_index (m : gmap string string) (k : string) : string := default "" (m !! k).
Definition pool_text (data : TemplateData) (pool : DHCPPool) : string :=
  let device := template_index (td_InterfaceDevices data) (dp_Interface pool) in
  let ip := template_index (td_InterfaceIPs data) (dp_Interface pool) in
  let network := td_NetworkPortion data ip in
  if_text (bool_decide (dp_DHCPv4 pool = "server") && (nonempty device && nonempty ip)) (
    nl +:+ nl +:+ "# " +:+ dp_Interface pool +:+ " - " +:+ dp_Comment pool +:+
    nl +:+ "interface=" +:+ device +:+
    nl +:+ "dhcp-range=" +:+ device +:+ "," +:+ network +:+ "." +:+ itoa (dp_Start pool) +:+ "," +:+
      network +:+ "." +:+ itoa (wrap64 (dp_Start pool + dp_Limit pool)) +:+ "," +:+ dp_LeaseTime pool +:+
    for_text (λ dns, nl +:+ "dhcp-option=" +:+ device +:+ ",6," +:+ dns) (dp_DNS pool) +:+
    if_text (nonempty (dp_Domain pool)) (nl +:+ "dhcp-option=" +:+ device +:+ ",15," +:+ dp_Domain pool)).
Definition lease_text (lease : StaticLease) : string :=
  nl +:+ "dhcp-host=" +:+ sl_MAC lease +:+ "," +:+ sl_IP lease +:+
  if_text (nonempty (sl_Name lease)) ("," +:+ sl_Name lease) +:+ "  # " +:+ sl_Comment lease.
(** A range over a map visits the keys in order. *)
Definition dhcp_template (data : TemplateData) : string :=
  let server := dc_Server (td_Config data) in
  "# Jack-generated dnsmasq configuration" +:+ nl +:+
  "# DO NOT EDIT - This file is managed by Jack" +:+ nl +:+ nl +:+
  "# Basic DNS settings - always use port 53" +:+ nl +:+ "port=53" +:+
  if_text (nonempty (ds_Domain server))
    (nl +:+ "# Domain settings" +:+ nl +:+ "domain=" +:+ ds_Domain server +:+
     nl +:+ "local=/" +:+ ds_Domain server +:+ "/" +:+ nl +:+ "expand-hosts") +:+
  nl +:+ nl +:+ "# DHCP lease file" +:+
  if_text (nonempty (ds_LeaseFile server)) (nl +:+ "dhcp-leasefile=" +:+ ds_LeaseFile server) +:+
  nl +:+ nl +:+ "# Server behavior" +:+
  if_text (ds_Authoritative server) (nl +:+ "dhcp-authoritative") +:+
  if_text (ds_LogDHCP server) (nl +:+ "log-dhcp") +:+
  nl +:+ nl +:+ "# Basic security" +:+ nl +:+ "localise-queries" +:+ nl +:+ "stop-dns-rebind" +:+
  nl +:+ "rebind-localhost-ok" +:+ nl +:+ "bogus-priv" +:+ nl +:+ nl +:+
  "# Don't read /etc/hosts (we manage DNS records explicitly)" +:+ nl +:+ "no-hosts" +:+ nl +:+ nl +:+
  "# DHCP pools" +:+
  for_text (λ p, pool_text data p.2) (sorted_entries (gm (dc_DHCPPools (td_Config data)))) +:+
  nl +:+ nl +:+ "# Static DHCP leases" +:+
  for_text lease_text (dc_StaticLeases (td_Config data)) +:+ nl.

Section dnsmasq.
Context `{Template} `{DnsmasqHost} `{OS} `{RangeOrder}.

(** ** dnsmasq.go *)

(** Loading the interfaces fails silently. *)
Definition load_interfaces : M FS (option InterfacesConfig) :=
  attempt (LoadConfig Unmarshal_InterfacesConfig "interfaces") ≫= λ r,
  mret match r with Ok c => Some c | _ => None end.
Definition getInterfaceIPs : M FS (gmap string string) :=
  load_interfaces ≫= λ c, mret match c with Some c => GetInterfaceIPsFromConfig c | None => ∅ end.
Definition getInterfaceDevices : M FS (gmap string string) :=
  load_interfaces ≫= λ c, mret match c with Some c => GetInterfaceDevicesFromConfig c | None => ∅ end.

(** A template file that is no text does not parse. *)
Definition parse_content (c : content) : res tmpl :=
  match c with CText s => of_sum (template_Parse s) | _ => Err (StdError "text/template" "not a text") end.
Definition generateDHCPConfigString (config : DHCPConfig) : M FS string :=
  wrapM "failed to read template: " (os_ReadFile dnsmasqTemplatePath) ≫= λ tmplContent,
  wrapM "failed to parse template: " (lift (parse_content tmplContent)) ≫= λ t,
  getInterfaceIPs ≫= λ ips,
  getInterfaceDevices ≫= λ devices,
  wrapM "failed to execute template: " (lift (of_sum (template_Execute t
    {| td_Config := config; td_InterfaceIPs := ips; td_InterfaceDevices := devices;
       td_NetworkPortion := NetworkPortion |}))).
Definition writeDHCPConfig (text : string) : M FS () :=
  wrapM "failed to create config directory: " (os_MkdirAll "/etc/dnsmasq.d") ≫= λ _,
  wrapM "failed to write config file: " (os_WriteFile dnsmasqConfigPath (CText text)).
Definition generateDNSConfig (config : DNSConfig) : M FS () :=
  wrapM "failed to create config directory: " (os_MkdirAll "/etc/dnsmasq.d") ≫= λ _,
  fail (ErrorText "DNS configuration not yet implemented").

(** The files and the host the provider works on; its fields are constants. *)
Definition DnsmasqProvider : Type := FS * host.
Definition in_files {A} (m : M FS A) : M DnsmasqProvider A := λ p,
  match m p.1 with (r, fs) => (r, (fs, p.2)) end.
Definition run_systemctl (verb : string) : M DnsmasqProvider () := λ p,
  let '(err, h) := systemctl verb p.2 in (check err, (p.1, h)).
Definition NewDnsmasq : res () :=
  match h_LookPath "dnsmasq" with Some e => Err (Wrapf "dnsmasq not found: " e) | None => Ok () end.

Definition startService : M DnsmasqProvider () := run_systemctl "start".
Definition stopService : M DnsmasqProvider () := run_systemctl "stop".
Definition reloadService : M DnsmasqProvider () := run_systemctl "reload-or-restart".
Definition isServiceRunning : M DnsmasqProvider bool :=
  attempt (run_systemctl "is-active") ≫= λ r, mret match r with Ok _ => true | _ => false end.
Definition testConfig : M DnsmasqProvider () :=
  gets (λ p, fs_files p.1 !! dnsmasqConfigPath) ≫= λ c,
  match dnsmasq_test c with
  | (output, Some e) => fail (Wrapf ("config test failed: " +:+ output +:+ ": ") e)
  | (_, None) => mret ()
  end.

Definition is_text (r : res content) (text : string) : bool :=
  match r with Ok (CText s) => bool_decide (s = text) | _ => false end.
Definition ApplyDHCPConfig (config : DHCPConfig) : M DnsmasqProvider () :=
  if negb (ds_Enabled (dc_Server config)) then stopService else
  wrapM "failed to generate config: " (in_files (generateDHCPConfigString config)) ≫= λ newConfig,
  attempt (in_files (os_ReadFile dnsmasqConfigPath)) ≫= λ existingConfig,
  if is_text existingConfig newConfig then mret () else
  wrapM "failed to write config: " (in_files (writeDHCPConfig newConfig)) ≫= λ _,
  wrapM "config validation failed: " testConfig ≫= λ _,
  wrapM "failed to reload dnsmasq: " reloadService.
Definition ValidateDHCP (config : DHCPConfig) : option error := ValidateDHCPConfig (Some config).
Definition FlushDHCP : M DnsmasqProvider () := mret ().
Definition EnableDHCP : M DnsmasqProvider () := startService.
Definition DisableDHCP : M DnsmasqProvider () := stopService.
Definition lease_lines (data : content) : list string :=
  match data with
  | CText s => List.filter (λ line, nonempty (trim_space line)) (split newline s)
  | _ => []
  end.
Definition StatusDHCP : M DnsmasqProvider (bool * string * Z) :=
  isServiceRunning ≫= λ enabled,
  attempt (in_files (os_ReadFile "/var/lib/misc/dnsmasq.leases")) ≫= λ data,
  mret (enabled, "dnsmasq",
        match data with Ok c => Z.of_nat (length (lease_lines c)) | _ => 0 end).

Definition ApplyDNSConfig (config : DNSConfig) : M DnsmasqProvider () :=
  if negb (dn_Enabled (dn_Server config)) then stopService else
  wrapM "failed to generate config: " (in_files (generateDNSConfig config)) ≫= λ _,
  wrapM "config validation failed: " testConfig ≫= λ _,
  wrapM "failed to reload dnsmasq: " reloadService.
Definition ValidateDNS (config : DNSConfig) : option error := ValidateDNSConfig (Some config).
Definition FlushDNS : M DnsmasqProvider () := reloadService.
Definition EnableDNS : M DnsmasqProvider () := startService.
Definition DisableDNS : M DnsmasqProvider () := stopService.
Definition StatusDNS : M DnsmasqProvider (bool * string * Z) :=
  isServiceRunning ≫= λ enabled, mret (enabled, "dnsmasq", 0).

(** ** rpc_provider.go: the JSON of a request as a map, and as a configuration *)

Definition rpc_ApplyConfig (configMap : res (gomap value)) (dhcpConfig : res DHCPConfig)
  : M DnsmasqProvider () :=
  lift configMap ≫= λ configMap,
  if (size (gm configMap) =? 0)%nat then mret () else
  lift dhcpConfig ≫= λ dhcpConfig, ApplyDHCPConfig dhcpConfig.
Definition rpc_ValidateConfig (dhcpConfig : res DHCPConfig) : res () :=
  dhcpConfig ≫= λ dhcpConfig, check (ValidateDHCP dhcpConfig).
Definition rpc_Flush : M DnsmasqProvider () := FlushDHCP.
Definition rpc_Status : M DnsmasqProvider (list (string * (bool + string + Z))) :=
  StatusDHCP ≫= λ '(enabled, provider, leaseCount),
  mret [("enabled", inl (inl enabled)); ("provider", inl (inr provider)); ("lease_count", inr leaseCount)].
End dnsmasq.

(** ** Lemmas *)

Section lemmas.
Context `{Template} `{DnsmasqHost} `{OS} `{RangeOrder}.

(** Reading leaves the files alone. *)
Definition files_are (F : gmap string content) (fs : FS) : Prop := fs_files fs = F.
Lemma files_ReadFile F path : preserves (files_are F) (os_ReadFile path).
Proof.
  intros fs Hf. unfold os_ReadFile, wp, mbind, M_bind, syscall, gets. cbn.
  destruct (os_error _) as [[e b]|]; [done|]. by destruct (fs_files fs !! path).
Qed.
Lemma files_LoadConfig F {A} (dec : json → res A) ns :
  (∀ j, no_panic (dec j)) → preserves (files_are F) (LoadConfig dec ns).
Proof.
  intros Hd. unfold LoadConfig. apply pres_bind; [apply pres_wrapM, files_ReadFile|]. intros c.
  apply pres_lift, no_panic_wrap. by destruct c.
Qed.
Lemma files_load_interfaces F : preserves (files_are F) load_interfaces.
Proof.
  apply pres_bind; [|intros; apply pres_ret].
  apply pres_attempt, files_LoadConfig, Unmarshal_InterfacesConfig_no_panic.
Qed.
Lemma files_generate F config : preserves (files_are F) (generateDHCPConfigString config).
Proof.
  unfold generateDHCPConfigString, getInterfaceIPs, getInterfaceDevices.
  apply pres_bind; [apply pres_wrapM, files_ReadFile|]. intros c.
  apply pres_bind; [apply pres_wrapM, pres_lift; destruct c; cbn; try done; by destruct (template_Parse s)|].
  intros t. apply pres_bind; [apply pres_bind; [apply files_load_interfaces|intros; apply pres_ret]|]. intros ips.
  apply pres_bind; [apply pres_bind; [apply files_load_interfaces|intros; apply pres_ret]|]. intros devices.
  apply pres_wrapM, pres_lift. by destruct (template_Execute _ _).
Qed.
Lemma generate_run config fs r fs1 :
  generateDHCPConfigString config fs = (r, fs1) → no_panic r ∧ fs_files fs1 = fs_files fs.
Proof.
  intros E. pose proof (files_generate (fs_files fs) config fs eq_refl) as Hp. unfold wp in Hp.
  rewrite E in Hp. by destruct r.
Qed.

(** What writing the text leaves. *)
Definition written (text : string) (fs fs' : FS) : Prop :=
  ∀ q, q ≠ dnsmasqConfigPath → fs_files fs' !! q = fs_files fs !! q.
Lemma writeDHCPConfig_wp text fs :
  wp (writeDHCPConfig text) fs
    (λ _ fs', fs_files fs' = <[dnsmasqConfigPath := CText text]> (fs_files fs)) (written text fs).
Proof.
  unfold writeDHCPConfig. apply wp_bind, wp_wrapM. unfold os_MkdirAll, wp, mbind, M_bind, syscall. cbn.
  destruct (os_error (fs_tick fs)) as [[e b]|]; [by intros q _|]. cbn.
  unfold wrapM, os_WriteFile, mbind, M_bind, syscall. cbn.
  destruct (os_error _) as [[e [|]]|]; cbn; [|by intros q _|done].
  intros q Hq. cbn. by rewrite lookup_insert_ne.
Qed.
End lemmas.

(** ** Properties *)

Section properties.
Context `{Template} `{DnsmasqHost} `{OS} `{RangeOrder}.

(** C25: applying an enabled DHCP configuration never panics and touches no file
    but dnsmasq's.  When it returns nil, that file holds the text generated from
    the configuration, and either it held it before and nothing was run, or the
    text passed dnsmasq's test and the service was reloaded. *)
Theorem ApplyDHCPConfig_ok config p r p' :
  ds_Enabled (dc_Server config) = true → ApplyDHCPConfig config p = (r, p') →
  no_panic r ∧
  (∀ q, q ≠ dnsmasqConfigPath → fs_files p'.1 !! q = fs_files p.1 !! q) ∧
  (r = Ok () → ∃ text, (generateDHCPConfigString config p.1).1 = Ok text ∧
    fs_files p'.1 !! dnsmasqConfigPath = Some (CText text) ∧
    ((fs_files p'.1 = fs_files p.1 ∧ p'.2 = p.2) ∨
     ((dnsmasq_test (Some (CText text))).2 = None ∧
      systemctl "reload-or-restart" p.2 = (None, p'.2)))).
Proof.
  intros He E. destruct p as [fs h]. unfold ApplyDHCPConfig in E. rewrite He in E. cbn [negb] in E.
  destruct (generateDHCPConfigString config fs) as [r0 fs1] eqn:Eg.
  destruct (generate_run _ _ _ _ Eg) as [Hr0 Hf1].
  assert (in_files (generateDHCPConfigString config) (fs, h) = (r0, (fs1, h))) as Eg'
    by (unfold in_files; cbn; by rewrite Eg).
  rewrite (bind_wrap_eq _ _ _ _ _ _ Eg') in E. cbn [fst snd].
  destruct r0 as [text|e|w]; [|injection E as <- <-; cbn; by rewrite Hf1|done].
  pose proof (files_ReadFile (fs_files fs) dnsmasqConfigPath fs1 Hf1) as Hread. unfold wp in Hread.
  destruct (os_ReadFile dnsmasqConfigPath fs1) as [rd fs2] eqn:Er.
  assert (no_panic rd ∧ fs_files fs2 = fs_files fs) as [Hrd Hf2] by by destruct rd.
  assert (attempt (in_files (os_ReadFile dnsmasqConfigPath)) (fs1, h) = (Ok rd, (fs2, h))) as Er'.
  { apply attempt_eq; [|done]. unfold in_files. cbn. by rewrite Er. }
  rewrite (bind_eq _ _ _ _ _ Er') in E. destruct (is_text rd text) eqn:Ht.
  { injection E as <- <-. cbn. split_and!; [done|by rewrite Hf2|]. intros _. exists text.
    rewrite Hf2. split_and!; [by rewrite Eg| |by left]. destruct rd as [[| |s|]| |]; try done.
    apply bool_decide_eq_true in Ht as ->. unfold os_ReadFile, mbind, M_bind, syscall, gets in Er.
    cbn in Er. rewrite Hf1 in Er. destruct (os_error _) as [[e b]|]; [done|].
    destruct (fs_files fs !! dnsmasqConfigPath) eqn:El; [|done]. by injection Er as -> _. }
  pose proof (writeDHCPConfig_wp text fs2) as Hw. unfold wp in Hw.
  destruct (writeDHCPConfig text fs2) as [rw fs3] eqn:Ew.
  assert (in_files (writeDHCPConfig text) (fs2, h) = (rw, (fs3, h))) as Ew'
    by (unfold in_files; cbn; by rewrite Ew).
  rewrite (bind_wrap_eq _ _ _ _ _ _ Ew') in E.
  assert (∀ q, q ≠ dnsmasqConfigPath → fs_files fs3 !! q = fs_files fs !! q) as Hq.
  { intros q Hq. rewrite <- Hf2. destruct rw; [|by apply Hw|done]. rewrite Hw. by apply lookup_insert_ne. }
  destruct rw as [[]|e|w]; [|injection E as <- <-; done|done].
  revert E. unfold testConfig, reloadService, run_systemctl, wrapM, mbind, M_bind, gets. cbn.
  rewrite Hw, lookup_insert_eq. destruct (dnsmasq_test (Some (CText text))) as [out [e|]] eqn:Et; cbn.
  { intros [= <- <-]. done. }
  destruct (systemctl "reload-or-restart" h) as [[e|] h'] eqn:Es; cbn; intros [= <- <-]; cbn;
    (split; [done|]); (split; [exact Hq|]); [done|].
  intros _. exists text. rewrite ?Eg, ?Et, ?Es, Hw, lookup_insert_eq. split_and!; [done..|]. by right.
Qed.

(** When dnsmasq's file holds the generated text already and can be read,
    applying the configuration reports success without a test and without
    touching the service: also when that text was refused before, and when the
    service was stopped in between. *)
Theorem text_in_place_is_skipped config p text fs1 :
  ds_Enabled (dc_Server config) = true →
  generateDHCPConfigString config p.1 = (Ok text, fs1) → os_error (fs_tick fs1) = None →
  fs_files p.1 !! dnsmasqConfigPath = Some (CText text) →
  ∃ fs', ApplyDHCPConfig config p = (Ok (), (fs', p.2)) ∧ fs_files fs' = fs_files p.1.
Proof.
  intros He Eg Ho Hf. destruct p as [fs h]. cbn [fst snd] in *.
  destruct (generate_run _ _ _ _ Eg) as [_ Hf1]. unfold ApplyDHCPConfig. rewrite He. cbn [negb].
  assert (in_files (generateDHCPConfigString config) (fs, h) = (Ok text, (fs1, h))) as Eg'
    by (unfold in_files; cbn; by rewrite Eg).
  rewrite (bind_wrap_eq _ _ _ _ _ _ Eg').
  assert (os_ReadFile dnsmasqConfigPath fs1 =
    (Ok (CText text), {| fs_files := fs_files fs1; fs_tick := fs_tick fs1 + 1 |})) as Er.
  { unfold os_ReadFile, mbind, M_bind, syscall, gets. cbn. by rewrite Ho, Hf1, Hf. }
  assert (attempt (in_files (os_ReadFile dnsmasqConfigPath)) (fs1, h) = (Ok (Ok (CText text)),
    ({| fs_files := fs_files fs1; fs_tick := fs_tick fs1 + 1 |}, h))) as Er'.
  { apply attempt_eq; [|done]. unfold in_files. cbn. by rewrite Er. }
  rewrite (bind_eq _ _ _ _ _ Er'). cbn [is_text]. rewrite bool_decide_eq_true_2 by done.
  by eexists.
Qed.
End properties.

(** ** Witnesses and examples *)

(** The shipped template, and a host whose dnsmasq refuses texts with a certain
    word; its state is whether the service runs. *)
Definition template_name : string := "dnsmasq.conf.tmpl".
Definition shipped_template : Template := {|
  tmpl := ();
  template_Parse s := if bool_decide (s = template_name) then inr () else inl (ErrorText "no template");
  template_Execute _ data := inr (dhcp_template data);
|}.
Definition sample_host (refused : string) : DnsmasqHost := {|
  host := bool;
  h_LookPath _ := None;
  systemctl verb h :=
    if bool_decide (verb = "stop") then (None, false)
    else if bool_decide (verb = "is-active") then (if h : bool then None else Some (ErrorText "inactive"), h)
    else (None, true);
  dnsmasq_test c := match c with
    | Some (CText s) => if str_contains s refused then ("bad option", Some (ErrorText "exit status 1")) else ("", None)
    | _ => ("", Some (ErrorText "exit status 3"))
    end;
|}.
Definition sample_pool (start limit : Z) : DHCPPool :=
  {| dp_Interface := "lan"; dp_Start := start; dp_Limit := limit; dp_LeaseTime := "12h";
     dp_DHCPv4 := "server"; dp_DHCPv6 := ""; dp_RA := ""; dp_RAManagement := 0; dp_RADefault := 0;
     dp_DNS := ["192.168.1.1"]; dp_Domain := "home.lan"; dp_Comment := "LAN" |}.
Definition sample_dhcp (enabled : bool) (pools : gmap string DHCPPool) : DHCPConfig :=
  {| dc_Version := "1.0";
     dc_Server := {| ds_Enabled := enabled; ds_Domain := ""; ds_LeaseFile := ""; ds_Authoritative := true;
                     ds_LogDHCP := false; ds_Comment := "" |};
     dc_DHCPPools := Some pools; dc_StaticLeases := [] |}.
Definition one_pool : DHCPConfig := sample_dhcp true {["lan" := sample_pool 100 50]}.
Definition lan_interfaces : InterfacesConfig :=
  {| ic_Interfaces := Some {["lan" := with_field "ipaddr" (VStr "192.168.1.1")
       (with_field "device_name" (VStr "br-lan") (with_field "type" (VStr "bridge") zero_Interface))]};
     ic_Version := "1.0" |}.
Definition sample_files : FS :=
  {| fs_files := {[dnsmasqTemplatePath := CText template_name;
       "/etc/jack/interfaces.json" := CJson (enc_struct enc_config_field lan_interfaces)]};
     fs_tick := 0 |}.
Definition apply_dhcp (refused : string) (c : DHCPConfig) (p : FS * bool) : res () * (FS * bool) :=
  @ApplyDHCPConfig shipped_template (sample_host refused) reliable_os default_order c p.

Lemma one_pool_enabled : ds_Enabled (dc_Server one_pool) = true.
Proof. reflexivity. Defined.
Lemma ApplyDHCPConfig_ok_witness :
  no_panic (apply_dhcp "xyzzy" one_pool (sample_files, false)).1 ∧
  (apply_dhcp "xyzzy" one_pool (sample_files, false)).1 = Ok ().
Proof.
  split; [|vm_compute; reflexivity].
  exact (proj1 (@ApplyDHCPConfig_ok shipped_template (sample_host "xyzzy") reliable_os default_order
    one_pool (sample_files, false) _ _ one_pool_enabled
    (surjective_pairing (apply_dhcp "xyzzy" one_pool (sample_files, false))))).
Defined.

(** Findings: a configuration that dnsmasq refuses is reported as applied the
    second time; and a service that was stopped by disabling DHCP is not started
    again by enabling it. *)
Definition refused : FS * bool := (apply_dhcp "dhcp-range" one_pool (sample_files, false)).2.
Example refused_then_accepted :
  (apply_dhcp "dhcp-range" one_pool (sample_files, false)).1 ≠ Ok () ∧
  apply_dhcp "dhcp-range" one_pool refused = (Ok (), (apply_dhcp "dhcp-range" one_pool refused).2) ∧
  (apply_dhcp "dhcp-range" one_pool refused).2.2 = false.
Proof. vm_compute. by split_and!. Qed.
Definition stopped : FS * bool :=
  (apply_dhcp "xyzzy" (sample_dhcp false ∅) (apply_dhcp "xyzzy" one_pool (sample_files, false)).2).2.
Example enabled_but_stopped :
  stopped.2 = false ∧ (apply_dhcp "xyzzy" one_pool stopped).1 = Ok () ∧
  (apply_dhcp "xyzzy" one_pool stopped).2.2 = false.
Proof. vm_compute. by split_and!. Qed.

Definition refused_text : string :=
  default "" (match fs_files refused.1 !! dnsmasqConfigPath with Some (CText s) => Some s | _ => None end).
Lemma text_in_place_is_skipped_witness :
  ∃ fs', @ApplyDHCPConfig shipped_template (sample_host "dhcp-range") reliable_os default_order
      one_pool refused = (Ok (), (fs', refused.2)) ∧ fs_files fs' = fs_files refused.1.
Proof.
  refine (@text_in_place_is_skipped shipped_template (sample_host "dhcp-range") reliable_os default_order
    one_pool refused refused_text
    (@generateDHCPConfigString shipped_template reliable_os default_order one_pool refused.1).2
    one_pool_enabled (run_eq _ _ _) eq_refl _); vm_compute; reflexivity.
Defined.

(** The text of a pool. *)
Example pool_lines :
  pool_text {| td_Config := one_pool; td_InterfaceIPs := {["lan" := "192.168.1.1"]};
      td_InterfaceDevices := {["lan" := "br-lan"]}; td_NetworkPortion := NetworkPortion |}
    (sample_pool 100 50) =
  join nl [""; ""; "# lan - LAN"; "interface=br-lan"; "dhcp-range=br-lan,192.168.1.100,192.168.1.150,12h";
    "dhcp-option=br-lan,6,192.168.1.1"; "dhcp-option=br-lan,15,home.lan"].
Proof. vm_compute. reflexivity. Qed.
(** A finding: the range ends at start + limit, one address after the pool's
    limit, so pools that the Validate method calls apart can share an address. *)
Example adjacent_pools_share_an_address :
  let pools : gmap string DHCPPool := {["a" := sample_pool 100 50; "b" := sample_pool 150 50]} in
  @DHCPConfig_Validate default_order (sample_dhcp true pools) = None ∧
  dp_Start (sample_pool 100 50) + dp_Limit (sample_pool 100 50) = dp_Start (sample_pool 150 50).
Proof. vm_compute. by split. Qed.
