(* ===== verification/Leds.v ===== *)
(** * Leds: the LED plugin (plugins/core/leds)

    types.go, leds_config.go, leds.go, provider.go and rpc_provider.go.  The
    LEDs are the directories under /sys/class/leds, whose files are attributes
    of the LED driver and not files that keep what is written to them: [Sysfs]
    is the calls, and [LedLaws] is what the kernel documents of the attributes
    the plugin uses, over a view of the devices.  The theorems: reading the list
    of triggers back; what the LEDs are after a configuration was applied and
    after it was flushed; what a validated configuration is. *)
From S2P Require Import Prelude GoStr Types Json Value Struct Codec Registry Loader.

(** ** types.go *)

Record LEDSettings := {
  ls_Brightness : Z; ls_Trigger : string; ls_DelayOn : Z; ls_DelayOff : Z; ls_Pattern : string;
  ls_Repeat : Z; ls_DeviceName : string; ls_Mode : string;
}.
Record LEDConfig := { lc_LEDs : gomap LEDSettings }.
Record LEDState := {
  st_Name : string; st_Brightness : Z; st_MaxBrightness : Z; st_CurrentTrigger : string;
  st_AvailTriggers : list string;
}.
Record LEDStatus := { st_LEDs : list LEDState }.

#[export] Instance LEDSettings_struct : Struct LEDSettings := {
  rows s := [
    ("brightness", VInt (ls_Brightness s)); ("trigger", VStr (ls_Trigger s));
    ("delay_on", VInt (ls_DelayOn s)); ("delay_off", VInt (ls_DelayOff s));
    ("pattern", VStr (ls_Pattern s)); ("repeat", VInt (ls_Repeat s));
    ("device_name", VStr (ls_DeviceName s)); ("mode", VStr (ls_Mode s))];
  omitempty t := negb (one_of ["brightness"] t);
  build g := {|
    ls_Brightness := as_int (g "brightness"); ls_Trigger := as_str (g "trigger");
    ls_DelayOn := as_int (g "delay_on"); ls_DelayOff := as_int (g "delay_off");
    ls_Pattern := as_str (g "pattern"); ls_Repeat := as_int (g "repeat");
    ls_DeviceName := as_str (g "device_name"); ls_Mode := as_str (g "mode") |};
  schema := [
    ("brightness", KInt); ("trigger", KStr); ("delay_on", KInt); ("delay_off", KInt);
    ("pattern", KStr); ("repeat", KInt); ("device_name", KStr); ("mode", KStr)];
}.
(** json.Unmarshal into a fresh LEDConfig: one field, a map of structs. *)
Fixpoint dec_led_config (m : gomap LEDSettings) (kvs : list (string * json)) : res LEDConfig :=
  match kvs with
  | [] => Ok {| lc_LEDs := m |}
  | (k, j) :: kvs =>
      match find_key ["leds"] k with
      | None => dec_led_config m kvs
      | Some _ => dec_map (dec_struct dec_base zero_struct) m j ≫= λ m, dec_led_config m kvs
      end
  end.
Definition Unmarshal_LEDConfig (j : json) : res LEDConfig :=
  match j with
  | JNull => Ok {| lc_LEDs := None |}
  | JObj kvs => dec_led_config None kvs
  | _ => Err type_error
  end.
Definition enc_LEDConfig (c : LEDConfig) : json :=
  JObj [("leds", enc_map (enc_struct enc_base) (lc_LEDs c))].
Definition enc_LEDState (s : LEDState) : json :=
  JObj ([("name", JStr (st_Name s)); ("brightness", JInt (st_Brightness s));
         ("max_brightness", JInt (st_MaxBrightness s));
         ("current_trigger", JStr (st_CurrentTrigger s))] ++
        match st_AvailTriggers s with [] => [] | l => [("available_triggers", JArr (JStr <$> l))] end).
Definition enc_LEDStatus (s : LEDStatus) : json := JObj [("leds", JArr (enc_LEDState <$> st_LEDs s))].

(** ** leds_config.go *)

Definition lbracket : ascii := byte_of 91.
Definition rbracket : ascii := byte_of 93.
Definition first_or_empty (l : list string) : string := default "" (head l).
Definition ParseActiveTrigger (triggerContent : string) : string :=
  match index_of (String lbracket "") triggerContent, index_of (String rbracket "") triggerContent with
  | Some start, Some end_ =>
      if (start <? end_)%nat then slice_str triggerContent (S start) end_
      else first_or_empty (fields triggerContent)
  | _, _ => first_or_empty (fields triggerContent)
  end.
Definition ParseAvailableTriggers (triggerContent : string) : list string :=
  fields (remove_byte rbracket (remove_byte lbracket triggerContent)).
Definition validFlags : list string :=
  ["link"; "tx"; "rx"; "tx_err"; "rx_err"; "full_duplex"; "half_duplex"].
Definition check_flag (flag : string) : option error :=
  if bool_decide (flag ∈ validFlags) then None
  else Some (ErrorText ("invalid netdev mode flag: " +:+ flag)).
Definition ValidateNetdevMode (mode : string) : option error :=
  if bool_decide (mode = "") then None else first_error (fields mode) check_flag.

(** ** leds.go *)

(** The calls of package os on paths under /sys. *)
Class Sysfs := {
  sysfs : Type;
  sys_ReadDir : string → sysfs → error + list string;
  sys_Stat : string → sysfs → option error;
  sys_ReadFile : string → sysfs → error + string;
  sys_WriteFile : string → string → sysfs → option error * sysfs;
}.

Definition LEDBasePath : string := "/sys/class/leds".
Definition GetLEDPath (ledName : string) : string := filepath_Join LEDBasePath ledName.

Section leds.
Context `{Sysfs}.

Definition LEDExists (ledName : string) (s : sysfs) : bool :=
  bool_decide (sys_Stat (GetLEDPath ledName) s = None).
Definition ListLEDs : M sysfs (list string) := λ s,
  match sys_ReadDir LEDBasePath s with
  | inl err => (Err (Wrapf ("failed to list LEDs at " +:+ LEDBasePath +:+ ": ") err), s)
  | inr entries => (Ok (List.filter (λ entry, LEDExists entry s) entries), s)
  end.
Definition readLEDFile (ledName fileName : string) : M sysfs string := λ s,
  match sys_ReadFile (filepath_Join (GetLEDPath ledName) fileName) s with
  | inl err => (Err (Wrapf ("failed to read " +:+ fileName +:+ " for LED " +:+ ledName +:+ ": ") err), s)
  | inr data => (Ok (trim_space data), s)
  end.
Definition writeLEDFile (ledName fileName value : string) : M sysfs () := λ s,
  match sys_WriteFile (filepath_Join (GetLEDPath ledName) fileName) value s with
  | (Some err, s') =>
      (Err (Wrapf ("failed to write " +:+ value +:+ " to " +:+ fileName +:+ " for LED " +:+ ledName +:+ ": ") err), s')
  | (None, s') => (Ok (), s')
  end.
Definition SetBrightness (ledName : string) (brightness : Z) : M sysfs () :=
  writeLEDFile ledName "brightness" (itoa brightness).
Definition GetBrightness (ledName : string) : M sysfs Z :=
  readLEDFile ledName "brightness" ≫= λ value, lift (atoi value).
Definition GetMaxBrightness (ledName : string) : M sysfs Z :=
  readLEDFile ledName "max_brightness" ≫= λ value, lift (atoi value).
Definition SetTrigger (ledName trigger : string) : M sysfs () := writeLEDFile ledName "trigger" trigger.
Definition GetTrigger (ledName : string) : M sysfs string :=
  readLEDFile ledName "trigger" ≫= λ value, mret (ParseActiveTrigger value).
Definition GetAvailableTriggers (ledName : string) : M sysfs (list string) :=
  readLEDFile ledName "trigger" ≫= λ value, mret (ParseAvailableTriggers value).
Definition SetDelayOn (ledName : string) (ms : Z) : M sysfs () := writeLEDFile ledName "delay_on" (itoa ms).
Definition SetDelayOff (ledName : string) (ms : Z) : M sysfs () := writeLEDFile ledName "delay_off" (itoa ms).
Definition SetPattern (ledName pattern : string) : M sysfs () := writeLEDFile ledName "pattern" pattern.
Definition SetRepeat (ledName : string) (count : Z) : M sysfs () := writeLEDFile ledName "repeat" (itoa count).
Definition SetNetdevDevice (ledName deviceName : string) : M sysfs () :=
  writeLEDFile ledName "device_name" deviceName.
Definition SetNetdevMode (ledName mode : string) : M sysfs () :=
  lift (check (ValidateNetdevMode mode)) ≫= λ _,
  for_each (fields mode) (λ flag,
    wrapM ("failed to enable " +:+ flag +:+ ": ") (writeLEDFile ledName flag "1")).

(** ** provider.go *)

Record LEDProvider := {
  lp_appliedLEDs : gmap string LEDSettings; lp_originalState : gmap string LEDSettings;
}.
Definition NewLEDProvider : LEDProvider := {| lp_appliedLEDs := ∅; lp_originalState := ∅ |}.
(** The provider and the devices; its methods hold the mutex. *)
Definition Leds : Type := LEDProvider * sysfs.
Definition on_leds {A} (m : M sysfs A) : M Leds A := λ p,
  match m p.2 with (r, s) => (r, (p.1, s)) end.
Definition set_original (ledName : string) (settings : LEDSettings) (p : LEDProvider) : LEDProvider :=
  {| lp_appliedLEDs := lp_appliedLEDs p; lp_originalState := <[ledName := settings]> (lp_originalState p) |}.
Definition set_applied (ledName : string) (settings : LEDSettings) (p : LEDProvider) : LEDProvider :=
  {| lp_appliedLEDs := <[ledName := settings]> (lp_appliedLEDs p); lp_originalState := lp_originalState p |}.
Definition modify_provider (f : LEDProvider → LEDProvider) : M Leds () := modify (λ p, (f p.1, p.2)).
Definition led_settings (brightness : Z) (trigger : string) : LEDSettings :=
  {| ls_Brightness := brightness; ls_Trigger := trigger; ls_DelayOn := 0; ls_DelayOff := 0;
     ls_Pattern := ""; ls_Repeat := 0; ls_DeviceName := ""; ls_Mode := "" |}.
Definition saveOriginalState (ledName : string) : M Leds () :=
  on_leds (GetBrightness ledName) ≫= λ brightness,
  on_leds (GetTrigger ledName) ≫= λ trigger,
  modify_provider (set_original ledName (led_settings brightness trigger)).

Definition when_do (b : bool) (what : string) (m : M sysfs ()) : M sysfs () :=
  if b then wrapM what m else mret ().
Definition applyLEDSettings (ledName : string) (settings : LEDSettings) : M sysfs () :=
  when_do (nonempty (ls_Trigger settings)) "failed to set trigger: "
    (SetTrigger ledName (ls_Trigger settings)) ≫= λ _,
  (if bool_decide (ls_Trigger settings = "timer") then
     when_do (0 <? ls_DelayOn settings) "failed to set delay_on: "
       (SetDelayOn ledName (ls_DelayOn settings)) ≫= λ _,
     when_do (0 <? ls_DelayOff settings) "failed to set delay_off: "
       (SetDelayOff ledName (ls_DelayOff settings))
   else if bool_decide (ls_Trigger settings = "pattern") then
     when_do (nonempty (ls_Pattern settings)) "failed to set pattern: "
       (SetPattern ledName (ls_Pattern settings)) ≫= λ _,
     when_do (negb (ls_Repeat settings =? 0)) "failed to set repeat: "
       (SetRepeat ledName (ls_Repeat settings))
   else if bool_decide (ls_Trigger settings = "netdev") then
     when_do (nonempty (ls_DeviceName settings)) "failed to set device_name: "
       (SetNetdevDevice ledName (ls_DeviceName settings)) ≫= λ _,
     when_do (nonempty (ls_Mode settings)) "failed to set mode: "
       (SetNetdevMode ledName (ls_Mode settings))
   else mret ()) ≫= λ _,
  when_do (0 <=? ls_Brightness settings) "failed to set brightness: "
    (SetBrightness ledName (ls_Brightness settings)).

Section provider.
Context `{RangeOrder}.

Definition led_missing (ledName : string) : error := ErrorText ("LED does not exist: " +:+ ledName).
Definition ApplyConfig (config : LEDConfig) : M Leds () :=
  for_each (range (gm (lc_LEDs config))) (λ '(ledName, _),
    gets (λ p, LEDExists ledName p.2) ≫= λ there,
    if there : bool then mret () else fail (led_missing ledName)) ≫= λ _,
  gets (λ p, size (lp_originalState p.1)) ≫= λ n,
  (if (n =? 0)%nat then
     for_each (range (gm (lc_LEDs config))) (λ '(ledName, _),
       attempt (saveOriginalState ledName) ≫= λ _, mret ())
   else mret ()) ≫= λ _,
  for_each (range (gm (lc_LEDs config))) (λ '(ledName, settings),
    wrapM ("failed to configure LED " +:+ ledName +:+ ": ")
      (on_leds (applyLEDSettings ledName settings)) ≫= λ _,
    modify_provider (set_applied ledName settings)).

Definition check_led (ledName : string) (settings : LEDSettings) : M sysfs () :=
  gets (LEDExists ledName) ≫= λ there,
  if negb there then fail (led_missing ledName) else
  if ls_Brightness settings <? 0
  then fail (ErrorText ("invalid brightness for " +:+ ledName +:+ ": must be >= 0")) else
  wrapM ("failed to get max_brightness for " +:+ ledName +:+ ": ") (GetMaxBrightness ledName)
    ≫= λ maxBrightness,
  if maxBrightness <? ls_Brightness settings
  then fail (ErrorText ("brightness " +:+ itoa (ls_Brightness settings) +:+ " exceeds max_brightness "
              +:+ itoa maxBrightness +:+ " for " +:+ ledName)) else
  if negb (nonempty (ls_Trigger settings)) then mret () else
  wrapM ("failed to get available triggers for " +:+ ledName +:+ ": ") (GetAvailableTriggers ledName)
    ≫= λ availTriggers,
  if bool_decide (ls_Trigger settings ∈ availTriggers) then mret ()
  else fail (ErrorText ("invalid trigger '" +:+ ls_Trigger settings +:+ "' for " +:+ ledName
              +:+ " (available: " +:+ fmt_list availTriggers +:+ ")")).
Definition ValidateConfig (config : option LEDConfig) : M sysfs () :=
  match config with
  | None => fail (ErrorText "config cannot be nil")
  | Some config => for_each (range (gm (lc_LEDs config))) (λ '(ledName, settings), check_led ledName settings)
  end.

(** Every failure is logged; [originalState] is kept. *)
Definition restore_led (ledName : string) (original : LEDSettings) : M sysfs () :=
  (if nonempty (ls_Trigger original)
   then attempt (SetTrigger ledName (ls_Trigger original)) ≫= λ _, mret () else mret ()) ≫= λ _,
  attempt (SetBrightness ledName (ls_Brightness original)) ≫= λ _, mret ().
Definition Flush : M Leds () :=
  gets (λ p, range (lp_originalState p.1)) ≫= λ originals,
  for_each originals (λ '(ledName, original), on_leds (restore_led ledName original)) ≫= λ _,
  modify_provider (λ p, {| lp_appliedLEDs := ∅; lp_originalState := lp_originalState p |}).

(** An LED one of whose files cannot be read is left out. *)
Definition led_state (ledName : string) : M sysfs LEDState :=
  GetBrightness ledName ≫= λ brightness,
  GetMaxBrightness ledName ≫= λ maxBrightness,
  GetTrigger ledName ≫= λ currentTrigger,
  attempt (GetAvailableTriggers ledName) ≫= λ availTriggers,
  mret {| st_Name := ledName; st_Brightness := brightness; st_MaxBrightness := maxBrightness;
          st_CurrentTrigger := currentTrigger;
          st_AvailTriggers := match availTriggers with Ok l => l | _ => [] end |}.
Fixpoint led_states (ledNames : list string) : M sysfs (list LEDState) :=
  match ledNames with
  | [] => mret []
  | ledName :: ledNames =>
      attempt (led_state ledName) ≫= λ r,
      led_states ledNames ≫= λ states,
      mret (match r with Ok state => state :: states | _ => states end)
  end.
Definition Status : M sysfs LEDStatus :=
  wrapM "failed to list LEDs: " ListLEDs ≫= λ allLEDs,
  led_states allLEDs ≫= λ states, mret {| st_LEDs := states |}.
End provider.
End leds.

(** ** rpc_provider.go *)

Definition led_metadata : PluginMetadata :=
  {| pm_Namespace := "led"; pm_Version := "1.0.0"; pm_Description := "System LED control via sysfs";
     pm_Category := "hardware"; pm_ConfigPath := "/etc/jack/led.json"; pm_DefaultConfig := None;
     pm_Dependencies := []; pm_PathPrefix := "leds" |}.

Section rpc.
Context `{Sysfs} `{RangeOrder}.

Definition rpc_ApplyConfig (configJSON : json) : M Leds () :=
  lift (Unmarshal_LEDConfig configJSON) ≫= λ config, ApplyConfig config.
Definition rpc_ValidateConfig (configJSON : json) : M Leds () :=
  lift (Unmarshal_LEDConfig configJSON) ≫= λ config, on_leds (ValidateConfig (Some config)).
Definition rpc_Flush : M Leds () := Flush.
Definition rpc_Status : M Leds json := on_leds Status ≫= λ status, mret (enc_LEDStatus status).
Definition OnLogEvent : M Leds () := fail (ErrorText "plugin does not implement log event handling").

Definition status_line (led : LEDState) : string :=
  pad_right 20 (st_Name led) +:+ " " +:+ pad_right 12 (itoa (st_Brightness led)) +:+ " " +:+
  pad_right 15 (itoa (st_MaxBrightness led)) +:+ " " +:+ pad_right 20 (st_CurrentTrigger led) +:+ nl.
Definition executeStatus : M Leds string :=
  on_leds Status ≫= λ ledStatus,
  let title := "LED Status" +:+ nl +:+ "==========" +:+ nl +:+ nl in
  mret (match st_LEDs ledStatus with
  | [] => title +:+ "No LEDs found" +:+ nl
  | leds =>
      title +:+ pad_right 20 "LED" +:+ " " +:+ pad_right 12 "Brightness" +:+ " " +:+
      pad_right 15 "Max Brightness" +:+ " " +:+ pad_right 20 "Trigger" +:+ nl +:+
      repeat_byte 70 hyphen +:+ nl +:+ join "" (status_line <$> leds)
  end).
Definition list_entry (led : LEDState) : string :=
  st_Name led +:+ nl +:+ "  Max Brightness: " +:+ itoa (st_MaxBrightness led) +:+ nl +:+
  "  Current Trigger: " +:+ st_CurrentTrigger led +:+ nl +:+
  match st_AvailTriggers led with
  | [] => ""
  | l => "  Available Triggers: " +:+ join ", " l +:+ nl
  end +:+ nl.
Definition executeList : M Leds string :=
  on_leds Status ≫= λ ledStatus,
  let title := "Available LEDs" +:+ nl +:+ "==============" +:+ nl +:+ nl in
  mret (match st_LEDs ledStatus with
  | [] => title +:+ "No LEDs found" +:+ nl
  | leds => title +:+ join "" (list_entry <$> leds)
  end).
Definition ExecuteCLICommand (command : string) : M Leds string :=
  match fields command with
  | [] => fail (ErrorText "empty command")
  | name :: rest =>
      if negb (bool_decide (name = "led")) then fail (ErrorText ("unknown command: " +:+ name)) else
      match rest with
      | [] => fail (ErrorText "led command requires subcommand: status or list")
      | subcommand :: _ =>
          if bool_decide (subcommand = "status") then executeStatus
          else if bool_decide (subcommand = "list") then executeList
          else fail (ErrorText ("unknown led subcommand: " +:+ subcommand))
      end
  end.
End rpc.

(** ** What the kernel documents of an LED

    Documentation/ABI/testing/sysfs-class-led: reading [trigger] lists the
    triggers with the active one in brackets; writing one selects it; writing 0
    to [brightness] clears the active trigger, and another number sets the
    brightness, or what the active trigger uses for "on".  An unknown trigger is
    refused.  What a trigger does to the brightness is left open. *)
Record led := { led_Max : Z; led_Brightness : Z; led_Trigger : string; led_Triggers : list string }.
(** The names of LEDs the theorems speak of: those of directories. *)
Definition plain (n : string) : Prop := n ≠ "" ∧ n ≠ "." ∧ n ≠ ".." ∧ contains_byte slash n = false.
Definition trigger_name (t : string) : Prop :=
  word t ∧ contains_byte lbracket t = false ∧ contains_byte rbracket t = false.
Definition led_ok (d : led) : Prop :=
  0 ≤ led_Brightness d ≤ led_Max d ∧ led_Max d ≤ max_int64 ∧
  led_Trigger d ∈ led_Triggers d ∧ "none" ∈ led_Triggers d ∧ Forall trigger_name (led_Triggers d).
Definition bracketed (active t : string) : string :=
  if bool_decide (t = active) then String lbracket "" +:+ t +:+ String rbracket "" else t.
Definition trigger_text (triggers : list string) (active : string) : string :=
  join " " (bracketed active <$> triggers).
Definition led_file (n f : string) : string := filepath_Join (GetLEDPath n) f.
(** What is the same after any write to the LED. *)
Definition same_kind (d d' : led) : Prop := led_Max d' = led_Max d ∧ led_Triggers d' = led_Triggers d.

Class LedLaws `{Sysfs} := {
  led_of : sysfs → string → option led;
  ll_ok s n d : led_of s n = Some d → led_ok d;
  ll_Stat s n : plain n → sys_Stat (GetLEDPath n) s = None ↔ is_Some (led_of s n);
  ll_read_max s n d v : plain n → led_of s n = Some d →
    sys_ReadFile (led_file n "max_brightness") s = inr v → v = itoa (led_Max d) +:+ nl;
  ll_read_brightness s n d v : plain n → led_of s n = Some d →
    sys_ReadFile (led_file n "brightness") s = inr v → v = itoa (led_Brightness d) +:+ nl;
  ll_read_trigger s n d v : plain n → led_of s n = Some d →
    sys_ReadFile (led_file n "trigger") s = inr v → v = trigger_text (led_Triggers d) (led_Trigger d) +:+ nl;
  (* a write concerns one LED, and a failed one none *)
  ll_other s n f v s' e m : plain n → plain f → plain m →
    sys_WriteFile (led_file n f) v s = (e, s') → (m ≠ n ∨ e ≠ None) → led_of s' m = led_of s m;
  ll_parameter s n f v s' d : plain n → plain f → f ≠ "trigger" → f ≠ "brightness" →
    sys_WriteFile (led_file n f) v s = (None, s') → led_of s n = Some d →
    ∃ d', led_of s' n = Some d' ∧ same_kind d d' ∧ led_Trigger d' = led_Trigger d;
  ll_trigger s n t s' d : plain n → trigger_name t →
    sys_WriteFile (led_file n "trigger") t s = (None, s') → led_of s n = Some d →
    t ∈ led_Triggers d ∧ ∃ d', led_of s' n = Some d' ∧ same_kind d d' ∧ led_Trigger d' = t;
  ll_brightness s n b s' d : plain n → 0 ≤ b →
    sys_WriteFile (led_file n "brightness") (itoa b) s = (None, s') → led_of s n = Some d →
    ∃ d', led_of s' n = Some d' ∧ same_kind d d' ∧
      led_Trigger d' = (if b =? 0 then "none" else led_Trigger d) ∧
      (led_Trigger d' = "none" → led_Brightness d' = Z.min b (led_Max d));
}.

(** ** Lemmas: the list of triggers *)

Lemma slice_str_middle a b c :
  slice_str (a +:+ b +:+ c) (String.length a) (String.length a + String.length b) = b.
Proof.
  unfold slice_str. rewrite drop_str_app. replace (_ - _)%nat with (String.length b) by lia.
  apply take_str_app.
Qed.
Lemma ParseActiveTrigger_bracket pre t post :
  contains_byte lbracket pre = false → contains_byte rbracket pre = false →
  contains_byte rbracket t = false →
  ParseActiveTrigger (pre +:+ String lbracket (t +:+ String rbracket post)) = t.
Proof.
  intros Hl Hr Ht. unfold ParseActiveTrigger. rewrite index_of_byte by done.
  replace (pre +:+ String lbracket (t +:+ String rbracket post))
    with ((pre +:+ String lbracket t) +:+ String rbracket post) by apply app_str_assoc.
  rewrite index_of_byte by (by rewrite contains_byte_app, Hr; cbn).
  rewrite length_app_str. cbn [String.length].
  assert ((String.length pre <? String.length pre + S (String.length t))%nat = true) as ->
    by (apply Nat.ltb_lt; lia).
  rewrite app_str_assoc. change (String lbracket t +:+ ?x) with (String lbracket "" +:+ (t +:+ x)).
  rewrite <- (app_str_assoc pre).
  pose proof (slice_str_middle (pre +:+ String lbracket "") t (String rbracket post)) as Hs.
  rewrite length_app_str in Hs. cbn [String.length] in Hs.
  replace (S (String.length pre)) with (String.length pre + 1)%nat by lia.
  replace (String.length pre + S (String.length t))%nat
    with (String.length pre + 1 + String.length t)%nat by lia. done.
Qed.

Lemma remove_byte_app c a b : remove_byte c (a +:+ b) = remove_byte c a +:+ remove_byte c b.
Proof.
  induction a as [|x a IH]; [done|]. change (String x a +:+ b) with (String x (a +:+ b)). cbn.
  rewrite IH. by destruct (Ascii.eqb x c).
Qed.
Lemma remove_byte_none c a : contains_byte c a = false → remove_byte c a = a.
Proof. induction a as [|x a IH]; [done|]. cbn. intros [-> Ha]%orb_false_iff. by rewrite IH. Qed.
Lemma join_cons sep w l : l ≠ [] → join sep (w :: l) = w +:+ sep +:+ join sep l.
Proof. by destruct l. Qed.
Definition cleaned (s : string) : string := remove_byte rbracket (remove_byte lbracket s).
Lemma cleaned_app a b : cleaned (a +:+ b) = cleaned a +:+ cleaned b.
Proof. unfold cleaned. by rewrite !remove_byte_app. Qed.
Lemma cleaned_bracketed active t : trigger_name t → cleaned (bracketed active t) = t.
Proof.
  intros (_ & Hl & Hr). assert (cleaned t = t) as Ht by (unfold cleaned; by rewrite (remove_byte_none lbracket), (remove_byte_none rbracket)).
  unfold bracketed. case_bool_decide; [|done]. rewrite !cleaned_app, Ht.
  change (cleaned (String lbracket "")) with "". change (cleaned (String rbracket "")) with "".
  apply app_str_nil_r.
Qed.
Lemma cleaned_text active l :
  Forall trigger_name l → cleaned (trigger_text l active) = join " " l.
Proof.
  unfold trigger_text. induction 1 as [|t l Ht Hl IH]; [done|]. destruct l as [|t' l]; [by apply cleaned_bracketed|].
  cbn [fmap list_fmap] in *. rewrite !join_cons by done. rewrite !cleaned_app, IH, cleaned_bracketed by done.
  done.
Qed.
Lemma bracketed_other active t : t ≠ active → bracketed active t = t.
Proof. intros Hn. unfold bracketed. by rewrite bool_decide_eq_false_2. Qed.
Lemma bracketed_active t :
  bracketed t t = String lbracket "" +:+ t +:+ String rbracket "".
Proof. unfold bracketed. by rewrite bool_decide_eq_true_2. Qed.
Lemma active_text active l :
  active ∈ l → Forall trigger_name l → ∃ pre post,
    trigger_text l active = pre +:+ String lbracket (active +:+ String rbracket post) ∧
    contains_byte lbracket pre = false ∧ contains_byte rbracket pre = false.
Proof.
  unfold trigger_text. induction l as [|t l IH]; [by intros ?%not_elem_of_nil|].
  intros Hin [(_ & Hl & Hr) Hls]%Forall_cons. destruct (decide (t = active)) as [->|Hn].
  - exists "", (match l with [] => "" | _ => " " +:+ join " " (bracketed active <$> l) end).
    split_and!; [|done..]. rewrite fmap_cons, bracketed_active.
    destruct l as [|t l]; [done|]. rewrite join_cons by done.
    by rewrite !app_str_assoc.
  - apply elem_of_cons in Hin as [|Hin]; [done|]. destruct (IH Hin Hls) as (pre & post & E & Hpl & Hpr).
    assert (bracketed active <$> l ≠ []) as Hb by (destruct l; [by apply not_elem_of_nil in Hin|done]).
    cbn [fmap list_fmap]. rewrite join_cons, bracketed_other, E by done.
    exists (t +:+ " " +:+ pre), post. rewrite !app_str_assoc, !contains_byte_app, Hl, Hr, Hpl, Hpr. done.
Qed.
Lemma word_bracketed active t : word t → word (bracketed active t).
Proof.
  intros [Hn Hw]. unfold bracketed. case_bool_decide; [|done]. split; [done|].
  by rewrite !all_graphic_app, Hw.
Qed.
(** What the plugin reads from the file. *)
Lemma trim_text active l :
  l ≠ [] → Forall trigger_name l → trim_space (trigger_text l active +:+ nl) = trigger_text l active.
Proof.
  intros Hn Hl. apply trim_space_line, framed_join; [by destruct l|]. apply Forall_fmap.
  eapply Forall_impl; [exact Hl|]. intros t [Ht _]. apply framed_word. by apply word_bracketed.
Qed.

(** ** Lemmas: one LED *)

Definition trigger_ok (t : string) : Prop := t = "" ∨ trigger_name t.
Definition parameter (f : string) : Prop := plain f ∧ f ≠ "trigger" ∧ f ≠ "brightness".

Section led_lemmas.
Context `{LedLaws}.

(** The LEDs but one are as they were. *)
Definition others (n : string) (s s' : sysfs) : Prop :=
  ∀ m, plain m → m ≠ n → led_of s' m = led_of s m.
(** The device [d] of [n] with the trigger [t] instead. *)
Definition triggered (n : string) (d : led) (t : string) (s : sysfs) : Prop :=
  ∃ d', led_of s n = Some d' ∧ same_kind d d' ∧ led_Trigger d' = t.

Lemma Some_ne_None {A} (a : A) : Some a ≠ None.
Proof. done. Qed.
Lemma write_wp n f v s (Q : () → sysfs → Prop) (E : sysfs → Prop) :
  (∀ s', sys_WriteFile (led_file n f) v s = (None, s') → Q () s') →
  (∀ e s', sys_WriteFile (led_file n f) v s = (Some e, s') → E s') →
  wp (writeLEDFile n f v) s Q E.
Proof.
  intros HQ HE. unfold wp, writeLEDFile. change (filepath_Join _ f) with (led_file n f).
  destruct (sys_WriteFile _ _ _) as [[e|] s'] eqn:Ew; cbn; [by eapply HE|by apply HQ].
Qed.
Lemma others_refl n s : others n s s.
Proof. by intros m. Qed.
Lemma others_write n f v s0 s e s' :
  plain n → plain f → sys_WriteFile (led_file n f) v s = (e, s') → others n s0 s → others n s0 s'.
Proof.
  intros Hn Hf Ew Ho m Hm Hne. rewrite <- (Ho m Hm Hne). exact (ll_other _ _ _ _ _ _ _ Hn Hf Hm Ew (or_introl Hne)).
Qed.

Definition at_led (n : string) (d : led) (t : string) (s0 s : sysfs) : Prop :=
  others n s0 s ∧ triggered n d t s.
Lemma pres_parameter n f v d t s0 :
  plain n → parameter f → preserves (at_led n d t s0) (writeLEDFile n f v).
Proof.
  intros Hn (Hf & Hft & Hfb) s [Ho (d1 & Hd1 & [Hm Ht] & Htr)].
  apply write_wp.
  - intros s' Ew. split; [by eapply others_write|].
    destruct (ll_parameter _ _ _ _ _ _ Hn Hf Hft Hfb Ew Hd1) as (d2 & Hd2 & [Hm2 Ht2] & Htr2).
    exists d2. split_and!; [done| |congruence]. split; congruence.
  - intros e s' Ew. split; [by eapply others_write|]. exists d1. split_and!; [|done..].
    rewrite <- Hd1. exact (ll_other _ _ _ _ _ _ _ Hn Hf Hn Ew (or_intror (@Some_ne_None _ e))).
Qed.
Lemma pres_when_do (I : sysfs → Prop) b what m : preserves I m → preserves I (when_do b what m).
Proof. intros Hm. destruct b; [by apply pres_wrapM|apply pres_ret]. Qed.
Lemma flag_parameter flag : flag ∈ validFlags → parameter flag.
Proof.
  unfold validFlags. rewrite !elem_of_cons. intros Hf.
  destruct_or! Hf; subst; [done..|by apply not_elem_of_nil in Hf].
Qed.
Lemma ValidateNetdevMode_None mode :
  ValidateNetdevMode mode = None ↔ Forall (λ flag, flag ∈ validFlags) (fields mode).
Proof.
  unfold ValidateNetdevMode. case_bool_decide as Hm; [by subst; split; [constructor|]|].
  rewrite first_error_None. apply Forall_proper; [|done]. intros flag. unfold check_flag.
  case_bool_decide; naive_solver.
Qed.
Lemma pres_SetNetdevMode n mode d t s0 :
  plain n → preserves (at_led n d t s0) (SetNetdevMode n mode).
Proof.
  intros Hn. unfold SetNetdevMode. destruct (ValidateNetdevMode mode) as [e|] eqn:Hv.
  - intros s Hs. unfold wp, mbind, M_bind, lift. done.
  - apply ValidateNetdevMode_None in Hv. rewrite Forall_forall in Hv.
    apply pres_bind; [by apply pres_lift|]. intros _. apply pres_for_each. intros flag Hf.
    apply pres_wrapM, pres_parameter; [done|]. by apply flag_parameter, Hv.
Qed.

(** The trigger an LED has after settings were applied to it. *)
Definition new_trigger (settings : LEDSettings) (d : led) : string :=
  if ls_Brightness settings =? 0 then "none"
  else if nonempty (ls_Trigger settings) then ls_Trigger settings else led_Trigger d.
(** Whatever was done to one LED, it is there and the others are untouched. *)
Definition kept (n : string) (d : led) (s s' : sysfs) : Prop :=
  others n s s' ∧ ∃ d', led_of s' n = Some d' ∧ same_kind d d'.
Lemma kept_failed n f v d s0 s e s' :
  plain n → plain f → kept n d s0 s → sys_WriteFile (led_file n f) v s = (Some e, s') → kept n d s0 s'.
Proof.
  intros Hn Hf [Ho (d' & Hd' & Hk)] Ew. split; [by eapply others_write|]. exists d'. split; [|done].
  rewrite <- Hd'. exact (ll_other _ _ _ _ _ _ _ Hn Hf Hn Ew (or_intror (@Some_ne_None _ e))).
Qed.
Lemma kept_refl n d s : led_of s n = Some d → kept n d s s.
Proof. intros Hd. split; [apply others_refl|]. by exists d. Qed.
Definition configured (settings : LEDSettings) (d d' : led) : Prop :=
  same_kind d d' ∧ led_Trigger d' = new_trigger settings d ∧
  (led_Trigger d' = "none" → 0 ≤ ls_Brightness settings →
   led_Brightness d' = Z.min (ls_Brightness settings) (led_Max d)).

Lemma trigger_wp n settings d s :
  plain n → trigger_ok (ls_Trigger settings) → led_of s n = Some d →
  wp (when_do (nonempty (ls_Trigger settings)) "failed to set trigger: "
        (SetTrigger n (ls_Trigger settings))) s
    (λ _, at_led n d (if nonempty (ls_Trigger settings) then ls_Trigger settings else led_Trigger d) s)
    (kept n d s).
Proof.
  intros Hn Ht Hd. destruct (nonempty (ls_Trigger settings)) eqn:Hne; cbn [when_do].
  - assert (trigger_name (ls_Trigger settings)) as Htn by (destruct Ht as [E|]; [by rewrite E in Hne|done]).
    apply wp_wrapM, write_wp.
    + intros s' Ew. split; [by eapply (others_write n "trigger"); [| | |apply others_refl]|].
      by destruct (ll_trigger _ _ _ _ _ Hn Htn Ew Hd) as [_ Hx].
    + intros e s' Ew. by eapply (kept_failed n "trigger"); [| |apply kept_refl|].
  - apply wp_ret. split; [apply others_refl|]. exists d. by split_and!.
Qed.
Lemma pres_parameters n settings d t s0 :
  plain n → preserves (at_led n d t s0)
    (if bool_decide (ls_Trigger settings = "timer") then
       when_do (0 <? ls_DelayOn settings) "failed to set delay_on: "
         (SetDelayOn n (ls_DelayOn settings)) ≫= λ _,
       when_do (0 <? ls_DelayOff settings) "failed to set delay_off: "
         (SetDelayOff n (ls_DelayOff settings))
     else if bool_decide (ls_Trigger settings = "pattern") then
       when_do (nonempty (ls_Pattern settings)) "failed to set pattern: "
         (SetPattern n (ls_Pattern settings)) ≫= λ _,
       when_do (negb (ls_Repeat settings =? 0)) "failed to set repeat: "
         (SetRepeat n (ls_Repeat settings))
     else if bool_decide (ls_Trigger settings = "netdev") then
       when_do (nonempty (ls_DeviceName settings)) "failed to set device_name: "
         (SetNetdevDevice n (ls_DeviceName settings)) ≫= λ _,
       when_do (nonempty (ls_Mode settings)) "failed to set mode: "
         (SetNetdevMode n (ls_Mode settings))
     else mret ()).
Proof.
  intros Hn. assert (∀ f v what b, parameter f → preserves (at_led n d t s0) (when_do b what (writeLEDFile n f v))) as Hp.
  { intros. by apply pres_when_do, pres_parameter. }
  repeat case_bool_decide; [..|apply pres_ret]; apply pres_bind; try intros _; try by apply Hp.
  by apply pres_when_do, pres_SetNetdevMode.
Qed.
Lemma applyLEDSettings_wp n settings d s :
  plain n → trigger_ok (ls_Trigger settings) → led_of s n = Some d →
  wp (applyLEDSettings n settings) s
    (λ _ s', others n s s' ∧ ∃ d', led_of s' n = Some d' ∧ configured settings d d') (kept n d s).
Proof.
  intros Hn Ht Hd. unfold applyLEDSettings. apply wp_bind.
  eapply wp_mono; [by apply trigger_wp| |done]. intros [] s1 H1. apply wp_bind.
  eapply wp_mono; [by apply (pres_parameters n settings _ _ s Hn s1 H1)| |].
  2:{ intros s2 [Ho (d2 & Hd2 & Hk2 & _)]. split; [done|]. by exists d2. }
  clear s1 H1. intros [] s1 [Ho (d1 & Hd1 & [Hm1 Ht1] & Htr1)].
  destruct (0 <=? ls_Brightness settings) eqn:Hb; cbn [when_do].
  - apply Z.leb_le in Hb.
    apply wp_wrapM, write_wp; [|intros e s2 Ew].
    2:{ eapply (kept_failed n "brightness"); [done..| |done]. split; [done|]. by exists d1. }
    intros s2 Ew. split; [by eapply (others_write n "brightness")|].
    destruct (ll_brightness _ _ _ _ _ Hn Hb Ew Hd1) as (d2 & Hd2 & [Hm2 Ht2] & Htr2 & Hbr2).
    exists d2. split; [done|]. split_and!; [split; congruence| |].
    + unfold new_trigger. rewrite Htr2, Htr1. done.
    + intros Hnone _. by rewrite (Hbr2 Hnone), Hm1.
  - apply wp_ret. split; [done|]. exists d1. split; [done|]. split_and!; [done| |lia].
    unfold new_trigger. rewrite Htr1. by replace (ls_Brightness settings =? 0) with false by lia.
Qed.
End led_lemmas.

(** ** Lemmas: a configuration *)

Definition settings_ok (n : string) (settings : LEDSettings) : Prop :=
  plain n ∧ trigger_ok (ls_Trigger settings).
Abbreviation leds_of config := (gm (lc_LEDs config)).
Definition config_ok (config : LEDConfig) : Prop := map_Forall settings_ok (leds_of config).

(** What a loop over a map has done is entries of the map, and the next entry is a new one. *)
Lemma range_done `{RangeOrder} {V} (m : gmap string V) don todo k v :
  don ++ todo = range m → (k, v) ∈ don → m !! k = Some v.
Proof. intros E Hin. apply range_elem. rewrite <- E. apply elem_of_app. by left. Qed.
Lemma range_next `{RangeOrder} {V} (m : gmap string V) don todo k v :
  don ++ (k, v) :: todo = range m → m !! k = Some v ∧ k ∉ don.*1.
Proof.
  intros E. split; [apply range_elem; rewrite <- E; apply elem_of_app; right; by left|].
  pose proof (range_NoDup m) as Hnd. rewrite <- E, fmap_app in Hnd.
  apply NoDup_app in Hnd as (_ & Hnd & _). intros Hin. apply (Hnd _ Hin). by left.
Qed.
Lemma range_names `{RangeOrder} {V} (m : gmap string V) k : k ∈ (range m).*1 ↔ is_Some (m !! k).
Proof.
  rewrite list_elem_of_fmap. split.
  - intros ([k' v] & -> & Hin%range_elem). by exists v.
  - intros [v Hv]. exists (k, v). by rewrite range_elem.
Qed.
Lemma wp_on_leds `{Sysfs} {A} (m : M sysfs A) p (Q : A → Leds → Prop) (E : Leds → Prop) :
  wp m p.2 (λ a s, Q a (p.1, s)) (λ s, E (p.1, s)) → wp (on_leds m) p Q E.
Proof. unfold wp, on_leds. by destruct (m p.2) as [[] ?]. Qed.

Section config_lemmas.
Context `{LedLaws} `{RangeOrder} (config : LEDConfig) (Hc : config_ok config).

Lemma exists_loop (l : list (string * LEDSettings)) p :
  (∀ n st, (n, st) ∈ l → plain n) →
  wp (for_each l (λ '(ledName, _), gets (λ p : Leds, LEDExists ledName p.2) ≫= λ there,
        if there : bool then mret () else fail (led_missing ledName))) p
    (λ _ p', p' = p ∧ ∀ n st, (n, st) ∈ l → is_Some (led_of p.2 n))
    (λ p', p' = p ∧ ∃ n st, (n, st) ∈ l ∧ led_of p.2 n = None).
Proof.
  induction l as [|[n st] l IH]; intros Hl; cbn [for_each].
  { apply wp_ret. split; [done|]. by intros ? ? ?%not_elem_of_nil. }
  assert (plain n) as Hn by (eapply Hl; by left). apply wp_bind, wp_bind, wp_gets.
  unfold LEDExists. case_bool_decide as He.
  - apply (ll_Stat _ _ Hn) in He. apply wp_ret. eapply wp_mono; [apply IH| |].
    + intros n' st' Hin. eapply Hl. by right.
    + intros [] p' [-> Hp]. split; [done|]. intros n' st' [[= -> ->]|Hin]%elem_of_cons; [done|by eapply Hp].
    + intros p' [-> (n' & st' & Hin & Hno)]. split; [done|]. exists n', st'. split; [by right|done].
  - apply wp_fail. split; [done|]. exists n, st. split; [by left|].
    destruct (led_of p.2 n) eqn:E; [|done]. destruct He. apply (ll_Stat _ _ Hn). by rewrite E.
Qed.

(** Only the saved originals change. *)
Definition saving (p p' : Leds) : Prop :=
  p'.2 = p.2 ∧ lp_appliedLEDs p'.1 = lp_appliedLEDs p.1.
Lemma atoi_no_panic v : no_panic (atoi v).
Proof. unfold atoi. by repeat case_match. Qed.
Lemma saveOriginalState_wp n p :
  wp (saveOriginalState n) p (λ _ p', saving p p') (λ p', saving p p').
Proof.
  unfold saveOriginalState. apply wp_bind, wp_on_leds. unfold GetBrightness, wp, mbind, M_bind, readLEDFile, lift.
  destruct (sys_ReadFile _ _) as [e|v]; cbn; [done|]. pose proof (atoi_no_panic (trim_space v)).
  destruct (atoi (trim_space v)); [|done..]. cbn. unfold on_leds, GetTrigger, mbind, M_bind, readLEDFile. cbn.
  by destruct (sys_ReadFile _ _).
Qed.
Lemma save_loop (l : list (string * LEDSettings)) p :
  wp (for_each l (λ '(ledName, _), attempt (saveOriginalState ledName) ≫= λ _, mret ())) p
    (λ _ p', saving p p') (λ p', False).
Proof.
  revert p. induction l as [|[n st] l IH]; intros p; cbn [for_each]; [by apply wp_ret|].
  apply wp_bind, wp_bind, wp_attempt. eapply wp_mono; [apply saveOriginalState_wp| |].
  - intros [] p1 [Hs Ha]. apply wp_ret. eapply wp_mono; [apply IH| |done].
    intros [] p2 [Hs2 Ha2]. split; congruence.
  - intros p1 [Hs Ha] e. apply wp_ret. eapply wp_mono; [apply IH| |done].
    intros [] p2 [Hs2 Ha2]. split; congruence.
Qed.

(** What the configuring loop has done. *)
Record progress (p0 : Leds) (don todo : list (string * LEDSettings)) (p : Leds) : Prop := {
  pg_split : don ++ todo = range (leds_of config);
  pg_original : lp_originalState p.1 = lp_originalState p0.1;
  pg_applied n : lp_appliedLEDs p.1 !! n =
    if decide (n ∈ don.*1) then leds_of config !! n else lp_appliedLEDs p0.1 !! n;
  pg_others n : plain n → n ∉ don.*1 → led_of p.2 n = led_of p0.2 n;
  pg_leds n st : (n, st) ∈ don → ∃ d d',
    led_of p0.2 n = Some d ∧ led_of p.2 n = Some d' ∧ configured st d d';
}.
Definition unconfigured (p0 p : Leds) : Prop :=
  ∀ n, plain n → leds_of config !! n = None → led_of p.2 n = led_of p0.2 n.
(** What holds when it stops, for whatever reason. *)
Record stopped (p0 p : Leds) : Prop := {
  sp_original : lp_originalState p.1 = lp_originalState p0.1;
  sp_others : unconfigured p0 p;
  sp_leds n st d : leds_of config !! n = Some st → led_of p0.2 n = Some d →
    ∃ d', led_of p.2 n = Some d' ∧ same_kind d d';
}.
Lemma progress_stopped p0 don todo p : progress p0 don todo p → stopped p0 p.
Proof.
  intros [Hs Hor _ Ho Hl]. split; [done| |].
  - intros n Hn Hno. apply Ho; [done|]. intros ([n' st] & -> & Hin)%list_elem_of_fmap.
    pose proof (range_done _ _ _ _ _ Hs Hin). cbn in Hno. congruence.
  - intros n st d Hst Hd. destruct (decide (n ∈ don.*1)) as [([n' st'] & -> & Hin)%list_elem_of_fmap|Hni].
    + destruct (Hl _ _ Hin) as (e & d' & He & Hd' & [Hk _]). cbn in *. exists d'. split; [done|]. congruence.
    + exists d. rewrite Ho; [done| |done]. by destruct (Hc n st Hst).
Qed.
Lemma configure_loop p0 :
  (∀ n st, leds_of config !! n = Some st → is_Some (led_of p0.2 n)) →
  wp (for_each (range (leds_of config)) (λ '(ledName, settings),
        wrapM ("failed to configure LED " +:+ ledName +:+ ": ")
          (on_leds (applyLEDSettings ledName settings)) ≫= λ _,
        modify_provider (set_applied ledName settings))) p0
    (λ _, progress p0 (range (leds_of config)) []) (stopped p0).
Proof.
  intros Hex. apply (wp_for_each (progress p0) _ _ _ []).
  { split; [done|done| |done|by intros ? ? ?%not_elem_of_nil]. done. }
  intros don [n st] todo p Hp. destruct (Hp) as [Hs Ho Ha Hot Hl].
  destruct (range_next _ _ _ _ _ Hs) as [Hst Hnd]. destruct (Hc n st Hst) as [Hn Ht].
  destruct (Hex n st Hst) as [d Hd]. pose proof (Hot n Hn Hnd) as Hd1. rewrite Hd in Hd1.
  apply wp_bind, wp_wrapM, wp_on_leds. eapply wp_mono; [by apply (applyLEDSettings_wp n st d)| |]; cbn [fst snd].
  - intros [] s' [Hoth (d' & Hd' & Hcd)]. split.
    + by rewrite <- (assoc_L (++)).
    + done.
    + intros m. cbn. destruct (decide (m = n)) as [->|Hne].
      * rewrite lookup_insert_eq, decide_True; [done|]. rewrite fmap_app. set_solver.
      * rewrite lookup_insert_ne, Ha by done. destruct (decide (m ∈ don.*1)) as [Hin|Hin].
        -- rewrite decide_True; [done|]. rewrite fmap_app. set_solver.
        -- rewrite decide_False; [done|]. rewrite fmap_app. set_solver.
    + intros m Hm. rewrite fmap_app. intros Hni. cbn. rewrite Hoth by set_solver. apply Hot; set_solver.
    + intros m st' [Hin|[= -> ->]%list_elem_of_singleton]%elem_of_app; [|by exists d, d'].
      destruct (Hl m st' Hin) as (e & e' & He & He' & Hce). exists e, e'. split_and!; [done| |done].
      cbn. rewrite <- He'. apply Hoth.
      * by destruct (Hc m st' (range_done _ _ _ _ _ Hs Hin)).
      * intros ->. apply Hnd. apply list_elem_of_fmap. by exists (n, st').
  - intros s' [Hoth (d' & Hd' & Hk)]. destruct (progress_stopped _ _ _ _ Hp) as [_ Hun Hkp]. split; [done| |].
    + intros m Hm Hno. cbn. rewrite Hoth; [by apply Hun|done|congruence].
    + intros m st' e Hst' He. cbn. destruct (decide (m = n)) as [->|Hne].
      * exists d'. split; [done|]. congruence.
      * destruct (Hkp m st' e Hst' He) as (e' & He' & Hke). exists e'. split; [|done].
        rewrite Hoth; [done|by destruct (Hc m st' Hst')|done].
Qed.
End config_lemmas.

(** ** Lemmas: saving and restoring *)

(** The files the plugin reads can be read, and those it restores take what
    they list. *)
Class LedWorks `{LedLaws} := {
  lw_read s n d f : plain n → led_of s n = Some d →
    f ∈ ["brightness"; "max_brightness"; "trigger"] → ∃ v, sys_ReadFile (led_file n f) s = inr v;
  lw_trigger s n d t : plain n → led_of s n = Some d → t ∈ led_Triggers d →
    ∃ s', sys_WriteFile (led_file n "trigger") t s = (None, s');
  lw_brightness s n d b : plain n → led_of s n = Some d → 0 ≤ b ≤ led_Max d →
    ∃ s', sys_WriteFile (led_file n "brightness") (itoa b) s = (None, s');
}.
Definition original_settings (d : led) : LEDSettings := led_settings (led_Brightness d) (led_Trigger d).

Section restore_lemmas.
Context `{LedLaws}.

Lemma read_number z : 0 ≤ z → z ≤ max_int64 → atoi (trim_space (itoa z +:+ nl)) = Ok z.
Proof.
  intros Hz1 Hz2. rewrite trim_space_line by apply framed_word, itoa_word. apply atoi_itoa.
  unfold min_int64. lia.
Qed.
Lemma read_trigger s n d :
  led_of s n = Some d →
  trim_space (trigger_text (led_Triggers d) (led_Trigger d) +:+ nl) = trigger_text (led_Triggers d) (led_Trigger d).
Proof.
  intros Hd. destruct (ll_ok _ _ _ Hd) as (_ & _ & Hin & _ & Hts). apply trim_text; [|done].
  intros E. rewrite E in Hin. by apply not_elem_of_nil in Hin.
Qed.
Lemma ParseActiveTrigger_text active l :
  active ∈ l → Forall trigger_name l → ParseActiveTrigger (trigger_text l active) = active.
Proof.
  intros Hin Hl. destruct (active_text active l Hin Hl) as (pre & post & -> & Hpl & Hpr).
  apply ParseActiveTrigger_bracket; [done..|]. rewrite Forall_forall in Hl. by destruct (Hl _ Hin) as (_ & _ & ?).
Qed.
Lemma ParseAvailableTriggers_text active l :
  Forall trigger_name l → ParseAvailableTriggers (trigger_text l active) = l.
Proof.
  intros Hl. unfold ParseAvailableTriggers. change (fields (cleaned (trigger_text l active)) = l).
  rewrite cleaned_text by done. apply fields_join; [done|]. eapply Forall_impl; [exact Hl|]. by intros t [? _].
Qed.

Section works.
Context `{!LedWorks}.

Lemma GetBrightness_eq s n d : plain n → led_of s n = Some d → GetBrightness n s = (Ok (led_Brightness d), s).
Proof.
  intros Hn Hd. destruct (lw_read s n d "brightness" Hn Hd) as [v Hv]; [set_solver|].
  destruct (ll_ok _ _ _ Hd) as ([Hb1 Hb2] & Hb3 & _).
  unfold GetBrightness, readLEDFile, mbind, M_bind, lift. change (filepath_Join _ "brightness") with (led_file n "brightness").
  rewrite Hv, (ll_read_brightness _ _ _ _ Hn Hd Hv). by rewrite read_number by lia.
Qed.
Lemma GetMaxBrightness_eq s n d : plain n → led_of s n = Some d → GetMaxBrightness n s = (Ok (led_Max d), s).
Proof.
  intros Hn Hd. destruct (lw_read s n d "max_brightness" Hn Hd) as [v Hv]; [set_solver|].
  destruct (ll_ok _ _ _ Hd) as ([Hb1 Hb2] & Hb3 & _).
  unfold GetMaxBrightness, readLEDFile, mbind, M_bind, lift. change (filepath_Join _ "max_brightness") with (led_file n "max_brightness").
  rewrite Hv, (ll_read_max _ _ _ _ Hn Hd Hv). by rewrite read_number by lia.
Qed.
Lemma readLEDFile_trigger s n d :
  plain n → led_of s n = Some d → readLEDFile n "trigger" s = (Ok (trigger_text (led_Triggers d) (led_Trigger d)), s).
Proof.
  intros Hn Hd. destruct (lw_read s n d "trigger" Hn Hd) as [v Hv]; [set_solver|].
  unfold readLEDFile. change (filepath_Join _ "trigger") with (led_file n "trigger").
  rewrite Hv, (ll_read_trigger _ _ _ _ Hn Hd Hv). by rewrite (read_trigger s n).
Qed.
Lemma GetTrigger_eq s n d : plain n → led_of s n = Some d → GetTrigger n s = (Ok (led_Trigger d), s).
Proof.
  intros Hn Hd. unfold GetTrigger. rewrite (bind_eq _ _ _ _ _ (readLEDFile_trigger s n d Hn Hd)).
  destruct (ll_ok _ _ _ Hd) as (_ & _ & Hin & _ & Hts). unfold mret, M_ret. by rewrite ParseActiveTrigger_text.
Qed.
Lemma GetAvailableTriggers_eq s n d :
  plain n → led_of s n = Some d → GetAvailableTriggers n s = (Ok (led_Triggers d), s).
Proof.
  intros Hn Hd. unfold GetAvailableTriggers. rewrite (bind_eq _ _ _ _ _ (readLEDFile_trigger s n d Hn Hd)).
  destruct (ll_ok _ _ _ Hd) as (_ & _ & Hin & _ & Hts). unfold mret, M_ret. by rewrite ParseAvailableTriggers_text.
Qed.
Lemma on_leds_eq {A} (m : M sysfs A) p r s' : m p.2 = (r, s') → on_leds m p = (r, (p.1, s')).
Proof. unfold on_leds. by intros ->. Qed.
Lemma saveOriginalState_eq n d p :
  plain n → led_of p.2 n = Some d →
  saveOriginalState n p = (Ok (), (set_original n (original_settings d) p.1, p.2)).
Proof.
  intros Hn Hd. unfold saveOriginalState.
  rewrite (bind_eq _ _ _ _ _ (on_leds_eq _ _ _ _ (GetBrightness_eq _ n d Hn Hd))).
  rewrite (bind_eq _ _ _ _ _ (on_leds_eq _ (p.1, p.2) _ _ (GetTrigger_eq p.2 n d Hn Hd))). done.
Qed.
Lemma save_loop_eq (l : list (string * LEDSettings)) : ∀ p,
  (∀ n st, (n, st) ∈ l → plain n ∧ is_Some (led_of p.2 n)) →
  ∃ o, for_each l (λ '(ledName, _), attempt (saveOriginalState ledName) ≫= λ _, mret ()) p
       = (Ok (), ({| lp_appliedLEDs := lp_appliedLEDs p.1; lp_originalState := o |}, p.2)) ∧
    ∀ n, o !! n = if decide (n ∈ l.*1) then original_settings <$> led_of p.2 n else lp_originalState p.1 !! n.
Proof.
  induction l as [|[n st] l IH]; intros p Hl; cbn [for_each].
  { exists (lp_originalState p.1). split; [by destruct p as [[]]|]. intros n. by rewrite decide_False by set_solver. }
  destruct (Hl n st) as [Hn [d Hd]]; [by left|].
  assert ((attempt (saveOriginalState n) ≫= λ _, mret ()) p
    = (Ok (), (set_original n (original_settings d) p.1, p.2))) as E.
  { by rewrite (bind_eq _ _ _ _ _ (attempt_eq _ _ _ _ (saveOriginalState_eq n d p Hn Hd) I)). }
  rewrite (bind_eq _ _ _ _ _ E).
  destruct (IH (set_original n (original_settings d) p.1, p.2)) as (o & -> & Ho).
  { intros m st' Hin. apply (Hl m st'). by right. }
  exists o. split; [done|]. intros m. rewrite Ho. cbn [fst snd set_original lp_originalState fmap list_fmap].
  destruct (decide (m ∈ l.*1)); [by rewrite decide_True by set_solver|].
  destruct (decide (m = n)) as [->|Hne].
  - rewrite decide_True by set_solver. by rewrite lookup_insert_eq, Hd.
  - by rewrite decide_False, lookup_insert_ne by set_solver.
Qed.

(** What restoring gives back: the trigger, unless the LED had one and was dark. *)
Definition restored (d d' : led) : Prop :=
  same_kind d d' ∧ led_Trigger d' = (if led_Brightness d =? 0 then "none" else led_Trigger d) ∧
  (led_Trigger d' = "none" → led_Brightness d' = led_Brightness d).
Lemma restore_led_wp n d d1 s :
  plain n → led_ok d → led_of s n = Some d1 → same_kind d d1 →
  wp (restore_led n (original_settings d)) s
    (λ _ s', others n s s' ∧ ∃ d', led_of s' n = Some d' ∧ restored d d') (λ _, False).
Proof.
  intros Hn (Hb & Hm & Hin & _ & Hts) Hd1 [Hmax Htrs]. unfold restore_led. cbn [ls_Trigger ls_Brightness original_settings led_settings].
  assert (trigger_name (led_Trigger d)) as Htn by (rewrite Forall_forall in Hts; by apply Hts).
  assert (nonempty (led_Trigger d) = true) as -> by (destruct Htn as [[Hne _] _]; by apply nonempty_true).
  destruct (lw_trigger s n d1 (led_Trigger d) Hn Hd1) as [s1 Ew1]; [by rewrite Htrs|].
  apply wp_bind, wp_bind, wp_attempt, write_wp; [|intros; simplify_eq/=; congruence].
  intros s1' Ew1'. rewrite Ew1 in Ew1'. injection Ew1' as <-. apply wp_ret.
  destruct (ll_trigger _ _ _ _ _ Hn Htn Ew1 Hd1) as [_ (d2 & Hd2 & [Hm2 Ht2] & Htr2)].
  destruct (lw_brightness s1 n d2 (led_Brightness d) Hn Hd2) as [s2 Ew2]; [rewrite Hm2, Hmax; lia|].
  apply wp_bind, wp_attempt, write_wp; [|intros; simplify_eq/=; congruence].
  intros s2' Ew2'. rewrite Ew2 in Ew2'. injection Ew2' as <-. apply wp_ret.
  destruct (ll_brightness _ _ _ _ _ Hn (proj1 Hb) Ew2 Hd2) as (d3 & Hd3 & [Hm3 Ht3] & Htr3 & Hbr3).
  split; [eapply (others_write n "brightness"); [done..|]; by eapply (others_write n "trigger"); [| | |apply others_refl]|].
  exists d3. split; [done|]. split_and!; [split; congruence| |].
  - by rewrite Htr3, Htr2.
  - intros Hnone. rewrite (Hbr3 Hnone), Hm2, Hmax. lia.
Qed.
End works.
End restore_lemmas.

(** ** Properties *)

Section properties.
Context `{LedLaws} `{RangeOrder}.

Definition all_there (config : LEDConfig) (s : sysfs) : Prop :=
  ∀ n st, leds_of config !! n = Some st → is_Some (led_of s n).
Lemma ApplyConfig_wp config p :
  config_ok config →
  wp (ApplyConfig config) p
    (λ _ p', all_there config p.2 ∧ ∃ p1, saving p p1 ∧ progress config p1 (range (leds_of config)) [] p')
    (λ p', p' = p ∧ (∃ n st, leds_of config !! n = Some st ∧ led_of p.2 n = None) ∨
           all_there config p.2 ∧ ∃ p1, saving p p1 ∧ stopped config p1 p').
Proof.
  intros Hc. unfold ApplyConfig. apply wp_bind. eapply wp_mono; [apply exists_loop| |].
  - intros n st Hin%range_elem. by destruct (Hc n st Hin).
  - intros [] p1 [-> Hex]. apply wp_bind, wp_gets, wp_bind.
    assert (all_there config p.2) as Hall by (intros n st Hst; eapply Hex, range_elem; done).
    assert (wp (if (size (lp_originalState p.1) =? 0)%nat then
              for_each (range (leds_of config)) (λ '(ledName, _),
                attempt (saveOriginalState ledName) ≫= λ _, mret ()) else mret ()) p
      (λ _ p1, saving p p1) (λ _, False)) as Hsave by (case_match; [apply save_loop|by apply wp_ret]).
    eapply wp_mono; [exact Hsave| |done]. intros [] p1 Hs1.
    eapply wp_mono; [apply (configure_loop config Hc)| |].
    + intros n st Hst. destruct Hs1 as [-> _]. eapply Hall, Hst.
    + intros [] p2 Hp2. split; [done|]. by exists p1.
    + intros p2 Hp2. right. split; [done|]. by exists p1.
  - intros p1 [-> (n & st & Hin & Hno)]. left. split; [done|]. exists n, st. by apply range_elem in Hin.
Qed.

(** Applying a configuration to the LEDs never panics and touches only the
    LEDs it names.  If one of them does not exist nothing changes and there is an
    error.  If it returns nil, each LED has the trigger of its settings, or the
    one it had when they name none, unless the brightness is 0, which is also
    what leaving it out means: then the LED is off and has no trigger. *)
Theorem ApplyConfig_leds config p r p' :
  config_ok config → ApplyConfig config p = (r, p') →
  no_panic r ∧
  (∀ n, plain n → leds_of config !! n = None → led_of p'.2 n = led_of p.2 n) ∧
  ((∃ n st, leds_of config !! n = Some st ∧ led_of p.2 n = None) → r ≠ Ok () ∧ p' = p) ∧
  (r = Ok () →
    lp_appliedLEDs p'.1 = leds_of config ∪ lp_appliedLEDs p.1 ∧
    ∀ n st, leds_of config !! n = Some st →
      ∃ d d', led_of p.2 n = Some d ∧ led_of p'.2 n = Some d' ∧ configured st d d').
Proof.
  intros Hc E. destruct (wp_result _ _ _ _ _ _ E (ApplyConfig_wp config p Hc)) as (Hr & Hok & Herr).
  assert (∀ p1, saving p p1 → stopped config p1 p' →
    ∀ n, plain n → leds_of config !! n = None → led_of p'.2 n = led_of p.2 n) as Hun.
  { intros p1 [Hs _] [_ Ho _] n Hn Hno. rewrite <- Hs. by apply Ho. }
  destruct r as [[]|e|w]; [|clear Hok; destruct (Herr (ex_intro _ e eq_refl)) as [[-> Hno]|(Hall & p1 & Hs & Hst)]|done].
  - destruct (Hok () eq_refl) as (Hall & p1 & Hs & Hp). split_and!; [done|by eapply Hun, progress_stopped| |].
    + intros (n & st & Hst & Hno). destruct (Hall n st Hst) as [d Hd]. congruence.
    + intros _. destruct Hs as [Hs Ha], Hp as [_ _ Hap _ Hl]. split.
      * apply map_eq. intros n. rewrite Hap, Ha, lookup_union.
        destruct (leds_of config !! n) as [st|] eqn:Hn.
        -- rewrite decide_True; [by destruct (lp_appliedLEDs p.1 !! n)|].
           apply list_elem_of_fmap. exists (n, st). by rewrite range_elem.
        -- rewrite decide_False; [by destruct (lp_appliedLEDs p.1 !! n)|].
           intros ([n' st'] & -> & Hin%range_elem)%list_elem_of_fmap. cbn in Hn. congruence.
      * intros n st Hst. rewrite <- Hs. by apply Hl, range_elem.
  - split_and!; [done..|]. by intros [=].
  - split_and!; [done|by eapply Hun| |done]. intros (n & st & Hst' & Hno).
    destruct (Hall n st Hst') as [d Hd]. congruence.
Qed.
End properties.

Section restore_properties.
Context `{LedWorks} `{RangeOrder}.

(** What the restoring loop has done. *)
Record restoring (s0 s1 : sysfs) (don todo : list (string * LEDSettings)) (p : Leds) : Prop := {
  rs_others n : plain n → n ∉ don.*1 → led_of p.2 n = led_of s1 n;
  rs_leds n st d : (n, st) ∈ don → led_of s0 n = Some d → ∃ d', led_of p.2 n = Some d' ∧ restored d d';
}.
Lemma Flush_loop s0 p1 :
  (∀ n st, lp_originalState p1.1 !! n = Some st →
     plain n ∧ ∃ d d1, led_of s0 n = Some d ∧ st = original_settings d ∧ led_of p1.2 n = Some d1 ∧ same_kind d d1) →
  wp (for_each (range (lp_originalState p1.1)) (λ '(ledName, original), on_leds (restore_led ledName original))) p1
    (λ _ p, p.1 = p1.1 ∧ restoring s0 p1.2 (range (lp_originalState p1.1)) [] p) (λ _, False).
Proof.
  intros Hor. eapply (wp_mono _ _ _ _ _ _ (wp_for_each (λ don todo p,
    don ++ todo = range (lp_originalState p1.1) ∧ p.1 = p1.1 ∧ restoring s0 p1.2 don todo p)
    (λ _, False) _ _ [] p1 _ _)); [by intros [] p (_ & H' & Hr)|done].
  Unshelve.
  - split_and!; [done..|]. split; [done|]. by intros ? ? ? ?%not_elem_of_nil.
  - intros don [n st] todo p (Hs & Hp & [Ho Hl]).
    destruct (range_next _ _ _ _ _ Hs) as [Hst Hnd].
    destruct (Hor n st Hst) as (Hn & d & d1 & Hd & -> & Hd1 & Hk).
    apply wp_on_leds. eapply wp_mono; [apply (restore_led_wp n d d1)| |done]; [done|by eapply ll_ok| |done|].
    { by rewrite Ho. }
    intros [] s' [Hoth (d' & Hd' & Hr)]. split_and!; [by rewrite <- (assoc_L (++))|done|]. split.
    + intros m Hm. rewrite fmap_app. intros Hni. cbn. rewrite Hoth by set_solver. apply Ho; set_solver.
    + intros m st' e [Hin|[= -> ->]%list_elem_of_singleton]%elem_of_app He; [|cbn; exists d'; split; [done|congruence]].
      destruct (Hl m st' e Hin He) as (e' & He' & Hre). exists e'. split; [|done]. cbn. rewrite <- He'. apply Hoth.
      * by destruct (Hor m st' (range_done _ _ _ _ _ Hs Hin)).
      * intros ->. apply Hnd. apply list_elem_of_fmap. by exists (n, st').
Qed.
(** The state in which the configuring loop of a first configuration ends. *)
Lemma first_apply config s r p1 :
  config_ok config → all_there config s → ApplyConfig config (NewLEDProvider, s) = (r, p1) →
  ∃ o, (∀ n, o !! n = match leds_of config !! n with
                      | Some _ => original_settings <$> led_of s n | None => None end) ∧
    stopped config ({| lp_appliedLEDs := ∅; lp_originalState := o |}, s) p1.
Proof.
  intros Hc Hall E. revert E. unfold ApplyConfig.
  assert (∀ n st, (n, st) ∈ range (leds_of config) → plain n) as Hpl.
  { intros n st Hin%range_elem. by destruct (Hc n st Hin). }
  pose proof (exists_loop (range (leds_of config)) (NewLEDProvider, s) Hpl) as He. unfold wp in He.
  match type of He with context [for_each ?l ?b ?x] => destruct (for_each l b x) as [r0 q0] eqn:Eq end.
  destruct r0 as [[]|e|w]; [|exfalso|done].
  2:{ destruct He as [_ (n & st & Hin%range_elem & Hno)]. destruct (Hall n st Hin) as [d Hd].
      cbn in Hno. congruence. }
  destruct He as [-> _]. rewrite (bind_eq _ _ _ _ _ Eq).
  destruct (save_loop_eq (range (leds_of config)) (NewLEDProvider, s)) as (o & Eo & Ho).
  { intros n st Hin. split; [by eapply Hpl|]. by eapply Hall, range_elem. }
  intros E. exists o. split.
  - intros n. rewrite Ho. destruct (leds_of config !! n) as [st|] eqn:Hn.
    + by rewrite decide_True by (apply range_names; eauto).
    + rewrite decide_False; [done|]. rewrite range_names, Hn. by intros [].
  - revert E. unfold mbind at 1, M_bind at 1, gets. cbn [fst NewLEDProvider lp_originalState].
    change (size ∅ =? 0)%nat with true. cbn match. rewrite (bind_eq _ _ _ _ _ Eo). intros E.
    pose proof (configure_loop config Hc ({| lp_appliedLEDs := ∅; lp_originalState := o |}, s) Hall) as Hw.
    unfold wp in Hw. cbn in E. rewrite E in Hw. destruct r as [[]|e|w]; [by eapply progress_stopped|done|done].
Qed.

End restore_properties.

Section validate_properties.
Context `{LedWorks} `{RangeOrder}.

Definition accepts (d : led) (settings : LEDSettings) : Prop :=
  0 ≤ ls_Brightness settings ≤ led_Max d ∧
  (ls_Trigger settings = "" ∨ ls_Trigger settings ∈ led_Triggers d).
Lemma check_led_Ok n st s :
  plain n → check_led n st s = (Ok (), s) ∧ (∃ d, led_of s n = Some d ∧ accepts d st) ∨
    (∃ e, check_led n st s = (Err e, s)) ∧ ¬ (∃ d, led_of s n = Some d ∧ accepts d st).
Proof.
  intros Hn. unfold check_led, LEDExists. rewrite (bind_eq (gets _) _ _ _ s eq_refl).
  pose proof (ll_Stat s n Hn) as Hst. case_bool_decide as He; cbn [negb].
  2:{ right. split; [by eexists|]. intros (d & Hd & _). apply He, Hst. by rewrite Hd. }
  apply Hst in He as [d Hd]. rewrite Hd.
  assert (∀ P, (∃ d', Some d = Some d' ∧ P d') ↔ P d) as Hex by (intros P; naive_solver). rewrite Hex.
  unfold accepts. destruct (Z.ltb_spec (ls_Brightness st) 0); [right; split; [by eexists|lia]|].
  rewrite (bind_wrap_eq _ _ _ _ _ _ (GetMaxBrightness_eq s n d Hn Hd)).
  destruct (Z.ltb_spec (led_Max d) (ls_Brightness st)); [right; split; [by eexists|lia]|].
  destruct (nonempty (ls_Trigger st)) eqn:Hne; cbn [negb].
  2:{ left. apply nonempty_false in Hne. split; [done|]. split; [lia|]. by left. }
  rewrite (bind_wrap_eq _ _ _ _ _ _ (GetAvailableTriggers_eq s n d Hn Hd)).
  apply nonempty_true in Hne. case_bool_decide; [left; split; [done|]; split; [lia|by right]|].
  right. split; [by eexists|]. intros [_ [?|?]]; done.
Qed.

(** Validation accepts a configuration exactly when every LED it names
    exists and takes its settings: a brightness between 0 and the LED's maximum,
    and no trigger or one the LED lists as available. *)
Theorem ValidateConfig_Ok config s :
  map_Forall (λ n _, plain n) (leds_of config) →
  ValidateConfig (Some config) s = (Ok (), s) ↔
  ∀ n st, leds_of config !! n = Some st → ∃ d, led_of s n = Some d ∧ accepts d st.
Proof.
  intros Hpl. trans (∀ p, p ∈ range (leds_of config) → ∃ d, led_of s p.1 = Some d ∧ accepts d p.2).
  2:{ split; [intros Ha n st Hst; by apply (Ha (n, st)), range_elem|].
      intros Ha [n st] Hin. by apply Ha, range_elem. }
  cbn [ValidateConfig]. assert (∀ p, p ∈ range (leds_of config) → plain p.1) as Hp.
  { intros [n st] Hin%range_elem. by apply (Hpl n st). }
  revert Hp. generalize (range (leds_of config)). intros l. induction l as [|[n st] l IH]; intros Hp.
  { split; [by intros _ p ?%not_elem_of_nil|done]. }
  specialize (IH (λ p Hin, Hp p (list_elem_of_further _ _ _ Hin))). cbn [for_each].
  destruct (check_led_Ok n st s (Hp _ (list_elem_of_here _ _))) as [[E Ha]|[[e E] Hno]].
  - rewrite (bind_eq _ _ _ _ _ E), IH. split.
    + intros Hl p [->|Hin]%elem_of_cons; [done|by apply Hl].
    + intros Hl p Hin. apply Hl. by right.
  - unfold mbind, M_bind. rewrite E. split; [done|]. intros Ha. destruct Hno. apply (Ha (n, st)). by left.
Qed.
End validate_properties.

(** ** Devices in memory *)

#[export] Instance word_dec w : Decision (word w).
Proof. unfold word. apply _. Defined.
#[export] Instance led_ok_dec d : Decision (led_ok d).
Proof. unfold led_ok, trigger_name. apply _. Defined.

Definition led_parts (path : string) : option (list string) :=
  let l := split slash path in
  if bool_decide (take 4 l = [""; "sys"; "class"; "leds"]) then Some (drop 4 l) else None.
Abbreviation led_devices := (gmap string led).
Definition look (s : led_devices) (n : string) : option led :=
  match s !! n with Some d => if decide (led_ok d) then Some d else None | None => None end.
Definition ENOENT : error := StdError "syscall" "no such file or directory".
Definition EINVAL : error := StdError "syscall" "invalid argument".
Definition trigger_files (t : string) : list string :=
  if bool_decide (t = "timer") then ["delay_on"; "delay_off"]
  else if bool_decide (t = "pattern") then ["pattern"; "repeat"]
  else if bool_decide (t = "netdev") then "device_name" :: validFlags else [].
Definition with_led (b : Z) (t : string) (d : led) : led :=
  {| led_Max := led_Max d; led_Brightness := b; led_Trigger := t; led_Triggers := led_Triggers d |}.
Definition read_attr (f : string) (d : led) : error + string :=
  if bool_decide (f = "brightness") then inr (itoa (led_Brightness d) +:+ nl)
  else if bool_decide (f = "max_brightness") then inr (itoa (led_Max d) +:+ nl)
  else if bool_decide (f = "trigger") then inr (trigger_text (led_Triggers d) (led_Trigger d) +:+ nl)
  else inl ENOENT.
(** Selecting a trigger turns the LED off. *)
Definition write_attr (f v : string) (d : led) : error + led :=
  if bool_decide (f = "brightness") then
    match atoi v with
    | Ok b => if b <? 0 then inl EINVAL
              else inr (with_led (Z.min b (led_Max d)) (if b =? 0 then "none" else led_Trigger d) d)
    | _ => inl EINVAL
    end
  else if bool_decide (f = "trigger") then
    if bool_decide (v ∈ led_Triggers d) then inr (with_led 0 v d) else inl EINVAL
  else if bool_decide (f ∈ trigger_files (led_Trigger d)) then inr d else inl ENOENT.
Definition mem_write (path v : string) (s : led_devices) : option error * led_devices :=
  match led_parts path with
  | Some [n; f] =>
      match look s n with
      | Some d => match write_attr f v d with inr d' => (None, <[n := d']> s) | inl e => (Some e, s) end
      | None => (Some ENOENT, s)
      end
  | _ => (Some ENOENT, s)
  end.
Definition sysfs_in_memory : Sysfs := {|
  sysfs := led_devices;
  sys_ReadDir _ s := inr ((map_to_list s).*1);
  sys_Stat path s := match led_parts path with
    | Some [n] => if look s n then None else Some ENOENT
    | _ => Some ENOENT
    end;
  sys_ReadFile path s := match led_parts path with
    | Some [n; f] => match look s n with Some d => read_attr f d | None => inl ENOENT end
    | _ => inl ENOENT
    end;
  sys_WriteFile := mem_write;
|}.

Lemma plain_clean stack n : plain n → clean_parts stack [n] = rev (n :: stack).
Proof. intros (H1 & H2 & H3 & _). cbn. by rewrite !bool_decide_eq_false_2. Qed.
Definition sys_parts : list string := [""; "sys"; "class"; "leds"].
Lemma split_sys l :
  Forall plain l → split slash (join "/" (sys_parts ++ l)) = sys_parts ++ l.
Proof.
  intros Hl. apply split_join; [done|]. apply Forall_app. split; [by repeat constructor|].
  eapply Forall_impl; [exact Hl|]. by intros n (_ & _ & _ & ?).
Qed.
Lemma clean_sys l : Forall plain l → clean_parts [] (sys_parts ++ l) = ["sys"; "class"; "leds"] ++ l.
Proof.
  intros Hl. change (clean_parts (rev ["sys"; "class"; "leds"]) l = ["sys"; "class"; "leds"] ++ l).
  generalize ["sys"; "class"; "leds"]. induction Hl as [|n l (H1 & H2 & H3 & _) Hl IH]; intros pre; cbn [clean_parts].
  { by rewrite rev_involutive, app_nil_r. }
  rewrite !bool_decide_eq_false_2 by done. cbn [orb].
  rewrite <- rev_unit, IH. by rewrite <- (assoc_L (++)).
Qed.
Lemma GetLEDPath_plain n : plain n → GetLEDPath n = join "/" (sys_parts ++ [n]).
Proof.
  intros Hn. unfold GetLEDPath, filepath_Join.
  change (LEDBasePath +:+ "/" +:+ n) with (join "/" (sys_parts ++ [n])).
  by rewrite split_sys, clean_sys by (by rewrite ?Forall_cons, Forall_nil).
Qed.
Lemma led_file_plain n f : plain n → plain f → led_file n f = join "/" (sys_parts ++ [n; f]).
Proof.
  intros Hn Hf. unfold led_file, filepath_Join. rewrite GetLEDPath_plain by done.
  assert (join "/" (sys_parts ++ [n]) +:+ "/" +:+ f = join "/" (sys_parts ++ [n; f])) as ->.
  { change (("/sys/class/leds/" +:+ n) +:+ "/" +:+ f = "/sys/class/leds/" +:+ n +:+ "/" +:+ f).
    apply app_str_assoc. }
  by rewrite split_sys, clean_sys by (by rewrite ?Forall_cons, Forall_nil).
Qed.
Lemma led_parts_sys l : Forall plain l → led_parts (join "/" (sys_parts ++ l)) = Some l.
Proof. intros Hl. unfold led_parts. by rewrite split_sys. Qed.
Lemma parts_led n : plain n → led_parts (GetLEDPath n) = Some [n].
Proof. intros Hn. rewrite GetLEDPath_plain by done. apply led_parts_sys. by rewrite ?Forall_cons, Forall_nil. Qed.
Lemma parts_file n f : plain n → plain f → led_parts (led_file n f) = Some [n; f].
Proof. intros Hn Hf. rewrite led_file_plain by done. apply led_parts_sys. by rewrite ?Forall_cons, Forall_nil. Qed.

Lemma look_Some s n d : look s n = Some d ↔ s !! n = Some d ∧ led_ok d.
Proof. unfold look. destruct (s !! n) as [d'|]; [case_decide|]; naive_solver. Qed.
Lemma look_insert s n d : led_ok d → look (<[n := d]> s) n = Some d.
Proof. intros Hd. apply look_Some. by rewrite lookup_insert_eq. Qed.
Lemma look_insert_ne s n m d : m ≠ n → look (<[n := d]> s) m = look s m.
Proof. intros Hn. unfold look. by rewrite lookup_insert_ne. Qed.
Lemma write_attr_ok f v d d' : led_ok d → write_attr f v d = inr d' → led_ok d' ∧ same_kind d d'.
Proof.
  intros (Hb & Hm & Ht & Hn & Hts). unfold write_attr. repeat case_bool_decide.
  - destruct (atoi v) as [b| |]; [|done..]. destruct (Z.ltb_spec b 0); [done|]. intros [= <-].
    split; [|done]. split_and!; cbn; [lia..|by case_match|done|done].
  - intros [= <-]. split; [|done]. split_and!; cbn; [lia..|done|done|done].
  - done.
  - by intros [= <-].
  - done.
Qed.
Lemma mem_write_file n f v s e s' :
  plain n → plain f → mem_write (led_file n f) v s = (e, s') →
  (e ≠ None ∧ s' = s) ∨ (e = None ∧ ∃ d d', look s n = Some d ∧ write_attr f v d = inr d' ∧ s' = <[n := d']> s).
Proof.
  intros Hn Hf. unfold mem_write. rewrite parts_file by done.
  destruct (look s n) as [d|]; [|intros [= <- <-]; by left].
  destruct (write_attr f v d) as [err|d'] eqn:Ew; intros [= <- <-]; [by left|]. right. split; [done|]. by exists d, d'.
Qed.
Lemma plain_files f : f ∈ ["brightness"; "max_brightness"; "trigger"] → plain f.
Proof. rewrite !elem_of_cons. intros Hf. destruct_or! Hf; subst; [done..|by apply not_elem_of_nil in Hf]. Qed.

#[export] Instance led_memory_laws : @LedLaws sysfs_in_memory.
Proof.
  refine (@Build_LedLaws sysfs_in_memory look _ _ _ _ _ _ _ _ _); cbn -[led_file GetLEDPath mem_write itoa look].
  - intros s n d [_ Hd]%look_Some. done.
  - intros s n Hn. rewrite parts_led by done. destruct (look s n); split; [by eexists|done|done|by intros []].
  - intros s n d v Hn Hd. rewrite parts_file, Hd by done. by intros [= <-].
  - intros s n d v Hn Hd. rewrite parts_file, Hd by done. by intros [= <-].
  - intros s n d v Hn Hd. rewrite parts_file, Hd by done. by intros [= <-].
  - intros s n f v s' e m Hn Hf Hm Hw. destruct (mem_write_file _ _ _ _ _ _ Hn Hf Hw) as [[He ->]|(-> & d & d' & _ & _ & ->)];
      [done|]. intros [Hne|]; [by apply look_insert_ne|done].
  - intros s n f v s' d Hn Hf Hft Hfb Hw Hd.
    destruct (mem_write_file _ _ _ _ _ _ Hn Hf Hw) as [[He _]|(_ & d1 & d' & Hd1 & Hwa & ->)]; [done|].
    assert (d1 = d) as -> by congruence. assert (led_ok d) as Hok by (by apply look_Some in Hd as [_ ?]).
    destruct (write_attr_ok _ _ _ _ Hok Hwa) as [Hok' Hk]. exists d'. split_and!; [by apply look_insert|done|].
    revert Hwa. unfold write_attr. rewrite !bool_decide_eq_false_2 by done. case_bool_decide; by intros [= <-].
  - intros s n t s' d Hn Ht Hw Hd.
    destruct (mem_write_file _ "trigger" _ _ _ _ Hn ltac:(done) Hw) as [[He _]|(_ & d1 & d' & Hd1 & Hwa & ->)]; [done|].
    assert (d1 = d) as -> by congruence. assert (led_ok d) as Hok by (by apply look_Some in Hd as [_ ?]).
    destruct (write_attr_ok _ _ _ _ Hok Hwa) as [Hok' Hk]. revert Hwa. unfold write_attr. rewrite (bool_decide_eq_false_2 (_ = "brightness")), (bool_decide_eq_true_2 (_ = "trigger")) by done.
    case_bool_decide; [|done].
    intros [= <-]. split; [done|]. eexists. split_and!; [by apply look_insert|done|done].
  - intros s n b s' d Hn Hb Hw Hd.
    destruct (mem_write_file _ "brightness" _ _ _ _ Hn ltac:(done) Hw) as [[He _]|(_ & d1 & d' & Hd1 & Hwa & ->)]; [done|].
    assert (d1 = d) as -> by congruence. assert (led_ok d) as Hok by (by apply look_Some in Hd as [_ ?]).
    destruct (write_attr_ok _ _ _ _ Hok Hwa) as [Hok' Hk]. revert Hwa. unfold write_attr. cbn -[itoa atoi].
    destruct (atoi (itoa b)) as [b'| |] eqn:Eb; [|done..]. apply atoi_itoa_inv in Eb as ->.
    destruct (Z.ltb_spec b 0); [lia|]. intros [= <-]. eexists. split_and!; [by apply look_insert|done..].
Defined.
#[export] Instance led_memory_works : @LedWorks sysfs_in_memory led_memory_laws.
Proof.
  refine (@Build_LedWorks sysfs_in_memory led_memory_laws _ _ _); cbn -[led_file mem_write itoa look].
  - intros s n d f Hn Hd Hf. rewrite parts_file, Hd by (by auto using plain_files). revert Hf.
    rewrite !elem_of_cons. intros Hf. destruct_or! Hf; subst; [by eexists..|by apply not_elem_of_nil in Hf].
  - intros s n d t Hn Hd Ht. unfold mem_write. rewrite parts_file, Hd by done. unfold write_attr.
    rewrite (bool_decide_eq_false_2 (_ = "brightness")), !bool_decide_eq_true_2 by done. by eexists.
  - intros s n d b Hn Hd Hb. unfold mem_write. rewrite parts_file, Hd by done. unfold write_attr. cbn -[itoa atoi].
    apply look_Some in Hd as [_ (_ & Hm & _)]. rewrite atoi_itoa by (unfold min_int64; lia).
    destruct (Z.ltb_spec b 0); [lia|]. by eexists.
Defined.

(** ** Witnesses and examples *)

#[export] Instance settings_ok_dec n st : Decision (settings_ok n st).
Proof. unfold settings_ok, plain, trigger_ok, trigger_name. apply _. Defined.
#[export] Instance config_ok_dec config : Decision (config_ok config).
Proof. unfold config_ok. apply _. Defined.
#[export] Instance all_there_dec config (s : led_devices) :
  Decision (@all_there sysfs_in_memory led_memory_laws config s) :=
  decide (map_Forall (λ n _, is_Some (look s n)) (leds_of config)).

Definition sample_led (brightness : Z) (trigger : string) : led :=
  {| led_Max := 255; led_Brightness := brightness; led_Trigger := trigger;
     led_Triggers := ["none"; "timer"; "heartbeat"; "netdev"] |}.
Definition board : led_devices :=
  {["status:green" := sample_led 128 "none"; "wan" := sample_led 0 "heartbeat"; "power" := sample_led 255 "none"]}.
Definition blink (brightness : Z) : LEDSettings :=
  {| ls_Brightness := brightness; ls_Trigger := "timer"; ls_DelayOn := 500; ls_DelayOff := 500;
     ls_Pattern := ""; ls_Repeat := 0; ls_DeviceName := ""; ls_Mode := "" |}.
Definition link_mode (mode : string) : LEDSettings :=
  {| ls_Brightness := 255; ls_Trigger := "netdev"; ls_DelayOn := 0; ls_DelayOff := 0;
     ls_Pattern := ""; ls_Repeat := 0; ls_DeviceName := "br-lan"; ls_Mode := mode |}.
Definition leds (l : list (string * LEDSettings)) : LEDConfig := {| lc_LEDs := Some (list_to_map l) |}.
Definition two_leds : LEDConfig := leds [("status:green", blink 200); ("wan", link_mode "link tx")].
Definition apply_leds (c : LEDConfig) (p : LEDProvider * led_devices) : res () * (LEDProvider * led_devices) :=
  @ApplyConfig sysfs_in_memory default_order c p.
Definition flush_leds (p : LEDProvider * led_devices) : res () * (LEDProvider * led_devices) :=
  @Leds.Flush sysfs_in_memory default_order p.

Lemma two_leds_ok : config_ok two_leds.
Proof. refine (bool_decide_unpack _ _). vm_compute. exact I. Defined.
Lemma two_leds_there : @all_there sysfs_in_memory led_memory_laws two_leds board.
Proof. refine (bool_decide_unpack _ _). vm_compute. exact I. Defined.

Lemma ApplyConfig_leds_witness :
  apply_leds two_leds (NewLEDProvider, board) = (Ok (), (apply_leds two_leds (NewLEDProvider, board)).2) ∧
  no_panic (apply_leds two_leds (NewLEDProvider, board)).1.
Proof.
  split; [refine (run_eq _ (Ok ()) _); vm_compute; reflexivity|].
  exact (proj1 (@ApplyConfig_leds sysfs_in_memory led_memory_laws default_order two_leds (NewLEDProvider, board)
    _ _ two_leds_ok (surjective_pairing (apply_leds two_leds (NewLEDProvider, board))))).
Defined.
Lemma two_leds_plain : map_Forall (λ n (_ : LEDSettings), plain n) (leds_of two_leds).
Proof. intros n st Hst. exact (proj1 (two_leds_ok n st Hst)). Defined.
Lemma ValidateConfig_Ok_witness :
  @ValidateConfig sysfs_in_memory default_order (Some two_leds) board = (Ok (), board) ∧
  ∃ d, look board "wan" = Some d ∧ accepts d (link_mode "link tx").
Proof.
  assert (@ValidateConfig sysfs_in_memory default_order (Some two_leds) board = (Ok (), board)) as E
    by (vm_compute; reflexivity).
  split; [exact E|].
  exact (proj1 (@ValidateConfig_Ok sysfs_in_memory led_memory_laws led_memory_works default_order two_leds board
    two_leds_plain) E "wan" (link_mode "link tx") eq_refl).
Defined.

Definition look_at (p : LEDProvider * led_devices) (n : string) : option (Z * string) :=
  d ← p.2 !! n; Some (led_Brightness d, led_Trigger d).
(** A finding: a trigger without a brightness is applied and cleared again, for a
    brightness that is left out decodes as 0 and is always written. *)
Definition only_trigger : json := JObj [("leds", JObj [("wan", JObj [("trigger", JStr "heartbeat")])])].
Example trigger_without_brightness :
  match Unmarshal_LEDConfig only_trigger with
  | Ok c => (apply_leds c (NewLEDProvider, board)).1 = Ok () ∧
            look_at (apply_leds c (NewLEDProvider, board)).2 "wan" = Some (0, "none")
  | _ => False
  end.
Proof. vm_compute. by split. Qed.
(** A finding: a flush loses the trigger of an LED that was dark between two beats. *)
Example dark_heartbeat_is_lost :
  look_at (NewLEDProvider, board) "wan" = Some (0, "heartbeat") ∧
  look_at (flush_leds (apply_leds two_leds (NewLEDProvider, board)).2).2 "wan" = Some (0, "none").
Proof. vm_compute. by split. Qed.
(** A finding: an LED that only a later configuration names is not restored. *)
Definition later : LEDProvider * led_devices :=
  (flush_leds (apply_leds (leds [("power", blink 10)])
    (flush_leds (apply_leds two_leds (NewLEDProvider, board)).2).2).2).2.
Example later_led_is_not_restored :
  look_at (NewLEDProvider, board) "power" = Some (255, "none") ∧ look_at later "power" = Some (10, "timer").
Proof. vm_compute. by split. Qed.
(** A finding: the mode is not validated, so a validated configuration can fail
    half way through. *)
Definition bad_mode : LEDConfig := leds [("wan", link_mode "link fast")].
Example mode_is_not_validated :
  (@ValidateConfig sysfs_in_memory default_order (Some bad_mode) board).1 = Ok () ∧
  (apply_leds bad_mode (NewLEDProvider, board)).1 ≠ Ok ().
Proof. vm_compute. by split. Qed.
Example active_trigger :
  ParseActiveTrigger "none timer [heartbeat] pattern netdev" = "heartbeat" ∧
  ParseActiveTrigger "none timer heartbeat" = "none" ∧
  ParseAvailableTriggers "none timer [heartbeat]" = ["none"; "timer"; "heartbeat"].
Proof. vm_compute. done. Qed.
