(* ===== verification/Logger.v ===== *)
(** * Logger: the structured logger and its subscribers

    daemon/logger (entry.go, emitter.go, logger.go, file_backend.go,
    journald_backend.go), daemon/logger_bridge.go, the log streaming of
    daemon/server.go and the set-up of cmd/daemon.go.  An entry is written to
    every backend by the caller, but delivered to every subscriber by a goroutine
    of its own, so deliveries interleave with everything else: [log_step] is the
    daemon's logging as a step relation over the goroutines that have not run.
    The theorems: what a call to the logger writes; that an open stream gets
    every entry it is subscribed to and that matches its filter exactly once,
    in any order, and a closed one nothing; what a child logger is. *)
From S2P Require Import Prelude GoStr Types Json Value Codec.

(** ** entry.go *)

Record Entry := {
  en_Timestamp : string; en_Level : string; en_Component : string; en_Message : string;
  en_Fields : gmap string value;
}.
(** [time.Now().UTC().Format(time.RFC3339)] is an argument. *)
Definition NewEntry (now level component message : string) (fields : gomap value) : Entry :=
  {| en_Timestamp := now; en_Level := level; en_Component := component; en_Message := message;
     en_Fields := gm fields |}.
Definition ToJSON (e : Entry) : json :=
  JObj [("timestamp", JStr (en_Timestamp e)); ("level", JStr (en_Level e));
        ("component", JStr (en_Component e)); ("message", JStr (en_Message e));
        ("fields", Marshal (VMap (en_Fields e)))].

(** The bytes of a JSON value as encoding/json writes it. *)
Class JsonText := { json_text : json → string }.
Section text.
Context `{JsonText} `{RangeOrder}.
Definition jsonString (v : value) : string :=
  match v with VStr s => s | _ => json_text (Marshal v) end.
Definition ToText (e : Entry) : string :=
  let levelStr := "[" +:+ en_Level e +:+ "]" in
  let componentStr := if nonempty (en_Component e) then " [" +:+ en_Component e +:+ "]" else "" in
  let fieldsStr := foldl (λ s p, s +:+ " " +:+ p.1 +:+ "=" +:+ jsonString p.2) "" (range (en_Fields e)) in
  en_Timestamp e +:+ " " +:+ levelStr +:+ componentStr +:+ " " +:+ en_Message e +:+ fieldsStr.
End text.

(** ** logger.go: levels and loggers *)

(** [type LogLevel int] *)
Definition LevelDebug : Z := 0.
Definition LevelInfo : Z := 1.
Definition LevelWarn : Z := 2.
Definition LevelError : Z := 3.
Definition ParseLevel (level : string) : Z :=
  if bool_decide (level = "debug") then LevelDebug
  else if bool_decide (level = "info") then LevelInfo
  else if bool_decide (level = "warn") then LevelWarn
  else if bool_decide (level = "error") then LevelError
  else LevelInfo.
Definition LogLevel_String (l : Z) : string :=
  if l =? LevelDebug then "debug" else if l =? LevelInfo then "info"
  else if l =? LevelWarn then "warn" else if l =? LevelError then "error" else "info".

Record Field := { fd_Key : string; fd_Value : value }.
Inductive Backend :=
| FileBackend (format path : string)
| JournaldBackend (format : string).
Record Config := { cf_Level : string; cf_Format : string; cf_Component : string }.
(** [sl_emitter]: whether the logger has one; there is one in the program. *)
Record standardLogger := {
  sl_level : Z; sl_format : string; sl_backends : list Backend; sl_emitter : bool;
  sl_component : string; sl_fields : gmap string value;
}.
Definition New (config : Config) (backends : list Backend) (emitter : bool) : standardLogger :=
  {| sl_level := ParseLevel (cf_Level config); sl_format := cf_Format config; sl_backends := backends;
     sl_emitter := emitter; sl_component := cf_Component config; sl_fields := ∅ |}.
Definition child (l : standardLogger) (component : string) (fields : gmap string value) : standardLogger :=
  {| sl_level := sl_level l; sl_format := sl_format l; sl_backends := sl_backends l;
     sl_emitter := sl_emitter l; sl_component := component; sl_fields := fields |}.
(** The loop returns at the first field that names a component. *)
Fixpoint with_fields (l : standardLogger) (newFields : gmap string value) (fields : list Field) : standardLogger :=
  match fields with
  | [] => child l (sl_component l) newFields
  | f :: fields =>
      let newFields := <[fd_Key f := fd_Value f]> newFields in
      if bool_decide (fd_Key f = "component") then
        match fd_Value f with
        | VStr s => child l s newFields
        | _ => with_fields l newFields fields
        end
      else with_fields l newFields fields
  end.
Definition With (fields : list Field) (l : standardLogger) : standardLogger :=
  with_fields l (sl_fields l) fields.
Definition merge_fields (m : gmap string value) (fields : list Field) : gmap string value :=
  foldl (λ m f, <[fd_Key f := fd_Value f]> m) m fields.

(** ** The outside and the state *)

(** exec.LookPath, os.MkdirAll and os.OpenFile, writes to a file, the journal or
    a connection by their number, a plugin's OnLogEvent, and the clock. *)
Class LogIO := {
  io_LookPath : string → option error;
  io_MkdirAll : string → option error;
  io_OpenFile : string → option error;
  io_WriteString : Z → string → option error;
  io_systemd_cat : Z → option error;
  io_conn_Write : Z → positive → option error;
  io_OnLogEvent : Z → positive → json → option error;
  io_now : Z → string;
}.

(** protocol.go: [Tail] is never read. *)
Record LogFilter := { lf_Level : string; lf_Component : string; lf_Tail : Z }.
Inductive subscriber :=
| PluginLogSubscriber (plugin : positive)
| SocketLogSubscriber (conn : positive) (filter : option LogFilter) (closed : bool).
Inductive line := LJson (j : json) | LText (s : string).

(** What the program writes, in order: lines of log files and of the journal with
    their priorities, the entries streamed to a connection, the calls of plugins,
    the errors printed on stderr.  [OEmitted] is no output but the history of
    the entries given to Emit, for the theorems. *)
Inductive output :=
| OFile (path : string) (l : line)
| OJournal (priority : string) (l : line)
| OStream (sub : positive) (e : Entry)
| OCall (plugin : positive) (j : json)
| OStderr (e : error)
| OEmitted (e : Entry).

(** The global logger and its emitter's subscribers, which are compared as
    pointers: locations of the heap.  [lw_pending]: the goroutines of Emit that
    have not run.  [lw_tick] numbers the calls of the outside. *)
Record LogWorld := {
  lw_std : option standardLogger;
  lw_subscribers : list positive;
  lw_heap : gmap positive subscriber;
  lw_pending : list (positive * Entry);
  lw_tick : Z;
  lw_trace : list output;
}.
Definition init_world : LogWorld :=
  {| lw_std := None; lw_subscribers := []; lw_heap := ∅; lw_pending := []; lw_tick := 0; lw_trace := [] |}.
Definition put_std (l : standardLogger) (w : LogWorld) : LogWorld :=
  {| lw_std := Some l; lw_subscribers := lw_subscribers w; lw_heap := lw_heap w;
     lw_pending := lw_pending w; lw_tick := lw_tick w; lw_trace := lw_trace w |}.
Definition put_subscribers (l : list positive) (w : LogWorld) : LogWorld :=
  {| lw_std := lw_std w; lw_subscribers := l; lw_heap := lw_heap w;
     lw_pending := lw_pending w; lw_tick := lw_tick w; lw_trace := lw_trace w |}.
Definition put_sub (id : positive) (s : subscriber) (w : LogWorld) : LogWorld :=
  {| lw_std := lw_std w; lw_subscribers := lw_subscribers w; lw_heap := <[id := s]> (lw_heap w);
     lw_pending := lw_pending w; lw_tick := lw_tick w; lw_trace := lw_trace w |}.
Definition put_pending (l : list (positive * Entry)) (w : LogWorld) : LogWorld :=
  {| lw_std := lw_std w; lw_subscribers := lw_subscribers w; lw_heap := lw_heap w;
     lw_pending := l; lw_tick := lw_tick w; lw_trace := lw_trace w |}.
(** A call of the outside, with what it wrote. *)
Definition write_out (l : list output) (w : LogWorld) : LogWorld :=
  {| lw_std := lw_std w; lw_subscribers := lw_subscribers w; lw_heap := lw_heap w;
     lw_pending := lw_pending w; lw_tick := lw_tick w + 1; lw_trace := lw_trace w ++ l |}.

Section logger.
Context `{JsonText} `{RangeOrder} `{LogIO}.

(** ** file_backend.go, journald_backend.go *)

Definition as_json (format : string) : bool := bool_decide (format = "json").
Definition rendered (format : string) (e : Entry) : line :=
  if as_json format then LJson (ToJSON e) else LText (ToText e).
Definition journal_priority (level : string) : string :=
  if bool_decide (level = "debug") then "7" else if bool_decide (level = "info") then "6"
  else if bool_decide (level = "warn") then "4" else if bool_decide (level = "error") then "3" else "6".
Definition Write (b : Backend) (e : Entry) (w : LogWorld) : option error * LogWorld :=
  match b with
  | FileBackend format path =>
      match io_WriteString (lw_tick w) path with
      | Some err => (Some (Wrapf "failed to write to log file: " err), write_out [] w)
      | None => (None, write_out [OFile path (rendered format e)] w)
      end
  | JournaldBackend format =>
      match io_systemd_cat (lw_tick w) with
      | Some err => (Some (Wrapf "failed to write to journal: " err), write_out [] w)
      | None => (None, write_out [OJournal (journal_priority (en_Level e)) (rendered format e)] w)
      end
  end.

(** The last slash, and the slice [path[:len(path)-len(path[i:])]], which is
    out of range without one. *)
Fixpoint findLastSlash_from (i : nat) (path : string) : option nat :=
  match path with
  | "" => None
  | String c path =>
      match findLastSlash_from (S i) path with
      | Some j => Some j
      | None => if Ascii.eqb c slash then Some i else None
      end
  end.
Definition findLastSlash (path : string) : option nat := findLastSlash_from 0 path.
Definition NewFileBackend (path format : string) : res Backend :=
  match findLastSlash path with
  | None => Panic "slice bounds out of range"
  | Some i =>
      match io_MkdirAll (take_str i path) with
      | Some err => Err (Wrapf "failed to create log directory: " err)
      | None =>
          match io_OpenFile path with
          | Some err => Err (Wrapf "failed to open log file: " err)
          | None => Ok (FileBackend format path)
          end
      end
  end.
Definition NewJournaldBackend (format : string) : res Backend :=
  match io_LookPath "systemd-cat" with
  | Some err => Err (Wrapf "systemd-cat not found: " err)
  | None => Ok (JournaldBackend format)
  end.

(** ** emitter.go *)

Definition Subscribe (sub : positive) (w : LogWorld) : LogWorld :=
  put_subscribers (lw_subscribers w ++ [sub]) w.
(** The first occurrence is removed. *)
Fixpoint remove_first (sub : positive) (l : list positive) : list positive :=
  match l with
  | [] => []
  | s :: l => if decide (s = sub) then l else s :: remove_first sub l
  end.
Definition Unsubscribe (sub : positive) (w : LogWorld) : LogWorld :=
  put_subscribers (remove_first sub (lw_subscribers w)) w.
Definition Emit (e : Entry) (w : LogWorld) : LogWorld :=
  write_out [OEmitted e] (put_pending (lw_pending w ++ ((λ sub, (sub, e)) <$> lw_subscribers w)) w).

(** ** logger.go *)

Definition write_backend (e : Entry) (w : LogWorld) (b : Backend) : LogWorld :=
  match Write b e w with
  | (Some err, w) => write_out [OStderr (Wrapf "Logger backend error: " err)] w
  | (None, w) => w
  end.
Definition log (l : standardLogger) (level : Z) (msg : string) (fields : list Field) (w : LogWorld) : LogWorld :=
  if level <? sl_level l then w else
  let e := NewEntry (io_now (lw_tick w)) (LogLevel_String level) (sl_component l) msg
             (Some (merge_fields (sl_fields l) fields)) in
  let w := foldl (write_backend e) (write_out [] w) (sl_backends l) in
  if sl_emitter l then Emit e w else w.
(** logger.Debug, Info, Warn and Error of the global logger. *)
Definition global_log (level : Z) (msg : string) (fields : list Field) (w : LogWorld) : LogWorld :=
  match lw_std w with Some l => log l level msg fields w | None => w end.
Definition Init (config : Config) (backends : list Backend) (w : LogWorld) : LogWorld :=
  put_std (New config backends true) w.

(** ** logger_bridge.go *)

(** strings.EqualFold with an ASCII word. *)
Definition EqualFold (a b : string) : bool := bool_decide (fold_name a = fold_name b).
Definition matches (filter : option LogFilter) (e : Entry) : bool :=
  match filter with
  | None => true
  | Some f =>
      (negb (nonempty (lf_Level f)) || EqualFold (en_Level e) (lf_Level f)) &&
      (negb (nonempty (lf_Component f)) || bool_decide (en_Component e = lf_Component f))
  end.
Definition not_implemented : string := "plugin does not implement log event handling".
Definition OnLogEvent (id : positive) (e : Entry) (w : LogWorld) : option error * LogWorld :=
  match lw_heap w !! id with
  | None => (None, w)
  | Some (PluginLogSubscriber plugin) =>
      let err := io_OnLogEvent (lw_tick w) plugin (ToJSON e) in
      (match err with
       | Some x => if bool_decide (error_string x = not_implemented) then None else err
       | None => None
       end, write_out [OCall plugin (ToJSON e)] w)
  | Some (SocketLogSubscriber conn filter closed) =>
      if closed : bool then (None, w)
      else if negb (matches filter e) then (None, w)
      else match io_conn_Write (lw_tick w) conn with
           | Some err => (Some err, put_sub id (SocketLogSubscriber conn filter true) (write_out [] w))
           | None => (None, write_out [OStream id e] w)
           end
  end.
Definition Close (id : positive) (w : LogWorld) : LogWorld :=
  match lw_heap w !! id with
  | Some (SocketLogSubscriber conn filter _) => put_sub id (SocketLogSubscriber conn filter true) w
  | _ => w
  end.

(** ** server.go: registerPluginLogSubscriber, handleLogsSubscribe *)

(** A new subscriber is a new pointer. *)
Definition new_sub (s : subscriber) (w : LogWorld) : positive * LogWorld :=
  let id := fresh (dom (lw_heap w)) in (id, put_sub id s w).
Definition str_field (k v : string) : Field := {| fd_Key := k; fd_Value := VStr v |}.
(** The emitter is set with the global logger; without it nothing happens. *)
Definition registerPluginLogSubscriber (plugin : positive) (name : string) (w : LogWorld) : LogWorld :=
  match lw_std w with None => w | Some _ =>
  let '(id, w) := new_sub (PluginLogSubscriber plugin) w in
  global_log LevelInfo "Registered plugin for log events" [str_field "plugin" name] (Subscribe id w)
  end.
(** Up to the loop that waits for the client to go; and after it, up to the close. *)
Definition logs_subscribe (conn : positive) (filter : option LogFilter) (w : LogWorld) : LogWorld :=
  match lw_std w with None => w | Some _ =>
  let f := default {| lf_Level := ""; lf_Component := ""; lf_Tail := 0 |} filter in
  let '(id, w) := new_sub (SocketLogSubscriber conn (Some f) false) w in
  global_log LevelInfo "Client subscribed to log stream"
    [str_field "level" (lf_Level f); str_field "component" (lf_Component f)] (Subscribe id w)
  end.
Definition logs_unsubscribe (id : positive) (w : LogWorld) : LogWorld :=
  Unsubscribe id (global_log LevelInfo "Client unsubscribed from log stream" [] w).

(** ** cmd/daemon.go: initializeLogger *)

Definition default_config : Config := {| cf_Level := "info"; cf_Format := "json"; cf_Component := "daemon" |}.
Definition logFile : string := "/var/log/jack/jack.log".
Definition initializeLogger (w : LogWorld) : res LogWorld :=
  let use_file :=
    wrap "failed to initialize file backend: " (NewFileBackend logFile (cf_Format default_config)) ≫= λ b,
    Ok (global_log LevelInfo "Logging initialized"
          [str_field "backend" "file"; str_field "file" logFile; str_field "format" (cf_Format default_config)]
          (Init default_config [b] w)) in
  match io_LookPath "systemd-cat" with
  | Some _ => use_file
  | None =>
      match NewJournaldBackend (cf_Format default_config) with
      | Ok b => Ok (global_log LevelInfo "Logging initialized"
                      [str_field "backend" "journald"; str_field "format" (cf_Format default_config)]
                      (Init default_config [b] w))
      | _ => use_file
      end
  end.

(** ** The logging of a running daemon *)

Inductive label :=
| LLog (l : standardLogger) (level : Z) (msg : string) (fields : list Field)
| LDeliver (id : positive) (e : Entry)
| LPlugin (plugin : positive) (name : string)
| LConnect (conn : positive) (filter : option LogFilter)
| LDisconnect (id : positive)
| LClose (id : positive).
(** Any part of the daemon logs, with the global logger or a child of it; any
    waiting goroutine runs; plugins are registered; clients come and go, in two
    steps, between which goroutines run. *)
Inductive log_step : LogWorld → label → LogWorld → Prop :=
| step_log w l level msg fields :
    log_step w (LLog l level msg fields) (log l level msg fields w)
| step_deliver w id e pre post :
    lw_pending w = pre ++ (id, e) :: post →
    log_step w (LDeliver id e) (OnLogEvent id e (put_pending (pre ++ post) w)).2
| step_plugin w plugin name :
    log_step w (LPlugin plugin name) (registerPluginLogSubscriber plugin name w)
| step_connect w conn filter :
    log_step w (LConnect conn filter) (logs_subscribe conn filter w)
| step_disconnect w id :
    log_step w (LDisconnect id) (logs_unsubscribe id w)
| step_close w id :
    log_step w (LClose id) (Close id w).
Inductive log_run : LogWorld → list label → LogWorld → Prop :=
| run_nil w : log_run w [] w
| run_cons w a w' ls w'' : log_step w a w' → log_run w' ls w'' → log_run w (a :: ls) w''.
End logger.

(** ** Lemmas: what a call of the logger does *)

Definition sent (id : positive) (w : LogWorld) : list Entry :=
  omap (λ o, match o with OStream i e => if decide (i = id) then Some e else None | _ => None end) (lw_trace w).
Definition emitted (w : LogWorld) : list Entry :=
  omap (λ o, match o with OEmitted e => Some e | _ => None end) (lw_trace w).
(** The entries whose delivery to [id] has not run. *)
Definition waiting (id : positive) (w : LogWorld) : list Entry :=
  omap (λ p, if decide (p.1 = id) then Some p.2 else None) (lw_pending w).

(** The entries [es] were emitted, and nothing was streamed. *)
Record emits (w w' : LogWorld) (es : list Entry) : Prop := {
  em_std : lw_std w' = lw_std w;
  em_subs : lw_subscribers w' = lw_subscribers w;
  em_heap : lw_heap w' = lw_heap w;
  em_sent id : sent id w' = sent id w;
  em_emitted : emitted w' = emitted w ++ es;
  em_pending : lw_pending w' = lw_pending w ++ (es ≫= λ e, (λ sub, (sub, e)) <$> lw_subscribers w);
}.
Lemma emits_nil w w' : emits w w' [] → lw_pending w' = lw_pending w.
Proof. intros [_ _ _ _ _ ->]. apply app_nil_r. Qed.
Lemma emits_refl w : emits w w [].
Proof. split; try done; by rewrite app_nil_r. Qed.
Lemma emits_trans w1 w2 w3 es es' : emits w1 w2 es → emits w2 w3 es' → emits w1 w3 (es ++ es').
Proof.
  intros [H1 H2 H3 H4 H5 H6] [K1 K2 K3 K4 K5 K6]. split; [congruence..|intros id; by rewrite K4, H4| |].
  - by rewrite K5, H5, app_assoc.
  - by rewrite K6, H6, H2, bind_app, app_assoc.
Qed.
(** An output that is neither a streamed nor an emitted entry. *)
Definition plain_output (o : output) : Prop := match o with OStream _ _ | OEmitted _ => False | _ => True end.
Lemma write_out_emits l w : Forall plain_output l → emits w (write_out l w) [].
Proof.
  intros Hl. split; [done..|intros id| |].
  - unfold sent. cbn. rewrite omap_app. induction Hl as [|o l Ho Hl IH]; cbn; [by rewrite app_nil_r|]. by destruct o.
  - unfold emitted. cbn. rewrite omap_app, app_nil_r.
    induction Hl as [|o l Ho Hl IH]; cbn; [by rewrite app_nil_r|]. by destruct o.
  - cbn. by rewrite app_nil_r.
Qed.

Section lemmas.
Context `{JsonText} `{RangeOrder} `{LogIO}.

(** What a backend writes of an entry. *)
Definition backend_output (b : Backend) (e : Entry) : output :=
  match b with
  | FileBackend format path => OFile path (rendered format e)
  | JournaldBackend format => OJournal (journal_priority (en_Level e)) (rendered format e)
  end.
Definition written (e : Entry) (b : Backend) (o : output) : Prop :=
  o = backend_output b e ∨ ∃ err, o = OStderr err.
Lemma backends_spec e bs w :
  ∃ outs, Forall2 (written e) bs outs ∧ lw_trace (foldl (write_backend e) w bs) = lw_trace w ++ outs ∧
    emits w (foldl (write_backend e) w bs) [].
Proof.
  revert w. induction bs as [|b bs IH]; intros w; cbn [foldl].
  { exists []. split_and!; [constructor|by rewrite app_nil_r|apply emits_refl]. }
  assert (∃ o, written e b o ∧ lw_trace (write_backend e w b) = lw_trace w ++ [o] ∧
    emits w (write_backend e w b) []) as (o & Ho & Ht & Hem).
  { unfold write_backend, Write. destruct b as [format path|format]; cbn.
    - destruct (io_WriteString _ path) as [err|]; eexists; (split_and!; [|cbn; rewrite ?app_nil_r; reflexivity|]).
      + right. by eexists.
      + apply (emits_trans _ (write_out [] w) _ [] []); apply write_out_emits; [done|by apply Forall_singleton].
      + by left.
      + apply write_out_emits. by apply Forall_singleton.
    - destruct (io_systemd_cat _) as [err|]; eexists; (split_and!; [|cbn; rewrite ?app_nil_r; reflexivity|]).
      + right. by eexists.
      + apply (emits_trans _ (write_out [] w) _ [] []); apply write_out_emits; [done|by apply Forall_singleton].
      + by left.
      + apply write_out_emits. by apply Forall_singleton. }
  destruct (IH (write_backend e w b)) as (outs & Houts & Ht' & Hem'). exists (o :: outs). split_and!.
  - by constructor.
  - rewrite Ht', Ht. by rewrite <- app_assoc.
  - by apply (emits_trans _ _ _ [] [] Hem).
Qed.
Lemma Emit_emits e w : emits w (Emit e w) [e].
Proof.
  split; [done..|intros id| |].
  - unfold sent, Emit. cbn. rewrite omap_app. apply app_nil_r.
  - unfold emitted, Emit. cbn. by rewrite omap_app.
  - cbn. by rewrite app_nil_r.
Qed.
Definition log_entry (l : standardLogger) (level : Z) (msg : string) (fields : list Field) (w : LogWorld) : Entry :=
  NewEntry (io_now (lw_tick w)) (LogLevel_String level) (sl_component l) msg
    (Some (merge_fields (sl_fields l) fields)).
Lemma log_emits l level msg fields w : ∃ es, emits w (log l level msg fields w) es.
Proof.
  unfold log. destruct (level <? sl_level l); [by eexists; apply emits_refl|].
  change (NewEntry _ _ _ _ _) with (log_entry l level msg fields w).
  destruct (backends_spec (log_entry l level msg fields w) (sl_backends l) (write_out [] w)) as (outs & _ & _ & Hem).
  pose proof (emits_trans _ _ _ [] [] (write_out_emits [] w (List.Forall_nil _)) Hem) as Hem'.
  destruct (sl_emitter l); [|by eexists].
  exists [log_entry l level msg fields w]. exact (emits_trans _ _ _ [] _ Hem' (Emit_emits _ _)).
Qed.
Lemma global_log_emits level msg fields w : ∃ es, emits w (global_log level msg fields w) es.
Proof. unfold global_log. destruct (lw_std w); [apply log_emits|by eexists; apply emits_refl]. Qed.

(** ** Lemmas: deliveries *)

(** The subscribers are distinct and on the heap. *)
Record subs_ok (w : LogWorld) : Prop := {
  so_nodup : NoDup (lw_subscribers w);
  so_heap id : id ∈ lw_subscribers w → is_Some (lw_heap w !! id);
}.
Lemma subs_ok_emits w w' es : emits w w' es → subs_ok w → subs_ok w'.
Proof. intros [_ Hs Hh _ _ _] [Hn Hp]. split; [by rewrite Hs|]. intros id. rewrite Hs, Hh. apply Hp. Qed.
Lemma waiting_app id w l w' :
  lw_pending w' = lw_pending w ++ l →
  waiting id w' = waiting id w ++ omap (λ p, if decide (p.1 = id) then Some p.2 else None) l.
Proof. intros E. unfold waiting. by rewrite E, omap_app. Qed.
Lemma waiting_for id e (subs : list positive) :
  NoDup subs →
  omap (λ p : positive * Entry, if decide (p.1 = id) then Some p.2 else None) ((λ sub, (sub, e)) <$> subs)
  = if decide (id ∈ subs) then [e] else [].
Proof.
  induction 1 as [|i subs Hi Hn IH]; [done|]. cbn [fmap list_fmap omap list_omap fst snd]. rewrite IH.
  destruct (decide (i = id)) as [->|Hne].
  - rewrite decide_False by done. by rewrite decide_True by set_solver.
  - destruct (decide (id ∈ subs)); [by rewrite decide_True by set_solver|by rewrite decide_False by set_solver].
Qed.
Lemma waiting_emits id w w' es :
  emits w w' es → subs_ok w →
  waiting id w' = waiting id w ++ if decide (id ∈ lw_subscribers w) then es else [].
Proof.
  intros [_ _ _ _ _ Hp] [Hn _]. rewrite (waiting_app id w _ w' Hp). f_equal. clear Hp.
  induction es as [|e es IH]; [by case_decide|]. cbn [mbind list_bind]. rewrite omap_app, waiting_for, IH by done.
  by destruct (decide (id ∈ lw_subscribers w)).
Qed.

(** One open stream: what was written to it and what it is still owed. *)
Section stream.
Context (id conn : positive) (f : option LogFilter).
Definition account (w : LogWorld) : list Entry := sent id w ++ List.filter (matches f) (waiting id w).
Definition is_open (w : LogWorld) : Prop :=
  subs_ok w ∧ lw_heap w !! id = Some (SocketLogSubscriber conn f false) ∧ id ∈ lw_subscribers w.
Lemma is_open_same w w' :
  lw_subscribers w' = lw_subscribers w → lw_heap w' = lw_heap w → is_open w → is_open w'.
Proof.
  intros Hs Hh ([Hn Hp] & H1' & H2'). split; [split; [by rewrite Hs|]|by rewrite Hs, Hh].
  intros j. rewrite Hs, Hh. apply Hp.
Qed.
(** The account grows by the matching entries that were emitted. *)
Definition accounted (w w' : LogWorld) : Prop :=
  is_open w' ∧ ∃ new, emitted w' = emitted w ++ new ∧ account w' ≡ₚ account w ++ List.filter (matches f) new.
Lemma accounted_trans w1 w2 w3 : accounted w1 w2 → accounted w2 w3 → accounted w1 w3.
Proof.
  intros [_ (n1 & E1 & P1)] [Ho (n2 & E2 & P2)]. split; [done|]. exists (n1 ++ n2). split.
  - by rewrite E2, E1, app_assoc.
  - by rewrite P2, P1, List.filter_app, app_assoc.
Qed.
Lemma accounted_same w w' :
  lw_pending w' = lw_pending w → lw_trace w' = lw_trace w → is_open w' → accounted w w'.
Proof.
  intros Hp Ht Ho. split; [done|]. exists []. unfold account, sent, emitted, waiting. rewrite Hp, Ht. cbn.
  by rewrite !app_nil_r.
Qed.
Lemma accounted_emits w w' es : is_open w → emits w w' es → accounted w w'.
Proof.
  intros (Hok & Hh & Hs) Hem. split.
  - split; [by eapply subs_ok_emits|]. destruct Hem as [_ Hs' Hh' _ _ _]. by rewrite Hs', Hh'.
  - exists es. split; [apply Hem|]. unfold account. rewrite (waiting_emits id w w' es Hem Hok), decide_True by done.
    destruct Hem as [_ _ _ Hst _ _]. by rewrite Hst, List.filter_app, app_assoc.
Qed.
Lemma new_sub_open s w : is_open w → is_open (Subscribe (new_sub s w).1 (new_sub s w).2).
Proof.
  intros ([Hn Hp] & Hh & Hs). unfold new_sub. cbn [fst snd].
  pose proof (is_fresh (dom (lw_heap w))) as Hf. set (i := fresh _) in *.
  assert (i ∉ lw_subscribers w) as Hi by (intros Hin; apply Hf, elem_of_dom, Hp, Hin).
  assert (id ≠ i) as Hne by (intros <-; done). split; [|split]; cbn.
  - split; cbn.
    + apply NoDup_app. split; [done|]. split; [set_solver|apply NoDup_singleton].
    + intros j Hj. destruct (decide (j = i)) as [->|Hji]; [rewrite lookup_insert_eq; by eexists|].
      rewrite lookup_insert_ne by done. apply Hp. set_solver.
  - by rewrite lookup_insert_ne.
  - set_solver.
Qed.
Lemma remove_first_elem i j (l : list positive) : NoDup l → j ∈ remove_first i l ↔ j ∈ l ∧ j ≠ i.
Proof.
  induction 1 as [|k l Hk Hn IH]; cbn [remove_first]; [set_solver|]. case_decide; set_solver.
Qed.
Lemma remove_first_NoDup i (l : list positive) : NoDup l → NoDup (remove_first i l).
Proof.
  induction 1 as [|k l Hk Hn IH]; cbn [remove_first]; [constructor|]. case_decide; [done|].
  constructor; [|done]. by rewrite remove_first_elem by done; intros [? _].
Qed.
Lemma unsubscribe_open i w : i ≠ id → is_open w → is_open (Unsubscribe i w).
Proof.
  intros Hi ([Hn Hp] & Hh & Hs). split; [|split; [done|]]; cbn.
  - split; cbn; [by apply remove_first_NoDup|]. intros j [Hj _]%remove_first_elem; [by apply Hp|done].
  - by apply remove_first_elem.
Qed.
Lemma put_sub_open i s w : i ≠ id → is_open w → is_open (put_sub i s w).
Proof.
  intros Hi ([Hn Hp] & Hh & Hs). split; [|split; [|done]]; cbn; [split; cbn; [done|]|by rewrite lookup_insert_ne].
  intros j Hj. destruct (decide (j = i)) as [->|]; [rewrite lookup_insert_eq; by eexists|].
  rewrite lookup_insert_ne by done. by apply Hp.
Qed.
Definition for_id (p : positive * Entry) : option Entry := if decide (p.1 = id) then Some p.2 else None.
Lemma waiting_split w pre e i post :
  lw_pending w = pre ++ (i, e) :: post →
  waiting id w = omap for_id pre ++ (if decide (i = id) then [e] else []) ++ omap for_id post.
Proof.
  intros E. unfold waiting. rewrite E, omap_app. cbn [omap list_omap fst snd]. unfold for_id.
  by destruct (decide (i = id)).
Qed.
Lemma waiting_put w pre post : waiting id (put_pending (pre ++ post) w) = omap for_id pre ++ omap for_id post.
Proof. unfold waiting. cbn. by rewrite omap_app. Qed.
Lemma sent_write l w :
  sent id (write_out l w) =
    sent id w ++ omap (λ o, match o with OStream i e => if decide (i = id) then Some e else None | _ => None end) l.
Proof. unfold sent. cbn. by rewrite omap_app. Qed.

(** A goroutine that delivers to another subscriber. *)
Lemma deliver_other i e pre post w :
  i ≠ id → lw_pending w = pre ++ (i, e) :: post → is_open w →
  accounted w (OnLogEvent i e (put_pending (pre ++ post) w)).2.
Proof.
  intros Hi Hp Ho. set (w1 := put_pending (pre ++ post) w).
  assert (accounted w w1) as Hw1.
  { split; [by apply (is_open_same w)|]. exists []. split; [cbn; by rewrite app_nil_r|]. unfold account.
    rewrite (waiting_split _ _ _ _ _ Hp), decide_False by done. subst w1. rewrite waiting_put. cbn. by rewrite app_nil_r. }
  assert (∀ o, plain_output o ∨ (∃ e', o = OStream i e') → accounted w1 (write_out [o] w1)) as Hwr.
  { intros o Hpo. split; [by apply (is_open_same w)|]. exists []. split.
    - unfold emitted. cbn. rewrite omap_app. by destruct o, Hpo as [?|[? [=]]].
    - unfold account. rewrite sent_write. cbn. rewrite !app_nil_r.
      destruct Hpo as [Hpo|[e' ->]]; [by destruct o; rewrite ?app_nil_r|].
      by rewrite decide_False, app_nil_r. }
  unfold OnLogEvent. fold w1. change (lw_heap w1) with (lw_heap w).
  destruct (lw_heap w !! i) as [[plugin|c f' closed]|]; [| |done].
  - cbn [snd]. eapply accounted_trans; [exact Hw1|]. apply Hwr. by left.
  - destruct closed; [done|]. destruct (matches f' e); cbn [negb]; [|done].
    destruct (io_conn_Write _ _); cbn [snd].
    + eapply accounted_trans; [exact Hw1|]. eapply accounted_trans; [apply (accounted_emits _ (write_out [] w1) [])|].
      * by destruct Hw1.
      * apply write_out_emits. constructor.
      * apply accounted_same; [done..|]. apply put_sub_open; [done|]. by apply (is_open_same w).
    + eapply accounted_trans; [exact Hw1|]. apply Hwr. right. by eexists.
Qed.
(** One that delivers to the stream itself, whose connection is up. *)
Lemma deliver_own e pre post w :
  (∀ t, io_conn_Write t conn = None) → lw_pending w = pre ++ (id, e) :: post → is_open w →
  accounted w (OnLogEvent id e (put_pending (pre ++ post) w)).2.
Proof.
  intros Hup Hp Ho. destruct (Ho) as (Hok & Hh & Hs). set (w1 := put_pending (pre ++ post) w).
  unfold OnLogEvent. fold w1. change (lw_heap w1) with (lw_heap w). rewrite Hh.
  assert (waiting id w1 = omap for_id pre ++ omap for_id post) as Hw1 by apply waiting_put.
  pose proof (waiting_split _ _ _ _ _ Hp) as Hw. rewrite decide_True in Hw by done.
  destruct (matches f e) eqn:Hm; cbn [negb].
  - rewrite Hup. cbn [snd]. split; [by apply (is_open_same w)|]. exists []. split; [unfold emitted; cbn; by rewrite omap_app|].
    unfold account. rewrite sent_write. change (waiting id (write_out _ w1)) with (waiting id w1).
    rewrite Hw1, Hw. cbn [omap list_omap]. rewrite decide_True by done.
    rewrite !List.filter_app. cbn [List.filter]. rewrite Hm, !app_nil_r. change (sent id w1) with (sent id w).
    cbn [app]. solve_Permutation.
  - cbn [snd]. split; [by apply (is_open_same w)|]. exists []. split; [cbn; by rewrite app_nil_r|]. unfold account.
    rewrite Hw1, Hw, !List.filter_app. cbn [List.filter]. rewrite Hm. cbn. by rewrite !app_nil_r.
Qed.
Lemma accounted_new s level msg fields w :
  is_open w →
  accounted w (let '(i, w) := new_sub s w in global_log level msg fields (Subscribe i w)).
Proof.
  intros Ho. pose proof (new_sub_open s w Ho) as Ho'. destruct (new_sub s w) as [i w1] eqn:E.
  cbn [fst snd] in Ho'. injection E as <- <-.
  destruct (global_log_emits level msg fields (Subscribe (fresh (dom (lw_heap w))) (put_sub (fresh (dom (lw_heap w))) s w))) as [es Hem].
  eapply accounted_trans; [|by apply (accounted_emits _ _ es Ho' Hem)]. by apply accounted_same.
Qed.
Lemma step_accounted w a w' :
  (∀ t, io_conn_Write t conn = None) → a ≠ LDisconnect id → a ≠ LClose id →
  log_step w a w' → is_open w → accounted w w'.
Proof.
  intros Hup Hd Hcl Hstep Ho. destruct Hstep as [w l level msg fields|w i e pre post Hp|w plugin name|w c f'|w i|w i].
  - destruct (log_emits l level msg fields w) as [es Hem]. by apply (accounted_emits _ _ es).
  - destruct (decide (i = id)) as [->|Hi]; [by apply deliver_own|by apply deliver_other].
  - unfold registerPluginLogSubscriber. destruct (lw_std w); [|by apply accounted_same].
    by apply accounted_new.
  - unfold logs_subscribe. destruct (lw_std w); [|by apply accounted_same].
    by apply accounted_new.
  - unfold logs_unsubscribe. destruct (global_log_emits LevelInfo "Client unsubscribed from log stream" [] w) as [es Hem].
    pose proof (accounted_emits _ _ es Ho Hem) as Ha. eapply accounted_trans; [exact Ha|].
    apply accounted_same; [done..|]. apply unsubscribe_open; [congruence|]. by destruct Ha.
  - unfold Close. destruct (lw_heap w !! i) as [[p|c f' cl]|]; [by apply accounted_same| |by apply accounted_same].
    apply accounted_same; [done..|]. apply put_sub_open; [congruence|done].
Qed.
End stream.

(** Worlds in which a new pointer is not in use. *)
Record world_ok (w : LogWorld) : Prop := {
  wk_subs : subs_ok w;
  wk_new i : lw_heap w !! i = None → sent i w = [] ∧ waiting i w = [];
}.
Lemma world_ok_emits w w' es : emits w w' es → world_ok w → world_ok w'.
Proof.
  intros Hem [Hs Hn]. split; [by eapply subs_ok_emits|]. intros i Hi.
  destruct (Hem) as [_ _ Hh Hst _ _]. rewrite Hh in Hi. destruct (Hn i Hi) as [H1' H2'].
  rewrite Hst, (waiting_emits i w w' es Hem Hs), H2', decide_False; [done|].
  intros Hin. destruct (so_heap _ Hs i Hin) as [x Hx]. congruence.
Qed.
Lemma world_ok_same w w' :
  lw_pending w' = lw_pending w → lw_trace w' = lw_trace w → subs_ok w' →
  (∀ i, lw_heap w' !! i = None → lw_heap w !! i = None) → world_ok w → world_ok w'.
Proof.
  intros Hp Ht Hs Hh [_ Hn]. split; [done|]. intros i Hi. unfold sent, waiting. rewrite Hp, Ht. by apply Hn, Hh.
Qed.
Lemma put_sub_None i s w j : lw_heap (put_sub i s w) !! j = None → lw_heap w !! j = None.
Proof.
  cbn. destruct (decide (j = i)) as [->|]; [by rewrite lookup_insert_eq|by rewrite lookup_insert_ne].
Qed.
Lemma subs_ok_put_sub i s w : subs_ok w → subs_ok (put_sub i s w).
Proof.
  intros [Hn Hp]. split; cbn; [done|]. intros j Hj.
  destruct (decide (j = i)) as [->|]; [rewrite lookup_insert_eq; by eexists|rewrite lookup_insert_ne by done; by apply Hp].
Qed.
Lemma world_ok_put_sub i s w : world_ok w → world_ok (put_sub i s w).
Proof.
  intros Hok. apply (world_ok_same w); [done|done| |apply put_sub_None|done]. apply subs_ok_put_sub, Hok.
Qed.
Lemma world_ok_new s level msg fields w :
  world_ok w → world_ok (let '(i, w) := new_sub s w in global_log level msg fields (Subscribe i w)).
Proof.
  intros Hok. unfold new_sub. pose proof (is_fresh (dom (lw_heap w))) as Hf. set (i := fresh _) in *.
  destruct (global_log_emits level msg fields (Subscribe i (put_sub i s w))) as [es Hem].
  apply (world_ok_emits _ _ _ Hem), (world_ok_same (put_sub i s w)); [done|done| |done|by apply world_ok_put_sub].
  destruct Hok as [[Hn Hp] _]. split; cbn.
  - apply NoDup_app. split; [done|]. split; [|apply NoDup_singleton]. intros j Hj ->%list_elem_of_singleton.
    apply Hf, elem_of_dom, Hp, Hj.
  - intros j [Hj| ->%list_elem_of_singleton]%elem_of_app; [|rewrite lookup_insert_eq; by eexists].
    destruct (decide (j = i)) as [->|]; [rewrite lookup_insert_eq; by eexists|].
    rewrite lookup_insert_ne by done. by apply Hp.
Qed.
Lemma world_ok_deliver i e pre post w :
  lw_pending w = pre ++ (i, e) :: post → world_ok w →
  world_ok (OnLogEvent i e (put_pending (pre ++ post) w)).2.
Proof.
  intros Hp [Hs Hn]. set (w1 := put_pending (pre ++ post) w).
  assert (world_ok w1) as Hw1.
  { split; [by destruct Hs|]. intros j Hj. destruct (Hn j Hj) as [Hst Hw]. split; [done|].
    rewrite (waiting_split _ _ _ _ _ _ Hp) in Hw. apply app_eq_nil in Hw as [Hw1 Hw2].
    apply app_eq_nil in Hw2 as [_ Hw2]. subst w1. by rewrite waiting_put, Hw1, Hw2. }
  unfold OnLogEvent. fold w1. destruct (lw_heap w1 !! i) as [[plugin|c f' closed]|] eqn:Hi; [| |done].
  - apply (world_ok_emits w1 _ []); [apply write_out_emits; by apply Forall_singleton|done].
  - destruct closed; [done|]. destruct (matches f' e); cbn [negb]; [|done].
    destruct (io_conn_Write _ _); cbn [snd].
    + apply world_ok_put_sub, (world_ok_emits w1 _ []); [apply write_out_emits; constructor|done].
    + destruct Hw1 as [Hs1 Hn1]. split; [by destruct Hs1|]. intros j Hj. destruct (Hn1 j Hj) as [Hst Hw]. split; [|done].
      rewrite sent_write, Hst. cbn. rewrite decide_False; [done|]. intros <-. change (lw_heap w1 !! i = None) in Hj. congruence.
Qed.
Lemma std_new s level msg fields w :
  lw_std (let '(i, w) := new_sub s w in global_log level msg fields (Subscribe i w)) = lw_std w.
Proof.
  unfold new_sub. set (i := fresh _).
  by destruct (global_log_emits level msg fields (Subscribe i (put_sub i s w))) as [es [-> _ _ _ _ _]].
Qed.
Lemma step_world_ok w a w' : log_step w a w' → world_ok w → world_ok w' ∧ lw_std w' = lw_std w.
Proof.
  intros Hstep Hok. destruct Hstep as [w l level msg fields|w i e pre post Hp|w plugin name|w c f'|w i|w i].
  - destruct (log_emits l level msg fields w) as [es Hem]. split; [by eapply world_ok_emits|apply Hem].
  - split; [by apply world_ok_deliver|]. unfold OnLogEvent. by repeat case_match.
  - unfold registerPluginLogSubscriber. destruct (lw_std w) eqn:E; [|done]. split; [by apply world_ok_new|].
    rewrite <- E. apply std_new.
  - unfold logs_subscribe. destruct (lw_std w) eqn:E; [|done]. split; [by apply world_ok_new|].
    rewrite <- E. apply std_new.
  - unfold logs_unsubscribe. destruct (global_log_emits LevelInfo "Client unsubscribed from log stream" [] w) as [es Hem].
    split; [|cbn; apply Hem]. pose proof (world_ok_emits _ _ _ Hem Hok) as Hok'.
    apply (world_ok_same (global_log LevelInfo "Client unsubscribed from log stream" [] w)); [done|done| |done|done].
    destruct Hok' as [[Hn Hp] _]. split; cbn; [by apply remove_first_NoDup|].
    intros j [Hj _]%remove_first_elem; [by apply Hp|done].
  - unfold Close. destruct (lw_heap w !! i) as [[p|c f' cl]|]; [done| |done]. split; [|done]. by apply world_ok_put_sub.
Qed.
End lemmas.

(** ** Properties *)

Section properties.
Context `{JsonText} `{RangeOrder} `{LogIO}.

(** A program that has run [Init] and whatever followed. *)
Definition reachable (w : LogWorld) : Prop := ∃ l ls, log_run (put_std l init_world) ls w.
Lemma run_world_ok w ls w' : log_run w ls w' → world_ok w → world_ok w' ∧ lw_std w' = lw_std w.
Proof.
  induction 1 as [w|w a w1 ls w2 Hs _ IH]; intros Hok; [done|].
  destruct (step_world_ok _ _ _ Hs Hok) as [Hok1 <-]. by apply IH.
Qed.
Lemma reachable_ok w : reachable w → world_ok w ∧ is_Some (lw_std w).
Proof.
  intros (l & ls & Hr). destruct (run_world_ok _ _ _ Hr) as [Hok E]; [|split; [done|]; by rewrite E; eexists].
  split; [split; cbn; [constructor|by intros i ?%not_elem_of_nil]|done].
Qed.
Lemma run_accounted id conn f w ls w' :
  (∀ t, io_conn_Write t conn = None) → LDisconnect id ∉ ls → LClose id ∉ ls →
  log_run w ls w' → is_open id conn f w → accounted id conn f w w'.
Proof.
  intros Hup Hd Hc Hr. induction Hr as [w|w a w1 ls w2 Hs _ IH]; intros Ho; [by apply accounted_same|].
  assert (accounted id conn f w w1) as Ha by (apply (step_accounted _ _ _ _ a); [done|set_solver|set_solver|done|done]).
  eapply accounted_trans; [exact Ha|]. apply IH; [set_solver|set_solver|]. by destruct Ha.
Qed.

(** C40: a client that follows the log over a connection that stays up gets every
    entry emitted since it subscribed that matches its filter exactly once,
    whatever the order in which goroutines run, other clients come and go and
    plugins are loaded: what was streamed to it and what is still waiting to be
    are together, in some order, the matching entries emitted since. *)
Theorem stream_exactly_once w conn filter ls w' :
  let f := Some (default {| lf_Level := ""; lf_Component := ""; lf_Tail := 0 |} filter) in
  let id := (new_sub (SocketLogSubscriber conn f false) w).1 in
  reachable w → (∀ t, io_conn_Write t conn = None) →
  log_run (logs_subscribe conn filter w) ls w' → LDisconnect id ∉ ls → LClose id ∉ ls →
  ∃ new, emitted w' = emitted w ++ new ∧
    sent id w' ++ List.filter (matches f) (waiting id w') ≡ₚ List.filter (matches f) new.
Proof.
  intros f id Hr Hup Hrun Hd Hc. destruct (reachable_ok w Hr) as [[[Hn Hp] Hnew] [l Hl]].
  pose proof (is_fresh (dom (lw_heap w))) as Hf. change (fresh (dom (lw_heap w))) with id in Hf.
  set (w1 := Subscribe id (put_sub id (SocketLogSubscriber conn f false) w)).
  assert (is_open id conn f w1) as Ho.
  { split; [split; cbn|split; cbn].
    - apply NoDup_app. split; [done|]. split; [|apply NoDup_singleton]. intros j Hj ->%list_elem_of_singleton.
      apply Hf, elem_of_dom, Hp, Hj.
    - intros j Hj. destruct (decide (j = id)) as [->|]; [rewrite lookup_insert_eq; by eexists|].
      rewrite lookup_insert_ne by done. apply Hp. set_solver.
    - by rewrite lookup_insert_eq.
    - set_solver. }
  assert (accounted id conn f w1 (logs_subscribe conn filter w)) as Ha1.
  { unfold logs_subscribe. rewrite Hl. cbn [new_sub fst snd].
    edestruct global_log_emits as [es Hem]. eapply accounted_emits; [exact Ho|exact Hem]. }
  destruct (run_accounted _ _ _ _ _ _ Hup Hd Hc Hrun (proj1 Ha1)) as [_ (n2 & E2 & P2)].
  destruct Ha1 as [_ (n1 & E1 & P1)]. exists (n1 ++ n2). split; [by rewrite E2, E1, app_assoc|].
  change (account id f w' ≡ₚ List.filter (matches f) (n1 ++ n2)). rewrite P2, P1, List.filter_app.
  destruct (Hnew id) as [Hs Hw]; [by apply not_elem_of_dom|].
  unfold account. change (sent id w1) with (sent id w). change (waiting id w1) with (waiting id w).
  by rewrite Hs, Hw.
Qed.

Lemma step_closed id conn f w a w' :
  log_step w a w' → lw_heap w !! id = Some (SocketLogSubscriber conn f true) →
  lw_heap w' !! id = Some (SocketLogSubscriber conn f true) ∧ sent id w' = sent id w.
Proof.
  assert (∀ s level msg fields w, lw_heap w !! id = Some (SocketLogSubscriber conn f true) →
    let w' := let '(i, w) := new_sub s w in global_log level msg fields (Subscribe i w) in
    lw_heap w' !! id = Some (SocketLogSubscriber conn f true) ∧ sent id w' = sent id w) as Hnew.
  { intros s level msg fields w0 Hh. unfold new_sub. pose proof (is_fresh (dom (lw_heap w0))) as Hf. set (i := fresh _) in *.
    destruct (global_log_emits level msg fields (Subscribe i (put_sub i s w0))) as [es [_ _ Hh' Hs' _ _]].
    cbn zeta. rewrite Hh', Hs'. split; [|done]. cbn. rewrite lookup_insert_ne; [done|]. intros <-. apply Hf, elem_of_dom. by eexists. }
  intros Hstep Hh. destruct Hstep as [w l level msg fields|w i e pre post Hp|w plugin name|w c f'|w i|w i].
  - destruct (log_emits l level msg fields w) as [es [_ _ Hh' Hs' _ _]]. by rewrite Hh', Hs'.
  - unfold OnLogEvent. cbn [put_pending lw_heap]. destruct (decide (i = id)) as [->|Hi]; [by rewrite Hh|].
    destruct (lw_heap w !! i) as [[plugin|c f' closed]|]; [| |done].
    + cbn [snd]. split; [done|]. rewrite sent_write. apply app_nil_r.
    + destruct closed; [done|]. destruct (matches f' e); cbn [negb]; [|done].
      destruct (io_conn_Write _ _); cbn [snd]; (split; [cbn; by rewrite ?lookup_insert_ne|]).
      * change (sent id (write_out [] (put_pending (pre ++ post) w)) = sent id w). rewrite sent_write. apply app_nil_r.
      * rewrite sent_write. cbn. rewrite decide_False by done. apply app_nil_r.
  - unfold registerPluginLogSubscriber. destruct (lw_std w); [by apply Hnew|done].
  - unfold logs_subscribe. destruct (lw_std w); [by apply Hnew|done].
  - unfold logs_unsubscribe. destruct (global_log_emits LevelInfo "Client unsubscribed from log stream" [] w) as [es [_ _ Hh' Hs' _ _]].
    split; [cbn; by rewrite Hh'|]. by rewrite <- (Hs' id).
  - unfold Close. destruct (lw_heap w !! i) as [[p|c f' cl]|] eqn:Hi; [done| |done]. split; [|done]. cbn.
    destruct (decide (id = i)) as [->|]; [rewrite lookup_insert_eq; congruence|by rewrite lookup_insert_ne].
Qed.
(** Nothing is streamed to a client that was closed, although entries may
    still be waiting for it. *)
Theorem closed_stream_is_silent id conn f w ls w' :
  lw_heap w !! id = Some (SocketLogSubscriber conn f true) → log_run w ls w' → sent id w' = sent id w.
Proof.
  intros Hh Hr. induction Hr as [w|w a w1 ls w2 Hs _ IH]; [done|].
  destruct (step_closed _ _ _ _ _ _ Hs Hh) as [Hh1 <-]. by apply IH.
Qed.

(** A call of the logger does nothing below the logger's level.  Otherwise it
    writes one entry, with the fields of the call over those of the logger, to
    each backend in order, an error that a backend reports to stderr in the
    place of its line, and then leaves one delivery to every subscriber. *)
Theorem log_spec l level msg fields w :
  let e := log_entry l level msg fields w in
  if level <? sl_level l then log l level msg fields w = w
  else ∃ outs, Forall2 (written e) (sl_backends l) outs ∧
    lw_trace (log l level msg fields w) = lw_trace w ++ outs ++ (if sl_emitter l then [OEmitted e] else []) ∧
    lw_pending (log l level msg fields w) = lw_pending w ++
      (if sl_emitter l then (λ sub, (sub, e)) <$> lw_subscribers w else []).
Proof.
  intros e. unfold log. destruct (level <? sl_level l); [done|].
  change (NewEntry _ _ _ _ _) with e.
  destruct (backends_spec e (sl_backends l) (write_out [] w)) as (outs & Ho & Ht & Hem).
  exists outs. split; [done|]. pose proof (emits_nil _ _ Hem) as Hp. destruct Hem as [_ Hs _ _ _ _].
  cbn [write_out lw_trace lw_pending lw_subscribers] in *. rewrite app_nil_r in Ht.
  destruct (sl_emitter l); cbn; rewrite Ht, Hp, ?Hs, ?app_nil_r; [|done]. by rewrite <- app_assoc.
Qed.

(** The fields up to the first that names a component. *)
Fixpoint until_component (fields : list Field) : list Field * option string :=
  match fields with
  | [] => ([], None)
  | f :: fields =>
      match (if bool_decide (fd_Key f = "component") then fd_Value f else VNil) with
      | VStr s => ([f], Some s)
      | _ => let '(taken, c) := until_component fields in (f :: taken, c)
      end
  end.
(** What a child logger is: it has the fields given up to the first that names a
    component, which becomes its component, and not the ones after. *)
Theorem With_fields fields l :
  let '(taken, component) := until_component fields in
  With fields l = child l (default (sl_component l) component) (merge_fields (sl_fields l) taken).
Proof.
  unfold With. generalize (sl_fields l). induction fields as [|f fields IH]; intros m; [done|].
  cbn [until_component with_fields]. specialize (IH (<[fd_Key f := fd_Value f]> m)).
  destruct (until_component fields) as [taken c]. case_bool_decide; [|exact IH].
  destruct (fd_Value f) eqn:Ev; try (unfold merge_fields in *; cbn [foldl]; rewrite Ev; exact IH).
  cbn. by rewrite Ev.
Qed.

(** ** cmd/daemon.go: the PID file *)

Section pid_file.
(** os.ReadFile's error for a file that is there, and signal 0 to a process
    (os.FindProcess always succeeds on Unix). *)
Context (read_error : option error) (signal0 : Z → option error).
Definition checkExistingDaemon (pidFile : string) : M (option string) () := λ file,
  match file, read_error with
  | None, _ => (Ok (), None)
  | Some _, Some err =>
      (Err (Joined [Wrapf "PID file exists but cannot be read: " err;
                    ErrorText (" (remove " +:+ pidFile +:+ " manually if daemon is not running)")]), file)
  | Some data, None =>
      match atoi (trim_space data) with
      | Ok pid =>
          match signal0 pid with
          | Some _ => (Ok (), None)
          | None => (Err (ErrorText ("daemon already running with PID " +:+ itoa pid +:+
              " (stop it first or remove " +:+ pidFile +:+ " if it's stale)")), file)
          end
      | _ => (Err (ErrorText ("invalid PID in " +:+ pidFile +:+ ": " +:+ trim_space data +:+
                " (remove file manually if daemon is not running)")), file)
      end
  end.
End pid_file.
Definition writePIDFile (pid : Z) : M (option string) () := λ _, (Ok (), Some (itoa pid +:+ String newline "")).

(** The file written by a daemon stops another one exactly as long as the
    process lives, and is removed when it does not. *)
Theorem pid_file_guards signal0 pidFile pid file :
  min_int64 ≤ pid ≤ max_int64 →
  let file' := (writePIDFile pid file).2 in
  match signal0 pid with
  | Some _ => checkExistingDaemon None signal0 pidFile file' = (Ok (), None)
  | None => ∃ e, checkExistingDaemon None signal0 pidFile file' = (Err e, file')
  end.
Proof.
  intros Hp. cbn -[trim_space itoa]. rewrite trim_space_line by apply framed_word, itoa_word.
  rewrite atoi_itoa by done. destruct (signal0 pid); [done|by eexists].
Qed.
End properties.

(** ** Witnesses and examples *)

Definition sample_text : JsonText :=
  {| json_text j := match j with JInt z => itoa z | JBool true => "true" | JBool false => "false" | _ => "null" end |}.
(** Everything succeeds; the clock counts. *)
Definition sample_io : LogIO := {|
  io_LookPath _ := None; io_MkdirAll _ := None; io_OpenFile _ := None; io_WriteString _ _ := None;
  io_systemd_cat _ := None; io_conn_Write _ _ := None; io_OnLogEvent _ _ _ := None; io_now t := itoa t;
|}.
Definition sample_logger : standardLogger := New default_config [JournaldBackend "text"] true.
Definition started_log : LogWorld := put_std sample_logger init_world.
Definition say (level : Z) (msg : string) : LogWorld → LogWorld :=
  @log sample_text default_order sample_io sample_logger level msg [].
Definition follow : LogWorld → LogWorld :=
  @logs_subscribe sample_text default_order sample_io 7 (Some {| lf_Level := "WARN"; lf_Component := ""; lf_Tail := 20 |}).
Definition deliver (i : positive) (e : Entry) (pre post : list (positive * Entry)) (w : LogWorld) : LogWorld :=
  (@OnLogEvent sample_io i e (put_pending (pre ++ post) w)).2.

(** Two warnings are logged; the second is delivered first. *)
Definition log0 : LogWorld := follow started_log.
Definition log1 : LogWorld := say LevelWarn "first" log0.
Definition log2 : LogWorld := say LevelWarn "second" log1.
Definition entry_at (n : nat) (w : LogWorld) : Entry :=
  default (NewEntry "" "" "" "" None) (snd <$> lw_pending w !! n).
Definition log3 : LogWorld := deliver 1 (entry_at 2 log2) (take 2 (lw_pending log2)) [] log2.
Definition log4 : LogWorld := deliver 1 (entry_at 1 log3) (take 1 (lw_pending log3)) [] log3.
Definition sample_labels : list label :=
  [LLog sample_logger LevelWarn "first" []; LLog sample_logger LevelWarn "second" [];
   LDeliver 1 (entry_at 2 log2); LDeliver 1 (entry_at 1 log3)].
Lemma sample_run : @log_run sample_text default_order sample_io log0 sample_labels log4.
Proof.
  apply (run_cons log0 _ log1); [apply step_log|]. apply (run_cons log1 _ log2); [apply step_log|].
  apply (run_cons log2 _ log3); [apply step_deliver; vm_compute; reflexivity|].
  apply (run_cons log3 _ log4); [apply step_deliver; vm_compute; reflexivity|]. apply run_nil.
Defined.
Lemma started_reachable : @reachable sample_text default_order sample_io started_log.
Proof. exists sample_logger, []. apply run_nil. Defined.
Lemma stream_exactly_once_witness :
  ∃ new, emitted log4 = emitted started_log ++ new ∧
    sent 1 log4 ++ List.filter (matches (Some {| lf_Level := "WARN"; lf_Component := ""; lf_Tail := 20 |})) (waiting 1 log4)
    ≡ₚ List.filter (matches (Some {| lf_Level := "WARN"; lf_Component := ""; lf_Tail := 20 |})) new.
Proof.
  refine (@stream_exactly_once sample_text default_order sample_io started_log 7
    (Some {| lf_Level := "WARN"; lf_Component := ""; lf_Tail := 20 |}) sample_labels log4
    started_reachable (λ _, eq_refl) sample_run _ _).
  - unfold sample_labels. rewrite !elem_of_cons, elem_of_nil. intros H. destruct_or! H; [discriminate..|done].
  - unfold sample_labels. rewrite !elem_of_cons, elem_of_nil. intros H. destruct_or! H; [discriminate..|done].
Defined.
(** A finding: the stream is not in the order of the log. *)
Example stream_out_of_order :
  en_Message <$> emitted log4 = ["Client subscribed to log stream"; "first"; "second"] ∧
  en_Message <$> sent 1 log4 = ["second"; "first"].
Proof. vm_compute. by split. Qed.

Definition log5 : LogWorld := Close 1 log0.
Definition late : LogWorld := say LevelWarn "late" log5.
Lemma late_run : @log_run sample_text default_order sample_io log5 [LLog sample_logger LevelWarn "late" []] late.
Proof. apply (run_cons log5 _ late); [apply step_log|apply run_nil]. Defined.
Lemma closed_at_5 : lw_heap log5 !! 1%positive =
  Some (SocketLogSubscriber 7 (Some {| lf_Level := "WARN"; lf_Component := ""; lf_Tail := 20 |}) true).
Proof. vm_compute. reflexivity. Defined.
Lemma closed_stream_is_silent_witness : sent 1 late = sent 1 log5.
Proof. exact (@closed_stream_is_silent sample_text default_order sample_io _ _ _ _ _ _ closed_at_5 late_run). Defined.

(** A finding: the fields after a component are lost. *)
Example with_component_first :
  let l := With [str_field "component" "observer"; str_field "interface" "wan"] sample_logger in
  sl_component l = "observer" ∧ sl_fields l !! "interface" = None.
Proof. by split. Qed.
(** A finding: a log file without a directory panics, and one in the root
    directory makes the empty directory. *)
Example log_file_without_slash :
  @NewFileBackend sample_io "jack.log" "json" = Panic "slice bounds out of range" ∧
  findLastSlash "/jack.log" = Some 0%nat.
Proof. by split. Qed.
Example text_line :
  @ToText sample_text default_order
    (NewEntry "2025-01-01T00:00:00Z" "warn" "observer" "changed" (Some {["count" := VInt 3]})) =
  "2025-01-01T00:00:00Z [warn] [observer] changed count=3".
Proof. vm_compute. reflexivity. Qed.
(** The logger that the daemon sets up writes an entry of info level at once. *)
Example logger_initialised :
  match @initializeLogger sample_text default_order sample_io init_world with
  | Ok w => length (lw_trace w) = 2%nat ∧ is_Some (lw_std w)
  | _ => False
  end.
Proof. vm_compute. split; [reflexivity|by eexists]. Qed.
