(* ===== verification/Sql.v ===== *)
(** * Sql: database/sql with the SQLite driver, as the plugins use it

    Neither is part of the repository, so both are the class [Sql].  The
    statements are texts in the code; [parse_sql] reads the forms that occur
    (tables, indexes, pragmas, inserts and selections with equality conditions,
    an order and a limit), and the laws [SqlLaws] state what SQLite documents
    of a statement so read, over a view of the files and the open connections.
    [sql_in_memory] is a small engine that satisfies them. *)
From S2P Require Import Prelude GoStr Types Json Value.

(** ** Tables *)

Inductive coltype := TText | TInteger | TOther.
#[export] Instance coltype_eq_dec : EqDecision coltype.
Proof. solve_decision. Defined.
Abbreviation row := (gmap string value).
(** The columns in their order; the rows in the order they were inserted. *)
Record table := { tb_cols : list (string * coltype); tb_rows : list row }.
Definition col_type (t : table) (c : string) : option coltype :=
  snd <$> List.find (λ p, String.eqb p.1 c) (tb_cols t).
Definition cell (r : row) (c : string) : value := default VNil (r !! c).

(** What a column of the type keeps of a bound value: the cases that the
    plugins bind. *)
Definition store (ty : coltype) (v : value) : option value :=
  match ty, v with
  | _, VNil => Some VNil
  | TText, VStr s => Some (VStr s)
  | TInteger, VInt z => Some (VInt z)
  | TInteger, VNum (NInt z) => if in_int64 z then Some (VInt z) else None
  | _, _ => None
  end.

(** ORDER BY: NULL, then integers, then texts by their bytes; other values do
    not occur. *)
Definition cell_rank (v : value) : Z :=
  match v with VNil => 0 | VInt _ => 1 | VStr _ => 2 | _ => 3 end.
Definition cell_leb (a b : value) : bool :=
  match a, b with
  | VInt x, VInt y => x <=? y
  | VStr x, VStr y => String.leb x y
  | _, _ => cell_rank a <=? cell_rank b
  end.

(** ** Statements *)

(** A condition: [1=1], or a column compared with the next argument. *)
Inductive cond := CTrue | CEq (c : string).
Inductive limit := LArg | LNum (n : Z).
Record select := {
  se_cols : list string; se_table : string; se_where : list cond;
  se_order : option string;            (* descending *)
  se_limit : option limit;
}.
Inductive statement :=
| SCreateTable (t : string) (cols : list (string * coltype))   (* IF NOT EXISTS *)
| SKeep                                                        (* changes no table *)
| SInsert (t : string) (cols : list string)                    (* one ? per column *)
| SSelect (q : select).

Definition lparen : ascii := byte_of 40.
Definition rparen : ascii := byte_of 41.
Definition bare (w : string) : string :=
  remove_byte comma (remove_byte lparen (remove_byte rparen w)).

Fixpoint parse_conds (ws : list string) : option (list cond * list string) :=
  match ws with
  | "1=1" :: "AND" :: ws => (λ p, (CTrue :: p.1, p.2)) <$> parse_conds ws
  | "1=1" :: ws => Some ([CTrue], ws)
  | c :: "=" :: "?" :: "AND" :: ws => (λ p, (CEq c :: p.1, p.2)) <$> parse_conds ws
  | c :: "=" :: "?" :: ws => Some ([CEq c], ws)
  | _ => None
  end.
Definition parse_where (ws : list string) : option (list cond * list string) :=
  match ws with "WHERE" :: ws => parse_conds ws | ws => Some ([], ws) end.
Definition parse_order (ws : list string) : option string * list string :=
  match ws with "ORDER" :: "BY" :: c :: "DESC" :: ws => (Some c, ws) | ws => (None, ws) end.
Definition parse_limit (ws : list string) : option (option limit) :=
  match ws with
  | [] => Some None
  | ["LIMIT"; n] =>
      if String.eqb n "?" then Some (Some LArg)
      else match atoi n with Ok n => Some (Some (LNum n)) | _ => None end
  | _ => None
  end.
(** The words before and after the first [w]. *)
Fixpoint until (w : string) (ws : list string) : option (list string * list string) :=
  match ws with
  | [] => None
  | x :: ws => if String.eqb x w then Some ([], ws) else (λ p, (x :: p.1, p.2)) <$> until w ws
  end.
Definition parse_select (ws : list string) : option statement :=
  match until "FROM" ws with
  | Some (cols, t :: ws) =>
      match parse_where ws with
      | Some (cs, ws) =>
          let '(o, ws) := parse_order ws in
          (λ l, SSelect {| se_cols := remove_byte comma <$> cols; se_table := t; se_where := cs;
                           se_order := o; se_limit := l |}) <$> parse_limit ws
      | None => None
      end
  | _ => None
  end.
Definition ends_with (c : ascii) (w : string) : bool := has_prefix (rev_str w) (String c "").
Definition parse_type (w : string) : coltype :=
  if String.eqb (bare w) "TEXT" then TText else if String.eqb (bare w) "INTEGER" then TInteger
  else TOther.
(** The columns of a table: the first word of each is its name, the second its
    type; a comma ends it. *)
Fixpoint parse_columns (start : bool) (ws : list string) : list (string * coltype) :=
  match ws with
  | [] => []
  | w :: ws =>
      if start then
        match ws with
        | ty :: _ => (w, parse_type ty) :: parse_columns (ends_with comma w) ws
        | [] => []
        end
      else parse_columns (ends_with comma w) ws
  end.
Definition parse_sql (text : string) : option statement :=
  match fields text with
  | "CREATE" :: "TABLE" :: "IF" :: "NOT" :: "EXISTS" :: t :: "(" :: ws =>
      Some (SCreateTable t (parse_columns true ws))
  | "CREATE" :: "INDEX" :: _ | "PRAGMA" :: _ | ["VACUUM"] => Some SKeep
  | "INSERT" :: "INTO" :: t :: ws =>
      (λ p, SInsert t (bare <$> p.1)) <$> until "VALUES" ws
  | "SELECT" :: ws => parse_select ws
  | _ => None
  end.

(** ** What statements mean *)

(** The arguments that the conditions use, and those left for the limit. *)
Fixpoint holds (r : row) (cs : list cond) (args : list value) : bool :=
  match cs, args with
  | [], _ => true
  | CTrue :: cs, args => holds r cs args
  | CEq c :: cs, a :: args =>
      bool_decide (cell r c = a) && negb (bool_decide (a = VNil)) && holds r cs args
  | CEq _ :: _, [] => false
  end.
Definition cond_args (cs : list cond) : nat :=
  length (List.filter (λ c, match c with CEq _ => true | CTrue => false end) cs).
Definition limit_of (q : select) (args : list value) : option Z :=
  match se_limit q with
  | None => None
  | Some (LNum n) => Some n
  | Some LArg => match args !! cond_args (se_where q) with Some (VInt n) => Some n | _ => None end
  end.
(** A negative limit is none. *)
Definition take_limit {A} (l : option Z) (rows : list A) : list A :=
  match l with
  | Some n => if n <? 0 then rows else take (Z.to_nat n) rows
  | None => rows
  end.
Definition descending (c : string) (a b : row) : Prop := cell_leb (cell b c) (cell a c) = true.
#[export] Instance descending_dec c : RelDecision (descending c).
Proof. intros a b. unfold descending. apply _. Defined.

Definition matching (q : select) (args : list value) (t : table) : list row :=
  List.filter (λ r, holds r (se_where q) args) (tb_rows t).
(** The rows a selection may return: rows that compare equal come in any order. *)
Definition selects (q : select) (args : list value) (t : table) (rows : list (list value)) : Prop :=
  if bool_decide (se_cols q = ["COUNT(*)"]) then rows = [[VInt (Z.of_nat (length (matching q args t)))]]
  else ∃ sorted, sorted ≡ₚ matching q args t ∧
    match se_order q with Some c => StronglySorted (descending c) sorted | None => True end ∧
    rows = take_limit (limit_of q args) ((λ r, cell r <$> se_cols q) <$> sorted).

(** The conditions compare texts with texts, so that no conversion happens. *)
Definition plain_args (q : select) (args : list value) (t : table) : Prop :=
  Forall (λ p, match p.1 with
               | CTrue => True
               | CEq c => col_type t c = Some TText ∧ ∃ s, p.2 = VStr s
               end)
    (zip (List.filter (λ c, match c with CEq _ => true | CTrue => false end) (se_where q)) args).

(** A new row: an id above all others, and the stored arguments. *)
Definition new_row (t : table) (cols : list string) (args : list value) (r : row) : Prop :=
  (∃ id, r !! "id" = Some (VInt id) ∧
     ∀ r', r' ∈ tb_rows t → ∃ id', r' !! "id" = Some (VInt id') ∧ id' < id) ∧
  Forall2 (λ c a, ∃ ty v, col_type t c = Some ty ∧ store ty a = Some v ∧ r !! c = Some v) cols args.
(** Every argument can be stored in its column; the id is left to SQLite. *)
Definition storable (t : table) (cols : list string) (args : list value) : Prop :=
  "id" ∉ cols ∧ NoDup cols ∧ col_type t "id" = Some TInteger ∧
  (∀ r, r ∈ tb_rows t → ∃ id, r !! "id" = Some (VInt id)) ∧
  Forall2 (λ c a, ∃ ty v, col_type t c = Some ty ∧ store ty a = Some v) cols args.
Definition exec_effect (st : statement) (args : list value) (old new : gmap string table) : Prop :=
  match st with
  | SCreateTable t cols =>
      new = match old !! t with
            | Some _ => old
            | None => <[t := {| tb_cols := cols; tb_rows := [] |}]> old
            end
  | SKeep | SSelect _ => new = old
  | SInsert t cols =>
      ∀ tb, old !! t = Some tb → storable tb cols args →
        ∃ r, new_row tb cols args r ∧
          new = <[t := {| tb_cols := tb_cols tb; tb_rows := tb_rows tb ++ [r] |}]> old
  end.

(** ** The library *)

(** A result set: the columns, what scanning each row into values gives, and
    the error that ended the iteration. *)
Record Rows := {
  rs_columns : res (list string); rs_rows : list (res (list value)); rs_err : option error;
}.
Class Sql := {
  sqldb : Type;
  sql_MkdirAll : string → M sqldb ();
  sql_Open : string → M sqldb positive;
  sql_Ping : positive → M sqldb ();
  (* the result has its own RowsAffected *)
  sql_Exec : positive → string → list value → M sqldb (res Z);
  sql_Query : positive → string → list value → M sqldb Rows;
  sql_Close : positive → M sqldb ();
  sql_Stat : string → M sqldb Z;
}.

(** The open connections with the file of each, and the tables of each file. *)
Class SqlLaws `{Sql} := {
  sv_conn : sqldb → gmap positive string;
  sv_tables : string → sqldb → gmap string table;
  sql_MkdirAll_keeps path s r s' : sql_MkdirAll path s = (r, s') →
    no_panic r ∧ sv_conn s' = sv_conn s ∧ ∀ p, sv_tables p s' = sv_tables p s;
  sql_Open_opens path s r s' : sql_Open path s = (r, s') →
    no_panic r ∧ (∀ p, sv_tables p s' = sv_tables p s) ∧
    match r with
    | Ok c => sv_conn s !! c = None ∧ sv_conn s' = <[c := path]> (sv_conn s)
    | _ => sv_conn s' = sv_conn s
    end;
  sql_Ping_keeps c s r s' : sql_Ping c s = (r, s') →
    no_panic r ∧ sv_conn s' = sv_conn s ∧ ∀ p, sv_tables p s' = sv_tables p s;
  sql_Close_closes c s r s' : sql_Close c s = (r, s') →
    no_panic r ∧ sv_conn s' = delete c (sv_conn s) ∧ ∀ p, sv_tables p s' = sv_tables p s;
  sql_Stat_keeps path s r s' : sql_Stat path s = (r, s') →
    no_panic r ∧ sv_conn s' = sv_conn s ∧ ∀ p, sv_tables p s' = sv_tables p s;
  (* a statement that fails changes nothing; a closed connection only fails; the
     rows delivered before an error are the first of a result *)
  sql_Exec_effect c text args s r s' : sql_Exec c text args s = (r, s') →
    no_panic r ∧ sv_conn s' = sv_conn s ∧
    (∀ p, sv_conn s !! c ≠ Some p → sv_tables p s' = sv_tables p s) ∧
    match sv_conn s !! c, r with
    | Some path, Ok n =>
        no_panic n ∧
        ∀ st, parse_sql text = Some st →
          exec_effect st args (sv_tables path s) (sv_tables path s')
    | None, Ok _ => False
    | _, _ => ∀ p, sv_tables p s' = sv_tables p s
    end;
  sql_Query_answers c text args s r s' : sql_Query c text args s = (r, s') →
    no_panic r ∧ sv_conn s' = sv_conn s ∧ (∀ p, sv_tables p s' = sv_tables p s) ∧
    match sv_conn s !! c, r with
    | Some path, Ok rows =>
        Forall no_panic (rs_rows rows) ∧ no_panic (rs_columns rows) ∧
        (∀ q t, parse_sql text = Some (SSelect q) →
          sv_tables path s !! se_table q = Some t → plain_args q args t →
          rs_columns rows = Ok (se_cols q) ∧
          ∃ result k, selects q args t result ∧ rs_rows rows = Ok <$> take k result ∧
            (rs_err rows = None → take k result = result))
    | None, Ok _ => False
    | _, _ => True
    end;
}.

(** ** Lemmas: the order of cells *)

Lemma str_leb_trans a b c :
  String.leb a b = true → String.leb b c = true → String.leb a c = true.
Proof.
  unfold String.leb. revert b c. induction a as [|x a IH]; intros [|y b] [|z c]; cbn; try done.
  unfold Ascii.compare.
  destruct (N.compare_spec (Ascii.N_of_ascii x) (Ascii.N_of_ascii y)) as [Exy|Lxy|Gxy]; [| |done];
    destruct (N.compare_spec (Ascii.N_of_ascii y) (Ascii.N_of_ascii z)) as [Eyz|Lyz|Gyz];
    try done; intros Hab Hbc.
  - rewrite Exy, Eyz, N.compare_refl. by apply (IH b).
  - rewrite Exy. by apply N.compare_lt_iff in Lyz as ->.
  - rewrite <-Eyz. by apply N.compare_lt_iff in Lxy as ->.
  - by rewrite (proj2 (N.compare_lt_iff _ _) (N.lt_trans _ _ _ Lxy Lyz)).
Qed.
Lemma cell_leb_trans a b c : cell_leb a b = true → cell_leb b c = true → cell_leb a c = true.
Proof.
  unfold cell_leb.
  destruct a, b; cbn; try done; destruct c; cbn; try done;
    (apply str_leb_trans || (rewrite !Z.leb_le; lia)).
Qed.
Lemma cell_leb_total a b : cell_leb a b = true ∨ cell_leb b a = true.
Proof.
  unfold cell_leb. destruct a, b; cbn; auto;
    (apply String.leb_total || (rewrite !Z.leb_le; lia)).
Qed.
#[export] Instance descending_trans c : Transitive (descending c).
Proof. intros x y z Hxy Hyz. by eapply cell_leb_trans. Qed.
#[export] Instance descending_total c : Total (descending c).
Proof. intros x y. destruct (cell_leb_total (cell y c) (cell x c)); [by left|by right]. Qed.

(** ** A small engine *)

Record memory_db := {
  md_conn : gmap positive string;
  md_files : gmap string (gmap string table);
}.
Definition md_tables (path : string) (s : memory_db) : gmap string table :=
  default ∅ (md_files s !! path).
Definition set_tables (path : string) (ts : gmap string table) (s : memory_db) : memory_db :=
  {| md_conn := md_conn s; md_files := <[path := ts]> (md_files s) |}.
Definition row_id (r : row) : Z := match r !! "id" with Some (VInt id) => id | _ => 0 end.
Definition next_id (t : table) : Z := foldr (λ r m, Z.max (row_id r + 1) m) 1 (tb_rows t).
(** The stored cells, when every argument can be. *)
Fixpoint make_cells (t : table) (cols : list string) (args : list value) (r : row) : option row :=
  match cols, args with
  | [], [] => Some r
  | c :: cols, a :: args =>
      match col_type t c with
      | Some ty => match store ty a with
                   | Some v => <[c := v]> <$> make_cells t cols args r
                   | None => None
                   end
      | None => None
      end
  | _, _ => None
  end.
Definition closed_error : error := StdError "sql" "database is closed".
Definition logic_error : error := StdError "sqlite" "SQL logic error".
Definition run_statement (st : statement) (args : list value) (ts : gmap string table)
    : option (gmap string table) :=
  match st with
  | SCreateTable t cols =>
      Some match ts !! t with
           | Some _ => ts
           | None => <[t := {| tb_cols := cols; tb_rows := [] |}]> ts
           end
  | SKeep | SSelect _ => Some ts
  | SInsert t cols =>
      tb ← ts !! t;
      r ← make_cells tb cols args {["id" := VInt (next_id tb)]};
      Some (<[t := {| tb_cols := tb_cols tb; tb_rows := tb_rows tb ++ [r] |}]> ts)
  end.
Definition run_select (q : select) (args : list value) (t : table) : list (list value) :=
  if bool_decide (se_cols q = ["COUNT(*)"]) then [[VInt (Z.of_nat (length (matching q args t)))]]
  else
    let rows := matching q args t in
    let sorted := match se_order q with Some c => merge_sort (descending c) rows | None => rows end in
    take_limit (limit_of q args) ((λ r, cell r <$> se_cols q) <$> sorted).

Definition sql_in_memory : Sql := {|
  sqldb := memory_db;
  sql_MkdirAll _ := mret ();
  sql_Open path := λ s,
    let c := fresh (dom (md_conn s)) in
    (Ok c, {| md_conn := <[c := path]> (md_conn s); md_files := md_files s |});
  sql_Ping c := mret ();
  sql_Exec c text args := λ s,
    match md_conn s !! c with
    | None => (Err closed_error, s)
    | Some path =>
        match parse_sql text ≫= λ st, run_statement st args (md_tables path s) with
        | Some ts => (Ok (Ok 1), set_tables path ts s)
        | None => (Err logic_error, s)
        end
    end;
  sql_Query c text args := λ s,
    match md_conn s !! c with
    | None => (Err closed_error, s)
    | Some path =>
        match parse_sql text with
        | Some (SSelect q) =>
            match md_tables path s !! se_table q with
            | Some t => (Ok {| rs_columns := Ok (se_cols q);
                               rs_rows := Ok <$> run_select q args t; rs_err := None |}, s)
            | None => (Err logic_error, s)
            end
        | _ => (Err logic_error, s)
        end
    end;
  sql_Close c := λ s, (Ok (), {| md_conn := delete c (md_conn s); md_files := md_files s |});
  sql_Stat path := mret 4096;
|}.

Lemma next_id_above t r : r ∈ tb_rows t → row_id r < next_id t.
Proof.
  unfold next_id. induction (tb_rows t) as [|r' l IH]; [by intros ?%not_elem_of_nil|].
  intros [->|Hr]%elem_of_cons; cbn; [lia|]. specialize (IH Hr). lia.
Qed.
Lemma make_cells_keeps t cols args r r' c :
  make_cells t cols args r = Some r' → c ∉ cols → r' !! c = r !! c.
Proof.
  revert args r'. induction cols as [|c' cols IH]; intros [|a args] r' Hm Hc; cbn in Hm; try done.
  { by injection Hm as ->. }
  destruct (col_type t c') as [ty|]; [|done]. destruct (store ty a); [|done].
  apply fmap_Some in Hm as (r1 & Hm & ->). rewrite lookup_insert_ne by set_solver.
  apply (IH args); [done|]. set_solver.
Qed.
Lemma make_cells_length t cols args r r' :
  make_cells t cols args r = Some r' → length cols = length args.
Proof.
  revert args r'. induction cols as [|c cols IH]; intros [|a args] r' Hm; cbn in Hm; try done.
  destruct (col_type t c) as [ty|]; [|done]. destruct (store ty a); [|done].
  apply fmap_Some in Hm as (r1 & Hm & _). cbn. f_equal. by eapply IH.
Qed.
Lemma make_cells_at t cols args r r' i c a :
  make_cells t cols args r = Some r' → NoDup cols → cols !! i = Some c → args !! i = Some a →
  ∃ ty v, col_type t c = Some ty ∧ store ty a = Some v ∧ r' !! c = Some v.
Proof.
  revert args r' i. induction cols as [|c' cols IH]; intros [|a' args] r' i Hm Hn Hc Ha;
    cbn in Hm; try done.
  destruct (col_type t c') as [ty|] eqn:Hty; [|done].
  destruct (store ty a') as [v|] eqn:Hv; [|done].
  apply fmap_Some in Hm as (r1 & Hm & ->). apply NoDup_cons in Hn as [Hc' Hn].
  destruct i as [|i]; cbn in Hc, Ha.
  - injection Hc as ->. injection Ha as ->. exists ty, v. by rewrite lookup_insert_eq.
  - assert (c ≠ c') by (intros ->; by apply Hc'; eapply list_elem_of_lookup_2).
    rewrite lookup_insert_ne by done. by eapply IH.
Qed.

Lemma run_insert_effect t cols args (ts : gmap string table) tb r :
  ts !! t = Some tb → make_cells tb cols args {["id" := VInt (next_id tb)]} = Some r →
  storable tb cols args → new_row tb cols args r.
Proof.
  intros Ht Hm (Hid & Hn & _ & Hids & _). split.
  - exists (next_id tb). split.
    + by rewrite (make_cells_keeps _ _ _ _ _ _ Hm Hid), lookup_singleton_eq.
    + intros r' Hr'. destruct (Hids r' Hr') as [id Hr]. exists id. split; [done|].
      pose proof (next_id_above tb r' Hr') as Hlt. unfold row_id in Hlt. by rewrite Hr in Hlt.
  - apply Forall2_same_length_lookup_2; [by eapply make_cells_length|].
    intros i c a Hc Ha. by eapply make_cells_at.
Qed.
Lemma run_statement_effect st args ts ts' :
  run_statement st args ts = Some ts' → exec_effect st args ts ts'.
Proof.
  destruct st as [t cols| |t cols|q]; cbn; [by intros [= <-]..| |by intros [= <-]].
  intros (tb & Ht & (r & Hr & [= <-])%bind_Some)%bind_Some tb' Ht' Hst.
  rewrite Ht in Ht'. injection Ht' as <-. exists r. split; [|done]. by eapply run_insert_effect.
Qed.
Lemma run_select_selects q args t : selects q args t (run_select q args t).
Proof.
  unfold selects, run_select. case_bool_decide; [done|].
  destruct (se_order q) as [c|].
  - exists (merge_sort (descending c) (matching q args t)). split_and!; [|by apply StronglySorted_merge_sort; apply _|done].
    apply merge_sort_Permutation.
  - by exists (matching q args t).
Qed.
Lemma md_tables_set path ts s p :
  md_tables p (set_tables path ts s) = if bool_decide (p = path) then ts else md_tables p s.
Proof.
  unfold md_tables, set_tables. cbn. case_bool_decide.
  - subst. by rewrite lookup_insert_eq.
  - by rewrite lookup_insert_ne.
Qed.

#[export] Instance sql_memory_laws : @SqlLaws sql_in_memory.
Proof.
  refine {| sv_conn := md_conn : @sqldb sql_in_memory → _;
            sv_tables := md_tables : string → @sqldb sql_in_memory → _ |}.
  - by intros path s r s' [= <- <-].
  - intros path s r s' [= <- <-]. split_and!; [done|done| |done].
    apply not_elem_of_dom, is_fresh.
  - by intros c s r s' [= <- <-].
  - by intros c s r s' [= <- <-].
  - by intros path s r s' [= <- <-].
  - intros c text args s r s'. cbn.
    destruct (md_conn s !! c) as [path|] eqn:Hc; [|by intros [= <- <-]].
    destruct (parse_sql text ≫= _) as [ts|] eqn:Hst; intros [= <- <-]; [|by split_and!].
    split; [done|]. split; [done|]. split.
    + intros p Hp. rewrite md_tables_set. case_bool_decide; congruence.
    + split; [done|]. intros st Hp. rewrite Hp in Hst. cbn in Hst.
      rewrite md_tables_set, bool_decide_eq_true_2 by done. by apply run_statement_effect.
  - intros c text args s r s'. cbn.
    destruct (md_conn s !! c) as [path|] eqn:Hc; [|by intros [= <- <-]].
    destruct (parse_sql text) as [[| | |q]|] eqn:Hq; try by intros [= <- <-]; split_and!.
    destruct (md_tables path s !! se_table q) as [t|] eqn:Ht; intros [= <- <-]; [|by split_and!].
    split; [done|]. split; [done|]. split; [done|]. split; [|split].
    + cbn. apply Forall_fmap. by apply Forall_true.
    + done.
    + intros q' t' [= <-] Ht' _. rewrite Ht in Ht'. injection Ht' as <-.
      split; [done|]. eexists _, (length (run_select q args t)).
      rewrite take_ge by done. split_and!; [apply run_select_selects|done..].
Defined.
