(* ===== verification/Sqlite.v ===== *)
(** * Sqlite: the SQLite plugin (plugins/core/sqlite3)

    types.go, provider.go and rpc_provider.go over the driver of [Sql]: the log
    table, the database service that other plugins call, and the commands.  The
    RPC server runs one call at a time here.  The theorems: what opening a
    database leaves; that a stored log event is found again, and what a query
    returns; what a second configuration does, and that a flushed database is
    never opened again. *)
From S2P Require Import Prelude GoStr Types Json Value Struct Codec Registry Loader Logger Sql.

(** ** types.go *)

Record DatabaseConfig := {
  dc_Enabled : bool; dc_DatabasePath : string; dc_LogStorageEnabled : bool; dc_MaxLogEntries : Z;
}.
#[export] Instance DatabaseConfig_struct : Struct DatabaseConfig := {
  rows c := [("enabled", VBool (dc_Enabled c)); ("database_path", VStr (dc_DatabasePath c));
             ("log_storage_enabled", VBool (dc_LogStorageEnabled c));
             ("max_log_entries", VInt (dc_MaxLogEntries c))];
  omitempty _ := false;
  build g := {| dc_Enabled := as_bool (g "enabled"); dc_DatabasePath := as_str (g "database_path");
                dc_LogStorageEnabled := as_bool (g "log_storage_enabled");
                dc_MaxLogEntries := as_int (g "max_log_entries") |};
  schema := [("enabled", KBool); ("database_path", KStr); ("log_storage_enabled", KBool);
             ("max_log_entries", KInt)];
}.
Definition Unmarshal_DatabaseConfig : json → res DatabaseConfig := dec_struct dec_base zero_struct.

(** ** provider.go *)

Record DatabaseProvider := { dp_config : DatabaseConfig; dp_db : positive }.

Definition create_logs : string := "CREATE TABLE IF NOT EXISTS logs (
			id         INTEGER PRIMARY KEY AUTOINCREMENT,
			timestamp  TEXT NOT NULL,
			level      TEXT NOT NULL,
			component  TEXT NOT NULL,
			message    TEXT NOT NULL,
			fields     TEXT
		)".
Definition create_plugin_metadata : string := "CREATE TABLE IF NOT EXISTS plugin_metadata (
			plugin_name TEXT PRIMARY KEY,
			version     TEXT,
			last_update TEXT
		)".
Definition schema_statements : list string :=
  [create_logs;
   "CREATE INDEX IF NOT EXISTS idx_logs_timestamp ON logs(timestamp)";
   "CREATE INDEX IF NOT EXISTS idx_logs_level ON logs(level)";
   "CREATE INDEX IF NOT EXISTS idx_logs_component ON logs(component)";
   create_plugin_metadata].
Definition insertSQL : string :=
  "INSERT INTO logs (timestamp, level, component, message, fields) VALUES (?, ?, ?, ?, ?)".

Record LogEntry := {
  le_ID : Z; le_Timestamp : string; le_Level : string; le_Component : string;
  le_Message : string; le_Fields : string;
}.
(** The struct has no JSON tags. *)
Definition enc_LogEntry (e : LogEntry) : json :=
  JObj [("ID", JInt (le_ID e)); ("Timestamp", JStr (le_Timestamp e)); ("Level", JStr (le_Level e));
        ("Component", JStr (le_Component e)); ("Message", JStr (le_Message e));
        ("Fields", JStr (le_Fields e))].

(** database/sql's Scan into an int and into a string. *)
Definition scan_error : error := StdError "database/sql" "Scan error".
Definition scan_int (v : value) : res Z := match v with VInt z => Ok z | _ => Err scan_error end.
Definition scan_string (v : value) : res string :=
  match v with VStr s => Ok s | VInt z => Ok (itoa z) | _ => Err scan_error end.
Definition scan_entry (row : res (list value)) : res LogEntry :=
  row ≫= λ row,
  match row with
  | [id; timestamp; level; component; message; fields] =>
      scan_int id ≫= λ id, scan_string timestamp ≫= λ timestamp,
      scan_string level ≫= λ level, scan_string component ≫= λ component,
      scan_string message ≫= λ message, scan_string fields ≫= λ fields,
      Ok {| le_ID := id; le_Timestamp := timestamp; le_Level := level; le_Component := component;
            le_Message := message; le_Fields := fields |}
  | _ => Err scan_error
  end.
(** The loop over [rows.Next]: it ends with the first row that cannot be
    scanned, or with the error of the iteration. *)
Fixpoint scan_rows {A} (scan : res (list value) → res A) (l : list (res (list value)))
    : res (list A) :=
  match l with
  | [] => Ok []
  | row :: l => scan row ≫= λ a, scan_rows scan l ≫= λ entries, Ok (a :: entries)
  end.
Definition rows_error (prefix : string) (rows : Rows) : res () :=
  match rs_err rows with Some err => Err (Wrapf prefix err) | None => Ok () end.

Section provider.
Context `{Sql}.

(** [if _, err := db.Exec(text); err != nil { db.Close(); return err }]. *)
Definition pragma (db : positive) (text what : string) : M sqldb () :=
  attempt (sql_Exec db text []) ≫= λ r,
  match r with
  | Err err => attempt (sql_Close db) ≫= λ _, fail (Wrapf what err)
  | _ => mret ()
  end.
Definition connect (config : DatabaseConfig) : M sqldb positive :=
  wrapM "failed to create database directory: "
    (sql_MkdirAll (filepath_Dir (dc_DatabasePath config))) ≫= λ _,
  wrapM "failed to open database: " (sql_Open (dc_DatabasePath config)) ≫= λ db,
  attempt (sql_Ping db) ≫= λ pinged,
  match pinged with
  | Err err => attempt (sql_Close db) ≫= λ _, fail (Wrapf "failed to ping database: " err)
  | _ =>
  pragma db "PRAGMA journal_mode=WAL" "failed to enable WAL mode: " ≫= λ _,
  attempt (sql_Exec db "PRAGMA wal_checkpoint(RESTART)" []) ≫= λ _,
  pragma db "PRAGMA busy_timeout=2000" "failed to set busy timeout: " ≫= λ _,
  mret db
  end.
Definition initializeSchema (p : DatabaseProvider) : M sqldb () :=
  for_each schema_statements (λ stmt,
    wrapM "failed to create schema: " (sql_Exec (dp_db p) stmt []) ≫= λ _, mret ()).
Definition Close (p : DatabaseProvider) : M sqldb () :=
  attempt (sql_Exec (dp_db p) "PRAGMA wal_checkpoint(TRUNCATE)" []) ≫= λ _,
  sql_Close (dp_db p).
Definition NewDatabaseProvider (config : DatabaseConfig) : M sqldb DatabaseProvider :=
  connect config ≫= λ db,
  let provider := {| dp_config := config; dp_db := db |} in
  attempt (initializeSchema provider) ≫= λ r,
  match r with
  | Err err => attempt (Close provider) ≫= λ _, fail err
  | _ => mret provider
  end.

Definition InsertLog (p : DatabaseProvider) (timestamp level component message fields : string)
    : M sqldb () :=
  if negb (dc_LogStorageEnabled (dp_config p)) then mret ()
  else
    wrapM "failed to insert log: " (sql_Exec (dp_db p) insertSQL
      [VStr timestamp; VStr level; VStr component; VStr message; VStr fields]) ≫= λ _, mret ().

(** [QueryRow(...).Scan(&n)]: the first row. *)
Definition scan_count (rows : Rows) : res Z :=
  match rs_rows rows with
  | Ok [VInt n] :: _ => Ok n
  | _ => Err (default scan_error (rs_err rows))
  end.
Definition Stats (p : DatabaseProvider) : M sqldb (gmap string value) :=
  wrapM "failed to count logs: "
    (sql_Query (dp_db p) "SELECT COUNT(*) FROM logs" [] ≫= λ rows, lift (scan_count rows))
    ≫= λ logCount,
  wrapM "failed to stat database file: " (sql_Stat (dc_DatabasePath (dp_config p))) ≫= λ size,
  mret {["log_count" := VInt logCount; "database_size_bytes" := VInt size;
         "database_path" := VStr (dc_DatabasePath (dp_config p))]}.

Definition query_text (level component : string) (limit : Z) : string :=
  "SELECT id, timestamp, level, component, message, fields FROM logs WHERE 1=1" +:+
  (if bool_decide (level = "") then "" else " AND level = ?") +:+
  (if bool_decide (component = "") then "" else " AND component = ?") +:+
  " ORDER BY timestamp DESC" +:+
  (if 0 <? limit then " LIMIT ?" else "").
Definition query_args (level component : string) (limit : Z) : list value :=
  (if bool_decide (level = "") then [] else [VStr level]) ++
  (if bool_decide (component = "") then [] else [VStr component]) ++
  (if 0 <? limit then [VInt limit] else []).
Definition QueryLogs (p : DatabaseProvider) (level component : string) (limit : Z)
    : M sqldb (list LogEntry) :=
  wrapM "failed to query logs: "
    (sql_Query (dp_db p) (query_text level component limit) (query_args level component limit))
    ≫= λ rows,
  lift (wrap "failed to scan log entry: " (scan_rows scan_entry (rs_rows rows))) ≫= λ entries,
  lift (rows_error "error iterating logs: " rows) ≫= λ _, mret entries.
Definition Vacuum (p : DatabaseProvider) : M sqldb () :=
  wrapM "failed to vacuum database: " (sql_Exec (dp_db p) "VACUUM" []) ≫= λ _, mret ().

Definition Exec (p : DatabaseProvider) (query : string) (args : list value) : M sqldb Z :=
  wrapM "failed to execute query: " (sql_Exec (dp_db p) query args) ≫= λ result,
  lift (wrap "failed to get rows affected: " result).
Definition Query (p : DatabaseProvider) (query : string) (args : list value)
    : M sqldb (list string * list (list value)) :=
  wrapM "failed to execute query: " (sql_Query (dp_db p) query args) ≫= λ rows,
  lift (wrap "failed to get columns: " (rs_columns rows)) ≫= λ columns,
  lift (wrap "failed to scan row: " (scan_rows id (rs_rows rows))) ≫= λ results,
  lift (rows_error "error iterating rows: " rows) ≫= λ _, mret (columns, results).
(** [None]: no rows; an error that kept the first row from being read is not
    looked at, and [rows.Err] is nil once a row was read. *)
Definition QueryRow (p : DatabaseProvider) (query : string) (args : list value)
    : M sqldb (list string * option (list value)) :=
  wrapM "failed to execute query: " (sql_Query (dp_db p) query args) ≫= λ rows,
  lift (wrap "failed to get columns: " (rs_columns rows)) ≫= λ columns,
  match rs_rows rows with
  | [] => mret (columns, None)
  | row :: _ => lift (wrap "failed to scan row: " row) ≫= λ columnValues,
                mret (columns, Some columnValues)
  end.
End provider.

(** ** rpc_provider.go *)

(** The argument structs of the service's methods. *)
Record InsertLogArgs := {
  ia_Timestamp : string; ia_Level : string; ia_Component : string; ia_Message : string;
  ia_Fields : string;
}.
#[export] Instance InsertLogArgs_struct : Struct InsertLogArgs := {
  rows a := [("timestamp", VStr (ia_Timestamp a)); ("level", VStr (ia_Level a));
             ("component", VStr (ia_Component a)); ("message", VStr (ia_Message a));
             ("fields", VStr (ia_Fields a))];
  omitempty _ := false;
  build g := {| ia_Timestamp := as_str (g "timestamp"); ia_Level := as_str (g "level");
                ia_Component := as_str (g "component"); ia_Message := as_str (g "message");
                ia_Fields := as_str (g "fields") |};
  schema := [("timestamp", KStr); ("level", KStr); ("component", KStr); ("message", KStr);
             ("fields", KStr)];
}.
Record QueryLogsArgs := { qa_Level : string; qa_Component : string; qa_Limit : Z }.
#[export] Instance QueryLogsArgs_struct : Struct QueryLogsArgs := {
  rows a := [("level", VStr (qa_Level a)); ("component", VStr (qa_Component a));
             ("limit", VInt (qa_Limit a))];
  omitempty _ := false;
  build g := {| qa_Level := as_str (g "level"); qa_Component := as_str (g "component");
                qa_Limit := as_int (g "limit") |};
  schema := [("level", KStr); ("component", KStr); ("limit", KInt)];
}.
(** A statement and its arguments, which are decoded into interface values. *)
Record SqlArgs := { sa_Query : string; sa_Args : list value }.
Fixpoint dec_sql_args (a : SqlArgs) (kvs : list (string * json)) : res SqlArgs :=
  match kvs with
  | [] => Ok a
  | (k, j) :: kvs =>
      (match find_key ["query"; "args"] k with
       | None => Ok a
       | Some t =>
           if bool_decide (t = "query") then
             dec_string (sa_Query a) j ≫= λ q, Ok {| sa_Query := q; sa_Args := sa_Args a |}
           else
             match j with
             | JNull => Ok {| sa_Query := sa_Query a; sa_Args := [] |}
             | JArr l => Ok {| sa_Query := sa_Query a; sa_Args := Unmarshal_any <$> l |}
             | _ => Err type_error
             end
       end) ≫= λ a, dec_sql_args a kvs
  end.
Definition Unmarshal_SqlArgs (j : json) : res SqlArgs :=
  match j with
  | JNull => Ok {| sa_Query := ""; sa_Args := [] |}
  | JObj kvs => dec_sql_args {| sa_Query := ""; sa_Args := [] |} kvs
  | _ => Err type_error
  end.

Definition database_service : ServiceDescriptor :=
  {| sd_Name := "database";
     sd_Description := "SQLite3 database operations for logging and storage";
     sd_Methods := ["InsertLog"; "QueryLogs"; "Stats"; "Vacuum"; "Exec"; "Query"; "QueryRow"] |}.
Definition Metadata : MetadataResponse :=
  {| mr_metadata := {| pm_Namespace := "sqlite3"; pm_Version := "1.0.0";
       pm_Description := "SQLite3 database for logging and data storage";
       pm_Category := "database"; pm_ConfigPath := "/etc/jack/sqlite3.json";
       pm_DefaultConfig := Some {["enabled" := VBool true;
         "database_path" := VStr "/var/lib/jack/data.db"; "log_storage_enabled" := VBool true;
         "max_log_entries" := VInt 100000]};
       pm_Dependencies := []; pm_PathPrefix := "" |};
     mr_ProvidedServices := [database_service]; mr_RequiredServices := [];
     mr_CLICommands := [{| cc_Name := "sqlite3"; cc_Short := "Query database logs and statistics";
       cc_Long := "Query logs stored in SQLite database and view database statistics.";
       cc_Subcommands := ["logs"; "stats"; "vacuum"]; cc_Continuous := false;
       cc_PollInterval := 0 |}] |}.
Definition GetProvidedServices : list ServiceDescriptor := [database_service].

(** fmt.Sscanf(s, "%d", &n): white space, a sign and digits; on an error the
    variable keeps its value. *)
Fixpoint leading_digits (s : string) : string :=
  match s with
  | "" => ""
  | String c s => match digit_val c with Some _ => String c (leading_digits s) | None => "" end
  end.
Fixpoint skip_blanks (s : string) : string :=
  match s with
  | String c s' => if bool_decide (c = byte_of 32 ∨ c = byte_of 9 ∨ c = byte_of 13)
                   then skip_blanks s' else s
  | "" => ""
  end.
Definition Sscanf_d (s : string) (old : Z) : Z :=
  let s := skip_blanks s in
  let '(sign, s) := match s with
                    | String "-" s => ("-", s)
                    | String "+" s => ("", s)
                    | s => ("", s)
                    end in
  match atoi (sign +:+ leading_digits s) with
  | Ok n => n
  | _ => old
  end.
Fixpoint parse_logs_args (args : list string) (level component : string) (limit : Z)
    : string * string * Z :=
  match args with
  | "--level" :: v :: args => parse_logs_args args v component limit
  | "--component" :: v :: args => parse_logs_args args level v limit
  | "--limit" :: v :: args => parse_logs_args args level component (Sscanf_d v limit)
  | _ :: args => parse_logs_args args level component limit
  | [] => (level, component, limit)
  end.
Definition log_lines (e : LogEntry) : string :=
  "[" +:+ le_Timestamp e +:+ "] " +:+ to_upper (le_Level e) +:+ " - " +:+ le_Component e +:+ ": "
    +:+ le_Message e +:+ nl +:+
  (if bool_decide (le_Fields e = "") || bool_decide (le_Fields e = "null") then ""
   else "  Fields: " +:+ le_Fields e +:+ nl).
Definition not_open : string := "Database not initialized" +:+ nl.

Section rpc.
Context `{Sql} `{JsonText}.

Record SQLite3 := {
  sq_provider : option DatabaseProvider; sq_lastPath : string; sq_sql : sqldb;
}.
Definition on_sql {A} (m : M sqldb A) : M SQLite3 A := λ p,
  let '(r, s) := m (sq_sql p) in
  (r, {| sq_provider := sq_provider p; sq_lastPath := sq_lastPath p; sq_sql := s |}).
Definition set_provider (d : DatabaseProvider) : M SQLite3 () :=
  modify (λ p, {| sq_provider := Some d; sq_lastPath := dc_DatabasePath (dp_config d);
                  sq_sql := sq_sql p |}).

Definition open_database (config : DatabaseConfig) : M SQLite3 () :=
  wrapM "failed to create database provider: " (on_sql (NewDatabaseProvider config)) ≫= λ provider,
  set_provider provider.
Definition ApplyConfig (configJSON : json) : M SQLite3 () :=
  lift (Unmarshal_DatabaseConfig configJSON) ≫= λ config,
  gets sq_provider ≫= λ provider,
  gets sq_lastPath ≫= λ lastPath,
  match provider with
  | None => open_database config
  | Some provider =>
      if bool_decide (dc_DatabasePath config ≠ lastPath) then
        attempt (on_sql (Close provider)) ≫= λ _, open_database config
      else mret ()
  end.
Definition ValidateConfig (configJSON : json) : M SQLite3 () :=
  lift (Unmarshal_DatabaseConfig configJSON) ≫= λ config,
  if bool_decide (dc_DatabasePath config = "") then fail (ErrorText "database_path is required")
  else mret ().
Definition Flush : M SQLite3 () :=
  gets sq_provider ≫= λ provider,
  match provider with Some provider => on_sql (Close provider) | None => mret () end.
Definition Status : M SQLite3 json :=
  gets sq_provider ≫= λ provider,
  match provider with
  | None => mret (Marshal (VMap {["enabled" := VBool false;
                                  "message" := VStr "Database not initialized"]}))
  | Some provider =>
      wrapM "failed to get stats: " (on_sql (Stats provider)) ≫= λ stats,
      mret (Marshal (VMap (<["enabled" := VBool true]> stats)))
  end.

Definition executeStats (provider : DatabaseProvider) : M SQLite3 string :=
  wrapM "failed to get stats: " (on_sql (Stats provider)) ≫= λ stats,
  mret ("Database Statistics:" +:+ nl +:+
    "  Path: " +:+ as_str (cell stats "database_path") +:+ nl +:+
    "  Size: " +:+ itoa (as_int (cell stats "database_size_bytes")) +:+ " bytes" +:+ nl +:+
    "  Log entries: " +:+ itoa (as_int (cell stats "log_count")) +:+ nl).
Definition executeLogs (provider : DatabaseProvider) (args : list string) : M SQLite3 string :=
  let '(level, component, limit) := parse_logs_args args "" "" 50 in
  wrapM "failed to query logs: " (on_sql (QueryLogs provider level component limit)) ≫= λ entries,
  mret match entries with
       | [] => "No logs found matching criteria" +:+ nl
       | _ => "Found " +:+ itoa (Z.of_nat (length entries)) +:+ " log entries:" +:+ nl +:+ nl +:+
              join "" (log_lines <$> entries)
       end.
Definition executeVacuum (provider : DatabaseProvider) : M SQLite3 string :=
  wrapM "failed to get database stats: " (on_sql (Stats provider)) ≫= λ statsBefore,
  let sizeBefore := as_int (cell statsBefore "database_size_bytes") in
  wrapM "failed to vacuum database: " (on_sql (Vacuum provider)) ≫= λ _,
  wrapM "failed to get database stats after vacuum: " (on_sql (Stats provider)) ≫= λ statsAfter,
  let sizeAfter := as_int (cell statsAfter "database_size_bytes") in
  let spaceSaved := wrap64 (sizeBefore - sizeAfter) in
  mret ("Database vacuum completed successfully" +:+ nl +:+
    "  Size before: " +:+ itoa sizeBefore +:+ " bytes" +:+ nl +:+
    "  Size after:  " +:+ itoa sizeAfter +:+ " bytes" +:+ nl +:+
    (if 0 <? spaceSaved then "  Space saved: " +:+ itoa spaceSaved +:+ " bytes" +:+ nl
     else "  No space reclaimed (database was already compact)" +:+ nl)).
(** The three commands all say so when no database is open. *)
Definition with_database (run : DatabaseProvider → M SQLite3 string) : M SQLite3 string :=
  gets sq_provider ≫= λ provider,
  match provider with None => mret not_open | Some provider => run provider end.
Definition ExecuteCLICommand (command : string) (args : list string) : M SQLite3 string :=
  match fields command with
  | _ :: subcommand :: _ =>
      if bool_decide (subcommand = "stats") then with_database executeStats
      else if bool_decide (subcommand = "logs") then with_database (λ p, executeLogs p args)
      else if bool_decide (subcommand = "vacuum") then with_database executeVacuum
      else fail (ErrorText ("unknown subcommand: " +:+ subcommand))
  | _ => fail (ErrorText "invalid command format")
  end.

Definition uninitialized : error := ErrorText "database not initialized".
(** A missing member, or one of another type, is the empty string. *)
Definition OnLogEvent (logEventJSON : json) : M SQLite3 () :=
  gets sq_provider ≫= λ provider,
  match provider with
  | None => fail uninitialized
  | Some provider =>
      lift (wrap "failed to unmarshal log event: " (Unmarshal_map logEventJSON)) ≫= λ logEvent,
      let member k := cell (gm logEvent) k in
      on_sql (InsertLog provider (as_str (member "timestamp")) (as_str (member "level"))
        (as_str (member "component")) (as_str (member "message"))
        (json_text (Marshal (member "fields"))))
  end.

Definition success : json := Marshal (VMap {["success" := VBool true]}).
Definition decode {A} (r : res A) : M SQLite3 A := lift (wrap "failed to unmarshal arguments: " r).
Definition handleInsertLog (p : DatabaseProvider) (argsJSON : json) : M SQLite3 (option json) :=
  decode (dec_struct dec_base zero_struct argsJSON) ≫= λ args,
  on_sql (InsertLog p (ia_Timestamp args) (ia_Level args) (ia_Component args) (ia_Message args)
            (ia_Fields args)) ≫= λ _, mret (Some success).
Definition handleQueryLogs (p : DatabaseProvider) (argsJSON : json) : M SQLite3 (option json) :=
  decode (dec_struct dec_base zero_struct argsJSON) ≫= λ args,
  on_sql (QueryLogs p (qa_Level args) (qa_Component args) (qa_Limit args)) ≫= λ entries,
  mret (Some match entries with [] => JNull | _ => JArr (enc_LogEntry <$> entries) end).
Definition handleStats (p : DatabaseProvider) : M SQLite3 (option json) :=
  on_sql (Stats p) ≫= λ stats, mret (Some (Marshal (VMap stats))).
Definition handleVacuum (p : DatabaseProvider) : M SQLite3 (option json) :=
  on_sql (Vacuum p) ≫= λ _, mret (Some success).
Definition handleExec (p : DatabaseProvider) (argsJSON : json) : M SQLite3 (option json) :=
  decode (Unmarshal_SqlArgs argsJSON) ≫= λ args,
  on_sql (Exec p (sa_Query args) (sa_Args args)) ≫= λ rowsAffected,
  mret (Some (Marshal (VMap {["rows_affected" := VInt rowsAffected]}))).
(** A nil slice is null. *)
Definition enc_rows (rows : list (list value)) : value :=
  match rows with [] => VNil | _ => VArr (VArr <$> rows) end.
Definition handleQuery (p : DatabaseProvider) (argsJSON : json) : M SQLite3 (option json) :=
  decode (Unmarshal_SqlArgs argsJSON) ≫= λ args,
  on_sql (Query p (sa_Query args) (sa_Args args)) ≫= λ '(columns, rows),
  mret (Some (Marshal (VMap {["columns" := VStrs columns; "rows" := enc_rows rows]}))).
Definition handleQueryRow (p : DatabaseProvider) (argsJSON : json) : M SQLite3 (option json) :=
  decode (Unmarshal_SqlArgs argsJSON) ≫= λ args,
  on_sql (QueryRow p (sa_Query args) (sa_Args args)) ≫= λ '(columns, values),
  mret (Some (Marshal (VMap {["columns" := VStrs columns;
                              "values" := match values with Some l => VArr l | None => VNil end]}))).

Definition CallService (serviceName method : string) (argsJSON : json) : M SQLite3 (option json) :=
  if bool_decide (serviceName ≠ "database") then fail (ErrorText ("unknown service: " +:+ serviceName))
  else
    gets sq_provider ≫= λ provider,
    match provider with
    | None => fail uninitialized
    | Some p =>
        if bool_decide (method = "InsertLog") then handleInsertLog p argsJSON
        else if bool_decide (method = "QueryLogs") then handleQueryLogs p argsJSON
        else if bool_decide (method = "Stats") then handleStats p
        else if bool_decide (method = "Vacuum") then handleVacuum p
        else if bool_decide (method = "Exec") then handleExec p argsJSON
        else if bool_decide (method = "Query") then handleQuery p argsJSON
        else if bool_decide (method = "QueryRow") then handleQueryRow p argsJSON
        else fail (ErrorText ("unknown method: " +:+ method))
    end.
End rpc.

(** ** The statements, as SQLite reads them *)

Definition log_columns : list (string * coltype) :=
  [("id", TInteger); ("timestamp", TText); ("level", TText); ("component", TText);
   ("message", TText); ("fields", TText)].
Definition metadata_columns : list (string * coltype) :=
  [("plugin_name", TText); ("version", TText); ("last_update", TText)].
Lemma parse_create_logs : parse_sql create_logs = Some (SCreateTable "logs" log_columns).
Proof. reflexivity. Qed.
Lemma parse_create_metadata :
  parse_sql create_plugin_metadata = Some (SCreateTable "plugin_metadata" metadata_columns).
Proof. reflexivity. Qed.
Definition log_cells : list string := ["timestamp"; "level"; "component"; "message"; "fields"].
Lemma parse_insert : parse_sql insertSQL = Some (SInsert "logs" log_cells).
Proof. reflexivity. Qed.
Definition log_query (level component : string) (limit : Z) : select :=
  {| se_cols := ["id"; "timestamp"; "level"; "component"; "message"; "fields"];
     se_table := "logs";
     se_where := CTrue :: (if bool_decide (level = "") then [] else [CEq "level"]) ++
                 (if bool_decide (component = "") then [] else [CEq "component"]);
     se_order := Some "timestamp";
     se_limit := if 0 <? limit then Some LArg else None |}.
Lemma parse_query level component limit :
  parse_sql (query_text level component limit) = Some (SSelect (log_query level component limit)).
Proof.
  unfold query_text, log_query.
  destruct (bool_decide (level = "")), (bool_decide (component = "")), (0 <? limit); reflexivity.
Qed.

(** The tables after the schema was initialised. *)
Definition create (t : string) (cols : list (string * coltype)) (ts : gmap string table)
    : gmap string table :=
  match ts !! t with Some _ => ts | None => <[t := {| tb_cols := cols; tb_rows := [] |}]> ts end.
Definition with_schema (ts : gmap string table) : gmap string table :=
  create "plugin_metadata" metadata_columns (create "logs" log_columns ts).
Lemma create_keeps t cols ts t' tb : ts !! t' = Some tb → create t cols ts !! t' = Some tb.
Proof.
  unfold create. intros Ht'. destruct (ts !! t) eqn:Ht; [done|].
  rewrite lookup_insert_ne; [done|]. by intros ->; rewrite Ht in Ht'.
Qed.
Lemma create_has t cols ts : is_Some (create t cols ts !! t).
Proof. unfold create. destruct (ts !! t) eqn:Ht; [by rewrite Ht|]. by rewrite lookup_insert_eq. Qed.
Lemma with_schema_keeps ts t tb : ts !! t = Some tb → with_schema ts !! t = Some tb.
Proof. intros Ht. by apply create_keeps, create_keeps. Qed.
Lemma with_schema_logs ts : is_Some (with_schema ts !! "logs").
Proof. destruct (create_has "logs" log_columns ts) as [tb Ht]. exists tb. by apply create_keeps. Qed.

(** ** Log entries in the table *)

Definition entry_of (r : row) : LogEntry :=
  {| le_ID := as_int (cell r "id"); le_Timestamp := as_str (cell r "timestamp");
     le_Level := as_str (cell r "level"); le_Component := as_str (cell r "component");
     le_Message := as_str (cell r "message"); le_Fields := as_str (cell r "fields") |}.
Definition entries_of (t : table) : list LogEntry := entry_of <$> tb_rows t.
(** A row whose id is a number and whose other cells are texts. *)
Definition log_row (r : row) : Prop :=
  (∃ n, r !! "id" = Some (VInt n)) ∧ Forall (λ c, ∃ s, r !! c = Some (VStr s)) log_cells.
Definition log_table (t : table) : Prop := tb_cols t = log_columns ∧ Forall log_row (tb_rows t).

Lemma log_row_cells r : log_row r →
  ∃ n ts lv co me fi, r !! "id" = Some (VInt n) ∧ r !! "timestamp" = Some (VStr ts) ∧
    r !! "level" = Some (VStr lv) ∧ r !! "component" = Some (VStr co) ∧
    r !! "message" = Some (VStr me) ∧ r !! "fields" = Some (VStr fi).
Proof.
  intros [[n Hn] Hf]. unfold log_cells in Hf. rewrite !Forall_cons in Hf.
  destruct Hf as ([ts ?] & [lv ?] & [co ?] & [me ?] & [fi ?] & _).
  by exists n, ts, lv, co, me, fi.
Qed.
Lemma scan_log_row r cols : log_row r →
  cols = ["id"; "timestamp"; "level"; "component"; "message"; "fields"] →
  scan_entry (Ok (cell r <$> cols)) = Ok (entry_of r).
Proof.
  intros (n & ts & lv & co & me & fi & H1 & H2 & H3 & H4 & H5 & H6)%log_row_cells ->.
  unfold entry_of, cell. cbn. by rewrite H1, H2, H3, H4, H5, H6.
Qed.
Lemma scan_log_rows rs cols : Forall log_row rs →
  cols = ["id"; "timestamp"; "level"; "component"; "message"; "fields"] →
  scan_rows scan_entry (Ok <$> ((λ r, cell r <$> cols) <$> rs)) = Ok (entry_of <$> rs).
Proof.
  intros Hrs Hc. induction Hrs as [|r rs Hr _ IH]; [done|]. rewrite !fmap_cons. cbn [scan_rows].
  rewrite scan_log_row by done. cbn. by rewrite IH.
Qed.
Lemma scan_rows_no_panic {A} (scan : res (list value) → res A) l :
  (∀ r, no_panic r → no_panic (scan r)) → Forall no_panic l → no_panic (scan_rows scan l).
Proof. intros Hs. induction 1; cbn; auto with no_panic. Qed.
Lemma scan_entry_no_panic r : no_panic r → no_panic (scan_entry r).
Proof.
  intros Hr. apply no_panic_bind; [done|]. intros row.
  assert (∀ v, no_panic (scan_string v)) as Hs by by intros [].
  destruct row as [|id [|a [|b [|c [|d [|e [|? ?]]]]]]]; try done.
  apply no_panic_bind; [by destruct id|]. intros n.
  repeat (apply no_panic_bind; [apply Hs|intros ?]). done.
Qed.

Section lemmas.
Context `{SqlLaws}.
Notation tables := sv_tables.
Notation conn := sv_conn.

Definition same_tables (s s' : sqldb) : Prop := ∀ p, tables p s' = tables p s.
(** Nothing but the tables of one file changed, and those by [f]. *)
Definition tables_at (path : string) (f : gmap string table → gmap string table) (s s' : sqldb)
    : Prop := ∀ p, tables p s' = if bool_decide (p = path) then f (tables p s) else tables p s.

(** One statement on an open connection. *)
Lemma exec_spec db path text st args s :
  conn s !! db = Some path → parse_sql text = Some st →
  wp (sql_Exec db text args) s
    (λ n s', no_panic n ∧ conn s' = conn s ∧ (∀ p, p ≠ path → tables p s' = tables p s) ∧
       exec_effect st args (tables path s) (tables path s'))
    (λ s', conn s' = conn s ∧ same_tables s s').
Proof.
  intros Hc Hst. unfold wp. destruct (sql_Exec db text args s) as [r s'] eqn:E.
  apply sql_Exec_effect in E as (Hr & Hconn & Ho & He). rewrite Hc in He.
  destruct r as [n|e|w]; [|done|done]. destruct He as [Hn He]. split_and!; [done|done| |by apply He].
  intros p Hp. apply Ho. rewrite Hc. congruence.
Qed.
Lemma exec_keep db path text s :
  conn s !! db = Some path → parse_sql text = Some SKeep →
  wp (sql_Exec db text []) s
    (λ n s', no_panic n ∧ conn s' = conn s ∧ same_tables s s')
    (λ s', conn s' = conn s ∧ same_tables s s').
Proof.
  intros Hc Hst. eapply wp_mono; [by apply exec_spec| |done]. cbn.
  intros n s' (? & ? & Ho & He). split_and!; [done..|]. intros p.
  destruct (decide (p = path)) as [->|]; auto.
Qed.
(** The same when the connection may be closed. *)
Lemma exec_any db text s : parse_sql text = Some SKeep →
  wp (sql_Exec db text []) s
    (λ n s', no_panic n ∧ conn s' = conn s ∧ same_tables s s')
    (λ s', conn s' = conn s ∧ same_tables s s').
Proof.
  intros Hst. destruct (conn s !! db) as [path|] eqn:Hc; [by eapply exec_keep|].
  unfold wp. destruct (sql_Exec db text [] s) as [r s'] eqn:E.
  apply sql_Exec_effect in E as (Hr & Hconn & Ho & He). rewrite Hc in He.
  by destruct r.
Qed.
Lemma close_spec db s (Q : () → sqldb → Prop) (E : sqldb → Prop) :
  (∀ s', conn s' = delete db (conn s) → same_tables s s' → Q () s' ∧ E s') →
  wp (sql_Close db) s Q E.
Proof.
  intros Hk. unfold wp. destruct (sql_Close db s) as [r s'] eqn:Hr.
  apply sql_Close_closes in Hr as (Hn & Hc & Ht). destruct (Hk s' Hc Ht).
  by destruct r as [[]| |].
Qed.
Lemma same_tables_trans s1 s2 s3 : same_tables s1 s2 → same_tables s2 s3 → same_tables s1 s3.
Proof. intros H1 H2 p. by rewrite H2. Qed.
Lemma same_tables_refl s : same_tables s s.
Proof. done. Qed.
Hint Resolve same_tables_trans same_tables_refl : core.

Lemma pragma_spec db path text what s :
  conn s !! db = Some path → parse_sql text = Some SKeep →
  wp (pragma db text what) s
    (λ _ s', conn s' = conn s ∧ same_tables s s')
    (λ s', conn s' = delete db (conn s) ∧ same_tables s s').
Proof.
  intros Hc Hst. unfold pragma. apply wp_bind, wp_attempt.
  eapply wp_mono; [by eapply exec_keep| |]; cbn.
  - by intros n s' (_ & Hc' & Ht).
  - intros s' [Hc' Ht] e. apply wp_bind, wp_attempt, close_spec. intros s'' Hd Ht'.
    rewrite Hc' in Hd. split; [|intros e']; (split; [done|by eauto]).
Qed.
Lemma connect_spec config s :
  wp (connect config) s
    (λ db s', conn s !! db = None ∧ conn s' = <[db := dc_DatabasePath config]> (conn s) ∧
       same_tables s s')
    (λ s', conn s' = conn s ∧ same_tables s s').
Proof.
  unfold connect. apply wp_bind, wp_wrapM.
  unfold wp at 1. destruct (sql_MkdirAll _ s) as [r s1] eqn:E1.
  apply sql_MkdirAll_keeps in E1 as (Hr1 & Hc1 & Ht1). destruct r as [[]| |]; [|done|done].
  apply wp_bind, wp_wrapM.
  unfold wp at 1. destruct (sql_Open _ s1) as [r s2] eqn:E2.
  apply sql_Open_opens in E2 as (Hr2 & Ht2 & Hc2).
  destruct r as [db|e|]; [|split; [congruence|eauto]|done]. destruct Hc2 as [Hf2 Hc2].
  rewrite Hc1 in Hf2, Hc2. apply wp_bind, wp_attempt.
  unfold wp at 1. destruct (sql_Ping db s2) as [r s3] eqn:E3.
  apply sql_Ping_keeps in E3 as (Hr3 & Hc3 & Ht3). rewrite Hc2 in Hc3.
  assert (same_tables s s3) as Ht by eauto. clear Ht1 Ht2 Ht3.
  assert (delete db (<[db:=dc_DatabasePath config]> (conn s)) = conn s) as Hdel
    by by rewrite delete_insert_id.
  destruct r as [[]|e|]; [| |done].
  - apply wp_bind. eapply wp_mono; [eapply pragma_spec| |]; cbn.
    + rewrite Hc3. apply lookup_insert_eq.
    + reflexivity.
    + intros _ s4 [Hc4 Ht4]. rewrite Hc3 in Hc4. apply wp_bind, wp_attempt.
      assert (∀ s5, conn s5 = conn s4 → same_tables s4 s5 →
        wp (pragma db "PRAGMA busy_timeout=2000" "failed to set busy timeout: " ≫= λ _, mret db) s5
          (λ db s', conn s !! db = None ∧ conn s' = <[db := dc_DatabasePath config]> (conn s) ∧
             same_tables s s') (λ s', conn s' = conn s ∧ same_tables s s')) as Hlast.
      { intros s5 Hc5 Ht5. rewrite Hc4 in Hc5. apply wp_bind.
        eapply wp_mono; [eapply pragma_spec| |]; cbn.
        - rewrite Hc5. apply lookup_insert_eq.
        - reflexivity.
        - intros _ s6 [Hc6 Ht6]. split_and!; [done|congruence|eauto].
        - intros s6 [Hc6 Ht6]. split; [by rewrite Hc6, Hc5|eauto]. }
      eapply wp_mono; [by apply exec_any| |]; cbn.
      * intros n s5 (_ & Hc5 & Ht5). by apply Hlast.
      * intros s5 [Hc5 Ht5] e. by apply Hlast.
    + intros s4 [Hc4 Ht4]. split; [by rewrite Hc4, Hc3|eauto].
  - intros e'. apply wp_bind, wp_attempt, close_spec. intros s4 Hc4 Ht4.
    rewrite Hc3, Hdel in Hc4. split; [|intros e2]; (split; [done|by eauto]).
Qed.

(** The tables of one file grow; nothing else changes. *)
Definition grown (path : string) (s s' : sqldb) : Prop :=
  (∀ p, p ≠ path → tables p s' = tables p s) ∧
  ∀ t tb, tables path s !! t = Some tb → tables path s' !! t = Some tb.
Lemma grown_same path s s' : same_tables s s' → grown path s s'.
Proof. intros Hs. split; [auto|]. intros t tb. by rewrite Hs. Qed.
Lemma grown_trans path s1 s2 s3 : grown path s1 s2 → grown path s2 s3 → grown path s1 s3.
Proof. intros [H1 H1'] [H2 H2']. split; [|eauto]. intros p Hp. by rewrite H2, H1. Qed.

(** Running statements that create tables or indexes. *)
Definition schema_effect (ts : gmap string table) (stmt : string) : gmap string table :=
  match parse_sql stmt with
  | Some (SCreateTable t cols) => create t cols ts
  | _ => ts
  end.
Definition is_schema (stmt : string) : Prop :=
  match parse_sql stmt with Some (SCreateTable _ _) | Some SKeep => True | _ => False end.
Lemma schema_spec p path stmts s :
  conn s !! dp_db p = Some path → Forall is_schema stmts →
  wp (for_each stmts (λ stmt,
        wrapM "failed to create schema: " (sql_Exec (dp_db p) stmt []) ≫= λ _, mret ())) s
    (λ _ s', conn s' = conn s ∧ grown path s s' ∧
       tables path s' = foldl schema_effect (tables path s) stmts)
    (λ s', conn s' = conn s ∧ grown path s s').
Proof.
  intros Hc Hs. revert s Hc. induction Hs as [|stmt stmts Hst _ IH]; intros s Hc; cbn [for_each].
  { apply wp_ret. split_and!; [done| |done]. by apply grown_same. }
  assert (∃ st, parse_sql stmt = Some st ∧
    (st = SKeep ∨ ∃ t cols, st = SCreateTable t cols)) as (st & Hp & Hk).
  { unfold is_schema in Hst. destruct (parse_sql stmt) as [[]|]; eauto 10; done. }
  apply wp_bind, wp_bind, wp_wrapM. eapply wp_mono; [by eapply exec_spec| |]; cbn beta.
  - intros n s1 (Hn & Hc1 & Ho & He). apply wp_ret.
    assert (tables path s1 = schema_effect (tables path s) stmt) as Ht1.
    { unfold schema_effect. rewrite Hp. by destruct Hk as [->|(t & cols & ->)]. }
    assert (grown path s s1) as Hg.
    { split; [done|]. intros t tb Htb. rewrite Ht1. unfold schema_effect. rewrite Hp.
      destruct Hk as [->|(t' & cols & ->)]; [done|]. by apply create_keeps. }
    rewrite <-Hc1 in Hc. eapply wp_mono; [by apply IH| |]; cbn beta.
    + intros _ s2 (Hc2 & Hg2 & Ht2). split_and!; [congruence|by eapply grown_trans|].
      by rewrite Ht2, Ht1.
    + intros s2 [Hc2 Hg2]. split; [congruence|by eapply grown_trans].
  - intros s1 [Hc1 Ht1]. split; [done|by apply grown_same].
Qed.
Lemma schema_statements_ok : Forall is_schema schema_statements.
Proof. repeat (constructor; [exact I|]). constructor. Qed.
Lemma schema_statements_effect ts : foldl schema_effect ts schema_statements = with_schema ts.
Proof. reflexivity. Qed.

Lemma wp_close p s (Q : () → sqldb → Prop) (E : sqldb → Prop) :
  (∀ s', conn s' = delete (dp_db p) (conn s) → same_tables s s' → Q () s' ∧ E s') →
  wp (Close p) s Q E.
Proof.
  intros Hk. unfold Close. apply wp_bind, wp_attempt. eapply wp_mono; [by apply exec_any| |]; cbn beta.
  - intros n s1 (_ & Hc1 & Ht1). apply close_spec. intros s2 Hc2 Ht2.
    apply Hk; [congruence|eauto].
  - intros s1 [Hc1 Ht1] e. apply close_spec. intros s2 Hc2 Ht2. apply Hk; [congruence|eauto].
Qed.

(** A new provider has a connection of its own and the schema in its file. *)
Lemma NewDatabaseProvider_spec config s :
  let path := dc_DatabasePath config in
  wp (NewDatabaseProvider config) s
    (λ d s', dp_config d = config ∧ conn s !! dp_db d = None ∧
       conn s' = <[dp_db d := path]> (conn s) ∧ grown path s s' ∧
       tables path s' = with_schema (tables path s))
    (λ s', conn s' = conn s ∧ grown path s s').
Proof.
  intros path. unfold NewDatabaseProvider. apply wp_bind.
  eapply wp_mono; [by apply connect_spec| |]; cbn beta.
  - intros db s1 (Hf & Hc1 & Ht1). set (d := {| dp_config := config; dp_db := db |}).
    cbv zeta. fold d. apply wp_bind, wp_attempt.
    assert (conn s1 !! dp_db d = Some path) as Hd by by rewrite Hc1, lookup_insert_eq.
    eapply wp_mono; [by apply (schema_spec d path), schema_statements_ok| |]; cbn beta.
    + intros _ s2 (Hc2 & Hg2 & Hts2). apply wp_ret. split_and!; [done|done| | |].
      * by rewrite Hc2, Hc1.
      * eapply grown_trans; [by apply grown_same|done].
      * by rewrite Hts2, schema_statements_effect, Ht1.
    + intros s2 [Hc2 Hg2] e. apply wp_bind, wp_attempt, wp_close. intros s3 Hc3 Ht3.
      assert (conn s3 = conn s ∧ grown path s s3) as Hres.
      { split; [by rewrite Hc3, Hc2, Hc1; cbn; rewrite delete_insert_id|].
        eapply grown_trans; [by apply grown_same|]. eapply grown_trans; [done|].
        by apply grown_same. }
      split; [|intros e2]; by apply wp_fail.
  - intros s1 [Hc1 Ht1]. split; [done|by apply grown_same].
Qed.

(** Storing an entry. *)
Lemma storable_logs t ts lv co me fi : log_table t →
  storable t log_cells [VStr ts; VStr lv; VStr co; VStr me; VStr fi].
Proof.
  intros [Hcols Hrows]. split_and!.
  - refine (bool_decide_unpack _ _). vm_compute. exact I.
  - refine (bool_decide_unpack _ _). vm_compute. exact I.
  - unfold col_type. by rewrite Hcols.
  - intros r Hr. rewrite Forall_forall in Hrows. by destruct (Hrows r Hr).
  - unfold log_cells, col_type. rewrite Hcols. repeat constructor; by eexists _, _.
Qed.
Lemma new_log_row t r ts lv co me fi :
  tb_cols t = log_columns →
  new_row t log_cells [VStr ts; VStr lv; VStr co; VStr me; VStr fi] r →
  log_row r ∧ le_ID (entry_of r) = as_int (cell r "id") ∧
  entry_of r = {| le_ID := le_ID (entry_of r); le_Timestamp := ts; le_Level := lv;
                  le_Component := co; le_Message := me; le_Fields := fi |}.
Proof.
  intros Hcols [(id & Hid & _) Hf]. unfold log_cells in Hf.
  rewrite !Forall2_cons in Hf. unfold col_type in Hf. rewrite Hcols in Hf. cbn in Hf.
  destruct Hf as ((? & ? & [= <-] & [= <-] & H1) & (? & ? & [= <-] & [= <-] & H2) &
    (? & ? & [= <-] & [= <-] & H3) & (? & ? & [= <-] & [= <-] & H4) &
    (? & ? & [= <-] & [= <-] & H5) & _).
  split_and!; [|done|].
  - split; [by exists id|]. unfold log_cells. rewrite !Forall_cons, Forall_nil.
    split_and!; first [done|by eexists].
  - unfold entry_of, cell. cbn. by rewrite H1, H2, H3, H4, H5.
Qed.

(** ** Queries *)

Definition log_matches (level component : string) (e : LogEntry) : bool :=
  (bool_decide (level = "") || bool_decide (le_Level e = level)) &&
  (bool_decide (component = "") || bool_decide (le_Component e = component)).
Definition newer_first (a b : LogEntry) : Prop :=
  String.leb (le_Timestamp b) (le_Timestamp a) = true.
(** The answer to a query: of the entries that match, in an order of descending
    timestamps, the first [limit] if that is positive. *)
Definition newest (level component : string) (limit : Z) (all entries : list LogEntry) : Prop :=
  ∃ sorted, sorted ≡ₚ List.filter (log_matches level component) all ∧
    StronglySorted newer_first sorted ∧
    entries = if 0 <? limit then take (Z.to_nat limit) sorted else sorted.

Lemma holds_matches level component limit r : log_row r →
  holds r (se_where (log_query level component limit)) (query_args level component limit)
  = log_matches level component (entry_of r).
Proof.
  intros (n & ts & lv & co & me & fi & H1 & H2 & H3 & H4 & H5 & H6)%log_row_cells.
  unfold log_query, query_args, log_matches, entry_of, cell. cbn [se_where le_Level le_Component].
  rewrite H3, H4. cbn [default as_str].
  assert (∀ a b : string, bool_decide (VStr a = VStr b) = bool_decide (a = b)) as Hs.
  { intros a b. apply bool_decide_ext. split; [by intros [= ->]|by intros ->]. }
  destruct (bool_decide (level = "")), (bool_decide (component = "")); cbn -[bool_decide];
    unfold cell; rewrite ?H3, ?H4; cbn -[bool_decide];
    rewrite ?Hs, ?(bool_decide_eq_false_2 (VStr _ = VNil)) by done; cbn -[bool_decide];
    by rewrite ?andb_true_r.
Qed.
Lemma limit_of_query level component limit :
  limit_of (log_query level component limit) (query_args level component limit)
  = if 0 <? limit then Some limit else None.
Proof.
  unfold limit_of, log_query, query_args.
  by destruct (bool_decide (level = "")), (bool_decide (component = "")), (0 <? limit).
Qed.
Lemma plain_query level component limit t : tb_cols t = log_columns →
  plain_args (log_query level component limit) (query_args level component limit) t.
Proof.
  intros Hc. unfold plain_args, log_query, query_args, col_type. rewrite Hc.
  destruct (bool_decide (level = "")), (bool_decide (component = "")), (0 <? limit);
    repeat constructor; by eexists.
Qed.
Lemma filter_entries level component limit t : Forall log_row (tb_rows t) →
  entry_of <$> matching (log_query level component limit) (query_args level component limit) t
  = List.filter (log_matches level component) (entries_of t).
Proof.
  unfold matching, entries_of. induction 1 as [|r rs Hr _ IH]; [done|].
  rewrite fmap_cons. cbn [List.filter]. rewrite holds_matches by done.
  destruct (log_matches level component (entry_of r)); by rewrite ?fmap_cons, IH.
Qed.
Lemma matching_rows q args t : Forall log_row (tb_rows t) → Forall log_row (matching q args t).
Proof.
  unfold matching. rewrite !Forall_forall. intros Hr r Hin. apply Hr.
  by apply list_elem_of_In, filter_In, proj1, list_elem_of_In in Hin.
Qed.
Lemma sorted_entries_newest rs : Forall log_row rs → StronglySorted (descending "timestamp") rs →
  StronglySorted newer_first (entry_of <$> rs).
Proof.
  intros Hr Hs. induction Hs as [|r rs Hs IH Hf]; [constructor|].
  apply Forall_cons in Hr as [Hr Hrs]. rewrite fmap_cons. constructor; [auto|].
  apply Forall_fmap. rewrite Forall_forall in *. intros r' Hin. specialize (Hf r' Hin).
  specialize (Hrs r' Hin). clear -Hf Hr Hrs.
  apply log_row_cells in Hr as (n & ts & lv & co & me & fi & _ & H2 & _).
  apply log_row_cells in Hrs as (n' & ts' & lv' & co' & me' & fi' & _ & H2' & _).
  unfold descending, cell in Hf. rewrite H2, H2' in Hf.
  unfold compose, newer_first, entry_of, cell. cbn. rewrite H2, H2'. exact Hf.
Qed.

Lemma QueryLogs_spec p path t level component limit s :
  conn s !! dp_db p = Some path → tables path s !! "logs" = Some t → log_table t →
  wp (QueryLogs p level component limit) s
    (λ entries s', conn s' = conn s ∧ same_tables s s' ∧
       newest level component limit (entries_of t) entries)
    (λ s', conn s' = conn s ∧ same_tables s s').
Proof.
  intros Hc Ht [Hcols Hrows]. unfold QueryLogs. apply wp_bind, wp_wrapM.
  unfold wp at 1. destruct (sql_Query _ _ _ s) as [r s'] eqn:E.
  apply sql_Query_answers in E as (Hr & Hconn & Hts & Ha). rewrite Hc in Ha.
  destruct r as [rows|e|]; [|done|done]. destruct Ha as (Hp & _ & Ha).
  apply wp_bind, wp_lift.
  pose proof (scan_rows_no_panic scan_entry _ scan_entry_no_panic Hp) as Hsc.
  destruct (scan_rows scan_entry (rs_rows rows)) as [entries|e|w] eqn:Hs; [|done|done].
  cbn [wrap]. apply wp_bind, wp_lift. unfold rows_error.
  destruct (rs_err rows) as [err|] eqn:He; [done|]. apply wp_ret. split_and!; [done..|].
  destruct (Ha _ _ (parse_query level component limit) Ht
    (plain_query level component limit t Hcols)) as (_ & result & k & Hsel & Hres & Hall).
  rewrite (Hall eq_refl) in Hres. clear Hall.
  unfold selects in Hsel. rewrite bool_decide_eq_false_2 in Hsel by done.
  destruct Hsel as (sorted & Hperm & Hord & ->). rewrite limit_of_query in Hres.
  assert (Forall log_row sorted) as Hsr.
  { rewrite Hperm. by apply matching_rows. }
  exists (entry_of <$> sorted). split_and!.
  - by rewrite <-(filter_entries level component limit), Hperm.
  - by apply sorted_entries_newest.
  - rewrite Hres in Hs. unfold take_limit in Hs. destruct (Z.ltb_spec 0 limit).
    + destruct (Z.ltb_spec limit 0); [lia|]. rewrite <-fmap_take in Hs.
      rewrite scan_log_rows in Hs by (done || by apply Forall_take).
      injection Hs as <-. by rewrite fmap_take.
    + rewrite scan_log_rows in Hs by done. by injection Hs as <-.
Qed.

Lemma InsertLog_spec p path t ts lv co me fi s :
  dc_LogStorageEnabled (dp_config p) = true →
  conn s !! dp_db p = Some path → tables path s !! "logs" = Some t → log_table t →
  wp (InsertLog p ts lv co me fi) s
    (λ _ s', conn s' = conn s ∧ ∃ t' id, tables path s' !! "logs" = Some t' ∧ log_table t' ∧
       entries_of t' = entries_of t ++
         [{| le_ID := id; le_Timestamp := ts; le_Level := lv; le_Component := co;
             le_Message := me; le_Fields := fi |}] ∧
       Forall (λ e, le_ID e < id) (entries_of t))
    (λ s', conn s' = conn s ∧ same_tables s s').
Proof.
  intros Hen Hc Ht Hlt. unfold InsertLog. rewrite Hen. cbn [negb]. apply wp_bind, wp_wrapM.
  eapply wp_mono; [eapply exec_spec; [done|apply parse_insert]| |done]; cbn beta.
  intros n s' (_ & Hconn & _ & He). apply wp_ret. split; [done|].
  destruct (He t Ht (storable_logs t ts lv co me fi Hlt)) as (r & Hnew & ->).
  destruct Hlt as [Hcols Hrows].
  destruct (new_log_row t r ts lv co me fi Hcols Hnew) as (Hr & Hid & Hentry).
  exists {| tb_cols := tb_cols t; tb_rows := tb_rows t ++ [r] |}, (le_ID (entry_of r)).
  split_and!; [apply lookup_insert_eq| | |].
  - split; [done|]. apply Forall_app. by rewrite Forall_singleton.
  - unfold entries_of. cbn [tb_rows]. by rewrite fmap_app, <-Hentry.
  - destruct Hnew as [(id & Hidr & Hlt) _]. unfold entries_of. apply Forall_fmap.
    rewrite Forall_forall in *. intros r' Hin. destruct (Hlt r' Hin) as (id' & Hr' & Hlt').
    unfold entry_of, cell. cbn. by rewrite Hr', Hidr.
Qed.
End lemmas.

(** ** No panic *)
Section safety.
Context `{SqlLaws} `{JsonText}.
Lemma safe_exec c text args : safe (sql_Exec c text args).
Proof.
  intros s. destruct (sql_Exec c text args s) as [r s'] eqn:E. by apply sql_Exec_effect in E as [? _].
Qed.
Lemma safe_query c text args : safe (sql_Query c text args).
Proof.
  intros s. destruct (sql_Query c text args s) as [r s'] eqn:E.
  by apply sql_Query_answers in E as [? _].
Qed.
Lemma safe_close c : safe (sql_Close c).
Proof. intros s. destruct (sql_Close c s) as [r s'] eqn:E. by apply sql_Close_closes in E as [? _]. Qed.
Lemma safe_stat path : safe (sql_Stat path).
Proof. intros s. destruct (sql_Stat path s) as [r s'] eqn:E. by apply sql_Stat_keeps in E as [? _]. Qed.
Hint Resolve safe_exec safe_query safe_close safe_stat : safe.
Lemma safe_wp {S A} (m : M S A) : (∀ s, wp m s (λ _ _, True) (λ _, True)) → safe m.
Proof. intros Hm s. specialize (Hm s). unfold wp in Hm. by destruct (m s) as [[] ?]. Qed.
Lemma safe_on_sql {A} (m : M sqldb A) : safe m → safe (on_sql m).
Proof. intros Hm p. specialize (Hm (sq_sql p)). unfold on_sql. by destruct (m _) as [[] ?]. Qed.
Hint Resolve safe_on_sql : safe.

(** A query whose rows are used by a computation that does not panic. *)
Lemma safe_rows {A} prefix c text args (k : Rows → M sqldb A) :
  (∀ rows, Forall no_panic (rs_rows rows) → no_panic (rs_columns rows) → safe (k rows)) →
  safe (wrapM prefix (sql_Query c text args) ≫= k).
Proof.
  intros Hk s. unfold mbind, M_bind, wrapM.
  destruct (sql_Query c text args s) as [r s'] eqn:E.
  apply sql_Query_answers in E as (Hr & _ & _ & Ha).
  destruct r as [rows|e|]; [|done|done]. destruct (sv_conn s !! c); [|done].
  destruct Ha as (Hp & Hc & _). by apply Hk.
Qed.
Lemma no_panic_rows_error prefix rows : no_panic (rows_error prefix rows).
Proof. unfold rows_error. by destruct (rs_err rows). Qed.
Lemma no_panic_scan_count rows : no_panic (scan_count rows).
Proof. unfold scan_count. by repeat case_match. Qed.
Hint Resolve no_panic_rows_error no_panic_scan_count : no_panic.

Lemma safe_Stats d : safe (Stats d).
Proof. unfold Stats. auto 10 with safe no_panic. Qed.
Lemma safe_InsertLog d ts lv co me fi : safe (InsertLog d ts lv co me fi).
Proof. unfold InsertLog. destruct (negb _); auto with safe. Qed.
Lemma safe_QueryLogs d level component limit : safe (QueryLogs d level component limit).
Proof.
  apply safe_rows. intros rows Hr _. apply safe_bind.
  - apply safe_lift, no_panic_wrap, scan_rows_no_panic; [apply scan_entry_no_panic|done].
  - intros entries. auto with safe no_panic.
Qed.
Lemma safe_Vacuum d : safe (Vacuum d).
Proof. unfold Vacuum. auto with safe. Qed.
Lemma safe_Exec d q args : safe (Exec d q args).
Proof.
  intros s. unfold Exec, mbind, M_bind, wrapM, lift.
  destruct (sql_Exec (dp_db d) q args s) as [r s'] eqn:E.
  apply sql_Exec_effect in E as (Hr & _ & _ & He). destruct r as [n|e|]; [|done|done].
  destruct (sv_conn s !! dp_db d); [|done]. destruct He as [Hn _]. by apply no_panic_wrap.
Qed.
Lemma safe_Query d q args : safe (Query d q args).
Proof.
  apply safe_rows. intros rows Hr Hc. apply safe_bind; [by apply safe_lift, no_panic_wrap|].
  intros columns. apply safe_bind.
  - apply safe_lift, no_panic_wrap, scan_rows_no_panic; [by intros ?|done].
  - intros results. auto with safe no_panic.
Qed.
Lemma safe_QueryRow d q args : safe (QueryRow d q args).
Proof.
  apply safe_rows. intros rows Hr Hc. apply safe_bind; [by apply safe_lift, no_panic_wrap|].
  intros columns. destruct Hr as [|r l Hr _]; auto with safe.
  apply safe_bind; [by apply safe_lift, no_panic_wrap|]. auto with safe.
Qed.
Lemma safe_NewDatabaseProvider config : safe (NewDatabaseProvider config).
Proof. apply safe_wp. intros s. by eapply wp_mono; [apply NewDatabaseProvider_spec|..]. Qed.
Lemma safe_db_Close d : safe (Close d).
Proof. apply safe_wp. intros s. by apply wp_close. Qed.
Lemma safe_open_database config : safe (open_database config).
Proof.
  apply safe_bind; [|intros d; unfold set_provider; auto with safe].
  auto using safe_NewDatabaseProvider with safe.
Qed.
End safety.

(** ** Properties *)

Section rpc_lemmas.
Context `{SqlLaws}.
Lemma wp_on_sql {A} (m : M sqldb A) p (Q : A → SQLite3 → Prop) (E : SQLite3 → Prop) :
  wp m (sq_sql p)
    (λ a s', Q a {| sq_provider := sq_provider p; sq_lastPath := sq_lastPath p; sq_sql := s' |})
    (λ s', E {| sq_provider := sq_provider p; sq_lastPath := sq_lastPath p; sq_sql := s' |}) →
  wp (on_sql m) p Q E.
Proof. unfold wp, on_sql. by destruct (m (sq_sql p)) as [[] ?]. Qed.

Lemma open_database_spec config p :
  let path := dc_DatabasePath config in
  wp (open_database config) p
    (λ _ p', ∃ d, sq_provider p' = Some d ∧ dp_config d = config ∧ sq_lastPath p' = path ∧
       sv_conn (sq_sql p') = <[dp_db d := path]> (sv_conn (sq_sql p)) ∧
       grown path (sq_sql p) (sq_sql p') ∧
       sv_tables path (sq_sql p') = with_schema (sv_tables path (sq_sql p)))
    (λ p', sq_provider p' = sq_provider p ∧ sq_lastPath p' = sq_lastPath p ∧
       sv_conn (sq_sql p') = sv_conn (sq_sql p) ∧ grown path (sq_sql p) (sq_sql p')).
Proof.
  intros path. unfold open_database. apply wp_bind, wp_wrapM, wp_on_sql.
  eapply wp_mono; [by apply NewDatabaseProvider_spec| |]; cbn beta.
  - intros d s' (<- & _ & Hc & Hg & Ht). by exists d.
  - by intros s' [Hc Hg].
Qed.
End rpc_lemmas.

(** A configuration applied while no database is open, or one with another
    path, opens its file: on success the plugin has a connection of its own to
    it, the file has the plugin's tables next to whatever it had, no other file
    changed, and the connection of the provider before is closed.  On failure
    the connection before is closed too, but the plugin still uses it. *)
Theorem ApplyConfig_opens `{SqlLaws} configJSON config p :
  Unmarshal_DatabaseConfig configJSON = Ok config →
  (sq_provider p = None ∨ dc_DatabasePath config ≠ sq_lastPath p) →
  let path := dc_DatabasePath config in
  let others := match sq_provider p with
                | Some d => delete (dp_db d) (sv_conn (sq_sql p))
                | None => sv_conn (sq_sql p)
                end in
  wp (ApplyConfig configJSON) p
    (λ _ p', ∃ d, sq_provider p' = Some d ∧ dp_config d = config ∧ sq_lastPath p' = path ∧
       sv_conn (sq_sql p') = <[dp_db d := path]> others ∧ grown path (sq_sql p) (sq_sql p') ∧
       sv_tables path (sq_sql p') = with_schema (sv_tables path (sq_sql p)))
    (λ p', sq_provider p' = sq_provider p ∧ sq_lastPath p' = sq_lastPath p ∧
       sv_conn (sq_sql p') = others ∧ grown path (sq_sql p) (sq_sql p')).
Proof.
  intros Hj Hnew path others. unfold ApplyConfig. apply wp_bind, wp_lift. rewrite Hj.
  apply wp_bind, wp_gets, wp_bind, wp_gets. subst others.
  destruct (sq_provider p) as [d0|] eqn:Hp.
  - rewrite bool_decide_eq_true_2 by by destruct Hnew.
    apply wp_bind, wp_attempt, wp_on_sql, wp_close. intros s1 Hc1 Ht1.
    assert (∀ r : res (), wp ((λ _, open_database config) r)
      {| sq_provider := sq_provider p; sq_lastPath := sq_lastPath p; sq_sql := s1 |}
      (λ _ p', ∃ d, sq_provider p' = Some d ∧ dp_config d = config ∧ sq_lastPath p' = path ∧
         sv_conn (sq_sql p') = <[dp_db d := path]> (delete (dp_db d0) (sv_conn (sq_sql p))) ∧
         grown path (sq_sql p) (sq_sql p') ∧
         sv_tables path (sq_sql p') = with_schema (sv_tables path (sq_sql p)))
      (λ p', sq_provider p' = Some d0 ∧ sq_lastPath p' = sq_lastPath p ∧
         sv_conn (sq_sql p') = delete (dp_db d0) (sv_conn (sq_sql p)) ∧
         grown path (sq_sql p) (sq_sql p'))) as Hopen.
    { intros _. eapply wp_mono; [by apply open_database_spec| |]; cbn.
      - intros _ p' (d & ? & ? & ? & Hc & Hg & Ht). exists d. split_and!; [done..| | |].
        + by rewrite Hc, Hc1.
        + eapply grown_trans; [by apply grown_same|done].
        + unfold path. by rewrite Ht, Ht1.
      - intros p' (Hp' & ? & Hc & Hg). split_and!; [congruence|done|congruence|].
        eapply grown_trans; [by apply grown_same|done]. }
    split; [apply (Hopen (Ok ()))|]. intros e. apply (Hopen (Err e)).
  - eapply wp_mono; [by apply open_database_spec| |]; cbn beta.
    + by intros _ p' (d & ?); exists d.
    + intros p' (? & ? & ? & ?). split_and!; [congruence|done..].
Qed.

(** A flush closes the database, and the plugin does not open it again:
    every later configuration with the same path succeeds without doing
    anything, and then no log entry can be stored or read. *)
Theorem flushed_database_stays_closed `{SqlLaws} d p r p1 :
  sq_provider p = Some d → Flush p = (r, p1) →
  sv_conn (sq_sql p1) !! dp_db d = None ∧
  (∀ configJSON config, Unmarshal_DatabaseConfig configJSON = Ok config →
     dc_DatabasePath config = sq_lastPath p → ApplyConfig configJSON p1 = (Ok (), p1)) ∧
  (∀ level component limit, ∃ e, (on_sql (QueryLogs d level component limit) p1).1 = Err e) ∧
  (dc_LogStorageEnabled (dp_config d) = true →
   ∀ ts lv co me fi, ∃ e, (on_sql (InsertLog d ts lv co me fi) p1).1 = Err e).
Proof.
  intros Hp Hf.
  assert (sq_provider p1 = Some d ∧ sq_lastPath p1 = sq_lastPath p ∧
    sv_conn (sq_sql p1) !! dp_db d = None) as (Hp1 & Hl1 & Hc1).
  { assert (wp Flush p
      (λ _ p', sq_provider p' = Some d ∧ sq_lastPath p' = sq_lastPath p ∧
         sv_conn (sq_sql p') !! dp_db d = None)
      (λ p', sq_provider p' = Some d ∧ sq_lastPath p' = sq_lastPath p ∧
         sv_conn (sq_sql p') !! dp_db d = None)) as Hw.
    { unfold Flush. apply wp_bind, wp_gets. rewrite Hp. apply wp_on_sql, wp_close.
      intros s' Hc _. cbn. rewrite Hc, Hp. by rewrite lookup_delete_eq. }
    unfold wp in Hw. rewrite Hf in Hw. by destruct r. }
  split; [done|]. split; [|split].
  - intros configJSON config Hj Hpath. unfold ApplyConfig, mbind, M_bind, lift, gets.
    rewrite Hj, Hp1. rewrite bool_decide_eq_false_2; [done|]. rewrite Hl1. by intros [].
  - intros level component limit. unfold on_sql, QueryLogs, mbind, M_bind, wrapM.
    destruct (sql_Query _ _ _ _) as [q s'] eqn:E. apply sql_Query_answers in E as (Hq & _ & _ & Ha).
    rewrite Hc1 in Ha. destruct q; [done| |done]. by eexists.
  - intros Hen ts lv co me fi. unfold on_sql, InsertLog, mbind, M_bind, wrapM. rewrite Hen.
    cbn [negb]. destruct (sql_Exec _ _ _ _) as [q s'] eqn:E.
    apply sql_Exec_effect in E as (Hq & _ & _ & Ha).
    rewrite Hc1 in Ha. destruct q; [done| |done]. by eexists.
Qed.

(** What OnLogEvent reads of an entry the daemon sends. *)
Lemma event_members e :
  ∃ m, Unmarshal_map (ToJSON e) = Ok (Some m) ∧
    as_str (cell m "timestamp") = en_Timestamp e ∧ as_str (cell m "level") = en_Level e ∧
    as_str (cell m "component") = en_Component e ∧ as_str (cell m "message") = en_Message e ∧
    cell m "fields" = Unmarshal_any (Marshal (VMap (en_Fields e))).
Proof.
  eexists. split; [reflexivity|].
  assert (∀ (m : row) k v, cell (<[k:=v]> m) k = v) as Hhit
    by (intros; unfold cell; by rewrite lookup_insert_eq).
  assert (∀ (m : row) k k' v, k ≠ k' → cell (<[k:=v]> m) k' = cell m k') as Hmiss
    by (intros; unfold cell; by rewrite lookup_insert_ne).
  split_and!; rewrite ?Hmiss by done; by rewrite Hhit.
Qed.

(** The plugin has an open database with a table of log entries. *)
Definition stores `{SqlLaws} (d : DatabaseProvider) (t : table) (p : SQLite3) : Prop :=
  sq_provider p = Some d ∧ ∃ path, sv_conn (sq_sql p) !! dp_db d = Some path ∧
    sv_tables path (sq_sql p) !! "logs" = Some t ∧ log_table t.


Lemma no_panic_dec_sql_args a kvs : no_panic (dec_sql_args a kvs).
Proof.
  revert a. induction kvs as [|[k j] kvs IH]; intros a; [done|]. cbn [dec_sql_args].
  apply no_panic_bind; [|auto]. destruct (find_key _ k) as [t|]; [|done].
  case_bool_decide; [auto with no_panic|by destruct j].
Qed.
Lemma no_panic_Unmarshal_SqlArgs j : no_panic (Unmarshal_SqlArgs j).
Proof. destruct j; try done. apply no_panic_dec_sql_args. Qed.
Lemma no_panic_dec_base v j : no_panic (dec_base v j).
Proof. destruct v; cbn; auto with no_panic; by repeat case_match. Qed.
Lemma no_panic_Unmarshal_map j : no_panic (Unmarshal_map j).
Proof. by apply dec_map_no_panic. Qed.

Lemma safe_CallService `{SqlLaws} service method j : safe (CallService service method j).
Proof.
  assert (∀ d, safe (on_sql (Stats d))) as Hstats by (intros; by apply safe_on_sql, safe_Stats).
  unfold CallService. case_bool_decide; [auto with safe|].
  apply safe_bind; [auto with safe|]. intros [d|]; [|auto with safe].
  assert (∀ A (r : res A), no_panic r → safe (decode r)) as Hdec
    by (intros A r Hr; by apply safe_lift, no_panic_wrap).
  repeat case_bool_decide; [| | | | | | |auto with safe].
  - apply safe_bind; [apply Hdec, dec_struct_no_panic, no_panic_dec_base|]. intros a.
    apply safe_bind; [by apply safe_on_sql, safe_InsertLog|]. auto with safe.
  - apply safe_bind; [apply Hdec, dec_struct_no_panic, no_panic_dec_base|]. intros a.
    apply safe_bind; [by apply safe_on_sql, safe_QueryLogs|]. auto with safe.
  - apply safe_bind; auto with safe.
  - apply safe_bind; [by apply safe_on_sql, safe_Vacuum|]. auto with safe.
  - apply safe_bind; [apply Hdec, no_panic_Unmarshal_SqlArgs|]. intros a.
    apply safe_bind; [by apply safe_on_sql, safe_Exec|]. auto with safe.
  - apply safe_bind; [apply Hdec, no_panic_Unmarshal_SqlArgs|]. intros a.
    apply safe_bind; [by apply safe_on_sql, safe_Query|]. intros [cols rows]. auto with safe.
  - apply safe_bind; [apply Hdec, no_panic_Unmarshal_SqlArgs|]. intros a.
    apply safe_bind; [by apply safe_on_sql, safe_QueryRow|]. intros [cols v]. auto with safe.
Qed.

(** Whatever arguments the daemon and other plugins send, no method of the
    plugin panics. *)
Theorem sqlite_never_panics `{SqlLaws} `{JsonText} :
  (∀ configJSON, safe (ApplyConfig configJSON)) ∧ safe Flush ∧ safe Status ∧
  (∀ command args, safe (ExecuteCLICommand command args)) ∧
  (∀ logEventJSON, safe (OnLogEvent logEventJSON)) ∧
  (∀ serviceName method argsJSON, safe (CallService serviceName method argsJSON)).
Proof.
  assert (∀ d, safe (on_sql (Stats d))) as Hstats by (intros; by apply safe_on_sql, safe_Stats).
  assert (∀ config, safe (open_database config)) as Hopen by apply safe_open_database.
  split_and!.
  - intros j. apply safe_bind; [apply safe_lift, dec_struct_no_panic, no_panic_dec_base|].
    intros config. apply safe_bind; [auto with safe|]. intros provider.
    apply safe_bind; [auto with safe|]. intros lastPath. destruct provider as [d|]; [|done].
    case_bool_decide; [|auto with safe]. apply safe_attempt_bind; [|done].
    by apply safe_on_sql, safe_db_Close.
  - apply safe_bind; [auto with safe|]. intros [d|]; [|auto with safe].
    by apply safe_on_sql, safe_db_Close.
  - apply safe_bind; [auto with safe|]. intros [d|]; auto with safe.
  - intros command args. unfold ExecuteCLICommand.
    assert (∀ run, (∀ d, safe (run d)) → safe (with_database run)) as Hwith.
    { intros run Hrun. apply safe_bind; [auto with safe|]. intros [d|]; auto with safe. }
    destruct (fields command) as [|c [|sub l]]; [auto with safe..|].
    repeat case_bool_decide; [| | |auto with safe]; apply Hwith; intros d.
    + unfold executeStats. auto with safe.
    + unfold executeLogs. destruct (parse_logs_args _ _ _ _) as [[lv co] lim].
      apply safe_bind; [by apply safe_wrapM, safe_on_sql, safe_QueryLogs|]. auto with safe.
    + unfold executeVacuum. apply safe_bind; [auto with safe|]. intros before.
      apply safe_bind; [by apply safe_wrapM, safe_on_sql, safe_Vacuum|]. intros _. auto with safe.
  - intros j. apply safe_bind; [auto with safe|]. intros [d|]; [|auto with safe].
    apply safe_bind; [by apply safe_lift, no_panic_wrap, no_panic_Unmarshal_map|].
    intros m. by apply safe_on_sql, safe_InsertLog.
  - apply safe_CallService.
Qed.

(** ** Examples, on the small engine *)

Definition sqlite_start : @SQLite3 sql_in_memory :=
  {| sq_provider := None; sq_lastPath := "";
     sq_sql := {| md_conn := ∅; md_files := ∅ |} : @sqldb sql_in_memory |}.
Definition config_at (path : string) (max : Z) : DatabaseConfig :=
  {| dc_Enabled := true; dc_DatabasePath := path; dc_LogStorageEnabled := true;
     dc_MaxLogEntries := max |}.
Definition config_json (c : DatabaseConfig) : json := enc_struct enc_base c.
Definition apply_db (c : DatabaseConfig) (p : @SQLite3 sql_in_memory) :
    res () * @SQLite3 sql_in_memory := ApplyConfig (config_json c) p.
Definition opened : @SQLite3 sql_in_memory := (apply_db (config_at "/var/lib/jack/data.db" 1) sqlite_start).2.
Definition event (now level message : string) : Entry :=
  NewEntry now level "network" message (Some {["port" := VStr "eth0"]}).
Definition log_event (e : Entry) (p : @SQLite3 sql_in_memory) : res () * @SQLite3 sql_in_memory :=
  @OnLogEvent sql_in_memory sample_text (ToJSON e) p.
Definition opened_db : DatabaseProvider :=
  {| dp_config := config_at "/var/lib/jack/data.db" 1; dp_db := 1%positive |}.
Definition empty_logs : table := {| tb_cols := log_columns; tb_rows := [] |}.

Lemma opened_stores : stores opened_db empty_logs opened.
Proof.
  split; [vm_compute; reflexivity|]. exists "/var/lib/jack/data.db".
  split; [vm_compute; reflexivity|]. split; [vm_compute; reflexivity|]. by split.
Qed.

Lemma opened_eq :
  @ApplyConfig sql_in_memory (config_json (config_at "/var/lib/jack/data.db" 1)) sqlite_start
  = (Ok (), opened).
Proof.
  refine (run_eq (apply_db (config_at "/var/lib/jack/data.db" 1) sqlite_start) (Ok ()) _).
  vm_compute. reflexivity.
Qed.
Lemma ApplyConfig_opens_witness :
  ∃ d, sq_provider opened = Some d ∧ sq_lastPath opened = "/var/lib/jack/data.db".
Proof.
  pose proof (@ApplyConfig_opens sql_in_memory sql_memory_laws
    (config_json (config_at "/var/lib/jack/data.db" 1)) (config_at "/var/lib/jack/data.db" 1)
    sqlite_start eq_refl (or_introl eq_refl)) as Hw.
  cbv zeta in Hw. destruct (wp_result _ _ _ _ _ _ opened_eq Hw) as (_ & Hok & _).
  destruct (Hok () eq_refl) as (d & Hd & _ & Hl & _).
  exists d. split; [exact Hd|exact Hl].
Defined.


Lemma flushed_database_stays_closed_witness :
  let p1 := (Flush opened).2 in
  ApplyConfig (config_json (config_at "/var/lib/jack/data.db" 1)) p1 = (Ok (), p1) ∧
  ∃ e, (on_sql (InsertLog opened_db "t" "info" "c" "m" "") p1).1 = Err e.
Proof.
  intros p1.
  destruct (@flushed_database_stays_closed sql_in_memory sql_memory_laws opened_db opened
    _ p1 (proj1 opened_stores) (surjective_pairing (Flush opened))) as (_ & Ha & _ & Hi).
  split; [exact (Ha (config_json (config_at "/var/lib/jack/data.db" 1)) (config_at "/var/lib/jack/data.db" 1)
    eq_refl ltac:(vm_compute; reflexivity))|].
  exact (Hi eq_refl "t" "info" "c" "m" "").
Defined.

(** The maximum number of entries is not enforced; the newest come first. *)
Example max_log_entries_ignored :
  let p1 := (log_event (event "2025-01-01T10:00:00Z" "info" "one") opened).2 in
  let p2 := (log_event (event "2025-01-01T10:00:01Z" "warn" "two") p1).2 in
  le_Message <$> match (on_sql (QueryLogs opened_db "" "" 0) p2).1 with Ok l => l | _ => [] end
  = ["two"; "one"] ∧ dc_MaxLogEntries (dp_config opened_db) = 1.
Proof. vm_compute. split; reflexivity. Qed.
(** Turning the storage of logs off does nothing while the database is open. *)
Example storage_switch_ignored :
  let off := {| dc_Enabled := false; dc_DatabasePath := "/var/lib/jack/data.db";
                dc_LogStorageEnabled := false; dc_MaxLogEntries := 0 |} in
  (apply_db off opened).1 = Ok () ∧ sq_provider (apply_db off opened).2 = Some opened_db ∧
  dc_LogStorageEnabled (dp_config opened_db) = true.
Proof. vm_compute. repeat split. Qed.
(** The service's own InsertLog, and a query with a limit. *)
Example service_round_trip :
  let args := JObj [("timestamp", JStr "t1"); ("level", JStr "info"); ("message", JStr "m")] in
  let p1 := (@CallService sql_in_memory "database" "InsertLog" args opened).2 in
  (@CallService sql_in_memory "database" "QueryLogs" (JObj [("limit", JInt 1)]) p1).1
  = Ok (Some (JArr [JObj [("ID", JInt 1); ("Timestamp", JStr "t1"); ("Level", JStr "info");
                          ("Component", JStr ""); ("Message", JStr "m"); ("Fields", JStr "")]])).
Proof. vm_compute. reflexivity. Qed.
