(* ===== verification/Database.v ===== *)
(** * Database: the database service, as one plugin promises it to others

    A client sends a statement and its arguments in JSON through CallService and
    decodes the reply.  [DatabaseService] is that call, [DatabaseServiceLaws]
    what a client may rely on, over a view of the tables.  The SQLite plugin
    satisfies them ([sqlite_service_laws]), and so does a service reached over
    any RPC connection ([remote_service_laws]): a call that fails may then have
    been executed, which the laws allow. *)
From S2P Require Import Prelude GoStr Types Json Value Codec Registry Services Loader Rpc Sql Sqlite.

Class DatabaseService := {
  dsvc : Type;
  ds_CallService : string → string → json → M dsvc (option json);
}.
(** json.Marshal(map[string]interface{}{"query": text, "args": args}). *)
Definition sql_json (text : string) (args : list value) : json :=
  Marshal (VMap {["query" := VStr text; "args" := VArr args]}).
(** A value after it was sent. *)
Definition sent (v : value) : value := Unmarshal_any (Marshal v).
Definition rows_json (columns : list string) (rows : list (list value)) : json :=
  Marshal (VMap {["columns" := VStrs columns; "rows" := enc_rows rows]}).
Definition row_json (columns : list string) (values : option (list value)) : json :=
  Marshal (VMap {["columns" := VStrs columns;
                  "values" := match values with Some l => VArr l | None => VNil end]}).

(** [ds_tables s]: the tables of the database in use, if one is open. *)
Class DatabaseServiceLaws `{DatabaseService} := {
  ds_tables : dsvc → option (gmap string table);
  ds_safe service method argsJSON : safe (ds_CallService service method argsJSON);
  (* its errors have a text, so that they are not lost on the way to the client *)
  ds_texts method text args s e s' : method ∈ ["Exec"; "Query"; "QueryRow"] →
    ds_CallService "database" method (sql_json text args) s = (Err e, s') → error_string e ≠ "";
  ds_Exec text args st s r s' :
    ds_CallService "database" "Exec" (sql_json text args) s = (r, s') →
    parse_sql text = Some st →
    let executed := ∃ ts ts', ds_tables s = Some ts ∧ ds_tables s' = Some ts' ∧
                      exec_effect st (sent <$> args) ts ts' in
    match r with Ok _ => executed | _ => executed ∨ ds_tables s' = ds_tables s end;
  ds_Query text args q t s r s' :
    ds_CallService "database" "Query" (sql_json text args) s = (r, s') →
    parse_sql text = Some (SSelect q) →
    ds_tables s' = ds_tables s ∧
    ∀ j, r = Ok j → ∃ ts, ds_tables s = Some ts ∧
      (ts !! se_table q = Some t → plain_args q (sent <$> args) t →
       ∃ rows, j = Some (rows_json (se_cols q) rows) ∧ selects q (sent <$> args) t rows);
  (* no row may also mean that none could be read *)
  ds_QueryRow text args q t s r s' :
    ds_CallService "database" "QueryRow" (sql_json text args) s = (r, s') →
    parse_sql text = Some (SSelect q) →
    ds_tables s' = ds_tables s ∧
    ∀ j, r = Ok j → ∃ ts, ds_tables s = Some ts ∧
      (ts !! se_table q = Some t → plain_args q (sent <$> args) t →
       ∃ rows values, j = Some (row_json (se_cols q) values) ∧ selects q (sent <$> args) t rows ∧
         (values = None ∨ ∃ l, values = Some l ∧ head rows = Some l));
}.

(** ** The SQLite plugin provides the service *)
Section sqlite.
Context `{SqlLaws}.
#[local] Instance sqlite_service : DatabaseService := {|
  dsvc := SQLite3; ds_CallService := Sqlite.CallService;
|}.
Definition open_tables (p : SQLite3) : option (gmap string table) :=
  match sq_provider p with
  | Some d => (λ path, sv_tables path (sq_sql p)) <$> sv_conn (sq_sql p) !! dp_db d
  | None => None
  end.
Lemma decode_sql_json text args :
  Unmarshal_SqlArgs (sql_json text args) = Ok {| sa_Query := text; sa_Args := sent <$> args |}.
Proof.
  change (sql_json text args)
    with (JObj [("args", JArr (Marshal <$> args)); ("query", JStr text)]).
  cbn. unfold sent. by rewrite <-list_fmap_compose.
Qed.
(** The three methods, on a statement sent by a client. *)
Lemma service_exec text args p :
  Sqlite.CallService "database" "Exec" (sql_json text args) p =
  match sq_provider p with
  | None => (Err uninitialized, p)
  | Some d => (on_sql (Exec d text (sent <$> args)) ≫= λ n,
                 mret (Some (Marshal (VMap {["rows_affected" := VInt n]})))) p
  end.
Proof.
  destruct p as [[d|] lp sq]; [|reflexivity].
  match goal with |- _ = ?rhs => change (handleExec d (sql_json text args)
    {| sq_provider := Some d; sq_lastPath := lp; sq_sql := sq |} = rhs) end.
  unfold handleExec, decode. cbn [sq_provider].
  unfold mbind at 1, M_bind at 1, lift. by rewrite decode_sql_json.
Qed.
Lemma service_query text args p :
  Sqlite.CallService "database" "Query" (sql_json text args) p =
  match sq_provider p with
  | None => (Err uninitialized, p)
  | Some d => (on_sql (Query d text (sent <$> args)) ≫= λ '(columns, rows),
                 mret (Some (rows_json columns rows))) p
  end.
Proof.
  destruct p as [[d|] lp sq]; [|reflexivity].
  match goal with |- _ = ?rhs => change (handleQuery d (sql_json text args)
    {| sq_provider := Some d; sq_lastPath := lp; sq_sql := sq |} = rhs) end.
  unfold handleQuery, decode. cbn [sq_provider].
  unfold mbind at 1, M_bind at 1, lift. by rewrite decode_sql_json.
Qed.
Lemma service_query_row text args p :
  Sqlite.CallService "database" "QueryRow" (sql_json text args) p =
  match sq_provider p with
  | None => (Err uninitialized, p)
  | Some d => (on_sql (QueryRow d text (sent <$> args)) ≫= λ '(columns, values),
                 mret (Some (row_json columns values))) p
  end.
Proof.
  destruct p as [[d|] lp sq]; [|reflexivity].
  match goal with |- _ = ?rhs => change (handleQueryRow d (sql_json text args)
    {| sq_provider := Some d; sq_lastPath := lp; sq_sql := sq |} = rhs) end.
  unfold handleQueryRow, decode. cbn [sq_provider].
  unfold mbind at 1, M_bind at 1, lift. by rewrite decode_sql_json.
Qed.

(** The rows of a selection, as the service passes them on. *)
Lemma scan_all (l : list (list value)) : scan_rows id (Ok <$> l) = Ok l.
Proof. induction l as [|x l IH]; [done|]. cbn. by rewrite IH. Qed.

(** The same over the driver. *)
Lemma Exec_run d text st args s r s' :
  Exec d text args s = (r, s') → parse_sql text = Some st →
  sv_conn s' = sv_conn s ∧
  (((∀ p, sv_tables p s' = sv_tables p s) ∧ ∃ e, r = Err e) ∨
   ∃ path, sv_conn s !! dp_db d = Some path ∧
     exec_effect st args (sv_tables path s) (sv_tables path s')).
Proof.
  unfold Exec, mbind, M_bind, wrapM, lift. intros E Hst.
  destruct (sql_Exec _ _ _ _) as [n s1] eqn:Ee.
  apply sql_Exec_effect in Ee as (Hn & Hc & Ho & He).
  destruct n as [n|e|w]; cbn in E; [| |done].
  - assert (s1 = s') as <- by (destruct n; by simplify_eq). split; [done|]. right.
    destruct (sv_conn s !! dp_db d) as [path|]; [|done]. exists path. split; [done|]. by apply He.
  - injection E as <- <-. split; [done|]. left. split; [|by eexists].
    by destruct (sv_conn s !! dp_db d).
Qed.
Lemma Query_run d text q args s r s' :
  Query d text args s = (r, s') → parse_sql text = Some (SSelect q) →
  sv_conn s' = sv_conn s ∧ (∀ p, sv_tables p s' = sv_tables p s) ∧
  ∀ out, r = Ok out → ∃ path, sv_conn s !! dp_db d = Some path ∧
    ∀ t, sv_tables path s !! se_table q = Some t → plain_args q args t →
      ∃ rows, out = (se_cols q, rows) ∧ selects q args t rows.
Proof.
  unfold Query, mbind, M_bind, mret, M_ret, wrapM, lift. intros E Hq.
  destruct (sql_Query _ _ _ _) as [rs s1] eqn:Ee.
  apply sql_Query_answers in Ee as (Hr & Hc & Ht & Ha).
  assert (s1 = s') as <-.
  { destruct rs as [rows|e|w]; cbn in E; [|by simplify_eq..].
    destruct (wrap _ (rs_columns rows)); cbn in E; [|by simplify_eq..].
    destruct (wrap _ (scan_rows _ _)); cbn in E; [|by simplify_eq..].
    destruct (rows_error _ _); cbn in E; by simplify_eq. }
  split_and!; [done..|]. intros out ->. destruct rs as [rows|e|w]; cbn in E; [|done..].
  destruct (sv_conn s !! dp_db d) as [path|]; [|done]. exists path. split; [done|].
  intros t Htab Hplain. destruct Ha as (_ & _ & Ha).
  destruct (Ha q t Hq Htab Hplain) as (Hcols & result & k & Hsel & Hrows & Hall).
  rewrite Hcols in E. cbn in E. rewrite Hrows, scan_all in E. cbn in E. unfold rows_error in E.
  destruct (rs_err rows) as [err|]; [done|]. cbn in E. injection E as <-.
  exists result. by rewrite (Hall eq_refl).
Qed.
Lemma QueryRow_run d text q args s r s' :
  QueryRow d text args s = (r, s') → parse_sql text = Some (SSelect q) →
  sv_conn s' = sv_conn s ∧ (∀ p, sv_tables p s' = sv_tables p s) ∧
  ∀ out, r = Ok out → ∃ path, sv_conn s !! dp_db d = Some path ∧
    ∀ t, sv_tables path s !! se_table q = Some t → plain_args q args t →
      ∃ rows values, out = (se_cols q, values) ∧ selects q args t rows ∧
        (values = None ∨ ∃ l, values = Some l ∧ head rows = Some l).
Proof.
  unfold QueryRow, mbind, M_bind, mret, M_ret, wrapM, lift. intros E Hq.
  destruct (sql_Query _ _ _ _) as [rs s1] eqn:Ee.
  apply sql_Query_answers in Ee as (Hr & Hc & Ht & Ha).
  assert (s1 = s') as <-.
  { destruct rs as [rows|e|w]; cbn in E; [|by simplify_eq..].
    destruct (wrap _ (rs_columns rows)); cbn in E; [|by simplify_eq..].
    destruct (rs_rows rows) as [|row l]; cbn in E; [by simplify_eq|].
    destruct (wrap _ row); cbn in E; by simplify_eq. }
  split_and!; [done..|]. intros out ->. destruct rs as [rows|e|w]; cbn in E; [|done..].
  destruct (sv_conn s !! dp_db d) as [path|]; [|done]. exists path. split; [done|].
  intros t Htab Hplain. destruct Ha as (_ & _ & Ha).
  destruct (Ha q t Hq Htab Hplain) as (Hcols & result & k & Hsel & Hrows & Hall).
  rewrite Hcols in E. cbn in E. rewrite Hrows in E. exists result.
  destruct result as [|x result], k as [|k]; cbn in E; injection E as <-.
  - exists None. eauto.
  - exists None. eauto.
  - exists None. eauto.
  - exists (Some x). split_and!; [done|done|]. right. by exists x.
Qed.

(** The errors are wrapped, so their texts are not empty. *)
Definition texted {A} (r : res A) : Prop := ∀ e, r = Err e → error_string e ≠ "".
Lemma texted_ok {A} (a : A) : texted (Ok a).
Proof. by intros e. Qed.
Lemma texted_wrap {A} p (r : res A) : p ≠ "" → texted (wrap p r).
Proof. intros Hp e. destruct r; cbn; try done. intros [= <-]. cbn. by destruct p. Qed.
Lemma texted_rows_error p rows : p ≠ "" → texted (rows_error p rows).
Proof.
  intros Hp. unfold rows_error. destruct (rs_err rows); [|by apply texted_ok].
  by apply (texted_wrap p (Err e : res ())).
Qed.
Lemma texted_bind {A B} (m : M sqldb A) (f : A → M sqldb B) s :
  texted (m s).1 → (∀ a s, texted (f a s).1) → texted ((m ≫= f) s).1.
Proof.
  intros Hm Hf. unfold mbind, M_bind. destruct (m s) as [[a|e|w] s']; cbn; [apply Hf| |by intros e].
  intros e' [= <-]. by apply Hm.
Qed.
Lemma texted_wrapM {A} p (m : M sqldb A) s : p ≠ "" → texted (wrapM p m s).1.
Proof. intros Hp. unfold wrapM. destruct (m s) as [r s']. by apply texted_wrap. Qed.
Lemma texted_Exec d q args s : texted (Exec d q args s).1.
Proof. apply texted_bind; [by apply texted_wrapM|]. intros n s'. by apply texted_wrap. Qed.
Lemma texted_Query d q args s : texted (Query d q args s).1.
Proof.
  apply texted_bind; [by apply texted_wrapM|]. intros rows s1.
  apply texted_bind; [by apply texted_wrap|]. intros columns s2.
  apply texted_bind; [by apply texted_wrap|]. intros results s3.
  apply texted_bind; [by apply texted_rows_error|]. intros _ s4. apply texted_ok.
Qed.
Lemma texted_QueryRow d q args s : texted (QueryRow d q args s).1.
Proof.
  apply texted_bind; [by apply texted_wrapM|]. intros rows s1.
  apply texted_bind; [by apply texted_wrap|]. intros columns s2.
  destruct (rs_rows rows) as [|row l]; [apply texted_ok|].
  apply texted_bind; [by apply texted_wrap|]. intros values s3. apply texted_ok.
Qed.
Lemma texted_fmap {A B} (f : A → B) (r : res A) : texted r → texted (f <$> r).
Proof. intros Hr e. destruct r; cbn; try done. intros [= <-]. by apply Hr. Qed.

Lemma on_sql_run {A B} (m : M sqldb A) (f : A → B) (k : A → M SQLite3 B) p r p' :
  (∀ a s, k a s = (Ok (f a), s)) → (on_sql m ≫= k) p = (r, p') →
  r = f <$> (m (sq_sql p)).1 ∧
  p' = {| sq_provider := sq_provider p; sq_lastPath := sq_lastPath p; sq_sql := (m (sq_sql p)).2 |}.
Proof.
  intros Hk E. unfold mbind, M_bind, on_sql in E. destruct (m (sq_sql p)) as [[a|e|w] s'].
  - rewrite Hk in E. by injection E as <- <-.
  - by injection E as <- <-.
  - by injection E as <- <-.
Qed.
Lemma open_tables_some p d path :
  sq_provider p = Some d → sv_conn (sq_sql p) !! dp_db d = Some path →
  open_tables p = Some (sv_tables path (sq_sql p)).
Proof. intros Hp Hc. unfold open_tables. by rewrite Hp, Hc. Qed.
Lemma open_tables_same p s' :
  sv_conn s' = sv_conn (sq_sql p) → (∀ path, sv_tables path s' = sv_tables path (sq_sql p)) →
  open_tables {| sq_provider := sq_provider p; sq_lastPath := sq_lastPath p; sq_sql := s' |}
  = open_tables p.
Proof.
  intros Hc Ht. unfold open_tables. cbn. destruct (sq_provider p) as [d|]; [|done]. rewrite Hc.
  destruct (_ !! _) as [path|]; [|done]. cbn. by rewrite Ht.
Qed.

#[local] Instance sqlite_service_laws : DatabaseServiceLaws.
Proof.
  refine {| ds_tables := open_tables : @dsvc sqlite_service → _ |}.
  - intros. apply Sqlite.safe_CallService.
  - intros method text args p e p' Hm E.
    change (Sqlite.CallService "database" method (sql_json text args) p = (Err e, p')) in E.
    assert (∀ A B (m : M sqldb A) (f : A → B) k, (∀ a s, k a s = (Ok (f a), s)) →
      texted (m (sq_sql p)).1 → (on_sql m ≫= k) p = (Err e, p') → error_string e ≠ "") as Hrun.
    { intros A B m f k Hk Ht Hr. apply (on_sql_run _ f) in Hr as [Hr _]; [|done].
      by apply (texted_fmap f) in Ht; apply Ht. }
    apply elem_of_cons in Hm as [->|[->|[->|?%not_elem_of_nil]%elem_of_cons]%elem_of_cons]; [..|done].
    + rewrite service_exec in E. destruct (sq_provider p) as [d|]; [|by injection E as <- <-].
      eapply Hrun, E; [|apply texted_Exec]. by intros.
    + rewrite service_query in E. destruct (sq_provider p) as [d|]; [|by injection E as <- <-].
      eapply (Hrun _ _ _ (λ x, Some (rows_json x.1 x.2))), E; [|apply texted_Query]. by intros [].
    + rewrite service_query_row in E. destruct (sq_provider p) as [d|]; [|by injection E as <- <-].
      eapply (Hrun _ _ _ (λ x, Some (row_json x.1 x.2))), E; [|apply texted_QueryRow]. by intros [].
  - intros text args st p r p' E Hst.
    change (Sqlite.CallService "database" "Exec" (sql_json text args) p = (r, p')) in E.
    rewrite service_exec in E. destruct (sq_provider p) as [d|] eqn:Hp; [|by injection E as <- <-; right].
    apply (on_sql_run _ (λ n, Some (Marshal (VMap {["rows_affected" := VInt n]})))) in E
      as [-> ->]; [|done].
    destruct (Exec d text (sent <$> args) (sq_sql p)) as [n s'] eqn:Ee. cbn [fst snd].
    apply (Exec_run _ _ st) in Ee as (Hc & [[Ht [e ->]]|(path & Hd & He)]); [| |done].
    + right. by apply open_tables_same.
    + assert (∃ ts ts', open_tables p = Some ts ∧
        open_tables {| sq_provider := sq_provider p; sq_lastPath := sq_lastPath p; sq_sql := s' |}
        = Some ts' ∧ exec_effect st (sent <$> args) ts ts') as Hex.
      { exists (sv_tables path (sq_sql p)), (sv_tables path s').
        split; [by apply (open_tables_some p d)|]. split; [|done].
        unfold open_tables. cbn. by rewrite Hp, Hc, Hd. }
      cbv zeta. destruct n; [done|by left..].
  - intros text args q t p r p' E Hq.
    change (Sqlite.CallService "database" "Query" (sql_json text args) p = (r, p')) in E.
    rewrite service_query in E. destruct (sq_provider p) as [d|] eqn:Hp; [|by injection E as <- <-].
    apply (on_sql_run _ (λ x, Some (rows_json x.1 x.2))) in E as [-> ->]; [|by intros []].
    destruct (Query d text (sent <$> args) (sq_sql p)) as [out s'] eqn:Ee. cbn [fst snd].
    apply (Query_run _ _ q) in Ee as (Hc & Ht & Ho); [|done].
    split; [by apply open_tables_same|]. intros j Hj. destruct out as [x| |]; [|done..].
    injection Hj as <-. destruct (Ho x eq_refl) as (path & Hd & Hrows).
    exists (sv_tables path (sq_sql p)). split; [by apply (open_tables_some p d)|].
    intros Htab Hplain. destruct (Hrows t Htab Hplain) as (rows & -> & Hsel). by exists rows.
  - intros text args q t p r p' E Hq.
    change (Sqlite.CallService "database" "QueryRow" (sql_json text args) p = (r, p')) in E.
    rewrite service_query_row in E.
    destruct (sq_provider p) as [d|] eqn:Hp; [|by injection E as <- <-].
    apply (on_sql_run _ (λ x, Some (row_json x.1 x.2))) in E as [-> ->]; [|by intros []].
    destruct (QueryRow d text (sent <$> args) (sq_sql p)) as [out s'] eqn:Ee. cbn [fst snd].
    apply (QueryRow_run _ _ q) in Ee as (Hc & Ht & Ho); [|done].
    split; [by apply open_tables_same|]. intros j Hj. destruct out as [x| |]; [|done..].
    injection Hj as <-. destruct (Ho x eq_refl) as (path & Hd & Hrows).
    exists (sv_tables path (sq_sql p)). split; [by apply (open_tables_some p d)|].
    intros Htab Hplain. destruct (Hrows t Htab Hplain) as (rows & values & -> & Hsel & Hv).
    by exists rows, values.
Defined.
End sqlite.

(** ** The service over a connection *)

(** The errors of a connection are not empty, and it does not panic. *)
Class ConnectionErrors `{Connection} := {
  ce_send method w : no_panic (c_send method w).1;
  ce_receive method w : no_panic (c_receive method w).1;
  ce_send_text method w e w' : c_send method w = (Err e, w') → error_string e ≠ "";
  ce_receive_text method w e w' : c_receive method w = (Err e, w') → error_string e ≠ "";
  ce_lost_text w : error_string (c_lost w).1 ≠ "";
}.
Section remote.
Context `{DatabaseServiceLaws} `{ConnectionErrors} (name : string).
Definition remote_service : DatabaseService := {|
  dsvc := Remote dsvc;
  ds_CallService service method argsJSON :=
    request_reply name (to_reply (ds_CallService service method argsJSON));
|}.
(** What a call comes to: nothing was sent; or the service answered, and the
    answer came back or was lost. *)
Lemma remote_call method text args r out r' :
  method ∈ ["Exec"; "Query"; "QueryRow"] →
  request_reply name (to_reply (ds_CallService "database" method (sql_json text args))) r = (out, r') →
  no_panic out ∧ texted out ∧
  ((far r' = far r ∧ ∃ e, out = Err e) ∨
   ∃ a, ds_CallService "database" method (sql_json text args) (far r) = (a, far r') ∧
     ∀ v, out = Ok v → a = Ok v).
Proof.
  intros Hm E. pose proof (client_cases name (ds_CallService "database" method (sql_json text args)) r)
    as Hc. cbn zeta in Hc. rewrite E in Hc. cbn [fst snd] in Hc.
  pose proof (ds_safe "database" method (sql_json text args) (far r)) as Hs.
  pose proof (ds_texts method text args (far r)) as Ht.
  destruct (c_send name (line r)) as [[[]|e|p] w1] eqn:Es.
  - destruct Hc as [Hf Hc].
    destruct (ds_CallService "database" method (sql_json text args) (far r)) as [a s'].
    cbn in *. subst s'.
    assert (no_panic (c_receive name w1).1) as Hrn by apply ce_receive.
    destruct a as [v|e|]; [| |done].
    + destruct (c_receive name w1) as [[[]|e|] w2] eqn:Er; [| |done].
      * destruct Hc as [-> _]. split_and!; [done|apply texted_ok|]. right. by exists (Ok v).
      * subst out. split_and!; [done| |right; by exists (Ok v)].
        intros e' [= <-]. by eapply ce_receive_text.
    + assert (error_string e ≠ "") as He by by eapply Ht.
      destruct (c_receive name w1) as [[[]|e2|] w2] eqn:Er; [| |done].
      * destruct Hc as [-> _]. cbn. rewrite bool_decide_eq_false_2 by done.
        split_and!; [done|by intros ? [= <-]|right; by exists (Err e)].
      * subst out. split_and!; [done| |right; by exists (Err e)].
        intros e' [= <-]. by eapply ce_receive_text.
  - destruct Hc as [Hf ->]. split_and!; [done| |left; by split; [|eexists]].
    intros e' [= <-]. by eapply ce_send_text.
  - pose proof (ce_send name (line r)) as Hp. by rewrite Es in Hp.
Qed.
Lemma remote_safe service method argsJSON :
  safe (request_reply name (to_reply (ds_CallService service method argsJSON))).
Proof.
  intros r. pose proof (client_cases name (ds_CallService service method argsJSON) r) as Hc.
  cbn zeta in Hc. pose proof (ce_send name (line r)) as Hs.
  pose proof (ds_safe service method argsJSON (far r)) as Hd.
  destruct (c_send name (line r)) as [[[]|e|p] w1]; [|by destruct Hc as [_ ->]|done].
  destruct Hc as [_ Hc]. pose proof (ce_receive name w1) as Hr.
  destruct (ds_CallService service method argsJSON (far r)).1 as [v|e|]; [| |done];
    (destruct (c_receive name w1) as [[[]|e'|] w2]; [destruct Hc as [-> _]|by rewrite Hc|done]).
  - done.
  - by apply seen_no_panic.
Qed.
Definition remote_service_laws : @DatabaseServiceLaws remote_service.
Proof.
  refine {| ds_tables := λ r : @dsvc remote_service, ds_tables (far r) |}.
  - intros. apply remote_safe.
  - intros method text args r e r' Hm E.
    destruct (remote_call method text args r _ _ Hm E) as (_ & Ht & _). by apply Ht.
  - intros text args st r out r' E Hst.
    destruct (remote_call "Exec" text args r _ _ ltac:(set_solver) E) as (Hn & _ & [[Hf [e ->]]|(a & Ea & Ho)]).
    + cbn. right. by rewrite Hf.
    + pose proof (ds_Exec text args st _ _ _ Ea Hst) as Hl. cbn in Hl |- *.
      destruct out as [v|e|]; [|by destruct a; [left|..]|done].
      by rewrite (Ho v eq_refl) in Hl.
  - intros text args q t r out r' E Hq.
    destruct (remote_call "Query" text args r _ _ ltac:(set_solver) E) as (_ & _ & [[Hf [e ->]]|(a & Ea & Ho)]).
    + cbn. by rewrite Hf.
    + destruct (ds_Query text args q t _ _ _ Ea Hq) as [Hs Hl]. split; [done|]. intros j ->. by apply Hl, Ho.
  - intros text args q t r out r' E Hq.
    destruct (remote_call "QueryRow" text args r _ _ ltac:(set_solver) E) as (_ & _ & [[Hf [e ->]]|(a & Ea & Ho)]).
    + cbn. by rewrite Hf.
    + destruct (ds_QueryRow text args q t _ _ _ Ea Hq) as [Hs Hl]. split; [done|]. intros j ->. by apply Hl, Ho.
Defined.
End remote.

(** ** The service as the daemon's registry finds it

    The host's calls to the process of one plugin are the service; a registry
    that has registered this plugin for "database" passes the calls on. *)
Section registered.
Context `{HostSafe} (r0 : ServiceRegistry) (plugin : PluginLoader).
Definition host_service : DatabaseService := {|
  dsvc := host; ds_CallService := h_CallService (pl_client plugin);
|}.
Context (L : @DatabaseServiceLaws host_service).
Context (Hr0 : Services.CallService "database" r0 = Ok plugin).
Definition registered_service : DatabaseService := {|
  dsvc := host;
  ds_CallService service method argsJSON := λ h,
    let '(out, (_, h)) := DaemonServiceImpl_CallService service method argsJSON (r0, h) in (out, h);
|}.
Lemma registered_call method argsJSON h :
  @ds_CallService registered_service "database" method argsJSON h
  = @ds_CallService host_service "database" method argsJSON h.
Proof.
  cbn. unfold DaemonServiceImpl_CallService, ServiceRegistry_CallService. rewrite Hr0.
  by destruct (h_CallService _ _ _ _ h).
Qed.
Definition registered_service_laws : @DatabaseServiceLaws registered_service.
Proof.
  refine (@Build_DatabaseServiceLaws registered_service
    (λ h : @dsvc registered_service, @ds_tables host_service L h) _ _ _ _ _).
  - intros service method j h. cbn. unfold DaemonServiceImpl_CallService, ServiceRegistry_CallService.
    destruct (Services.CallService service r0) as [pl|e|w] eqn:E; [|done|].
    + pose proof (hs_CallService (pl_client pl) service method j h) as Hs.
      by destruct (h_CallService _ _ _ _ h).
    + unfold Services.CallService, ok_or in E. by repeat case_match.
  - intros method text args h e h' Hm E. rewrite registered_call in E.
    by apply (@ds_texts _ L method text args h e h').
  - intros text args st h r h' E. rewrite registered_call in E.
    by apply (@ds_Exec _ L text args st h r h').
  - intros text args q t h r h' E. rewrite registered_call in E.
    by apply (@ds_Query _ L text args q t h r h').
  - intros text args q t h r h' E. rewrite registered_call in E.
    by apply (@ds_QueryRow _ L text args q t h r h').
Defined.
End registered.
