(* ===== verification/FirewallLogs.v ===== *)
(** * FirewallLogs: the firewall's log database and its commands

    plugins/core/firewall/db_operations.go and the parts of rpc_provider.go that
    use it.  The statements are sent as JSON through the daemon to whichever
    plugin provides the database service; what the service promises is the
    interface of [Database], so the theorems hold for the SQLite plugin behind
    any number of RPC connections.  The theorems: the schema is set up once; what
    is logged is stored; the queries return the latest entries, newest first;
    the statistics. *)
From S2P Require Import Prelude GoStr Types Json Value Codec Registry Loader FirewallRules Sql Database.

(** ** db_operations.go *)

Definition create_firewall_logs : string := "CREATE TABLE IF NOT EXISTS firewall_logs (
			id INTEGER PRIMARY KEY AUTOINCREMENT,
			timestamp TEXT NOT NULL,
			action TEXT NOT NULL,
			src_ip TEXT NOT NULL,
			dst_ip TEXT NOT NULL,
			protocol TEXT,
			src_port INTEGER DEFAULT 0,
			dst_port INTEGER DEFAULT 0,
			interface_in TEXT,
			interface_out TEXT,
			packet_length INTEGER DEFAULT 0,
			created_at DATETIME DEFAULT CURRENT_TIMESTAMP
		)".
Definition schema_statements : list string :=
  [create_firewall_logs;
   "CREATE INDEX IF NOT EXISTS idx_firewall_logs_timestamp ON firewall_logs(timestamp)";
   "CREATE INDEX IF NOT EXISTS idx_firewall_logs_action ON firewall_logs(action)";
   "CREATE INDEX IF NOT EXISTS idx_firewall_logs_src_ip ON firewall_logs(src_ip)";
   "CREATE INDEX IF NOT EXISTS idx_firewall_logs_dst_ip ON firewall_logs(dst_ip)";
   "CREATE INDEX IF NOT EXISTS idx_firewall_logs_created_at ON firewall_logs(created_at)"].
Definition insert_text : string :=
  "INSERT INTO firewall_logs (timestamp, action, src_ip, dst_ip, protocol, src_port, dst_port, interface_in, interface_out, packet_length)
	          VALUES (?, ?, ?, ?, ?, ?, ?, ?, ?, ?)".

Record StatsResult := { sr_Total : Z; sr_Accepts : Z; sr_Drops : Z }.
Record LogEntry := {
  lg_Timestamp : string; lg_Action : string; lg_SrcIP : string; lg_DstIP : string;
  lg_Protocol : string; lg_SrcPort : Z; lg_DstPort : Z;
}.
Record FirewallLogQuery := {
  lq_Action : string; lq_SrcIP : string; lq_DstIP : string; lq_Protocol : string;
  lq_InterfaceIn : string; lq_InterfaceOut : string; lq_Limit : Z; lq_Since : string;
}.

(** The replies, decoded into interface values. *)
Record Reply := { rp_Columns : list string; rp_Values : list value; rp_Rows : list (list value) }.
Definition no_reply : Reply := {| rp_Columns := []; rp_Values := []; rp_Rows := [] |}.
Definition dec_values (j : json) : res (list value) :=
  match j with JNull => Ok [] | JArr l => Ok (Unmarshal_any <$> l) | _ => Err type_error end.
Fixpoint dec_value_rows (l : list json) : res (list (list value)) :=
  match l with
  | [] => Ok []
  | j :: l => dec_values j ≫= λ row, dec_value_rows l ≫= λ rows, Ok (row :: rows)
  end.
(** [second]: the other field of the struct, "values" or "rows". *)
Fixpoint dec_reply (second : string) (r : Reply) (kvs : list (string * json)) : res Reply :=
  match kvs with
  | [] => Ok r
  | (k, j) :: kvs =>
      (match find_key ["columns"; second] k with
       | None => Ok r
       | Some t =>
           if bool_decide (t = "columns") then
             dec_slice dec_string "" (rp_Columns r) j ≫= λ c,
             Ok {| rp_Columns := c; rp_Values := rp_Values r; rp_Rows := rp_Rows r |}
           else if bool_decide (second = "values") then
             dec_values j ≫= λ v,
             Ok {| rp_Columns := rp_Columns r; rp_Values := v; rp_Rows := rp_Rows r |}
           else
             (match j with JNull => Ok [] | JArr l => dec_value_rows l | _ => Err type_error end)
             ≫= λ rows, Ok {| rp_Columns := rp_Columns r; rp_Values := rp_Values r; rp_Rows := rows |}
       end) ≫= λ r, dec_reply second r kvs
  end.
Definition Unmarshal_reply (second : string) (j : option json) : res Reply :=
  match j with
  | None => Err (StdError "encoding/json" "unexpected end of JSON input")
  | Some JNull => Ok no_reply
  | Some (JObj kvs) => dec_reply second no_reply kvs
  | Some _ => Err type_error
  end.

Section database.
Context `{DatabaseService} `{FloatToInt}.

Definition as_int64 (v : value) : Z := match v with VNum n => int64_of_float n | _ => 0 end.
(** A row of fewer than seven values is left out. *)
Definition to_entry (row : list value) : option LogEntry :=
  match row with
  | ts :: action :: src :: dst :: proto :: sport :: dport :: _ =>
      Some {| lg_Timestamp := as_str ts; lg_Action := as_str action; lg_SrcIP := as_str src;
              lg_DstIP := as_str dst; lg_Protocol := as_str proto; lg_SrcPort := as_int64 sport;
              lg_DstPort := as_int64 dport |}
  | _ => None
  end.

(** The handler with the service it calls; [db_daemonService]: it is not nil. *)
Record FirewallDatabase := {
  db_daemonService : bool; db_schemaInit : bool; db_svc : dsvc;
}.
Definition NewFirewallDatabase (daemonService : bool) (svc : dsvc) : FirewallDatabase :=
  {| db_daemonService := daemonService; db_schemaInit := false; db_svc := svc |}.
Definition IsInitialized (db : FirewallDatabase) : bool := db_schemaInit db.
Definition set_schemaInit (b : bool) (db : FirewallDatabase) : FirewallDatabase :=
  {| db_daemonService := db_daemonService db; db_schemaInit := b; db_svc := db_svc db |}.
Definition ResetInitialization : M FirewallDatabase () := modify (set_schemaInit false).
(** [db.daemonService.CallService(ctx, "database", method, argsJSON)]. *)
Definition call (method text : string) (args : list value) : M FirewallDatabase (option json) := λ db,
  if db_daemonService db then
    let '(r, s) := ds_CallService "database" method (sql_json text args) (db_svc db) in
    (r, {| db_daemonService := true; db_schemaInit := db_schemaInit db; db_svc := s |})
  else (Panic "invalid memory address or nil pointer dereference", db).

Definition init_statement (istmt : nat * string) : M FirewallDatabase () :=
  wrapM ("failed to create schema (statement " +:+ itoa (Z.of_nat (S istmt.1)) +:+ "): ")
    (call "Exec" istmt.2 []) ≫= λ _, mret ().
Definition InitSchema : M FirewallDatabase () :=
  gets id ≫= λ db,
  if db_schemaInit db then mret ()
  else if negb (db_daemonService db) then fail (ErrorText "daemon service not available")
  else
    for_each (imap pair schema_statements) init_statement ≫= λ _,
    modify (set_schemaInit true).

Definition first_count (reply : Reply) : Z :=
  match rp_Values reply with v :: _ => as_int64 v | [] => 0 end.
Definition count (what unmarshal text : string) (args : list value) : M FirewallDatabase Z :=
  wrapM what (call "QueryRow" text args) ≫= λ result,
  lift (wrap unmarshal (Unmarshal_reply "values" result)) ≫= λ reply, mret (first_count reply).
Definition QueryStats : M FirewallDatabase StatsResult :=
  count "failed to query total logs: " "failed to unmarshal total count: "
    "SELECT COUNT(*) FROM firewall_logs" [] ≫= λ total,
  count "failed to query drops: " "failed to unmarshal drops count: "
    "SELECT COUNT(*) FROM firewall_logs WHERE action = ?" [VStr "DROP"] ≫= λ drops,
  mret {| sr_Total := total; sr_Accepts := wrap64 (total - drops); sr_Drops := drops |}.

Definition select_columns : string :=
  "SELECT timestamp, action, src_ip, dst_ip, protocol, src_port, dst_port FROM firewall_logs".
Definition query_rows (text : string) (args : list value) : M FirewallDatabase (list LogEntry) :=
  wrapM "failed to query logs: " (call "Query" text args) ≫= λ result,
  lift (wrap "failed to unmarshal logs: " (Unmarshal_reply "rows" result)) ≫= λ reply,
  mret (omap to_entry (rp_Rows reply)).
Definition logs_text (limit : Z) : string :=
  select_columns +:+ " ORDER BY id DESC LIMIT " +:+ itoa limit.
Definition QueryLogs (limit : Z) : M FirewallDatabase (list LogEntry) :=
  query_rows (logs_text limit) [].

(** The conditions in the order of the code: column and value. *)
Definition conditions (filter : FirewallLogQuery) : list (string * string) :=
  List.filter (λ c, negb (bool_decide (c.2 = "")))
    [("action", lq_Action filter); ("src_ip", lq_SrcIP filter); ("dst_ip", lq_DstIP filter);
     ("protocol", lq_Protocol filter); ("interface_in", lq_InterfaceIn filter);
     ("interface_out", lq_InterfaceOut filter)].
Definition filtered_text (filter : FirewallLogQuery) : string :=
  select_columns +:+ " WHERE 1=1" +:+
  join "" ((λ c, " AND " +:+ c.1 +:+ " = ?") <$> conditions filter) +:+
  " ORDER BY id DESC" +:+
  " LIMIT " +:+ itoa (if lq_Limit filter =? 0 then 20 else lq_Limit filter).
Definition QueryLogsFiltered (filter : FirewallLogQuery) : M FirewallDatabase (list LogEntry) :=
  query_rows (filtered_text filter) ((λ c, VStr c.2) <$> conditions filter).

Definition insert_args (entry : FirewallLogEntry) : list value :=
  [VStr (le_Timestamp entry); VStr (le_Action entry); VStr (le_SrcIP entry); VStr (le_DstIP entry);
   VStr (le_Protocol entry); VInt (le_SrcPort entry); VInt (le_DstPort entry);
   VStr (le_InterfaceIn entry); VStr (le_InterfaceOut entry); VInt (le_PacketLength entry)].
Definition InsertLog (entry : FirewallLogEntry) : M FirewallDatabase () :=
  wrapM "failed to insert log: " (call "Exec" insert_text (insert_args entry)) ≫= λ _, mret ().
(** Not implemented. *)
Definition CleanupOldLogs (retentionDays : Z) : M FirewallDatabase Z := mret 0.
Definition EnforceMaxEntries (maxEntries : Z) : M FirewallDatabase Z := mret 0.
Definition Vacuum : M FirewallDatabase () := mret ().
(** capture.go; nothing calls it. *)
Definition PerformMaintenance (config : FirewallLoggingConfig) : M FirewallDatabase () :=
  (if 0 <? fl_RetentionDays config then
     wrapM "failed to cleanup old logs: " (CleanupOldLogs (fl_RetentionDays config)) ≫= λ _, mret ()
   else mret ()) ≫= λ _,
  (if 0 <? fl_MaxLogEntries config then
     wrapM "failed to enforce max entries: " (EnforceMaxEntries (fl_MaxLogEntries config)) ≫= λ _, mret ()
   else mret ()) ≫= λ _,
  wrapM "failed to vacuum database: " Vacuum.
End database.

(** ** rpc_provider.go: the commands *)

Definition fw_metadata : MetadataResponse :=
  {| mr_metadata := {| pm_Namespace := "firewall"; pm_Version := "1.0.0";
       pm_Description := "nftables firewall management with optional logging";
       pm_Category := "firewall"; pm_ConfigPath := "/etc/jack/firewall.json";
       pm_DefaultConfig := None; pm_Dependencies := []; pm_PathPrefix := "" |};
     mr_ProvidedServices := []; mr_RequiredServices := [];
     mr_CLICommands := [
       {| cc_Name := "firewall"; cc_Short := "Query firewall logs and statistics";
          cc_Long := "Display firewall logging statistics and recent log entries.";
          cc_Subcommands := ["stats"; "logs"]; cc_Continuous := false; cc_PollInterval := 0 |};
       {| cc_Name := "firewall watch"; cc_Short := "Monitor firewall logs in real-time";
          cc_Long := "Continuously display recent firewall log entries. Optional filters: action=ACCEPT|DROP, src_ip=IP, dst_ip=IP, proto=TCP|UDP|ICMP.";
          cc_Subcommands := []; cc_Continuous := true; cc_PollInterval := 2 |}] |}.

Definition quoted (s : string) : string := String (byte_of 34) (s +:+ String (byte_of 34) "").
Definition not_enabled : string :=
  "Error: Firewall logging not enabled." +:+ nl +:+ nl +:+
  "Action: Set " +:+ quoted "logging.enabled" +:+ ": true in /etc/jack/firewall.json" +:+ nl +:+
  "        Then run 'jack apply'" +:+ nl.
Definition not_available : string :=
  "Error: Firewall logging unavailable." +:+ nl +:+ nl +:+
  "Reason: Database service not ready (sqlite3 plugin may be disabled)" +:+ nl +:+
  "Action: Run 'jack plugin enable sqlite3' and 'jack apply'" +:+ nl +:+ nl +:+
  "Note: If you don't need logging, set " +:+ quoted "logging.enabled" +:+
  ": false in /etc/jack/firewall.json" +:+ nl.
Definition not_initialized : string :=
  "Error: Firewall logging database not initialized." +:+ nl +:+ nl +:+
  "This may indicate a database initialization error." +:+ nl +:+
  "Check daemon logs: journalctl -u jack -n 50" +:+ nl.

Definition log_line (timestamp action src dst proto ports : string) : string :=
  pad_right 20 timestamp +:+ " " +:+ pad_right 8 action +:+ " " +:+ pad_right 15 src +:+ " -> " +:+
  pad_right 15 dst +:+ " " +:+ pad_right 8 proto +:+ " " +:+ ports +:+ nl.
Definition entry_line (e : LogEntry) : string :=
  let ports := if (0 <? lg_SrcPort e) || (0 <? lg_DstPort e)
               then itoa (lg_SrcPort e) +:+ ":" +:+ itoa (lg_DstPort e) else "" in
  log_line (lg_Timestamp e) (lg_Action e) (lg_SrcIP e) (lg_DstIP e) (lg_Protocol e) ports.
Definition log_table_text (logs : list LogEntry) : string :=
  log_line "TIMESTAMP" "ACTION" "SRC_IP" "DST_IP" "PROTO" "PORTS" +:+
  repeat_byte 100 hyphen +:+ nl +:+ join "" (entry_line <$> logs).

(** [strings.SplitN(arg, "=", 2)], when there are two parts. *)
Definition key_value (arg : string) : option (string * string) :=
  (λ i, (take_str i arg, drop_str (S i) arg)) <$> index_of "=" arg.
Definition watch_filter (f : FirewallLogQuery) (arg : string) : FirewallLogQuery :=
  match key_value arg with
  | Some ("action", value) =>
      {| lq_Action := value; lq_SrcIP := lq_SrcIP f; lq_DstIP := lq_DstIP f;
         lq_Protocol := lq_Protocol f; lq_InterfaceIn := lq_InterfaceIn f;
         lq_InterfaceOut := lq_InterfaceOut f; lq_Limit := lq_Limit f; lq_Since := lq_Since f |}
  | Some ("src_ip", value) =>
      {| lq_Action := lq_Action f; lq_SrcIP := value; lq_DstIP := lq_DstIP f;
         lq_Protocol := lq_Protocol f; lq_InterfaceIn := lq_InterfaceIn f;
         lq_InterfaceOut := lq_InterfaceOut f; lq_Limit := lq_Limit f; lq_Since := lq_Since f |}
  | Some ("dst_ip", value) =>
      {| lq_Action := lq_Action f; lq_SrcIP := lq_SrcIP f; lq_DstIP := value;
         lq_Protocol := lq_Protocol f; lq_InterfaceIn := lq_InterfaceIn f;
         lq_InterfaceOut := lq_InterfaceOut f; lq_Limit := lq_Limit f; lq_Since := lq_Since f |}
  | Some ("proto", value) =>
      {| lq_Action := lq_Action f; lq_SrcIP := lq_SrcIP f; lq_DstIP := lq_DstIP f;
         lq_Protocol := value; lq_InterfaceIn := lq_InterfaceIn f;
         lq_InterfaceOut := lq_InterfaceOut f; lq_Limit := lq_Limit f; lq_Since := lq_Since f |}
  | _ => f
  end.
Definition no_filter : FirewallLogQuery :=
  {| lq_Action := ""; lq_SrcIP := ""; lq_DstIP := ""; lq_Protocol := ""; lq_InterfaceIn := "";
     lq_InterfaceOut := ""; lq_Limit := 20; lq_Since := "" |}.

Section commands.
Context `{DatabaseService} `{FloatToInt}.
(** The fields of the provider that the commands use; [lp_db]: the database
    handler, which is only made for a daemon service that is not nil, and
    whether its schema was initialised. *)
Record LogsProvider := {
  lp_config : option FirewallConfig; lp_daemonService : bool; lp_db : option bool; lp_svc : dsvc;
}.
Definition on_db {A} (m : M FirewallDatabase A) : M LogsProvider A := λ p,
  match lp_db p with
  | Some init =>
      let '(r, db) := m {| db_daemonService := true; db_schemaInit := init; db_svc := lp_svc p |} in
      (r, {| lp_config := lp_config p; lp_daemonService := lp_daemonService p;
             lp_db := Some (db_schemaInit db); lp_svc := db_svc db |})
  | None => (Panic "invalid memory address or nil pointer dereference", p)
  end.
Definition SetDaemonService (daemon : bool) : M LogsProvider () := modify (λ p,
  {| lp_config := lp_config p; lp_daemonService := daemon;
     lp_db := if daemon then Some false else lp_db p; lp_svc := lp_svc p |}).
Definition loggingEnabled (p : LogsProvider) : bool :=
  match lp_config p with Some c => fl_Enabled (fc_Logging c) | None => false end.
(** [waited]: what WaitForService returned. *)
Definition ensureSchemaInitialized (waited : res ()) : M LogsProvider () :=
  gets lp_db ≫= λ db,
  match db with
  | None => fail (ErrorText "database not initialized")
  | Some true => mret ()
  | Some false => lift (wrap "database service not ready: " waited) ≫= λ _, on_db InitSchema
  end.
Definition provider_InsertLog (entry : FirewallLogEntry) : M LogsProvider () :=
  gets lp_db ≫= λ db,
  match db with
  | None => fail (ErrorText "database not initialized")
  | Some _ => on_db (InsertLog entry)
  end.

Definition executeStats : M FirewallDatabase string :=
  wrapM "failed to query stats: " QueryStats ≫= λ stats,
  mret ("Firewall Statistics:" +:+ nl +:+ "  Total Logs:   " +:+ itoa (sr_Total stats) +:+ nl +:+
        "  Accepts:      " +:+ itoa (sr_Accepts stats) +:+ nl +:+
        "  Drops:        " +:+ itoa (sr_Drops stats) +:+ nl).
Definition executeLogs : M FirewallDatabase string :=
  wrapM "failed to query logs: " (QueryLogs 100) ≫= λ logs,
  mret match logs with
       | [] => "No firewall logs found." +:+ nl
       | _ => "Recent Firewall Logs (" +:+ itoa (Z.of_nat (length logs)) +:+ " entries):" +:+ nl +:+
              nl +:+ log_table_text logs
       end.
(** [now]: the time of day. *)
Definition executeWatch (now : string) (args : list string) : M FirewallDatabase string :=
  let filter := foldl watch_filter no_filter args in
  wrapM "failed to query logs: " (QueryLogsFiltered filter) ≫= λ logs,
  let title := "Firewall Logs (Last " +:+ itoa (lq_Limit filter) +:+ " entries) - " +:+ now +:+ nl
                 +:+ nl in
  mret match logs with
       | [] => title +:+ "No logs matching filters." +:+ nl
       | _ => title +:+ log_table_text logs
       end.
(** [databaseReady]: the daemon says that the database service is ready. *)
Definition ExecuteCLICommand (databaseReady : bool) (now command : string) (args : list string)
    : M LogsProvider string :=
  gets id ≫= λ p,
  match lp_db p with
  | Some true =>
      match fields command with
      | _ :: subcommand :: _ =>
          if bool_decide (subcommand = "stats") then on_db executeStats
          else if bool_decide (subcommand = "logs") then on_db executeLogs
          else if bool_decide (subcommand = "watch") then on_db (executeWatch now args)
          else fail (ErrorText ("unknown subcommand: " +:+ subcommand))
      | _ => fail (ErrorText "invalid command format")
      end
  | _ =>
      mret (if negb (loggingEnabled p) then not_enabled
            else if negb (lp_daemonService p && databaseReady) then not_available
            else not_initialized)
  end.
End commands.

(** ** The statements, as the service reads them *)

Definition fw_columns : list (string * coltype) :=
  [("id", TInteger); ("timestamp", TText); ("action", TText); ("src_ip", TText); ("dst_ip", TText);
   ("protocol", TText); ("src_port", TInteger); ("dst_port", TInteger); ("interface_in", TText);
   ("interface_out", TText); ("packet_length", TInteger); ("created_at", TOther)].
Lemma parse_schema :
  parse_sql create_firewall_logs = Some (SCreateTable "firewall_logs" fw_columns) ∧
  Forall (λ stmt, parse_sql stmt = Some SKeep) (tail schema_statements).
Proof. split; [reflexivity|]. repeat constructor. Qed.
Definition insert_columns : list string :=
  ["timestamp"; "action"; "src_ip"; "dst_ip"; "protocol"; "src_port"; "dst_port"; "interface_in";
   "interface_out"; "packet_length"].
Lemma parse_insert_text : parse_sql insert_text = Some (SInsert "firewall_logs" insert_columns).
Proof. reflexivity. Qed.
Definition read_columns : list string :=
  ["timestamp"; "action"; "src_ip"; "dst_ip"; "protocol"; "src_port"; "dst_port"].
Definition fw_select (conds : list cond) (limit : Z) : select :=
  {| se_cols := read_columns; se_table := "firewall_logs"; se_where := conds;
     se_order := Some "id"; se_limit := Some (LNum limit) |}.

(** A text whose last word is a number. *)
Lemma parse_last_number (ws : list string) limit text st :
  text = join " " (ws ++ [itoa limit]) → Forall word ws → in_int64 limit = true →
  (∀ w, w ≠ "?" → atoi w = Ok limit →
     match ws ++ [w] with
     | "SELECT" :: rest => parse_select rest = Some st
     | _ => False
     end) →
  parse_sql text = Some st.
Proof.
  intros -> Hws Hl Hp. unfold parse_sql. rewrite (fields_join (byte_of 32)).
  - assert (atoi (itoa limit) = Ok limit) as Ha by by rewrite atoi_itoa_eq, Hl.
    assert (itoa limit ≠ "?") as Hq by by intros Heq; rewrite Heq in Ha.
    specialize (Hp _ Hq Ha). destruct (ws ++ [itoa limit]) as [|w l]; [done|].
    destruct (decide (w = "SELECT")) as [->|Hne]; [done|].
    repeat (case_match; try done); congruence.
  - done.
  - apply Forall_app. split; [done|]. by apply Forall_singleton, itoa_word.
Qed.
Lemma word_list_dec (ws : list string) :
  forallb (λ w, negb (String.eqb w "") && all_graphic w) ws = true → Forall word ws.
Proof.
  intros Hf. rewrite forallb_forall in Hf. apply Forall_forall. intros w Hw%list_elem_of_In%Hf.
  apply andb_true_iff in Hw as [Hne Hg]. split; [|done]. intros ->. done.
Qed.
Lemma parse_logs_text limit : in_int64 limit = true →
  parse_sql (logs_text limit) = Some (SSelect (fw_select [] limit)).
Proof.
  intros Hl. apply (parse_last_number ["SELECT"; "timestamp,"; "action,"; "src_ip,"; "dst_ip,";
    "protocol,"; "src_port,"; "dst_port"; "FROM"; "firewall_logs"; "ORDER"; "BY"; "id"; "DESC";
    "LIMIT"] limit); [|by apply word_list_dec|done|].
  - unfold logs_text. generalize (itoa limit). reflexivity.
  - intros w Hq Ha. cbn. unfold parse_limit. rewrite (proj2 (String.eqb_neq w "?") Hq), Ha. done.
Qed.

(** The columns of the conditions, by which of the six filters are set. *)
Definition filter_columns : list string :=
  ["action"; "src_ip"; "dst_ip"; "protocol"; "interface_in"; "interface_out"].
Definition pick (bs : list bool) : list string :=
  snd <$> List.filter fst (zip bs filter_columns).
Definition picked_words (bs : list bool) : list string :=
  ["SELECT"; "timestamp,"; "action,"; "src_ip,"; "dst_ip,"; "protocol,"; "src_port,"; "dst_port";
   "FROM"; "firewall_logs"; "WHERE"; "1=1"] ++ (pick bs ≫= λ c, ["AND"; c; "="; "?"]) ++
  ["ORDER"; "BY"; "id"; "DESC"; "LIMIT"].
Definition picked_text (bs : list bool) (limit : string) : string :=
  select_columns +:+ " WHERE 1=1" +:+
  join "" ((λ c, " AND " +:+ c +:+ " = ?") <$> pick bs) +:+ " ORDER BY id DESC" +:+
  " LIMIT " +:+ limit.
(** Every combination of six flags. *)
Fixpoint all_flags (n : nat) : list (list bool) :=
  match n with
  | O => [[]]
  | S n => l ← all_flags n; [true :: l; false :: l]
  end.
Lemma all_flags_elem l : l ∈ all_flags (length l).
Proof.
  induction l as [|b l IH]; [by left|]. cbn. apply list_elem_of_bind. exists l.
  split; [|done]. destruct b; set_solver.
Qed.
Lemma flags_forall (P : list bool → Prop) bs :
  length bs = 6%nat → Forall P (all_flags 6) → P bs.
Proof.
  intros Hn Hf. rewrite Forall_forall in Hf. apply Hf. rewrite <-Hn. apply all_flags_elem.
Qed.
Lemma parse_picked bs limit : length bs = 6%nat → in_int64 limit = true →
  parse_sql (picked_text bs (itoa limit))
  = Some (SSelect (fw_select (CTrue :: (CEq <$> pick bs)) limit)).
Proof.
  intros Hn Hl. apply (parse_last_number (picked_words bs) limit); [| |done|].
  - generalize (itoa limit). intros w. pattern bs. apply flags_forall; [done|].
    repeat (constructor; [done|]). constructor.
  - apply word_list_dec. pattern bs. apply flags_forall; [done|].
    repeat (constructor; [done|]). constructor.
  - intros w Hq Ha. pattern bs. apply flags_forall; [done|].
    repeat (constructor; [cbn; unfold parse_limit;
      by rewrite (proj2 (String.eqb_neq w "?") Hq), Ha|]). constructor.
Qed.
Definition set_filters (f : FirewallLogQuery) : list bool :=
  (λ s, negb (bool_decide (s = ""))) <$>
    [lq_Action f; lq_SrcIP f; lq_DstIP f; lq_Protocol f; lq_InterfaceIn f; lq_InterfaceOut f].
Lemma conditions_pick f : (conditions f).*1 = pick (set_filters f).
Proof.
  unfold conditions, pick, set_filters. cbn.
  by repeat (destruct (bool_decide (_ = "")); cbn).
Qed.
Definition query_limit (f : FirewallLogQuery) : Z := if lq_Limit f =? 0 then 20 else lq_Limit f.
Lemma parse_filtered f : in_int64 (query_limit f) = true →
  parse_sql (filtered_text f)
  = Some (SSelect (fw_select (CTrue :: (CEq <$> (conditions f).*1)) (query_limit f))).
Proof.
  intros Hl. rewrite conditions_pick, <-(parse_picked (set_filters f)) by done.
  unfold filtered_text, picked_text. rewrite <-conditions_pick, <-list_fmap_compose. reflexivity.
Qed.

(** ** The table of packets *)

(** What a float64 holds exactly: ports and lengths are far below. *)
Definition small (z : Z) : Prop := 0 ≤ z < 2 ^ 53.
Definition text_columns : list string :=
  ["timestamp"; "action"; "src_ip"; "dst_ip"; "protocol"; "interface_in"; "interface_out"].
Definition fw_row (r : row) : Prop :=
  (∃ id, r !! "id" = Some (VInt id)) ∧
  Forall (λ c, ∃ s, r !! c = Some (VStr s)) text_columns ∧
  Forall (λ c, ∃ z, r !! c = Some (VInt z) ∧ small z) ["src_port"; "dst_port"].
Definition older (a b : row) : Prop := row_id a < row_id b.
Definition fw_table (t : table) : Prop :=
  tb_cols t = fw_columns ∧ Forall fw_row (tb_rows t) ∧ StronglySorted older (tb_rows t).
Definition log_of (r : row) : LogEntry :=
  {| lg_Timestamp := as_str (cell r "timestamp"); lg_Action := as_str (cell r "action");
     lg_SrcIP := as_str (cell r "src_ip"); lg_DstIP := as_str (cell r "dst_ip");
     lg_Protocol := as_str (cell r "protocol"); lg_SrcPort := as_int (cell r "src_port");
     lg_DstPort := as_int (cell r "dst_port") |}.
Definition logs_of (t : table) : list LogEntry := log_of <$> tb_rows t.
(** The entry of a captured packet, and its row. *)
Definition log_entry (e : FirewallLogEntry) : LogEntry :=
  {| lg_Timestamp := le_Timestamp e; lg_Action := le_Action e; lg_SrcIP := le_SrcIP e;
     lg_DstIP := le_DstIP e; lg_Protocol := le_Protocol e; lg_SrcPort := le_SrcPort e;
     lg_DstPort := le_DstPort e |}.
Definition small_entry (e : FirewallLogEntry) : Prop :=
  small (le_SrcPort e) ∧ small (le_DstPort e) ∧ small (le_PacketLength e).

Lemma sent_small z : small z → sent (VInt z) = VNum (NInt z).
Proof.
  intros Hz. unfold sent. cbn. unfold round53. unfold small in Hz.
  destruct (Z.ltb_spec (Z.abs z) (2 ^ 53)); [done|lia].
Qed.
Lemma small_int64 z : small z → in_int64 z = true.
Proof.
  unfold small, in_int64, min_int64, max_int64. intros Hz. apply andb_true_iff.
  rewrite !Z.leb_le. lia.
Qed.
Lemma store_small z : small z → store TInteger (VNum (NInt z)) = Some (VInt z).
Proof. intros Hz. cbn. by rewrite small_int64. Qed.

Lemma sent_insert_args e : small_entry e →
  sent <$> insert_args e =
  [VStr (le_Timestamp e); VStr (le_Action e); VStr (le_SrcIP e); VStr (le_DstIP e);
   VStr (le_Protocol e); VNum (NInt (le_SrcPort e)); VNum (NInt (le_DstPort e));
   VStr (le_InterfaceIn e); VStr (le_InterfaceOut e); VNum (NInt (le_PacketLength e))].
Proof.
  intros (H1 & H2 & H3). unfold insert_args. rewrite !fmap_cons, !sent_small by done. reflexivity.
Qed.
Lemma storable_packet t e : fw_table t → small_entry e →
  storable t insert_columns (sent <$> insert_args e).
Proof.
  intros (Hcols & Hrows & _) He. pose proof He as (H1 & H2 & H3). rewrite sent_insert_args by done.
  unfold storable. split_and!.
  - refine (bool_decide_unpack _ _). vm_compute. exact I.
  - refine (bool_decide_unpack _ _). vm_compute. exact I.
  - unfold col_type. by rewrite Hcols.
  - intros r Hr. rewrite Forall_forall in Hrows. by destruct (Hrows r Hr).
  - unfold insert_columns, col_type. rewrite Hcols.
    repeat constructor; eexists _, _; (split; [reflexivity|]);
      first [reflexivity|by apply store_small].
Qed.
Lemma new_packet_row t r e : fw_table t → small_entry e →
  new_row t insert_columns (sent <$> insert_args e) r →
  fw_table {| tb_cols := tb_cols t; tb_rows := tb_rows t ++ [r] |} ∧ log_of r = log_entry e.
Proof.
  intros (Hcols & Hrows & Hsorted) He [(id & Hid & Hlt) Hf]. pose proof He as (S1 & S2 & S3).
  rewrite sent_insert_args in Hf by done. unfold insert_columns in Hf.
  rewrite !Forall2_cons in Hf. unfold col_type in Hf. rewrite Hcols in Hf. cbn -[store] in Hf.
  destruct Hf as ((? & ? & [= <-] & E1 & H1) & (? & ? & [= <-] & E2 & H2) &
    (? & ? & [= <-] & E3 & H3) & (? & ? & [= <-] & E4 & H4) & (? & ? & [= <-] & E5 & H5) &
    (? & ? & [= <-] & E6 & H6) & (? & ? & [= <-] & E7 & H7) & (? & ? & [= <-] & E8 & H8) &
    (? & ? & [= <-] & E9 & H9) & (? & ? & [= <-] & E10 & H10) & _).
  rewrite store_small in E6, E7 by done. injection E1 as <-. injection E2 as <-.
  injection E3 as <-. injection E4 as <-. injection E5 as <-. injection E6 as <-.
  injection E7 as <-. injection E8 as <-. injection E9 as <-.
  split; [split; [done|split]|].
  - apply Forall_app. split; [done|]. apply Forall_singleton. split; [by exists id|].
    unfold text_columns. rewrite !Forall_cons, !Forall_nil.
    split_and!; first [done|eexists; done|eexists; split; done].
  - apply StronglySorted_app. split_and!; [|done|by repeat constructor].
    intros a b Ha ->%list_elem_of_singleton. destruct (Hlt a Ha) as (id' & Ha' & Hl).
    unfold older, row_id. by rewrite Ha', Hid.
  - unfold log_of, log_entry, cell. by rewrite H1, H2, H3, H4, H5, H6, H7.
Qed.

(** ** The replies *)

Lemma dec_columns cols old : dec_slice dec_string "" old (JArr (JStr <$> cols)) = Ok cols.
Proof.
  unfold dec_slice. revert old. induction cols as [|c cols IH]; intros old; [done|].
  rewrite fmap_cons. cbn [dec_list dec_string]. by rewrite IH.
Qed.
Lemma dec_rows rows : dec_value_rows (Marshal <$> (VArr <$> rows)) = Ok (fmap (M:=list) sent <$> rows).
Proof.
  induction rows as [|row rows IH]; [done|]. rewrite !fmap_cons. cbn [dec_value_rows].
  change (Marshal (VArr row)) with (JArr (Marshal <$> row)). cbn [dec_values].
  rewrite IH. cbn [mbind res_bind]. by rewrite <-list_fmap_compose.
Qed.
Lemma Unmarshal_rows cols rows :
  Unmarshal_reply "rows" (Some (rows_json cols rows))
  = Ok {| rp_Columns := cols; rp_Values := []; rp_Rows := fmap (M:=list) sent <$> rows |}.
Proof.
  change (rows_json cols rows) with
    (JObj [("columns", JArr (JStr <$> cols)); ("rows", Marshal (Sqlite.enc_rows rows))]).
  unfold Unmarshal_reply. cbn -[dec_slice Sqlite.enc_rows Marshal]. rewrite dec_columns.
  cbn -[Sqlite.enc_rows Marshal]. destruct rows as [|row rows]; [done|].
  change (Marshal (Sqlite.enc_rows (row :: rows)))
    with (JArr (Marshal <$> (VArr <$> (row :: rows)))).
  cbn -[dec_value_rows fmap]. by rewrite dec_rows.
Qed.
Lemma Unmarshal_values cols values :
  Unmarshal_reply "values" (Some (row_json cols values))
  = Ok {| rp_Columns := cols; rp_Values := sent <$> default [] values; rp_Rows := [] |}.
Proof.
  change (row_json cols values) with
    (JObj [("columns", JArr (JStr <$> cols));
           ("values", Marshal match values with Some l => VArr l | None => VNil end)]).
  unfold Unmarshal_reply. cbn -[dec_slice Marshal]. rewrite dec_columns. cbn -[Marshal].
  destruct values as [l|]; [|done]. change (Marshal (VArr l)) with (JArr (Marshal <$> l)).
  cbn. unfold sent. by rewrite <-list_fmap_compose.
Qed.

(** ** The latest rows *)

Lemma older_filter f (l : list row) : StronglySorted older l → StronglySorted older (List.filter f l).
Proof.
  induction 1 as [|r l Hs IH Hf]; [constructor|]. cbn. destruct (f r); [|done].
  constructor; [done|]. rewrite Forall_forall in *. intros r' Hr'. apply Hf.
  apply list_elem_of_In, filter_In in Hr' as [Hr' _]. by apply list_elem_of_In.
Qed.
Definition has_id (r : row) : Prop := ∃ id, r !! "id" = Some (VInt id).
Lemma descending_ids a b : has_id a → has_id b → descending "id" a b ↔ row_id b ≤ row_id a.
Proof.
  intros [x Ha] [y Hb]. unfold descending, cell, row_id. rewrite Ha, Hb. cbn. apply Z.leb_le.
Qed.
Lemma older_reverse l : Forall has_id l → StronglySorted older l →
  StronglySorted (descending "id") (reverse l).
Proof.
  intros Hids. induction 1 as [|r l Hs IH Hf]; [constructor|].
  apply Forall_cons in Hids as [Hr Hids]. rewrite reverse_cons. apply StronglySorted_app.
  split_and!; [|by apply IH|by repeat constructor].
  intros a b Ha ->%list_elem_of_singleton. rewrite elem_of_reverse in Ha.
  rewrite Forall_forall in Hids, Hf. apply descending_ids; [by apply Hids|done|].
  specialize (Hf a Ha). unfold older in Hf. lia.
Qed.
(** Rows with increasing ids can be put in descending order in one way only. *)
Lemma descending_unique l sorted : Forall has_id l → StronglySorted older l →
  sorted ≡ₚ l → StronglySorted (descending "id") sorted → sorted = reverse l.
Proof.
  intros Hids Hl Hp Hs. apply (StronglySorted_unique_strong (descending "id")); [|done| |].
  - intros a b Ha Hb Hab Hba. rewrite Hp in Ha. rewrite elem_of_reverse in Hb.
    pose proof Hids as Hids'. rewrite Forall_forall in Hids'.
    apply descending_ids in Hab; [|auto..]. apply descending_ids in Hba; [|auto..].
    assert (row_id a = row_id b) as Heq by lia. clear -Hl Ha Hb Heq.
    induction Hl as [|r l Hl IH Hf]; [by apply not_elem_of_nil in Ha|].
    rewrite Forall_forall in Hf. apply elem_of_cons in Ha, Hb.
    destruct Ha as [->|Ha], Hb as [->|Hb]; [done| | |auto].
    + specialize (Hf b Hb). unfold older in Hf. lia.
    + specialize (Hf a Ha). unfold older in Hf. lia.
  - by apply older_reverse.
  - by rewrite reverse_Permutation.
Qed.
Lemma fw_row_id r : fw_row r → has_id r.
Proof. by intros [? _]. Qed.

Section lemmas.
Context `{DatabaseServiceLaws} `{FloatToInt}.

Lemma to_entry_row r : fw_row r → to_entry (sent <$> (cell r <$> read_columns)) = Some (log_of r).
Proof.
  intros (_ & Ht & Hi). unfold text_columns in Ht. rewrite !Forall_cons in Ht. rewrite !Forall_cons in Hi.
  destruct Ht as ([ts E1] & [ac E2] & [si E3] & [di E4] & [pr E5] & _).
  destruct Hi as ((sp & E6 & S6) & (dp & E7 & S7) & _).
  unfold read_columns, log_of, cell. rewrite !fmap_cons, fmap_nil.
  rewrite E1, E2, E3, E4, E5, E6, E7. cbn [default]. unfold default, from_option, id.
  rewrite !sent_small by done. cbn -[int64_of_float]. unfold int64_of_float.
  by rewrite !small_int64.
Qed.
Lemma to_entry_rows rs : Forall fw_row rs →
  omap to_entry (fmap (M:=list) sent <$> ((λ r, cell r <$> read_columns) <$> rs)) = log_of <$> rs.
Proof.
  induction 1 as [|r rs Hr _ IH]; [done|]. rewrite !fmap_cons. cbn [omap list_omap].
  rewrite to_entry_row by done. by rewrite IH.
Qed.
Lemma take_limit_fmap {A B} (f : A → B) n l : take_limit n (f <$> l) = f <$> take_limit n l.
Proof. unfold take_limit. destruct n as [n|]; [|done]. destruct (n <? 0); [done|]. by rewrite fmap_take. Qed.
Lemma take_limit_rows n (rs : list row) : Forall fw_row rs → Forall fw_row (take_limit n rs).
Proof.
  intros Hr. unfold take_limit. destruct n as [n|]; [|done]. destruct (n <? 0); [done|].
  by apply Forall_take.
Qed.

Definition tables_of (db : FirewallDatabase) : option (gmap string table) := ds_tables (db_svc db).
Definition same_flags (db db' : FirewallDatabase) : Prop :=
  db_daemonService db' = db_daemonService db ∧ db_schemaInit db' = db_schemaInit db.

(** One statement through the service. *)
Lemma call_exec text st args db : db_daemonService db = true → parse_sql text = Some st →
  let executed (db' : FirewallDatabase) := ∃ ts ts', tables_of db = Some ts ∧
    tables_of db' = Some ts' ∧ exec_effect st (sent <$> args) ts ts' in
  wp (call "Exec" text args) db (λ _ db', same_flags db db' ∧ executed db')
    (λ db', same_flags db db' ∧ (executed db' ∨ tables_of db' = tables_of db)).
Proof.
  intros Hd Hst. cbv zeta. unfold wp, call. rewrite Hd.
  destruct (ds_CallService _ _ _ _) as [r s'] eqn:E.
  pose proof (ds_safe "database" "Exec" (sql_json text args) (db_svc db)) as Hs. rewrite E in Hs.
  pose proof (ds_Exec _ _ _ _ _ _ E Hst) as Hx. cbv zeta in Hx.
  by destruct r as [j|e|]; [split|split|].
Qed.
(** A query that reads rows of the table, in descending order of the ids. *)
Lemma query_latest text conds limit args t db :
  db_daemonService db = true → parse_sql text = Some (SSelect (fw_select conds limit)) →
  tables_of db ≫= (λ ts, ts !! "firewall_logs") = Some t → fw_table t →
  plain_args (fw_select conds limit) (sent <$> args) t →
  wp (query_rows text args) db
    (λ entries db', same_flags db db' ∧ tables_of db' = tables_of db ∧
       entries = take_limit (Some limit)
         (log_of <$> reverse (List.filter (λ r, holds r conds (sent <$> args)) (tb_rows t))))
    (λ db', same_flags db db' ∧ tables_of db' = tables_of db).
Proof.
  intros Hd Hp Ht (Hcols & Hrows & Hsorted) Hplain. unfold query_rows. apply wp_bind, wp_wrapM.
  unfold wp at 1, call. rewrite Hd. destruct (ds_CallService _ _ _ _) as [r s'] eqn:E.
  pose proof (ds_safe "database" "Query" (sql_json text args) (db_svc db)) as Hs. rewrite E in Hs.
  pose proof (ds_Query _ _ _ t _ _ _ E Hp) as [Hts Hq].
  destruct r as [j|e|]; [|done|done]. destruct (Hq j eq_refl) as (ts & Hts' & Hans).
  unfold tables_of in Ht. rewrite Hts' in Ht. destruct (Hans Ht Hplain) as (rows & -> & Hsel).
  apply wp_bind, wp_lift. rewrite Unmarshal_rows. cbn [wrap]. apply wp_ret.
  split; [done|]. split; [done|]. cbn [rp_Rows].
  unfold selects in Hsel. rewrite bool_decide_eq_false_2 in Hsel by done.
  destruct Hsel as (sorted & Hperm & Hord & ->). cbn [se_cols fw_select].
  assert (Forall fw_row (matching (fw_select conds limit) (sent <$> args) t)) as Hm.
  { unfold matching. rewrite Forall_forall in *. intros r Hr. apply Hrows.
    by apply list_elem_of_In, filter_In, proj1, list_elem_of_In in Hr. }
  rewrite (descending_unique _ _ (Forall_impl _ _ _ Hm fw_row_id)
    (older_filter _ _ Hsorted) Hperm Hord).
  rewrite !take_limit_fmap. rewrite to_entry_rows; [done|].
  by apply take_limit_rows, Forall_reverse.
Qed.
End lemmas.

(** ** Properties *)

Section lemmas2.
Context `{DatabaseServiceLaws} `{FloatToInt}.

(** The handler is connected, and its table is as the plugin keeps it. *)
Definition logging (db : FirewallDatabase) (t : table) : Prop :=
  db_daemonService db = true ∧ tables_of db ≫= (λ ts, ts !! "firewall_logs") = Some t ∧ fw_table t.

Lemma InsertLog_stores e t db : logging db t → small_entry e →
  let stored (db' : FirewallDatabase) :=
    ∃ t', logging db' t' ∧ logs_of t' = logs_of t ++ [log_entry e] in
  wp (InsertLog e) db (λ _ db', same_flags db db' ∧ stored db')
    (λ db', same_flags db db' ∧ (stored db' ∨ logging db' t)).
Proof.
  intros (Hd & Ht & Hfw) He. cbv zeta. unfold InsertLog. apply wp_bind, wp_wrapM.
  assert (∀ db', same_flags db db' → (∃ ts ts', tables_of db = Some ts ∧ tables_of db' = Some ts' ∧
      exec_effect (SInsert "firewall_logs" insert_columns) (sent <$> insert_args e) ts ts') →
    ∃ t', logging db' t' ∧ logs_of t' = logs_of t ++ [log_entry e]) as Hstored.
  { intros db' [Hd' _] (ts & ts' & Hts & Hts' & Hx). rewrite Hts in Ht. cbn in Ht.
    destruct (Hx t Ht (storable_packet t e Hfw He)) as (r & Hnew & ->).
    destruct (new_packet_row t r e Hfw He Hnew) as [Hfw' Hlog].
    eexists. split.
    - split; [congruence|]. split; [|exact Hfw']. rewrite Hts'. cbn. apply lookup_insert_eq.
    - unfold logs_of. cbn [tb_rows]. by rewrite fmap_app, <-Hlog. }
  eapply wp_mono; [by apply call_exec; [|apply parse_insert_text]| |]; cbn beta.
  - intros j db' [Hf Hx]. apply wp_ret. split; [done|]. by apply Hstored.
  - intros db' [Hf [Hx|Hsame]]; (split; [done|]); [left; by apply Hstored|right].
    destruct Hf as [Hd' _]. unfold logging. rewrite Hsame. split; [congruence|done].
Qed.
Lemma no_conditions t : List.filter (λ r, holds r [] (sent <$> [])) (tb_rows t) = tb_rows t.
Proof.
  change (List.filter (λ _ : row, true) (tb_rows t) = tb_rows t).
  induction (tb_rows t) as [|r l IH]; [done|]. cbn. by rewrite IH.
Qed.
Lemma QueryLogs_latest limit t db : logging db t → in_int64 limit = true →
  wp (QueryLogs limit) db
    (λ entries db', same_flags db db' ∧ tables_of db' = tables_of db ∧
       entries = take_limit (Some limit) (reverse (logs_of t)))
    (λ db', same_flags db db' ∧ tables_of db' = tables_of db).
Proof.
  intros (Hd & Ht & Hfw) Hl.
  eapply wp_mono; [apply (query_latest _ [] limit [] t)| |done]; [done|by apply parse_logs_text|done..| |].
  - constructor.
  - cbn beta. intros entries db' (Hf & Hs & ->). split_and!; [done..|].
    rewrite no_conditions. unfold logs_of. by rewrite fmap_reverse.
Qed.

(** The conditions of a filter, on a row. *)
Definition fw_matches (f : FirewallLogQuery) (r : row) : bool :=
  forallb (λ c, bool_decide (cell r c.1 = VStr c.2)) (conditions f).
Lemma holds_conditions r (cs : list (string * string)) :
  holds r (CTrue :: (CEq <$> cs.*1)) (sent <$> ((λ c, VStr c.2) <$> cs))
  = forallb (λ c, bool_decide (cell r c.1 = VStr c.2)) cs.
Proof.
  cbn [holds]. induction cs as [|c cs IH]; [done|]. rewrite !fmap_cons. cbn [holds forallb].
  change (sent (VStr c.2)) with (VStr c.2). rewrite IH.
  by rewrite (bool_decide_eq_false_2 (VStr c.2 = VNil)), andb_true_r.
Qed.
Lemma plain_conditions f limit t : tb_cols t = fw_columns →
  plain_args (fw_select (CTrue :: (CEq <$> (conditions f).*1)) limit)
    (sent <$> ((λ c, VStr c.2) <$> conditions f)) t.
Proof.
  intros Hcols. unfold plain_args. cbn [se_where fw_select List.filter].
  assert (Forall (λ c, col_type t c.1 = Some TText) (conditions f)) as Hc.
  { unfold conditions, col_type. rewrite Hcols. apply Forall_forall. intros c Hc.
    apply list_elem_of_In, filter_In, proj1 in Hc. cbn in Hc.
    by destruct Hc as [<-|[<-|[<-|[<-|[<-|[<-|[]]]]]]]. }
  induction Hc as [|c cs Hc _ IH]; [constructor|]. rewrite !fmap_cons. cbn [List.filter zip zip_with].
  constructor; [|done]. split; [done|]. by eexists.
Qed.
Lemma QueryLogsFiltered_latest f t db : logging db t → in_int64 (query_limit f) = true →
  wp (QueryLogsFiltered f) db
    (λ entries db', same_flags db db' ∧ tables_of db' = tables_of db ∧
       entries = take_limit (Some (query_limit f))
         (reverse (log_of <$> List.filter (fw_matches f) (tb_rows t))))
    (λ db', same_flags db db' ∧ tables_of db' = tables_of db).
Proof.
  intros (Hd & Ht & Hfw) Hl.
  eapply wp_mono; [apply (query_latest _ (CTrue :: (CEq <$> (conditions f).*1)) (query_limit f) _ t)| |done];
    [done|by apply parse_filtered|done..| |].
  - apply plain_conditions, Hfw.
  - cbn beta. intros entries db' (Hf & Hs & ->). split_and!; [done..|].
    rewrite <-fmap_reverse. do 3 f_equal.
    clear. induction (tb_rows t) as [|r l IH]; [done|]. cbn [List.filter].
    rewrite holds_conditions, IH. done.
Qed.
End lemmas2.

(** C22: a packet that InsertLog stored is the newest entry of the log: the next
    query, if it succeeds, returns the whole log with it, newest first, cut at
    the limit, so the packet comes first; the rest of the log is unchanged.
    When InsertLog fails the packet may have been stored all the same, but
    nothing else has changed. *)
Theorem stored_packet_is_read_first `{DatabaseServiceLaws} `{FloatToInt} e t db r db1 :
  logging db t → small_entry e → InsertLog e db = (r, db1) →
  no_panic r ∧
  (r = Ok () → ∃ t1, logging db1 t1 ∧ logs_of t1 = logs_of t ++ [log_entry e] ∧
     ∀ limit entries db2, 0 < limit ≤ max_int64 → QueryLogs limit db1 = (Ok entries, db2) →
       entries = take (Z.to_nat limit) (log_entry e :: reverse (logs_of t)) ∧ logging db2 t1) ∧
  (∀ err, r = Err err →
     logging db1 t ∨ ∃ t1, logging db1 t1 ∧ logs_of t1 = logs_of t ++ [log_entry e]).
Proof.
  intros Hlog He Ei.
  destruct (wp_result _ _ _ _ _ _ Ei (InsertLog_stores e t db Hlog He)) as (Hn & Hok & Herr).
  split; [done|]. split.
  - intros ->. destruct (Hok () eq_refl) as (_ & t1 & Hlog1 & Hlogs). exists t1.
    split; [done|]. split; [done|]. intros limit entries db2 Hl Eq.
    assert (in_int64 limit = true) as Hi.
    { unfold in_int64, min_int64, max_int64 in *. apply andb_true_iff. rewrite !Z.leb_le. lia. }
    destruct (wp_result _ _ _ _ _ _ Eq (QueryLogs_latest limit t1 db1 Hlog1 Hi)) as (_ & Hq & _).
    destruct (Hq entries eq_refl) as ([Hd' _] & Hs & ->). split.
    + unfold take_limit. destruct (Z.ltb_spec limit 0); [lia|].
      by rewrite Hlogs, reverse_app.
    + destruct Hlog1 as (Hd1 & Ht1 & Hfw1). unfold logging. rewrite Hs. split; [congruence|done].
  - intros err ->. destruct Herr as [_ [Hst|Hsame]]; [by eexists|by right|by left].
Qed.


Section stats.
Context `{DatabaseServiceLaws} `{FloatToInt}.
Lemma count_spec what unmarshal text conds args t db :
  logging db t → small (Z.of_nat (length (tb_rows t))) →
  parse_sql text = Some (SSelect {| se_cols := ["COUNT(*)"]; se_table := "firewall_logs";
    se_where := conds; se_order := None; se_limit := None |}) →
  plain_args {| se_cols := ["COUNT(*)"]; se_table := "firewall_logs"; se_where := conds;
    se_order := None; se_limit := None |} (sent <$> args) t →
  wp (count what unmarshal text args) db
    (λ n db', logging db' t ∧
       (n = 0 ∨ n = Z.of_nat (length (List.filter (λ r, holds r conds (sent <$> args)) (tb_rows t)))))
    (λ db', logging db' t).
Proof.
  intros (Hd & Ht & Hfw) Hsm Hp Hplain. unfold count. apply wp_bind, wp_wrapM.
  unfold wp at 1, call. rewrite Hd. destruct (ds_CallService _ _ _ _) as [r s'] eqn:E.
  pose proof (ds_safe "database" "QueryRow" (sql_json text args) (db_svc db)) as Hs. rewrite E in Hs.
  pose proof (ds_QueryRow _ _ _ t _ _ _ E Hp) as [Hts Hq].
  assert (logging {| db_daemonService := true; db_schemaInit := db_schemaInit db; db_svc := s' |} t)
    as Hlog'.
  { split; [done|]. split; [|done]. unfold tables_of. cbn. by rewrite Hts. }
  destruct r as [j|e|]; [|done|done]. destruct (Hq j eq_refl) as (ts & Hts' & Hans).
  unfold tables_of in Ht. rewrite Hts' in Ht. destruct (Hans Ht Hplain) as (rows & vs & -> & Hsel & Hv).
  apply wp_bind, wp_lift. rewrite Unmarshal_values. cbn [wrap]. apply wp_ret. split; [done|].
  unfold first_count. cbn [rp_Values]. destruct Hv as [->|(l & -> & Hl)]; [by left|]. right.
  unfold selects in Hsel. rewrite bool_decide_eq_true_2 in Hsel by done. subst rows.
  injection Hl as <-. cbn [default]. unfold default, from_option, id. rewrite fmap_cons.
  match goal with |- context [VInt ?n] => assert (small n) as Hn end.
  { unfold matching, small in *. cbn [se_where].
    pose proof (filter_length_le (λ r, holds r conds (sent <$> args)) (tb_rows t)). lia. }
  rewrite sent_small by done. cbn -[matching]. by rewrite small_int64.
Qed.
End stats.

Definition is_drop (e : LogEntry) : bool := bool_decide (lg_Action e = "DROP").
Lemma count_drops l : Forall fw_row l →
  length (List.filter (λ r, holds r [CEq "action"] [VStr "DROP"]) l)
  = length (List.filter is_drop (log_of <$> l)).
Proof.
  induction 1 as [|x l Hx _ IH]; [done|]. rewrite fmap_cons. cbn [List.filter].
  assert (holds x [CEq "action"] [VStr "DROP"] = is_drop (log_of x)) as ->.
  { destruct Hx as (_ & Ht & _). unfold text_columns in Ht. rewrite !Forall_cons in Ht.
    destruct Ht as (_ & [ac Hac] & _). cbn [holds]. unfold is_drop, log_of, cell.
    cbn [lg_Action]. rewrite Hac. cbn -[bool_decide]. rewrite (bool_decide_eq_false_2 (VStr _ = VNil)), !andb_true_r by done.
    apply bool_decide_ext. split; [by intros [= ->]|by intros ->]. }
  destruct (is_drop _); cbn [length]; by rewrite IH.
Qed.
Lemma filter_split {A} (f : A → bool) l :
  (length (List.filter f l) + length (List.filter (λ e, negb (f e)) l))%nat = length l.
Proof. induction l as [|e l IH]; [done|]. cbn. destruct (f e); cbn; lia. Qed.

(** The statistics are consistent with each other, and each count is that
    of the log, or zero: the client takes an unreadable count for none.  When
    both were read, the accepts are the entries that are not drops. *)
Theorem QueryStats_spec `{DatabaseServiceLaws} `{FloatToInt} t db r db' :
  logging db t → small (Z.of_nat (length (tb_rows t))) → QueryStats db = (r, db') →
  let all := Z.of_nat (length (logs_of t)) in
  let drops := Z.of_nat (length (List.filter is_drop (logs_of t))) in
  let others := Z.of_nat (length (List.filter (λ e, negb (is_drop e)) (logs_of t))) in
  no_panic r ∧ logging db' t ∧
  ∀ st, r = Ok st →
    sr_Total st = sr_Accepts st + sr_Drops st ∧
    (sr_Total st = 0 ∨ sr_Total st = all) ∧ (sr_Drops st = 0 ∨ sr_Drops st = drops) ∧
    (sr_Total st = all → sr_Drops st = drops → sr_Accepts st = others).
Proof.
  intros Hlog Hsm Eq all drops others.
  assert (all = drops + others) as Hsum.
  { unfold all, drops, others. by rewrite <-Nat2Z.inj_add, filter_split. }
  assert (wp QueryStats db (λ st db', logging db' t ∧ sr_Total st = sr_Accepts st + sr_Drops st ∧
      (sr_Total st = 0 ∨ sr_Total st = all) ∧ (sr_Drops st = 0 ∨ sr_Drops st = drops))
    (λ db', logging db' t)) as Hw.
  { unfold QueryStats. apply wp_bind. eapply wp_mono; [apply (count_spec _ _ _ [] [] t)| |done];
      [done|done|done|constructor|]. cbn beta.
    intros total db1 [Hlog1 Htot]. apply wp_bind.
    eapply wp_mono; [apply (count_spec _ _ _ [CEq "action"] [VStr "DROP"] t)| |done];
      [done|done|done| |].
    { destruct Hlog as (_ & _ & Hcols & _). unfold plain_args. cbn. constructor; [|constructor].
      unfold col_type. rewrite Hcols. split; [done|]. by exists "DROP". }
    cbn beta. intros n db2 [Hlog2 Hdr]. apply wp_ret. split; [done|]. cbn [sr_Total sr_Accepts sr_Drops].
    rewrite no_conditions in Htot. pose proof Hlog as (_ & _ & _ & Hrows & _).
    change (sent <$> [VStr "DROP"]) with [VStr "DROP"] in Hdr.
    rewrite (count_drops _ Hrows) in Hdr. fold (logs_of t) in Hdr. fold drops in Hdr.
    assert (Z.of_nat (length (tb_rows t)) = all) as Hall by by unfold all, logs_of; rewrite length_fmap.
    rewrite Hall in Htot, Hsm. split_and!; [|done..].
    unfold wrap64. unfold small in Hsm. rewrite Z.mod_small; lia. }
  destruct (wp_result _ _ _ _ _ _ Eq Hw) as (Hn & Hok & Herr). split; [done|]. split.
  - destruct r as [st|e|]; [by apply (Hok st)|apply Herr; by eexists|done].
  - intros st ->. destruct (Hok st eq_refl) as (_ & Hs & Ht & Hd).
    split_and!; [done..|]. intros Hta Hda. lia.
Qed.

(** ** The schema *)

Section schema.
Context `{DatabaseServiceLaws} `{FloatToInt}.
Lemma same_flags_trans db1 db2 db3 : same_flags db1 db2 → same_flags db2 db3 → same_flags db1 db3.
Proof. intros [] []. split; congruence. Qed.
Lemma exec_schema text args ts ts' st : parse_sql text = Some st → Sqlite.is_schema text →
  exec_effect st args ts ts' → ts' = Sqlite.schema_effect ts text.
Proof.
  intros Hp Hs Hx. unfold Sqlite.is_schema, Sqlite.schema_effect in *. rewrite Hp in *.
  by destruct st.
Qed.
Lemma init_statements_spec l ts db :
  db_daemonService db = true → tables_of db = Some ts → Forall (λ p, Sqlite.is_schema p.2) l →
  wp (for_each l init_statement) db
    (λ _ db', same_flags db db' ∧ tables_of db' = Some (foldl Sqlite.schema_effect ts l.*2))
    (λ db', same_flags db db').
Proof.
  intros Hd Ht Hl. revert db ts Hd Ht. induction Hl as [|p l Hp _ IH]; intros db ts Hd Ht.
  { by apply wp_ret. }
  cbn [for_each]. apply wp_bind. unfold init_statement. apply wp_bind, wp_wrapM.
  assert (∃ st, parse_sql p.2 = Some st) as [st Hst].
  { unfold Sqlite.is_schema in Hp. destruct (parse_sql p.2); [by eexists|done]. }
  eapply wp_mono; [by apply call_exec| |]; cbn beta.
  - intros j db1 (Hf1 & ts0 & ts1 & Ht0 & Ht1 & Hx). apply wp_ret.
    rewrite Ht in Ht0. injection Ht0 as <-. apply (exec_schema p.2) in Hx; [|done..]. subst ts1.
    pose proof Hf1 as [Hd1 _]. rewrite Hd in Hd1.
    eapply wp_mono; [by apply (IH db1 _ Hd1 Ht1)| |]; cbn beta.
    + intros _ db2 [Hf2 Ht2]. split; [by eapply same_flags_trans|done].
    + intros db2 Hf2. by eapply same_flags_trans.
  - by intros db1 [Hf1 _].
Qed.

(** A first initialisation that succeeds leaves the log table in the
    database, next to every table that was there, and is remembered: the
    second one sends nothing.  One that fails is not remembered. *)
Theorem InitSchema_spec ts db r db1 :
  db_daemonService db = true → db_schemaInit db = false → tables_of db = Some ts →
  InitSchema db = (r, db1) →
  no_panic r ∧ db_daemonService db1 = true ∧
  (r = Ok () → db_schemaInit db1 = true ∧
     (∃ ts1, tables_of db1 = Some ts1 ∧ is_Some (ts1 !! "firewall_logs") ∧
        (∀ t tb, ts !! t = Some tb → ts1 !! t = Some tb) ∧
        (ts !! "firewall_logs" = None → ∃ t, ts1 !! "firewall_logs" = Some t ∧ logging db1 t)) ∧
     InitSchema db1 = (Ok (), db1)) ∧
  (∀ e, r = Err e → db_schemaInit db1 = false).
Proof.
  intros Hd Hi Ht Er.
  assert (wp InitSchema db
    (λ _ db', db_daemonService db' = true ∧ db_schemaInit db' = true ∧
       tables_of db' = Some (Sqlite.create "firewall_logs" fw_columns ts))
    (λ db', db_daemonService db' = true ∧ db_schemaInit db' = false)) as Hw.
  { unfold InitSchema. apply wp_bind, wp_gets. unfold id. rewrite Hi, Hd. cbn [negb]. apply wp_bind.
    eapply wp_mono; [apply (init_statements_spec _ ts); [done|done|]| |]; cbn beta.
    - repeat constructor.
    - intros _ db' [[Hd' _] Ht']. unfold wp, modify. cbn. split; [congruence|]. by split.
    - intros db' [Hd' Hi']. split; congruence. }
  destruct (wp_result _ _ _ _ _ _ Er Hw) as (Hn & Hok & Herr).
  split; [done|]. destruct r as [[]|e|]; [| |done].
  - destruct (Hok () eq_refl) as (Hd1 & Hi1 & Ht1). split_and!; [done| |by intros e].
    intros _. split; [done|]. split.
    + eexists. split; [exact Ht1|]. split; [apply Sqlite.create_has|]. split.
      * intros t tb Htb. by apply Sqlite.create_keeps.
      * intros Hnone. eexists. unfold Sqlite.create. rewrite Hnone. split; [apply lookup_insert_eq|].
        split; [done|]. rewrite Ht1. unfold Sqlite.create. rewrite Hnone. cbn.
        split; [apply lookup_insert_eq|]. by repeat constructor.
    + unfold InitSchema, mbind, M_bind, gets, id. by rewrite Hi1.
  - destruct Herr as [Hd1 Hi1]; [by eexists|]. split_and!; [done|done|]. by intros ? _.
Qed.
End schema.

(** ** The SQLite plugin behind a connection *)

Definition pipe_errors : @ConnectionErrors Rpc.pipe.
Proof.
  refine (Build_ConnectionErrors Rpc.pipe _ _ _ _ _).
  - by intros method [].
  - by intros method w.
  - by intros method [] e w' [= <- <-].
  - by intros method w e w'.
  - by intros w.
Defined.
Definition local_sqlite : DatabaseService := @sqlite_service sql_in_memory.
Definition local_sqlite_laws : @DatabaseServiceLaws local_sqlite :=
  @sqlite_service_laws sql_in_memory sql_memory_laws.
Definition far_sqlite : DatabaseService := @remote_service local_sqlite Rpc.pipe "DaemonService.CallService".
Definition far_sqlite_laws : @DatabaseServiceLaws far_sqlite :=
  @remote_service_laws local_sqlite local_sqlite_laws Rpc.pipe pipe_errors "DaemonService.CallService".
(** An open database, and the handler before and after its initialisation. *)
Definition fresh_db : @FirewallDatabase far_sqlite :=
  @NewFirewallDatabase far_sqlite true (Rpc.on_pipe Sqlite.opened true).
Definition ready_db : @FirewallDatabase far_sqlite := (@InitSchema far_sqlite fresh_db).2.
Definition empty_log : table := {| tb_cols := fw_columns; tb_rows := [] |}.
Definition sample_packet (action src : string) (port : Z) : FirewallLogEntry :=
  {| le_ID := 0; le_Timestamp := "2025-01-01T10:00:00Z"; le_Action := action; le_SrcIP := src;
     le_DstIP := "192.168.1.1"; le_Protocol := "TCP"; le_SrcPort := 40000; le_DstPort := port;
     le_InterfaceIn := "if2"; le_InterfaceOut := ""; le_PacketLength := 60; le_CreatedAt := "" |}.
Definition insert_packet (e : FirewallLogEntry) (db : @FirewallDatabase far_sqlite) :
    res () * @FirewallDatabase far_sqlite := @InsertLog far_sqlite e db.

Lemma ready_db_logs : @logging far_sqlite far_sqlite_laws ready_db empty_log.
Proof.
  split; [vm_compute; reflexivity|]. split; [vm_compute; reflexivity|]. by repeat constructor.
Qed.
Lemma small_packet action src port : small port → small_entry (sample_packet action src port).
Proof. intros Hp. unfold small_entry. cbn. unfold small in *. split_and!; lia. Qed.

Lemma stored_packet_is_read_first_witness :
  let e := sample_packet "DROP" "10.0.0.7" 22 in
  (insert_packet e ready_db).1 = Ok () ∧
  ∃ t1, logs_of t1 = [log_entry e] ∧
    ∀ limit entries db2, 0 < limit ≤ max_int64 →
      @QueryLogs far_sqlite amd64_float_to_int limit (insert_packet e ready_db).2 = (Ok entries, db2) →
      entries = take (Z.to_nat limit) [log_entry e].
Proof.
  intros e. split; [vm_compute; reflexivity|].
  destruct (proj1 (proj2 (@stored_packet_is_read_first far_sqlite far_sqlite_laws amd64_float_to_int
    e empty_log ready_db (Ok ()) (insert_packet e ready_db).2 ready_db_logs
    (small_packet "DROP" "10.0.0.7" 22 ltac:(unfold small; lia))
    (run_eq (insert_packet e ready_db) (Ok ()) ltac:(vm_compute; reflexivity)))) eq_refl)
    as (t1 & _ & Hlogs & Hq).
  exists t1. split; [exact Hlogs|]. intros limit entries db2 Hl E. exact (proj1 (Hq limit entries db2 Hl E)).
Defined.

Definition two_packets : @FirewallDatabase far_sqlite :=
  (insert_packet (sample_packet "ACCEPT" "10.0.0.8" 443) (insert_packet (sample_packet "DROP" "10.0.0.7" 22) ready_db).2).2.
Definition fw_cells (e : FirewallLogEntry) (id : Z) : row :=
  {["id" := VInt id; "timestamp" := VStr (le_Timestamp e); "action" := VStr (le_Action e);
    "src_ip" := VStr (le_SrcIP e); "dst_ip" := VStr (le_DstIP e); "protocol" := VStr (le_Protocol e);
    "src_port" := VInt (le_SrcPort e); "dst_port" := VInt (le_DstPort e);
    "interface_in" := VStr (le_InterfaceIn e); "interface_out" := VStr (le_InterfaceOut e);
    "packet_length" := VInt (le_PacketLength e)]}.
Definition two_rows : table :=
  {| tb_cols := fw_columns;
     tb_rows := [fw_cells (sample_packet "DROP" "10.0.0.7" 22) 1; fw_cells (sample_packet "ACCEPT" "10.0.0.8" 443) 2] |}.
Lemma fw_cells_row e id : small_entry e → fw_row (fw_cells e id).
Proof.
  intros (H1 & H2 & H3). split; [by exists id|]. unfold text_columns.
  rewrite !Forall_cons, !Forall_nil. split_and!; first [done|by eexists|by eexists; split].
Qed.
Lemma two_packets_log : @logging far_sqlite far_sqlite_laws two_packets two_rows.
Proof.
  split; [vm_compute; reflexivity|]. split; [vm_compute; reflexivity|]. split; [done|]. split.
  - do 2 (apply Forall_cons; split; [apply fw_cells_row, small_packet; unfold small; lia|]).
    by apply Forall_nil.
  - constructor; [by repeat constructor|]. constructor; [|done]. unfold older. vm_compute. done.
Qed.
Lemma QueryStats_spec_witness :
  let p := @QueryStats far_sqlite amd64_float_to_int two_packets in
  p.1 = Ok {| sr_Total := 2; sr_Accepts := 1; sr_Drops := 1 |} ∧
  @logging far_sqlite far_sqlite_laws p.2 two_rows.
Proof.
  intros p. split; [vm_compute; reflexivity|].
  exact (proj1 (proj2 (@QueryStats_spec far_sqlite far_sqlite_laws amd64_float_to_int two_rows
    two_packets _ _ two_packets_log ltac:(unfold small; cbn; lia) (surjective_pairing _)))).
Defined.
Lemma InitSchema_spec_witness :
  ∃ ts1, @tables_of far_sqlite far_sqlite_laws ready_db = Some ts1 ∧ is_Some (ts1 !! "firewall_logs") ∧
    @InitSchema far_sqlite ready_db = (Ok (), ready_db).
Proof.
  assert ((@InitSchema far_sqlite fresh_db).1 = Ok ()) as Hok by (vm_compute; reflexivity).
  assert (@db_daemonService far_sqlite fresh_db = true) as Hd by (vm_compute; reflexivity).
  assert (@db_schemaInit far_sqlite fresh_db = false) as Hi by (vm_compute; reflexivity).
  assert (is_Some (@tables_of far_sqlite far_sqlite_laws fresh_db)) as [ts' Ht]
    by (eexists; vm_compute; reflexivity).
  pose proof (@InitSchema_spec far_sqlite far_sqlite_laws ts' fresh_db (Ok ()) ready_db Hd Hi Ht
    (run_eq (@InitSchema far_sqlite fresh_db) (Ok ()) Hok)) as (_ & _ & H & _).
  destruct (H eq_refl) as (_ & (ts1 & Ht1 & Hl & _) & Hr).
  exists ts1. split; [exact Ht1|]. by split.
Defined.
