(* ===== verification/Capture.v ===== *)
(** * Capture: the packet capture of the firewall plugin

    plugins/core/firewall/capture.go: the sockets of a [LogCapture] over the
    go-nflog library, an abstract [NFLog] with laws over its open sockets, and
    what becomes of the packets they deliver: [FirewallRules] decides which are
    stored, [FirewallLogs] stores them.  The theorems: a start that fails leaves
    no socket open, and a stop closes what a start opened; whatever packets
    arrive and whatever the database does, the log grows by some of the entries
    that were let through, in their order. *)
From S2P Require Import Prelude GoStr Types Json Codec FirewallRules Sql Database FirewallLogs.

(** ** The sockets *)

Class NFLog := {
  nflog : Type;
  nf_Open : Z → M nflog positive;
  nf_Register : positive → M nflog ();
  nf_Close : positive → M nflog ();
}.
(** What the library promises, on the open sockets and their groups. *)
Class NFLogLaws `{NFLog} := {
  nf_sockets : nflog → gmap positive Z;
  nl_Open group s r s' : nf_Open group s = (r, s') →
    match r with
    | Ok h => nf_sockets s !! h = None ∧ nf_sockets s' = <[h := group]> (nf_sockets s)
    | Err _ => nf_sockets s' = nf_sockets s
    | Panic _ => False
    end;
  nl_Register h s r s' : nf_Register h s = (r, s') → no_panic r ∧ nf_sockets s' = nf_sockets s;
  nl_Close h s r s' : nf_Close h s = (r, s') →
    no_panic r ∧ nf_sockets s' = delete h (nf_sockets s);
}.

Definition NFLOGGroupDrops : Z := 100.
Definition NFLOGGroupAccepts : Z := 101.

Section sockets.
Context `{NFLog}.
(** The fields for the sockets; [sk_cancelled]: the context was cancelled. *)
Record Sockets := {
  sk_config : FirewallLoggingConfig; sk_cancelled : bool;
  sk_nflogDrops : option positive; sk_nflogAccepts : option positive; sk_nflog : nflog;
}.
Definition on_nflog {A} (m : M nflog A) : M Sockets A := λ c,
  let '(r, s) := m (sk_nflog c) in
  (r, {| sk_config := sk_config c; sk_cancelled := sk_cancelled c;
         sk_nflogDrops := sk_nflogDrops c; sk_nflogAccepts := sk_nflogAccepts c; sk_nflog := s |}).
Definition set_drops (h : positive) : M Sockets () := modify (λ c,
  {| sk_config := sk_config c; sk_cancelled := sk_cancelled c; sk_nflogDrops := Some h;
     sk_nflogAccepts := sk_nflogAccepts c; sk_nflog := sk_nflog c |}).
Definition set_accepts (h : positive) : M Sockets () := modify (λ c,
  {| sk_config := sk_config c; sk_cancelled := sk_cancelled c; sk_nflogDrops := sk_nflogDrops c;
     sk_nflogAccepts := Some h; sk_nflog := sk_nflog c |}).
Definition close (h : option positive) : M Sockets () :=
  match h with
  | Some h => attempt (on_nflog (nf_Close h)) ≫= λ _, mret ()
  | None => mret ()
  end.
(** [if err := ...; err != nil { cleanup; return fmt.Errorf(what, err) }]. *)
Definition or_close {A} (what : string) (cleanup : M Sockets ()) (m : M Sockets A) : M Sockets A :=
  attempt m ≫= λ r,
  match r with
  | Err err => cleanup ≫= λ _, fail (Wrapf what err)
  | r => lift r
  end.

Definition listen_drops : M Sockets () :=
  wrapM ("failed to open NFLOG group " +:+ itoa NFLOGGroupDrops +:+ ": ")
    (on_nflog (nf_Open NFLOGGroupDrops)) ≫= λ nflogDrops,
  set_drops nflogDrops ≫= λ _,
  or_close "failed to register NFLOG drops callback: " (close (Some nflogDrops))
    (on_nflog (nf_Register nflogDrops)).
Definition listen_accepts : M Sockets () :=
  gets sk_nflogDrops ≫= λ nflogDrops,
  or_close ("failed to open NFLOG group " +:+ itoa NFLOGGroupAccepts +:+ ": ") (close nflogDrops)
    (on_nflog (nf_Open NFLOGGroupAccepts)) ≫= λ nflogAccepts,
  set_accepts nflogAccepts ≫= λ _,
  or_close "failed to register NFLOG accepts callback: "
    (close (Some nflogAccepts) ≫= λ _, close nflogDrops)
    (on_nflog (nf_Register nflogAccepts)).
Definition LogCapture_Start : M Sockets () :=
  gets sk_config ≫= λ config,
  if negb (fl_Enabled config) then mret ()
  else
    (if fl_LogDrops config then listen_drops else mret ()) ≫= λ _,
    (if fl_LogAccepts config then listen_accepts else mret ()).
Definition cancel (c : Sockets) : Sockets :=
  {| sk_config := sk_config c; sk_cancelled := true; sk_nflogDrops := sk_nflogDrops c;
     sk_nflogAccepts := sk_nflogAccepts c; sk_nflog := sk_nflog c |}.
Definition LogCapture_Stop : M Sockets () :=
  modify cancel ≫= λ _,
  gets sk_nflogDrops ≫= λ nflogDrops, close nflogDrops ≫= λ _,
  gets sk_nflogAccepts ≫= λ nflogAccepts, close nflogAccepts.
End sockets.

(** ** The packets they deliver *)
Section packets.
Context `{DatabaseService}.
(** The counters, and the database handler. *)
Record Capture := { cp_capture : LogCapture; cp_db : FirewallDatabase }.
(** The end of processNFLOGPacket: an entry that is let through is stored, and
    an error ignored. *)
Definition handle_packet (pk : packet) : M Capture () := λ c,
  let '(r, capture) := processNFLOGPacket pk (cp_capture c) in
  match r with
  | Ok (Some entry) =>
      let '(r, db) := InsertLog entry (cp_db c) in
      (match r with Panic w => Panic w | _ => Ok () end, {| cp_capture := capture; cp_db := db |})
  | Ok None => (Ok (), {| cp_capture := capture; cp_db := cp_db c |})
  | Err e => (Err e, {| cp_capture := capture; cp_db := cp_db c |})
  | Panic w => (Panic w, {| cp_capture := capture; cp_db := cp_db c |})
  end.
End packets.

(** ** Lemmas: the open sockets *)
Section socket_lemmas.
Context `{NFLogLaws}.
Definition open_sockets (c : Sockets) : gmap positive Z := nf_sockets (sk_nflog c).
(** All fields but the library's state. *)
Definition fields_of (c : Sockets) : FirewallLoggingConfig * bool * option positive * option positive :=
  (sk_config c, sk_cancelled c, sk_nflogDrops c, sk_nflogAccepts c).

Lemma wp_Open group c :
  wp (on_nflog (nf_Open group)) c
    (λ h c', fields_of c' = fields_of c ∧ open_sockets c !! h = None ∧
       open_sockets c' = <[h := group]> (open_sockets c))
    (λ c', fields_of c' = fields_of c ∧ open_sockets c' = open_sockets c).
Proof.
  unfold wp, on_nflog. destruct (nf_Open group (sk_nflog c)) as [r s'] eqn:E.
  apply nl_Open in E. destruct r; [by destruct E|done|done].
Qed.
Lemma wp_Register h c :
  wp (on_nflog (nf_Register h)) c
    (λ _ c', fields_of c' = fields_of c ∧ open_sockets c' = open_sockets c)
    (λ c', fields_of c' = fields_of c ∧ open_sockets c' = open_sockets c).
Proof.
  unfold wp, on_nflog. destruct (nf_Register h (sk_nflog c)) as [r s'] eqn:E.
  apply nl_Register in E as [Hr Hs]. by destruct r.
Qed.
(** What [close] closes. *)
Definition without (h : option positive) (m : gmap positive Z) : gmap positive Z :=
  match h with Some h => delete h m | None => m end.
Lemma wp_close_bind {A} h (k : () → M Sockets A) c Q E :
  (∀ c', fields_of c' = fields_of c → open_sockets c' = without h (open_sockets c) →
     wp (k ()) c' Q E) →
  wp (close h ≫= k) c Q E.
Proof.
  intros Hk. apply wp_bind. destruct h as [h|]; [|by apply wp_ret, Hk].
  unfold close. apply wp_bind, wp_attempt. unfold wp, on_nflog.
  destruct (nf_Close h (sk_nflog c)) as [r s'] eqn:E'. apply nl_Close in E' as [Hr Hs].
  destruct r; [by apply Hk|intros e'; by apply Hk|done].
Qed.
Lemma wp_close_socket h c Q E :
  (∀ c', fields_of c' = fields_of c → open_sockets c' = without h (open_sockets c) → Q () c') →
  wp (close h) c Q E.
Proof.
  intros Hq. assert (∀ c, close h c = (close h ≫= mret) c) as Heq.
  { intros s. unfold mbind, M_bind. by destruct (close h s) as [[[]| |] ?]. }
  unfold wp. rewrite Heq. apply (wp_close_bind h mret c Q E). intros. apply wp_ret. by apply Hq.
Qed.
Lemma wp_or_close {A} what cleanup (m : M Sockets A) c Q E :
  wp m c Q (λ c', wp cleanup c' (λ _, E) E) → wp (or_close what cleanup m) c Q E.
Proof.
  intros Hm. unfold or_close. apply wp_bind, wp_attempt.
  eapply wp_mono; [exact Hm| |]; cbn beta.
  - intros a c' Hq. by apply wp_lift.
  - intros c' Hc e. apply wp_bind. eapply wp_mono; [exact Hc| |done]. intros [] c'' Hc''.
    by apply wp_fail.
Qed.
Lemma listen_drops_spec c :
  wp listen_drops c
    (λ _ c', ∃ h, open_sockets c !! h = None ∧
       fields_of c' = (sk_config c, sk_cancelled c, Some h, sk_nflogAccepts c) ∧
       open_sockets c' = <[h := NFLOGGroupDrops]> (open_sockets c))
    (λ c', open_sockets c' = open_sockets c).
Proof.
  unfold listen_drops. apply wp_bind, wp_wrapM.
  eapply wp_mono; [apply wp_Open| |by intros c' [_ ?]]; cbn beta. intros h c1 (Hf & Hh & Ho).
  apply wp_bind. unfold set_drops, wp, modify. cbn -[or_close close]. fold (@wp Sockets).
  apply wp_or_close.
  eapply wp_mono; [apply wp_Register| |]; cbn beta; intros; destruct_and?.
  - exists h. split; [done|]. unfold fields_of, open_sockets in *. cbn in *.
    split; congruence.
  - apply wp_close_socket. intros c3 _ ->. cbn [without]. replace (open_sockets s') with (open_sockets c1) by (unfold open_sockets in *; cbn in *; congruence).
    rewrite Ho. by apply delete_insert_id.
Qed.
Lemma listen_accepts_spec c :
  wp listen_accepts c
    (λ _ c', ∃ h, open_sockets c !! h = None ∧
       fields_of c' = (sk_config c, sk_cancelled c, sk_nflogDrops c, Some h) ∧
       open_sockets c' = <[h := NFLOGGroupAccepts]> (open_sockets c))
    (λ c', open_sockets c' = without (sk_nflogDrops c) (open_sockets c)).
Proof.
  unfold listen_accepts. apply wp_bind, wp_gets, wp_bind, wp_or_close.
  eapply wp_mono; [apply wp_Open| |]; cbn beta.
  2: { intros c' [_ Ho]. apply wp_close_socket. intros c2 _ ->. by rewrite Ho. }
  intros h c1 (Hf & Hh & Ho).
  apply wp_bind. unfold set_accepts, wp, modify. cbn -[or_close close]. fold (@wp Sockets).
  apply wp_or_close.
  eapply wp_mono; [apply wp_Register| |]; cbn beta; intros; destruct_and?.
  - exists h. split; [done|]. unfold fields_of, open_sockets in *. cbn in *.
    split; congruence.
  - apply wp_close_bind. intros c3 _ Ho3. apply wp_close_socket. intros c4 _ ->. rewrite Ho3.
    cbn [without]. replace (open_sockets s') with (open_sockets c1) by (unfold open_sockets in *; cbn in *; congruence).
    rewrite Ho, delete_insert_id; done.
Qed.
Lemma Stop_spec c :
  wp LogCapture_Stop c (λ _ c', open_sockets c' =
      without (sk_nflogAccepts c) (without (sk_nflogDrops c) (open_sockets c))) (λ _, False).
Proof.
  unfold LogCapture_Stop. apply wp_bind. unfold wp, modify. cbn -[close mbind]. fold (@wp Sockets).
  apply wp_bind, wp_gets, wp_close_bind. intros c1 Hf1 Ho1. apply wp_bind, wp_gets, wp_close_socket.
  intros c2 _ ->. rewrite Ho1. unfold fields_of in Hf1. injection Hf1 as _ _ _ ->. done.
Qed.
(** The groups a configuration listens to. *)
Definition groups (config : FirewallLoggingConfig) : list Z :=
  if fl_Enabled config then
    (if fl_LogDrops config then [NFLOGGroupDrops] else []) ++
    (if fl_LogAccepts config then [NFLOGGroupAccepts] else [])
  else [].
(** [opened] are the sockets of a capture, among others. *)
Definition holds_sockets (c c1 : Sockets) : Prop := ∃ opened : gmap positive Z,
  opened ##ₘ open_sockets c ∧ open_sockets c1 = opened ∪ open_sockets c ∧
  (map_to_list opened).*2 ≡ₚ groups (sk_config c) ∧
  without (sk_nflogAccepts c1) (without (sk_nflogDrops c1) (open_sockets c1)) = open_sockets c.

Lemma Start_spec c : sk_nflogDrops c = None → sk_nflogAccepts c = None →
  wp LogCapture_Start c (λ _ c1, holds_sockets c c1) (λ c1, open_sockets c1 = open_sockets c).
Proof.
  intros Hd Ha. unfold LogCapture_Start. apply wp_bind, wp_gets. unfold holds_sockets, groups.
  assert (∀ c1, open_sockets c1 = open_sockets c → sk_nflogDrops c1 = None →
    sk_nflogAccepts c1 = None → ∃ opened : gmap positive Z,
    opened ##ₘ open_sockets c ∧ open_sockets c1 = opened ∪ open_sockets c ∧
    (map_to_list opened).*2 ≡ₚ [] ∧
    without (sk_nflogAccepts c1) (without (sk_nflogDrops c1) (open_sockets c1)) = open_sockets c) as Hnone.
  { intros c1 Ho Hd1 Ha1. exists ∅. rewrite Ho, Hd1, Ha1. rewrite (left_id_L ∅ (∪)).
    split_and!; [apply map_disjoint_empty_l|done..]. }
  destruct (fl_Enabled (sk_config c)); cbn [negb]; [|by apply wp_ret, Hnone].
  apply wp_bind. destruct (fl_LogDrops (sk_config c)).
  - eapply wp_mono; [apply listen_drops_spec| |done]; cbn beta.
    intros _ c1 (h & Hh & Hf1 & Ho1). unfold fields_of in Hf1. injection Hf1 as Hc1 _ Hd1 Ha1.
    destruct (fl_LogAccepts (sk_config c)).
    + eapply wp_mono; [apply listen_accepts_spec| |]; cbn beta.
      * intros _ c2 (h2 & Hh2 & Hf2 & Ho2). unfold fields_of in Hf2. injection Hf2 as _ _ Hd2 Ha2.
        rewrite Ho1 in Hh2. apply lookup_insert_None in Hh2 as [Hh2 Hne].
        exists (<[h2 := NFLOGGroupAccepts]> {[h := NFLOGGroupDrops]}).
        rewrite Ho2, Hd2, Ha2, Hd1, Ho1. cbn [without]. split_and!.
        -- apply map_disjoint_insert_l. split; [done|]. by apply map_disjoint_singleton_l.
        -- by rewrite <-insert_union_l, <-insert_union_singleton_l.
        -- rewrite map_to_list_insert by by rewrite lookup_singleton_ne.
           rewrite map_to_list_singleton. cbn. apply Permutation_swap.
        -- rewrite delete_insert_ne by done. rewrite (delete_insert_id _ h) by done.
           by apply delete_insert_id.
      * intros c2 Ho2. rewrite Ho2, Hd1, Ho1. cbn. by apply delete_insert_id.
    + apply wp_ret. exists {[h := NFLOGGroupDrops]}. rewrite Ho1, Hd1, Ha1, Ha. cbn [without].
      split_and!; [by apply map_disjoint_singleton_l|by rewrite insert_union_singleton_l| |
        by apply delete_insert_id]. by rewrite map_to_list_singleton.
  - apply wp_ret. destruct (fl_LogAccepts (sk_config c)); [|by apply wp_ret, Hnone].
    eapply wp_mono; [apply listen_accepts_spec| |]; cbn beta.
    + intros _ c2 (h2 & Hh2 & Hf2 & Ho2). unfold fields_of in Hf2. injection Hf2 as _ _ Hd2 Ha2.
      exists {[h2 := NFLOGGroupAccepts]}. rewrite Ho2, Hd2, Ha2, Hd. cbn [without].
      split_and!; [by apply map_disjoint_singleton_l|by rewrite insert_union_singleton_l| |
        by apply delete_insert_id]. by rewrite map_to_list_singleton.
    + intros c2 Ho2. by rewrite Ho2, Hd.
Qed.
End socket_lemmas.

(** Start on a new capture never panics; when it fails it has closed every
    socket it opened; when it succeeds, the sockets it left open are exactly one
    for each group that the configuration logs, and Stop closes exactly these. *)
Theorem Start_then_Stop `{NFLogLaws} c r c1 :
  sk_nflogDrops c = None → sk_nflogAccepts c = None → LogCapture_Start c = (r, c1) →
  no_panic r ∧
  (∀ e, r = Err e → open_sockets c1 = open_sockets c) ∧
  (r = Ok () →
     (∃ opened : gmap positive Z, opened ##ₘ open_sockets c ∧
        open_sockets c1 = opened ∪ open_sockets c ∧
        (map_to_list opened).*2 ≡ₚ groups (sk_config c)) ∧
     (LogCapture_Stop c1).1 = Ok () ∧ open_sockets (LogCapture_Stop c1).2 = open_sockets c).
Proof.
  intros Hd Ha Er. destruct (wp_result _ _ _ _ _ _ Er (Start_spec c Hd Ha)) as (Hn & Hok & Herr).
  split; [done|]. split; [intros e ->; apply Herr; by eexists|]. intros ->.
  destruct (Hok () eq_refl) as (opened & Hdis & Ho & Hg & Hw). split; [by exists opened|].
  pose proof (Stop_spec c1) as Hs. unfold wp in Hs. destruct (LogCapture_Stop c1) as [[[]|e|w] c2]; [|done..].
  split; [done|]. cbn in Hs |- *. by rewrite Hs.
Qed.

(** ** Lemmas: the packets *)

Lemma process_small pk c e c' :
  packet_bytes pk → processNFLOGPacket pk c = (Ok (Some e), c') → small_entry e.
Proof.
  intros Hb. unfold processNFLOGPacket.
  destruct (pk_Payload pk) as [[|b payload]|] eqn:Hp; [done| |done].
  pose proof (ParseIPPacket_safe (pk_stamp pk) (b :: payload) (pk_action pk) (Hb _ Hp)) as Hs.
  destruct (ParseIPPacket _ _ _) as [e1| |]; [|done..].
  destruct (negb _); [done|]. destruct (negb _); [done|].
  destruct (Allow _ _) as [[] l]; intros [= <- _].
  unfold small_entry, small. cbn. lia.
Qed.

Section packet_lemmas.
Context `{DatabaseServiceLaws}.
(** What a run of packets leaves: the entries let through, those of them that
    were stored, and the log with them. *)
Definition logged_run (pks : list packet) (t : table) (c c1 : Capture) : Prop :=
  ∃ es kept t1, capture_run pks (cp_capture c) = (Ok es, cp_capture c1) ∧
    logging (cp_db c1) t1 ∧ logs_of t1 = logs_of t ++ (log_entry <$> kept) ∧ kept `sublist_of` es ∧
    ((∀ e db, (InsertLog e db).1 = Ok ()) → kept = es).

Lemma handle_packet_spec pk t c :
  packet_bytes pk → logging (cp_db c) t → ∃ c1, handle_packet pk c = (Ok (), c1) ∧
    ∃ stored kept t1, processNFLOGPacket pk (cp_capture c) = (Ok stored, cp_capture c1) ∧
      logging (cp_db c1) t1 ∧ logs_of t1 = logs_of t ++ (log_entry <$> kept) ∧
      kept `sublist_of` option_list stored ∧
      ((∀ e db, (InsertLog e db).1 = Ok ()) → kept = option_list stored).
Proof.
  intros Hb Hl. destruct (process_cases pk (cp_capture c) Hb) as (stored & capture & E & _).
  unfold handle_packet. rewrite E. destruct stored as [e|].
  2: { eexists. split; [done|]. exists None, [], t. cbn. by rewrite app_nil_r. }
  pose proof (InsertLog_stores e t (cp_db c) Hl (process_small _ _ _ _ Hb E)) as Hw.
  cbv zeta in Hw. destruct (InsertLog e (cp_db c)) as [r db] eqn:Ei.
  destruct (wp_result _ _ _ _ _ _ Ei Hw) as (Hn & Hok & Herr).
  destruct r as [[]|err|]; [| |done].
  - destruct (Hok () eq_refl) as (_ & t1 & Hl1 & Hlogs). eexists. split; [done|].
    exists (Some e), [e], t1. cbn. by split_and!.
  - destruct Herr as (_ & [(t1 & Hl1 & Hlogs)|Hl1]); [by eexists| |].
    + eexists. split; [done|]. exists (Some e), [e], t1. cbn. by split_and!.
    + eexists. split; [done|]. exists (Some e), [], t. cbn. rewrite app_nil_r.
      split_and!; [done..|apply sublist_nil_l|]. intros Hall. specialize (Hall e (cp_db c)).
      by rewrite Ei in Hall.
Qed.
Lemma handle_packets_spec pks : ∀ t c,
  Forall packet_bytes pks → logging (cp_db c) t →
  ∃ c1, for_each pks handle_packet c = (Ok (), c1) ∧ logged_run pks t c c1.
Proof.
  induction pks as [|pk pks IH]; intros t c Hb Hl.
  { exists c. split; [done|]. exists [], [], t. cbn. by rewrite app_nil_r. }
  apply Forall_cons in Hb as [Hpk Hb].
  destruct (handle_packet_spec pk t c Hpk Hl) as (c1 & E1 & stored & kept & t1 & Ep & Hl1 & Hg & Hs & Ha).
  destruct (IH t1 c1 Hb Hl1) as (c2 & E2 & es & kept2 & t2 & Er & Hl2 & Hg2 & Hs2 & Ha2).
  exists c2. split.
  - cbn [for_each]. unfold mbind, M_bind. by rewrite E1.
  - exists (option_list stored ++ es), (kept ++ kept2), t2. split_and!.
    + cbn [capture_run]. rewrite Ep, Er. done.
    + done.
    + by rewrite Hg2, Hg, fmap_app, app_assoc.
    + by apply sublist_app.
    + intros Hall. by rewrite Ha, Ha2.
Qed.
End packet_lemmas.


(** ** The properties at concrete inputs *)

(** Sockets in memory; a group above [mem_limit] cannot be opened. *)
Record MemSockets := { mem_open : gmap positive Z; mem_limit : Z }.
Definition mem_nflog : NFLog := {|
  nflog := MemSockets;
  nf_Open group s :=
    if mem_limit s <? group then (Err (StdError "nflog" "operation not permitted"), s)
    else let h := fresh (dom (mem_open s)) in
         (Ok h, {| mem_open := <[h := group]> (mem_open s); mem_limit := mem_limit s |});
  nf_Register _ s := (Ok (), s);
  nf_Close h s := (Ok (), {| mem_open := delete h (mem_open s); mem_limit := mem_limit s |});
|}.
Definition mem_laws : @NFLogLaws mem_nflog.
Proof.
  refine (@Build_NFLogLaws mem_nflog mem_open _ _ _).
  - intros group s r s'. cbn. destruct (mem_limit s <? group); intros [= <- <-]; [done|].
    cbn. split; [|done]. apply not_elem_of_dom, is_fresh.
  - by intros h s r s' [= <- <-].
  - by intros h s r s' [= <- <-].
Defined.
(** A capture of both groups, in a process with one socket. *)
Definition idle (limit : Z) : @Sockets mem_nflog :=
  @Build_Sockets mem_nflog (log_all 1 2) false None None
    {| mem_open := {[7%positive := 5]}; mem_limit := limit |}.
(** The second group cannot be opened, so the first is closed again. *)
Example half_open_is_closed :
  (@LogCapture_Start mem_nflog (idle 100)).1 =
    Err (Wrapf "failed to open NFLOG group 101: " (StdError "nflog" "operation not permitted")) ∧
  mem_open (@sk_nflog mem_nflog (@LogCapture_Start mem_nflog (idle 100)).2) = {[7%positive := 5]}.
Proof. split; vm_compute; reflexivity. Qed.
Lemma Start_then_Stop_witness :
  @open_sockets mem_nflog mem_laws (@LogCapture_Stop mem_nflog (@LogCapture_Start mem_nflog (idle 200)).2).2
    = {[7%positive := 5]}.
Proof.
  assert ((@LogCapture_Start mem_nflog (idle 200)).1 = Ok ()) as Hok by (vm_compute; reflexivity).
  exact (proj2 (proj2 (proj2 (proj2 (@Start_then_Stop mem_nflog mem_laws (idle 200) (Ok ()) _
    eq_refl eq_refl (run_eq (@LogCapture_Start mem_nflog (idle 200)) (Ok ()) Hok))) eq_refl))).
Defined.

(** Five packets, at most two a second, on the SQLite plugin behind a
    connection. *)
Definition five_packets : list packet := dropped <$> [1; 2; 3; 4; 5].
Definition capture_start : @Capture far_sqlite :=
  @Build_Capture far_sqlite (NewLogCapture (log_all 1 2) 0) ready_db.
Definition capture_five : res () * @Capture far_sqlite :=
  for_each five_packets (@handle_packet far_sqlite) capture_start.
Example two_of_five_stored :
  match (@QueryLogs far_sqlite amd64_float_to_int 10 (@cp_db far_sqlite capture_five.2)).1 with
  | Ok entries => lg_DstPort <$> entries
  | _ => []
  end = [443; 443].
Proof. vm_compute. reflexivity. Qed.
