(* ===== verification/Monitoring.v ===== *)
(** * Monitoring: the monitoring plugin

    plugins/core/monitoring.  metrics.go reads /proc and the links of the machine
    (an abstract [Machine]) and computes rates with uint64 and float64
    arithmetic ([Float64]); provider.go keeps the last metrics and a history per
    interface, and runs a goroutine that updates them; rpc_provider.go prints
    them.  The goroutines, the calls of the daemon and the stop channel are a
    step relation.

    The theorems: the memory figures for what /proc/meminfo says; the histories
    hold the last twelve rates of their interface and never more, through any
    updates; sizes are printed with a unit that fits, up to the largest uint64;
    after a stop every goroutine can end and none waits on an open channel. *)
From S2P Require Import Prelude GoStr Float64 Types Json Value Struct Codec Registry Loader.

(** ** types.go *)
Record MonitoringConfig := { mc_Enabled : bool; mc_CollectionInterval : Z }.
#[export] Instance MonitoringConfig_struct : Struct MonitoringConfig := {
  rows c := [("enabled", VBool (mc_Enabled c));
             ("collection_interval", VInt (mc_CollectionInterval c))];
  omitempty k := bool_decide (k = "collection_interval");
  build g := {| mc_Enabled := as_bool (g "enabled");
                mc_CollectionInterval := as_int (g "collection_interval") |};
  schema := [("enabled", KBool); ("collection_interval", KInt)];
}.
Definition Unmarshal_MonitoringConfig : json → res MonitoringConfig :=
  dec_struct dec_base zero_struct.

(** ** The machine *)

(** The attributes of a link the code looks at; [ls_Statistics]: the six
    counters, which may be missing. *)
Record Counters := {
  ct_RxBytes : Z; ct_TxBytes : Z; ct_RxPackets : Z; ct_TxPackets : Z; ct_RxErrors : Z;
  ct_TxErrors : Z;
}.
Record LinkStats := { ls_Name : string; ls_Up : bool; ls_Statistics : option Counters }.
(** Files under /proc, the links and the clock.  Reading an open file gives its
    content, up to the read error if there is one.  Times are nanoseconds. *)
Class Machine := {
  machine : Type;
  os_Open : string → M machine (string * option error);
  os_ReadFile : string → M machine string;
  nl_LinkList : M machine (list LinkStats);
  time_Now : M machine Z;
}.

(** bufio.Scanner: the lines, until one that does not fit its buffer. *)
Definition max_token : nat := 65536.
Definition err_too_long : error := StdError "bufio.Scanner" "token too long".
Definition drop_cr (line : string) : string :=
  match rev_str line with
  | String c r => if Ascii.eqb c (byte_of 13) then rev_str r else line
  | "" => ""
  end.
Fixpoint drop_last_empty (l : list string) : list string :=
  match l with [] | [""] => [] | x :: l => x :: drop_last_empty l end.
Fixpoint scan_lines (l : list string) (err : option error) : list string * option error :=
  match l with
  | [] => ([], err)
  | line :: l =>
      if (max_token <=? String.length line)%nat then ([], Some err_too_long)
      else let '(lines, err) := scan_lines l err in (drop_cr line :: lines, err)
  end.
Definition scan_file (content : string * option error) : list string * option error :=
  scan_lines (drop_last_empty (split newline content.1)) content.2.

(** ** metrics.go *)
Record SystemMetrics := {
  sm_Timestamp : Z; sm_MemoryUsedMB : Z; sm_MemoryTotalMB : Z; sm_CPUPercent : float;
  sm_MemoryPercent : float; sm_LoadAvg1 : float; sm_LoadAvg5 : float; sm_LoadAvg15 : float;
}.
Record InterfaceMetrics := {
  im_Timestamp : Z; im_Name : string; im_State : string; im_RXBytes : Z; im_TXBytes : Z;
  im_RXPackets : Z; im_TXPackets : Z; im_RXErrors : Z; im_TXErrors : Z; im_RXBytesRate : Z;
  im_TXBytesRate : Z;
}.

(** The values of a line of /proc/stat: idle (the fourth) and their sum. *)
Definition cpu_values (values : list Z) : Z * Z :=
  (default 0 (values !! 3%nat), foldl (λ total val, u64 (total + val)) 0 values).
Definition parse_cpu (lines : list string * option error) : res (Z * Z) :=
  match List.filter (λ line, has_prefix line "cpu ") lines.1 with
  | [] => match lines.2 with Some err => Err err | None => Ok (0, 0) end
  | line :: _ =>
      let words := fields line in
      if (length words <? 5)%nat then Err (ErrorText "invalid /proc/stat format")
      else Ok (cpu_values (ParseUint <$> tail words))
  end.
(** The variables of getMemoryInfo, in kB. *)
Record MemInfo := { me_Total : Z; me_Free : Z; me_Buffers : Z; me_Cached : Z }.
Definition mem_line (m : MemInfo) (line : string) : MemInfo :=
  match fields line with
  | key :: number :: _ =>
      let value := ParseUint number in
      if bool_decide (key = "MemTotal:") then
        {| me_Total := value; me_Free := me_Free m; me_Buffers := me_Buffers m; me_Cached := me_Cached m |}
      else if bool_decide (key = "MemFree:") then
        {| me_Total := me_Total m; me_Free := value; me_Buffers := me_Buffers m; me_Cached := me_Cached m |}
      else if bool_decide (key = "Buffers:") then
        {| me_Total := me_Total m; me_Free := me_Free m; me_Buffers := value; me_Cached := me_Cached m |}
      else if bool_decide (key = "Cached:") then
        {| me_Total := me_Total m; me_Free := me_Free m; me_Buffers := me_Buffers m; me_Cached := value |}
      else m
  | _ => m
  end.
Definition mem_figures (m : MemInfo) : Z * Z :=
  (u64 (me_Total m - me_Free m - me_Buffers m - me_Cached m) / 1024, me_Total m / 1024).
Definition parse_memory (lines : list string * option error) : res (Z * Z) :=
  let figures := mem_figures (foldl mem_line
    {| me_Total := 0; me_Free := 0; me_Buffers := 0; me_Cached := 0 |} lines.1) in
  match lines.2 with Some err => Err err | None => Ok figures end.
Definition parse_load (data : string) : res (float * float * float) :=
  match fields data with
  | l1 :: l5 :: l15 :: _ => Ok (ParseFloat l1, ParseFloat l5, ParseFloat l15)
  | _ => Err (ErrorText "invalid /proc/loadavg format")
  end.

(** The Duration between two times, and its Seconds. *)
Definition time_Sub (t u : Z) : Z := Z.max min_int64 (Z.min max_int64 (t - u)).
Definition Second : Z := 1000000000.
Definition Duration_Seconds (d : Z) : float :=
  fadd (of_Z (Z.quot d Second)) (fdiv (of_Z (Z.rem d Second)) (of_Z Second)).

Section rates.
Context `{FloatToUint}.
Definition rate (current prev : Z) (timeDelta : float) : Z :=
  uint64_of_float (fdiv (of_Z (u64 (current - prev))) timeDelta).
Definition with_rates (m : InterfaceMetrics) (rx tx : Z) : InterfaceMetrics :=
  {| im_Timestamp := im_Timestamp m; im_Name := im_Name m; im_State := im_State m;
     im_RXBytes := im_RXBytes m; im_TXBytes := im_TXBytes m; im_RXPackets := im_RXPackets m;
     im_TXPackets := im_TXPackets m; im_RXErrors := im_RXErrors m; im_TXErrors := im_TXErrors m;
     im_RXBytesRate := rx; im_TXBytesRate := tx |}.
(** Of several metrics with a name the last one counts. *)
Definition prevMap (prev : list InterfaceMetrics) : gmap string InterfaceMetrics :=
  foldl (λ acc m, <[im_Name m := m]> acc) ∅ prev.
Definition metric_rates (prev : gmap string InterfaceMetrics) (curr : InterfaceMetrics)
    : InterfaceMetrics :=
  match prev !! im_Name curr with
  | Some p =>
      let timeDelta := Duration_Seconds (time_Sub (im_Timestamp curr) (im_Timestamp p)) in
      if fpos timeDelta then
        with_rates curr (rate (im_RXBytes curr) (im_RXBytes p) timeDelta)
          (rate (im_TXBytes curr) (im_TXBytes p) timeDelta)
      else curr
  | None => curr
  end.
Definition CalculateRates (prev current : list InterfaceMetrics) : list InterfaceMetrics :=
  metric_rates (prevMap prev) <$> current.
End rates.

Section collect.
Context `{Machine}.
Definition readCPUStat : M machine (Z * Z) :=
  os_Open "/proc/stat" ≫= λ file, lift (parse_cpu (scan_file file)).
(** The two readings are 100 ms apart. *)
Definition cpu_percent (first second : Z * Z) : float :=
  let idleDelta := u64 (second.1 - first.1) in
  let totalDelta := u64 (second.2 - first.2) in
  if totalDelta =? 0 then of_Z 0
  else fmul (of_Z 100) (fsub (of_Z 1) (fdiv (of_Z idleDelta) (of_Z totalDelta))).
Definition getCPUPercent : M machine float :=
  readCPUStat ≫= λ first, readCPUStat ≫= λ second, mret (cpu_percent first second).
Definition getMemoryInfo : M machine (Z * Z) :=
  os_Open "/proc/meminfo" ≫= λ file, lift (parse_memory (scan_file file)).
Definition getLoadAverage : M machine (float * float * float) :=
  os_ReadFile "/proc/loadavg" ≫= λ data, lift (parse_load data).
(** What could not be read stays zero. *)
Definition or_zero {A} (zero : A) (m : M machine A) : M machine A :=
  attempt m ≫= λ r,
  match r with Ok a => mret a | Err _ => mret zero | Panic w => lift (Panic w) end.
Definition GetSystemMetrics : M machine SystemMetrics :=
  time_Now ≫= λ now,
  or_zero (of_Z 0) getCPUPercent ≫= λ cpuPercent,
  or_zero (0, 0) getMemoryInfo ≫= λ '(memUsed, memTotal),
  or_zero (of_Z 0, of_Z 0, of_Z 0) getLoadAverage ≫= λ '(load1, load5, load15),
  mret {| sm_Timestamp := now; sm_MemoryUsedMB := memUsed; sm_MemoryTotalMB := memTotal;
          sm_CPUPercent := cpuPercent;
          sm_MemoryPercent := if 0 <? memTotal
            then fmul (fdiv (of_Z memUsed) (of_Z memTotal)) (of_Z 100) else of_Z 0;
          sm_LoadAvg1 := load1; sm_LoadAvg5 := load5; sm_LoadAvg15 := load15 |}.
Fixpoint link_metrics (links : list LinkStats) : M machine (list InterfaceMetrics) :=
  match links with
  | [] => mret []
  | link :: links =>
      if bool_decide (ls_Name link = "lo") then link_metrics links
      else
        match ls_Statistics link with
        | None => link_metrics links
        | Some stats =>
            time_Now ≫= λ now,
            link_metrics links ≫= λ metrics,
            mret ({| im_Timestamp := now; im_Name := ls_Name link;
                     im_State := if ls_Up link then "UP" else "DOWN";
                     im_RXBytes := ct_RxBytes stats; im_TXBytes := ct_TxBytes stats;
                     im_RXPackets := ct_RxPackets stats; im_TXPackets := ct_TxPackets stats;
                     im_RXErrors := ct_RxErrors stats; im_TXErrors := ct_TxErrors stats;
                     im_RXBytesRate := 0; im_TXBytesRate := 0 |} :: metrics)
        end
  end.
Definition GetInterfaceMetrics : M machine (list InterfaceMetrics) :=
  wrapM "failed to list links: " nl_LinkList ≫= link_metrics.
End collect.

(** ** provider.go: the histories and the last metrics *)
Record InterfaceHistory := {
  hi_RXRates : list float; hi_TXRates : list float; hi_Timestamps : list Z; hi_maxSize : Z;
}.
Definition NewInterfaceHistory (size : Z) : InterfaceHistory :=
  {| hi_RXRates := []; hi_TXRates := []; hi_Timestamps := []; hi_maxSize := size |}.
(** [l[1:]]. *)
Definition shift {A} (l : list A) : res (list A) :=
  match l with [] => Panic "slice bounds out of range [1:0]" | _ :: l => Ok l end.
Definition Add (rxRate txRate : float) (timestamp : Z) (h : InterfaceHistory)
    : res InterfaceHistory :=
  (if hi_maxSize h <=? Z.of_nat (length (hi_RXRates h)) then
     shift (hi_RXRates h) ≫= λ rx, shift (hi_TXRates h) ≫= λ tx,
     shift (hi_Timestamps h) ≫= λ ts, Ok (rx, tx, ts)
   else Ok (hi_RXRates h, hi_TXRates h, hi_Timestamps h)) ≫= λ '(rx, tx, ts),
  Ok {| hi_RXRates := rx ++ [rxRate]; hi_TXRates := tx ++ [txRate];
        hi_Timestamps := ts ++ [timestamp]; hi_maxSize := hi_maxSize h |}.

(** Without its stop channel. *)
Record MonitoringProvider := {
  mp_lastUpdate : Z; mp_systemMetrics : option SystemMetrics; mp_config : option MonitoringConfig;
  mp_interfaceMetrics : list InterfaceMetrics; mp_prevInterfaceMetrics : list InterfaceMetrics;
  mp_bandwidthHistory : gmap string InterfaceHistory;
}.
Definition mbps (bytesRate : Z) : float := fdiv (fmul (of_Z bytesRate) (of_Z 8)) (of_Z 1000000).
Definition add_metric (histories : gmap string InterfaceHistory) (m : InterfaceMetrics)
    : res (gmap string InterfaceHistory) :=
  let h := default (NewInterfaceHistory 12) (histories !! im_Name m) in
  Add (mbps (im_RXBytesRate m)) (mbps (im_TXBytesRate m)) (im_Timestamp m) h ≫= λ h,
  Ok (<[im_Name m := h]> histories).
Fixpoint add_metrics (histories : gmap string InterfaceHistory) (l : list InterfaceMetrics)
    : res (gmap string InterfaceHistory) :=
  match l with
  | [] => Ok histories
  | m :: l => add_metric histories m ≫= λ histories, add_metrics histories l
  end.

Section provider.
Context `{Machine} `{FloatToUint}.
(** The provider and the machine it runs on. *)
Record Monitor := { mo_provider : MonitoringProvider; mo_machine : machine }.
Definition on_machine {A} (m : M machine A) : M Monitor A := λ s,
  let '(r, k) := m (mo_machine s) in (r, {| mo_provider := mo_provider s; mo_machine := k |}).
Definition update_provider (f : MonitoringProvider → MonitoringProvider) : M Monitor () :=
  modify (λ s, {| mo_provider := f (mo_provider s); mo_machine := mo_machine s |}).
Definition set_systemMetrics (sys : SystemMetrics) (p : MonitoringProvider) : MonitoringProvider :=
  {| mp_lastUpdate := mp_lastUpdate p; mp_systemMetrics := Some sys; mp_config := mp_config p;
     mp_interfaceMetrics := mp_interfaceMetrics p;
     mp_prevInterfaceMetrics := mp_prevInterfaceMetrics p;
     mp_bandwidthHistory := mp_bandwidthHistory p |}.
(** The second critical section of updateMetrics: the metrics that were read
    become the current ones, with rates when there are some from before. *)
Definition store_metrics (ifMetrics : list InterfaceMetrics) (now : Z) (p : MonitoringProvider)
    : res MonitoringProvider :=
  let prev := mp_interfaceMetrics p in
  let current := match prev with [] => ifMetrics | _ => CalculateRates prev ifMetrics end in
  match prev with
  | [] => Ok (mp_bandwidthHistory p)
  | _ => add_metrics (mp_bandwidthHistory p) current
  end ≫= λ histories,
  Ok {| mp_lastUpdate := now; mp_systemMetrics := mp_systemMetrics p; mp_config := mp_config p;
        mp_interfaceMetrics := current; mp_prevInterfaceMetrics := prev;
        mp_bandwidthHistory := histories |}.
Definition updateMetrics : M Monitor () :=
  on_machine GetSystemMetrics ≫= λ sysMetrics,
  update_provider (set_systemMetrics sysMetrics) ≫= λ _,
  attempt (on_machine GetInterfaceMetrics) ≫= λ ifMetrics,
  match ifMetrics with
  | Err _ => mret ()
  | Panic w => lift (Panic w)
  | Ok ifMetrics =>
      on_machine time_Now ≫= λ now,
      gets mo_provider ≫= λ p,
      lift (store_metrics ifMetrics now p) ≫= λ p,
      update_provider (λ _, p)
  end.
Definition NewMonitoringProvider (now : Z) : MonitoringProvider :=
  {| mp_lastUpdate := now; mp_systemMetrics := None; mp_config := None; mp_interfaceMetrics := [];
     mp_prevInterfaceMetrics := []; mp_bandwidthHistory := ∅ |}.
(** The map that Status returns; its JSON encoding is not modelled. *)
Record StatusData := {
  sd_enabled : bool; sd_last_update : Z; sd_system_metrics : option SystemMetrics;
  sd_interface_metrics : list InterfaceMetrics;
}.
Definition Status (p : MonitoringProvider) : StatusData :=
  {| sd_enabled := match mp_config p with Some c => mc_Enabled c | None => false end;
     sd_last_update := mp_lastUpdate p; sd_system_metrics := mp_systemMetrics p;
     sd_interface_metrics := mp_interfaceMetrics p |}.
Definition Validate (config : MonitoringConfig) : res () := Ok ().
End provider.

(** ** rpc_provider.go: texts *)

(** The unit: [n] divided until it is below 1024, with the divisor and the index
    of the letter; a uint64 needs at most six divisions. *)
Fixpoint unit_loop (fuel : nat) (n div : Z) (exp : nat) : option (Z * nat) :=
  if n <? 1024 then Some (div, exp)
  else match fuel with
       | O => None
       | S fuel => unit_loop fuel (n / 1024) (u64 (div * 1024)) (S exp)
       end.
Definition unit_of (bytes : Z) : option (Z * nat) := unit_loop 8 (bytes / 1024) 1024 0.
Definition letters : string := "KMGTPE".
Definition format_size (suffix : string) (bytes : Z) : res string :=
  if bytes =? 0 then Ok ("0 B" +:+ suffix)
  else if bytes <? 1024 then Ok (itoa bytes +:+ " B" +:+ suffix)
  else
    match unit_of bytes with
    | None => Panic "not reached"
    | Some (div, exp) =>
        match String.get exp letters with
        | Some c => Ok (fixed 2 (fdiv (of_Z bytes) (of_Z div)) +:+ " " +:+ String c ("iB" +:+ suffix))
        | None => Panic "index out of range"
        end
    end.
Definition formatBytes : Z → res string := format_size "".
Definition formatBandwidth : Z → res string := format_size "/s".

Definition table_row (a b c d e f : string) : string :=
  pad_right 15 a +:+ " " +:+ pad_right 8 b +:+ " " +:+ pad_left 15 c +:+ " " +:+ pad_left 15 d +:+ " " +:+
  pad_left 10 e +:+ " " +:+ pad_left 10 f +:+ nl.
Definition interface_row (iface : InterfaceMetrics) : res string :=
  formatBytes (im_RXBytes iface) ≫= λ rx, formatBytes (im_TXBytes iface) ≫= λ tx,
  formatBandwidth (im_RXBytesRate iface) ≫= λ rxRate,
  formatBandwidth (im_TXBytesRate iface) ≫= λ txRate,
  Ok (table_row (im_Name iface) (im_State iface) rx tx rxRate txRate).
Fixpoint interface_rows (l : list InterfaceMetrics) : res string :=
  match l with
  | [] => Ok ""
  | iface :: l => interface_row iface ≫= λ r, interface_rows l ≫= λ rs, Ok (r +:+ rs)
  end.
(** Dates and times as text, and the graphs of the asciigraph package. *)
Class Rendering := { date_text : Z → string; clock_text : Z → string; asciigraph : list float → string }.
Section texts.
Context `{Rendering}.
Definition system_text (sys : option SystemMetrics) : string :=
  match sys with
  | Some m =>
      "CPU Usage:       " +:+ pad_left 5 (fixed 1 (sm_CPUPercent m)) +:+ "%" +:+ nl +:+
      "Memory Usage:    " +:+ pad_left 5 (fixed 1 (sm_MemoryPercent m)) +:+ "% (" +:+
        itoa (sm_MemoryUsedMB m) +:+ " MB / " +:+ itoa (sm_MemoryTotalMB m) +:+ " MB)" +:+ nl +:+
      "Load Average:    " +:+ fixed 2 (sm_LoadAvg1 m) +:+ ", " +:+ fixed 2 (sm_LoadAvg5 m) +:+ ", " +:+
        fixed 2 (sm_LoadAvg15 m) +:+ nl +:+
      "Last Updated:    " +:+ date_text (sm_Timestamp m) +:+ nl
  | None => "No system metrics available" +:+ nl
  end.
Definition executeStats (p : MonitoringProvider) : res string :=
  match sd_interface_metrics (Status p) with
  | [] => Ok ("No interface metrics available" +:+ nl)
  | metrics =>
      interface_rows metrics ≫= λ rows,
      Ok (table_row "Interface" "State" "RX Bytes" "TX Bytes" "RX Rate" "TX Rate" +:+
          repeat_byte 78 hyphen +:+ nl +:+ rows)
  end ≫= λ interfaces,
  Ok ("System Metrics" +:+ nl +:+ "==============" +:+ nl +:+
      system_text (sd_system_metrics (Status p)) +:+ nl +:+
      "Network Interfaces" +:+ nl +:+ "==================" +:+ nl +:+ interfaces).
Definition current_rate (name : string) (bytesRate : Z) : res string :=
  formatBandwidth bytesRate ≫= λ text,
  Ok ("  " +:+ name +:+ ": " +:+ pad_left 15 text +:+ " (" +:+
      pad_left 6 (fixed 2 (mbps bytesRate)) +:+ " Mbps)" +:+ nl).
Definition graphs (history : option InterfaceHistory) : string :=
  match history with
  | Some h =>
      if (1 <? length (hi_RXRates h))%nat then
        "RX Rate (Mbps) - Last 1 minute:" +:+ nl +:+ asciigraph (hi_RXRates h) +:+ nl +:+ nl +:+
        "TX Rate (Mbps) - Last 1 minute:" +:+ nl +:+ asciigraph (hi_TXRates h) +:+ nl +:+ nl +:+
        "Showing " +:+ itoa (Z.of_nat (length (hi_RXRates h))) +:+ " data points (" +:+
        fixed 0 (fmul (of_Z (Z.of_nat (length (hi_RXRates h)))) (of_Z 5)) +:+
        " seconds of history)" +:+ nl
      else "Collecting data... graphs will appear shortly." +:+ nl
  | None => "Collecting data... graphs will appear shortly." +:+ nl
  end.
(** [now]: the time of day. *)
Definition executeBandwidth (now : Z) (args : list string) (p : MonitoringProvider) : res string :=
  let targetInterface := match args with arg :: _ => arg | [] => "wg-proton" end in
  match List.find (λ m, bool_decide (im_Name m = targetInterface)) (mp_interfaceMetrics p) with
  | None => Err (ErrorText ("interface '" +:+ targetInterface +:+ "' not found"))
  | Some m =>
      current_rate "RX" (im_RXBytesRate m) ≫= λ rx,
      current_rate "TX" (im_TXBytesRate m) ≫= λ tx,
      Ok ("Bandwidth Monitor - " +:+ targetInterface +:+ " (Press Ctrl+C to exit)" +:+ nl +:+
          "========================================" +:+ nl +:+ nl +:+
          "Updated: " +:+ clock_text now +:+ " | State: " +:+ im_State m +:+ nl +:+ nl +:+
          "Current Rates:" +:+ nl +:+ rx +:+ tx +:+ nl +:+
          graphs (mp_bandwidthHistory p !! targetInterface))
  end.
Definition ExecuteCLICommand (now : Z) (command : string) (args : list string)
    (p : MonitoringProvider) : res string :=
  match fields command with
  | [] => Err (ErrorText "empty command")
  | name :: rest =>
      if negb (bool_decide (name = "monitor")) then Err (ErrorText ("unknown command: " +:+ name))
      else
        match rest with
        | [] => Err (ErrorText "monitor command requires subcommand: stats or bandwidth")
        | subcommand :: _ =>
            if bool_decide (subcommand = "stats") then executeStats p
            else if bool_decide (subcommand = "bandwidth") then executeBandwidth now args p
            else Err (ErrorText ("unknown monitor subcommand: " +:+ subcommand))
        end
  end.
End texts.
Definition Metadata : MetadataResponse :=
  {| mr_metadata := {| pm_Namespace := "monitoring"; pm_Version := "1.0.0";
       pm_Description := "System and network metrics collection"; pm_Category := "monitoring";
       pm_ConfigPath := "/etc/jack/monitoring.json";
       pm_DefaultConfig := Some {["enabled" := VBool true; "collection_interval" := VInt 5]};
       pm_Dependencies := []; pm_PathPrefix := "" |};
     mr_ProvidedServices := []; mr_RequiredServices := [];
     mr_CLICommands := [
       {| cc_Name := "monitor"; cc_Short := "Monitor system resources and network bandwidth";
          cc_Long := "Display real-time system metrics including CPU, memory, load, and network bandwidth.";
          cc_Subcommands := ["stats"; "bandwidth"]; cc_Continuous := true; cc_PollInterval := 2 |}] |}.

(** ** provider.go: the goroutine and its stop channel

    [Updating]: inside updateMetrics; [Selecting ch]: in the select, which reads
    p.stopChan as it is entered; [Ended]: returned. *)
Inductive loop_pc := Updating | Selecting (ch : nat) | Ended.
(** A call of ApplyConfig, with [restart] when monitoring is enabled, or of
    Flush: before the select of Stop, before its close, before the new channel
    is made, before the goroutine is started, returned. *)
Inductive call_pc := CCheck (restart : bool) | CClose (restart : bool) | CMake | CGo | CDone (restart : bool).
Section life.
Context `{Machine} `{FloatToUint}.
(** Channels are numbered as they are made. *)
Record Life := {
  li_monitor : Monitor; li_stopChan : nat; li_made : nat; li_closed : gset nat;
  li_loops : list loop_pc; li_calls : list call_pc; li_panic : bool;
}.
Definition after_stop (restart : bool) : call_pc := if restart then CMake else CDone false.
Definition set_call (i : nat) (c : call_pc) (s : Life) : Life :=
  {| li_monitor := li_monitor s; li_stopChan := li_stopChan s; li_made := li_made s;
     li_closed := li_closed s; li_loops := li_loops s; li_calls := <[i := c]> (li_calls s);
     li_panic := li_panic s |}.
Definition set_loop (j : nat) (l : loop_pc) (s : Life) : Life :=
  {| li_monitor := li_monitor s; li_stopChan := li_stopChan s; li_made := li_made s;
     li_closed := li_closed s; li_loops := <[j := l]> (li_loops s); li_calls := li_calls s;
     li_panic := li_panic s |}.
Definition set_config (config : MonitoringConfig) (m : Monitor) : Monitor :=
  let p := mo_provider m in
  {| mo_provider := {| mp_lastUpdate := mp_lastUpdate p; mp_systemMetrics := mp_systemMetrics p;
       mp_config := Some config; mp_interfaceMetrics := mp_interfaceMetrics p;
       mp_prevInterfaceMetrics := mp_prevInterfaceMetrics p;
       mp_bandwidthHistory := mp_bandwidthHistory p |};
     mo_machine := mo_machine m |}.
Definition begin_call (restart : bool) (m : Monitor) (s : Life) : Life :=
  {| li_monitor := m; li_stopChan := li_stopChan s; li_made := li_made s; li_closed := li_closed s;
     li_loops := li_loops s; li_calls := li_calls s ++ [CCheck restart]; li_panic := li_panic s |}.
Definition ApplyConfig (config : MonitoringConfig) (s : Life) : Life :=
  begin_call (mc_Enabled config) (set_config config (li_monitor s)) s.
Definition Flush (s : Life) : Life := begin_call false (li_monitor s) s.
(** The select of Stop, and its close. *)
Definition stop_check (i : nat) (restart : bool) (s : Life) : Life :=
  set_call i (if decide (li_stopChan s ∈ li_closed s) then after_stop restart else CClose restart) s.
Definition stop_close (i : nat) (restart : bool) (s : Life) : Life :=
  if decide (li_stopChan s ∈ li_closed s) then   (* close of closed channel *)
    {| li_monitor := li_monitor s; li_stopChan := li_stopChan s; li_made := li_made s;
       li_closed := li_closed s; li_loops := li_loops s; li_calls := li_calls s; li_panic := true |}
  else
    {| li_monitor := li_monitor s; li_stopChan := li_stopChan s; li_made := li_made s;
       li_closed := {[li_stopChan s]} ∪ li_closed s; li_loops := li_loops s;
       li_calls := <[i := after_stop restart]> (li_calls s); li_panic := li_panic s |}.
Definition make_chan (i : nat) (s : Life) : Life :=
  {| li_monitor := li_monitor s; li_stopChan := li_made s; li_made := S (li_made s);
     li_closed := li_closed s; li_loops := li_loops s; li_calls := <[i := CGo]> (li_calls s);
     li_panic := li_panic s |}.
Definition start_loop (i : nat) (s : Life) : Life :=
  {| li_monitor := li_monitor s; li_stopChan := li_stopChan s; li_made := li_made s;
     li_closed := li_closed s; li_loops := li_loops s ++ [Updating];
     li_calls := <[i := CDone true]> (li_calls s); li_panic := li_panic s |}.
(** updateMetrics, and then the select is entered. *)
Definition run_update (j : nat) (s : Life) : Life :=
  let '(r, m) := updateMetrics (li_monitor s) in
  {| li_monitor := m; li_stopChan := li_stopChan s; li_made := li_made s; li_closed := li_closed s;
     li_loops := <[j := Selecting (li_stopChan s)]> (li_loops s); li_calls := li_calls s;
     li_panic := match r with Panic _ => true | _ => li_panic s end |}.

Definition all_done (s : Life) : Prop := Forall (λ c, ∃ restart, c = CDone restart) (li_calls s).
(** The steps of the goroutines: without the ticker, and with it. *)
Inductive loop_step : Life → Life → Prop :=
| lo_update j s : li_loops s !! j = Some Updating → loop_step s (run_update j s)
| lo_stop j ch s : li_loops s !! j = Some (Selecting ch) → ch ∈ li_closed s →
    loop_step s (set_loop j Ended s).
Inductive tick_step : Life → Life → Prop :=
| ti_loop s s' : loop_step s s' → tick_step s s'
| ti_tick j ch s : li_loops s !! j = Some (Selecting ch) → tick_step s (set_loop j Updating s).
(** The steps of the calls that are under way. *)
Inductive call_step : Life → Life → Prop :=
| ca_check i restart s : li_calls s !! i = Some (CCheck restart) → call_step s (stop_check i restart s)
| ca_close i restart s : li_calls s !! i = Some (CClose restart) → call_step s (stop_close i restart s)
| ca_make i s : li_calls s !! i = Some CMake → call_step s (make_chan i s)
| ca_go i s : li_calls s !! i = Some CGo → call_step s (start_loop i s).
(** [overlap]: a call may begin before the one before has returned. *)
Inductive life_step (overlap : bool) : Life → Life → Prop :=
| li_apply config s : overlap = true ∨ all_done s → life_step overlap s (ApplyConfig config s)
| li_flush s : overlap = true ∨ all_done s → life_step overlap s (Flush s)
| li_call s s' : call_step s s' → life_step overlap s s'
| li_loop s s' : tick_step s s' → life_step overlap s s'.
Definition life_start (m : machine) (now : Z) : Life :=
  {| li_monitor := {| mo_provider := NewMonitoringProvider now; mo_machine := m |};
     li_stopChan := 0; li_made := 1; li_closed := ∅; li_loops := []; li_calls := [];
     li_panic := false |}.
End life.

(** ** Lemmas: the histories *)

Definition lastn {A} (n : nat) (l : list A) : list A := drop (length l - n) l.
Lemma length_lastn {A} n (l : list A) : length (lastn n l) = (n `min` length l)%nat.
Proof. unfold lastn. rewrite length_drop. lia. Qed.
Lemma lastn_snoc {A} n (l : list A) x :
  (0 < n)%nat → lastn n (l ++ [x]) =
    (if (n <=? length (lastn n l))%nat then tail (lastn n l) else lastn n l) ++ [x].
Proof.
  intros Hn. pose proof (length_lastn n l) as Hl. rewrite Hl. unfold lastn. rewrite length_app. cbn [length].
  destruct (Nat.leb_spec n (n `min` length l)).
  - replace (length l + 1 - n)%nat with (S (length l - n)) by lia.
    rewrite drop_app_le by lia. f_equal.
    replace (S (length l - n)) with (length l - n + 1)%nat by lia. rewrite <-drop_drop.
    by destruct (drop (length l - n) l).
  - replace (length l + 1 - n)%nat with 0%nat by lia. by replace (length l - n)%nat with 0%nat by lia.
Qed.

(** A point of a graph, and the history that has the last ones of a list. *)
Definition point : Type := float * float * Z.
Definition history_of (points : list point) (h : InterfaceHistory) : Prop :=
  hi_maxSize h = 12 ∧
  hi_RXRates h = lastn 12 points.*1.*1 ∧ hi_TXRates h = lastn 12 points.*1.*2 ∧
  hi_Timestamps h = lastn 12 points.*2.
Lemma history_of_new : history_of [] (NewInterfaceHistory 12).
Proof. done. Qed.
Lemma shift_tail {A} (l : list A) : l ≠ [] → shift l = Ok (tail l).
Proof. by destruct l. Qed.
Lemma Add_history points h rx tx ts :
  history_of points h → ∃ h', Add rx tx ts h = Ok h' ∧ history_of (points ++ [(rx, tx, ts)]) h'.
Proof.
  intros (Hm & Hr & Ht & Hs). unfold Add, history_of. rewrite Hm, Hr, Ht, Hs, !fmap_app. cbn [fmap list_fmap fst snd].
  rewrite !lastn_snoc by lia. rewrite !length_lastn, !length_fmap.
  assert (∀ B (l : list B), length l = length points → (12 ≤ length points)%nat →
    shift (lastn 12 l) = Ok (tail (lastn 12 l))) as Hsh.
  { intros B l Hlen Hl. apply shift_tail. intros Hn. apply (f_equal length) in Hn.
    rewrite length_lastn, Hlen in Hn. cbn [length] in Hn. lia. }
  unfold point in *. destruct (le_lt_dec 12 (length points)) as [Hl|Hl].
  - rewrite (proj2 (Z.leb_le _ _)), (proj2 (Nat.leb_le _ _)) by lia.
    rewrite !Hsh by by rewrite ?length_fmap. cbn. by eexists.
  - rewrite (proj2 (Z.leb_gt _ _)), (proj2 (Nat.leb_gt _ _)) by lia. cbn. by eexists.
Qed.

Section recorded.
Context `{Machine} `{FloatToUint}.
Definition point_of (m : InterfaceMetrics) : point :=
  (mbps (im_RXBytesRate m), mbps (im_TXBytesRate m), im_Timestamp m).
Definition points_of (name : string) (l : list InterfaceMetrics) : list point :=
  point_of <$> List.filter (λ m, bool_decide (im_Name m = name)) l.
(** The metrics that go into the histories, for the samples that were read. *)
Fixpoint recorded (prev : list InterfaceMetrics) (samples : list (list InterfaceMetrics))
    : list InterfaceMetrics :=
  match samples with
  | [] => []
  | l :: samples =>
      match prev with
      | [] => recorded l samples
      | _ => CalculateRates prev l ++ recorded (CalculateRates prev l) samples
      end
  end.
(** updateMetrics for each sample that could be read, with its time. *)
Fixpoint store_samples (samples : list (list InterfaceMetrics * Z)) (p : MonitoringProvider)
    : res MonitoringProvider :=
  match samples with
  | [] => Ok p
  | (l, now) :: samples => store_metrics l now p ≫= store_samples samples
  end.
(** All histories are those of the recorded metrics. *)
Definition histories_of (done : list InterfaceMetrics) (histories : gmap string InterfaceHistory) : Prop :=
  ∀ name, match histories !! name with
          | Some h => history_of (points_of name done) h
          | None => points_of name done = []
          end.
Lemma points_of_app name l1 l2 : points_of name (l1 ++ l2) = points_of name l1 ++ points_of name l2.
Proof. unfold points_of. by rewrite List.filter_app, fmap_app. Qed.
Lemma add_metric_histories don histories m :
  histories_of don histories →
  ∃ histories', add_metric histories m = Ok histories' ∧ histories_of (don ++ [m]) histories'.
Proof.
  intros Hh. unfold add_metric.
  assert (history_of (points_of (im_Name m) don)
    (default (NewInterfaceHistory 12) (histories !! im_Name m))) as Hm.
  { specialize (Hh (im_Name m)). destruct (histories !! im_Name m); [done|]. by rewrite Hh. }
  destruct (Add_history _ _ (mbps (im_RXBytesRate m)) (mbps (im_TXBytesRate m)) (im_Timestamp m) Hm)
    as (h' & -> & Hh'). eexists. split; [done|]. intros name. rewrite points_of_app.
  unfold points_of at 2 4. cbn [List.filter].
  destruct (decide (im_Name m = name)) as [<-|Hne].
  - rewrite lookup_insert_eq, bool_decide_eq_true_2 by done. done.
  - rewrite lookup_insert_ne, bool_decide_eq_false_2 by done. cbn. rewrite app_nil_r. apply Hh.
Qed.
Lemma add_metrics_histories l : ∀ don histories, histories_of don histories →
  ∃ histories', add_metrics histories l = Ok histories' ∧ histories_of (don ++ l) histories'.
Proof.
  induction l as [|m l IH]; intros don histories Hh; cbn [add_metrics].
  { exists histories. by rewrite app_nil_r. }
  destruct (add_metric_histories don histories m Hh) as (h1 & -> & Hh1).
  destruct (IH _ _ Hh1) as (h2 & E & Hh2). exists h2. cbn. split; [done|]. by rewrite <-app_assoc in Hh2.
Qed.
Lemma store_metrics_histories l now p don :
  histories_of don (mp_bandwidthHistory p) →
  ∃ p', store_metrics l now p = Ok p' ∧
    mp_interfaceMetrics p' =
      match mp_interfaceMetrics p with [] => l | _ => CalculateRates (mp_interfaceMetrics p) l end ∧
    histories_of (don ++ match mp_interfaceMetrics p with
                         | [] => [] | _ => CalculateRates (mp_interfaceMetrics p) l end)
      (mp_bandwidthHistory p').
Proof.
  intros Hh. unfold store_metrics. destruct (mp_interfaceMetrics p) as [|m0 prev] eqn:Hp.
  - eexists. split; [done|]. cbn. by rewrite app_nil_r.
  - destruct (add_metrics_histories (CalculateRates (m0 :: prev) l) _ _ Hh) as (h & E & Hh').
    rewrite E. by eexists.
Qed.
Lemma store_samples_histories samples : ∀ p don, histories_of don (mp_bandwidthHistory p) →
  ∃ p', store_samples samples p = Ok p' ∧
    histories_of (don ++ recorded (mp_interfaceMetrics p) samples.*1) (mp_bandwidthHistory p').
Proof.
  induction samples as [|[l now] samples IH]; intros p don Hh.
  { exists p. cbn. by rewrite app_nil_r. }
  destruct (store_metrics_histories l now p don Hh) as (p1 & E1 & Hi1 & Hh1).
  destruct (IH p1 _ Hh1) as (p2 & E2 & Hh2). exists p2. cbn [store_samples]. rewrite E1.
  split; [done|]. cbn [fmap list_fmap recorded fst]. rewrite <-app_assoc in Hh2. revert Hh2. rewrite Hi1.
  by destruct (mp_interfaceMetrics p).
Qed.
End recorded.

(** C38: whatever samples updateMetrics reads, it never panics, and afterwards
    the history of an interface is exactly the last twelve of the points that
    were recorded for it (every sample of it but the first of the plugin), in
    order, with as many receive rates as send rates and times; an interface
    without a recorded point has no history. *)
Theorem history_is_last_minute `{Machine} `{FloatToUint} samples now :
  ∃ p, store_samples samples (NewMonitoringProvider now) = Ok p ∧
    ∀ name, let points := points_of name (recorded [] samples.*1) in
      match mp_bandwidthHistory p !! name with
      | Some h => hi_RXRates h = lastn 12 points.*1.*1 ∧ hi_TXRates h = lastn 12 points.*1.*2 ∧
                  hi_Timestamps h = lastn 12 points.*2 ∧ (length (hi_RXRates h) ≤ 12)%nat
      | None => points = []
      end.
Proof.
  destruct (store_samples_histories samples (NewMonitoringProvider now) []) as (p & E & Hh).
  { intros name. cbn. by rewrite lookup_empty. }
  exists p. split; [done|]. intros name. specialize (Hh name). cbn in *.
  destruct (mp_bandwidthHistory p !! name) as [h|]; [|done].
  destruct Hh as (_ & Hr & Ht & Hs). split_and!; [done..|]. rewrite Hr, length_lastn. lia.
Qed.

(** ** Lemmas: units *)

Lemma unit_loop_spec fuel : ∀ bytes k,
  0 ≤ bytes < 2 ^ 64 → (k < 6)%nat → 1024 ^ Z.of_nat (S k) ≤ bytes →
  bytes < 1024 ^ Z.of_nat (S k + S fuel) →
  ∃ e, (k ≤ e < 6)%nat ∧
    unit_loop fuel (bytes / 1024 ^ Z.of_nat (S k)) (1024 ^ Z.of_nat (S k)) k
      = Some (1024 ^ Z.of_nat (S e), e) ∧
    1024 ^ Z.of_nat (S e) ≤ bytes < 1024 ^ Z.of_nat (S (S e)).
Proof.
  induction fuel as [|fuel IH]; intros bytes k Hb Hk Hlo Hhi.
  - exists k. assert (bytes / 1024 ^ Z.of_nat (S k) < 1024) as Hd.
    { apply Z.div_lt_upper_bound; [lia|]. rewrite Z.mul_comm, <-Z.pow_succ_r by lia.
      replace (Z.succ (Z.of_nat (S k))) with (Z.of_nat (S k + 1)) by lia. done. }
    cbn [unit_loop]. rewrite (proj2 (Z.ltb_lt _ _) Hd).
    split_and!; [lia|lia|done|done|]. by replace (S (S k)) with (S k + 1)%nat by lia.
  - cbn [unit_loop]. destruct (Z.ltb_spec (bytes / 1024 ^ Z.of_nat (S k)) 1024) as [Hd|Hd].
    + exists k. split_and!; [lia|lia|done|done|].
      apply Z.nle_gt. intros Hge. apply (Z.div_le_mono _ _ (1024 ^ Z.of_nat (S k))) in Hge; [|lia].
      rewrite Nat2Z.inj_succ, Z.pow_succ_r, Z.div_mul in Hge by lia. lia.
    + assert (1024 ^ Z.of_nat (S (S k)) ≤ bytes) as Hnext.
      { rewrite Nat2Z.inj_succ, Z.pow_succ_r by lia.
        pose proof (Z.mul_div_le bytes (1024 ^ Z.of_nat (S k)) ltac:(lia)). nia. }
      assert (S k < 6)%nat as Hk'.
      { destruct (decide (k = 5)%nat) as [->|]; [|lia]. exfalso.
        change (1024 ^ Z.of_nat 7) with (2 ^ 70) in Hnext. lia. }
      destruct (IH bytes (S k)) as (e & He & E & Hr); [done|done|done|by replace (S (S k) + S fuel)%nat with (S k + S (S fuel))%nat by lia|].
      exists e. split; [lia|]. split; [|done]. rewrite <-E. f_equal.
      * rewrite Z.div_div by lia. f_equal. rewrite (Nat2Z.inj_succ (S k)), Z.pow_succ_r by lia. lia.
      * rewrite (Nat2Z.inj_succ (S k)), Z.pow_succ_r by lia. rewrite Z.mul_comm. apply u64_id.
        split; [lia|]. replace (1024 * 1024 ^ Z.of_nat (S k)) with (1024 ^ Z.of_nat (S (S k))); [lia|].
        by rewrite (Nat2Z.inj_succ (S k)), Z.pow_succ_r by lia.
Qed.

(** Every uint64 is printed without a panic; from 1024 bytes on, with the
    letter of the largest power of 1024 that does not exceed it, divided by that
    power, which is computed without overflow. *)
Theorem format_size_spec suffix bytes :
  is_u64 bytes →
  (bytes < 1024 → format_size suffix bytes = Ok (itoa bytes +:+ " B" +:+ suffix)) ∧
  (1024 ≤ bytes → ∃ (e : nat) letter, (e < 6)%nat ∧ String.get e letters = Some letter ∧
     1024 ^ Z.of_nat (S e) ≤ bytes < 1024 ^ Z.of_nat (S (S e)) ∧
     format_size suffix bytes
       = Ok (fixed 2 (fdiv (of_Z bytes) (of_Z (1024 ^ Z.of_nat (S e)))) +:+ " " +:+
             String letter ("iB" +:+ suffix))).
Proof.
  intros Hb. unfold format_size. split; intros Hs.
  - destruct (Z.eqb_spec bytes 0) as [->|]; [done|]. by rewrite (proj2 (Z.ltb_lt _ _) Hs).
  - rewrite (proj2 (Z.eqb_neq _ _)), (proj2 (Z.ltb_ge _ _)) by lia.
    destruct (unit_loop_spec 8 bytes 0) as (e & He & E & Hr); [done|lia|done| |].
    { unfold is_u64 in Hb. change (1024 ^ Z.of_nat (1 + 9)) with (2 ^ 100). lia. }
    unfold unit_of. change (1024 ^ Z.of_nat 1) with 1024 in E. rewrite E.
    destruct (String.get e letters) as [c|] eqn:Hc.
    + exists e, c. split_and!; [lia|done|apply Hr|apply Hr|done].
    + exfalso. do 6 (destruct e as [|e]; [done|]). lia.
Qed.

(** ** Lemmas: /proc/meminfo *)

(** The last line of a key has this value; the number is written in decimal. *)
Definition says (l : list string) (key : string) (value : Z) : Prop :=
  is_u64 value ∧ ∃ l1 line l2 rest, l = l1 ++ line :: l2 ∧ fields line = key :: itoa value :: rest ∧
    Forall (λ line, ∀ number rest, fields line ≠ key :: number :: rest) l2.
Definition mem_field (key : string) (m : MemInfo) : Z :=
  if bool_decide (key = "MemTotal:") then me_Total m
  else if bool_decide (key = "MemFree:") then me_Free m
  else if bool_decide (key = "Buffers:") then me_Buffers m
  else me_Cached m.
Lemma mem_line_field key m line :
  key ∈ ["MemTotal:"; "MemFree:"; "Buffers:"; "Cached:"] →
  mem_field key (mem_line m line) =
    match fields line with
    | k :: number :: _ => if bool_decide (k = key) then ParseUint number else mem_field key m
    | _ => mem_field key m
    end.
Proof.
  intros Hkey. unfold mem_line. destruct (fields line) as [|k [|number rest]]; [done|done|].
  rewrite !elem_of_cons, elem_of_nil in Hkey.
  destruct (decide (k = "MemTotal:")) as [->|H1]; [by destruct_or?; subst|].
  rewrite (bool_decide_eq_false_2 (k = "MemTotal:")) by done.
  destruct (decide (k = "MemFree:")) as [->|H2]; [by destruct_or?; subst|].
  rewrite (bool_decide_eq_false_2 (k = "MemFree:")) by done.
  destruct (decide (k = "Buffers:")) as [->|H3]; [by destruct_or?; subst|].
  rewrite (bool_decide_eq_false_2 (k = "Buffers:")) by done.
  destruct (decide (k = "Cached:")) as [->|H4]; [by destruct_or?; subst|].
  rewrite (bool_decide_eq_false_2 (k = "Cached:")) by done.
  rewrite bool_decide_eq_false_2; [done|]. intros ->. by destruct_or?.
Qed.
Lemma says_field key value l :
  key ∈ ["MemTotal:"; "MemFree:"; "Buffers:"; "Cached:"] → says l key value →
  ∀ m, mem_field key (foldl mem_line m l) = value.
Proof.
  intros Hkey (Hv & l1 & line & l2 & rest & -> & Hf & Hl2) m.
  rewrite foldl_app. cbn [foldl].
  assert (mem_field key (mem_line (foldl mem_line m l1) line) = value) as Hm.
  { rewrite mem_line_field by done. rewrite Hf, bool_decide_eq_true_2 by done. by apply ParseUint_itoa. }
  revert Hm. generalize (mem_line (foldl mem_line m l1) line). clear Hf.
  induction Hl2 as [|line' l2 Hl _ IH]; intros m' Hm; [done|]. cbn [foldl]. apply IH.
  rewrite mem_line_field by done. destruct (fields line') as [|k [|number rest']]; [done..|].
  rewrite bool_decide_eq_false_2; [done|]. intros ->. by apply (Hl number rest').
Qed.

(** The memory in use, from what /proc/meminfo says, whatever other lines there
    are: in MB, and at most the total; but when free memory, buffers and cache
    exceed the total, the difference wraps to almost 2^54 MB. *)
Theorem parse_memory_spec l total free buffers cached :
  says l "MemTotal:" total → says l "MemFree:" free → says l "Buffers:" buffers →
  says l "Cached:" cached →
  ∃ used, parse_memory (l, None) = Ok (used, total / 1024) ∧
    (free + buffers + cached ≤ total →
       used = (total - free - buffers - cached) / 1024 ∧ used ≤ total / 1024) ∧
    (total < free + buffers + cached ≤ total + 2 ^ 63 → 2 ^ 53 ≤ used).
Proof.
  intros Ht Hf Hb Hc. unfold parse_memory, mem_figures. cbn [fst snd].
  assert (∀ key v, key ∈ ["MemTotal:"; "MemFree:"; "Buffers:"; "Cached:"] → says l key v →
    ∀ m, mem_field key (foldl mem_line m l) = v) as Hs by (intros; by apply says_field).
  set (m := foldl mem_line _ l).
  assert (me_Total m = total) as -> by exact (Hs "MemTotal:" total ltac:(set_solver) Ht _).
  assert (me_Free m = free) as -> by exact (Hs "MemFree:" free ltac:(set_solver) Hf _).
  assert (me_Buffers m = buffers) as -> by exact (Hs "Buffers:" buffers ltac:(set_solver) Hb _).
  assert (me_Cached m = cached) as -> by exact (Hs "Cached:" cached ltac:(set_solver) Hc _).
  eexists. split; [done|]. destruct Ht as [Ht _], Hf as [Hf _], Hb as [Hb _], Hc as [Hc _].
  unfold is_u64 in *. split.
  - intros Hle. rewrite u64_id by (unfold is_u64; lia). split; [done|]. apply Z.div_le_mono; lia.
  - intros Hover. apply Z.div_le_lower_bound; [lia|].
    assert (u64 (total - free - buffers - cached) = total - free - buffers - cached + 2 ^ 64) as ->; [|lia].
    unfold u64. symmetry. apply (Z.mod_unique_pos _ _ (-1)); lia.
Qed.

(** ** Lemmas: the goroutines *)

Class MachineSafe `{Machine} := {
  ms_Open path : safe (os_Open path); ms_ReadFile path : safe (os_ReadFile path);
  ms_LinkList : safe nl_LinkList; ms_Now : safe time_Now;
}.
Section life_lemmas.
Context `{MachineSafe} `{FloatToUint}.

Lemma safe_or_zero {A} (zero : A) m : safe m → safe (or_zero zero m).
Proof.
  intros Hm. unfold or_zero. apply safe_attempt_bind; [done|].
  intros [a|e|w] Hr; [apply safe_ret|apply safe_ret|done].
Qed.
Lemma safe_readCPUStat : safe readCPUStat.
Proof.
  apply safe_bind; [apply ms_Open|]. intros file. apply safe_lift. unfold parse_cpu.
  destruct (List.filter _ _); [by destruct (scan_file file).2|]. by case_match.
Qed.
Lemma safe_GetSystemMetrics : safe GetSystemMetrics.
Proof.
  apply safe_bind; [apply ms_Now|]. intros now.
  apply safe_bind; [apply safe_or_zero; repeat (apply safe_bind; [apply safe_readCPUStat|intros ?]); apply safe_ret|].
  intros cpu. apply safe_bind.
  { apply safe_or_zero, safe_bind; [apply ms_Open|]. intros file. apply safe_lift.
    unfold parse_memory. by destruct (scan_file file).2. }
  intros [used total]. apply safe_bind; [|intros [[l1 l5] l15]; apply safe_ret].
  apply safe_or_zero, safe_bind; [apply ms_ReadFile|]. intros data. apply safe_lift. unfold parse_load.
  by destruct (fields data) as [|? [|? [|? ?]]].
Qed.
Lemma safe_link_metrics links : safe (link_metrics links).
Proof.
  induction links as [|link links IH]; [apply safe_ret|]. cbn [link_metrics].
  case_bool_decide; [done|]. destruct (ls_Statistics link); [|done].
  apply safe_bind; [apply ms_Now|]. intros now. apply safe_bind; [done|]. intros metrics. apply safe_ret.
Qed.
Lemma safe_GetInterfaceMetrics : safe GetInterfaceMetrics.
Proof. apply safe_bind; [apply safe_wrapM, ms_LinkList|apply safe_link_metrics]. Qed.

Definition monitor_ok (m : Monitor) : Prop :=
  ∃ don, histories_of don (mp_bandwidthHistory (mo_provider m)).
Lemma wp_on_machine {A} (k : M machine A) m :
  safe k → wp (on_machine k) m (λ _ m', mo_provider m' = mo_provider m)
    (λ m', mo_provider m' = mo_provider m).
Proof.
  intros Hk. unfold wp, on_machine. specialize (Hk (mo_machine m)).
  by destruct (k (mo_machine m)) as [[a|e|w] s'].
Qed.
Lemma updateMetrics_ok m : monitor_ok m →
  no_panic (updateMetrics m).1 ∧ monitor_ok (updateMetrics m).2.
Proof.
  intros Hm. assert (wp updateMetrics m (λ _, monitor_ok) monitor_ok) as Hw.
  2: { unfold wp in Hw. by destruct (updateMetrics m) as [[a|e|w] m']. }
  unfold updateMetrics, monitor_ok in *. apply wp_bind.
  eapply wp_mono; [apply wp_on_machine, safe_GetSystemMetrics| |by intros m1 ->]; cbn beta.
  intros sys m1 Hm1. apply wp_bind. unfold update_provider at 1. unfold wp at 1, modify. cbn -[wp mbind].
  rewrite Hm1. apply wp_bind, wp_attempt.
  eapply wp_mono; [apply wp_on_machine, safe_GetInterfaceMetrics| |]; cbn beta.
  2: { intros m2 Hm2 e. apply wp_ret. by rewrite Hm2. }
  intros l m2 Hm2. apply wp_bind.
  eapply wp_mono; [apply wp_on_machine, ms_Now| |by intros m3 ->; rewrite Hm2]; cbn beta.
  intros now m3 Hm3. apply wp_bind, wp_gets, wp_bind, wp_lift. rewrite Hm3, Hm2. cbn [mo_provider].
  destruct Hm as [don Hm].
  destruct (store_metrics_histories l now (set_systemMetrics sys (mo_provider m)) don Hm)
    as (p' & -> & _ & Hh). by eexists.
Qed.

(** With calls one after the other: every channel but the current one is closed,
    and how far the last call is says whether that one is. *)
Definition is_done (c : call_pc) : Prop := ∃ restart, c = CDone restart.
Definition call_ok (s : Life) (c : call_pc) : Prop :=
  match c with
  | CCheck _ => True
  | CClose _ | CGo | CDone true => li_stopChan s ∉ li_closed s
  | CMake | CDone false => li_stopChan s ∈ li_closed s
  end.
Definition loop_ok (s : Life) (l : loop_pc) : Prop :=
  match l with Selecting ch => (ch < li_made s)%nat | _ => True end.
Record life_ok (s : Life) : Prop := {
  lk_monitor : monitor_ok (li_monitor s);
  lk_panic : li_panic s = false;
  lk_chan : (li_stopChan s < li_made s)%nat;
  lk_closed : ∀ ch, ch ∈ li_closed s → (ch < li_made s)%nat;
  lk_open : ∀ ch, (ch < li_made s)%nat → ch ∉ li_closed s → ch = li_stopChan s;
  lk_loops : Forall (loop_ok s) (li_loops s);
  lk_calls : li_calls s = [] ∨
    ∃ before c, li_calls s = before ++ [c] ∧ Forall is_done before ∧ call_ok s c;
}.
(** Only the last call can be under way. *)
Lemma last_call s i c :
  life_ok s → li_calls s !! i = Some c → ¬ is_done c →
  ∃ before, i = length before ∧ li_calls s = before ++ [c] ∧ Forall is_done before ∧ call_ok s c.
Proof.
  intros Hs Hi Hc. destruct (lk_calls s Hs) as [Hn|(before & c' & Hcalls & Hb & Hok)].
  { by rewrite Hn in Hi. }
  rewrite Hcalls in Hi. exists before.
  apply lookup_app_Some in Hi as [Hi|[Hl Hi]].
  - rewrite Forall_lookup in Hb. by destruct Hc; eapply Hb.
  - apply list_lookup_singleton_Some in Hi as [Hz ->]. assert (i = length before) as -> by lia. done.
Qed.
Lemma insert_last {A} (l : list A) x y : <[length l := y]> (l ++ [x]) = l ++ [y].
Proof. rewrite insert_app_r_alt by done. by rewrite Nat.sub_diag. Qed.
(** A call that goes one step on, and nothing else changed but the channels. *)
Lemma next_call s s' before c c' :
  life_ok s → li_calls s = before ++ [c] → Forall is_done before →
  li_calls s' = <[length before := c']> (li_calls s) →
  li_monitor s' = li_monitor s → li_panic s' = false → call_ok s' c' →
  (li_stopChan s' < li_made s')%nat → (∀ ch, ch ∈ li_closed s' → (ch < li_made s')%nat) →
  (∀ ch, (ch < li_made s')%nat → ch ∉ li_closed s' → ch = li_stopChan s') →
  Forall (loop_ok s') (li_loops s') → life_ok s'.
Proof.
  intros Hs Hc Hb Hc' Hm Hp Hok Hch Hcl Hop Hl. split; try done.
  - rewrite Hm. apply Hs.
  - right. exists before, c'. split; [|done]. by rewrite Hc', Hc, insert_last.
Qed.
Lemma loops_grow s s' l : Forall (loop_ok s) l → (li_made s ≤ li_made s')%nat → Forall (loop_ok s') l.
Proof. intros Hl Hm. eapply Forall_impl; [exact Hl|]. intros [|ch|]; cbn; [done|lia|done]. Qed.

Lemma life_ok_call s s' : call_step s s' → life_ok s → life_ok s'.
Proof.
  intros Hstep Hs. destruct Hstep as [i restart s Hi|i restart s Hi|i s Hi|i s Hi];
    pose proof Hs as [_ Hpan Hchan Hclosed Hopen Hloops _];
    destruct (last_call s i _ Hs Hi ltac:(by intros [? [=]])) as (before & -> & Hc & Hb & Hok).
  - unfold stop_check. eapply (next_call s); try done.
    destruct (decide _); [|done]. by destruct restart.
  - unfold stop_close. rewrite decide_False by done. eapply (next_call s); try done; cbn.
    + destruct restart; cbn; set_solver.
    + set_solver.
    + intros ch Hlt Hnot. apply Hopen; [done|set_solver].
  - eapply (next_call s); try done; cbn.
    + intros Hin. apply Hclosed in Hin. lia.
    + lia.
    + intros ch Hin. apply Hclosed in Hin. lia.
    + intros ch Hlt Hnot. destruct (decide (ch = li_made s)) as [|Hne]; [done|].
      assert (ch = li_stopChan s) as -> by (apply Hopen; [lia|done]). done.
    + apply (loops_grow s); [done|cbn; lia].
  - eapply (next_call s); try done; cbn.
    apply Forall_app. split; [done|by repeat constructor].
Qed.
Lemma life_ok_tick s s' : tick_step s s' → life_ok s → life_ok s'.
Proof.
  intros Hstep [Hmon Hpan Hchan Hclosed Hopen Hloops Hcalls].
  destruct Hstep as [s1 s2 [j s3 Hj|j ch s3 Hj Hch]|j ch s1 Hj].
  - unfold run_update. destruct (updateMetrics_ok (li_monitor s3) Hmon) as [Hn Hm].
    destruct (updateMetrics (li_monitor s3)) as [r m]. cbn in Hn, Hm.
    split; cbn; try done; [by destruct r|]. by apply Forall_insert.
  - split; cbn; try done. by apply Forall_insert.
  - split; cbn; try done. by apply Forall_insert.
Qed.
Lemma life_ok_begin restart m s :
  monitor_ok m → all_done s → life_ok s → life_ok (begin_call restart m s).
Proof.
  intros Hm Hd [Hmon Hpan Hchan Hclosed Hopen Hloops Hcalls]. split; cbn; try done.
  right. by exists (li_calls s), (CCheck restart).
Qed.
Lemma life_ok_step s s' : life_step false s s' → life_ok s → life_ok s'.
Proof.
  intros [config s1 [[=]|Hd]|s1 [[=]|Hd]|s1 s2 Hc|s1 s2 Hl] Hs.
  - apply life_ok_begin; [|done|done]. apply Hs.
  - apply life_ok_begin; [|done|done]. apply Hs.
  - by eapply life_ok_call.
  - by eapply life_ok_tick.
Qed.
Lemma life_ok_start m now : life_ok (life_start m now).
Proof.
  split; cbn; try done; try set_solver; try lia.
  - exists []. intros name. cbn. by rewrite lookup_empty.
Qed.
Lemma life_reachable m now s : rtc (life_step false) (life_start m now) s → life_ok s.
Proof.
  revert s. apply rtc_ind_r; [apply life_ok_start|]. intros y z _ Hs Hy. by eapply life_ok_step.
Qed.

(** Without the ticker every step brings a goroutine nearer to its end. *)
Definition loop_left (l : loop_pc) : nat :=
  match l with Updating => 2 | Selecting _ => 1 | Ended => 0 end.
Definition loops_left (s : Life) : nat := sum_list_with loop_left (li_loops s).
Lemma sum_insert l : ∀ j x y, l !! j = Some x → (loop_left y < loop_left x)%nat →
  (sum_list_with loop_left (<[j := y]> l) < sum_list_with loop_left l)%nat.
Proof.
  induction l as [|a l IH]; intros [|j] x y Hj Hlt; [done|done| |].
  - injection Hj as ->. cbn [insert list_insert sum_list_with]. lia.
  - change (<[S j := y]> (a :: l)) with (a :: <[j := y]> l). cbn [sum_list_with].
    specialize (IH j x y Hj Hlt). lia.
Qed.
Lemma loops_left_step s s' : loop_step s s' → (loops_left s' < loops_left s)%nat.
Proof.
  intros [j s1 Hj|j ch s1 Hj _]; unfold loops_left.
  - assert (li_loops (run_update j s1) = <[j := Selecting (li_stopChan s1)]> (li_loops s1)) as ->
      by (unfold run_update; by destruct (updateMetrics _)).
    eapply sum_insert; [done|cbn; lia].
  - cbn. eapply sum_insert; [done|cbn; lia].
Qed.
(** Every channel that exists is closed, and stays so. *)
Definition all_closed (s : Life) : Prop :=
  life_ok s ∧ ∀ ch, (ch < li_made s)%nat → ch ∈ li_closed s.
Lemma all_closed_tick s s' : tick_step s s' → all_closed s → all_closed s'.
Proof.
  intros Hstep [Hs Hc]. split; [by eapply life_ok_tick|].
  destruct Hstep as [s1 s2 [j s3 Hj|j ch s3 Hj _]|j ch s1 Hj]; [|done..].
  unfold run_update. by destruct (updateMetrics _).
Qed.
Lemma all_closed_ticks s s' : rtc tick_step s s' → all_closed s → all_closed s'.
Proof. induction 1 as [|x y z Hxy _ IH]; [done|]. intros Hx. by eapply IH, all_closed_tick. Qed.
Lemma all_closed_stuck s : all_closed s → (∀ s', ¬ loop_step s s') → Forall (.= Ended) (li_loops s).
Proof.
  intros [Hs Hc] Hstuck. apply Forall_lookup. intros j [|ch|] Hj; [| |done].
  - destruct (Hstuck _ (lo_update j s Hj)).
  - assert (ch < li_made s)%nat as Hlt.
    { pose proof (lk_loops s Hs) as Hl. rewrite Forall_lookup in Hl. apply (Hl _ _ Hj). }
    destruct (Hstuck _ (lo_stop j ch s Hj (Hc _ Hlt))).
Qed.
End life_lemmas.


(** The state of the channels and goroutines, which is all that the following
    runs are about. *)
Lemma run_update_life `{Machine} `{FloatToUint} j s :
  li_stopChan (run_update j s) = li_stopChan s ∧ li_closed (run_update j s) = li_closed s ∧
  li_loops (run_update j s) = <[j := Selecting (li_stopChan s)]> (li_loops s) ∧
  li_calls (run_update j s) = li_calls s.
Proof. unfold run_update. by destruct (updateMetrics _). Qed.
(** A call of ApplyConfig with monitoring enabled, from start to end, when the
    current channel is open. *)
Definition restarted `{Machine} (config : MonitoringConfig) (s : Life) : Life :=
  let i := length (li_calls s) in
  start_loop i (make_chan i (stop_close i true (stop_check i true (ApplyConfig config s)))).
Lemma restart_run `{Machine} `{FloatToUint} config s :
  mc_Enabled config = true → all_done s → li_stopChan s ∉ li_closed s →
  rtc (life_step false) s (restarted config s) ∧ all_done (restarted config s) ∧
  li_stopChan (restarted config s) = li_made s ∧ li_made (restarted config s) = S (li_made s) ∧
  li_closed (restarted config s) = {[li_stopChan s]} ∪ li_closed s ∧
  li_loops (restarted config s) = li_loops s ++ [Updating].
Proof.
  intros He Hd Ho. unfold restarted.
  assert (ApplyConfig config s = begin_call true (set_config config (li_monitor s)) s) as Ha
    by (unfold ApplyConfig; by rewrite He).
  assert (stop_check (length (li_calls s)) true (ApplyConfig config s)
    = set_call (length (li_calls s)) (CClose true) (ApplyConfig config s)) as Hc
    by (unfold stop_check; rewrite Ha; cbn; by rewrite decide_False by done).
  rewrite Hc. unfold stop_close. rewrite Ha. cbn. rewrite decide_False by done.
  split; [|split; [|done]].
  - eapply rtc_l; [by apply (li_apply _ config); right|]. rewrite Ha.
    eapply rtc_l; [apply li_call, (ca_check (length (li_calls s)) true); cbn; by rewrite lookup_app_r, Nat.sub_diag by done|].
    rewrite <-Ha, Hc, Ha.
    eapply rtc_l; [apply li_call, (ca_close (length (li_calls s)) true); cbn; by rewrite insert_last, lookup_app_r, Nat.sub_diag by done|].
    unfold stop_close. cbn. rewrite decide_False by done.
    eapply rtc_l; [apply li_call, (ca_make (length (li_calls s))); cbn; by rewrite !insert_last, lookup_app_r, Nat.sub_diag by done|].
    eapply rtc_l; [apply li_call, (ca_go (length (li_calls s))); cbn; by rewrite !insert_last, lookup_app_r, Nat.sub_diag by done|].
    apply rtc_refl.
  - unfold all_done. cbn. rewrite !insert_last. apply Forall_app. split; [done|].
    repeat constructor. by eexists.
Qed.

(** A configuration that is applied again while the goroutine updates its
    metrics leaves two of them, on the same open channel. *)
Theorem restart_leaves_two_loops `{Machine} `{FloatToUint} config m now :
  mc_Enabled config = true →
  ∃ s, rtc (life_step false) (life_start m now) s ∧ all_done s ∧
    li_loops s = [Selecting 2; Selecting 2] ∧ 2%nat ∉ li_closed s.
Proof.
  intros He.
  destruct (restart_run config (life_start m now) He) as (R1 & D1 & S1 & M1 & C1 & L1);
    [by constructor|cbn; set_solver|].
  revert R1 D1 S1 M1 C1 L1. generalize (restarted config (life_start m now)).
  intros s1 R1 D1 S1 M1 C1 L1. cbn in M1, L1, S1, C1.
  destruct (restart_run config s1 He D1) as (R2 & D2 & S2 & M2 & C2 & L2).
  { rewrite S1, C1. set_solver. }
  revert R2 S2 M2 C2 L2 D2. generalize (restarted config s1). intros s2 R2 S2 M2 C2 L2 D2.
  rewrite L1 in L2. rewrite M1 in S2.
  assert (2%nat ∉ li_closed s2) as Hopen by (rewrite C2, C1, S1; set_solver).
  destruct (run_update_life 0 s2) as (S3 & C3 & L3 & D3).
  destruct (run_update_life 1 (run_update 0 s2)) as (S4 & C4 & L4 & D4).
  exists (run_update 1 (run_update 0 s2)). split; [|split; [|split]].
  - etrans; [exact R1|]. etrans; [exact R2|].
    eapply rtc_l; [apply li_loop, ti_loop, (lo_update 0); by rewrite L2|].
    eapply rtc_l; [apply li_loop, ti_loop, (lo_update 1); by rewrite L3, L2|]. apply rtc_refl.
  - unfold all_done. by rewrite D4, D3.
  - by rewrite L4, L3, L2, S3, S2.
  - by rewrite C4, C3.
Qed.
(** Two calls that overlap close the channel twice, and the plugin is gone. *)
Theorem overlapping_stops_panic `{Machine} `{FloatToUint} m now :
  ∃ s, rtc (life_step true) (life_start m now) s ∧ li_panic s = true.
Proof.
  eexists. split.
  - eapply rtc_l; [apply li_flush; by left|]. eapply rtc_l; [apply li_flush; by left|].
    eapply rtc_l; [by apply li_call, (ca_check 0 false)|].
    eapply rtc_l; [by apply li_call, (ca_check 1 false)|].
    eapply rtc_l; [by apply li_call, (ca_close 0 false)|].
    eapply rtc_l; [by apply li_call, (ca_close 1 false)|]. apply rtc_refl.
  - reflexivity.
Qed.

(** ** The properties at concrete inputs *)

(** A machine whose counters are given for each reading, five seconds apart. *)
Record Script := { sc_now : Z; sc_links : list (list LinkStats) }.
Definition stat_text : string := "cpu  100 0 50 800 50" +:+ nl +:+ "cpu0 100 0 50 800 50" +:+ nl.
Definition meminfo_text : string :=
  "MemTotal:        2048000 kB" +:+ nl +:+ "MemFree:         1024000 kB" +:+ nl +:+
  "MemAvailable:    1500000 kB" +:+ nl +:+ "Buffers:           10240 kB" +:+ nl +:+
  "Cached:           204800 kB" +:+ nl +:+ "SwapCached:            0 kB" +:+ nl.
Definition scripted : Machine := {|
  machine := Script;
  os_Open path s :=
    (Ok (if bool_decide (path = "/proc/stat") then stat_text else meminfo_text, None), s);
  os_ReadFile _ s := (Ok "0.52 0.48 0.40 1/123 4567", s);
  nl_LinkList s :=
    match sc_links s with
    | l :: links => (Ok l, {| sc_now := sc_now s + 5 * Second; sc_links := links |})
    | [] => (Err (StdError "netlink" "timeout"), s)
    end;
  time_Now s := (Ok (sc_now s), s);
|}.
Definition scripted_safe : @MachineSafe scripted.
Proof. split; intros; intros s; cbn; try done. by destruct (sc_links s). Defined.
Definition eth0 (rx tx : Z) : LinkStats :=
  {| ls_Name := "eth0"; ls_Up := true;
     ls_Statistics := Some {| ct_RxBytes := rx; ct_TxBytes := tx; ct_RxPackets := 0;
       ct_TxPackets := 0; ct_RxErrors := 0; ct_TxErrors := 0 |} |}.
Definition reading (l : list (list LinkStats)) : @Monitor scripted :=
  @Build_Monitor scripted (NewMonitoringProvider 0) {| sc_now := 0; sc_links := l |}.
Definition update (m : @Monitor scripted) : @Monitor scripted :=
  (@updateMetrics scripted amd64_float_to_uint m).2.
Definition rates_of (m : @Monitor scripted) : list (string * Z * Z) :=
  (λ i, (im_Name i, im_RXBytesRate i, im_TXBytesRate i)) <$>
    mp_interfaceMetrics (@mo_provider scripted m).

(** Five megabytes in five seconds; then the interface is created anew, and its
    counter starts from zero. *)
Example rates_over_three_readings :
  let m2 := update (update (reading [[eth0 1000 0]; [eth0 5001000 10]; [eth0 0 10]])) in
  rates_of m2 = [("eth0", 1000000, 2)].
Proof. vm_compute. reflexivity. Qed.
Example counter_reset_wraps :
  let m3 := update (update (update (reading [[eth0 1000 0]; [eth0 5001000 10]; [eth0 0 10]]))) in
  rates_of m3 = [("eth0", 3689348814740910080, 0)] ∧
  formatBandwidth 3689348814740910080 = Ok "3.20 EiB/s".
Proof. vm_compute. split; reflexivity. Qed.
(** The idle time of a CPU may go backwards; the usage is then far below zero. *)
Example idle_going_backwards : fixed 1 (cpu_percent (100, 1000) (99, 1010)) = "-184467440737095516160.0".
Proof. vm_compute. reflexivity. Qed.
Example usage_of_half_a_second : fixed 1 (cpu_percent (100, 1000) (125, 1050)) = "50.0".
Proof. vm_compute. reflexivity. Qed.
(** A number that does not fit is not read as zero, as the comment says. *)
Example large_number : ParseUint "99999999999999999999" = max_uint64 ∧ ParseUint "12x" = 0.
Proof. vm_compute. split; reflexivity. Qed.
Example memory_in_use : (@getMemoryInfo scripted {| sc_now := 0; sc_links := [] |}).1 = Ok (790, 2000).
Proof. vm_compute. reflexivity. Qed.
Example rounding_up_a_unit : formatBytes 1048575 = Ok "1024.00 KiB".
Proof. vm_compute. reflexivity. Qed.

Definition sample_lines : list string := fst (scan_file (meminfo_text, None)).
Lemma sample_says key value l1 line l2 rest :
  is_u64 value → sample_lines = l1 ++ line :: l2 → fields line = key :: itoa value :: rest →
  forallb (λ line, match fields line with k :: _ => negb (String.eqb k key) | [] => true end) l2 = true →
  says sample_lines key value.
Proof.
  intros Hv -> Hf Hall. split; [done|]. exists l1, line, l2, rest. split; [done|]. split; [done|].
  apply Forall_forall. intros line' Hin number rest' Hf'.
  rewrite forallb_forall in Hall. apply list_elem_of_In, Hall in Hin. rewrite Hf' in Hin.
  by rewrite String.eqb_refl in Hin.
Qed.
Lemma parse_memory_spec_witness :
  parse_memory (sample_lines, None) = Ok (790, 2000).
Proof.
  destruct (parse_memory_spec sample_lines 2048000 1024000 10240 204800) as (used & E & Hu & _).
  - refine (sample_says "MemTotal:" 2048000 [] "MemTotal:        2048000 kB" (drop 1 sample_lines) ["kB"] _ _ _ _); [by unfold is_u64; lia|vm_compute; reflexivity..].
  - refine (sample_says "MemFree:" 1024000 (take 1 sample_lines) "MemFree:         1024000 kB" (drop 2 sample_lines) ["kB"] _ _ _ _); [by unfold is_u64; lia|vm_compute; reflexivity..].
  - refine (sample_says "Buffers:" 10240 (take 3 sample_lines) "Buffers:           10240 kB" (drop 4 sample_lines) ["kB"] _ _ _ _); [by unfold is_u64; lia|vm_compute; reflexivity..].
  - refine (sample_says "Cached:" 204800 (take 4 sample_lines) "Cached:           204800 kB" (drop 5 sample_lines) ["kB"] _ _ _ _); [by unfold is_u64; lia|vm_compute; reflexivity..].
  - rewrite E. destruct (Hu ltac:(lia)) as [-> _]. reflexivity.
Defined.
Lemma format_size_spec_witness :
  ∃ (e : nat) letter, (e < 6)%nat ∧ String.get e letters = Some letter ∧
    formatBytes max_uint64 = Ok (fixed 2 (fdiv (of_Z max_uint64) (of_Z (1024 ^ Z.of_nat (S e)))) +:+ " " +:+
      String letter "iB").
Proof.
  destruct (proj2 (format_size_spec "" max_uint64 ltac:(by split)) ltac:(done))
    as (e & letter & He & Hl & _ & E).
  exists e, letter. split; [exact He|]. split; [exact Hl|exact E].
Defined.

(** Monitoring is enabled, then flushed. *)
Definition on : MonitoringConfig := {| mc_Enabled := true; mc_CollectionInterval := 60 |}.
Definition running : @Life scripted := @restarted scripted on
  (@life_start scripted {| sc_now := 0; sc_links := [[eth0 1 1]] |} 0).
Definition flushed : @Life scripted :=
  @stop_close scripted 1 false (@stop_check scripted 1 false (@Flush scripted running)).
(** The status still says that monitoring is enabled. *)
Example flushed_is_enabled :
  sd_enabled (Status (@mo_provider scripted (@li_monitor scripted flushed))) = true ∧
  @li_calls scripted flushed = [CDone true; CDone false].
Proof. vm_compute. split; reflexivity. Qed.
Lemma flushed_reachable :
  rtc (@life_step scripted amd64_float_to_uint false)
    (@life_start scripted {| sc_now := 0; sc_links := [[eth0 1 1]] |} 0) flushed.
Proof.
  destruct (@restart_run scripted amd64_float_to_uint on
    (@life_start scripted {| sc_now := 0; sc_links := [[eth0 1 1]] |} 0)) as (R & D & _);
    [done|by constructor|cbn; set_solver|].
  etrans; [exact R|]. fold running in *.
  eapply rtc_l; [by apply li_flush; right|].
  eapply rtc_l; [by apply li_call, (@ca_check scripted 1 false)|].
  eapply rtc_l; [by apply li_call, (@ca_close scripted 1 false)|]. apply rtc_refl.
Qed.
