(* ===== verification/Inspect.v ===== *)
(** * Inspect: system/inspect.go and the info command of daemon/server.go

    The status of the machine, its interfaces and the daemon process, with the
    status of every plugin: what [jack status] shows.  The kernel and its files
    are the [Kernel] of [Netlink]; what only this file of the program asks for
    is the class [Inspection].  The times are float64 arithmetic as in Go.
    The theorem: info always answers, changes nothing but what plugins do to be
    asked, fails exactly when the links cannot be listed, and otherwise reports
    every link but lo and every plugin that tells its status. *)
From Stdlib Require Import SpecFloat.
From S2P Require Import Prelude GoStr Float64 Monitoring GoNet Types Json Value Struct Codec Diff ConfigStore State Registry Services Loader Order Server PluginCommands Observer Netlink Routes Network Snapshot Interfaces Apply.

(** ** What the operating system is asked *)

(** The counters are [attrs.Statistics], which may be nil; [in_Stat]: the
    modification time of os.Stat, in nanoseconds; [in_Output]: the standard
    output of a command. *)
Class Inspection `{Kernel} := {
  in_LinkList : M kernel (list (Link * option Counters));
  in_Stat : string → M kernel Z;
  in_Output : string → list string → M kernel string;
  in_Hostname : M kernel string;
  in_Now : M kernel Z;
  (* os.Getenv of the daemon's process *)
  in_Getenv : string → string;
}.

(** ** time.Duration *)
Definition Hour : Z := 3600 * Second.
Definition Minute : Z := 60 * Second.
Definition Duration_Hours (d : Z) : float :=
  fadd (of_Z (Z.quot d Hour)) (fdiv (of_Z (Z.rem d Hour)) (of_Z Hour)).
Definition Duration_Minutes (d : Z) : float :=
  fadd (of_Z (Z.quot d Minute)) (fdiv (of_Z (Z.rem d Minute)) (of_Z Minute)).
(** [int(x)] of a float that is far from the bounds of int. *)
Definition int_of (x : float) : Z := default 0 (truncate x).

Definition formatDuration (d : Z) : string :=
  let days := int_of (fdiv (Duration_Hours d) (of_Z 24)) in
  let hours := Z.rem (int_of (Duration_Hours d)) 24 in
  let minutes := Z.rem (int_of (Duration_Minutes d)) 60 in
  if 0 <? days then itoa days +:+ "d " +:+ itoa hours +:+ "h " +:+ itoa minutes +:+ "m"
  else if 0 <? hours then itoa hours +:+ "h " +:+ itoa minutes +:+ "m"
  else itoa minutes +:+ "m".

(** The error of [strconv.ParseFloat(s, 64)]: no number, or one that is too large. *)
Definition ParseFloat_fails (s : string) : bool :=
  let number (t : string) : bool :=
    negb (bool_decide (t ∈ ["inf"; "infinity"])) &&
    match parse_unsigned t with Some (S754_infinity _) | None => true | Some _ => false end in
  let word := to_lower s in
  negb (bool_decide (word = "nan")) &&
  match word with
  | "" => true
  | String c t =>
      if Ascii.eqb c hyphen || Ascii.eqb c (byte_of 43) then number t else number word
  end.
(** [time.Duration(f)]; out of range it is implementation-defined. *)
Definition Duration_of `{FloatToUint} (x : float) : Z :=
  match truncate x with
  | Some z => if in_int64 z then z else wrap64 (float_to_uint_overflow x)
  | None => wrap64 (float_to_uint_overflow x)
  end.

(** ** The records *)
Record InterfaceStatus := {
  is_Name : string; is_Type : string; is_Device : string; is_State : string;
  is_IPAddr : list string; is_MTU : Z; is_TXPackets : Z; is_RXPackets : Z; is_TXBytes : Z;
  is_RXBytes : Z; is_TXErrors : Z; is_RXErrors : Z;
}.
Record DaemonStatus := {
  ds_Uptime : string; ds_ConfigPath : string; ds_PID : Z; ds_Running : bool;
}.
Record SystemInfo := { sy_Hostname : string; sy_KernelVersion : string; sy_Uptime : string }.
Record SystemStatus := {
  ss_System : SystemInfo; ss_Interfaces : list InterfaceStatus; ss_Daemon : DaemonStatus;
  ss_IPForwarding : bool;
}.
(** A nil slice is null. *)
Definition enc_slice {A} (f : A → json) (l : list A) : json :=
  match l with [] => JNull | _ => JArr (f <$> l) end.
Definition enc_interface_status (i : InterfaceStatus) : json := JObj
  [("name", JStr (is_Name i)); ("type", JStr (is_Type i)); ("device", JStr (is_Device i));
   ("state", JStr (is_State i)); ("ipaddr", enc_slice JStr (is_IPAddr i));
   ("mtu", JInt (is_MTU i)); ("tx_packets", JInt (is_TXPackets i));
   ("rx_packets", JInt (is_RXPackets i)); ("tx_bytes", JInt (is_TXBytes i));
   ("rx_bytes", JInt (is_RXBytes i)); ("tx_errors", JInt (is_TXErrors i));
   ("rx_errors", JInt (is_RXErrors i))].
Definition enc_daemon_status (d : DaemonStatus) : json := JObj
  [("uptime", JStr (ds_Uptime d)); ("config_path", JStr (ds_ConfigPath d));
   ("pid", JInt (ds_PID d)); ("running", JBool (ds_Running d))].
Definition enc_system_info (s : SystemInfo) : json := JObj
  [("hostname", JStr (sy_Hostname s)); ("kernel_version", JStr (sy_KernelVersion s));
   ("uptime", JStr (sy_Uptime s))].

Section inspect.
Context `{Inspection} `{FloatToUint}.

(** ** GetSystemStatus *)
Definition getSocketPath : string :=
  let path := in_Getenv "JACK_SOCKET_PATH" in
  if bool_decide (path = "") then "/var/run/jack.sock" else path.

(** time.Since(stat.ModTime()). *)
Definition process_uptime (pid : Z) : M kernel string :=
  attempt (in_Stat ("/proc/" +:+ itoa pid)) ≫= λ stat,
  match stat with
  | Ok modTime => in_Now ≫= λ now, mret (formatDuration (time_Sub now modTime))
  | _ => mret ""
  end.
Definition getDaemonStatus : M kernel DaemonStatus :=
  attempt (in_Stat getSocketPath) ≫= λ socket,
  let running := match socket with Ok _ => true | _ => false end in
  attempt (in_Output "systemctl" ["show"; "-p"; "MainPID"; "--value"; "jack"]) ≫= λ output,
  let status pid uptime :=
    {| ds_Uptime := uptime; ds_ConfigPath := "/etc/jack"; ds_PID := pid; ds_Running := running |} in
  match output with
  | Ok output =>
      match atoi (trim_space output) with
      | Ok pid =>
          if 0 <? pid then process_uptime pid ≫= λ uptime, mret (status pid uptime)
          else mret (status 0 "")
      | _ => mret (status 0 "")
      end
  | _ => mret (status 0 "")
  end.

Definition interface_type (linkType : string) : string :=
  if bool_decide (linkType = "device") then "physical" else linkType.
Definition interface_status (link : Link * option Counters) : M kernel InterfaceStatus :=
  let '(attrs, statistics) := link in
  attempt (k_AddrList attrs) ≫= λ addrs,
  let count (f : Counters → Z) := from_option f 0 statistics in
  mret {| is_Name := lk_Name attrs; is_Type := interface_type (lk_Type attrs);
          is_Device := lk_Name attrs; is_State := if lk_Up attrs then "up" else "down";
          is_IPAddr := match addrs with Ok addrs => IPNet_String <$> addrs | _ => [] end;
          is_MTU := lk_MTU attrs; is_TXPackets := count ct_TxPackets;
          is_RXPackets := count ct_RxPackets; is_TXBytes := count ct_TxBytes;
          is_RXBytes := count ct_RxBytes; is_TXErrors := count ct_TxErrors;
          is_RXErrors := count ct_RxErrors |}.
Fixpoint interfaces_of (links : list (Link * option Counters)) : M kernel (list InterfaceStatus) :=
  match links with
  | [] => mret []
  | link :: links =>
      if bool_decide (lk_Name link.1 = "lo") then interfaces_of links
      else
        interface_status link ≫= λ iface,
        interfaces_of links ≫= λ interfaces, mret (iface :: interfaces)
  end.
Definition getInterfaceStatus : M kernel (list InterfaceStatus) := in_LinkList ≫= interfaces_of.

Definition kernel_version (data : string) : string :=
  match fields data with _ :: _ :: version :: _ => version | _ => "" end.
Definition uptime_text (data : string) : string :=
  match fields data with
  | seconds :: _ =>
      if ParseFloat_fails seconds then ""
      else formatDuration (Duration_of (fmul (ParseFloat seconds) (of_Z Second)))
  | [] => ""
  end.
Definition getSystemInfo : M kernel SystemInfo :=
  attempt in_Hostname ≫= λ hostname,
  attempt (k_ReadFile "/proc/version") ≫= λ version,
  attempt (k_ReadFile "/proc/uptime") ≫= λ uptime,
  let or_empty (f : string → string) (r : res string) :=
    match r with Ok s => f s | _ => "" end in
  mret {| sy_Hostname := or_empty id hostname; sy_KernelVersion := or_empty kernel_version version;
          sy_Uptime := or_empty uptime_text uptime |}.

Definition GetSystemStatus : M kernel SystemStatus :=
  getDaemonStatus ≫= λ daemon,
  wrapM "failed to get interface status: " getInterfaceStatus ≫= λ interfaces,
  getSystemInfo ≫= λ system,
  attempt (k_ReadFile "/proc/sys/net/ipv4/ip_forward") ≫= λ data,
  mret {| ss_System := system; ss_Interfaces := interfaces; ss_Daemon := daemon;
          ss_IPForwarding := match data with
                             | Ok data => bool_decide (trim_space data = "1")
                             | _ => false
                             end |}.
End inspect.

(** ** handleInfo *)
Section info.
Context `{Host} `{RangeOrder} `{Inspection} `{FloatToUint}.

Definition with_host (h : host) (w : World) : World :=
  {| w_state := w_state w; w_fs := w_fs w; w_registry := w_registry w;
     w_services := w_services w; w_host := h |}.
(** A plugin whose status cannot be read is left out. *)
Fixpoint plugin_statuses (namespaces : list string) (acc : gmap string json)
    : M World (gmap string json) :=
  match namespaces with
  | [] => mret acc
  | namespace :: namespaces =>
      gets (λ w, Registry.Get namespace (w_registry w)) ≫= λ plugin,
      match plugin with
      | None => plugin_statuses namespaces acc
      | Some plugin =>
          attempt (in_host (Status plugin)) ≫= λ status,
          plugin_statuses namespaces
            match status with
            | Ok status => <[namespace := enc_map Marshal status]> acc
            | _ => acc
            end
      end
  end.
Definition info_data (sysStatus : SystemStatus) (pluginStatuses : gmap string json) (pending : bool)
    : json := JObj
  [("daemon", enc_daemon_status (ss_Daemon sysStatus));
   ("interfaces", enc_slice enc_interface_status (ss_Interfaces sysStatus));
   ("ip_forwarding", JBool (ss_IPForwarding sysStatus)); ("pending", JBool pending);
   ("plugins", JObj (sorted_entries pluginStatuses));
   ("system", enc_system_info (ss_System sysStatus))].
Definition handleInfo : M Sys Response :=
  attempt (in_kernel GetSystemStatus) ≫= λ sysStatus,
  match sysStatus with
  | Err err => mret (fail_response ("failed to get system status: " +:+ error_string err))
  | Panic w => lift (Panic w)
  | Ok sysStatus =>
      in_world (gets (λ w, Registry.List (w_registry w))) ≫= λ namespaces,
      in_world (plugin_statuses namespaces ∅) ≫= λ pluginStatuses,
      in_world (with_state HasPending) ≫= λ pending,
      mret (ok_response (DJson (info_data sysStatus pluginStatuses pending))
              [PText "System status retrieved"])
  end.
End info.

(** ** Lemmas: info only looks *)

(** The listing with counters is the listing of the links; nothing that is asked
    changes the kernel. *)
Class InspectionLaws `{Inspection} `{!KernelLaws} := {
  il_LinkList k r k' : in_LinkList k = (r, k') →
    k' = k ∧ no_panic r ∧ ∀ l, r = Ok l → l.*1 = links_of k;
  il_Stat p k r k' : in_Stat p k = (r, k') → k' = k ∧ no_panic r;
  il_Output c args k r k' : in_Output c args k = (r, k') → k' = k ∧ no_panic r;
  il_Hostname k r k' : in_Hostname k = (r, k') → k' = k ∧ no_panic r;
  il_Now k : ∃ t, in_Now k = (Ok t, k);
}.

Section look.
Context `{InspectionLaws} `{!ReadLaws} `{FloatToUint}.
Ltac reads_by law :=
  intros k; match goal with |- ∃ r, ?c k = _ ∧ _ =>
    let E := fresh "E" in destruct (c k) as [r k'] eqn:E; apply law in E; destruct_and?; subst; eauto end.
Lemma reads_in_LinkList : reads in_LinkList.
Proof. reads_by il_LinkList. Qed.
Lemma reads_in_Stat p : reads (in_Stat p).
Proof. reads_by il_Stat. Qed.
Lemma reads_in_Output c args : reads (in_Output c args).
Proof. reads_by il_Output. Qed.
Lemma reads_in_Hostname : reads in_Hostname.
Proof. reads_by il_Hostname. Qed.

Lemma finds_getDaemonStatus : finds getDaemonStatus.
Proof.
  apply finds_bind; [apply finds_attempt, reads_in_Stat|]. intros socket.
  apply finds_bind; [apply finds_attempt, reads_in_Output|]. intros output.
  destruct output as [output| |]; [|apply finds_ret..].
  destruct (atoi _) as [pid| |]; [|apply finds_ret..]. destruct (0 <? pid); [|apply finds_ret].
  apply finds_bind; [|intros; apply finds_ret].
  apply finds_bind; [apply finds_attempt, reads_in_Stat|]. intros [modTime| |]; [|apply finds_ret..].
  apply finds_bind; [exact il_Now|]. intros now. apply finds_ret.
Qed.
Lemma finds_interface_status link : finds (interface_status link).
Proof.
  destruct link as [attrs stats]. apply finds_bind; [apply finds_attempt, reads_AddrList|].
  intros addrs. apply finds_ret.
Qed.
Lemma finds_getSystemInfo : finds getSystemInfo.
Proof.
  apply finds_bind; [apply finds_attempt, reads_in_Hostname|]. intros h.
  do 2 (apply finds_bind; [apply finds_attempt, reads_ReadFile|]; intros ?). apply finds_ret.
Qed.
(** The interfaces are the links but lo, each under its name. *)
Definition listed (links : list (Link * option Counters)) : list string :=
  List.filter (λ n, negb (bool_decide (n = "lo"))) (lk_Name <$> links.*1).
Lemma interfaces_of_spec links k :
  ∃ l, interfaces_of links k = (Ok l, k) ∧ is_Name <$> l = listed links.
Proof.
  induction links as [|[attrs stats] links (l & E & Hn)]; [by exists []|].
  unfold listed. cbn [interfaces_of fmap list_fmap fst List.filter].
  destruct (bool_decide (lk_Name attrs = "lo")); cbn [negb]; [by exists l|].
  destruct (k_AddrList attrs k) as [r k'] eqn:Ea. pose proof (kl_AddrList _ _ _ _ Ea) as (-> & Hr & _).
  destruct r as [addrs|e|p]; [..|done]; eexists; (split;
    [unfold interface_status, mbind, M_bind, attempt; cbn [fst snd]; rewrite Ea; cbn; by rewrite E|];
    cbn [fmap list_fmap is_Name]; by rewrite Hn).
Qed.
Lemma GetSystemStatus_spec k :
  ∃ r, GetSystemStatus k = (r, k) ∧ no_panic r ∧
    ((∃ s, r = Ok s) ↔ (∃ l, in_LinkList k = (Ok l, k))) ∧
    ∀ s, r = Ok s → is_Name <$> ss_Interfaces s
      = List.filter (λ n, negb (bool_decide (n = "lo"))) (lk_Name <$> links_of k).
Proof.
  unfold GetSystemStatus. destruct (finds_getDaemonStatus k) as [d Hd]. rewrite (bind_eq _ _ _ _ _ Hd).
  unfold getInterfaceStatus. destruct (in_LinkList k) as [r k'] eqn:El.
  pose proof (il_LinkList _ _ _ El) as (-> & Hr & Hl). unfold mbind at 1, M_bind at 1, wrapM at 1.
  unfold mbind at 1, M_bind at 1. rewrite El.
  destruct r as [l|e|p]; cbn; [|eexists; split_and!; [done|done| |done]|done].
  - destruct (interfaces_of_spec l k) as (ifs & -> & Hn). cbn.
    destruct (finds_getSystemInfo k) as [i Hi]. rewrite (bind_eq _ _ _ _ _ Hi).
    destruct (finds_attempt _ (reads_ReadFile "/proc/sys/net/ipv4/ip_forward") k) as [a Ha].
    rewrite (bind_eq _ _ _ _ _ Ha). eexists. split_and!; [done|done| |].
    + split; [eauto|]. intros _. eauto.
    + intros s [= <-]. cbn. rewrite Hn. unfold listed. by rewrite (Hl l).
  - split; [by intros [s Hs]|]. intros (l & Hl'). congruence.
Qed.
End look.

Section info_lemmas.
Context `{HostSafe} `{RangeOrder} `{InspectionLaws} `{!ReadLaws} `{FloatToUint}.

Lemma plugin_statuses_spec namespaces : ∀ acc w,
  ∃ m h, plugin_statuses namespaces acc w = (Ok m, with_host h w) ∧
    ∀ ns, is_Some (m !! ns) → is_Some (acc !! ns) ∨ is_Some (Registry.Get ns (w_registry w)).
Proof.
  induction namespaces as [|n namespaces IH]; intros acc w; cbn [plugin_statuses].
  { exists acc, (w_host w). split; [by destruct w|auto]. }
  unfold mbind at 1, M_bind at 1, gets at 1.
  destruct (Registry.Get n (w_registry w)) as [plugin|] eqn:Hp; [|apply IH].
  unfold mbind, M_bind, attempt, in_host.
  pose proof (safe_Status plugin (w_host w)) as Hs. destruct (Status plugin (w_host w)) as [r h1].
  set (w1 := {| w_state := _ |}).
  assert (∀ acc', (∀ ns, is_Some (acc' !! ns) → is_Some (acc !! ns) ∨ ns = n) →
    ∃ m h, plugin_statuses namespaces acc' w1 = (Ok m, with_host h w) ∧
      ∀ ns, is_Some (m !! ns) → is_Some (acc !! ns) ∨ is_Some (Registry.Get ns (w_registry w)))
    as Hrest.
  { intros acc' Ha. destruct (IH acc' w1) as (m & h & E & Hm). exists m, h. split; [done|].
    intros ns [[?| ->]%Ha|?]%Hm; eauto. }
  destruct r as [status|e|p]; [| |done]; apply Hrest; [|by auto].
  intros ns. destruct (decide (ns = n)) as [->|]; [by auto|]. rewrite lookup_insert_ne by done. auto.
Qed.

(** Info always answers, and changes nothing except in the plugin processes it
    asks: no configuration, file, registry, nor the kernel.  It succeeds exactly
    when the links can be listed; its data then has every link but lo, in the
    kernel's order, and otherwise only plugins that are registered. *)
Theorem info_only_looks s :
  ∃ resp h, handleInfo s = (Ok resp, {| sys_world := with_host h (sys_world s);
      sys_kernel := sys_kernel s; sys_observer := sys_observer s |}) ∧
    (rp_Success resp = true ↔ ∃ l, in_LinkList (sys_kernel s) = (Ok l, sys_kernel s)) ∧
    (rp_Success resp = true → ∃ status plugins,
      rp_Data resp = DJson (info_data status plugins (HasPending (w_state (sys_world s)))) ∧
      is_Name <$> ss_Interfaces status =
        List.filter (λ n, negb (bool_decide (n = "lo"))) (lk_Name <$> links_of (sys_kernel s)) ∧
      ∀ ns, is_Some (plugins !! ns) → is_Some (Registry.Get ns (w_registry (sys_world s)))).
Proof.
  destruct s as [w k o]. cbn [sys_world sys_kernel sys_observer].
  destruct (GetSystemStatus_spec k) as (r & E & Hr & Hok & Hn).
  unfold handleInfo, mbind, M_bind, attempt, in_kernel. cbn [sys_kernel sys_world sys_observer]. rewrite E.
  destruct r as [status|e|p]; [| |done].
  - unfold in_world at 1. cbn [sys_world sys_kernel sys_observer gets].
    destruct (plugin_statuses_spec (Registry.List (w_registry w)) ∅ w) as (m & h & Em & Hm).
    unfold in_world at 1. cbn [sys_world sys_kernel sys_observer]. rewrite Em.
    eexists _, h. split; [reflexivity|]. cbn [rp_Success ok_response rp_Data]. split.
    + split; [|done]. intros _. by apply Hok; eauto.
    + intros _. exists status, m. split; [reflexivity|]. split; [by apply Hn|].
      intros ns [[x Hx]|?]%Hm; [|done]. by rewrite lookup_empty in Hx.
  - eexists _, (w_host w). split; [by destruct w|]. cbn [rp_Success fail_response]. split; [|done].
    split; [done|]. intros Hl. apply Hok in Hl as [? ?]. discriminate.
Qed.
End info_lemmas.

(** ** At concrete inputs *)

(** A nanosecond before a full day the float64 rounds up. *)
Example durations :
  formatDuration (90 * Second) = "1m" ∧ formatDuration (3 * Hour + 25 * Minute) = "3h 25m" ∧
  formatDuration (49 * Hour + 59 * Minute + 59 * Second) = "2d 1h 59m" ∧
  formatDuration (400 * 24 * Hour - 1000) = "399d 23h 59m" ∧
  formatDuration (400 * 24 * Hour - 1) = "400d 0h 0m" ∧ formatDuration (- 1) = "0m".
Proof. vm_compute. split_and!; reflexivity. Qed.
Example uptimes :
  @uptime_text amd64_float_to_uint "93784.27 12.00" = "1d 2h 3m" ∧
  @uptime_text amd64_float_to_uint "soon" = "" ∧ kernel_version "Linux version 6.1.0-x (gcc)" = "6.1.0-x".
Proof. vm_compute. split_and!; reflexivity. Qed.

(** The kernel in memory, with counters, started half a minute before. *)
Definition memory_inspection : Inspection (H:=memory_kernel) := {|
  in_LinkList := λ m : @kernel memory_kernel,
    (Ok ((λ l, (l, Some {| ct_RxBytes := 1536; ct_TxBytes := 0; ct_RxPackets := 3; ct_TxPackets := 0;
       ct_RxErrors := 0; ct_TxErrors := 0 |})) <$> mem_links m), m);
  in_Stat _ := λ m, (Ok 0, m);
  in_Output _ _ := λ m, (Ok ("812" +:+ nl), m);
  in_Hostname := λ m, (Ok "router", m);
  in_Now := λ m, (Ok (30 * Second), m);
  in_Getenv _ := "";
|}.
Definition memory_inspection_laws : @InspectionLaws memory_kernel memory_inspection memory_laws.
Proof.
  split; try (by intros; simplify_eq/=).
  - intros k r k' [= <- <-]. split_and!; [done..|]. intros l [= <-]. rewrite <- list_fmap_compose.
    apply list_fmap_id.
  - intros k. by exists (30 * Second).
Defined.

Definition started : @Sys db_host memory_kernel := @Build_Sys db_host memory_kernel db_world
  (Interfaces.new_machine None) None.
Lemma info_only_looks_witness :
  ∃ resp h, @handleInfo db_host default_order memory_kernel memory_inspection amd64_float_to_uint started
      = (Ok resp, @Build_Sys db_host memory_kernel (with_host h db_world) (Interfaces.new_machine None) None) ∧
    rp_Success resp = true.
Proof.
  destruct (@info_only_looks db_host db_host_safe default_order memory_kernel memory_inspection
    memory_laws memory_inspection_laws memory_read_laws amd64_float_to_uint started)
    as (resp & h & E & Hok & _).
  exists resp, h. split; [exact E|]. apply Hok. eexists. reflexivity.
Defined.
