(* ===== verification/Client.v ===== *)
(** * Client: the socket between the command line and the daemon

    daemon/protocol.go, client/client.go and the connections of
    daemon/server.go.  A request and its response are one line of JSON each
    over a Unix socket, an abstract [Connection] of [Rpc] whose every step may
    fail.  A line is a JSON document, or no JSON at all; since a document never
    contains a newline, a line that arrives is the line that was written.
    The theorems: a request survives the socket but for what JSON does to its
    value; over any connection the daemon serves a request at most once, and a
    response that arrives is the daemon's. *)
From S2P Require Import Prelude GoStr Logger Float64 GoNet Types Json Value Struct Codec Path Diff ConfigStore State Registry Services Loader Rpc Order Server PluginCommands Observer Netlink Routes Network Snapshot Apply Daemon Inspect.

(** ** protocol.go as JSON *)

(** A whole daemon.Request. *)
Record Message := { ms_request : Request; ms_LogFilter : option LogFilter }.
Definition of_request (req : Request) : Message := {| ms_request := req; ms_LogFilter := None |}.
Definition zero_filter : LogFilter := {| lf_Level := ""; lf_Component := ""; lf_Tail := 0 |}.
Definition zero_message : Message := of_request
  {| rq_Value := VNil; rq_Command := ""; rq_Path := ""; rq_Plugin := ""; rq_CLICommand := "";
     rq_CLIArgs := []; rq_CheckpointID := "" |}.

(** A field with the option omitempty. *)
Definition optional (empty : bool) (tag : string) (j : json) : list (string * json) :=
  if empty then [] else [(tag, j)].
Definition optional_text (tag s : string) : list (string * json) :=
  optional (bool_decide (s = "")) tag (JStr s).
Definition enc_filter (f : LogFilter) : json := JObj
  (optional_text "level" (lf_Level f) ++ optional_text "component" (lf_Component f) ++
   optional (lf_Tail f =? 0) "tail" (JInt (lf_Tail f))).
Definition enc_message (m : Message) : json :=
  let req := ms_request m in JObj
  (optional (bool_decide (rq_Value req = VNil)) "value" (Marshal (rq_Value req)) ++
   [("command", JStr (rq_Command req))] ++
   optional_text "path" (rq_Path req) ++ optional_text "plugin" (rq_Plugin req) ++
   optional_text "cli_command" (rq_CLICommand req) ++
   optional (bool_decide (rq_CLIArgs req = [])) "cli_args" (JArr (JStr <$> rq_CLIArgs req)) ++
   optional_text "checkpoint_id" (rq_CheckpointID req) ++
   match ms_LogFilter m with None => [] | Some f => [("log_filter", enc_filter f)] end).

(** json.Unmarshal into a struct: [set] decodes into the field with a tag. *)
Section dec_record.
Context {A : Type} (tags : list string) (set : A → string → json → res A).
Fixpoint dec_members (a : A) (kvs : list (string * json)) : res A :=
  match kvs with
  | [] => Ok a
  | (k, j) :: kvs =>
      match find_key tags k with
      | None => dec_members a kvs
      | Some t => set a t j ≫= λ a, dec_members a kvs
      end
  end.
Definition dec_record (a : A) (j : json) : res A :=
  match j with
  | JNull => Ok a
  | JObj kvs => dec_members a kvs
  | _ => Err type_error
  end.
End dec_record.

Definition dec_int (old : Z) (j : json) : res Z := as_int <$> dec_base (VInt old) j.
Definition dec_bool (old : bool) (j : json) : res bool := as_bool <$> dec_base (VBool old) j.
Definition filter_tags : list string := ["level"; "component"; "tail"].
Definition set_filter (f : LogFilter) (t : string) (j : json) : res LogFilter :=
  if bool_decide (t = "level") then
    (λ s, {| lf_Level := s; lf_Component := lf_Component f; lf_Tail := lf_Tail f |})
      <$> dec_string (lf_Level f) j
  else if bool_decide (t = "component") then
    (λ s, {| lf_Level := lf_Level f; lf_Component := s; lf_Tail := lf_Tail f |})
      <$> dec_string (lf_Component f) j
  else
    (λ z, {| lf_Level := lf_Level f; lf_Component := lf_Component f; lf_Tail := z |})
      <$> dec_int (lf_Tail f) j.
Definition message_tags : list string :=
  ["value"; "command"; "path"; "plugin"; "cli_command"; "cli_args"; "checkpoint_id"; "log_filter"].
(** The request with one field changed. *)
Definition set_message (m : Message) (t : string) (j : json) : res Message :=
  let r := ms_request m in
  let put (value : value) (command path plugin cliCommand : string) (cliArgs : list string)
      (checkpointID : string) : Message :=
    {| ms_request := {| rq_Value := value; rq_Command := command; rq_Path := path;
         rq_Plugin := plugin; rq_CLICommand := cliCommand; rq_CLIArgs := cliArgs;
         rq_CheckpointID := checkpointID |}; ms_LogFilter := ms_LogFilter m |} in
  if bool_decide (t = "value") then
    Ok (put (Unmarshal_any j) (rq_Command r) (rq_Path r) (rq_Plugin r) (rq_CLICommand r)
          (rq_CLIArgs r) (rq_CheckpointID r))
  else if bool_decide (t = "command") then
    (λ s, put (rq_Value r) s (rq_Path r) (rq_Plugin r) (rq_CLICommand r) (rq_CLIArgs r)
            (rq_CheckpointID r)) <$> dec_string (rq_Command r) j
  else if bool_decide (t = "path") then
    (λ s, put (rq_Value r) (rq_Command r) s (rq_Plugin r) (rq_CLICommand r) (rq_CLIArgs r)
            (rq_CheckpointID r)) <$> dec_string (rq_Path r) j
  else if bool_decide (t = "plugin") then
    (λ s, put (rq_Value r) (rq_Command r) (rq_Path r) s (rq_CLICommand r) (rq_CLIArgs r)
            (rq_CheckpointID r)) <$> dec_string (rq_Plugin r) j
  else if bool_decide (t = "cli_command") then
    (λ s, put (rq_Value r) (rq_Command r) (rq_Path r) (rq_Plugin r) s (rq_CLIArgs r)
            (rq_CheckpointID r)) <$> dec_string (rq_CLICommand r) j
  else if bool_decide (t = "cli_args") then
    (λ l, put (rq_Value r) (rq_Command r) (rq_Path r) (rq_Plugin r) (rq_CLICommand r) l
            (rq_CheckpointID r)) <$> dec_slice dec_string "" (rq_CLIArgs r) j
  else if bool_decide (t = "checkpoint_id") then
    (λ s, put (rq_Value r) (rq_Command r) (rq_Path r) (rq_Plugin r) (rq_CLICommand r)
            (rq_CLIArgs r) s) <$> dec_string (rq_CheckpointID r) j
  else
    (λ f, {| ms_request := r; ms_LogFilter := f |})
      <$> dec_ptr (dec_record filter_tags set_filter) zero_filter (ms_LogFilter m) j.
Definition dec_message : json → res Message := dec_record message_tags set_message zero_message.

(** ** Responses *)

(** The texts fmt makes of a value under %v and of a string under %q, and the
    JSON of a time.Time, which depends on the time zone. *)
Class Texts := {
  text_v : value → string;
  text_q : string → string;
  text_time : Z → string;
}.
(** A daemon.Response as a client has it: its data has been through JSON. *)
Record Received := {
  rv_Data : value; rv_Message : string; rv_Error : string; rv_Success : bool;
}.

Section response.
Context `{Texts}.
Definition text_piece (p : piece) : string :=
  match p with PText s => s | PQuoted s => text_q s | PValue v => text_v v end.
Definition text_of (l : list piece) : string := foldr (λ p s, text_piece p +:+ s) "" l.
Definition enc_snapshot (s : SnapshotInfo) : json := JObj
  [("checkpoint_id", JStr (si_CheckpointID s)); ("timestamp", JStr (text_time (si_Timestamp s)));
   ("trigger", JStr (si_Trigger s))].
Definition enc_config (c : value + option config_obj) : json :=
  match c with inl v => Marshal v | inr c => marshal_config c end.
Definition enc_data (d : data) : json :=
  match d with
  | DNone => JNull
  | DText s => JStr s
  | DStrings l => JArr (JStr <$> l)
  | DLines l => JStr (join nl (text_of <$> l))
  | DValue v => Marshal v
  | DConfig c => marshal_config c
  | DAll m => JObj (sorted_entries (enc_config <$> m))
  | DSnapshots l => enc_slice enc_snapshot l
  | DJson j => j
  end.
(** The nil interface. *)
Definition no_data (d : data) : bool :=
  match d with DNone | DValue VNil | DConfig None => true | _ => false end.
Definition enc_response (r : Response) : json := JObj
  (optional (no_data (rp_Data r)) "data" (enc_data (rp_Data r)) ++
   optional_text "message" (text_of (rp_Message r)) ++ optional_text "error" (rp_Error r) ++
   [("success", JBool (rp_Success r))]).
Definition response_tags : list string := ["data"; "message"; "error"; "success"].
Definition set_received (r : Received) (t : string) (j : json) : res Received :=
  let put d m e s := {| rv_Data := d; rv_Message := m; rv_Error := e; rv_Success := s |} in
  if bool_decide (t = "data") then
    Ok (put (Unmarshal_any j) (rv_Message r) (rv_Error r) (rv_Success r))
  else if bool_decide (t = "message") then
    (λ s, put (rv_Data r) s (rv_Error r) (rv_Success r)) <$> dec_string (rv_Message r) j
  else if bool_decide (t = "error") then
    (λ s, put (rv_Data r) (rv_Message r) s (rv_Success r)) <$> dec_string (rv_Error r) j
  else
    (λ b, put (rv_Data r) (rv_Message r) (rv_Error r) b) <$> dec_bool (rv_Success r) j.
Definition zero_received : Received :=
  {| rv_Data := VNil; rv_Message := ""; rv_Error := ""; rv_Success := false |}.
Definition dec_response : json → res Received :=
  dec_record response_tags set_received zero_received.
(** What a response is once it has been through the socket. *)
Definition received (r : Response) : Received :=
  {| rv_Data := Unmarshal_any (enc_data (rp_Data r)); rv_Message := text_of (rp_Message r);
     rv_Error := rp_Error r; rv_Success := rp_Success r |}.
End response.

(** ** The daemon's side of a connection *)
Section connection.
Context `{Host} `{RangeOrder} `{OS} `{Clock} `{Kernel} `{!Inspection} `{FloatToInt} `{FloatToUint}.
Context `{Connection} `{Texts}.
Notation R := (Remote Sys).

(** [s.handleRequest(req)], info included. *)
Definition respond (now : Z) (req : Request) : M Sys Response :=
  match handleRequest now req with
  | Some handler => handler
  | None => handleInfo
  end.

(** What a connection comes to: closed, a line written back, or a log stream. *)
Inductive served := SClosed | SLine (j : json) | SStream (filter : LogFilter).
Definition sendResponse (resp : Response) : M R served :=
  attempt (on_line (c_send "response")) ≫= λ sent,
  mret match sent with Ok _ => SLine (enc_response resp) | _ => SClosed end.
(** [input]: the first line that is written to the socket, [None] when it is no
    JSON.  A handler that panics ends the daemon. *)
Definition handleConnection (now : Z) (input : option json) : M R served :=
  attempt (on_line (c_receive "request")) ≫= λ data,
  match data with
  | Ok _ =>
      match ok_or (StdError "encoding/json" "SyntaxError") input ≫= dec_message with
      | Err err => sendResponse (fail_response ("invalid request: " +:+ error_string err))
      | Panic w => lift (Panic w)
      | Ok m =>
          if bool_decide (rq_Command (ms_request m) = "logs-subscribe") then
            mret (SStream (default zero_filter (ms_LogFilter m)))
          else on_far (respond now (ms_request m)) ≫= sendResponse
      end
  | _ => mret SClosed
  end.

(** ** client.go *)
Definition client_socket_path (getenv : string → string) : string :=
  let path := getenv "JACK_SOCKET_PATH" in
  if bool_decide (path = "") then "/var/run/jack.sock" else path.
(** The error of a read when nothing was written. *)
Definition hung_up {A} : M R A :=
  on_line (λ w, let '(e, w) := c_lost w in (Err e, w)).
(** The response line, or the error of reading it. *)
Definition exchange (now : Z) (req : Request) : M R json :=
  handleConnection now (Some (enc_message (of_request req))) ≫= λ out,
  match out with
  | SLine respData => on_line (c_receive "response") ≫= λ _, mret respData
  | _ => hung_up
  end.
(** A partial write has no newline, so a write that fails leaves the daemon
    without a request.  No command sends logs-subscribe this way. *)
Definition Send (now : Z) (req : Request) : M R Received :=
  wrapM "failed to connect to daemon (is it running?): " (on_line (c_send "connect")) ≫= λ _,
  wrapM "failed to send request: " (on_line (c_send "request")) ≫= λ _,
  wrapM "failed to read response: " (exchange now req) ≫= λ respData,
  lift (wrap "failed to parse response: " (dec_response respData)).
End connection.

(** StreamLogs, from the lines that arrive until the error that ends them. *)
Definition StreamLogs {S L} (dialed written : res ()) (lines : list L) (ended : error)
    (callback : L → M S ()) : M S () :=
  lift (wrap "failed to connect to daemon (is it running?): " dialed) ≫= λ _,
  lift (wrap "failed to send request: " written) ≫= λ _,
  for_each lines callback ≫= λ _, fail ended.
Definition logs_request (filter : option LogFilter) : Message :=
  {| ms_request := {| rq_Value := VNil; rq_Command := "logs-subscribe"; rq_Path := "";
       rq_Plugin := ""; rq_CLICommand := ""; rq_CLIArgs := []; rq_CheckpointID := "" |};
     ms_LogFilter := filter |}.

(** ** Lemmas: JSON of the protocol *)

(** A request after JSON: numbers have become floats. *)
Definition through_json (req : Request) : Request :=
  {| rq_Value := Unmarshal_any (Marshal (rq_Value req)); rq_Command := rq_Command req;
     rq_Path := rq_Path req; rq_Plugin := rq_Plugin req; rq_CLICommand := rq_CLICommand req;
     rq_CLIArgs := rq_CLIArgs req; rq_CheckpointID := rq_CheckpointID req |}.

Lemma dec_members_app {A} tags (set : A → string → json → res A) a l l' :
  dec_members tags set a (l ++ l') = dec_members tags set a l ≫= λ a, dec_members tags set a l'.
Proof.
  revert a. induction l as [|[k j] l IH]; intros a; [done|]. cbn [app dec_members].
  destruct (find_key tags k); [|apply IH]. destruct (set a s j); [apply IH|done..].
Qed.
Lemma dec_members_one {A} tags (set : A → string → json → res A) a t j a' :
  t ∈ tags → set a t j = Ok a' → dec_members tags set a [(t, j)] = Ok a'.
Proof. intros Ht Hs. cbn. by rewrite find_key_exact, Hs by done. Qed.
Lemma dec_members_cons {A} tags (set : A → string → json → res A) a t j kvs a' :
  t ∈ tags → set a t j = Ok a' → dec_members tags set a ((t, j) :: kvs) = dec_members tags set a' kvs.
Proof. intros Ht Hs. cbn [dec_members]. by rewrite find_key_exact, Hs by done. Qed.
(** A field that is left out when it is empty, and then has its zero value. *)
Lemma dec_members_optional {A} tags (set : A → string → json → res A) a a' empty t j :
  t ∈ tags → set a t j = Ok a' → (empty = true → a' = a) →
  dec_members tags set a (optional empty t j) = Ok a'.
Proof.
  intros Ht Hs He. destruct empty; cbn [optional]; [by rewrite He|]. by apply dec_members_one.
Qed.

Lemma dec_strings l : dec_slice dec_string "" [] (JArr (JStr <$> l)) = Ok l.
Proof. apply dec_slice_enc. by intros. Qed.
Lemma tag_in (t : string) l : existsb (String.eqb t) l = true → t ∈ l.
Proof. intros (x & Hx & ->%String.eqb_eq)%existsb_exists. by apply list_elem_of_In. Qed.

(** One member more: [set] computes, and an empty field changes nothing. *)
Ltac next_member :=
  rewrite ?dec_members_app;
  first [ erewrite dec_members_optional; [|by apply tag_in|reflexivity|]
        | erewrite dec_members_one; [|by apply tag_in|reflexivity] ];
  cbn [mbind res_bind].
Lemma dec_enc_filter f :
  in_int64 (lf_Tail f) = true → dec_record filter_tags set_filter zero_filter (enc_filter f) = Ok f.
Proof.
  intros Hz. destruct f as [level component tail]. cbn in Hz. unfold dec_record, enc_filter, optional_text.
  cbn [lf_Level lf_Component lf_Tail].
  next_member; [|by intros ->%bool_decide_eq_true].
  next_member; [|by intros ->%bool_decide_eq_true].
  erewrite dec_members_optional; [reflexivity|by apply tag_in| |by intros ->%Z.eqb_eq].
  unfold set_filter, dec_int, dec_base. cbn. by rewrite Hz.
Qed.
Lemma dec_enc_message m :
  (∀ f, ms_LogFilter m = Some f → in_int64 (lf_Tail f) = true) →
  dec_message (enc_message m) =
    Ok {| ms_request := through_json (ms_request m); ms_LogFilter := ms_LogFilter m |}.
Proof.
  intros Hf. destruct m as [[v cmd p pl cc args cp] filter]. unfold dec_message, dec_record, enc_message, optional_text.
  cbn [ms_request ms_LogFilter rq_Value rq_Command rq_Path rq_Plugin rq_CLICommand rq_CLIArgs rq_CheckpointID].
  next_member; [|by intros ->%bool_decide_eq_true].
  next_member.
  do 3 (next_member; [|by intros ->%bool_decide_eq_true]).
  rewrite dec_members_app. erewrite dec_members_optional; [|by apply tag_in| |].
  2: { unfold set_message. cbn -[dec_slice]. rewrite dec_strings. reflexivity. }
  2: { by intros ->%bool_decide_eq_true. }
  cbn [mbind res_bind].
  next_member; [|by intros ->%bool_decide_eq_true].
  destruct filter as [f|]; [|done]. apply dec_members_one; [by apply tag_in|].
  unfold set_message. cbn -[dec_record]. by rewrite dec_enc_filter by (by apply Hf).
Qed.
Lemma no_data_spec `{Texts} d : no_data d = true → Unmarshal_any (enc_data d) = VNil.
Proof. by destruct d as [| | | |[]|[]| | |]. Qed.
Lemma dec_enc_response `{Texts} r : dec_response (enc_response r) = Ok (received r).
Proof.
  destruct r as [d m e b]. unfold dec_response, dec_record, enc_response, optional_text.
  cbn [rp_Data rp_Message rp_Error rp_Success].
  next_member; [|by intros ->%no_data_spec].
  next_member; [|by intros ->%bool_decide_eq_true].
  next_member; [|by intros ->%bool_decide_eq_true].
  by apply dec_members_one; [apply tag_in|].
Qed.

(** ** Lemmas: one request *)

Section send.
Context `{Host} `{RangeOrder} `{OS} `{Clock} `{Kernel} `{!Inspection} `{FloatToInt} `{FloatToUint}.
Context `{Connection} `{Texts}.
Notation R := (Remote Sys).

Lemma on_line_inv {A} (m : M wire A) (r : R) out r' :
  on_line m r = (out, r') → far r' = far r ∧ m (line r) = (out, line r').
Proof. unfold on_line. destruct (m (line r)) as [a w]. by intros [= <- <-]. Qed.
Lemma sendResponse_inv resp (r : R) out r' :
  sendResponse resp r = (out, r') →
  far r' = far r ∧ (out = Ok SClosed ∨ out = Ok (SLine (enc_response resp)) ∨ ∃ p, out = Panic p).
Proof.
  unfold sendResponse, mbind, M_bind, attempt.
  destruct (on_line _ r) as [a r1] eqn:E. apply on_line_inv in E as [Hf _].
  destruct a; intros [= <- <-]; eauto.
Qed.

(** What serving one request does to the daemon, whatever the connection does. *)
Definition served_once (now : Z) (req : Request) (r : R) (out : res served) (r' : R) : Prop :=
  let run := respond now req (far r) in
  (far r' = far r ∧ (∀ j, out ≠ Ok (SLine j)) ∨
   far r' = run.2 ∧
   ∀ j, out = Ok (SLine j) → ∃ resp, run.1 = Ok resp ∧ j = enc_response resp).
Lemma handleConnection_once now req r out r' :
  rq_Command req ≠ "logs-subscribe" →
  handleConnection now (Some (enc_message (of_request req))) r = (out, r') →
  served_once now (through_json req) r out r'.
Proof.
  intros Hc. unfold handleConnection. unfold mbind at 1, M_bind at 1, attempt.
  destruct (on_line _ r) as [a r1] eqn:E. apply on_line_inv in E as [Hf _].
  destruct a as [[]|e|p]; intros E.
  2: { injection E as <- <-. by left. }
  2: { injection E as <- <-. by left. }
  cbn [ok_or mbind res_bind] in E. rewrite dec_enc_message in E by done.
  cbn [ms_request of_request] in E. rewrite bool_decide_eq_false_2 in E by done.
  unfold mbind, M_bind, on_far in E. right. rewrite <- Hf.
  destruct (respond now (through_json req) (far r1)) as [[resp|e|p] s] eqn:Er; cbn [fst snd].
  - apply sendResponse_inv in E as [-> Ho]. cbn [far]. split; [done|]. intros j ->.
    destruct Ho as [[=]|[[= ->]|[? [=]]]]. eauto.
  - injection E as <- <-. by split.
  - destruct (c_lost (line r1)) as [e w]. injection E as <- <-. by split.
Qed.
Lemma exchange_once now req r out r' :
  rq_Command req ≠ "logs-subscribe" → exchange now req r = (out, r') →
  let run := respond now (through_json req) (far r) in
  (far r' = far r ∧ (∀ j, out ≠ Ok j) ∨
   far r' = run.2 ∧ ∀ j, out = Ok j → ∃ resp, run.1 = Ok resp ∧ j = enc_response resp).
Proof.
  intros Hc. unfold exchange, mbind, M_bind.
  destruct (handleConnection _ _ r) as [o r1] eqn:E. apply handleConnection_once in E; [|done].
  destruct o as [[|j|f]|e|p].
  1, 3: unfold hung_up; intros [Hf Ho]%on_line_inv; rewrite Hf; destruct (c_lost (line r1));
    injection Ho as <- _; destruct E as [[? ?]|[? ?]]; [by left|by right].
  - destruct (on_line _ r1) as [a r2] eqn:E2. apply on_line_inv in E2 as [Hf _].
    intros E3. assert (far r' = far r1) as -> by (by destruct a; injection E3 as _ <-).
    destruct E as [[_ Hn]|[? Hl]]; [by destruct (Hn j)|]. right. split; [done|]. intros j' ->.
    destruct a; [|done..]. injection E3 as -> _. by apply Hl.
  - intros [= <- <-]. destruct E as [[? ?]|[? ?]]; [by left|by right].
  - intros [= <- <-]. destruct E as [[? ?]|[? ?]]; [by left|by right].
Qed.

(** Over any connection a request is served by the daemon at most once: a Send
    leaves the daemon as it was, with an error, or as one run of the handler
    leaves it, and then a response that arrives is the one the handler made. *)
Theorem Send_at_most_once now req (r : R) out r' :
  rq_Command req ≠ "logs-subscribe" → Send now req r = (out, r') →
  let run := respond now (through_json req) (far r) in
  (far r' = far r ∧ (∀ a, out ≠ Ok a)) ∨
  (far r' = run.2 ∧ ∀ a, out = Ok a → ∃ resp, run.1 = Ok resp ∧ a = received resp).
Proof.
  intros Hc. unfold Send, mbind, M_bind, wrapM.
  destruct (on_line (c_send "connect") r) as [a r1] eqn:E1. apply on_line_inv in E1 as [Hf1 _].
  destruct a as [[]|e|p]; cbn [wrap]; [|intros [= <- <-]; by left..].
  destruct (on_line (c_send "request") r1) as [a r2] eqn:E2. apply on_line_inv in E2 as [Hf2 _].
  destruct a as [[]|e|p]; cbn [wrap]; [|intros [= <- <-]; left; split; [congruence|done]..].
  destruct (exchange now req r2) as [o r3] eqn:E3. apply exchange_once in E3; [|done].
  rewrite Hf2, Hf1 in E3. destruct E3 as [[Hf Hn]|[Hf Hl]].
  - destruct o as [j| |]; [by destruct (Hn j)|..]; intros [= <- <-]; by left.
  - destruct o as [j| |]; cbn [wrap]; [|intros [= <- <-]; by right..].
    destruct (Hl j eq_refl) as (resp & Hr & ->). rewrite dec_enc_response. intros [= <- <-]. right.
    split; [done|]. intros a [= <-]. eauto.
Qed.

(** Over a connection that works, Send answers with the daemon's response. *)
Lemma Send_up `{!ConnectionUp} now req (r : R) resp s' :
  rq_Command req ≠ "logs-subscribe" → up (line r) →
  respond now (through_json req) (far r) = (Ok resp, s') →
  ∃ w', Send now req r = (Ok (received resp), {| far := s'; line := w' |}) ∧ up w'.
Proof.
  intros Hc Hu Hr. destruct r as [s w]. cbn [far line] in *.
  destruct (up_send "connect" w Hu) as (w1 & E1 & Hu1).
  destruct (up_send "request" w1 Hu1) as (w2 & E2 & Hu2).
  destruct (up_receive "request" w2 Hu2) as (w3 & E3 & Hu3).
  destruct (up_send "response" w3 Hu3) as (w4 & E4 & Hu4).
  destruct (up_receive "response" w4 Hu4) as (w5 & E5 & Hu5).
  exists w5. split; [|done]. unfold Send, exchange, handleConnection, sendResponse, on_line, on_far,
    mbind, M_bind, wrapM, attempt. cbn [far line]. rewrite E1. cbn [wrap far line]. rewrite E2.
  cbn [wrap far line]. rewrite E3. cbn [ok_or res_bind]. rewrite dec_enc_message by done.
  cbn [ms_request of_request]. rewrite bool_decide_eq_false_2 by done. cbn [far line]. rewrite Hr. cbn [far line].
  rewrite E4. cbn [far line]. unfold mret, M_ret. cbn [far line]. rewrite E5. cbn [wrap].
  rewrite dec_enc_response. done.
Qed.
(** A line that is no request changes nothing. *)
Lemma garbage_changes_nothing now input (r : R) out r' :
  no_panic (ok_or type_error input ≫= dec_message) → (∀ m, (ok_or type_error input ≫= dec_message) ≠ Ok m) →
  handleConnection now input r = (out, r') → far r' = far r.
Proof.
  intros Hp Hn. unfold handleConnection. unfold mbind at 1, M_bind at 1, attempt.
  destruct (on_line _ r) as [a r1] eqn:E. apply on_line_inv in E as [Hf _].
  destruct a as [[]|e|p]; [|intros [= _ <-]; done..]. rewrite <- Hf.
  destruct input as [j|]; cbn [ok_or mbind res_bind] in *.
  - destruct (dec_message j) as [m|e|p]; [by destruct (Hn m)| |done].
    intros E. by apply sendResponse_inv in E as [-> _].
  - intros E. by apply sendResponse_inv in E as [-> _].
Qed.
End send.
