(* ===== verification/Cli.v ===== *)
(** * Cli: the commands of cmd/ that talk to the daemon

    apply.go, commit.go, revert.go, diff.go, rollback.go, checkpoint.go, get.go,
    set.go and the commands of plugin.go that change the daemon, written against
    the interface of client_interface.go; its implementation is [Send] of
    [Client].  What cobra does with the command line comes before.
    The theorems compose the commands with the socket and the daemon: what
    [jack set] stored is what [jack get] prints; [jack get] without arguments
    lists no namespace. *)
From S2P Require Import Prelude GoStr Logger Float64 GoNet Types Json Value Struct Codec Path Diff ConfigStore State Registry Services Loader Rpc Order Server PluginCommands Observer Netlink Routes Network Snapshot Apply Daemon Inspect Client.

(** ** client_interface.go *)
Class ClientInterface := {
  client : Type;
  ci_Send : Request → M client Received;
}.
Definition realClient `{Host} `{RangeOrder} `{OS} `{Clock} `{Kernel} `{!Inspection} `{FloatToInt}
    `{FloatToUint} `{Connection} `{Texts} (now : Z) : ClientInterface :=
  {| client := Remote Sys; ci_Send := Send now |}.

(** What is printed: a text, a value under %v, a value as indented JSON. *)
Inductive item := OText (s : string) | OValue (v : value) | OJson (j : json).
(** The output of the command and the daemon it talks to. *)
Record Term `{ClientInterface} := { tm_out : list item; tm_client : client }.

(** A request with a command only, or with a path and a value, or of a plugin. *)
Definition command_request (command : string) : Request :=
  {| rq_Value := VNil; rq_Command := command; rq_Path := ""; rq_Plugin := ""; rq_CLICommand := "";
     rq_CLIArgs := []; rq_CheckpointID := "" |}.
Definition path_request (command path : string) (v : value) : Request :=
  {| rq_Value := v; rq_Command := command; rq_Path := path; rq_Plugin := ""; rq_CLICommand := "";
     rq_CLIArgs := []; rq_CheckpointID := "" |}.
Definition plugin_request (command plugin cliCommand : string) (args : list string) : Request :=
  {| rq_Value := VNil; rq_Command := command; rq_Path := ""; rq_Plugin := plugin;
     rq_CLICommand := cliCommand; rq_CLIArgs := args; rq_CheckpointID := "" |}.
Definition rollback_request (checkpointID : string) : Request :=
  {| rq_Value := VNil; rq_Command := "rollback"; rq_Path := ""; rq_Plugin := ""; rq_CLICommand := "";
     rq_CLIArgs := []; rq_CheckpointID := checkpointID |}.

Section commands.
Context `{ClientInterface}.
Definition print (l : list item) : M Term () :=
  modify (λ t, {| tm_out := tm_out t ++ l; tm_client := tm_client t |}).
Definition println (s : string) : M Term () := print [OText (s +:+ nl)].
Definition send (req : Request) : M Term Received := λ t,
  let '(r, c) := ci_Send req (tm_client t) in (r, {| tm_out := tm_out t; tm_client := c |}).
(** The response, unless it is an error. *)
Definition ask (req : Request) : M Term Received :=
  send req ≫= λ resp,
  if rv_Success resp then mret resp else fail (ErrorText (rv_Error resp)).

(** ** apply, commit, revert, diff *)
Definition executeApply : M Term () :=
  println "Applying configuration..." ≫= λ _,
  ask (command_request "apply") ≫= λ resp, println ("[OK] " +:+ rv_Message resp).
Definition executeCommit : M Term () :=
  ask (command_request "commit") ≫= λ resp, println ("[OK] " +:+ rv_Message resp).
Definition executeRevert : M Term () :=
  ask (command_request "revert") ≫= λ resp, println ("[OK] " +:+ rv_Message resp).
Definition executeDiff : M Term () :=
  ask (command_request "diff") ≫= λ resp, println (rv_Message resp).

(** ** rollback and checkpoint create *)
Definition rollback (args : list string) : M Term () :=
  ask (rollback_request (default "" (head args))) ≫= λ resp, println (rv_Message resp).
Definition checkpointCreate : M Term () :=
  ask (command_request "checkpoint-create") ≫= λ resp, println (rv_Message resp).

(** ** plugin enable, disable and rescan *)
Definition runPluginEnable (pluginName : string) : M Term () :=
  ask (plugin_request "plugin-enable" pluginName "" []) ≫= λ resp, println (rv_Message resp).
Definition runPluginDisable (pluginName : string) : M Term () :=
  ask (plugin_request "plugin-disable" pluginName "" []) ≫= λ resp, println (rv_Message resp).
Definition runPluginRescan : M Term () :=
  ask (plugin_request "plugin-rescan" "" "" []) ≫= λ resp, println (rv_Message resp).

(** ** get and set *)

Definition categoryOrder : list string :=
  ["core"; "firewall"; "vpn"; "dhcp"; "monitoring"; "hardware"; "other"].
Definition category_items (categories : gmap string value) (category : string) : list item :=
  match categories !! category with
  | Some (VArr (ns :: namespaces)) =>
      OText (nl +:+ category +:+ ":" +:+ nl) ::
      ((ns :: namespaces) ≫= λ ns, [OText "  "; OValue ns; OText nl])
  | _ => []
  end.
Definition listing_title : item := OText ("Available configuration namespaces:" +:+ nl).
Definition namespace_list (categories : gmap string value) : list item :=
  listing_title :: (categoryOrder ≫= category_items categories).

Definition parseGetPath (args : list string) : string := join "." args.
Definition executeGet (args : list string) : M Term () :=
  let path := parseGetPath args in
  ask (path_request "get" path VNil) ≫= λ resp,
  let plain := print [OJson (Marshal (rv_Data resp)); OText nl] in
  if bool_decide (path = "") then
    match rv_Data resp with
    | VMap categories => print (namespace_list categories)
    | _ => plain
    end
  else plain.

Definition parse_value (valueStr : string) : value :=
  if bool_decide (valueStr = "true") then VBool true
  else if bool_decide (valueStr = "false") then VBool false
  else match atoi valueStr with Ok i => VInt i | _ => VStr valueStr end.
Definition parseSetArgs (args : list string) : res (string * value) :=
  match args with
  | [] => Ok ("", VNil)
  | [_] => Err (ErrorText "requires at least 2 arguments (path and value)")
  | _ => Ok (join "." (removelast args), parse_value (List.last args ""))
  end.
Definition executeSet (args : list string) : M Term () :=
  lift (parseSetArgs args) ≫= λ '(path, v),
  if bool_decide (path = "") then
    ask (path_request "get" "" VNil) ≫= λ resp,
    match rv_Data resp with
    | VMap categories => print (namespace_list categories)
    | _ => fail (ErrorText "unexpected response format")
    end
  else ask (path_request "set" path v) ≫= λ resp, println (rv_Message resp).

(** The run function of a command: its exit code; an error is printed. *)
Definition exit_code (m : M Term ()) : M Term Z :=
  attempt m ≫= λ r,
  match r with
  | Ok _ => mret 0
  | Err err => println ("[ERROR] " +:+ error_string err) ≫= λ _, mret 1
  | Panic w => lift (Panic w)
  end.
End commands.

(** ** Lemmas: asking the daemon *)

(** The value of a command line argument is written and read back unchanged
    unless it is an integer that a float64 cannot hold. *)
Definition exact_value (v : value) : Prop :=
  match v with VInt z => Z.abs z < 2 ^ 53 | _ => True end.
Lemma round53_small z : Z.abs z < 2 ^ 53 → round53 z = z.
Proof. intros Hz. unfold round53. by rewrite (proj2 (Z.ltb_lt _ _) Hz). Qed.
Lemma exact_through v s :
  v = parse_value s → exact_value v →
  Marshal (Unmarshal_any (Marshal v)) = Marshal v ∧ generic (Unmarshal_any (Marshal v)) ∧
  Unmarshal_any (Marshal v) ≠ VNil.
Proof.
  intros -> Hv. unfold parse_value in *. repeat case_bool_decide; [split_and!; [done|constructor|done]..|].
  destruct (atoi s) as [z| |]; [|split_and!; [done|constructor|done]..].
  cbn in Hv. cbn [Marshal enc_config_field enc_field enc_base Unmarshal_any dec_num].
  rewrite round53_small by done. split_and!; [|constructor|done].
  - cbn [enc_num]. unfold shortest_int. rewrite (proj2 (Z.ltb_lt (Z.abs z) (2 ^ 53)) Hv).
    rewrite (proj2 (Z.ltb_lt (Z.abs z) (10 ^ 21))); [done|]. lia.
  - unfold is_float64. rewrite round53_small by done. done.
Qed.

(** A configuration in the data of a response is an object or null. *)
Lemma marshal_obj_no_array o l : marshal_obj o ≠ JArr l.
Proof. destruct o as [| | |[|]]; done. Qed.
Definition is_config (c : value + option config_obj) : Prop :=
  match c with inl (VIfaces _) | inl (VRoutes _) | inr _ => True | _ => False end.
Lemma enc_config_no_array c : is_config c → ∀ l, Unmarshal_any (enc_config c) ≠ VArr l.
Proof.
  intros Hc l. destruct c as [v|[o|]]; cbn [enc_config].
  - destruct v; try done; by destruct m.
  - destruct o as [| | |[|]]; done.
  - done.
Qed.
Lemma all_configs_config `{RangeOrder} s r ns c : all_configs s r !! ns = Some c → is_config c.
Proof.
  unfold all_configs. generalize (Registry.List r). intros l.
  match goal with |- fold_left _ _ ?m0 !! _ = _ → _ => set (m := m0) end.
  assert (map_Forall (λ _, is_config) m) as Hm.
  { unfold m. repeat case_match; repeat apply map_Forall_insert_2; try done; apply map_Forall_empty. }
  clearbody m. revert m Hm. induction l as [|n l IH]; intros m Hm; cbn [fold_left].
  - apply Hm.
  - apply IH. case_match; [|done..]. by apply map_Forall_insert_2.
Qed.
Lemma any_object (m : gmap string json) :
  Unmarshal_any (JObj (sorted_entries m)) = VMap (Unmarshal_any <$> m).
Proof.
  cbn [Unmarshal_any]. f_equal.
  assert (NoDup ((prod_map id Unmarshal_any <$> sorted_entries m).*1)).
  { rewrite <- list_fmap_compose. change (fst ∘ prod_map id Unmarshal_any) with (fst (A:=string) (B:=json)).
    rewrite sorted_entries_perm. apply NoDup_fst_map_to_list. }
  rewrite foldl_insert, (right_id_L ∅ (∪)), list_to_map_fmap by done. by rewrite sorted_entries_map.
Qed.

Section daemon.
Context `{Host} `{RangeOrder} `{OS} `{Clock} `{Kernel} `{!Inspection} `{FloatToInt} `{FloatToUint}.
Context `{ConnectionUp} `{Texts}.
Notation R := (Remote Sys).
Section at_time.
Context (now : Z).
#[local] Instance client_now : ClientInterface := realClient now.

(** A question that was answered: the daemon ran it, and the line is still up. *)
Lemma ask_answered req (t t' : Term) resp :
  rq_Command req ≠ "logs-subscribe" → up (line (tm_client t : R)) → ask req t = (Ok resp, t') →
  ∃ r s', respond now (through_json req) (far (tm_client t : R)) = (Ok r, s') ∧ resp = received r ∧
    rp_Success r = true ∧ tm_out t' = tm_out t ∧ far (tm_client t' : R) = s' ∧
    up (line (tm_client t' : R)).
Proof.
  intros Hc Hu. unfold ask, send, mbind, M_bind. destruct (ci_Send req (tm_client t)) as [o c] eqn:E.
  destruct o as [a|e|p]; [|done..]. destruct (rv_Success a) eqn:Ha; [|done]. intros [= <- <-].
  pose proof E as E'. apply Send_at_most_once in E' as [[_ Hn]|[_ Ho]]; [by destruct (Hn a)| |done].
  destruct (Ho a eq_refl) as (r & Hr & ->). destruct (respond now _ _) as [o s'] eqn:Er.
  cbn in Hr. subst o. destruct (Send_up now req _ r s' Hc Hu Er) as (w' & E2 & Hw').
  exists r, s'. change (ci_Send req (tm_client t)) with (Send now req (tm_client t)) in E.
  rewrite E2 in E. injection E as <-. split_and!; done.
Qed.
(** A question that is answered. *)
Lemma ask_answers req (t : Term) r s' :
  rq_Command req ≠ "logs-subscribe" → up (line (tm_client t : R)) →
  respond now (through_json req) (far (tm_client t : R)) = (Ok r, s') → rp_Success r = true →
  ∃ w', up w' ∧ ask req t = (Ok (received r),
    {| tm_out := tm_out t; tm_client := {| far := s'; line := w' |} : R |}).
Proof.
  intros Hc Hu Er Hs. destruct (Send_up now req _ r s' Hc Hu Er) as (w' & E & Hw'). exists w'.
  split; [done|]. unfold ask, send, mbind, M_bind.
  change (ci_Send req (tm_client t)) with (Send now req (tm_client t)). rewrite E.
  cbn [received rv_Success]. by rewrite Hs.
Qed.

Lemma respond_set path v : respond now (path_request "set" path v) = in_world (handleSet path v).
Proof. reflexivity. Qed.
Lemma respond_get path v : respond now (path_request "get" path v) = in_world (handleGet path).
Proof. reflexivity. Qed.
Lemma through_path command path v :
  through_json (path_request command path v) = path_request command path (Unmarshal_any (Marshal v)).
Proof. reflexivity. Qed.

(** C5: end to end, from one command line to the next: over a connection that
    works, after [jack set PATH VALUE] succeeded on a plugin's configuration,
    [jack get PATH] prints the JSON of VALUE as it was typed (true and false,
    integers of less than 2^53, any other text), and changes nothing. *)
Theorem set_then_get args valueStr (t t1 : Term) ct rest :
  let daemon (t : Term) := far (tm_client t : R) in
  isolated (w_state (sys_world (daemon t))) → up (line (tm_client t : R)) → args ≠ [] →
  join "." args ≠ "" →
  path_parts (rewritePath (w_registry (sys_world (daemon t))) (join "." args)) = ct :: rest →
  is_core ct = false → rest ≠ [] → exact_value (parse_value valueStr) →
  executeSet (args ++ [valueStr]) t = (Ok (), t1) →
  ∃ t2, executeGet args t1 = (Ok (), t2) ∧ daemon t2 = daemon t1 ∧
    tm_out t2 = tm_out t1 ++ [OJson (Marshal (parse_value valueStr)); OText nl].
Proof.
  intros daemon Hi Hu Ha Hp Hparts Hcore Hrest Hv Hset.
  destruct (exact_through _ valueStr eq_refl Hv) as (Hm & Hg & Hnil).
  unfold executeSet, parseSetArgs in Hset. destruct args as [|a args]; [done|].
  assert (∃ b l, (a :: args) ++ [valueStr] = a :: b :: l) as (b & l & Hl).
  { destruct args as [|b args]; [by exists valueStr, []|]. by exists b, (args ++ [valueStr]). }
  rewrite Hl in Hset. rewrite <- Hl in Hset. rewrite removelast_last, List.last_last in Hset.
  unfold mbind at 1, M_bind at 1, lift in Hset. rewrite bool_decide_eq_false_2 in Hset by done.
  unfold mbind, M_bind in Hset.
  destruct (ask _ t) as [[resp| |] t0] eqn:E; [|done..].
  apply ask_answered in E as (r & s' & Er & -> & Hok & Hout & Hfar & Hu0); [|done..].
  assert (daemon t1 = s' ∧ up (line (tm_client t1 : R))) as [Hd1 Hu1].
  { unfold println, print, modify in Hset. injection Hset as <-. by split. }
  rewrite through_path, respond_set in Er. apply in_world_inv in Er as Ew.
  pose proof (handleSet_handleGet _ _ _ _ _ _ _ Hi Hparts Hcore Hrest Hp Ew Hok) as Hget.
  destruct (ask_answers (path_request "get" (parseGetPath (a :: args)) VNil) t1
    (ok_response (DValue (Unmarshal_any (Marshal (parse_value valueStr)))) []) s')
    as (w' & _ & Eget); [done|done| |done|].
  { fold (daemon t1). rewrite Hd1, through_path, respond_get. unfold in_world, parseGetPath.
    rewrite Hget. by destruct s'. }
  eexists. split; [|split].
  - unfold executeGet, mbind, M_bind. cbv zeta. rewrite Eget. rewrite bool_decide_eq_false_2 by done.
    reflexivity.
  - cbn. by rewrite Hd1.
  - cbn [tm_out received rv_Data ok_response rp_Data enc_data]. by rewrite any_enc_generic, Hm.
Qed.

(** What the commands list as namespaces: nothing.  The daemon answers with the
    configurations by their namespace, the commands expect lists of namespaces
    by their category, and a configuration is never a list. *)
Theorem listing_is_empty (t : Term) :
  up (line (tm_client t : R)) →
  ∃ t', executeGet [] t = (Ok (), t') ∧ executeSet [] t = (Ok (), t') ∧
    far (tm_client t' : R) = far (tm_client t : R) ∧ tm_out t' = tm_out t ++ [listing_title].
Proof.
  intros Hu. destruct (far (tm_client t : R)) as [w k o] eqn:Hs.
  destruct (ask_answers (path_request "get" "" VNil) t
    (ok_response (DAll (all_configs (w_state w) (w_registry w))) []) (far (tm_client t : R)))
    as (w' & _ & E); [done|done| |done|].
  { rewrite through_path, respond_get, Hs. reflexivity. }
  set (categories := Unmarshal_any <$> (enc_config <$> all_configs (w_state w) (w_registry w))).
  assert (namespace_list categories = [listing_title]) as Hl.
  { unfold namespace_list. f_equal. assert (∀ c, category_items categories c = []) as Hn.
    { intros c. unfold category_items, categories. rewrite !lookup_fmap.
      destruct (all_configs _ _ !! c) as [x|] eqn:Hx; [|done].
      pose proof (enc_config_no_array x (all_configs_config _ _ _ _ Hx)) as Hn. cbn.
      destruct (Unmarshal_any (enc_config x)) as [| | | |l| | | | | | | | | | | | |]; try done.
      by destruct (Hn l). }
    induction categoryOrder as [|c l IH]; [done|]. cbn [mbind list_bind]. by rewrite Hn, IH. }
  assert (rv_Data (received (ok_response (DAll (all_configs (w_state w) (w_registry w))) []))
    = VMap categories) as Hd by apply any_object.
  eexists. split; [|split].
  - unfold executeGet, mbind, M_bind, parseGetPath. cbn [join]. cbv zeta. rewrite E, Hd.
    rewrite bool_decide_eq_true_2 by done. unfold print, modify. rewrite Hl. reflexivity.
  - unfold executeSet, mbind, M_bind, parseSetArgs, lift. rewrite bool_decide_eq_true_2, E, Hd by done.
    unfold print, modify. by rewrite Hl.
  - cbn. by rewrite <- Hs.
Qed.
End at_time.
End daemon.

(** ** At concrete inputs *)

Definition plain_texts : Texts := {|
  text_v v := match v with VStr s => s | VNum (NInt z) => itoa z | VBool true => "true" | VBool false => "false" | _ => "" end;
  text_q s := s; text_time _ := "2025-01-01T00:00:00Z" |}.
(** A daemon with the configuration of the led plugin, behind a socket. *)
Definition led_daemon : @Sys no_processes memory_kernel :=
  @Build_Sys no_processes memory_kernel (led_world (H:=no_processes) tt) (Interfaces.new_machine None) None.
Definition led_client : ClientInterface :=
  @realClient no_processes default_order reliable_os half_seconds memory_kernel memory_inspection
    amd64_float_to_int amd64_float_to_uint pipe plain_texts 0.
Definition led_term : @Term led_client :=
  @Build_Term led_client [] (@Build_Remote (@Sys no_processes memory_kernel) pipe led_daemon true).
(** What two commands print, one after the other. *)
Definition session (args1 args2 : list string) : list item :=
  @tm_out led_client (@executeGet led_client args2 (@executeSet led_client args1 led_term).2).2.

Example set_and_get :
  session ["led"; "leds"; "red"; "127"] ["led"; "leds"; "red"] =
    [OText ("Staged: led.leds.red = 127" +:+ nl); OJson (JInt 127); OText nl].
Proof. vm_compute. reflexivity. Qed.
(** A component with a dot is taken for several ones. *)
Example dotted_component :
  (@executeSet led_client ["led"; "leds"; "wan.10"; "off"] led_term).1 =
    Err (ErrorText "key 'wan' not found").
Proof. vm_compute. reflexivity. Qed.
(** An integer above 2^53 is stored as the float64 nearest to it. *)
Example large_integer_is_rounded :
  session ["led"; "leds"; "id"; "9007199254740993"] ["led"; "leds"; "id"] =
    [OText ("Staged: led.leds.id = 9007199254740992" +:+ nl); OJson (JInt 9007199254740992); OText nl].
Proof. vm_compute. reflexivity. Qed.
Example no_namespaces :
  session [] [] = [listing_title; listing_title].
Proof. vm_compute. reflexivity. Qed.

Lemma set_then_get_witness :
  ∃ t2, @executeGet led_client ["led"; "leds"; "red"]
      (@executeSet led_client ["led"; "leds"; "red"; "127"] led_term).2 = (Ok (), t2) ∧
    @tm_out led_client t2 =
      [OText ("Staged: led.leds.red = 127" +:+ nl)] ++ [OJson (JInt 127); OText nl].
Proof.
  destruct (@set_then_get no_processes default_order reliable_os half_seconds memory_kernel
    memory_inspection amd64_float_to_int amd64_float_to_uint pipe pipe_up plain_texts 0
    ["led"; "leds"; "red"] "127" led_term
    (@executeSet led_client ["led"; "leds"; "red"; "127"] led_term).2 "led" ["leds"; "red"]
    (led_world_isolated (H:=no_processes) tt)) as (t2 & E & _ & Ho).
  - reflexivity.
  - discriminate.
  - discriminate.
  - vm_compute. reflexivity.
  - reflexivity.
  - discriminate.
  - vm_compute. reflexivity.
  - refine (run_eq (@executeSet led_client ["led"; "leds"; "red"; "127"] led_term) (Ok ()) _).
    vm_compute. reflexivity.
  - exists t2. split; [exact E|]. refine (eq_trans Ho _). vm_compute. reflexivity.
Defined.
