(* ===== verification/CliPlugins.v ===== *)
(** * CliPlugins: the commands plugins bring (cmd/plugin_commands.go)

    At every start of the program each installed plugin is started and asked
    for its commands, which become commands of the cobra library; running one
    sends it to the daemon, once or again and again.  Cobra's tree is abstract
    as far as the code looks at it: the name of a command and the order of the
    children ([Cobra]).  The ticks of the clock and the signals that end the
    polling are a list of events.
    The theorems: the commands of a plugin are registered parents first, each
    exactly once and under one parent, where running it sends the command it
    stands for; polling ends with the first failure or signal, and not before. *)
From S2P Require Import Prelude GoStr Logger Float64 GoNet Types Json Value Struct Codec Path Diff ConfigStore State Registry Services Loader Rpc Order Server PluginCommands Observer Netlink Routes Network Snapshot Interfaces Apply Daemon Inspect Client Cli.

(** ** The cobra library, as far as the code uses it *)

(** What the closure of a command calls executePluginCommand with. *)
Record PluginRun := { rn_pluginPath : string; rn_cliCmd : CLICommand; rn_subcommand : string }.
Inductive Command := MkCommand {
  cm_Use : string; cm_Short : string; cm_Long : string; cm_DisableFlagParsing : bool;
  cm_Run : option PluginRun; cm_commands : list Command;
}.
Definition AddCommand (child parent : Command) : Command :=
  MkCommand (cm_Use parent) (cm_Short parent) (cm_Long parent) (cm_DisableFlagParsing parent)
    (cm_Run parent) (cm_commands parent ++ [child]).
(** The name of a command is the first word of its use line; Commands() puts the
    children into an order of the library's choice. *)
Class Cobra := {
  cb_Name : string → string;
  cb_Commands : list Command → list Command;
  cb_Name_word s : contains_byte (byte_of 32) s = false → cb_Name s = s;
  cb_Commands_perm l : cb_Commands l ≡ₚ l;
}.

(** ** The order of registration *)

(** strings.Count(s, " ") *)
Fixpoint count_spaces (s : string) : nat :=
  match s with
  | "" => 0
  | String c s => (if Ascii.eqb c (byte_of 32) then 1 else 0) + count_spaces s
  end.
(** One round of the outer loop: the first element is exchanged with every later
    one that has fewer spaces. *)
Fixpoint exchange_round (x : CLICommand) (l : list CLICommand) : CLICommand * list CLICommand :=
  match l with
  | [] => (x, [])
  | y :: l =>
      if (count_spaces (cc_Name y) <? count_spaces (cc_Name x))%nat then
        let '(z, l) := exchange_round y l in (z, x :: l)
      else
        let '(z, l) := exchange_round x l in (z, y :: l)
  end.
Fixpoint exchange_sort (fuel : nat) (l : list CLICommand) : list CLICommand :=
  match fuel, l with
  | S fuel, x :: l => let '(x, l) := exchange_round x l in x :: exchange_sort fuel l
  | _, _ => l
  end.
Definition sortedCommands (l : list CLICommand) : list CLICommand := exchange_sort (length l) l.

Section registration.
Context `{Cobra}.

(** The first child with a name, changed. *)
Fixpoint change_first (name : string) (f : Command → Command) (l : list Command)
    : option (list Command) :=
  match l with
  | [] => None
  | c :: l =>
      if bool_decide (cb_Name (cm_Use c) = name) then Some (f c :: l)
      else cons c <$> change_first name f l
  end.

Definition plugin_subcommand (pluginPath : string) (cliCmd : CLICommand) (subName : string) : Command :=
  MkCommand subName (cc_Name cliCmd +:+ " " +:+ subName) "" true
    (Some {| rn_pluginPath := pluginPath; rn_cliCmd := cliCmd; rn_subcommand := subName |}) [].
(** The command of a single word, with its subcommands. *)
Definition single_command (pluginPath : string) (cliCmd : CLICommand) : Command :=
  match cc_Subcommands cliCmd with
  | [] => MkCommand (cc_Name cliCmd) (cc_Short cliCmd) (cc_Long cliCmd) true
      (Some {| rn_pluginPath := pluginPath; rn_cliCmd := cliCmd; rn_subcommand := "" |}) []
  | subs => foldl (λ cmd subName, AddCommand (plugin_subcommand pluginPath cliCmd subName) cmd)
      (MkCommand (cc_Name cliCmd) (cc_Short cliCmd) (cc_Long cliCmd) false None []) subs
  end.
(** createPluginCommand: the command to add to the root, or none, and the
    children of the root. *)
Definition createPluginCommand (pluginPath : string) (cliCmd : CLICommand) (root : list Command)
    : option Command * list Command :=
  match fields (cc_Name cliCmd) with
  | parentName :: (_ :: _) as rest =>
      let subCmd := MkCommand (join " " rest) (cc_Short cliCmd) (cc_Long cliCmd) true
        (Some {| rn_pluginPath := pluginPath; rn_cliCmd := cliCmd; rn_subcommand := "" |}) [] in
      let root := cb_Commands root in
      (None, match change_first parentName (AddCommand subCmd) root with
             | Some root => root
             | None =>
                 root ++ [AddCommand subCmd
                   (MkCommand parentName (parentName +:+ " commands") "" false None [])]
             end)
  | _ => (Some (single_command pluginPath cliCmd), root)
  end.
Definition register_one (pluginPath : string) (root : list Command) (cliCmd : CLICommand)
    : list Command :=
  match createPluginCommand pluginPath cliCmd root with
  | (Some cmd, root) => root ++ [cmd]
  | (None, root) => root
  end.
Definition register_all (pluginPath : string) (l : list CLICommand) (root : list Command)
    : list Command := foldl (register_one pluginPath) root (sortedCommands l).
End registration.

(** ** Finding the plugins and asking for their commands *)

(** [pf_Glob]: filepath.Glob; [pf_Stat]: os.Stat, the size and whether some
    execute bit is set. *)
Class PluginFiles `{Host} := {
  pf_Glob : string → M host (list string);
  pf_Stat : string → M host (Z * bool);
}.
Section discovery.
Context `{PluginFiles} `{Cobra}.
Definition registerPluginCommands (pluginPath : string) (root : list Command) : M host (list Command) :=
  wrapM "failed to start plugin: " (h_NewPluginClient pluginPath) ≫= λ client,
  attempt (h_Dispense client) ≫= λ provider,
  match provider with
  | Err err =>
      attempt (h_Close client) ≫= λ _, fail (Wrapf "failed to dispense plugin: " err)
  | Panic w => lift (Panic w)
  | Ok _ =>
      attempt (h_Metadata client) ≫= λ metadata,
      attempt (h_Close client) ≫= λ _,
      match metadata with
      | Err err => fail (Wrapf "failed to get metadata: " err)
      | Panic w => lift (Panic w)
      | Ok metadata => mret (register_all pluginPath (mr_CLICommands metadata) root)
      end
  end.
(** A plugin that cannot be asked is left out, with a warning in the log. *)
Fixpoint register_plugins (matches : list string) (root : list Command) : M host (list Command) :=
  match matches with
  | [] => mret root
  | pluginPath :: matches =>
      attempt (pf_Stat pluginPath) ≫= λ info,
      match info with
      | Ok (_, true) =>
          attempt (registerPluginCommands pluginPath root) ≫= λ registered,
          register_plugins matches (match registered with Ok root => root | _ => root end)
      | _ => register_plugins matches root
      end
  end.
(** [customDir]: the variable JACK_PLUGIN_DIR. *)
Definition RegisterPluginCommands (customDir : string) (root : list Command) : M host (list Command) :=
  let pluginDir := if bool_decide (customDir = "") then "/usr/lib/jack/plugins" else customDir in
  attempt (pf_Glob (filepath_Join pluginDir "jack-plugin-*")) ≫= λ matches,
  match matches with Ok matches => register_plugins matches root | _ => mret root end.
End discovery.

(** ** Running a command *)

(** filepath.Base *)
Fixpoint drop_slashes (s : string) : string :=
  match s with String c t => if Ascii.eqb c slash then drop_slashes t else s | "" => "" end.
Definition filepath_Base (path : string) : string :=
  if bool_decide (path = "") then "."
  else match rev_str (drop_slashes (rev_str path)) with
       | "" => "/"
       | s => List.last (split slash s) ""
       end.

Inductive poll_event := Tick | Interrupt.
Section running.
Context `{ClientInterface}.
Definition cli_request (pluginName fullCommand : string) (args : list string) : Request :=
  plugin_request "plugin-cli" pluginName fullCommand args.
Definition clearScreen : M Term () := print [OText (bytes [27; 91; 72; 27; 91; 50; 74]%N)].
(** false: the command should stop. *)
Definition printCommandSnapshot (pluginName fullCommand : string) (args : list string) : M Term bool :=
  attempt (send (cli_request pluginName fullCommand args)) ≫= λ resp,
  match resp with
  | Err err =>
      println ("[ERROR] " +:+ error_string err) ≫= λ _,
      println (nl +:+ "Cannot continue - daemon communication failed.") ≫= λ _, mret false
  | Panic w => lift (Panic w)
  | Ok resp =>
      if negb (rv_Success resp) then
        println ("[ERROR] " +:+ rv_Error resp) ≫= λ _,
        println (nl +:+ "Cannot continue - command failed.") ≫= λ _, mret false
      else
        match rv_Data resp with
        | VStr outputStr =>
            if bool_decide (outputStr = "") then mret true
            else
              print [OText outputStr] ≫= λ _,
              if has_prefix (trim_space outputStr) "Error:" then
                println (nl +:+ "Cannot continue - service unavailable.") ≫= λ _, mret false
              else mret true
        | _ => mret true
        end
  end.
(** The loop, until the events are used up (then it is still running: true). *)
Fixpoint poll (events : list poll_event) (pluginName fullCommand : string) (args : list string)
    : M Term bool :=
  match events with
  | [] => mret true
  | Interrupt :: _ => println (nl +:+ "Stopped.") ≫= λ _, mret false
  | Tick :: events =>
      clearScreen ≫= λ _,
      printCommandSnapshot pluginName fullCommand args ≫= λ shouldContinue,
      if shouldContinue : bool then poll events pluginName fullCommand args else mret false
  end.
Definition executeContinuousCommand (events : list poll_event) (pluginName fullCommand : string)
    (args : list string) : M Term bool :=
  printCommandSnapshot pluginName fullCommand args ≫= λ shouldContinue,
  if shouldContinue : bool then poll events pluginName fullCommand args else mret false.

Definition plugin_of (pluginPath : string) : string :=
  trim_prefix (filepath_Base pluginPath) "jack-plugin-".
Definition full_command (cliCmd : CLICommand) (subcommand : string) : string :=
  if bool_decide (subcommand = "") then cc_Name cliCmd else cc_Name cliCmd +:+ " " +:+ subcommand.
Definition is_continuous (cliCmd : CLICommand) (subcommand : string) : bool :=
  cc_Continuous cliCmd || bool_decide (full_command cliCmd subcommand = "firewall watch").
(** The seconds between two ticks. *)
Definition poll_interval (cliCmd : CLICommand) : Z :=
  if cc_PollInterval cliCmd <=? 0 then 2 else cc_PollInterval cliCmd.
(** true: still polling. *)
Definition executePluginCommand (events : list poll_event) (pluginPath : string) (cliCmd : CLICommand)
    (subcommand : string) (args : list string) : M Term bool :=
  let pluginName := plugin_of pluginPath in
  let fullCommand := full_command cliCmd subcommand in
  if is_continuous cliCmd subcommand then
    executeContinuousCommand events pluginName fullCommand args
  else
    ask (cli_request pluginName fullCommand args) ≫= λ resp,
    match rv_Data resp with
    | VStr outputStr =>
        (if bool_decide (outputStr = "") then mret () else println (trim_space outputStr)) ≫= λ _,
        mret false
    | _ => mret false
    end.
End running.

(** ** Lemmas: the order *)

Definition fewer_spaces (x y : CLICommand) : Prop :=
  (count_spaces (cc_Name x) ≤ count_spaces (cc_Name y))%nat.
Lemma exchange_round_spec l : ∀ x z l',
  exchange_round x l = (z, l') →
  z :: l' ≡ₚ x :: l ∧ length l' = length l ∧ fewer_spaces z x ∧ Forall (fewer_spaces z) l'.
Proof.
  unfold fewer_spaces. induction l as [|y l IH]; intros x z l'; cbn [exchange_round].
  { intros [= <- <-]. by split_and!. }
  destruct (Nat.ltb_spec (count_spaces (cc_Name y)) (count_spaces (cc_Name x))) as [Hlt|Hle].
  - destruct (exchange_round y l) as [z1 l1] eqn:E. intros [= <- <-].
    apply IH in E as (Hp & Hl & Hz & Ha). split_and!.
    + etrans; [apply perm_swap|]. by rewrite Hp.
    + cbn. by rewrite Hl.
    + lia.
    + constructor; [lia|done].
  - destruct (exchange_round x l) as [z1 l1] eqn:E. intros [= <- <-].
    apply IH in E as (Hp & Hl & Hz & Ha). split_and!.
    + etrans; [apply perm_swap|]. rewrite Hp. apply perm_swap.
    + cbn. by rewrite Hl.
    + done.
    + constructor; [lia|done].
Qed.
Lemma exchange_sort_spec fuel : ∀ l, (length l ≤ fuel)%nat →
  exchange_sort fuel l ≡ₚ l ∧ StronglySorted fewer_spaces (exchange_sort fuel l).
Proof.
  induction fuel as [|fuel IH]; intros [|x l] Hf; cbn in Hf; try lia.
  1, 2: split; [done|apply SSorted_nil].
  cbn [exchange_sort]. destruct (exchange_round x l) as [z l'] eqn:E.
  apply exchange_round_spec in E as (Hp & Hl & _ & Ha). destruct (IH l') as [Hp' Hs]; [lia|].
  split; [by rewrite Hp'|]. constructor; [done|]. by rewrite Hp'.
Qed.
Lemma sortedCommands_spec l :
  sortedCommands l ≡ₚ l ∧ StronglySorted fewer_spaces (sortedCommands l).
Proof. by apply exchange_sort_spec. Qed.

(** ** Lemmas: names *)

Definition words (c : CLICommand) : list string := fields (cc_Name c).
(** A name of words with single spaces between them. *)
Record tidy (c : CLICommand) : Prop := {
  td_some : words c ≠ [];
  td_name : cc_Name c = join " " (words c);
  td_words w : w ∈ words c → count_spaces w = 0%nat;
}.
Lemma count_spaces_app s t : count_spaces (s +:+ t) = (count_spaces s + count_spaces t)%nat.
Proof.
  induction s as [|c s IH]; [done|]. change (String c s +:+ t) with (String c (s +:+ t)).
  cbn [count_spaces]. rewrite IH. lia.
Qed.
Lemma count_spaces_join l :
  (∀ w, w ∈ l → count_spaces w = 0%nat) → count_spaces (join " " l) = pred (length l).
Proof.
  induction l as [|w l IH]; intros Hl; [done|]. destruct l as [|w' l].
  { cbn. apply Hl. by left. }
  change (join " " (w :: w' :: l)) with (w +:+ " " +:+ join " " (w' :: l)).
  rewrite !count_spaces_app, (Hl w) by (by left). rewrite IH by (intros; apply Hl; by right). done.
Qed.
Lemma tidy_spaces c : tidy c → count_spaces (cc_Name c) = pred (length (words c)).
Proof. intros [_ Hn Hw]. rewrite Hn. by apply count_spaces_join. Qed.
Lemma no_space w : count_spaces w = 0%nat → contains_byte (byte_of 32) w = false.
Proof.
  induction w as [|c w IH]; [done|]. cbn. rewrite Ascii.eqb_sym. destruct (Ascii.eqb _ c); [done|].
  intros. by apply IH.
Qed.

Section registered.
Context `{Cobra} (pluginPath : string).
Definition name (c : Command) : string := cb_Name (cm_Use c).
Definition names (l : list Command) : list string := name <$> l.
Lemma names_snoc l c : names (l ++ [c]) = names l ++ [name c].
Proof. unfold names. by rewrite fmap_app. Qed.
Lemma word_name w c : count_spaces w = 0%nat → cm_Use c = w → name c = w.
Proof. intros Hw Hu. unfold name. rewrite Hu. by apply cb_Name_word, no_space. Qed.

(** What a command of a plugin becomes: under the command named by its first
    word, what runs it. *)
Definition runs (cmd : Command) (c : CLICommand) (sub : string) : Prop :=
  cm_Run cmd = Some {| rn_pluginPath := pluginPath; rn_cliCmd := c; rn_subcommand := sub |}.
Definition child_runs (cmd : Command) (use : string) (c : CLICommand) (sub : string) : Prop :=
  ∃ k, k ∈ cm_commands cmd ∧ cm_Use k = use ∧ runs k c sub.
Definition stands_for (cmd : Command) (c : CLICommand) (rest : list string) : Prop :=
  match rest, cc_Subcommands c with
  | [], [] => runs cmd c ""
  | [], subs => ∀ s, s ∈ subs → child_runs cmd s c s
  | _, _ => child_runs cmd (join " " rest) c ""
  end.
Definition registered (root : list Command) (c : CLICommand) : Prop :=
  ∃ w rest cmd, words c = w :: rest ∧ cmd ∈ root ∧ name cmd = w ∧ stands_for cmd c rest.

(** Commands only get more children. *)
Definition extends (a b : Command) : Prop :=
  cm_Use b = cm_Use a ∧ cm_Run b = cm_Run a ∧ ∀ k, k ∈ cm_commands a → k ∈ cm_commands b.
Definition grows (l l' : list Command) : Prop := ∀ a, a ∈ l → ∃ b, b ∈ l' ∧ extends a b.
Lemma extends_refl a : extends a a.
Proof. by split_and!. Qed.
Lemma AddCommand_extends k a : extends a (AddCommand k a).
Proof. split_and!; [done..|]. intros x Hx. apply elem_of_app. by left. Qed.
Lemma grows_incl l l' : (∀ a, a ∈ l → a ∈ l') → grows l l'.
Proof. intros Hi a Ha. exists a. split; [by apply Hi|apply extends_refl]. Qed.
Lemma grows_trans l1 l2 l3 : grows l1 l2 → grows l2 l3 → grows l1 l3.
Proof.
  intros H1 H2 a Ha. destruct (H1 a Ha) as (b & Hb & Hu & Hr & Hk).
  destruct (H2 b Hb) as (c & Hc & Hu' & Hr' & Hk'). exists c. split; [done|].
  split_and!; [congruence..|auto].
Qed.
Lemma child_runs_extends a b use c sub : extends a b → child_runs a use c sub → child_runs b use c sub.
Proof. intros (_ & _ & Hk) (k & Hin & ?). exists k. auto. Qed.
Lemma registered_grows l l' c : grows l l' → registered l c → registered l' c.
Proof.
  intros Hg (w & rest & cmd & Hw & Hin & Hn & Hs). destruct (Hg _ Hin) as (b & Hb & He).
  exists w, rest, b. pose proof He as (Hu & Hr & _). split_and!; [done|done| |].
  - unfold name in *. by rewrite Hu.
  - unfold stands_for in *. destruct rest as [|? ?]; [|by eapply child_runs_extends].
    destruct (cc_Subcommands c) as [|s subs].
    + unfold runs in *. by rewrite Hr.
    + intros s' Hs'. eapply child_runs_extends; eauto.
Qed.

Lemma change_first_Some n k l l' :
  change_first n (AddCommand k) l = Some l' →
  names l' = names l ∧ grows l l' ∧ ∃ c, AddCommand k c ∈ l' ∧ name c = n.
Proof.
  revert l'. induction l as [|c l IH]; intros l'; cbn [change_first]; [done|].
  case_bool_decide as Hc.
  - intros [= <-]. split_and!; [done| |].
    + intros a [->|Ha]%elem_of_cons.
      * eexists. split; [by left|apply AddCommand_extends].
      * exists a. split; [by right|apply extends_refl].
    + exists c. split; [by left|done].
  - destruct (change_first n _ l) as [l1|] eqn:E; [|done]. intros [= <-].
    destruct (IH l1 eq_refl) as (Hn & Hg & d & Hd & Hnd). split_and!.
    + unfold names in *. rewrite !fmap_cons. by rewrite Hn.
    + intros a [->|Ha]%elem_of_cons.
      * exists c. split; [by left|apply extends_refl].
      * destruct (Hg a Ha) as (b & Hb & He). exists b. split; [by right|done].
    + exists d. split; [by right|done].
Qed.
Lemma change_first_None n f l : change_first n f l = None → n ∉ names l.
Proof.
  induction l as [|c l IH]; cbn [change_first]; intros E; [by apply not_elem_of_nil|].
  case_bool_decide as Hc; [done|]. destruct (change_first n f l); [done|].
  unfold names. rewrite fmap_cons. apply not_elem_of_cons. split; [|by apply IH]. unfold name. congruence.
Qed.

(** The command of a single word and its subcommands. *)
Lemma single_command_spec c :
  cm_Use (single_command pluginPath c) = cc_Name c ∧ stands_for (single_command pluginPath c) c [].
Proof.
  unfold single_command, stands_for. destruct (cc_Subcommands c) as [|s0 subs]; [done|].
  generalize (s0 :: subs). clear s0 subs. intros subs.
  assert (∀ cmd, let cmd' := foldl (λ cmd s, AddCommand (plugin_subcommand pluginPath c s) cmd) cmd subs in
    extends cmd cmd' ∧ ∀ s, s ∈ subs → child_runs cmd' s c s) as Hf.
  { induction subs as [|s subs IH]; intros cmd; cbn [foldl].
    - split; [apply extends_refl|]. intros s Hs. by apply not_elem_of_nil in Hs.
    - destruct (IH (AddCommand (plugin_subcommand pluginPath c s) cmd)) as [(Hu & Hr & Hk) Hs].
      split; [split_and!; [done..|]|].
      + intros k Hin. apply Hk, elem_of_app. by left.
      + intros s' [->|Hs']%elem_of_cons; [|by apply Hs]. exists (plugin_subcommand pluginPath c s).
        split; [|done]. apply Hk, elem_of_app. right. by left. }
  destruct (Hf (MkCommand (cc_Name c) (cc_Short c) (cc_Long c) false None [])) as [(Hu & _) Hs].
  split; [exact Hu|exact Hs].
Qed.
End registered.

Section all_registered.
Context `{Cobra} (pluginPath : string).

(** One more command, whose first word names at most a parent that is there. *)
Lemma register_one_spec root c :
  tidy c → NoDup (names root) → (∀ w, words c = [w] → w ∉ names root) →
  let root' := register_one pluginPath root c in
  NoDup (names root') ∧ grows root root' ∧ registered pluginPath root' c ∧
  ∀ n, n ∈ names root' → n ∈ names root ∨ head (words c) = Some n.
Proof.
  intros Ht Hnd Hnew. pose proof (td_some c Ht) as Hs. pose proof (td_words c Ht) as Hw.
  unfold register_one, createPluginCommand. fold (words c).
  destruct (words c) as [|w [|w2 rest]] eqn:Ew; [done| |].
  - assert (cc_Name c = w) as Hn by (by rewrite (td_name c Ht), Ew).
    destruct (single_command_spec pluginPath c) as [Hu Hst]. cbn zeta.
    assert (name (single_command pluginPath c) = w) as Hname.
    { apply word_name; [apply Hw; by left|congruence]. }
    rewrite !names_snoc, Hname. split_and!.
    + apply NoDup_app. split_and!; [done| |apply NoDup_singleton]. intros x Hx Hx'.
      apply list_elem_of_singleton in Hx'. subst x. by apply (Hnew w).
    + apply grows_incl. intros a Ha. apply elem_of_app. by left.
    + exists w, [], (single_command pluginPath c). split_and!; [done| |done|done].
      apply elem_of_app. right. by left.
    + intros n Hx. apply elem_of_app in Hx as [Hx|Hx]; [by left|right].
      apply list_elem_of_singleton in Hx. by subst n.
  - assert (names (cb_Commands root) ≡ₚ names root) as Hp by (by apply fmap_Permutation, cb_Commands_perm).
    assert (grows root (cb_Commands root)) as Hg.
    { apply grows_incl. intros a. by rewrite cb_Commands_perm. }
    set (sub := MkCommand (join " " (w2 :: rest)) _ _ _ _ _).
    destruct (change_first w _ (cb_Commands root)) as [root'|] eqn:E; cbn zeta.
    + apply change_first_Some in E as (Hn & Hg' & d & Hd & Hnd'). split_and!.
      * rewrite Hn. by rewrite Hp.
      * by eapply grows_trans.
      * exists w, (w2 :: rest), (AddCommand sub d). split_and!; [done..|].
        exists sub. split; [apply elem_of_app; right; by left|done].
      * intros n. rewrite Hn, Hp. by left.
    + apply change_first_None in E. set (parent := AddCommand sub _).
      assert (name parent = w) as Hname by (apply word_name; [apply Hw; by left|done]).
      rewrite !names_snoc, Hname. split_and!.
      * apply NoDup_app. split_and!; [|intros x Hx Hx'; apply list_elem_of_singleton in Hx'; by subst x|apply NoDup_singleton].
        by rewrite Hp.
      * eapply grows_trans; [exact Hg|]. apply grows_incl. intros a Ha. apply elem_of_app. by left.
      * exists w, (w2 :: rest), parent. split_and!; [done| |done|].
        -- apply elem_of_app. right. by left.
        -- exists sub. split; [by left|done].
      * intros n Hx. apply elem_of_app in Hx as [Hx|Hx]; [left|right].
        -- by rewrite Hp in Hx.
        -- apply list_elem_of_singleton in Hx. by subst n.
Qed.

Lemma register_loop todo : ∀ don root root0,
  NoDup (names root) → (∀ n, n ∈ names root → n ∈ names root0 ∨ ∃ c, c ∈ don ∧ head (words c) = Some n) →
  Forall (registered pluginPath root) don → grows root0 root →
  (∀ c, c ∈ don ++ todo → tidy c ∧ ∀ w, head (words c) = Some w → w ∉ names root0) →
  NoDup (cc_Name <$> don ++ todo) → StronglySorted fewer_spaces (don ++ todo) →
  let root' := foldl (register_one pluginPath) root todo in
  NoDup (names root') ∧ Forall (registered pluginPath root') (don ++ todo) ∧ grows root0 root'.
Proof.
  induction todo as [|c todo IH]; intros don root root0 Hnd Hns Hdon Hg Hall Hname Hsort; cbn [foldl].
  { by rewrite app_nil_r. }
  destruct (Hall c) as [Ht Hfresh]; [set_solver|].
  destruct (register_one_spec root c Ht Hnd) as (Hnd' & Hg' & Hreg & Hns').
  { intros w Hw Hin. destruct (Hns w Hin) as [?|(c' & Hc' & Hh)]; [by apply (Hfresh w); [rewrite Hw|]|].
    destruct (Hall c') as [Ht' _]; [set_solver|].
    assert (fewer_spaces c' c) as Hle.
    { eapply StronglySorted_app_1_elem_of; [exact Hsort|done|by left]. }
    unfold fewer_spaces in Hle. rewrite !tidy_spaces, Hw in Hle by done.
    pose proof (td_some c' Ht') as Hs. assert (words c' = [w]) as Hw'.
    { clear - Hle Hs Hh. destruct (words c') as [|x [|y l]]; [done| |cbn in Hle; lia]. by injection Hh as ->. }
    rewrite fmap_app in Hname. apply NoDup_app in Hname as (_ & Hd & _). apply (Hd (cc_Name c)).
    - rewrite (td_name c Ht), Hw, <- Hw', <- (td_name c' Ht'). apply list_elem_of_fmap. by exists c'.
    - by left. }
  assert (don ++ c :: todo = (don ++ [c]) ++ todo) as Hl by (by rewrite <- app_assoc).
  rewrite Hl in *. apply IH; try done.
  - intros n Hn. destruct (Hns' n Hn) as [Hn'|Hh].
    + destruct (Hns n Hn') as [?|(c' & Hc' & ?)]; [by left|right]. exists c'. split; [|done]. set_solver.
    + right. exists c. split; [|done]. set_solver.
  - apply Forall_app. split; [|by constructor]. eapply Forall_impl; [exact Hdon|].
    intros x Hx. by eapply registered_grows.
  - by eapply grows_trans.
Qed.

(** C37: registering the commands of a plugin, whatever order cobra keeps its
    commands in: if their names are tidy and distinct and no command of the root
    is named like one of their first words, then in the end the names at the
    root are distinct (no parent is made twice), the commands that were there
    are there, and every command of the plugin is found under its name, runs
    the plugin with that command, and so does each of its subcommands. *)
Theorem register_all_spec l root :
  NoDup (names root) → NoDup (cc_Name <$> l) →
  (∀ c, c ∈ l → tidy c ∧ ∀ w, head (words c) = Some w → w ∉ names root) →
  let root' := register_all pluginPath l root in
  NoDup (names root') ∧ grows root root' ∧ ∀ c, c ∈ l → registered pluginPath root' c.
Proof.
  intros Hnd Hname Hall. destruct (sortedCommands_spec l) as [Hp Hs].
  destruct (register_loop (sortedCommands l) [] root root) as (Hn & Hr & Hg); try done.
  - intros n. by left.
  - by apply grows_incl.
  - intros c Hc. apply Hall. cbn in Hc. by rewrite Hp in Hc.
  - cbn. by rewrite Hp.
  - split_and!; [done..|]. intros c Hc. cbn in Hr. rewrite Forall_forall in Hr. apply Hr. by rewrite Hp.
Qed.
End all_registered.

(** ** Polling *)

Section polling.
Context `{ClientInterface} (pluginName fullCommand : string) (args : list string).
Notation watch events := (executeContinuousCommand events pluginName fullCommand args).
Notation poll events := (poll events pluginName fullCommand args).

(** Once it has stopped nothing more happens, whatever the clock does; until then
    the next events go on from where it is. *)
Lemma poll_app es es' t :
  poll (es ++ es') t = match poll es t with (Ok true, t1) => poll es' t1 | r => r end.
Proof.
  revert t. induction es as [|[|] es IH]; intros t; [done| |done]. cbn [app CliPlugins.poll].
  unfold mbind, M_bind. destruct (clearScreen t) as [[]t1]; [|done..].
  destruct (printCommandSnapshot _ _ _ t1) as [[[]| |] t2]; [apply IH|done..].
Qed.
Lemma watch_app es es' t :
  watch (es ++ es') t = match watch es t with (Ok true, t1) => poll es' t1 | r => r end.
Proof.
  unfold executeContinuousCommand, mbind, M_bind.
  destruct (printCommandSnapshot _ _ _ t) as [[[]| |] t1]; [apply poll_app|done..].
Qed.
Context (Hsafe : ∀ req, safe (ci_Send req)).
Lemma snapshot_answers t : ∃ b t', printCommandSnapshot pluginName fullCommand args t = (Ok b, t').
Proof.
  unfold printCommandSnapshot, send, mbind, M_bind, attempt.
  pose proof (Hsafe (cli_request pluginName fullCommand args) (tm_client t)) as Hs.
  destruct (ci_Send _ _) as [[resp|e|p] c]; [|by eexists _, _|done]. cbn [negb].
  destruct (rv_Success resp); cbn [negb]; [|by eexists _, _].
  destruct (rv_Data resp); try (by eexists _, _). case_bool_decide; [by eexists _, _|].
  unfold print, modify, println. cbn. destruct (has_prefix _ _); by eexists _, _.
Qed.
(** However the daemon answers, an interrupt ends the command. *)
Theorem interrupted_watch_ends events t :
  Interrupt ∈ events → ∃ t', watch events t = (Ok false, t').
Proof.
  intros Hin. assert (∀ t, ∃ t', poll events t = (Ok false, t')) as Hp.
  { induction events as [|[|] events IH]; intros t1; [by apply not_elem_of_nil in Hin| |by eexists].
    apply elem_of_cons in Hin as [|Hin]; [done|]. cbn [CliPlugins.poll]. unfold mbind, M_bind.
    unfold clearScreen, print, modify. destruct (snapshot_answers
      {| tm_out := tm_out t1 ++ [OText (bytes [27; 91; 72; 27; 91; 50; 74]%N)]; tm_client := tm_client t1 |})
      as (b & t2 & ->). destruct b; [by apply IH|by eexists]. }
  unfold executeContinuousCommand, mbind, M_bind. destruct (snapshot_answers t) as (b & t1 & ->).
  destruct b; [apply Hp|by eexists].
Qed.
End polling.

(** ** From the command line to the plugin *)
Section reaches.
Context `{Host} `{RangeOrder} `{OS} `{Clock} `{Kernel} `{!Inspection} `{FloatToInt} `{FloatToUint}.
Context `{ConnectionUp} `{Texts} (now : Z).
#[local] Instance cli_client : ClientInterface := realClient now.
Notation R := (Remote Sys).

Lemma respond_cli plugin command args :
  respond now (cli_request plugin command args) = in_world (handlePluginCLI plugin command args).
Proof. reflexivity. Qed.
Lemma respond_cli_runs plugin command args (s : Sys) ns loader output h' :
  Registry.GetNamespaceForPlugin plugin (w_registry (sys_world s)) = Some ns →
  Registry.Get ns (w_registry (sys_world s)) = Some loader →
  ExecuteCLICommand loader command args (w_host (sys_world s)) = (Ok output, h') →
  respond now (through_json (cli_request plugin command args)) s =
    (Ok (ok_response (DText output) []),
     {| sys_world := with_host h' (sys_world s); sys_kernel := sys_kernel s;
        sys_observer := sys_observer s |}).
Proof.
  intros Hns Hl He. change (through_json ?r) with r. rewrite respond_cli.
  unfold in_world, handlePluginCLI, mbind, M_bind, gets. rewrite Hns. cbn [from_option id]. rewrite Hl.
  unfold try_or_fail, mbind, M_bind, attempt, in_host. by rewrite He.
Qed.

End reaches.

(** ** At concrete inputs *)

(** The first word of a use line. *)
Fixpoint first_word (s : string) : string :=
  match s with
  | "" => ""
  | String c t => if Ascii.eqb c (byte_of 32) then "" else String c (first_word t)
  end.
Lemma first_word_word s : contains_byte (byte_of 32) s = false → first_word s = s.
Proof.
  induction s as [|c s IH]; [done|]. cbn [contains_byte first_word].
  destruct (Ascii.eqb c (byte_of 32)); [done|].
  intros Hs. by rewrite IH.
Qed.
Definition reversing_cobra : Cobra :=
  {| cb_Name := first_word; cb_Commands := @rev Command; cb_Name_word := first_word_word;
     cb_Commands_perm l := symmetry (Permutation_rev l) |}.
Definition leaf (use : string) : Command := MkCommand use "" "" false None [].
Definition cli_root : list Command := [leaf "apply"; leaf "plugin"; leaf "rollback [checkpoint-id]"].
Definition bare_command (n : string) (subs : list string) : CLICommand :=
  {| cc_Name := n; cc_Short := ""; cc_Long := ""; cc_Subcommands := subs; cc_Continuous := false;
     cc_PollInterval := 0 |}.
(** The commands of the firewall plugin, the longer name first. *)
Definition firewall_commands : list CLICommand :=
  [bare_command "firewall watch" []; bare_command "firewall" ["stats"; "logs"]].
Definition firewall_path : string := "/usr/lib/jack/plugins/jack-plugin-firewall".

(** Each command at the root with its children. *)
Definition outline (l : list Command) : list (string * list string) :=
  (λ c, (cm_Use c, cm_Use <$> cm_commands c)) <$> l.
Example firewall_is_one_command :
  outline (@register_all reversing_cobra firewall_path firewall_commands cli_root) =
    [("firewall", ["stats"; "logs"; "watch"]); ("rollback [checkpoint-id]", []); ("plugin", []);
     ("apply", [])].
Proof. vm_compute. reflexivity. Qed.
(** Without the sorting there were two commands of one name, and only one of them
    is found. *)
Example unsorted_makes_two :
  outline (foldl (@register_one reversing_cobra firewall_path) [] firewall_commands) =
    [("firewall", ["watch"]); ("firewall", ["stats"; "logs"])].
Proof. vm_compute. reflexivity. Qed.

Lemma register_all_spec_witness :
  Forall (@registered reversing_cobra firewall_path
    (@register_all reversing_cobra firewall_path firewall_commands cli_root)) firewall_commands.
Proof.
  refine (proj2 (Forall_forall _ _)
    (proj2 (proj2 (@register_all_spec reversing_cobra firewall_path firewall_commands cli_root _ _ _)))).
  - apply (bool_decide_unpack _). vm_compute. exact I.
  - apply (bool_decide_unpack _). vm_compute. exact I.
  - assert (∀ w, w ∈ ["firewall"; "watch"] → count_spaces w = 0%nat) as Hw.
    { intros w Hw. repeat (apply elem_of_cons in Hw as [->|Hw]; [reflexivity|]). by apply not_elem_of_nil in Hw. }
    assert ("firewall" ∉ @names reversing_cobra cli_root) as Hn.
    { apply (bool_decide_unpack _). vm_compute. exact I. }
    intros c Hc. apply elem_of_cons in Hc as [->|Hc]; [|apply list_elem_of_singleton in Hc as ->].
    + split; [split; [discriminate|reflexivity|exact Hw]|]. intros w [= <-]. exact Hn.
    + split; [split; [discriminate|reflexivity|]|].
      * intros w Hx. apply Hw. apply list_elem_of_singleton in Hx as ->. by left.
      * intros w [= <-]. exact Hn.
Defined.

(** A daemon with the firewall plugin, whose process answers with the command. *)
Definition echo_host : Host := {|
  host := nat;
  h_executable _ := mret false; h_ReadDir _ := mret []; h_NewPluginClient _ := fail ErrNotExist;
  h_Dispense _ := mret (); h_Metadata _ := fail ErrNotExist; h_SetupDaemonService _ := mret ();
  h_ApplyConfig _ _ := mret (); h_ValidateConfig _ _ := mret (); h_Flush _ := mret ();
  h_Status _ := mret JNull;
  h_ExecuteCLICommand _ c args := λ n, (Ok (join " " (c :: args) +:+ nl), S n);
  h_CallService _ _ _ _ := mret None; h_Close _ := mret () |}.
Definition firewall_loader : PluginLoader :=
  {| pl_client := 1%positive;
     pl_metadata := {| pm_Namespace := "fw"; pm_Version := ""; pm_Description := ""; pm_Category := "";
       pm_ConfigPath := ""; pm_DefaultConfig := None; pm_Dependencies := []; pm_PathPrefix := "" |};
     pl_providedServices := []; pl_requiredServices := [] |}.
Definition fw_registry : PluginRegistry :=
  match Register firewall_loader "firewall" NewPluginRegistry with Ok r => r | _ => NewPluginRegistry end.
Definition fw_daemon (n : nat) : @Sys echo_host memory_kernel :=
  @Build_Sys echo_host memory_kernel
    {| w_state := NewState; w_fs := {| fs_files := ∅; fs_tick := 0 |}; w_registry := fw_registry;
       w_services := NewServiceRegistry; w_host := n : @host echo_host |}
    (Interfaces.new_machine None) None.
Definition fw_client : ClientInterface :=
  @realClient echo_host default_order reliable_os half_seconds memory_kernel memory_inspection
    amd64_float_to_int amd64_float_to_uint pipe plain_texts 0.
Definition fw_term : @Term fw_client :=
  @Build_Term fw_client [] (@Build_Remote (@Sys echo_host memory_kernel) pipe (fw_daemon 0) true).
