(* ===== verification/CliViews.v ===== *)
(** * CliViews: the commands of cmd/ that show something

    status.go, logs.go, the listing of checkpoint.go, validate.go and the list,
    status and info of plugin.go: what they print of a response, of the files
    and of the plugins.  Texts are exact where they are ASCII.
    The theorems: sizes are printed without a panic for every int64; [jack
    status] counts the interfaces that are up and down; [jack logs watch] prints
    one line for every entry; [jack checkpoint list] shows what the daemon
    knows; files that [jack validate] accepts load. *)
From Stdlib Require Import SpecFloat.
From S2P Require Import Prelude GoStr Logger Float64 Monitoring GoNet Types Json Value Struct Codec Path Diff ConfigStore State Registry Services Loader Rpc Order Server PluginCommands Observer Netlink Routes Network Snapshot Interfaces Apply Daemon Inspect Client Cli CliPlugins.

(** ** status.go: texts *)

Definition boolToStatus (b : bool) : string := if b then "Active" else "Inactive".
Definition boolToYesNo (b : bool) : string := if b then "Yes" else "No".
Definition formatBytes (bytes : Z) : res string :=
  if bytes <? 1024 then Ok (itoa bytes +:+ " B")
  else
    match unit_of bytes with
    | None => Panic "not reached"
    | Some (div, exp) =>
        match String.get exp letters with
        | Some c => Ok (fixed 1 (fdiv (of_Z bytes) (of_Z div)) +:+ " " +:+ String c "iB")
        | None => Panic "index out of range"
        end
    end.
Definition title_word (word : string) : string :=
  match word with "" => "" | String c rest => String (upper_byte c) (to_lower rest) end.
Definition toTitleCase (s : string) : string := join " " (title_word <$> fields s).
(** strings.ReplaceAll(key, "_", " ") *)
Definition spaced (key : string) : string :=
  map_str (λ c, if Ascii.eqb c (byte_of 95) then byte_of 32 else c) key.
(** A number under %.0f. *)
Definition rounded (n : num) : string :=
  match n with
  | NInt z => itoa z
  | NFrac m e => (if m <? 0 then "-" else "") +:+ itoa (nearest (Z.abs m) (2 ^ Zpos e))
  end.

(** ** status.go: what is printed *)

(** A key of a JSON object; a missing one is nil. *)
Definition key (m : gmap string value) (k : string) : value := default VNil (m !! k).
Definition line (s : string) : item := OText (s +:+ nl).
(** [fmt.Printf(prefix + "%v" + suffix)] *)
Definition with_value (prefix : string) (v : value) (suffix : string) : list item :=
  [OText prefix; OValue v; OText (suffix +:+ nl)].
Definition flag (v : value) : bool := match v with VBool b => b | _ => false end.
Definition text (v : value) : string := match v with VStr s => s | _ => "" end.

Section status.
Context `{RangeOrder} `{FloatToInt}.

Definition plugin_up (statusMap : gmap string value) : bool :=
  match key statusMap "enabled", key statusMap "running" with
  | VBool e, _ => e
  | _, VBool r => r
  | _, _ => false
  end.
Definition counted (v : value) (what : string) : string :=
  match v with VNum n => " - " +:+ itoa (int64_of_float n) +:+ " " +:+ what | _ => "" end.
Definition printPluginStatus (namespace : string) (pluginStatus : value) : list item :=
  match pluginStatus with
  | VMap statusMap =>
      [line ("  " +:+ (if plugin_up statusMap then "[UP]" else "[DOWN]") +:+ " " +:+
             pad_right 12 namespace +:+
             match key statusMap "provider" with VStr p => " (" +:+ p +:+ ")" | _ => "" end +:+
             counted (key statusMap "lease_count") "leases" +:+
             counted (key statusMap "rule_count") "rules")]
  | _ => []
  end.
Definition daemon_lines (v : value) : list item :=
  match v with
  | VMap daemonData =>
      if flag (key daemonData "running") then
        with_value "[OK] Daemon:     Running (PID: " (key daemonData "pid") ")"
      else [line "[DOWN] Daemon:   Not running"]
  | _ => []
  end.
Definition system_lines (v : value) : list item :=
  match v with
  | VMap sysData =>
      with_value "  Hostname:   " (key sysData "hostname") "" ++
      with_value "  Uptime:     " (key sysData "uptime") ""
  | _ => []
  end.
(** Up, and in any other state. *)
Definition count_interface (counts : Z * Z) (ifaceData : value) : Z * Z :=
  match ifaceData with
  | VMap iface =>
      match key iface "state" with
      | VStr state => if bool_decide (state = "up") then (counts.1 + 1, counts.2)
                      else (counts.1, counts.2 + 1)
      | _ => counts
      end
  | _ => counts
  end.
Definition summary_lines (v : value) : list item :=
  match v with
  | VArr interfacesData =>
      let '(upCount, downCount) := foldl count_interface (0, 0) interfacesData in
      [line ("Interfaces: " +:+ itoa upCount +:+ " up" +:+
             if 0 <? downCount then ", " +:+ itoa downCount +:+ " down" else "")]
  | _ => []
  end.
Definition plugin_lines (title : list item) (print_plugin : string → value → list item) (v : value)
    : list item :=
  match v with
  | VMap pluginsData =>
      if bool_decide (pluginsData = ∅) then []
      else title ++ (range pluginsData ≫= λ p, print_plugin p.1 p.2)
  | _ => []
  end.
Definition printCompactStatus (data : value) : list item :=
  match data with
  | VMap dataMap =>
      [line "Jack Network Configuration Daemon"; line "=================================="; line ""] ++
      daemon_lines (key dataMap "daemon") ++ system_lines (key dataMap "system") ++ [line ""] ++
      [line (if flag (key dataMap "pending")
             then "[WARN] Configuration: Pending changes (use 'jack diff' to view)"
             else "[OK] Configuration:   No pending changes"); line ""] ++
      [line (if flag (key dataMap "ip_forwarding") then "[OK] IP Forwarding: Enabled"
             else "[INFO] IP Forwarding: Disabled")] ++
      plugin_lines [line ""; line "Plugins:"] printPluginStatus (key dataMap "plugins") ++ [line ""] ++
      summary_lines (key dataMap "interfaces") ++
      [line ""; line "Use 'jack status -v' for detailed interface information"]
  | _ => [line "Unable to parse status data"]
  end.

(** ** The verbose status *)
Definition label (formattedKey : string) : string := "  " +:+ pad_right 12 (formattedKey +:+ ":") +:+ " ".
Definition warning_sign : string := bytes [226; 154; 160; 239; 184; 143]%N.
Definition plugin_field (namespace : string) (p : string * value) : list item :=
  let '(k, v) := p in
  if bool_decide (namespace = "monitoring") && bool_decide (k ∈ ["system_metrics"; "interface_metrics"])
  then []
  else
    let formattedKey := toTitleCase (spaced k) in
    match v with
    | VBool b => [line (label formattedKey +:+ boolToStatus b)]
    | VNum n => [line (label formattedKey +:+ rounded n)]
    | VStr s => [line (label formattedKey +:+ s)]
    | VArr l =>
        if bool_decide (k = "warnings") then
          l ≫= λ warning, match warning with
                          | VStr s => [line ("  " +:+ warning_sign +:+ "  Warning: " +:+ s)]
                          | _ => []
                          end
        else []
    | _ => []
    end.
Definition printPluginStatusVerbose (namespace : string) (pluginStatus : value) : list item :=
  match pluginStatus with
  | VMap statusMap => line namespace :: (range statusMap ≫= plugin_field namespace)
  | _ => []
  end.
(** One direction of the statistics. *)
Definition traffic (title : string) (packets bytes errors : value) : res (list item) :=
  match packets with
  | VNum p =>
      match bytes with
      | VNum b => (λ s, " (" +:+ s +:+ ")") <$> formatBytes (int64_of_float b)
      | _ => Ok ""
      end ≫= λ size,
      Ok [line ("    " +:+ title +:+ ":         " +:+ itoa (int64_of_float p) +:+ " packets" +:+ size +:+
        match errors with
        | VNum e => if 0 <? match e with NInt z => z | NFrac m _ => m end
                    then " [" +:+ itoa (int64_of_float e) +:+ " errors]" else ""
        | _ => ""
        end)]
  | _ => Ok []
  end.
(** The addresses, separated by commas. *)
Fixpoint address_items (l : list value) : list item :=
  match l with
  | [] => []
  | [ip] => [OValue ip]
  | ip :: l => OValue ip :: OText ", " :: address_items l
  end.
Definition printInterface (iface : gmap string value) : res (list item) :=
  let state := text (key iface "state") in
  let stateSymbol := if bool_decide (state = "up") then "[UP]" else "[DOWN]" in
  traffic "RX" (key iface "rx_packets") (key iface "rx_bytes") (key iface "rx_errors") ≫= λ rx,
  traffic "TX" (key iface "tx_packets") (key iface "tx_bytes") (key iface "tx_errors") ≫= λ tx,
  Ok ([line (stateSymbol +:+ " " +:+ text (key iface "name") +:+ " (" +:+ text (key iface "type") +:+ ")");
       line ("    State:      " +:+ state)] ++
      match key iface "ipaddr" with
      | VArr ((_ :: _) as ipAddrs) =>
          [OText "    IP Address: "] ++ address_items ipAddrs ++ [line ""]
      | _ => [line "    IP Address: (none)"]
      end ++
      match key iface "mtu" with
      | VNum mtu => if 0 <? match mtu with NInt z => z | NFrac m _ => m end
                    then [line ("    MTU:        " +:+ itoa (int64_of_float mtu))] else []
      | _ => []
      end ++ rx ++ tx ++ [line ""]).
Fixpoint print_interfaces (l : list value) : res (list item) :=
  match l with
  | [] => Ok []
  | VMap iface :: l => printInterface iface ≫= λ a, print_interfaces l ≫= λ b, Ok (a ++ b)
  | _ :: l => print_interfaces l
  end.
Definition daemon_details (v : value) : list item :=
  match v with
  | VMap d =>
      let running := flag (key d "running") in
      [line ("Status:      " +:+ boolToStatus running)] ++
      (if running then
         with_value "PID:         " (key d "pid") "" ++
         match key d "uptime" with
         | VStr uptime => if bool_decide (uptime = "") then [] else [line ("Uptime:      " +:+ uptime)]
         | _ => []
         end
       else []) ++ with_value "Config Path: " (key d "config_path") ""
  | _ => []
  end.
Definition system_details (v : value) : list item :=
  match v with
  | VMap d =>
      with_value "Hostname:       " (key d "hostname") "" ++
      with_value "Kernel:         " (key d "kernel_version") "" ++
      with_value "System Uptime:  " (key d "uptime") ""
  | _ => []
  end.
Definition section (title underline : string) : list item := [line title; line underline].
Definition printVerboseStatus (data : value) : res (list item) :=
  match data with
  | VMap dataMap =>
      let pending := flag (key dataMap "pending") in
      match key dataMap "interfaces" with VArr l => print_interfaces l | _ => Ok [] end ≫= λ interfaces,
      Ok ([line "Jack Network Configuration Daemon - Detailed Status";
           line "===================================================="; line ""] ++
          section "DAEMON" "------" ++ daemon_details (key dataMap "daemon") ++ [line ""] ++
          section "SYSTEM" "------" ++ system_details (key dataMap "system") ++ [line ""] ++
          section "CONFIGURATION" "-------------" ++
          [line ("Pending Changes: " +:+ boolToYesNo pending)] ++
          (if pending then [line "                 (use 'jack diff' to view)"] else []) ++ [line ""] ++
          section "IP FORWARDING" "-------------" ++
          match key dataMap "ip_forwarding" with
          | VBool b => [line ("Status: " +:+ boolToStatus b)]
          | _ => []
          end ++ [line ""] ++
          plugin_lines (section "PLUGINS" "-------")
            (λ n v, printPluginStatusVerbose n v ++ [line ""]) (key dataMap "plugins") ++
          section "INTERFACES" "----------" ++ interfaces)
  | _ => Ok [line "Unable to parse status data"]
  end.
End status.

Definition runStatus `{ClientInterface} `{RangeOrder} `{FloatToInt} (verboseStatus : bool) : M Term () :=
  ask (command_request "info") ≫= λ resp,
  if verboseStatus then lift (printVerboseStatus (rv_Data resp)) ≫= print
  else print (printCompactStatus (rv_Data resp)).

(** ** logs.go *)
Definition journalctl_args (follow : bool) (lines : Z) (since : string) : list string :=
  ["journalctl"; "-u"; "jack"] ++
  (if follow then ["-f"] else []) ++
  (if (0 <? lines) && negb follow then ["-n"; itoa lines] else []) ++
  (if bool_decide (since = "") then [] else ["--since"; since]) ++
  (if negb follow then ["--no-pager"] else []).
Definition log_file : string := "/var/log/jack/jack.log".
Definition tail_args (follow : bool) (lines : Z) : list string :=
  ["tail"] ++ (if follow then ["-f"] else []) ++ (if 0 <? lines then ["-n"; itoa lines] else []) ++
  [log_file].
(** [log_exists]: os.Stat finds the file, or fails in another way.  The command
    that is run, what is printed on stderr before it, or the messages of the
    exit with an error. *)
Definition runTailLogs (log_exists : bool) (follow : bool) (lines : Z) (since : string)
    : list string * option (list string) :=
  if log_exists then
    (if bool_decide (since = "") then []
     else ["[WARN] --since flag is not supported without journalctl, ignoring" +:+ nl],
     Some (tail_args follow lines))
  else
    (["[ERROR] Log file not found: " +:+ log_file +:+ nl;
      "[INFO] Make sure jack daemon is running or has been run at least once." +:+ nl], None).
Definition runLogs (has_journalctl log_exists follow : bool) (lines : Z) (since : string)
    : list string * option (list string) :=
  if has_journalctl then ([], Some (journalctl_args follow lines since))
  else runTailLogs log_exists follow lines since.

(** The texts of an entry that are printed; its fields may be any object. *)
Definition entry_tags : list string := ["timestamp"; "level"; "component"; "message"; "fields"].
Definition zero_entry : Entry :=
  {| en_Timestamp := ""; en_Level := ""; en_Component := ""; en_Message := ""; en_Fields := ∅ |}.
Definition set_entry (e : Entry) (t : string) (j : json) : res Entry :=
  let put ts l c m f := {| en_Timestamp := ts; en_Level := l; en_Component := c; en_Message := m;
                           en_Fields := f |} in
  let '(ts, l, c, m, f) :=
    (en_Timestamp e, en_Level e, en_Component e, en_Message e, en_Fields e) in
  if bool_decide (t = "timestamp") then (λ s, put s l c m f) <$> dec_string ts j
  else if bool_decide (t = "level") then (λ s, put ts s c m f) <$> dec_string l j
  else if bool_decide (t = "component") then (λ s, put ts l s m f) <$> dec_string c j
  else if bool_decide (t = "message") then (λ s, put ts l c s f) <$> dec_string m j
  else (λ f, put ts l c m (gm f)) <$> dec_map (λ j, Ok (Unmarshal_any j)) (Some f) j.
Definition Unmarshal_Entry : json → res Entry := dec_record entry_tags set_entry zero_entry.
Definition entry_line (e : Entry) : string :=
  "[" +:+ en_Timestamp e +:+ "] [" +:+ en_Level e +:+ "] " +:+ en_Component e +:+ ": " +:+
  en_Message e +:+ nl.
(** The callback of runLogsWatch; [None]: a line that is no JSON. *)
Definition print_entry (logData : option json) : M (list string) () :=
  lift (wrap "failed to parse log entry: "
    (ok_or (StdError "encoding/json" "SyntaxError") logData ≫= Unmarshal_Entry)) ≫= λ entry,
  modify (λ out, out ++ [entry_line entry]).
Definition watch_filter (component : string) (args : list string) : LogFilter :=
  {| lf_Level := default "" (head args); lf_Component := component; lf_Tail := 0 |}.
Definition runLogsWatch (dialed written : res ()) (lines : list (option json)) (ended : error)
    : M (list string) () := StreamLogs dialed written lines ended print_entry.

(** ** checkpoint.go: list *)

(** time.Time: the JSON of [Texts] read back, and the time of day as it is shown. *)
Class Times `{Texts} := {
  parse_time : string → res Z;
  show_time : Z → string;
  parse_text_time t : parse_time (text_time t) = Ok t;
}.
Section checkpoints.
Context `{ClientInterface} `{Times}.
Definition snapshot_tags : list string := ["checkpoint_id"; "timestamp"; "trigger"].
Definition set_snapshot (s : SnapshotInfo) (t : string) (j : json) : res SnapshotInfo :=
  let put i ts tr := {| si_CheckpointID := i; si_Timestamp := ts; si_Trigger := tr |} in
  if bool_decide (t = "checkpoint_id") then
    (λ i, put i (si_Timestamp s) (si_Trigger s)) <$> dec_string (si_CheckpointID s) j
  else if bool_decide (t = "timestamp") then
    match j with
    | JNull => Ok s
    | JStr text => (λ ts, put (si_CheckpointID s) ts (si_Trigger s)) <$> parse_time text
    | _ => Err type_error
    end
  else (λ tr, put (si_CheckpointID s) (si_Timestamp s) tr) <$> dec_string (si_Trigger s) j.
(** The zero time is no number of nanoseconds; it is replaced in every entry the
    daemon sends. *)
Definition zero_snapshot : SnapshotInfo :=
  {| si_CheckpointID := ""; si_Timestamp := 0; si_Trigger := "" |}.
Definition Unmarshal_snapshots (j : json) : res (list SnapshotInfo) :=
  dec_slice (dec_record snapshot_tags set_snapshot) zero_snapshot [] j.
Definition table_line (a b c : string) : item :=
  line (pad_right 30 a +:+ " " +:+ pad_right 25 b +:+ " " +:+ pad_right 10 c).
Definition snapshot_line (s : SnapshotInfo) : item :=
  table_line (si_CheckpointID s) (show_time (si_Timestamp s)) (si_Trigger s).
Definition checkpointList : M Term () :=
  ask (command_request "checkpoint-list") ≫= λ resp,
  lift (wrap "failed to parse snapshots: " (Unmarshal_snapshots (Marshal (rv_Data resp)))) ≫= λ snapshots,
  match snapshots with
  | [] => print [line "No checkpoints available"]
  | _ =>
      print ([table_line "CHECKPOINT ID" "TIMESTAMP" "TRIGGER"; line (repeat_byte 70 hyphen)] ++
             (snapshot_line <$> snapshots))
  end.
End checkpoints.

(** ** validate.go *)
Section validate.
Context `{OS}.
Definition validateInterfaces : M FS () :=
  LoadConfig Unmarshal_InterfacesConfig "interfaces" ≫= λ interfacesConfig,
  if bool_decide (gm (ic_Interfaces interfacesConfig) = ∅) then
    fail (ErrorText "no interfaces defined")
  else mret ().
(** os.IsNotExist looks at the error itself, not at what it wraps. *)
Definition os_IsNotExist (err : error) : bool := bool_decide (err = ErrNotExist).
Definition validateRoutes : M FS () :=
  attempt (LoadConfig Unmarshal_RoutesConfig "routes") ≫= λ r,
  match r with
  | Err err => if os_IsNotExist err then mret () else fail err
  | Panic w => lift (Panic w)
  | Ok _ => mret ()
  end.
Definition validateJackConfig : M FS () :=
  LoadJackConfig ≫= λ jackConfig,
  if bool_decide (gm (jc_Plugins jackConfig) = ∅) then fail (ErrorText "no plugins configured")
  else mret ().
Definition validateGenericJSON (path : string) : M FS () :=
  wrapM "failed to read: " (os_ReadFile path) ≫= λ data,
  lift match data with
       | CJson _ | CSnapshot _ => Ok ()
       | CText _ | CGarbage =>
           Err (Wrapf "JSON syntax error: " (StdError "encoding/json" "SyntaxError"))
       end.
Definition cross : string := bytes [226; 157; 140]%N.
Definition tick : string := bytes [226; 156; 147]%N.
Definition slashed : string := bytes [226; 138; 152]%N.
(** The line for one file, and whether it has an error. *)
Definition verdict (file : string) (r : res ()) : string * bool :=
  match r with
  | Err err => (cross +:+ " " +:+ file +:+ ": " +:+ error_string err +:+ nl, true)
  | _ => (tick +:+ " " +:+ file +:+ ": valid" +:+ nl, false)
  end.
Fixpoint validate_plugins (files : list string) : M FS (list (string * bool)) :=
  match files with
  | [] => mret []
  | file :: files =>
      let path := filepath_Join config_dir file in
      attempt (os_Stat path) ≫= λ st,
      (if match st with Err err => os_IsNotExist err | _ => false end then
         mret (slashed +:+ " " +:+ file +:+ ": not found (optional)" +:+ nl, false)
       else attempt (validateGenericJSON path) ≫= λ r, mret (verdict file r)) ≫= λ v,
      validate_plugins files ≫= λ vs, mret (v :: vs)
  end.
Definition plugin_files : list string := ["nftables.json"; "dnsmasq.json"; "wireguard.json"].
(** What is printed, and the exit code. *)
Definition runValidate : M FS (list string * Z) :=
  attempt validateInterfaces ≫= λ interfaces,
  attempt validateRoutes ≫= λ routes,
  attempt validateJackConfig ≫= λ jack,
  validate_plugins plugin_files ≫= λ plugins,
  let verdicts := [verdict "interfaces.json" interfaces; verdict "routes.json" routes;
                   verdict "jack.json" jack] ++ plugins in
  let hasErrors := existsb snd verdicts in
  mret (["Validating configuration files in " +:+ config_dir +:+ "..." +:+ nl +:+ nl] ++
        (fst <$> verdicts) ++
        [nl; if hasErrors then cross +:+ " Validation failed - please fix the errors above" +:+ nl
             else tick +:+ " All configuration files are valid" +:+ nl],
        if hasErrors then 1 else 0).
End validate.

(** ** plugin.go: list, status and info *)

(** These commands read the files and start the plugins themselves. *)
Record Shell `{Host} := { sh_out : list string; sh_fs : FS; sh_host : host }.
Section plugin_views.
Context `{PluginFiles} `{RangeOrder} `{OS}.
Definition from_fs {A} (m : M FS A) : M Shell A := λ s,
  let '(r, fs) := m (sh_fs s) in (r, {| sh_out := sh_out s; sh_fs := fs; sh_host := sh_host s |}).
Definition from_host {A} (m : M host A) : M Shell A := λ s,
  let '(r, h) := m (sh_host s) in (r, {| sh_out := sh_out s; sh_fs := sh_fs s; sh_host := h |}).
Definition say (s : string) : M Shell () :=
  modify (λ sh, {| sh_out := sh_out sh ++ [s +:+ nl]; sh_fs := sh_fs sh; sh_host := sh_host sh |}).

(** The reply of a plugin started for this call and closed after it. *)
Definition ask_metadata (client : positive) : M host MetadataResponse :=
  h_Dispense client ≫= λ _, h_Metadata client.
Definition getPluginMetadata (path : string) : M host string :=
  attempt (h_NewPluginClient path) ≫= λ client,
  match client with
  | Ok client =>
      attempt (ask_metadata client) ≫= λ metadata,
      attempt (h_Close client) ≫= λ _,
      mret match metadata with Ok m => pm_Description (mr_metadata m) | _ => "" end
  | _ => mret ""
  end.

Definition is_enabled (config : res JackConfig) (name : string) : bool :=
  match config with
  | Ok config => match gm (jc_Plugins config) !! name with Some s => ps_Enabled s | None => false end
  | _ => false
  end.
Definition list_line (name : string) (config : res JackConfig) (metadata pluginPath : string) : string :=
  "  " +:+ name +:+ " [" +:+ (if is_enabled config name then "enabled" else "disabled") +:+ "] - " +:+
  if bool_decide (metadata = "") then pluginPath else metadata +:+ " (" +:+ pluginPath +:+ ")".
Definition list_one (config : res JackConfig) (name : string) : M Shell () :=
  attempt (from_host (FindPlugin name)) ≫= λ pluginPath,
  match pluginPath with
  | Err err => say ("  " +:+ name +:+ " - [ERROR: " +:+ error_string err +:+ "]")
  | Panic w => lift (Panic w)
  | Ok pluginPath =>
      from_host (getPluginMetadata pluginPath) ≫= λ metadata,
      say (list_line name config metadata pluginPath)
  end.
Definition runPluginList : M Shell () :=
  wrapM "failed to list plugins: " (from_host ListPlugins) ≫= λ pluginNames,
  match pluginNames with
  | [] => say "No plugins found"
  | _ =>
      attempt (from_fs LoadJackConfig) ≫= λ config,
      say "Installed plugins:" ≫= λ _,
      for_each (sort_Strings pluginNames) (list_one config)
  end.

Definition status_one (p : string * PluginState) : M Shell () :=
  let '(name, pluginState) := p in
  if ps_Enabled pluginState then
    attempt (from_host (FindPlugin name)) ≫= λ pluginPath,
    match pluginPath with
    | Err err => say ("  " +:+ name +:+ " - [NOT FOUND: " +:+ error_string err +:+ "]")
    | Panic w => lift (Panic w)
    | Ok pluginPath =>
        from_host (getPluginMetadata pluginPath) ≫= λ metadata,
        say (if bool_decide (metadata = "") then "  " +:+ name else "  " +:+ name +:+ " - " +:+ metadata)
    end
  else mret ().
Definition runPluginStatus : M Shell () :=
  wrapM "failed to load jack config: " (from_fs LoadJackConfig) ≫= λ config,
  if bool_decide (gm (jc_Plugins config) = ∅) then say "No plugins enabled"
  else say "Enabled plugins:" ≫= λ _, for_each (range (gm (jc_Plugins config))) status_one.

Definition command_line (cliCmd : CLICommand) : string :=
  "  " +:+ cc_Name cliCmd +:+
  match cc_Subcommands cliCmd with [] => "" | subs => " (" +:+ join ", " subs +:+ ")" end.
Definition metadata_lines (m : MetadataResponse) : list string :=
  let metadata := mr_metadata m in
  ["Namespace: " +:+ pm_Namespace metadata; "Version: " +:+ pm_Version metadata;
   "Description: " +:+ pm_Description metadata] ++
  match pm_Dependencies metadata with [] => [] | deps => ["Dependencies: " +:+ join ", " deps] end ++
  match mr_CLICommands m with [] => [] | cmds => "CLI Commands:" :: (command_line <$> cmds) end.
Definition enabled_line (config : JackConfig) (pluginName : string) : string :=
  match gm (jc_Plugins config) !! pluginName with
  | Some s => if ps_Enabled s then "Status: enabled (version " +:+ ps_Version s +:+ ")"
              else "Status: disabled"
  | None => "Status: disabled"
  end.
(** What is printed while the plugin runs. *)
Definition describe (pluginName : string) (client : positive) : M Shell () :=
  attempt (from_host (h_Dispense client)) ≫= λ provider,
  match provider with
  | Err err => say ("Metadata: ERROR - failed to dispense plugin: " +:+ error_string err)
  | Panic w => lift (Panic w)
  | Ok _ =>
      attempt (from_host (h_Metadata client)) ≫= λ metadata,
      match metadata with
      | Err err => say ("Metadata: ERROR - " +:+ error_string err)
      | Panic w => lift (Panic w)
      | Ok metadata =>
          for_each (metadata_lines metadata) say ≫= λ _,
          attempt (from_fs LoadJackConfig) ≫= λ config,
          match config with
          | Ok config => say (enabled_line config pluginName)
          | _ => mret ()
          end
      end
  end.
Definition runPluginInfo (pluginName : string) : M Shell () :=
  wrapM ("plugin '" +:+ pluginName +:+ "' not found: ") (from_host (FindPlugin pluginName))
    ≫= λ pluginPath,
  say ("Plugin: " +:+ pluginName) ≫= λ _, say ("Path: " +:+ pluginPath) ≫= λ _,
  attempt (from_host (pf_Stat pluginPath)) ≫= λ info,
  match info with
  | Err err => say ("Status: ERROR - " +:+ error_string err)
  | Panic w => lift (Panic w)
  | Ok (size, executable) =>
      say ("Size: " +:+ itoa size +:+ " bytes") ≫= λ _,
      say ("Executable: " +:+ if executable : bool then "true" else "false") ≫= λ _,
      attempt (from_host (h_NewPluginClient pluginPath)) ≫= λ client,
      match client with
      | Err err => say ("Metadata: ERROR - failed to start plugin: " +:+ error_string err)
      | Panic w => lift (Panic w)
      | Ok client =>
          describe pluginName client ≫= λ _,
          attempt (from_host (h_Close client)) ≫= λ _, mret ()
      end
  end.
End plugin_views.

(** ** Lemmas: sizes *)

(** Every int64 is printed without a panic: below 1024 (also a negative one) in
    bytes, otherwise divided by the largest power of 1024 that does not exceed
    it, with that power's letter; the powers are computed without overflow. *)
Theorem formatBytes_spec bytes :
  in_int64 bytes = true →
  (bytes < 1024 → formatBytes bytes = Ok (itoa bytes +:+ " B")) ∧
  (1024 ≤ bytes → ∃ (e : nat) letter, (e < 6)%nat ∧ String.get e letters = Some letter ∧
     1024 ^ Z.of_nat (S e) ≤ bytes < 1024 ^ Z.of_nat (S (S e)) ∧
     formatBytes bytes = Ok (fixed 1 (fdiv (of_Z bytes) (of_Z (1024 ^ Z.of_nat (S e)))) +:+ " " +:+
                             String letter "iB")).
Proof.
  intros [_ Hm]%andb_true_iff. apply Z.leb_le in Hm. unfold max_int64 in Hm.
  unfold formatBytes. split; intros Hs; [by rewrite (proj2 (Z.ltb_lt _ _) Hs)|].
  rewrite (proj2 (Z.ltb_ge _ _)) by lia.
  destruct (unit_loop_spec 8 bytes 0) as (e & He & E & Hr); [lia|lia|done| |].
  { change (1024 ^ Z.of_nat (1 + 9)) with (2 ^ 100). lia. }
  unfold unit_of. change (1024 ^ Z.of_nat 1) with 1024 in E. rewrite E.
  destruct (String.get e letters) as [c|] eqn:Hc.
  - exists e, c. split_and!; [lia|done|apply Hr|apply Hr|done].
  - exfalso. do 6 (destruct e as [|e]; [done|]). lia.
Qed.

(** ** Lemmas: the counts of the status *)

Definition through {A} (enc : A → json) (a : A) : value := Unmarshal_any (enc a).
Definition up_count (l : list InterfaceStatus) : Z :=
  Z.of_nat (length (List.filter (λ i, bool_decide (Inspect.is_State i = "up")) l)).
Lemma interface_state i :
  ∃ m, through enc_interface_status i = VMap m ∧ key m "state" = VStr (Inspect.is_State i).
Proof. eexists. split; [reflexivity|]. reflexivity. Qed.
Lemma count_interfaces l : ∀ c,
  foldl count_interface c (through enc_interface_status <$> l) =
    (c.1 + up_count l, c.2 + (Z.of_nat (length l) - up_count l)).
Proof.
  unfold up_count. induction l as [|i l IH]; intros [u d]; [cbn; f_equal; lia|].
  cbn [fmap list_fmap foldl]. rewrite IH. destruct (interface_state i) as (m & -> & Hk).
  unfold count_interface. rewrite Hk. cbn [List.filter length fst snd].
  destruct (bool_decide _); cbn [fst snd length]; f_equal; lia.
Qed.
(** [jack status] says how many of the interfaces that the daemon listed are up
    and how many are not. *)
Theorem status_counts_interfaces status plugins pending m :
  ss_Interfaces status ≠ [] → Unmarshal_any (info_data status plugins pending) = VMap m →
  let up := up_count (ss_Interfaces status) in
  let down := Z.of_nat (length (ss_Interfaces status)) - up in
  summary_lines (key m "interfaces") =
    [line ("Interfaces: " +:+ itoa up +:+ " up" +:+
           if 0 <? down then ", " +:+ itoa down +:+ " down" else "")].
Proof.
  intros Hne Hm up down.
  assert (key m "interfaces" = VArr (through enc_interface_status <$> ss_Interfaces status)) as ->.
  { unfold info_data in Hm. cbn [Unmarshal_any fmap list_fmap prod_map fst snd foldl] in Hm.
    injection Hm as <-. unfold key.
    rewrite !lookup_insert_ne by done. rewrite lookup_insert_eq. cbn [default from_option id].
    destruct (ss_Interfaces status) as [|i l]; [done|]. unfold enc_slice.
    cbn [Unmarshal_any]. rewrite <- list_fmap_compose. reflexivity. }
  unfold summary_lines. rewrite count_interfaces. cbn [fst snd]. fold up. by rewrite !Z.add_0_l.
Qed.

(** ** Lemmas: watching the log *)

Lemma Unmarshal_ToJSON e : ∃ f, Unmarshal_Entry (ToJSON e) =
  Ok {| en_Timestamp := en_Timestamp e; en_Level := en_Level e; en_Component := en_Component e;
        en_Message := en_Message e; en_Fields := f |}.
Proof.
  destruct e as [ts lv cp ms fl]. unfold Unmarshal_Entry, dec_record, ToJSON.
  cbn [en_Timestamp en_Level en_Component en_Message en_Fields].
  do 4 (erewrite dec_members_cons; [|by apply tag_in|reflexivity]).
  assert (∀ kvs m, ∃ f, dec_entries (λ j, Ok (Unmarshal_any j)) m kvs = Ok f) as Hd.
  { intros kvs. induction kvs as [|[k j] kvs IH]; intros m; [by exists m|]. cbn. apply IH. }
  destruct (Hd (sorted_entries (Marshal <$> fl)) ∅) as [f Hf]. exists f.
  apply dec_members_one; [by apply tag_in|]. unfold set_entry. cbn [bool_decide]. cbn. by rewrite Hf.
Qed.
(** Following the log prints one line for every entry that arrives, in the order
    they arrive, until the connection ends, whose error is reported. *)
Theorem watch_prints_every_entry es ended out :
  runLogsWatch (Ok ()) (Ok ()) ((λ e, Some (ToJSON e)) <$> es) ended out =
    (Err ended, out ++ (entry_line <$> es)).
Proof.
  unfold runLogsWatch, StreamLogs, mbind, M_bind, lift, wrap.
  assert (∀ out, for_each ((λ e, Some (ToJSON e)) <$> es) print_entry out
    = (Ok (), out ++ (entry_line <$> es))) as Hf; [|by rewrite Hf].
  induction es as [|e es IH]; intros o; cbn [fmap list_fmap for_each]; [by rewrite app_nil_r|].
  unfold mbind at 1, M_bind at 1. unfold print_entry at 1. cbn [ok_or mbind res_bind].
  destruct (Unmarshal_ToJSON e) as [f ->]. unfold mbind, M_bind, lift, wrap, modify.
  fold (fmap (M:=list) (λ e, Some (ToJSON e))). rewrite IH. by rewrite <- app_assoc.
Qed.

(** ** Lemmas: validation *)
Section validated.
Context `{OS}.

Lemma verdict_valid file r : (verdict file r).2 = false → ∀ err, r ≠ Err err.
Proof. by intros Hv err ->. Qed.
Lemma neither_Ok {A} (r : res A) : (∀ w, r ≠ Panic w) → (∀ err, r ≠ Err err) → ∃ a, r = Ok a.
Proof. destruct r as [a|err|w]; intros Hp He; [by exists a|by destruct (He err)|by destruct (Hp w)]. Qed.
Lemma attempt_bind_Ok {A B} (m : M FS A) (k : res A → M FS B) fs b fs' :
  (attempt m ≫= k) fs = (Ok b, fs') →
  (∀ w, (m fs).1 ≠ Panic w) ∧ k (m fs).1 (m fs).2 = (Ok b, fs').
Proof.
  unfold mbind, M_bind, attempt. destruct (m fs) as [[a|err|w] fs1] eqn:E; intros Hk; by simplify_eq/=.
Qed.
Lemma validateInterfaces_Ok fs fs' :
  validateInterfaces fs = (Ok (), fs') →
  ∃ c, LoadConfig Unmarshal_InterfacesConfig "interfaces" fs = (Ok c, fs') ∧ gm (ic_Interfaces c) ≠ ∅.
Proof.
  unfold validateInterfaces, mbind, M_bind. destruct (LoadConfig _ _ fs) as [[c|err|w] fs1]; [|done|done].
  destruct (bool_decide (gm (ic_Interfaces c) = ∅)) eqn:Hc; [done|]. intros [= <-].
  exists c. split; [done|]. by apply bool_decide_eq_false_1 in Hc.
Qed.
Lemma validateRoutes_Ok fs fs' :
  validateRoutes fs = (Ok (), fs') →
  (∃ c, LoadConfig Unmarshal_RoutesConfig "routes" fs = (Ok c, fs')) ∨
  LoadConfig Unmarshal_RoutesConfig "routes" fs = (Err ErrNotExist, fs').
Proof.
  unfold validateRoutes. intros [Hp Hk]%attempt_bind_Ok.
  destruct (LoadConfig _ _ fs) as [[c|err|w] fs1]; cbn [fst snd] in Hk; [|..|done].
  - injection Hk as <-. left. by exists c.
  - unfold os_IsNotExist in Hk. destruct (bool_decide (err = ErrNotExist)) eqn:He; [|done].
    apply bool_decide_eq_true_1 in He as ->. injection Hk as <-. by right.
Qed.
Lemma validateJackConfig_Ok fs fs' :
  validateJackConfig fs = (Ok (), fs') →
  ∃ c, LoadJackConfig fs = (Ok c, fs') ∧ gm (jc_Plugins c) ≠ ∅.
Proof.
  unfold validateJackConfig, mbind, M_bind. destruct (LoadJackConfig fs) as [[c|err|w] fs1]; [|done|done].
  destruct (bool_decide (gm (jc_Plugins c) = ∅)) eqn:Hc; [done|]. intros [= <-].
  exists c. split; [done|]. by apply bool_decide_eq_false_1 in Hc.
Qed.
(** When [jack validate] exits with 0, the three files were read one after the
    other, the interfaces and the settings load and are not empty, and the
    routes load or their loading failed with the bare error of a missing file. *)
Theorem valid_files_load fs lines fs' :
  runValidate fs = (Ok (lines, 0), fs') →
  ∃ interfaces jack fs1 fs2 fs3,
    LoadConfig Unmarshal_InterfacesConfig "interfaces" fs = (Ok interfaces, fs1) ∧
    gm (ic_Interfaces interfaces) ≠ ∅ ∧
    ((∃ routes, LoadConfig Unmarshal_RoutesConfig "routes" fs1 = (Ok routes, fs2)) ∨
     LoadConfig Unmarshal_RoutesConfig "routes" fs1 = (Err ErrNotExist, fs2)) ∧
    LoadJackConfig fs2 = (Ok jack, fs3) ∧ gm (jc_Plugins jack) ≠ ∅.
Proof.
  unfold runValidate. intros [P1 H1]%attempt_bind_Ok. apply attempt_bind_Ok in H1 as [P2 H2].
  apply attempt_bind_Ok in H2 as [P3 H3].
  destruct (validateInterfaces fs) as [r1 fs1] eqn:E1. cbn [fst snd] in *.
  destruct (validateRoutes fs1) as [r2 fs2] eqn:E2. cbn [fst snd] in *.
  destruct (validateJackConfig fs2) as [r3 fs3] eqn:E3. cbn [fst snd] in *.
  unfold mbind, M_bind in H3. destruct (validate_plugins plugin_files fs3) as [[vs|err|w] fs4]; [|done|done].
  cbn [app existsb] in H3.
  destruct ((verdict "interfaces.json" r1).2) eqn:V1; [done|].
  destruct ((verdict "routes.json" r2).2) eqn:V2; [done|].
  destruct ((verdict "jack.json" r3).2) eqn:V3; [done|]. clear H3.
  destruct (neither_Ok r1 P1 (verdict_valid _ _ V1)) as [[] ->].
  destruct (neither_Ok r2 P2 (verdict_valid _ _ V2)) as [[] ->].
  destruct (neither_Ok r3 P3 (verdict_valid _ _ V3)) as [[] ->].
  destruct (validateInterfaces_Ok _ _ E1) as (i & Ei & Hi).
  destruct (validateJackConfig_Ok _ _ E3) as (j & Ej & Hj).
  exists i, j, fs1, fs2, fs3. split_and!; [done..| |done|done]. by apply validateRoutes_Ok.
Qed.
End validated.

(** ** Lemmas: the list of checkpoints *)
Section list_checkpoints.
Context `{Host} `{RangeOrder} `{OS} `{Clock} `{Kernel} `{!Inspection} `{FloatToInt} `{FloatToUint}.
Context `{ConnectionUp} `{Times} (now : Z).
#[local] Instance views_client : ClientInterface := client_now now.
Notation R := (Remote Sys).

Lemma dec_enc_snapshot s :
  dec_record snapshot_tags set_snapshot zero_snapshot (enc_snapshot s) = Ok s.
Proof.
  destruct s as [i ts tr]. unfold dec_record, enc_snapshot. cbn [si_CheckpointID si_Timestamp si_Trigger].
  erewrite dec_members_cons; [|by apply tag_in|reflexivity].
  erewrite dec_members_cons; [|by apply tag_in|].
  2: { unfold set_snapshot. cbn. by rewrite parse_text_time. }
  by apply dec_members_one; [apply tag_in|].
Qed.
(** Decoding what json.Marshal makes of the generic value a document became. *)
Lemma any_marshal_snapshot s : Marshal (Unmarshal_any (enc_snapshot s)) = enc_snapshot s.
Proof. reflexivity. Qed.
Lemma marshal_snapshots (l : list SnapshotInfo) :
  Marshal <$> (Unmarshal_any <$> (enc_snapshot <$> l)) = enc_snapshot <$> l.
Proof. induction l as [|s l IH]; [done|]. by rewrite !fmap_cons, any_marshal_snapshot, IH. Qed.
Lemma respond_list (s : Sys) : respond now (through_json (command_request "checkpoint-list")) s =
  (Ok (ok_response (DSnapshots (ListSnapshots (w_state (sys_world s)))) []), s).
Proof. by destruct s. Qed.
(** Over a connection that works, [jack checkpoint list] shows one line for every
    checkpoint the daemon knows, with its identifier, time and trigger, in the
    daemon's order, and changes nothing. *)
Theorem checkpoints_are_listed (t : Term) :
  up (Rpc.line (tm_client t : R)) →
  let l := ListSnapshots (w_state (sys_world (far (tm_client t : R)))) in
  ∃ t', checkpointList t = (Ok (), t') ∧ far (tm_client t' : R) = far (tm_client t : R) ∧
    tm_out t' = tm_out t ++
      match l with
      | [] => [CliViews.line "No checkpoints available"]
      | _ => [table_line "CHECKPOINT ID" "TIMESTAMP" "TRIGGER"; CliViews.line (repeat_byte 70 hyphen)] ++
             (snapshot_line <$> l)
      end.
Proof.
  intros Hu l. destruct (ask_answers now (command_request "checkpoint-list") t
    (ok_response (DSnapshots l) []) (far (tm_client t : R))) as (w' & _ & E); [done|done| |done|].
  { apply respond_list. }
  assert (ask (command_request "checkpoint-list") t = _) as E' by exact E.
  assert (Unmarshal_snapshots (Marshal (Unmarshal_any (enc_slice enc_snapshot l))) = Ok l) as Hl.
  { destruct l as [|s l']; [done|]. generalize (s :: l'). clear. intros l.
    destruct l as [|s l]; [done|]. unfold enc_slice. generalize (s :: l). clear. intros l.
    assert (Marshal (Unmarshal_any (JArr (enc_snapshot <$> l))) = JArr (enc_snapshot <$> l)) as ->.
    { exact (f_equal JArr (marshal_snapshots l)). }
    apply dec_slice_enc. intros s _. apply dec_enc_snapshot. }
  unfold checkpointList, mbind at 1, M_bind at 1. rewrite E'.
  unfold mbind, M_bind, lift. change (rv_Data (received ?r)) with (Unmarshal_any (enc_data (rp_Data r))).
  cbn [rp_Data ok_response enc_data]. rewrite Hl. cbn [wrap].
  destruct l as [|s l']; eexists; (split; [reflexivity|]); by split.
Qed.
End list_checkpoints.

(** ** At concrete inputs *)

Definition whole_config : InterfacesConfig :=
  {| ic_Interfaces := Some {["lan" := with_field "mtu" (VInt 20) zero_Interface]}; ic_Version := "1.0" |}.
(** The files of a machine without static routes. *)
Definition no_routes_fs : FS :=
  {| fs_files := {["/etc/jack/interfaces.json" := CJson (enc_struct enc_config_field whole_config)]};
     fs_tick := 0 |}.
(** A missing routes file is an error, although it is meant to be optional: the
    error is looked for without what wraps it. *)
Example missing_routes_fail :
  (@validateRoutes reliable_os no_routes_fs).1 =
    Err (Wrapf "failed to read routes config: " ErrNotExist) ∧
  (snd <$> ((@runValidate reliable_os no_routes_fs).1 : res (list string * Z))) = Ok 1.
Proof. vm_compute. split; reflexivity. Qed.
(** An interface with an MTU that no commit accepts is valid. *)
Example invalid_interface_is_valid :
  (@validateInterfaces reliable_os no_routes_fs).1 = Ok () ∧
  Interface_Validate (with_field "mtu" (VInt 20) zero_Interface) ≠ None.
Proof. vm_compute. split; [reflexivity|discriminate]. Qed.
(** A firewall configuration is never looked at: the name tried is that of no
    plugin. *)
Example garbage_firewall_is_valid :
  "firewall.json" ∉ plugin_files.
Proof. apply (bool_decide_unpack _). vm_compute. exact I. Qed.
(** A counter above 2^63 is printed as the smallest int64. *)
Example huge_counter_is_negative :
  @traffic amd64_float_to_int "RX" (VNum (NInt 1)) (VNum (NInt (2 ^ 63))) VNil =
    Ok [CliViews.line "    RX:         1 packets (-9223372036854775808 B)"].
Proof. vm_compute. reflexivity. Qed.
Example tail_command :
  runLogs false true false 100 "" = ([], Some ["tail"; "-n"; "100"; "/var/log/jack/jack.log"]) ∧
  runLogs true true true 100 "1 hour ago" =
    ([], Some ["journalctl"; "-u"; "jack"; "-f"; "--since"; "1 hour ago"]).
Proof. split; reflexivity. Qed.
Example title_case : toTitleCase (spaced "rule_count") = "Rule Count".
Proof. vm_compute. reflexivity. Qed.
Example size_examples :
  formatBytes 1023 = Ok "1023 B" ∧ formatBytes 1536 = Ok "1.5 KiB" ∧
  formatBytes max_int64 = Ok "8.0 EiB".
Proof. vm_compute. split_and!; reflexivity. Qed.
